(* ===== verification/_CoqProject ===== *)
-Q . S2P
Prelude.v
Texts.v
Doubles.v
Arxml.v
Payload.v
Addresses.v
E2E.v
Options.v
Entries.v
SomeIp.v
SdMessage.v
SdNetwork.v
Rpc.v
Connections.v
Core.v
CoreVoid.v
Fsm.v
PubSub.v
PubSubClient.v
SdServer.v
VehicleStatus.v
SdClient.v
SdWaits.v
Monitor.v
Dtc.v
DiagManager.v
Uds.v
Security.v
Conversations.v
VehicleData.v
Doip.v
Phm.v
Health.v
HealthManifest.v
Exec.v
Triggers.v
Platform.v
ExecManifest.v
StateManager.v
Queue.v
DiagManifest.v
Storage.v
Ucm.v
PackageService.v
Errors.v
VehicleUpdate.v
UpdateService.v
Logging.v
Deterministic.v
Manifests.v
Vehicle.v
Programs.v
