(* ===== verification/Prelude.v ===== *)
(** * Adaptive-AUTOSAR: verification library

    The repository implements parts of the AUTOSAR Adaptive Platform in C++: SOME/IP
    communication with service discovery and publish/subscribe, execution and state
    management, diagnostics (UDS, DoIP), health management, persistency, update
    management and logging, with the applications of a simulated vehicle on top.  This
    library models the platform's own code (src/ara), the reader of its manifests
    (src/arxml), the applications (src/application) and the generated services
    (src-gen) as executable definitions, one file per component, and proves what makes
    each of them correct, or what the code does instead where it does not do what it
    means to.

    ** How the program's parts interact

    Execution management reads the manifest (addresses, function groups, processes),
    starts the bootstrap processes, and serves state requests over RPC; the first request
    of state management brings the machine to its start-up state, and the change of state
    starts the processes that it activates.  Such a process offers a service through the
    discovery server, which multicasts SOME/IP-SD messages through a network layer with a
    sending queue; a discovery client finds the offer and gets an endpoint from it.
    Over that endpoint applications call methods (RPC over TCP, with reassembly of
    messages: the package-management proxy and skeleton are such a pair) or subscribe to
    events (publish/subscribe, whose entries travel in SD messages, and whose
    notifications travel in UDP datagrams: the vehicle status service).  Messages are
    built from entries, which carry options; all of them are big-endian payloads; events
    can be protected end to end by a CRC and a counter.  Pollers and applications exchange
    messages through concurrent queues.

    The diagnostic manager discovers a vehicle, and puts a converter between OBD tools and
    the vehicle's DoIP server, which answers from the cached values of an HTTP service.
    UDS requests are routed to services (memory transfer, reset, routines, security
    access, reading of identifiers) inside conversations; monitors debounce their reports
    into events, and trouble codes keep the status bytes.  The vehicle reports checkpoints
    through a named pipe to health management, which combines supervisions and calls a
    recovery action when one expires.  The update manager stores packages that come over
    the wire and installs them through the persistency component; the watchdog and the
    vehicle keep journals in the same storages.

    ** Files and the code they model (paths under src/src, src/src-gen for generated code)

    Shared:
    - Prelude.v: outcomes of C++ calls (return, exception, undefined behaviour, fuel),
      methods as state passing with exceptions ([M]), machine integers, vectors of bytes,
      shared lemmas and tactics ([run], [ulia], hints [word], [word_rw]).
    - Texts.v: std::string and its conversions (std::stoul, std::to_string); Doubles.v:
      binary64 numbers as std::stod and the conversions to integers use them.
    - Core.v: ara/core/optional.h and result.h over a heap of objects with their lives;
      CoreVoid.v: Result<void, E> and the rest of result.h.
    Manifests:
    - Arxml.v: arxml (reader, nodes), the conversions of pugixml that they call, and
      application/helper/network_configuration.cpp, rpc_configuration.cpp; the class
      [XmlText] is what the XML parser and printer promise.
    - Manifests.v: what the vehicle status service reads; helper/argument_configuration.cpp.
    - ExecManifest.v: what execution management reads, and its start from a file;
      StateManager.v: application/platform/state_management.cpp as a process with its own
      reading of the manifest; HealthManifest.v, DiagManifest.v: what health management and
      the diagnostic manager read, and the objects that they configure with it.
    Communication:
    - Payload.v: ara/com/helper/payload_helper.cpp, ipv4_address.cpp; the class [Codec],
      which every part of a message implements and every container relies on.
      Addresses.v: addresses as texts.
    - E2E.v: ara/com/e2e/profile11.cpp.  The lazily built CRC table is part of the state.
    - Options.v, Entries.v: ara/com/option, ara/com/entry, as [Codec]s with their rules.
    - SomeIp.v, SdMessage.v: ara/com/someip/someip_message.cpp,
      rpc/someip_rpc_message.cpp, sd/someip_sd_message.cpp.
    - SdNetwork.v: sd/sd_network_layer.cpp, helper/network_layer.h.
    - Rpc.v: ara/com/someip/rpc: client, server, TCP reassembly; Connections.v: its socket
      classes with setting up, accepting and leaving.
    - Fsm.v: ara/com/helper/finite_state_machine.h; the class [StateMachine].
    - PubSub.v, SdServer.v, SdClient.v: ara/com/someip/pubsub and sd, with their machine
      states as instances of that class and their threads as program counters.
      PubSubClient.v, SdWaits.v: the calls of both clients that wait on condition variables.
    - Queue.v: ara/com/helper/concurrent_queue.h as interleaved atomic steps.
    - VehicleStatus.v: src-gen/vehicle_status, put together from the files above.
    Execution and state:
    - Exec.v: ara/exec (state and execution server and client), ara/sm/trigger.h.
      Triggers.v: the rest of ara/sm with handlers that call back, and ara/com/cg.
    - Platform.v: application/platform (execution_management.cpp, process_manager.cpp,
      state_management.cpp) over a model of the system's process table.
    - Deterministic.v: ara/exec/deterministic_client.cpp as interleaved steps.
    Diagnostics:
    - Monitor.v: ara/diag/monitor.cpp, event.cpp, debouncing; the class [Debouncer].
    - Dtc.v: dtc_information.cpp, operation_cycle.cpp, condition.cpp.
    - Uds.v, Security.v: ara/diag/routing, ecu_reset_request.cpp, generic_routine.cpp,
      security_access.cpp, routing/delay_timer.cpp; services behind one interface.
    - Conversations.v: conversation.cpp with the storage of its static vector.
    - VehicleData.v: application/helper (read_data_by_identifier.cpp, curl_wrapper.cpp,
      memory_cache.h); Doip.v: application/doip; DiagManager.v:
      application/platform/diagnostic_manager.cpp.
    Health, storage, updates, logs:
    - Phm.v: ara/phm/supervisors, the global supervision as interleaved steps of its
      supervisions' threads; Health.v: the checkpoint communicators of two processes on
      their pipe, and application/platform/platform_health_management.cpp with its threads.
    - Storage.v, Ucm.v: ara/per, ara/ucm, over a file system whose calls may fail.
    - PackageService.v: src-gen/package_management; VehicleUpdate.v:
      application/platform/vehicle_update_config_manager.cpp, against the class
      [PackageOperations]; the class [Carries] is what a connection promises to the proxy.
    - UpdateService.v: application/platform/update_config_manager.cpp and both constructors
      of src-gen/package_management, with the sockets as a connection of that kind.
    - Logging.v: ara/log.  Errors.v: the error domains of ara/exec, per, ucm and diag, error
      codes and instance specifiers (ara/core).
    Applications:
    - Vehicle.v: application/extended_vehicle.cpp, watchdog_application.cpp.
    - Programs.v: main.cpp, application/*_main.cpp, time_synchronization.cpp.

    Fields, methods and constants keep their names; the comment before a definition names
    the lines it translates.  A method of an object is a function of its state record; a
    callback is a parameter or a list of emitted values; a thread is a program counter in
    the state, and a run is a list of steps of any of the threads.

    ** What the theorems show

    - Codecs: options, entries, RPC and SD messages are read back from their payloads;
      reading arbitrary bytes is classified completely, reads outside the vector included
      (an SD message of at least sixteen bytes is always read in bounds, an RPC message is
      not); the options index that is written counts every option twice.
    - Communication end to end: a server's answers over an arbitrarily cut TCP stream, the
      server's answer to every message, sessions; the publish/subscribe server refines a
      counter of subscriptions; the delivery of events and its overflow; SD messages cross
      the network layer; a status that is sent reaches the proxy's handler, with skeleton
      and proxy configured from their manifests, unless the skeleton's discovery server
      refuses the initial delays.
    - Connections: what an RPC server keeps from one client to the next; acknowledgements
      come to the subscriber in order.
    - Protection: protected streams are accepted, one changed byte is detected, the table
      computes the bit-serial CRC.
    - Discovery: every interleaving sends one offer per matching find and one stop offer
      at the end; a stopped server that is started again is stuck; a server's offer
      reaches a client; expired offers are forgotten without a new search; a call that waits
      for a service tells the truth about the client's state, which is not always the
      service's; the client's destructor ends and releases who waits.
    - Execution: a request to change the state, from the client over the wire to the state
      server and back; the machine that is declared in a manifest is the one that starts,
      up to its start-up state; after the shutdown no child is left; the deterministic
      clients of a process share one cycle thread.
    - Core types: programs over optionals, results and results without a value observe what
      they would with plain values, except when a value is assigned to itself.
    - Diagnostics: transfers stay inside the memory pool but for one read that is shown,
      and what was downloaded is uploaded; levels are unlocked only by their keys, and
      never locked again; debouncing stays in its bounds; events only show settled states;
      status bytes change under their mask; an OBD query is answered from the vehicle's
      data through both converters; answers are not older than the cache's lifetime.
    - Health: of reports that do not overlap the global status is the worst and exactly its
      changes are announced, of others it may be stale; tolerance and deadlines; checkpoints
      arrive in order, whoever reads the pipe as well; recovery logs at most two texts in
      every interleaving, exactly one for supervisions that do not call at the same time.
    - Persistency and updates: writes are all or nothing in every state they pass through;
      blocks are reassembled; an activation installs what was staged, but records the
      oldest transfer, even one that failed; the remote package manager behaves as the
      local one; the update service, set up from its manifest, serves any number of clients
      over cut streams as the package manager itself would, and at most one of them succeeds.
    - Triggers and programs: who hears which state when a subscriber corrects it; what the
      processes report to execution management; how they end.
    - Manifests, logging, applications: what is declared is what is read, within the width
      of unsigned int; state management finds the start-up state that execution management
      serves, while its vector of groups has not moved; supervisions and diagnostic objects
      are as declared, and which numbers end the process instead; where log messages go; what
      the vehicle and the watchdog log, keep, report and send in a whole run, and the delays
      with which the vehicle does not start.

    ** Fuel and bounds

    Loops are structural where the code's are (over lists, or over the bits of a byte).
    The loop that reads SD entries has the length of the payload as fuel, and each round
    consumes sixteen bytes; the receive loop of the RPC sockets has the length of its
    buffer as fuel, and each round consumes eight bytes at least; waiting for children to
    end has 42 rounds of 50 ms as fuel, and the code gives up after 2000 ms.  The theorems
    rule out [OutOfFuel].  Loops that run until a cancellation are folds over what happens
    in their rounds.  Integers have their width: conversions are written out as [u8],
    [u16], [u32], [i8], [i16], [i32], comparisons and sums with the promotions of the code.

    ** What is not modelled, and why

    Sockets, pollers and timers themselves (the AsyncBsdSocketLib, DoipLib and ObdEmulator
    submodules are not in the repository): datagrams and chunks are values, sleeping is a
    choice of the trace, the formats of DoIP are a class.  pugixml's parser and printer,
    jsoncpp, curl, the shell and the engines of <random> are parameters with their
    documented behaviour.  Members that threads share without a lock are read and written one
    access at a time, as if they were atomic; where the code leaves them plain this is a data
    race, and the theorems show what already happens without its undefined behaviour.  Spurious wake-ups of condition variables are left out, except where
    an acknowledgement is waited for (PubSubClient.v), and the notification of a timer's worker,
    which is sent without its mutex, is taken to arrive.  What is only declared in a header
    (parts of ara/com/cg, the pure virtual routines) has no definition to translate.  Printing
    to the console, getters that return a field and operators that are defaulted or deleted
    are not listed one by one. *)

From stdpp Require Export base gmap list strings.
From Stdlib Require Export ZArith Lia.

#[global] Open Scope Z_scope.

(** ** Outcomes of C++ code

    A call returns, throws, has undefined behaviour, or (in a loop that is given
    fuel) has not finished.  Theorems that rule out the last two constructors are
    the memory-safety and termination theorems of the library. *)

(** The exception classes the modelled code throws. *)
Inductive exn :=
  | std_out_of_range
  | std_invalid_argument
  | std_length_error
  | std_logic_error
  | std_bad_function_call
  | std_system_error
  | std_terminate
  | std_future_error
  | std_runtime_error
  | NrcExecption (nrc : Z).

#[export] Instance exn_eq_dec : EqDecision exn.
Proof. solve_decision. Defined.

Inductive outcome (A : Type) : Type :=
  | Ok (a : A)
  | Throw (e : exn)
  | Undefined
  | OutOfFuel.
Arguments Ok {A} a.
Arguments Throw {A} e.
Arguments Undefined {A}.
Arguments OutOfFuel {A}.

#[export] Instance outcome_ret : MRet outcome := @Ok.
#[export] Instance outcome_bind : MBind outcome := fun A B f m =>
  match m with
  | Ok a => f a
  | Throw e => Throw e
  | Undefined => Undefined
  | OutOfFuel => OutOfFuel
  end.

Definition is_ok {A} (m : outcome A) : bool :=
  match m with Ok _ => true | _ => false end.

(** The call has defined behaviour and finishes: it returns or throws. *)
Definition defined {A} (m : outcome A) : Prop :=
  match m with Undefined | OutOfFuel => False | _ => True end.

Lemma Ok_bind {A B} (a : A) (f : A → outcome B) : Ok a ≫= f = f a.
Proof. done. Qed.

Lemma bind_Ok {A B} (m : outcome A) (f : A → outcome B) b :
  m ≫= f = Ok b ↔ ∃ a, m = Ok a ∧ f a = Ok b.
Proof. destruct m; simpl; split; intros H; try done; eauto; destruct H as (?&?&?); simplify_eq; done. Qed.

Lemma defined_bind {A B} (m : outcome A) (f : A → outcome B) :
  defined m → (∀ a, m = Ok a → defined (f a)) → defined (m ≫= f).
Proof. destruct m; simpl; intros Hm Hf; try done. by apply Hf. Qed.

(** ** Methods of an object: state passing with exceptions

    [M S A] is the body of a method of an object with state [S]; a throw keeps the
    state reached so far, as a C++ exception does. *)
Definition M (S A : Type) : Type := S → outcome A * S.

#[export] Instance M_ret {S} : MRet (M S) := fun A a s => (Ok a, s).
#[export] Instance M_bind {S} : MBind (M S) := fun A B f m s =>
  match m s with
  | (Ok a, s') => f a s'
  | (Throw e, s') => (Throw e, s')
  | (Undefined, s') => (Undefined, s')
  | (OutOfFuel, s') => (OutOfFuel, s')
  end.

Definition get {S} : M S S := fun s => (Ok s, s).
Definition modify {S} (f : S → S) : M S () := fun s => (Ok (), f s).
Definition raise {S A} (e : exn) : M S A := fun s => (Throw e, s).
Definition lift {S A} (m : outcome A) : M S A := fun s => (m, s).

(** [try { m } catch (std::out_of_range) { h }]. *)
Definition catch_out_of_range {S A} (m h : M S A) : M S A := fun s =>
  match m s with
  | (Throw std_out_of_range, s') => h s'
  | r => r
  end.

(** Executes the method calls at the head of a goal. *)
Ltac run := cbv [get modify raise lift mbind M_bind mret M_ret]; cbn beta iota.

(** ** Machine integers

    A w-bit unsigned value is a [Z] in range; a conversion to it is [mod]. *)
Definition is_u8 (z : Z) : Prop := 0 <= z < 256.
Definition is_u16 (z : Z) : Prop := 0 <= z < 65536.
Definition is_u32 (z : Z) : Prop := 0 <= z < 4294967296.
Definition is_i16 (z : Z) : Prop := -32768 <= z < 32768.
Definition is_i32 (z : Z) : Prop := -2147483648 <= z < 2147483648.

Definition u8 (z : Z) : Z := z mod 256.
Definition u16 (z : Z) : Z := z mod 65536.
Definition u32 (z : Z) : Z := z mod 4294967296.
Definition u64 (z : Z) : Z := z mod 18446744073709551616.

(** Two's complement conversions. *)
Definition i8 (z : Z) : Z := (z + 128) mod 256 - 128.
Definition i16 (z : Z) : Z := (z + 32768) mod 65536 - 32768.
Definition i32 (z : Z) : Z := (z + 2147483648) mod 4294967296 - 2147483648.

(** Turns [div] and [mod] by constants into linear facts and calls [lia]. *)
Ltac ulia :=
  unfold is_u8, is_u16, is_u32, is_i16, is_i32, u8, u16, u32, u64, i8, i16, i32 in *;
  Z.div_mod_to_equations; lia.

Lemma u8_is z : is_u8 (u8 z).
Proof. ulia. Qed.
Lemma u16_is z : is_u16 (u16 z).
Proof. ulia. Qed.
Lemma u32_is z : is_u32 (u32 z).
Proof. ulia. Qed.
Lemma u8_id z : is_u8 z → u8 z = z.
Proof. ulia. Qed.
Lemma u16_id z : is_u16 z → u16 z = z.
Proof. ulia. Qed.
Lemma u32_id z : is_u32 z → u32 z = z.
Proof. ulia. Qed.

(** Or-ing a value into the low bits a shift has cleared is an addition. *)
Lemma lor_shiftl_add a b n :
  0 <= n → 0 <= b < 2 ^ n → Z.lor (a ≪ n) b = a * 2 ^ n + b.
Proof.
  intros Hn Hb. rewrite <- Z.shiftl_mul_pow2 by lia.
  assert (Hz : Z.land (a ≪ n) b = 0).
  { apply Z.bits_inj'. intros i Hi. rewrite Z.land_spec, Z.bits_0, Z.shiftl_spec by lia.
    destruct (Z.lt_ge_cases i n) as [Hlt|Hge].
    - rewrite Z.testbit_neg_r by lia. done.
    - rewrite <- (Z.mod_small b (2 ^ n)) by lia.
      rewrite Z.mod_pow2_bits_high by lia. apply andb_false_r. }
  rewrite <- Z.lxor_lor by done. symmetry. by apply Z.add_nocarry_lxor.
Qed.

(** Bitwise operations stay within the width of their arguments. *)
Lemma lt_pow2_log2 a n : 0 <= n → 0 <= a → (a < 2 ^ n ↔ a = 0 ∨ Z.log2 a < n).
Proof.
  intros Hn Ha. destruct (Z.eq_dec a 0) as [->|Hne].
  - split; [by left|]. intros _. by apply Z.pow_pos_nonneg.
  - rewrite Z.log2_lt_pow2 by lia. intuition lia.
Qed.

Lemma lxor_bound a b n :
  0 <= n → 0 <= a < 2 ^ n → 0 <= b < 2 ^ n → 0 <= Z.lxor a b < 2 ^ n.
Proof.
  intros Hn [Ha Ha'] [Hb Hb']. assert (0 <= Z.lxor a b) by (by apply Z.lxor_nonneg).
  split; [done|]. rewrite lt_pow2_log2 in * by done.
  pose proof (Z.log2_lxor a b Ha Hb).
  destruct Ha' as [->|?]; [rewrite Z.lxor_0_l; destruct Hb'; auto|].
  destruct Hb' as [->|?]; [rewrite Z.lxor_0_r; auto|]. right. lia.
Qed.

Lemma lor_bound a b n :
  0 <= n → 0 <= a < 2 ^ n → 0 <= b < 2 ^ n → 0 <= Z.lor a b < 2 ^ n.
Proof.
  intros Hn [Ha Ha'] [Hb Hb']. assert (0 <= Z.lor a b) by (by apply Z.lor_nonneg).
  split; [done|]. rewrite lt_pow2_log2 in * by done. rewrite Z.log2_lor by done.
  destruct Ha' as [->|?]; [rewrite Z.lor_0_l; destruct Hb'; auto|].
  { right. simpl. pose proof (Z.log2_nonneg b). lia. }
  destruct Hb' as [->|?]; [rewrite Z.lor_0_r|]; right; simpl; pose proof (Z.log2_nonneg a); lia.
Qed.

Lemma land_bound a b n : 0 <= n → 0 <= a → 0 <= b < 2 ^ n → 0 <= Z.land a b < 2 ^ n.
Proof.
  intros Hn Ha [Hb Hb']. assert (0 <= Z.land a b) by (apply Z.land_nonneg; by left).
  split; [done|]. apply (Z.le_lt_trans _ b); [|done].
  rewrite <- (Z2N.id a), <- (Z2N.id b), <- N2Z.inj_land by done.
  apply N2Z.inj_le, N.land_le_r.
Qed.

Lemma lxor_u8 a b : is_u8 a → is_u8 b → is_u8 (Z.lxor a b).
Proof. apply (lxor_bound a b 8). lia. Qed.

Lemma lxor_cancel_l a b c : Z.lxor a b = Z.lxor a c → b = c.
Proof.
  intros H. apply (f_equal (Z.lxor a)) in H.
  by rewrite <- !Z.lxor_assoc, Z.lxor_nilpotent, !Z.lxor_0_l in H.
Qed.

Lemma lxor_cancel_r a b c : Z.lxor b a = Z.lxor c a → b = c.
Proof. rewrite !(Z.lxor_comm _ a). apply lxor_cancel_l. Qed.

Create HintDb word.
#[export] Hint Resolve u8_is u16_is u32_is lxor_u8 : word.
Create Rewrite HintDb word_rw.
#[export] Hint Rewrite u8_id u16_id u32_id using (solve [eauto with word | ulia]) : word_rw.

(** ** Vectors of bytes *)
Abbreviation bytes := (list Z).
Definition is_bytes (v : bytes) : Prop := Forall is_u8 v.

Definition size (v : bytes) : Z := Z.of_nat (length v).

(** [v.at(i)]: throws when [i] is out of range. *)
Definition at_ (v : bytes) (i : Z) : outcome Z :=
  if (0 <=? i) && (i <? size v) then
    match v !! Z.to_nat i with Some b => Ok b | None => Throw std_out_of_range end
  else Throw std_out_of_range.

(** [v[i]]: undefined behaviour when [i] is out of range. *)
Definition index_ (v : bytes) (i : Z) : outcome Z :=
  if (0 <=? i) && (i <? size v) then
    match v !! Z.to_nat i with Some b => Ok b | None => Undefined end
  else Undefined.

(** The range constructor [std::vector(v.begin() + first, v.begin() + last)]: an
    iterator past [end()] is undefined behaviour, a reversed range asks for a
    negative number of elements and throws [std::length_error]. *)
Definition range_ (v : bytes) (first last : Z) : outcome bytes :=
  if (0 <=? first) && (first <=? size v) && (0 <=? last) && (last <=? size v) then
    if first <=? last then Ok (take (Z.to_nat (last - first)) (drop (Z.to_nat first) v))
    else Throw std_length_error
  else Undefined.

(** Proves a property of concrete data by evaluation: conjunctions, [Forall] over an
    explicit list, comparisons of numbers, and alternatives. *)
Ltac by_eval :=
  cbv beta iota;
  lazymatch goal with
  | |- True => exact I
  | |- _ ∧ _ => split; by_eval
  | |- _ ∨ _ => first [left; by_eval | right; by_eval]
  | |- Forall _ [] => apply Forall_nil_2
  | |- Forall _ (_ :: _) => apply Forall_cons; by_eval
  | |- Forall ?P ?l => let l' := eval hnf in l in progress change (Forall P l'); by_eval
  | |- (_ <= _)%Z => apply Z.leb_le; vm_compute; reflexivity
  | |- (_ < _)%Z => vm_compute; reflexivity
  | |- (_ <= _)%nat => apply Nat.leb_le; vm_compute; reflexivity
  | |- (_ < _)%nat => apply Nat.ltb_lt; vm_compute; reflexivity
  | |- _ = _ => vm_compute; reflexivity
  | |- _ ≠ _ => vm_compute; discriminate
  | |- _ => progress hnf; by_eval
  end.
