(* ===== verification/Texts.v ===== *)
(** * Texts: what the standard library makes of strings

    The parts of <string> that several components use: numbers in texts, and texts as
    vectors of bytes. *)

From S2P Require Import Prelude.
From Stdlib Require Import Ascii.
#[local] Open Scope Z_scope.

(** ** Numbers in texts: leading white space, a sign, digits; what follows is ignored *)

Definition digit (c : ascii) : option Z :=
  let n := Z.of_nat (nat_of_ascii c) in
  if (48 <=? n) && (n <=? 57) then Some (n - 48) else None.

Definition is_space (c : ascii) : bool :=
  let n := Z.of_nat (nat_of_ascii c) in (n =? 32) || ((9 <=? n) && (n <=? 13)).

Fixpoint digits (s : string) (acc : option Z) : option Z :=
  match s with
  | EmptyString => acc
  | String c s' =>
      match digit c with
      | Some d => digits s' (Some (default 0 acc * 10 + d))
      | None => acc
      end
  end.

Fixpoint skip_space (s : string) : string :=
  match s with
  | String c s' => if is_space c then skip_space s' else s
  | EmptyString => s
  end.

(** The sign and what follows the white space in front of it. *)
Definition signed (s : string) : Z * string :=
  match skip_space s with
  | String c s' =>
      if bool_decide (c = "-"%char) then (-1, s')
      else if bool_decide (c = "+"%char) then (1, s') else (1, String c s')
  | EmptyString => (1, EmptyString)
  end.

(** [std::stoi] *)
Definition stoi (s : string) : outcome Z :=
  let '(sign, s) := signed s in
  match digits s None with
  | None => Throw std_invalid_argument
  | Some n =>
      let n := sign * n in
      if (-2147483648 <=? n) && (n <=? 2147483647) then Ok n else Throw std_out_of_range
  end.

(** [std::stoul] with a 64-bit [unsigned long]: a sign is accepted and negates the value
    modulo its width. *)
Definition stoul (s : string) : outcome Z :=
  let '(sign, s) := signed s in
  match digits s None with
  | None => Throw std_invalid_argument
  | Some n => if n <? 18446744073709551616 then Ok (u64 (sign * n)) else Throw std_out_of_range
  end.

Example stoul_1 : stoul " 42 km" = Ok 42.
Proof. reflexivity. Qed.

Example stoul_2 : stoul "-5" = Ok 18446744073709551611.
Proof. reflexivity. Qed.

(** ** Texts and bytes *)

Definition bytes_of_string (s : string) : bytes :=
  map (fun c => Z.of_N (Ascii.N_of_ascii c)) (String.list_ascii_of_string s).
Definition string_of_bytes (v : bytes) : string :=
  String.string_of_list_ascii (map (fun b => Ascii.ascii_of_N (Z.to_N b)) v).

Lemma string_of_bytes_of_string s : string_of_bytes (bytes_of_string s) = s.
Proof.
  unfold string_of_bytes, bytes_of_string. rewrite map_map.
  rewrite (map_ext _ id) by (intros c; rewrite N2Z.id; apply Ascii.ascii_N_embedding).
  rewrite map_id. apply String.string_of_list_ascii_of_string.
Qed.

Lemma is_bytes_of_string s : is_bytes (bytes_of_string s).
Proof.
  unfold bytes_of_string. apply Forall_map, Forall_true. intros c.
  pose proof (Ascii.N_ascii_bounded c). unfold is_u8, compose. lia.
Qed.

Lemma length_bytes_of_string s : length (bytes_of_string s) = String.length s.
Proof. unfold bytes_of_string. rewrite length_map. induction s as [|c s IH]; cbn; [done|]. by f_equal. Qed.

(** ** Concatenation *)

Lemma sapp_assoc (a b c : string) : ((a +:+ b) +:+ c)%string = (a +:+ (b +:+ c))%string.
Proof. induction a as [|x a IH]; [done|]. change (String x ((a +:+ b) +:+ c) = String x (a +:+ (b +:+ c)))%string. by rewrite IH. Qed.

Lemma sapp_nil_r (a : string) : (a +:+ "")%string = a.
Proof. induction a as [|x a IH]; [done|]. change (String x (a +:+ "") = String x a)%string. by rewrite IH. Qed.
