(* ===== verification/Doubles.v ===== *)
(** * Doubles: what the standard library makes of texts of real numbers

    The [double] arithmetic the applications use, on the axiom-free model of binary64 of
    the Standard Library: conversions from integers and texts, multiplication, and the
    conversion to an unsigned integer, which is undefined behaviour out of range. *)

From S2P Require Import Prelude Texts.
From Stdlib Require Import Ascii.
From Stdlib Require Import SpecFloat.
#[local] Open Scope Z_scope.

Definition double : Type := spec_float.

(** binary64 *)
Definition prec : Z := 53.
Definition emax : Z := 1024.

Definition double_mul (x y : double) : double := SFmul prec emax x y.
Definition double_of_Z (n : Z) : double := binary_normalize prec emax n 0 false.

(** The double nearest to [m * 10 ^ e]. *)
Definition double_of_decimal (negative : bool) (m e : Z) : double :=
  if m =? 0 then S754_zero negative
  else if 0 <=? e then
    match m * 10 ^ e with
    | Zpos p => binary_round prec emax negative p 0
    | _ => S754_zero negative
    end
  else
    let '(q, e', l) := SFdiv_core_binary prec emax m 0 (10 ^ (- e)) 0 in
    binary_round_aux prec emax negative q e' l.

(** The double nearest to [m * 2 ^ e]. *)
Definition double_of_binary (negative : bool) (m e : Z) : double :=
  match m with
  | Zpos p => binary_round prec emax negative p e
  | _ => S754_zero negative
  end.

(** ** [std::stod] *)

Definition hex_digit (c : ascii) : option Z :=
  let n := Z.of_nat (nat_of_ascii c) in
  if (48 <=? n) && (n <=? 57) then Some (n - 48)
  else if (97 <=? n) && (n <=? 102) then Some (n - 87)
  else if (65 <=? n) && (n <=? 70) then Some (n - 55)
  else None.

(** The digits at the head of a text in some base: their value added to [acc], their
    number added to [k], and the rest. *)
Fixpoint digits_of (digit : ascii → option Z) (base : Z) (s : string) (acc k : Z) : Z * Z * string :=
  match s with
  | String c s' =>
      match digit c with
      | Some d => digits_of digit base s' (acc * base + d) (k + 1)
      | None => (acc, k, s)
      end
  | EmptyString => (acc, k, s)
  end.

(** Digits with at most one point among them: value, digits after the point, rest;
    [None] without any digit. *)
Definition mantissa (digit : ascii → option Z) (base : Z) (s : string) : option (Z * Z * string) :=
  let '(m, k, s) := digits_of digit base s 0 0 in
  match s with
  | String "."%char s' =>
      let '(m, k', s') := digits_of digit base s' m 0 in
      if k + k' =? 0 then None else Some (m, k', s')
  | _ => if k =? 0 then None else Some (m, 0, s)
  end.

Definition lower (c : ascii) : ascii :=
  let n := nat_of_ascii c in
  if ((65 <=? n) && (n <=? 90))%nat then ascii_of_nat (n + 32) else c.

(** The exponent behind a mantissa, when its letter is followed by a number. *)
Definition exponent (letter : ascii) (s : string) : Z :=
  match s with
  | String c s =>
      if bool_decide (lower c = letter) then
        match s with
        | String "-"%char s => - default 0 (digits s None)
        | String "+"%char s => default 0 (digits s None)
        | _ => default 0 (digits s None)
        end
      else 0
  | EmptyString => 0
  end.

(** Whether a text begins with a word, whatever its case. *)
Fixpoint starts_with (word s : string) : bool :=
  match word, s with
  | EmptyString, _ => true
  | String w word, String c s => bool_decide (lower c = w) && starts_with word s
  | _, EmptyString => false
  end.

(** Below the normal numbers. *)
Definition tiny (x : double) : bool :=
  match x with
  | S754_zero _ => true
  | S754_finite _ m _ => Zpos m <? 2 ^ 52
  | _ => false
  end.

(** [x] is exactly [m * 10 ^ e]. *)
Definition exact_decimal (x : double) (m e : Z) : bool :=
  match x with
  | S754_zero _ => m =? 0
  | S754_finite _ n f =>
      m * 10 ^ Z.max 0 e * 2 ^ Z.max 0 (- f) =? Zpos n * 2 ^ Z.max 0 f * 10 ^ Z.max 0 (- e)
  | _ => false
  end.

(** Out of range when the number is too big, or too small to be written exactly. *)
Definition in_range (exact : bool) (x : double) : outcome double :=
  match x with
  | S754_infinity _ => Throw std_out_of_range
  | _ => if tiny x && negb exact then Throw std_out_of_range else Ok x
  end.

(** [std::stod]: white space, a sign, then an infinity, a NaN, a hexadecimal or a decimal
    number; what follows is ignored. *)
Definition stod (s : string) : outcome double :=
  let '(sign, s) := signed s in
  let negative := sign <? 0 in
  let decimal :=
    match mantissa digit 10 s with
    | Some (m, k, rest) =>
        let e := exponent "e"%char rest - k in
        let x := double_of_decimal negative m e in in_range (exact_decimal x m e) x
    | None => Throw std_invalid_argument
    end in
  if starts_with "inf" s then Ok (S754_infinity negative)
  else if starts_with "nan" s then Ok S754_nan
  else if starts_with "0x" s then
    match mantissa hex_digit 16 (String.substring 2 (String.length s) s) with
    | Some (m, k, rest) =>
        let e := exponent "p"%char rest - 4 * k in
        let x := double_of_binary negative m e in
        in_range (match x with
                  | S754_zero _ => m =? 0
                  | S754_finite _ n f => m * 2 ^ Z.max 0 (e - f) =? Zpos n * 2 ^ Z.max 0 (f - e)
                  | _ => false
                  end) x
    | None => decimal
    end
  else decimal.

(** ** Conversion to an integer *)

(** The integer part, [None] for infinities and NaN. *)
Definition truncate (x : double) : option Z :=
  match x with
  | S754_zero _ => Some 0
  | S754_finite negative m e =>
      let n := if 0 <=? e then Zpos m * 2 ^ e else Zpos m / 2 ^ (- e) in
      Some (if negative : bool then - n else n)
  | _ => None
  end.

(** [static_cast] of a [double] to an unsigned type below [bound]. *)
Definition cast_unsigned (bound : Z) (x : double) : outcome Z :=
  match truncate x with
  | Some n => if (0 <=? n) && (n <? bound) then Ok n else Undefined
  | None => Undefined
  end.

Lemma cast_unsigned_bound bound x n : cast_unsigned bound x = Ok n → 0 <= n < bound.
Proof.
  unfold cast_unsigned. destruct (truncate x) as [m|]; [|done].
  destruct (Z.leb_spec 0 m), (Z.ltb_spec m bound); simpl; intros; by simplify_eq.
Qed.

(** Known values. *)
Example stod_tenth : stod " 0.1" = Ok (S754_finite false 7205759403792794 (-56)).
Proof. vm_compute. reflexivity. Qed.
Example stod_hex : stod "0x1.8p1z" = Ok (S754_finite false 6755399441055744 (-51)).
Proof. vm_compute. reflexivity. Qed.
Example stod_errors : stod "x" = Throw std_invalid_argument ∧ stod "1e400" = Throw std_out_of_range ∧
  stod "1e-400" = Throw std_out_of_range ∧ stod "-0." = Ok (S754_zero true).
Proof. vm_compute. repeat split. Qed.
Example stod_down : stod "-12.5e1" = Ok (double_of_Z (-125)).
Proof. vm_compute. reflexivity. Qed.
