(* ===== verification/Arxml.v ===== *)
(** * ARXML configuration: arxml, application/helper/network_configuration.cpp,
    rpc_configuration.cpp, argument_configuration.cpp

    Documents as trees, what pugixml's handles and conversions make of them, the reader on
    top of them, and the helpers that look up network addresses.  The XML parser and printer
    themselves are parameters. *)

From stdpp Require Import strings pretty.
From S2P Require Import Prelude Texts.
From Stdlib Require Import Ascii.
#[local] Open Scope Z_scope.

(** ** Documents *)

(** A node: an element, character data (plain or CDATA), the declaration, or a document. *)
Inductive node :=
  | Element (name : string) (attributes : list (string * string)) (children : list node)
  | CharacterData (value : string)
  | Declaration (attributes : list (string * string))
  | Document (children : list node).

(** A handle, which may be null. *)
Abbreviation handle := (option node).

(** ** The conversions of pugixml *)
Module pugi.

Definition name_of (n : node) : option string :=
  match n with Element name _ _ => Some name | Declaration _ => Some "xml"%string | _ => None end.
Definition children (n : node) : list node :=
  match n with Element _ _ cs | Document cs => cs | _ => [] end.
(** [arxml/pugixml.cpp:5592-5604] child: the first one with the name *)
Definition child (name : string) (h : handle) : handle :=
  match h with
  | Some n => snd <$> list_find (fun c => name_of c = Some name) (children n)
  | None => None
  end.

(** [arxml/pugixml.cpp:5606-5618] attribute *)
Definition attribute (name : string) (h : handle) : option string :=
  match h with
  | Some (Element _ attributes _) | Some (Declaration attributes) =>
      snd ∘ snd <$> list_find (fun a => a.1 = name) attributes
  | _ => None
  end.

Definition is_text (n : node) : option string := match n with CharacterData v => Some v | _ => None end.
(** [arxml/pugixml.cpp:6545-6558] xml_text::_data: the node itself, or its first child that
    is character data *)
Definition data (h : handle) : option string :=
  match h with
  | None => None
  | Some (CharacterData v) => Some v
  | Some n => head (omap is_text (children n))
  end.

(** [arxml/pugixml.cpp:6599-6605] as_string *)
Definition as_string (def : string) (h : handle) : string := default def (data h).

(** The characters of [ct_space]. *)
Definition is_ct_space (c : ascii) : bool :=
  let n := Z.of_nat (nat_of_ascii c) in (n =? 32) || (n =? 9) || (n =? 10) || (n =? 13).
Fixpoint skip_space (s : string) : string :=
  match s with String c s' => if is_ct_space c then skip_space s' else s | EmptyString => s end.
Fixpoint skip_zeros (s : string) : string :=
  match s with String c s' => if bool_decide (c = "0"%char) then skip_zeros s' else s | EmptyString => s end.

(** A hexadecimal digit of either case. *)
Definition xdigit (c : ascii) : option Z :=
  match digit c with
  | Some d => Some d
  | None => let n := Z.lor (Z.of_nat (nat_of_ascii c)) 32 in
            if (97 <=? n) && (n <? 103) then Some (n - 97 + 10) else None
  end.

(** The loops over the digits: the result at its width and the number of digits. *)
Fixpoint scan (value : ascii → option Z) (base : Z) (s : string) (result : Z) (n : nat) : Z * nat :=
  match s with
  | String c s' => match value c with Some d => scan value base s' (u32 (result * base + d)) (S n) | None => (result, n) end
  | EmptyString => (result, n)
  end.

(** The character a string starts with; a C string ends with a NUL. *)
Definition first_char (s : string) : ascii := match s with String c _ => c | EmptyString => "000"%char end.

(** [arxml/pugixml.cpp:4515-4594] string_to_integer, for the type unsigned int *)
Definition string_to_integer (value : string) (minv maxv : Z) : Z :=
  let s := skip_space value in
  let negative := bool_decide (first_char s = "-"%char) in
  let s := match s with String c s' => if bool_decide (c = "+"%char ∨ c = "-"%char) then s' else s | EmptyString => s end in
  let hexadecimal := match s with
                     | String c (String x s') => if bool_decide (c = "0"%char) && (Z.lor (Z.of_nat (nat_of_ascii x)) 32 =? 120)
                                                 then Some s' else None
                     | _ => None
                     end in
  let '(result, overflow) :=
    match hexadecimal with
    | Some s =>
        let '(result, digits) := scan xdigit 16 (skip_zeros s) 0 0 in
        (result, (4 * 2 <? digits)%nat)
    | None =>
        let start := skip_zeros s in
        let '(result, digits) := scan digit 10 start 0 0 in
        let lead := nat_of_ascii (first_char start) in
        (result, (10 <=? digits)%nat &&
                 negb ((digits =? 10)%nat && ((lead <? 52)%nat || ((lead =? 52)%nat && negb (Z.shiftr result 31 =? 0)))))
    end in
  if negative then (if overflow || (u32 (0 - minv) <? result) then minv else u32 (0 - result))
  else if overflow || (maxv <? result) then maxv else result.

(** [arxml/pugixml.cpp:4602-4605] get_value_uint *)
Definition get_value_uint (value : string) : Z := string_to_integer value 0 4294967295.

(** [arxml/pugixml.cpp:6615-6621] as_uint *)
Definition as_uint (def : Z) (h : handle) : Z := match data h with Some v => get_value_uint v | None => def end.

Example hexadecimal : get_value_uint "0x1F90" = 8080.
Proof. reflexivity. Qed.
Example saturated : get_value_uint "4294967296" = 4294967295.
Proof. reflexivity. Qed.
Example negative_number : get_value_uint "-5" = 0.
Proof. reflexivity. Qed.
Example no_number : get_value_uint "eth0" = 0.
Proof. reflexivity. Qed.

End pugi.

(** ** Nodes and readers *)
Module ArxmlNode.

(** [arxml/arxml_node.h:26-34] GetValue of a number; [cast] is the conversion from unsigned
    int to its type *)
Definition GetValue (cast : Z → Z) (mNode : handle) : Z := cast (pugi.as_uint 0 mNode).

(** [arxml/arxml_node.cpp:18-25] GetValue of a string *)
Definition GetText (mNode : handle) : string := pugi.as_string EmptyString mNode.

(** [arxml/arxml_node.cpp:11-16] GetShortName *)
Definition GetShortName (mNode : handle) : string := pugi.as_string EmptyString (pugi.child "SHORT-NAME" mNode).

(** [arxml/arxml_node.cpp:27-49] TryGetReference: the reference when the destination's type is
    the expected one *)
Definition TryGetReference (sourceNode destinationType : string) (mNode : handle) : option string :=
  let child := pugi.child sourceNode mNode in
  let actualType := default EmptyString (pugi.attribute "DEST" child) in
  if bool_decide (destinationType = actualType) then Some (pugi.as_string EmptyString child) else None.

End ArxmlNode.

(** The parser and the printer: loading gives a status, an encoding and a document; a
    document with printable texts is loaded from what is printed of it. *)
Class XmlText := {
  load : string → bool * bool * list node;
  print : node → string;
  version_is_one : string → bool;
  printable : node → Prop;
  load_print name attributes children :
    printable (Element name attributes children) →
    load (print (Element name attributes children)) = (true, true, [Element name attributes children])
}.

Module ArxmlReader.
Section ArxmlReader.
Context `{XmlText}.

(** [arxml/arxml_reader.cpp:29-61] validate *)
Definition validate (status_ok utf8 : bool) (document : list node) : bool :=
  if status_ok && utf8 then
    match pugi.child "xml" (Some (Document document)) with
    | Some (Declaration attributes) =>
        match pugi.attribute "version" (Some (Declaration attributes)) with
        | Some v => version_is_one v
        | None => false
        end
    | _ => true
    end
  else false.

(** [arxml/arxml_reader.cpp:18-27] ArxmlReader on a content, and on a file with that content *)
Definition construct (content : string) : outcome (list node) :=
  let '(status_ok, utf8, document) := load content in
  if validate status_ok utf8 document then Ok document else Throw std_invalid_argument.

(** [arxml/arxml_reader.cpp:7-16] ArxmlReader on a file; one that is not there does not load *)
Definition construct_file (content : option string) : outcome (list node) :=
  match content with Some c => construct c | None => Throw std_invalid_argument end.

End ArxmlReader.

(** [arxml/arxml_reader.cpp:63-75] GetRootNode *)
Definition GetRootNode (children : list string) (mDocument : list node) : handle :=
  foldl (fun root c => pugi.child c root) (Some (Document mDocument)) children.

(** [arxml/arxml_reader.cpp:77-91] GetNodes: the children of the last node of the path *)
Definition GetNodes (children : list string) (mDocument : list node) : list node :=
  match GetRootNode children mDocument with Some n => pugi.children n | None => [] end.

End ArxmlReader.

(** ** Network configuration *)
Module NetworkConfiguration.

(** [application/helper/network_configuration.h:52-59] NetworkConfiguration *)
Record t := mk { ipAddress : string; portNumber : Z }.

(** [application/helper/network_configuration.h:14-21] cIpAddressShallowChildren *)
Definition cIpAddressShallowChildren : list string :=
  ["AUTOSAR"; "AR-PACKAGES"; "AR-PACKAGE"; "ELEMENTS"; "COMMUNICATION-CLUSTER"; "ETHERNET-PHYSICAL-CHANNEL";
   "NETWORK-ENDPOINTS"]%string.
(** [application/helper/network_configuration.h:23-27] cIpAddressDeepChildren *)
Definition cIpAddressDeepChildren : list string :=
  ["NETWORK-ENDPOINT"; "NETWORK-ENDPOINT-ADDRESSES"; "IPV-4-CONFIGURATION"; "IPV-4-ADDRESS"]%string.
(** [application/helper/network_configuration.h:29-35] cPortNumberShallowChildren *)
Definition cPortNumberShallowChildren : list string :=
  ["AUTOSAR"; "AR-PACKAGES"; "AR-PACKAGE"; "ELEMENTS"; "ETHERNET-COMMUNICATION-CONNECTOR"; "AP-APPLICATION-ENDPOINTS"]%string.
(** [application/helper/network_configuration.h:37-42] cTcpPortNumberDeepChildren *)
Definition cTcpPortNumberDeepChildren : list string :=
  ["AP-APPLICATION-ENDPOINT"; "TP-CONFIGURATION"; "TCP-TP"; "TCP-TP-PORT"; "PORT-NUMBER"]%string.
(** [application/helper/network_configuration.h:44-49] cUdpPortNumberDeepChildren *)
Definition cUdpPortNumberDeepChildren : list string :=
  ["AP-APPLICATION-ENDPOINT"; "TP-CONFIGURATION"; "UDP-TP"; "UDP-TP-PORT"; "PORT-NUMBER"]%string.
(** [application/helper/rpc_configuration.h:13-19] cProtocolVersionShallowChildren *)
Definition cProtocolVersionShallowChildren : list string :=
  ["AUTOSAR"; "AR-PACKAGES"; "AR-PACKAGE"; "ELEMENTS"; "COMMUNICATION-CLUSTER"; "PROTOCOL-VERSION"]%string.

(** The transport protocols of an endpoint option. *)
Inductive protocol := Tcp | Udp.

Section Network.
Context `{XmlText}.

(** [application/helper/network_configuration.h:82-103] TryExtractDeepValue: the loop over the
    shallow nodes; the deep value is looked up in a document made of the printed node *)
Fixpoint deepValue {T} (get : handle → T) (deepChildren : list string) (shortNameFilter : string) (shallowNodes : list node) :
    outcome (option T) :=
  match shallowNodes with
  | [] => Ok None
  | n :: shallowNodes =>
      if bool_decide (shortNameFilter = EmptyString) then Ok (Some (get (Some n)))
      else if bool_decide (ArxmlNode.GetShortName (Some n) = shortNameFilter) then
        deepReader ← ArxmlReader.construct (print n);
        Ok (Some (get (ArxmlReader.GetRootNode deepChildren deepReader)))
      else deepValue get deepChildren shortNameFilter shallowNodes
  end.
(** [application/helper/network_configuration.h:71-103] TryExtractDeepValue *)
Definition TryExtractDeepValue {T} (get : handle → T) (shallowChildren deepChildren : list string) (shortNameFilter : string)
    (reader : list node) : outcome (option T) :=
  deepValue get deepChildren shortNameFilter (ArxmlReader.GetNodes shallowChildren reader).

(** [application/helper/network_configuration.cpp:8-61] TryGetNetworkConfiguration: the
    configuration is only written when both values were found *)
Definition TryGetNetworkConfiguration (reader : list node) (networkEndpoint applicationEndpoint : string) (p : protocol)
    (configuration : t) : outcome (bool * t) :=
  ip ← TryExtractDeepValue ArxmlNode.GetText cIpAddressShallowChildren cIpAddressDeepChildren networkEndpoint reader;
  match ip with
  | None => Ok (false, configuration)
  | Some ip =>
      let deepChildren := match p with Tcp => cTcpPortNumberDeepChildren | Udp => cUdpPortNumberDeepChildren end in
      port ← TryExtractDeepValue (ArxmlNode.GetValue u16) cPortNumberShallowChildren deepChildren applicationEndpoint reader;
      match port with
      | None => Ok (false, configuration)
      | Some port => Ok (true, mk ip port)
      end
  end.

(** [application/helper/network_configuration.cpp:63-80] TryGetNetworkConfiguration of a file *)
Definition TryGetNetworkConfigurationOfFile (file : option string) (networkEndpoint applicationEndpoint : string) (p : protocol)
    (configuration : t) : outcome (bool * t) :=
  reader ← ArxmlReader.construct_file file;
  TryGetNetworkConfiguration reader networkEndpoint applicationEndpoint p configuration.

(** [application/helper/rpc_configuration.cpp:8-39] TryGetRpcConfiguration: the network
    configuration, the protocol's version and what is returned *)
Definition TryGetRpcConfiguration (file : option string) (networkEndpoint applicationEndpoint : string)
    (configuration : t) (protocolVersion : Z) : outcome (bool * t * Z) :=
  reader ← ArxmlReader.construct_file file;
  '(_, configuration) ← TryGetNetworkConfiguration reader networkEndpoint applicationEndpoint Tcp configuration;
  version ← TryExtractDeepValue (ArxmlNode.GetValue u8) cProtocolVersionShallowChildren [] EmptyString reader;
  match version with
  | None => Ok (false, configuration, protocolVersion)
  | Some version => Ok (true, configuration, version)
  end.

End Network.
End NetworkConfiguration.

(** ** Lemmas: numbers *)
Module Arxml_facts.
Import pugi.

Definition digit_char (d : Z) : ascii := ascii_of_nat (Z.to_nat (48 + d)).
Definition decimal (ds : list Z) : string := String.string_of_list_ascii (map digit_char ds).
Definition value_of (ds : list Z) : Z := foldl (fun a d => 10 * a + d) 0 ds.
Definition is_digit (d : Z) : Prop := 0 <= d < 10.

(** A property of all ten digits. *)
Lemma all_digits (P : Z → Prop) d : Forall P [0; 1; 2; 3; 4; 5; 6; 7; 8; 9] → is_digit d → P d.
Proof.
  intros H Hd. apply (proj1 (Forall_lookup _ _) H (Z.to_nat d)). unfold is_digit in Hd.
  assert (d = 0 ∨ d = 1 ∨ d = 2 ∨ d = 3 ∨ d = 4 ∨ d = 5 ∨ d = 6 ∨ d = 7 ∨ d = 8 ∨ d = 9) as E by lia.
  by repeat destruct E as [->|E]; [..|subst d].
Qed.

Ltac each_digit Hd :=
  match type of Hd with
  | is_digit ?d => pattern d; apply all_digits; [repeat (apply Forall_cons; split; [by vm_compute|]); apply Forall_nil_2|exact Hd]
  end.

Lemma digit_of_char d : is_digit d → digit (digit_char d) = Some d.
Proof. intros Hd. each_digit Hd. Qed.

Lemma not_space d : is_digit d → is_ct_space (digit_char d) = false.
Proof. intros Hd. each_digit Hd. Qed.

Lemma char_code d : is_digit d → Z.of_nat (nat_of_ascii (digit_char d)) = 48 + d.
Proof. intros Hd. each_digit Hd. Qed.

Lemma zero_char d : is_digit d → bool_decide (digit_char d = "0"%char) = (d =? 0).
Proof. intros Hd. each_digit Hd. Qed.

Lemma not_x d : is_digit d → (Z.lor (Z.of_nat (nat_of_ascii (digit_char d))) 32 =? 120) = false.
Proof. intros Hd. each_digit Hd. Qed.

Lemma scan_decimal ds r n :
  Forall is_digit ds → scan digit 10 (decimal ds) (u32 r) n = (u32 (foldl (fun a d => 10 * a + d) r ds), (n + length ds)%nat).
Proof.
  intros Hds. revert r n. induction Hds as [|d ds Hd _ IH]; intros r n; [by rewrite Nat.add_0_r|].
  unfold decimal. cbn [map String.string_of_list_ascii scan foldl length]. rewrite digit_of_char by done.
  replace (u32 (u32 r * 10 + d)) with (u32 (10 * r + d)) by ulia. fold (decimal ds). rewrite IH. f_equal. lia.
Qed.

(** Leading zeros mean nothing. *)
Fixpoint strip (ds : list Z) : list Z := match ds with d :: ds' => if d =? 0 then strip ds' else ds | [] => [] end.

Lemma skip_zeros_decimal ds : Forall is_digit ds → skip_zeros (decimal ds) = decimal (strip ds).
Proof.
  intros Hds. induction Hds as [|d ds Hd _ IH]; [done|]. cbn [strip]. unfold decimal. cbn [map String.string_of_list_ascii skip_zeros].
  rewrite zero_char by done. destruct (d =? 0); [exact IH|done].
Qed.

Lemma value_strip ds : value_of (strip ds) = value_of ds.
Proof.
  induction ds as [|d ds IH]; [done|]. cbn [strip]. destruct (Z.eqb_spec d 0) as [->|]; [|done]. rewrite IH. done.
Qed.

Lemma strip_digits ds : Forall is_digit ds → Forall is_digit (strip ds) ∧ ∀ d ds', strip ds = d :: ds' → 0 < d.
Proof.
  intros Hds. induction Hds as [|d ds Hd Hds IH]; [done|]. cbn [strip]. destruct (Z.eqb_spec d 0); [done|].
  split; [by constructor|]. intros ? ? [= <- <-]. unfold is_digit in Hd. lia.
Qed.

(** A number lies between the powers of ten that its length gives. *)
Lemma value_bounds d ds :
  is_digit d → Forall is_digit ds →
  d * 10 ^ Z.of_nat (length ds) <= value_of (d :: ds) < (d + 1) * 10 ^ Z.of_nat (length ds).
Proof.
  intros Hd Hds. unfold value_of. cbn [foldl]. replace (10 * 0 + d) with d by lia.
  assert (Hd0 : 0 <= d) by (unfold is_digit in Hd; lia). clear Hd. revert d Hd0.
  induction Hds as [|e ds He _ IH]; intros d Hd0; cbn [foldl length]; [lia|].
  unfold is_digit in He. specialize (IH (10 * d + e) ltac:(lia)).
  rewrite Nat2Z.inj_succ, Z.pow_succ_r by lia. nia.
Qed.

(** The overflow test of the conversion is right: a decimal number is read as it is, or as
    the largest one of the type when it does not fit. *)
Lemma decimal_overflow ds :
  Forall is_digit ds → (∀ d ds', ds = d :: ds' → 0 < d) →
  let overflow := (10 <=? length ds)%nat &&
    negb ((length ds =? 10)%nat && ((nat_of_ascii (first_char (decimal ds)) <? 52)%nat ||
           ((nat_of_ascii (first_char (decimal ds)) =? 52)%nat && negb (Z.shiftr (u32 (value_of ds)) 31 =? 0)))) in
  overflow = negb (value_of ds <? 4294967296).
Proof.
  intros Hds Hlead. destruct Hds as [|d ds Hd Hds]; [done|]. specialize (Hlead d ds eq_refl).
  pose proof (value_bounds d ds Hd Hds) as Hv. pose proof (char_code d Hd) as Hc. unfold is_digit in Hd. cbv zeta.
  change (first_char (decimal (d :: ds))) with (digit_char d). cbn [length].
  assert (Hl : (length ds < 9 ∨ length ds = 9 ∨ 9 < length ds)%nat) by lia. destruct Hl as [Hl|[Hl|Hl]].
  - rewrite (proj2 (Nat.leb_gt 10 _)) by lia. cbn [andb]. symmetry. apply negb_false_iff, Z.ltb_lt.
    assert (10 ^ Z.of_nat (length ds) <= 10 ^ 8) by (apply Z.pow_le_mono_r; lia). change (10 ^ 8) with 100000000 in *. nia.
  - rewrite Hl in *. change (10 ^ Z.of_nat 9) with 1000000000 in Hv. cbn [Nat.leb Nat.eqb andb].
    rewrite Z.shiftr_div_pow2 by lia. change (2 ^ 31) with 2147483648.
    destruct (Z.ltb_spec (value_of (d :: ds)) 4294967296) as [Hlt|Hge].
    + destruct (Nat.ltb_spec (nat_of_ascii (digit_char d)) 52) as [|H52]; [done|].
      rewrite (proj2 (Nat.eqb_eq _ _)) by lia. replace (u32 (value_of (d :: ds)) / 2147483648 =? 0) with false; [done|].
      symmetry. apply Z.eqb_neq. rewrite u32_id by ulia. ulia.
    + rewrite (proj2 (Nat.ltb_ge _ _)) by lia. destruct (Nat.eqb_spec (nat_of_ascii (digit_char d)) 52) as [H52|H52]; [|done].
      replace (u32 (value_of (d :: ds)) / 2147483648 =? 0) with true; [done|]. symmetry. apply Z.eqb_eq. ulia.
  - rewrite (proj2 (Nat.leb_le 10 _)) by lia. rewrite (proj2 (Nat.eqb_neq _ 10)) by lia. cbn [andb negb]. symmetry.
    apply negb_true_iff, Z.ltb_ge.
    assert (10 ^ 10 <= 10 ^ Z.of_nat (length ds)) by (apply Z.pow_le_mono_r; lia). change (10 ^ 10) with 10000000000 in *. nia.
Qed.

Lemma get_value_decimal ds : Forall is_digit ds → get_value_uint (decimal ds) = Z.min (value_of ds) 4294967295.
Proof.
  intros Hds. destruct (strip_digits ds Hds) as [Hs Hlead]. pose proof (decimal_overflow (strip ds) Hs Hlead) as Ho. cbv zeta in Ho.
  rewrite value_strip in Ho.
  assert (Hpos : 0 <= value_of ds).
  { rewrite <- value_strip. destruct Hs as [|d ds' Hd Hs]; [done|]. pose proof (value_bounds d ds' Hd Hs). unfold is_digit in Hd.
    assert (0 < 10 ^ Z.of_nat (length ds')) by (apply Z.pow_pos_nonneg; lia). nia. }
  unfold get_value_uint, string_to_integer.
  assert (H1 : skip_space (decimal ds) = decimal ds).
  { destruct Hds as [|d ds' Hd _]; [done|]. unfold decimal. cbn [map String.string_of_list_ascii skip_space]. by rewrite not_space. }
  rewrite H1.
  assert (H2 : ∀ c, c = "+"%char ∨ c = "-"%char → bool_decide (first_char (decimal ds) = c) = false).
  { intros c Hc. apply bool_decide_eq_false. intros E. destruct Hds as [|d ds' Hd _]; [cbn in E; by destruct Hc; subst|].
    change (digit_char d = c) in E. pose proof (char_code d Hd) as H. rewrite E in H. unfold is_digit in Hd.
    destruct Hc as [-> | ->];
      [change (Z.of_nat (nat_of_ascii "+"%char)) with 43 in H|change (Z.of_nat (nat_of_ascii "-"%char)) with 45 in H]; lia. }
  rewrite (H2 "-"%char) by auto.
  assert (H3 : match decimal ds with
               | String c s' => if bool_decide (c = "+"%char ∨ c = "-"%char) then s' else decimal ds
               | EmptyString => decimal ds end = decimal ds).
  { destruct Hds as [|d ds' Hd _]; [done|]. unfold decimal. cbn [map String.string_of_list_ascii].
    rewrite bool_decide_eq_false_2; [done|]. intros Hc. specialize (H2 _ Hc). apply bool_decide_eq_false in H2. by apply H2. }
  rewrite H3.
  assert (H4 : match decimal ds with
               | String c (String x s') => if bool_decide (c = "0"%char) && (Z.lor (Z.of_nat (nat_of_ascii x)) 32 =? 120)
                                           then Some s' else None
               | _ => None end = None).
  { destruct Hds as [|d ds' Hd Hds']; [done|]. destruct Hds' as [|e ds' He _]; [done|].
    unfold decimal. cbn [map String.string_of_list_ascii]. by rewrite not_x, andb_false_r. }
  rewrite H4, skip_zeros_decimal by done.
  pose proof (scan_decimal (strip ds) 0 0 Hs) as Hscan. change (u32 0) with 0 in Hscan. rewrite Hscan. fold (value_of (strip ds)).
  rewrite value_strip. cbn [Nat.add]. rewrite Ho.
  destruct (Z.ltb_spec (value_of ds) 4294967296); cbn [negb orb].
  - rewrite u32_id by ulia. rewrite (proj2 (Z.ltb_ge _ _)) by lia. lia.
  - lia.
Qed.

(** ** Lemmas: manifests *)

(** Elements one in the other. *)
Definition nest (names : list string) (inner : list node) : list node :=
  foldr (fun name cs => [Element name [] cs]) inner names.

Definition short_name (name : string) : node := Element "SHORT-NAME" [] [CharacterData name].

(** A network endpoint with its address, and an application endpoint with its port. *)
Definition network_endpoint (e : string * string) : node :=
  Element "NETWORK-ENDPOINT" []
    (short_name e.1 :: nest ["NETWORK-ENDPOINT-ADDRESSES"; "IPV-4-CONFIGURATION"; "IPV-4-ADDRESS"]%string [CharacterData e.2]).

Record Application := mkApplication { app_name : string; app_protocol : NetworkConfiguration.protocol; app_port : string }.

Definition application_endpoint (a : Application) : node :=
  Element "AP-APPLICATION-ENDPOINT" []
    (short_name (app_name a) ::
     nest (match app_protocol a with
           | NetworkConfiguration.Tcp => ["TP-CONFIGURATION"; "TCP-TP"; "TCP-TP-PORT"; "PORT-NUMBER"]
           | NetworkConfiguration.Udp => ["TP-CONFIGURATION"; "UDP-TP"; "UDP-TP-PORT"; "PORT-NUMBER"]
           end)%string [CharacterData (app_port a)]).

(** A manifest with endpoints, the version of the protocol, and other elements behind. *)
Definition manifest (endpoints : list (string * string)) (applications : list Application) (version : option string)
    (others : list node) : list node :=
  nest ["AUTOSAR"; "AR-PACKAGES"; "AR-PACKAGE"; "ELEMENTS"]%string
    (Element "COMMUNICATION-CLUSTER" []
       (nest ["ETHERNET-PHYSICAL-CHANNEL"; "NETWORK-ENDPOINTS"]%string (map network_endpoint endpoints) ++
        match version with Some v => [Element "PROTOCOL-VERSION" [] [CharacterData v]] | None => [] end) ::
     nest ["ETHERNET-COMMUNICATION-CONNECTOR"; "AP-APPLICATION-ENDPOINTS"]%string (map application_endpoint applications) ++
     others).

Definition named_endpoint (name : string) (e : string * string) : bool := bool_decide (e.1 = name).
Definition named_application (name : string) (a : Application) : bool := bool_decide (app_name a = name).

Section Manifest.
Context `{XmlText}.
Import NetworkConfiguration.

Lemma construct_print name attributes children :
  printable (Element name attributes children) → name ≠ "xml"%string →
  ArxmlReader.construct (print (Element name attributes children)) = Ok [Element name attributes children].
Proof.
  intros Hp Hn. unfold ArxmlReader.construct. rewrite load_print by done. unfold ArxmlReader.validate, child. cbn [andb pugi.children list_find].
  rewrite decide_False; [done|]. cbn [name_of]. congruence.
Qed.

(** The loop finds the first node with the name. *)
Lemma deepValue_find {T A} (get : handle → T) deepChildren (f : A → node) (name : A → string) (value : A → T) filter xs :
  filter ≠ EmptyString → (∀ x, ArxmlNode.GetShortName (Some (f x)) = name x) →
  (∀ x, get (ArxmlReader.GetRootNode deepChildren [f x]) = value x) →
  Forall (fun x => ArxmlReader.construct (print (f x)) = Ok [f x]) xs →
  deepValue get deepChildren filter (map f xs) = Ok (value <$> List.find (fun x => bool_decide (name x = filter)) xs).
Proof.
  intros Hf Hn Hv Hxs. induction Hxs as [|x xs Hx _ IH]; [done|]. cbn [map deepValue List.find].
  rewrite bool_decide_eq_false_2, Hn by done. destruct (bool_decide (name x = filter)); [|exact IH].
  rewrite Hx, Ok_bind, Hv. done.
Qed.

Lemma endpoint_nodes endpoints applications version others :
  ArxmlReader.GetNodes cIpAddressShallowChildren (manifest endpoints applications version others) = map network_endpoint endpoints.
Proof. done. Qed.

Lemma application_nodes endpoints applications version others :
  ArxmlReader.GetNodes cPortNumberShallowChildren (manifest endpoints applications version others) =
  map application_endpoint applications.
Proof. done. Qed.

(** The port of an application endpoint, for a protocol. *)
Definition port_for (p : protocol) (a : Application) : Z :=
  match p, app_protocol a with Tcp, Tcp | Udp, Udp => u16 (get_value_uint (app_port a)) | _, _ => 0 end.

Definition printable_manifest (endpoints : list (string * string)) (applications : list Application) : Prop :=
  Forall (fun e => printable (network_endpoint e)) endpoints ∧ Forall (fun a => printable (application_endpoint a)) applications.

Lemma find_configuration endpoints applications version others net app p cfg :
  net ≠ EmptyString → app ≠ EmptyString → printable_manifest endpoints applications →
  TryGetNetworkConfiguration (manifest endpoints applications version others) net app p cfg =
    Ok (match List.find (named_endpoint net) endpoints, List.find (named_application app) applications with
        | Some e, Some a => (true, mk e.2 (port_for p a))
        | _, _ => (false, cfg)
        end).
Proof.
  intros Hn Ha [He Hp]. unfold TryGetNetworkConfiguration, TryExtractDeepValue. rewrite endpoint_nodes.
  rewrite (deepValue_find ArxmlNode.GetText _ network_endpoint fst snd) by
    first [done | eapply Forall_impl; [exact He|]; intros e Hpr; by apply construct_print].
  unfold named_endpoint. rewrite Ok_bind.
  destruct (List.find _ endpoints) as [e|]; [|done]. cbn [fmap option_fmap option_map]. rewrite application_nodes.
  rewrite (deepValue_find (ArxmlNode.GetValue u16) _ application_endpoint app_name (port_for p)).
  - rewrite Ok_bind. unfold named_application. by destruct (List.find _ applications).
  - done.
  - done.
  - intros [name q port]. by destruct p, q.
  - eapply Forall_impl; [exact Hp|]; intros a Hpr; by apply construct_print.
Qed.

End Manifest.
End Arxml_facts.

(** ** Properties *)

Section Properties.
Import Arxml_facts NetworkConfiguration.

(** C36: numbers in manifests.  A text of decimal digits, however long and with however many
    leading zeros, is read as its value, or as 4294967295 when that is larger; the number is
    then cut to the width of what it is read for, so that a port of 70000 is 4464 and an
    entity identifier of more than 32 bits is not what was written. *)
Theorem decimal_texts ds name :
  Forall is_digit ds →
  ∀ cast, ArxmlNode.GetValue cast (Some (Element name [] [CharacterData (decimal ds)])) =
          cast (Z.min (value_of ds) 4294967295).
Proof. intros Hds cast. unfold ArxmlNode.GetValue, pugi.as_uint. cbn. by rewrite get_value_decimal. Qed.

(** Looking up a network address.  In a manifest with any endpoints, application
    endpoints and other elements behind them, the first endpoint and the first application
    endpoint with the names that are asked for give the address and the port; when there is
    none of one of them, the call fails and leaves the configuration alone.  A port that is
    declared for the other protocol is taken for zero, and the call succeeds. *)
Theorem network_configuration_found `{XmlText} endpoints applications version others net app p cfg :
  net ≠ EmptyString → app ≠ EmptyString → printable_manifest endpoints applications →
  TryGetNetworkConfiguration (manifest endpoints applications version others) net app p cfg =
    Ok (match List.find (named_endpoint net) endpoints, List.find (named_application app) applications with
        | Some e, Some a => (true, mk e.2 (port_for p a))
        | _, _ => (false, cfg)
        end).
Proof. apply find_configuration. Qed.

(** The remote procedure call configuration reports success without an address.  What
    is returned only says whether the manifest has a protocol version: when it lacks the
    endpoint that is asked for, the address stays empty and the port whatever the variable
    happened to hold. *)
Theorem rpc_configuration_without_address `{XmlText} content endpoints applications version others net app cfg old :
  load content = (true, true, manifest endpoints applications (Some version) others) →
  net ≠ EmptyString → app ≠ EmptyString → printable_manifest endpoints applications →
  List.find (named_endpoint net) endpoints = None →
  TryGetRpcConfiguration (Some content) net app cfg old = Ok (true, cfg, u8 (pugi.get_value_uint version)).
Proof.
  intros Hl Hn Ha Hp Hf. unfold TryGetRpcConfiguration, ArxmlReader.construct_file, ArxmlReader.construct.
  rewrite Hl. change (ArxmlReader.validate true true _) with true. cbv iota. rewrite Ok_bind, find_configuration, Hf by done.
  by rewrite Ok_bind.
Qed.

End Properties.

(** ** Witnesses *)

(** A manifest, and a parser of nothing but its endpoints and itself. *)
Definition example_endpoint : node := Arxml_facts.network_endpoint ("RpcServerEP", "127.0.0.1")%string.
Definition example_application : Arxml_facts.Application := Arxml_facts.mkApplication "ServerUnicastTcp" NetworkConfiguration.Tcp "8080".
Definition example_manifest : list node :=
  Arxml_facts.manifest [("RpcServerEP", "127.0.0.1")%string] [example_application] (Some "1"%string) [].

Definition example_text : XmlText.
Proof.
  refine {| load := fun s => if (s =? "1")%string then (true, true, [example_endpoint])
                             else if (s =? "2")%string then (true, true, [Arxml_facts.application_endpoint example_application])
                             else if (s =? "3")%string then (true, true, example_manifest) else (false, true, []);
            print := fun n => match pugi.name_of n with
                              | Some name => if (name =? "NETWORK-ENDPOINT")%string then "1" else "2"
                              | None => EmptyString end%string;
            version_is_one := fun s => (s =? "1.0")%string;
            printable := fun n => n = example_endpoint ∨ n = Arxml_facts.application_endpoint example_application |}.
  intros name attributes children [-> | ->]; reflexivity.
Defined.

Lemma decimal_texts_witness :
  ArxmlNode.GetValue u16 (Some (Element "PORT-NUMBER" [] [CharacterData (Arxml_facts.decimal [0; 7; 0; 0; 0; 0])])) =
  u16 (Z.min (Arxml_facts.value_of [0; 7; 0; 0; 0; 0]) 4294967295).
Proof.
  apply decimal_texts. repeat (apply Forall_cons; split; [unfold Arxml_facts.is_digit; lia|]). apply Forall_nil_2.
Defined.

Lemma example_printable : @Arxml_facts.printable_manifest example_text [("RpcServerEP", "127.0.0.1")%string] [example_application].
Proof.
  split; (apply Forall_cons; split; [|apply Forall_nil_2]); [by left|by right].
Defined.

Lemma network_configuration_found_witness :
  @NetworkConfiguration.TryGetNetworkConfiguration example_text example_manifest "RpcServerEP" "ServerUnicastTcp"
    NetworkConfiguration.Tcp (NetworkConfiguration.mk EmptyString 7) =
  Ok (true, NetworkConfiguration.mk "127.0.0.1" 8080).
Proof.
  exact (@network_configuration_found example_text [("RpcServerEP", "127.0.0.1")%string] [example_application] (Some "1"%string) []
           "RpcServerEP" "ServerUnicastTcp" NetworkConfiguration.Tcp (NetworkConfiguration.mk EmptyString 7)
           ltac:(discriminate) ltac:(discriminate) example_printable).
Defined.

Lemma rpc_configuration_without_address_witness :
  @NetworkConfiguration.TryGetRpcConfiguration example_text (Some "3"%string) "RpcClientEP" "ServerUnicastTcp"
    (NetworkConfiguration.mk EmptyString 7) 9 = Ok (true, NetworkConfiguration.mk EmptyString 7, 1).
Proof.
  exact (@rpc_configuration_without_address example_text "3" [("RpcServerEP", "127.0.0.1")%string] [example_application] "1" []
           "RpcClientEP" "ServerUnicastTcp" (NetworkConfiguration.mk EmptyString 7) 9
           eq_refl ltac:(discriminate) ltac:(discriminate) example_printable eq_refl).
Defined.
