(* ===== verification/Payload.v ===== *)
(** * Big-endian payloads: ara/com/helper

    [Inject]/[Extract] of short and long integers and of IPv4 addresses
    (payload_helper.cpp, ipv4_address.cpp), the predicate [holds] that says which
    bytes a vector has at an offset, and the interface [Codec] that every part of a
    message promises to the message that contains it. *)

From S2P Require Import Prelude.

(** ** What a vector holds at an offset *)

Definition holds (v : bytes) (off : Z) (bs : bytes) : Prop :=
  ∃ pre post, v = pre ++ bs ++ post ∧ off = size pre.

Lemma size_app v w : size (v ++ w) = size v + size w.
Proof. unfold size. rewrite length_app. lia. Qed.

Lemma size_cons b v : size (b :: v) = 1 + size v.
Proof. unfold size. cbn [length]. lia. Qed.

Lemma size_nil : size [] = 0.
Proof. done. Qed.

Lemma size_nonneg v : 0 <= size v.
Proof. unfold size. lia. Qed.

Create Rewrite HintDb size.
#[export] Hint Rewrite size_app size_cons size_nil : size.

(** Computes the sizes of explicit vectors, then calls [lia]. *)
Ltac size_lia :=
  autorewrite with size in *; simpl in *;
  repeat match goal with
    | |- context [size ?v] =>
        lazymatch goal with H : 0 <= size v |- _ => fail | _ => pose proof (size_nonneg v) end
    | H' : context [size ?v] |- _ =>
        lazymatch goal with H : 0 <= size v |- _ => fail | _ => pose proof (size_nonneg v) end
    end;
  lia.

Lemma holds_app v off b1 b2 :
  holds v off (b1 ++ b2) ↔ holds v off b1 ∧ holds v (off + size b1) b2.
Proof.
  split.
  - intros (pre & post & -> & ->). split.
    + exists pre, (b2 ++ post). by rewrite <- !app_assoc.
    + exists (pre ++ b1), post. rewrite size_app, <- !app_assoc. done.
  - intros [(pre & post & Hv & ->) (pre' & post' & Hv' & Hsz)].
    rewrite <- size_app in Hsz. unfold size in Hsz. apply Nat2Z.inj in Hsz.
    rewrite app_assoc in Hv. assert (Heq : (pre ++ b1) ++ post = pre' ++ b2 ++ post') by congruence.
    apply app_inj_1 in Heq as [<- ->]; [|done].
    exists pre, post'. split; [|done]. rewrite Hv'. by rewrite <- !app_assoc.
Qed.

Lemma holds_cons v off b bs :
  holds v off (b :: bs) ↔ holds v off [b] ∧ holds v (off + 1) bs.
Proof. apply (holds_app v off [b] bs). Qed.

Lemma holds_bound v off bs : holds v off bs → 0 <= off ∧ off + size bs <= size v.
Proof.
  intros (pre & post & -> & ->). rewrite !size_app.
  pose proof (size_nonneg pre). pose proof (size_nonneg post). lia.
Qed.

Lemma holds_mid pre bs post : holds (pre ++ bs ++ post) (size pre) bs.
Proof. by exists pre, post. Qed.

Lemma holds_self v : holds v 0 v.
Proof. exists [], []. by rewrite app_nil_r. Qed.

Lemma lookup_holds v off b : holds v off [b] → v !! Z.to_nat off = Some b.
Proof.
  intros (pre & post & -> & ->). unfold size. rewrite Nat2Z.id.
  rewrite lookup_app_r by lia. by rewrite Nat.sub_diag.
Qed.

Lemma in_range_holds v off b :
  holds v off [b] → (0 <=? off) && (off <? size v) = true.
Proof.
  intros [? Hle]%holds_bound. rewrite size_cons, size_nil in Hle.
  apply andb_true_intro. split; lia.
Qed.

Lemma at_holds v off b : holds v off [b] → at_ v off = Ok b.
Proof.
  intros H. unfold at_. by rewrite (in_range_holds _ _ _ H), (lookup_holds _ _ _ H).
Qed.

Lemma index_holds v off b : holds v off [b] → index_ v off = Ok b.
Proof.
  intros H. unfold index_. by rewrite (in_range_holds _ _ _ H), (lookup_holds _ _ _ H).
Qed.

(** An access in range returns, so [at] throws exactly out of range. *)
Lemma at_Ok v off b :
  at_ v off = Ok b → 0 <= off < size v ∧ v !! Z.to_nat off = Some b.
Proof.
  unfold at_. destruct (_ && _) eqn:Hr; [|done]. apply andb_prop in Hr.
  destruct (v !! _) eqn:Hl; intros; simplify_eq. split; [lia|done].
Qed.

Lemma at_is_u8 v off b : is_bytes v → at_ v off = Ok b → is_u8 b.
Proof. intros Hv [_ Hl]%at_Ok. by eapply Forall_lookup_1 in Hl. Qed.

Lemma at_defined v off : defined (at_ v off).
Proof. unfold at_. destruct (_ && _); [|done]. by destruct (v !! _). Qed.

Lemma at_total v off : 0 <= off < size v → ∃ b, at_ v off = Ok b ∧ holds v off [b].
Proof.
  intros Hr. unfold at_.
  replace ((0 <=? off) && (off <? size v)) with true by (symmetry; apply andb_true_intro; lia).
  destruct (v !! Z.to_nat off) as [b|] eqn:Hl.
  - exists b. split; [done|]. exists (take (Z.to_nat off) v), (drop (S (Z.to_nat off)) v).
    split; [by rewrite app_assoc; cbn; rewrite <- app_assoc; apply eq_sym, take_drop_middle|].
    unfold size. rewrite length_take. unfold size in Hr. lia.
  - apply lookup_ge_None in Hl. unfold size in Hr. lia.
Qed.

Lemma index_total v off : 0 <= off < size v → ∃ b, index_ v off = Ok b ∧ holds v off [b].
Proof.
  intros Hr. destruct (at_total v off Hr) as (b & _ & Hb). exists b.
  split; [by apply index_holds|done].
Qed.

Lemma at_out v off : ¬ 0 <= off < size v → at_ v off = Throw std_out_of_range.
Proof.
  intros H. unfold at_. destruct (_ && _) eqn:Hr; [|done].
  apply andb_prop in Hr. lia.
Qed.

Lemma index_out v off : ¬ 0 <= off < size v → index_ v off = Undefined.
Proof.
  intros H. unfold index_. destruct (_ && _) eqn:Hr; [|done].
  apply andb_prop in Hr. lia.
Qed.

Lemma holds_is_bytes v off bs : is_bytes v → holds v off bs → is_bytes bs.
Proof. intros Hv (pre & post & -> & _). apply Forall_app in Hv as [_ Hv]. by apply Forall_app in Hv as [Hv _]. Qed.

Lemma holds_snoc v off bs b :
  holds v off bs → holds v (off + size bs) [b] → holds v off (bs ++ [b]).
Proof. intros. by apply holds_app. Qed.

(** Every stretch of a vector is held somewhere. *)
Lemma holds_take_drop v off n :
  0 <= off → 0 <= n → off + n <= size v →
  holds v off (take (Z.to_nat n) (drop (Z.to_nat off) v)).
Proof.
  intros Ho Hn Hle. exists (take (Z.to_nat off) v), (drop (Z.to_nat n) (drop (Z.to_nat off) v)).
  rewrite (take_drop (Z.to_nat n)), take_drop. split; [done|].
  unfold size in *. rewrite length_take. lia.
Qed.

(** ** payload_helper.cpp *)

Definition push_back (v : bytes) (b : Z) : bytes := v ++ [b].

(** [ara/com/helper/payload_helper.cpp:10-19] Inject (uint16_t) *)
Definition InjectShort (v : bytes) (value : Z) : bytes :=
  let v := push_back v (u8 (value ≫ 8)) in
  push_back v (u8 value).

(** [ara/com/helper/payload_helper.cpp:21-36] Inject (uint32_t) *)
Definition InjectInteger (v : bytes) (value : Z) : bytes :=
  let v := push_back v (u8 (value ≫ 24)) in
  let v := push_back v (u8 (value ≫ 16)) in
  let v := push_back v (u8 (value ≫ 8)) in
  push_back v (u8 value).

(** [ara/com/helper/payload_helper.cpp:38-41] Concat *)
Definition Concat (v1 v2 : bytes) : bytes := v1 ++ v2.

(** [ara/com/helper/payload_helper.cpp:43-52] ExtractShort *)
Definition ExtractShort (v : bytes) (offset : Z) : outcome (Z * Z) :=
  b0 ← at_ v offset;
  let result := u16 (b0 ≪ 8) in
  let offset := offset + 1 in
  b1 ← at_ v offset;
  let result := Z.lor result b1 in
  mret (result, offset + 1).

(** [ara/com/helper/payload_helper.cpp:54-67] ExtractInteger *)
Definition ExtractInteger (v : bytes) (offset : Z) : outcome (Z * Z) :=
  b0 ← at_ v offset;
  let result := u32 (b0 ≪ 24) in
  let offset := offset + 1 in
  b1 ← at_ v offset;
  let result := Z.lor result (b1 ≪ 16) in
  let offset := offset + 1 in
  b2 ← at_ v offset;
  let result := Z.lor result (b2 ≪ 8) in
  let offset := offset + 1 in
  b3 ← at_ v offset;
  let result := Z.lor result b3 in
  mret (result, offset + 1).

(** The bytes an injected value occupies. *)
Definition short_bytes (value : Z) : bytes := [u8 (value ≫ 8); u8 value].
Definition integer_bytes (value : Z) : bytes :=
  [u8 (value ≫ 24); u8 (value ≫ 16); u8 (value ≫ 8); u8 value].

Lemma InjectShort_app v value : InjectShort v value = v ++ short_bytes value.
Proof. unfold InjectShort, push_back. by rewrite <- app_assoc. Qed.

Lemma InjectInteger_app v value : InjectInteger v value = v ++ integer_bytes value.
Proof. unfold InjectInteger, push_back. by rewrite <- !app_assoc. Qed.

Lemma size_short_bytes z : size (short_bytes z) = 2.
Proof. done. Qed.

Lemma size_integer_bytes z : size (integer_bytes z) = 4.
Proof. done. Qed.

Create Rewrite HintDb inject.
#[export] Hint Rewrite InjectShort_app InjectInteger_app : inject.
#[export] Hint Rewrite size_short_bytes size_integer_bytes : size.

Lemma is_bytes_short z : is_bytes (short_bytes z).
Proof. repeat constructor; ulia. Qed.

Lemma is_bytes_integer z : is_bytes (integer_bytes z).
Proof. repeat constructor; ulia. Qed.

#[export] Hint Resolve is_bytes_short is_bytes_integer : word.

(** The shift-and-or assembly of a big-endian value is positional notation. *)
Lemma short_assembly b0 b1 :
  is_u8 b0 → is_u8 b1 → Z.lor (u16 (b0 ≪ 8)) b1 = b0 * 256 + b1.
Proof.
  intros H0 H1. rewrite u16_id by (rewrite Z.shiftl_mul_pow2 by lia; ulia).
  rewrite lor_shiftl_add; ulia.
Qed.

Lemma integer_assembly b0 b1 b2 b3 :
  is_u8 b0 → is_u8 b1 → is_u8 b2 → is_u8 b3 →
  Z.lor (Z.lor (Z.lor (u32 (b0 ≪ 24)) (b1 ≪ 16)) (b2 ≪ 8)) b3 =
    ((b0 * 256 + b1) * 256 + b2) * 256 + b3.
Proof.
  intros H0 H1 H2 H3. rewrite u32_id by (rewrite Z.shiftl_mul_pow2 by lia; ulia).
  rewrite lor_shiftl_add by (rewrite ?Z.shiftl_mul_pow2 by lia; ulia).
  rewrite Z.shiftl_mul_pow2 by lia.
  replace (b0 * 2 ^ 24 + b1 * 2 ^ 16) with ((b0 * 256 + b1) ≪ 16)
    by (rewrite Z.shiftl_mul_pow2 by lia; lia).
  rewrite lor_shiftl_add by (rewrite ?Z.shiftl_mul_pow2 by lia; ulia).
  rewrite Z.shiftl_mul_pow2 by lia.
  replace ((b0 * 256 + b1) * 2 ^ 16 + b2 * 2 ^ 8) with (((b0 * 256 + b1) * 256 + b2) ≪ 8)
    by (rewrite Z.shiftl_mul_pow2 by lia; lia).
  rewrite lor_shiftl_add by ulia. lia.
Qed.

Lemma short_bytes_value z :
  is_u16 z → u8 (z ≫ 8) * 256 + u8 z = z.
Proof. intros. rewrite Z.shiftr_div_pow2 by lia. change (2 ^ 8) with 256. ulia. Qed.

Lemma integer_bytes_value z :
  is_u32 z → ((u8 (z ≫ 24) * 256 + u8 (z ≫ 16)) * 256 + u8 (z ≫ 8)) * 256 + u8 z = z.
Proof.
  intros. rewrite !Z.shiftr_div_pow2 by lia.
  change (2 ^ 24) with 16777216. change (2 ^ 16) with 65536. change (2 ^ 8) with 256. ulia.
Qed.

Arguments short_bytes : simpl never.
Arguments integer_bytes : simpl never.

Lemma is_bytes_app a b : is_bytes a → is_bytes b → is_bytes (a ++ b).
Proof. intros. by apply Forall_app. Qed.
Lemma is_bytes_cons x a : is_u8 x → is_bytes a → is_bytes (x :: a).
Proof. intros. by apply Forall_cons. Qed.
Lemma is_bytes_nil : is_bytes [].
Proof. apply Forall_nil_2. Qed.

(** Proves that an explicit concatenation is a vector of bytes. *)
Ltac is_bytes_tac :=
  rewrite ?app_nil_l;
  repeat match goal with
    | |- is_bytes (_ ++ _) => apply is_bytes_app
    | |- is_bytes (_ :: _) => apply is_bytes_cons
    | |- is_bytes [] => apply is_bytes_nil
    end;
  try first [done | solve [eauto with word] | ulia].

(** ** The interface between a message and its parts

    A type that is carried in a payload promises: decoding what it encodes gives
    it back and consumes exactly its bytes; decoding never has undefined
    behaviour; and whatever it accepts is well formed and lies inside the
    payload. *)
Class Codec (A : Type) := {
  enc : A → bytes;
  dec : bytes → Z → outcome (A * Z);
  codec_wf : A → Prop;
  dec_enc v off a :
    codec_wf a → holds v off (enc a) → dec v off = Ok (a, off + size (enc a));
  dec_defined v off : defined (dec v off);
  dec_sound v off a off' :
    is_bytes v → 0 <= off → dec v off = Ok (a, off') →
    codec_wf a ∧ off < off' <= size v;
  enc_bytes a : codec_wf a → is_bytes (enc a)
}.

Arguments enc : simpl never.
Arguments dec : simpl never.

Create HintDb defined.

(** Runs a decoder over explicit bytes: each [at] reads the next one. *)
Ltac read_bytes :=
  repeat match goal with
    | H : holds _ _ (_ ++ _) |- _ => apply holds_app in H as [? ?]
    | H : holds _ _ (_ :: ?l) |- _ =>
        lazymatch l with [] => fail | _ => apply holds_cons in H as [? ?] end
    end;
  repeat (match goal with
    | H : holds ?v ?o [?b] |- context [at_ ?v ?o'] =>
        replace o' with o by size_lia; rewrite (at_holds v o b H); simpl
    end).

(** Compares the results of two decodings up to arithmetic on the offset. *)
Ltac ok_eq := cbv [mbind outcome_bind mret outcome_ret]; cbv beta iota; do 2 f_equal; size_lia.

(** Splits a successful decoding into its reads. *)
Ltac inv_ok :=
  repeat match goal with
    | H : (_ ≫= _) = Ok _ |- _ =>
        let a := fresh "a" in let E := fresh "E" in
        apply bind_Ok in H as (a & E & H)
    | H : mret _ = Ok _ |- _ => unfold mret, outcome_ret in H; simplify_eq
    | H : Ok _ = Ok _ |- _ => simplify_eq
    | a : (_ * _)%type |- _ => destruct a
    end; simpl in *.

(** The accesses of a successful decoding: their ranges and byte values. *)
Ltac use_at :=
  repeat match goal with
    | Hv : is_bytes ?v, E : at_ ?v ?o = Ok ?b |- _ =>
        pose proof (at_is_u8 v o b Hv E); apply at_Ok in E as [? _]
    end.

Lemma ExtractShort_holds v off z :
  is_u16 z → holds v off (short_bytes z) → ExtractShort v off = Ok (z, off + 2).
Proof.
  intros Hz H. unfold ExtractShort, short_bytes in *. read_bytes.
  rewrite short_assembly by eauto with word. rewrite short_bytes_value by done.
  ok_eq.
Qed.

Lemma ExtractInteger_holds v off z :
  is_u32 z → holds v off (integer_bytes z) → ExtractInteger v off = Ok (z, off + 4).
Proof.
  intros Hz H. unfold ExtractInteger, integer_bytes in *. read_bytes.
  rewrite integer_assembly by eauto with word. rewrite integer_bytes_value by done.
  ok_eq.
Qed.

Lemma ExtractShort_defined v off : defined (ExtractShort v off).
Proof. unfold ExtractShort. repeat (apply defined_bind; [apply at_defined|intros]). done. Qed.

Lemma ExtractInteger_defined v off : defined (ExtractInteger v off).
Proof. unfold ExtractInteger. repeat (apply defined_bind; [apply at_defined|intros]). done. Qed.

Lemma ExtractShort_Ok v off z off' :
  is_bytes v → 0 <= off → ExtractShort v off = Ok (z, off') →
  is_u16 z ∧ off' = off + 2 ∧ off' <= size v.
Proof.
  intros Hv Hoff H. unfold ExtractShort in H. inv_ok. use_at.
  rewrite short_assembly by done. split; [ulia|lia].
Qed.

Lemma ExtractInteger_Ok v off z off' :
  is_bytes v → 0 <= off → ExtractInteger v off = Ok (z, off') →
  is_u32 z ∧ off' = off + 4 ∧ off' <= size v.
Proof.
  intros Hv Hoff H. unfold ExtractInteger in H. inv_ok. use_at.
  rewrite integer_assembly by done. split; [ulia|lia].
Qed.

Lemma integer_bytes_of b0 b1 b2 b3 :
  is_u8 b0 → is_u8 b1 → is_u8 b2 → is_u8 b3 →
  integer_bytes (((b0 * 256 + b1) * 256 + b2) * 256 + b3) = [b0; b1; b2; b3].
Proof.
  intros. unfold integer_bytes. rewrite !Z.shiftr_div_pow2 by lia.
  change (2 ^ 24) with 16777216. change (2 ^ 16) with 65536. change (2 ^ 8) with 256.
  repeat f_equal; ulia.
Qed.

Lemma short_bytes_of b0 b1 :
  is_u8 b0 → is_u8 b1 → short_bytes (b0 * 256 + b1) = [b0; b1].
Proof.
  intros. unfold short_bytes. rewrite !Z.shiftr_div_pow2 by lia. change (2 ^ 8) with 256.
  repeat f_equal; ulia.
Qed.

(** What an extraction does on any vector: the value it returns is the one the
    vector holds, and it throws exactly when it would leave the vector. *)
Lemma ExtractInteger_spec v off :
  is_bytes v → 0 <= off →
  if off + 4 <=? size v
  then ∃ z, ExtractInteger v off = Ok (z, off + 4) ∧ is_u32 z ∧ holds v off (integer_bytes z)
  else ExtractInteger v off = Throw std_out_of_range.
Proof.
  intros Hv Hoff. destruct (off + 4 <=? size v) eqn:Hle.
  - destruct (at_total v off ltac:(lia)) as (b0 & _ & H0).
    destruct (at_total v (off + 1) ltac:(lia)) as (b1 & _ & H1).
    destruct (at_total v (off + 1 + 1) ltac:(lia)) as (b2 & _ & H2).
    destruct (at_total v (off + 1 + 1 + 1) ltac:(lia)) as (b3 & _ & H3).
    assert (Hh : holds v off [b0; b1; b2; b3]).
    { apply holds_cons; split; [done|]. apply holds_cons; split; [done|].
      apply holds_cons; split; done. }
    pose proof (holds_is_bytes _ _ _ Hv Hh) as Hb. unfold is_bytes in Hb.
    rewrite !Forall_cons in Hb. destruct Hb as (? & ? & ? & ? & _).
    rewrite <- integer_bytes_of in Hh by done.
    assert (Hz : is_u32 (((b0 * 256 + b1) * 256 + b2) * 256 + b3)) by ulia.
    eexists; split; [|split; [exact Hz|exact Hh]]. by apply ExtractInteger_holds.
  - destruct (ExtractInteger v off) as [[z o]|e| |] eqn:E.
    + apply ExtractInteger_Ok in E; [lia|done|done].
    + unfold ExtractInteger in E. unfold at_ in E.
      repeat (case_match; simpl in E; simplify_eq; try done).
    + by pose proof (ExtractInteger_defined v off) as Hd; rewrite E in Hd.
    + by pose proof (ExtractInteger_defined v off) as Hd; rewrite E in Hd.
Qed.

Lemma ExtractShort_spec v off :
  is_bytes v → 0 <= off →
  if off + 2 <=? size v
  then ∃ z, ExtractShort v off = Ok (z, off + 2) ∧ is_u16 z ∧ holds v off (short_bytes z)
  else ExtractShort v off = Throw std_out_of_range.
Proof.
  intros Hv Hoff. destruct (off + 2 <=? size v) eqn:Hle.
  - destruct (at_total v off ltac:(lia)) as (b0 & _ & H0).
    destruct (at_total v (off + 1) ltac:(lia)) as (b1 & _ & H1).
    assert (Hh : holds v off [b0; b1]) by (apply holds_cons; split; done).
    pose proof (holds_is_bytes _ _ _ Hv Hh) as Hb. unfold is_bytes in Hb.
    rewrite !Forall_cons in Hb. destruct Hb as (? & ? & _).
    rewrite <- short_bytes_of in Hh by done.
    assert (Hz : is_u16 (b0 * 256 + b1)) by ulia.
    eexists; split; [|split; [exact Hz|exact Hh]]. by apply ExtractShort_holds.
  - destruct (ExtractShort v off) as [[z o]|e| |] eqn:E.
    + apply ExtractShort_Ok in E; [lia|done|done].
    + unfold ExtractShort in E. unfold at_ in E.
      repeat (case_match; simpl in E; simplify_eq; try done).
    + by pose proof (ExtractShort_defined v off) as Hd; rewrite E in Hd.
    + by pose proof (ExtractShort_defined v off) as Hd; rewrite E in Hd.
Qed.

Lemma ExtractInteger_total v off :
  0 <= off → off + 4 <= size v → is_ok (ExtractInteger v off) = true.
Proof.
  intros Hoff Hle. unfold ExtractInteger.
  destruct (at_total v off) as (b0 & -> & _); [lia|]. simpl.
  destruct (at_total v (off + 1)) as (b1 & -> & _); [lia|]. simpl.
  destruct (at_total v (off + 1 + 1)) as (b2 & -> & _); [lia|]. simpl.
  by destruct (at_total v (off + 1 + 1 + 1)) as (b3 & -> & _); [lia|].
Qed.

(** ** ipv4_address.cpp *)
Module Ipv4.

(** [ara/com/helper/ipv4_address.h:16-58] Ipv4Address *)
Record Ipv4Address := mk {
  octet0 : Z;
  octet1 : Z;
  octet2 : Z;
  octet3 : Z
}.

#[export] Instance Ipv4Address_eq_dec : EqDecision Ipv4Address.
Proof. solve_decision. Defined.

(** [ara/com/helper/ipv4_address.cpp:50-58] Inject *)
Definition Inject (v : bytes) (ip : Ipv4Address) : bytes :=
  v ++ [octet0 ip; octet1 ip; octet2 ip; octet3 ip].

(** [ara/com/helper/ipv4_address.cpp:60-71] Extract *)
Definition Extract (v : bytes) (offset : Z) : outcome (Ipv4Address * Z) :=
  o0 ← at_ v offset;
  o1 ← at_ v (offset + 1);
  o2 ← at_ v (offset + 2);
  o3 ← at_ v (offset + 3);
  mret (mk o0 o1 o2 o3, offset + 4).

(** [ara/com/helper/ipv4_address.h:64-73] operator== *)
Definition eqb (a b : Ipv4Address) : bool :=
  (octet0 a =? octet0 b) && (octet1 a =? octet1 b) &&
  (octet2 a =? octet2 b) && (octet3 a =? octet3 b).

Definition wf (ip : Ipv4Address) : Prop :=
  is_u8 (octet0 ip) ∧ is_u8 (octet1 ip) ∧ is_u8 (octet2 ip) ∧ is_u8 (octet3 ip).

Lemma eqb_eq a b : eqb a b = true ↔ a = b.
Proof.
  destruct a, b; unfold eqb; simpl. rewrite !andb_true_iff, !Z.eqb_eq.
  split; [intros [[[-> ->] ->] ->]; done | intros; simplify_eq; done].
Qed.

End Ipv4.

#[export, refine] Instance Ipv4_Codec : Codec Ipv4.Ipv4Address := {|
  enc := Ipv4.Inject [];
  dec := Ipv4.Extract;
  codec_wf := Ipv4.wf
|}.
Proof.
  - intros v off [o0 o1 o2 o3] _ H. unfold Ipv4.Inject, Ipv4.Extract in *.
    rewrite app_nil_l in *. simpl in H. read_bytes. ok_eq.
  - intros v off. unfold Ipv4.Extract.
    repeat (apply defined_bind; [apply at_defined|intros]). done.
  - intros v off ip off' Hv Hoff H. unfold Ipv4.Extract in H. inv_ok. use_at.
    unfold Ipv4.wf; simpl. split_and!; try done; lia.
  - intros ip (?&?&?&?). unfold Ipv4.Inject. is_bytes_tac.
Defined.

Lemma Ipv4_Inject_app v ip : Ipv4.Inject v ip = v ++ enc ip.
Proof. done. Qed.

Lemma size_enc_Ipv4 (ip : Ipv4.Ipv4Address) : size (enc ip) = 4.
Proof. done. Qed.

#[export] Hint Rewrite Ipv4_Inject_app : inject.
#[export] Hint Rewrite size_enc_Ipv4 : size.

Lemma Ipv4_Extract_sound v off ip off' :
  is_bytes v → 0 <= off → Ipv4.Extract v off = Ok (ip, off') →
  Ipv4.wf ip ∧ off < off' <= size v.
Proof. exact (dec_sound (A:=Ipv4.Ipv4Address) v off ip off'). Qed.

(** Decodes every part whose encoding is known to be in the vector. *)
Ltac read_parts :=
  repeat match goal with
    | H : holds _ _ (_ ++ _) |- _ => apply holds_app in H as [? ?]
    | H : holds _ _ (_ :: ?l) |- _ =>
        lazymatch l with [] => fail | _ => apply holds_cons in H as [? ?] end
    end;
  repeat (match goal with
    | H : holds ?v ?o [?b] |- context [at_ ?v ?o'] =>
        replace o' with o by size_lia; rewrite (at_holds v o b H); simpl
    | H : holds ?v ?o [?b] |- context [index_ ?v ?o'] =>
        replace o' with o by size_lia; rewrite (index_holds v o b H); simpl
    | H : holds ?v ?o (short_bytes ?z) |- context [ExtractShort ?v ?o'] =>
        replace o' with o by size_lia;
        rewrite (ExtractShort_holds v o z) by done; simpl
    | H : holds ?v ?o (integer_bytes ?z) |- context [ExtractInteger ?v ?o'] =>
        replace o' with o by size_lia;
        rewrite (ExtractInteger_holds v o z) by done; simpl
    | H : holds ?v ?o (enc ?a) |- context [Ipv4.Extract ?v ?o'] =>
        replace o' with o by size_lia;
        change (Ipv4.Extract v o) with (dec v o); rewrite (dec_enc v o a) by done; simpl
    end).

(** The same for a decoding that succeeded: the ranges and bytes of its reads. *)
Ltac use_parts :=
  repeat match goal with
    | Hv : is_bytes ?v, E : at_ ?v ?o = Ok ?b |- _ =>
        pose proof (at_is_u8 v o b Hv E); apply at_Ok in E as [? _]
    | Hv : is_bytes ?v, E : ExtractShort ?v ?o = Ok _ |- _ =>
        apply (ExtractShort_Ok v o _ _ Hv) in E as (? & ? & ?); [|lia]
    | Hv : is_bytes ?v, E : ExtractInteger ?v ?o = Ok _ |- _ =>
        apply (ExtractInteger_Ok v o _ _ Hv) in E as (? & ? & ?); [|lia]
    | Hv : is_bytes ?v, E : Ipv4.Extract ?v ?o = Ok _ |- _ =>
        apply (Ipv4_Extract_sound v o _ _ Hv) in E as [? ?]; [|lia]
    end.

Lemma Ipv4_Extract_defined v off : defined (Ipv4.Extract v off).
Proof. exact (dec_defined (A:=Ipv4.Ipv4Address) v off). Qed.

#[export] Hint Resolve Ipv4_Extract_defined at_defined ExtractShort_defined ExtractInteger_defined : defined.

(** A decoder is defined when its reads are. *)
Ltac defined_tac :=
  repeat first
    [ done
    | solve [eauto with defined]
    | match goal with |- defined (let '(_, _) := ?p in _) => destruct p end
    | apply defined_bind; [|intros ? _]
    | case_match ].
