(* ===== verification/Addresses.v ===== *)
(** * IPv4 addresses as texts: ara/com/helper/ipv4_address.cpp

    The constructor that reads a dotted address from a string stream, and the printing of
    addresses.  The stream of the standard library is modelled with its two error bits, so
    that what malformed texts give, and which of them leave an octet without a value, is
    part of the result. *)

From stdpp Require Import pretty.
From S2P Require Import Prelude Texts Payload.
From Stdlib Require Import Ascii.
#[local] Open Scope Z_scope.

(** ** What the constructor uses of [std::istringstream] *)
Module Stream.

Record t := mk { rest : string; eofbit : bool; failbit : bool }.

Definition good (s : t) : bool := negb (eofbit s || failbit s).

(** The text up to its first NUL: what a [const char *] says of it. *)
Fixpoint c_str (s : string) : string :=
  match s with
  | String c s' => if bool_decide (c = "000"%char) then EmptyString else String c (c_str s')
  | EmptyString => EmptyString
  end.

Definition open (text : string) : t := mk (c_str text) false false.

(** The digits at the head of a text and what follows them. *)
Fixpoint take_digits (s : string) (acc : option Z) : option Z * string :=
  match s with
  | String c s' =>
      match digit c with
      | Some d => take_digits s' (Some (default 0 acc * 10 + d))
      | None => (acc, s)
      end
  | EmptyString => (acc, s)
  end.

(** An optional sign. *)
Definition take_sign (s : string) : Z * string :=
  match s with
  | String c s' =>
      if bool_decide (c = "-"%char) then (-1, s') else if bool_decide (c = "+"%char) then (1, s') else (1, s)
  | EmptyString => (1, s)
  end.

Definition is_empty (s : string) : bool := match s with EmptyString => true | _ => false end.

(** [stream >> n] for an [int]: a stream that is not good, or that ends in the white space,
    leaves the variable as it is; no digits make it 0 and a number out of range the nearest
    bound, and both set [failbit]. *)
Definition extract_int (old : option Z) (s : t) : option Z * t :=
  if negb (good s) then (old, mk (rest s) (eofbit s) true)
  else
    match skip_space (rest s) with
    | EmptyString => (old, mk EmptyString true true)
    | text =>
        let '(sign, text) := take_sign text in
        match take_digits text None with
        | (None, r) => (Some 0, mk r (is_empty r) true)
        | (Some n, r) =>
            let n := sign * n in
            let bounded := Z.max (-2147483648) (Z.min n 2147483647) in
            (Some bounded, mk r (is_empty r) (negb (n =? bounded)))
        end
    end.

(** [stream >> c] for a [char]. *)
Definition extract_char (s : t) : t :=
  if negb (good s) then mk (rest s) (eofbit s) true
  else
    match skip_space (rest s) with
    | EmptyString => mk EmptyString true true
    | String _ r => mk r false false
    end.

End Stream.

Module Ipv4Text.

(** A variable of type [int] read as an octet: undefined without a value. *)
Definition octet (n : option Z) : outcome Z := match n with Some n => Ok (u8 n) | None => Undefined end.

(** [ara/com/helper/ipv4_address.cpp:19-37] Ipv4Address *)
Definition construct (ipAddress : string) : outcome Ipv4.Ipv4Address :=
  let s := Stream.open ipAddress in
  let '(octetInt0, s) := Stream.extract_int None s in
  let s := Stream.extract_char s in
  let '(octetInt1, s) := Stream.extract_int None s in
  let s := Stream.extract_char s in
  let '(octetInt2, s) := Stream.extract_int None s in
  let s := Stream.extract_char s in
  let '(octetInt3, s) := Stream.extract_int None s in
  cOctet0 ← octet octetInt0;
  cOctet1 ← octet octetInt1;
  cOctet2 ← octet octetInt2;
  cOctet3 ← octet octetInt3;
  mret (Ipv4.mk cOctet0 cOctet1 cOctet2 cOctet3).

(** Four numbers with dots between them. *)
Definition dotted (a b c d : Z) : string :=
  (pretty a +:+ "." +:+ pretty b +:+ "." +:+ pretty c +:+ "." +:+ pretty d)%string.

(** [ara/com/helper/ipv4_address.cpp:39-48] ToString *)
Definition ToString (ip : Ipv4.Ipv4Address) : string :=
  dotted (Ipv4.octet0 ip) (Ipv4.octet1 ip) (Ipv4.octet2 ip) (Ipv4.octet3 ip).

Example construct_1 : construct "239.0.0.1" = Ok (Ipv4.mk 239 0 0 1).
Proof. reflexivity. Qed.

Example construct_2 : construct "1:-2 , 3x4" = Ok (Ipv4.mk 1 254 3 4).
Proof. reflexivity. Qed.

Example construct_3 : construct "10.0.0" = Undefined.
Proof. reflexivity. Qed.

End Ipv4Text.

(** ** Lemmas *)

Lemma digit_char (n : N) : (n < 10)%N → digit (pretty_N_char n) = Some (Z.of_N n).
Proof.
  intros Hn. assert (Hin : (n ∈ [0; 1; 2; 3; 4; 5; 6; 7; 8; 9]%N)).
  { rewrite !elem_of_cons. lia. }
  repeat (apply elem_of_cons in Hin as [->|Hin]; [reflexivity|]). by apply elem_of_nil in Hin.
Qed.

(** What does not continue a number. *)
Definition no_digit (s : string) : Prop :=
  match s with String c _ => digit c = None | EmptyString => True end.

Lemma take_digits_stop s acc : no_digit s → Stream.take_digits s acc = (acc, s).
Proof. destruct s as [|c s]; cbn; [done|]. by intros ->. Qed.

Lemma pretty_go_app (x : N) s t :
  (pretty_N_go x s +:+ t)%string = pretty_N_go x (s +:+ t)%string.
Proof.
  revert s t. induction (N.lt_wf_0 x) as [x _ IH]; intros s t.
  destruct (decide (x = 0%N)) as [->|Hx]; [by rewrite !pretty_N_go_0|].
  rewrite !(pretty_N_go_step x) by lia. rewrite IH by (apply N.div_lt; lia). done.
Qed.

Lemma take_digits_go (x : N) s :
  (0 < x)%N → Stream.take_digits (pretty_N_go x s) None = Stream.take_digits s (Some (Z.of_N x)).
Proof.
  revert s. induction (N.lt_wf_0 x) as [x _ IH]; intros s Hx.
  rewrite pretty_N_go_step by done. pose proof (N.mod_lt x 10 ltac:(lia)) as Hm.
  destruct (decide (x / 10 = 0)%N) as [E|E].
  - rewrite E, pretty_N_go_0. cbn [Stream.take_digits]. rewrite digit_char by done. cbn.
    do 2 f_equal. rewrite N.div_small_iff in E by lia. by rewrite N.mod_small by lia.
  - rewrite IH; [|by apply N.div_lt; lia|by apply N.neq_0_lt_0]. cbn [Stream.take_digits]. rewrite digit_char by done.
    cbn [default from_option id]. do 2 f_equal. pose proof (N.div_mod' x 10). lia.
Qed.

Lemma take_digits_pretty (n : Z) s :
  0 <= n → no_digit s → Stream.take_digits (pretty n +:+ s)%string None = (Some n, s).
Proof.
  intros Hn Hs. destruct n as [|p|p]; [|change (pretty (Z.pos p)) with (pretty (N.pos p))|lia].
  - change (pretty 0) with "0"%string. cbn [String.append Stream.take_digits digit]. by apply (take_digits_stop s (Some 0)).
  - unfold pretty, pretty_N. rewrite decide_False by done. rewrite pretty_go_app, take_digits_go by lia.
    by rewrite take_digits_stop.
Qed.

(** A number is not white space and has no sign in front of it. *)
Lemma pretty_head (n : Z) s :
  0 <= n → skip_space (pretty n +:+ s)%string = (pretty n +:+ s)%string ∧
           Stream.take_sign (pretty n +:+ s)%string = (1, (pretty n +:+ s)%string) ∧
           (pretty n +:+ s)%string ≠ EmptyString.
Proof.
  intros Hn. destruct n as [|p|p]; [by cbn|change (pretty (Z.pos p)) with (pretty (N.pos p))|lia].
  unfold pretty, pretty_N. rewrite decide_False by done. rewrite pretty_go_app. change ("" +:+ s)%string with s.
  assert (Hgo : ∀ x t, (0 < x)%N → ∃ d t', (d < 10)%N ∧ pretty_N_go x t = String (pretty_N_char d) t').
  { intros x. induction (N.lt_wf_0 x) as [x _ IH]. intros t Hx. rewrite pretty_N_go_step by done.
    pose proof (N.mod_lt x 10 ltac:(lia)). destruct (decide (x / 10 = 0)%N) as [E|E].
    - rewrite E, pretty_N_go_0. by eexists _, _.
    - apply IH; [apply N.div_lt; lia|by apply N.neq_0_lt_0]. }
  destruct (Hgo (N.pos p) s ltac:(lia)) as (d & t & Hd & ->).
  assert (Hin : (d ∈ [0; 1; 2; 3; 4; 5; 6; 7; 8; 9]%N)) by (rewrite !elem_of_cons; lia).
  repeat (apply elem_of_cons in Hin as [->|Hin]; [by cbn|]). by apply elem_of_nil in Hin.
Qed.

(** Reading a number that was printed, up to what cannot continue it. *)
Lemma extract_int_pretty old n s :
  0 <= n < 2147483648 → no_digit s →
  Stream.extract_int old (Stream.mk (pretty n +:+ s)%string false false) =
    (Some n, Stream.mk s (Stream.is_empty s) false).
Proof.
  intros Hn Hs. destruct (pretty_head n s ltac:(lia)) as (H1 & H2 & H3).
  unfold Stream.extract_int, Stream.good. cbn [Stream.rest Stream.eofbit Stream.failbit orb negb].
  rewrite H1. destruct (pretty n +:+ s)%string as [|c t] eqn:E; [done|].
  rewrite H2, <- E, take_digits_pretty by (done || lia).
  replace (Z.max _ _) with n by lia. by rewrite Z.mul_1_l, Z.eqb_refl.
Qed.

Lemma c_str_app (a b : string) : Stream.c_str a = a → Stream.c_str (a +:+ b)%string = (a +:+ Stream.c_str b)%string.
Proof.
  induction a as [|c a IH]; [done|]. change (String c a +:+ b)%string with (String c (a +:+ b)).
  cbn [Stream.c_str]. case_bool_decide; [done|]. intros Hc. injection Hc as Hc. by rewrite IH.
Qed.

Lemma c_str_pretty (n : Z) : 0 <= n → Stream.c_str (pretty n) = pretty n.
Proof.
  intros Hn. destruct n as [|p|p]; [done|change (pretty (Z.pos p)) with (pretty (N.pos p))|lia].
  unfold pretty, pretty_N. rewrite decide_False by done.
  assert (Hgo : ∀ x t, Stream.c_str t = t → Stream.c_str (pretty_N_go x t) = pretty_N_go x t).
  { intros x. induction (N.lt_wf_0 x) as [x _ IH]. intros t Ht.
    destruct (decide (x = 0%N)) as [->|E]; [by rewrite pretty_N_go_0|].
    rewrite pretty_N_go_step by lia. apply IH; [apply N.div_lt; lia|].
    pose proof (N.mod_lt x 10 ltac:(lia)) as Hd. revert Hd. generalize (x mod 10)%N as d. intros d Hd.
    assert (Hin : (d ∈ [0; 1; 2; 3; 4; 5; 6; 7; 8; 9]%N)) by (rewrite !elem_of_cons; lia).
    repeat (apply elem_of_cons in Hin as [->|Hin]; [cbn; by rewrite Ht|]). by apply elem_of_nil in Hin. }
  by apply Hgo.
Qed.

Lemma extract_char_dot s : Stream.extract_char (Stream.mk ("." +:+ s)%string false false) = Stream.mk s false false.
Proof. done. Qed.

Lemma c_str_dotted (n : Z) s :
  0 <= n → Stream.c_str (pretty n +:+ "." +:+ s)%string = (pretty n +:+ "." +:+ Stream.c_str s)%string.
Proof. intros Hn. rewrite c_str_app by (by apply c_str_pretty). done. Qed.

Lemma construct_dotted a b c d :
  0 <= a < 2147483648 → 0 <= b < 2147483648 → 0 <= c < 2147483648 → 0 <= d < 2147483648 →
  Ipv4Text.construct (Ipv4Text.dotted a b c d) = Ok (Ipv4.mk (u8 a) (u8 b) (u8 c) (u8 d)).
Proof.
  intros Ha Hb Hc Hd. unfold Ipv4Text.construct, Ipv4Text.dotted, Stream.open.
  rewrite !c_str_dotted, c_str_pretty by lia.
  do 3 (rewrite extract_int_pretty by done; cbn [Stream.is_empty String.append];
        rewrite (extract_char_dot _)).
  pose proof (extract_int_pretty None d "" Hd I) as H.
  rewrite sapp_nil_r in H. by rewrite H.
Qed.

(** ** Properties *)

(** An address survives being printed and read; and of any four numbers with dots
    between them, up to the largest [int], each is read modulo 256: the constructor does
    not notice octets that are too large. *)
Theorem ipv4_text_roundtrip ip a b c d :
  (Ipv4.wf ip → Ipv4Text.construct (Ipv4Text.ToString ip) = Ok ip) ∧
  (Forall (fun n => 0 <= n < 2147483648) [a; b; c; d] →
   Ipv4Text.construct (Ipv4Text.dotted a b c d) = Ok (Ipv4.mk (u8 a) (u8 b) (u8 c) (u8 d))).
Proof.
  split.
  - destruct ip as [o0 o1 o2 o3]. intros (H0 & H1 & H2 & H3). unfold Ipv4Text.ToString.
    cbn [Ipv4.octet0 Ipv4.octet1 Ipv4.octet2 Ipv4.octet3] in *. rewrite construct_dotted by ulia. by rewrite !u8_id.
  - rewrite !Forall_cons. intros (Ha & Hb & Hc & Hd & _). by apply construct_dotted.
Qed.

Lemma ipv4_text_roundtrip_witness :
  Ipv4Text.construct (Ipv4Text.ToString (Ipv4.mk 239 0 0 1)) = Ok (Ipv4.mk 239 0 0 1) ∧
  Ipv4Text.construct "256.0.0.257" = Ok (Ipv4.mk 0 0 0 1).
Proof.
  split; [apply (ipv4_text_roundtrip (Ipv4.mk 239 0 0 1) 0 0 0 0); by_eval|].
  apply (ipv4_text_roundtrip (Ipv4.mk 239 0 0 1) 256 0 0 257). by_eval.
Defined.
