(* ===== verification/E2E.v ===== *)
(** * End-to-end protection profile 11: ara/com/e2e

    The CRC-8 table and register of profile11.cpp, the protection of a payload by
    [TryProtect] and the receiver's [Check].  The theorems state what the profile
    is for: a stream protected by one side is accepted in order by the other, a
    corrupted byte is detected, and a replayed message is reported. *)

From S2P Require Import Prelude Payload.

Module Profile11.

(** [ara/com/e2e/profile.h:15-22] CheckStatusType *)
Inductive CheckStatusType := kOk | kWrongCrc | kRepeated | kNoNewData | kWrongSequence.

#[export] Instance CheckStatusType_eq_dec : EqDecision CheckStatusType.
Proof. solve_decision. Defined.

(** [ara/com/e2e/profile11.h:17-46] Profile11 *)
Record Profile11 := mk {
  mProtectingCounter : Z;
  mCheckingCounter : Z
}.

(** [ara/com/e2e/profile11.h:20-27] the static members: table and initialisation flag *)
Record Static := mkStatic {
  mCrcTableInitialized : bool;
  mCrcTable : list Z
}.

Definition cTableSize : nat := 256.
Definition cCounterMax : Z := 14.
Definition cCrcPoly : Z := 29.

(** Static storage before the first construction. *)
Definition static_init : Static := mkStatic false (replicate cTableSize 0).

(** [ara/com/e2e/profile11.cpp:35-38] one shift of the register *)
Definition crc_shift (crcPoly crc : Z) : Z :=
  if negb (Z.land crc 128 =? 0) then u8 (Z.lxor (crc ≪ 1) crcPoly) else u8 (crc ≪ 1).

(** [ara/com/e2e/profile11.cpp:27-42] initializeCrcTable *)
Definition initializeCrcTable (crcPoly : Z) : list Z :=
  map (fun i : nat => Nat.iter 8 (crc_shift crcPoly) (u8 (Z.of_nat i))) (seq 0 cTableSize).

(** [ara/com/e2e/profile11.cpp:15-25] Profile11::Profile11 *)
Definition construct (st : Static) : Profile11 * Static :=
  let st' :=
    if negb (mCrcTableInitialized st)
    then mkStatic true (initializeCrcTable cCrcPoly)
    else st in
  (mk 0 0, st').

(** [ara/com/e2e/profile11.cpp:49-54] the loop of calculateCrc *)
Fixpoint crc_loop (table : list Z) (result : Z) (data : bytes) : outcome Z :=
  match data with
  | [] => mret result
  | cElement :: rest =>
      let cIndex := Z.lxor result cElement in
      result ← index_ table cIndex;
      crc_loop table result rest
  end.

(** [ara/com/e2e/profile11.cpp:44-57] calculateCrc *)
Definition calculateCrc (table : list Z) (data : bytes) (offset : nat) : outcome Z :=
  result ← crc_loop table 255 (drop offset data);
  mret (u8 (Z.lnot result)).

(** [ara/com/e2e/profile11.cpp:59-91] TryProtect *)
Definition TryProtect (table : list Z) (unprotectedData : bytes) :
    M Profile11 (option bytes) :=
  if 0 <? size unprotectedData then
    p ← get;
    (if mProtectingCounter p <? cCounterMax
     then modify (fun p => mk (u8 (mProtectingCounter p + 1)) (mCheckingCounter p))
     else modify (fun p => mk 0 (mCheckingCounter p)));;
    p ← get;
    let cCounter := u8 (Z.lor (mProtectingCounter p) 240) in
    let protectedData := cCounter :: unprotectedData in
    cCrc ← lift (calculateCrc table protectedData 0);
    mret (Some (cCrc :: protectedData))
  else mret None.

(** [ara/com/e2e/profile11.cpp:93-98] TryForward *)
Definition TryForward (unprotectedData : bytes) : M Profile11 (option bytes) :=
  raise std_logic_error.

(** [ara/com/e2e/profile11.cpp:100-146] Check *)
Definition Check (table : list Z) (protectedData : bytes) : M Profile11 CheckStatusType :=
  if size protectedData <? 3 then mret kNoNewData
  else
    cReceivedCrc ← lift (index_ protectedData 0);
    cComputedCrc ← lift (calculateCrc table protectedData 1);
    if negb (cReceivedCrc =? cComputedCrc) then mret kWrongCrc
    else
      cUnmaskedCounter ← lift (index_ protectedData 1);
      let cReceivedCounter := u8 (Z.land cUnmaskedCounter 15) in
      p ← get;
      let cDelta := i8 (cReceivedCounter - mCheckingCounter p) in
      let result :=
        if cDelta =? 0 then kRepeated
        else if (mCheckingCounter p <? cCounterMax) && (cDelta <? 0) then kWrongSequence
        else kOk in
      modify (fun p => mk (mProtectingCounter p) cReceivedCounter);;
      mret result.

(** ** The register as a bit-serial CRC *)

(** The table that every constructed profile uses. *)
Definition crc_table : list Z := Eval vm_compute in initializeCrcTable cCrcPoly.

(** CRC-8 with polynomial 0x1d, one bit at a time, without a table. *)
Definition crc8_byte (crc b : Z) : Z := Nat.iter 8 (crc_shift cCrcPoly) (Z.lxor crc b).
Definition crc8 (data : bytes) : Z := u8 (Z.lnot (foldl crc8_byte 255 data)).

(** ** Lemmas *)

Lemma crc_table_is : initializeCrcTable cCrcPoly = crc_table.
Proof. by vm_compute. Qed.

(** Everything about the 256 entries is decided by evaluation. *)
Definition u8_range : list Z := Eval vm_compute in map Z.of_nat (seq 0 256).

Lemma u8_range_elem z : is_u8 z → z ∈ u8_range.
Proof.
  intros Hz. assert (Hin : Z.of_nat (Z.to_nat z) ∈ map Z.of_nat (seq 0 256)).
  { apply list_elem_of_fmap. exists (Z.to_nat z). split; [done|].
    apply elem_of_seq. ulia. }
  rewrite Z2Nat.id in Hin by ulia. exact Hin.
Qed.

Lemma u8_forall (f : Z → bool) : forallb f u8_range = true → ∀ z, is_u8 z → f z = true.
Proof.
  rewrite forallb_forall. intros H z Hz. apply H, list_elem_of_In, u8_range_elem, Hz.
Qed.

(** The table entry is the bit-serial remainder, and a byte. *)
Lemma crc_table_lookup i :
  is_u8 i → index_ crc_table i = Ok (Nat.iter 8 (crc_shift cCrcPoly) i)
            ∧ is_u8 (Nat.iter 8 (crc_shift cCrcPoly) i).
Proof.
  intros Hi.
  set (f i := match index_ crc_table i with
              | Ok t => (t =? Nat.iter 8 (crc_shift cCrcPoly) i) && (0 <=? t) && (t <? 256)
              | _ => false end).
  assert (Hf : f i = true) by (apply u8_forall; [by vm_compute|done]). unfold f in Hf.
  destruct (index_ crc_table i) as [t| | |]; try done.
  apply andb_prop in Hf as [[He%Z.eqb_eq ?]%andb_prop ?]. rewrite <- He. split; [done|ulia].
Qed.

(** Distinct register values give distinct table entries: the table is a permutation. *)
Fixpoint position (t : Z) (l : list Z) : Z :=
  match l with [] => 0 | x :: l => if x =? t then 0 else 1 + position t l end.

Lemma crc_byte_inj i j :
  is_u8 i → is_u8 j →
  Nat.iter 8 (crc_shift cCrcPoly) i = Nat.iter 8 (crc_shift cCrcPoly) j → i = j.
Proof.
  assert (Hinv : ∀ z, is_u8 z → position (Nat.iter 8 (crc_shift cCrcPoly) z) crc_table = z).
  { intros z Hz. apply Z.eqb_eq.
    apply (u8_forall (fun z => position (Nat.iter 8 (crc_shift cCrcPoly) z) crc_table =? z));
      [by vm_compute|done]. }
  intros Hi Hj H. rewrite <- (Hinv i Hi), <- (Hinv j Hj). by rewrite H.
Qed.

Lemma crc8_byte_u8 r b : is_u8 r → is_u8 b → is_u8 (crc8_byte r b).
Proof. intros. apply crc_table_lookup. eauto with word. Qed.

Lemma crc_fold_u8 r data : is_u8 r → is_bytes data → is_u8 (foldl crc8_byte r data).
Proof.
  intros Hr Hd. revert r Hr. induction Hd as [|b data Hb _ IH]; intros r Hr; [done|].
  apply IH. by apply crc8_byte_u8.
Qed.

Lemma crc_loop_fold r data :
  is_u8 r → is_bytes data → crc_loop crc_table r data = Ok (foldl crc8_byte r data).
Proof.
  intros Hr Hd. revert r Hr. induction Hd as [|b data Hb _ IH]; intros r Hr; [done|].
  cbn [crc_loop foldl]. rewrite (proj1 (crc_table_lookup (Z.lxor r b) (lxor_u8 _ _ Hr Hb))).
  apply IH. by apply crc8_byte_u8.
Qed.

Lemma calculateCrc_crc8 data off :
  is_bytes data → calculateCrc crc_table data off = Ok (crc8 (drop off data)).
Proof.
  intros Hd. unfold calculateCrc.
  rewrite crc_loop_fold; [done|ulia|by apply Forall_drop].
Qed.

Lemma crc_fold_inj r r' data :
  is_u8 r → is_u8 r' → is_bytes data →
  foldl crc8_byte r data = foldl crc8_byte r' data → r = r'.
Proof.
  intros Hr Hr' Hd. revert r r' Hr Hr'.
  induction Hd as [|b data Hb _ IH]; intros r r' Hr Hr' H; [done|].
  apply IH in H; [|by apply crc8_byte_u8..].
  apply crc_byte_inj in H; [|by eauto with word..]. by eapply lxor_cancel_r.
Qed.

Lemma lnot_u8_inj a b : is_u8 a → is_u8 b → u8 (Z.lnot a) = u8 (Z.lnot b) → a = b.
Proof. unfold Z.lnot. ulia. Qed.

(** Two messages of the same length that differ in one byte have different CRCs. *)
Lemma crc8_one_byte pre x y post :
  is_bytes pre → is_u8 x → is_u8 y → is_bytes post →
  crc8 (pre ++ x :: post) = crc8 (pre ++ y :: post) → x = y.
Proof.
  intros Hpre Hx Hy Hpost H. unfold crc8 in H. rewrite !foldl_app in H. cbn [foldl] in H.
  assert (H255 : is_u8 255) by ulia. pose proof (crc_fold_u8 _ _ H255 Hpre) as Hr.
  apply lnot_u8_inj in H; [|by apply crc_fold_u8; [apply crc8_byte_u8|]..].
  apply crc_fold_inj in H; [|by apply crc8_byte_u8..|done].
  apply crc_byte_inj in H; [|by eauto with word..]. by eapply lxor_cancel_l.
Qed.

Lemma crc8_u8 data : is_u8 (crc8 data).
Proof. apply u8_is. Qed.

Lemma construct_table st :
  (if mCrcTableInitialized st then mCrcTable st = crc_table else True) →
  mCrcTable (snd (construct st)) = crc_table.
Proof. unfold construct. destruct (mCrcTableInitialized st); simpl; intros; [done|apply crc_table_is]. Qed.

(** The counter a protected message carries. *)
Definition next_counter (c : Z) : Z := if c <? cCounterMax then c + 1 else 0.

Definition valid (p : Profile11) : Prop :=
  0 <= mProtectingCounter p <= 14 ∧ 0 <= mCheckingCounter p <= 15.

(** The message that protects payload [d] with counter [c]. *)
Definition frame (c : Z) (d : bytes) : bytes :=
  let ctr := 240 + next_counter c in crc8 (ctr :: d) :: ctr :: d.

Lemma next_counter_bound c : 0 <= c <= 14 → 0 <= next_counter c <= 14.
Proof. unfold next_counter, cCounterMax. case_match; lia. Qed.

(** Masking in and out of the counter, decided on its sixteen values. *)
Lemma mask_counter c : 0 <= c <= 15 → u8 (Z.lor c 240) = 240 + c ∧ u8 (Z.land (240 + c) 15) = c.
Proof.
  intros Hc. assert (Hcase : c ∈ map Z.of_nat (seq 0 16)).
  { apply list_elem_of_fmap. exists (Z.to_nat c). split; [lia|]. apply elem_of_seq. lia. }
  rewrite list_elem_of_In in Hcase. simpl in Hcase.
  repeat (destruct Hcase as [<-|Hcase]; [by vm_compute|]). done.
Qed.

Lemma TryProtect_frame d p :
  d ≠ [] → is_bytes d → valid p →
  TryProtect crc_table d p =
    (Ok (Some (frame (mProtectingCounter p) d)),
     mk (next_counter (mProtectingCounter p)) (mCheckingCounter p)).
Proof.
  intros Hd Hb [Hp _]. unfold TryProtect.
  replace (0 <? size d) with true by (symmetry; apply Z.ltb_lt; destruct d; [done|];
    rewrite size_cons; pose proof (size_nonneg d); lia).
  unfold frame, next_counter, cCounterMax. run.
  destruct (mProtectingCounter p <? 14) eqn:Hlt; cbn [mProtectingCounter mCheckingCounter].
  - rewrite (u8_id (_ + 1)) by ulia. rewrite (proj1 (mask_counter (mProtectingCounter p + 1) ltac:(lia))).
    rewrite calculateCrc_crc8 by is_bytes_tac. done.
  - rewrite (proj1 (mask_counter 0 ltac:(lia))).
    rewrite calculateCrc_crc8 by is_bytes_tac. done.
Qed.

Lemma Check_short m p : size m < 3 → Check crc_table m p = (Ok kNoNewData, p).
Proof. intros H. unfold Check. by rewrite (proj2 (Z.ltb_lt _ _) H). Qed.

(** What [Check] reports on a message of at least three bytes. *)
Lemma Check_message crc ctr d p :
  is_bytes (crc :: ctr :: d) → d ≠ [] →
  Check crc_table (crc :: ctr :: d) p =
    if crc =? crc8 (ctr :: d) then
      let c := u8 (Z.land ctr 15) in
      let delta := i8 (c - mCheckingCounter p) in
      (Ok (if delta =? 0 then kRepeated
           else if (mCheckingCounter p <? cCounterMax) && (delta <? 0) then kWrongSequence
           else kOk), mk (mProtectingCounter p) c)
    else (Ok kWrongCrc, p).
Proof.
  intros Hb Hd. unfold Check.
  replace (size (crc :: ctr :: d) <? 3) with false by (symmetry; apply Z.ltb_ge;
    destruct d; [done|]; rewrite !size_cons; pose proof (size_nonneg d); lia).
  rewrite (index_holds _ 0 crc) by (by exists [], (ctr :: d)).
  rewrite (index_holds _ 1 ctr) by (by exists [crc], d).
  rewrite calculateCrc_crc8 by done. run.
  cbn [drop]. by destruct (crc =? crc8 (ctr :: d)).
Qed.

(** ** Properties *)

(** One message through a protecting and a checking profile: the status the
    receiver reports and the payload behind the two header bytes. *)
Definition transmit (table : list Z) (d : bytes) (s r : Profile11) :
    outcome (CheckStatusType * bytes) * (Profile11 * Profile11) :=
  match TryProtect table d s with
  | (Ok (Some m), s') =>
      let (status, r') := Check table m r in
      (status ≫= fun status => Ok (status, drop 2 m), (s', r'))
  | (_, s') => (Undefined, (s', r))
  end.

Fixpoint transmit_all (table : list Z) (ds : list bytes) (s r : Profile11) :
    outcome (list (CheckStatusType * bytes)) :=
  match ds with
  | [] => Ok []
  | d :: ds =>
      let (res, sr) := transmit table d s r in
      x ← res; xs ← transmit_all table ds (fst sr) (snd sr); Ok (x :: xs)
  end.

Lemma transmit_in_sync d s r :
  d ≠ [] → is_bytes d → valid s → mProtectingCounter s = mCheckingCounter r →
  transmit crc_table d s r =
    (Ok (kOk, d), (mk (next_counter (mProtectingCounter s)) (mCheckingCounter s),
                   mk (mProtectingCounter r) (next_counter (mProtectingCounter s)))).
Proof.
  intros Hd Hb Hs Hsync. unfold transmit. rewrite TryProtect_frame by done. unfold frame.
  pose proof (next_counter_bound _ (proj1 Hs)) as Hn.
  rewrite Check_message by (try done; is_bytes_tac). rewrite Z.eqb_refl. cbv zeta.
  rewrite (proj2 (mask_counter (next_counter (mProtectingCounter s)) ltac:(lia))). cbn -[next_counter]. do 4 f_equal.
  rewrite <- Hsync. destruct Hs as [Hs _].
  unfold next_counter, cCounterMax, i8 in *.
  repeat case_match; try done; exfalso; ulia.
Qed.

(** A stream of non-empty payloads protected by one profile is accepted by any
    profile whose checking counter is in step, every status is [kOk], and the
    payloads come through unchanged - across any number of counter wraps. *)
Theorem stream_accepted ds s r :
  Forall (fun d => d ≠ [] ∧ is_bytes d) ds →
  valid s → mProtectingCounter s = mCheckingCounter r →
  transmit_all crc_table ds s r = Ok (map (fun d => (kOk, d)) ds).
Proof.
  intros Hds. revert s r. induction Hds as [|d ds [Hd Hb] _ IH]; intros s r Hs Hsync; [done|].
  cbn [transmit_all]. rewrite transmit_in_sync by done. cbn. rewrite IH; [done| |done].
  split; [by apply next_counter_bound, Hs|apply Hs].
Qed.

Lemma stream_accepted_witness :
  transmit_all crc_table [[1; 2]; [3]; [255]] (mk 14 0) (mk 0 14) =
    Ok [(kOk, [1; 2]); (kOk, [3]); (kOk, [255])].
Proof.
  apply (stream_accepted [[1; 2]; [3]; [255]] (mk 14 0) (mk 0 14)); [|by_eval|reflexivity].
  repeat (apply Forall_cons; split; [split; [discriminate|by_eval]|]). apply Forall_nil_2.
Defined.

(** C37: changing any one byte of a protected message, header bytes included, makes
    every receiver report [kWrongCrc] and leaves its counter alone. *)
Theorem one_byte_corruption_detected d p m p' i x y r :
  d ≠ [] → is_bytes d → valid p →
  TryProtect crc_table d p = (Ok (Some m), p') →
  m !! i = Some x → is_u8 y → y ≠ x →
  Check crc_table (<[i := y]> m) r = (Ok kWrongCrc, r).
Proof.
  intros Hd Hb Hp HP Hi Hy Hne. rewrite TryProtect_frame in HP by done.
  pose proof (next_counter_bound _ (proj1 Hp)) as Hn. unfold frame in HP. simplify_eq.
  set (ctr := 240 + next_counter (mProtectingCounter p)) in *.
  assert (Hm : is_bytes (ctr :: d)) by (unfold ctr; is_bytes_tac).
  destruct i as [|i]; simpl in Hi; simplify_eq; cbn [insert list_insert].
  - rewrite Check_message by (try done; by apply Forall_cons).
    by rewrite (proj2 (Z.eqb_neq _ _) Hne).
  - assert (Hx : is_u8 x) by (by eapply Forall_lookup_1 in Hi).
    pose proof (take_drop_middle _ _ _ Hi) as Hsplit.
    assert (Hcrc : crc8 (ctr :: d) ≠ crc8 (<[i:=y]> (ctr :: d))).
    { rewrite <- Hsplit at 1.
      rewrite insert_take_drop by (by apply lookup_lt_Some in Hi).
      intros Heq. apply Hne. symmetry.
      eapply crc8_one_byte; [| | | |exact Heq]; try done; [by apply Forall_take|by apply Forall_drop]. }
    assert (Hins : is_bytes (<[i:=y]> (ctr :: d))) by (by apply Forall_insert).
    change (list_insert i y (ctr :: d)) with (<[i:=y]> (ctr :: d)).
    pose proof (length_insert (ctr :: d) i y) as Hlen.
    destruct (<[i:=y]> (ctr :: d)) as [|ctr' d'] eqn:Hd'; [done|].
    rewrite Check_message; [by rewrite (proj2 (Z.eqb_neq _ _) Hcrc)| |].
    + by apply Forall_cons; split; [apply crc8_u8|].
    + intros ->. destruct d; done.
Qed.

Lemma one_byte_corruption_detected_witness :
  Check crc_table (<[2%nat := 8]> (frame 0 [7])) (mk 0 0) = (Ok kWrongCrc, mk 0 0).
Proof.
  apply (one_byte_corruption_detected [7] (mk 0 0) (frame 0 [7]) (mk 1 0) 2 7 8 (mk 0 0));
    first [discriminate | by_eval | by vm_compute].
Defined.

(** A message that was accepted once is reported as [kRepeated] when it is
    received again. *)
Theorem replay_reported m p st p' :
  is_bytes m → Check crc_table m p = (Ok st, p') → st ≠ kNoNewData → st ≠ kWrongCrc →
  fst (Check crc_table m p') = Ok kRepeated.
Proof.
  intros Hm HC Hnd Hwc.
  destruct m as [|crc [|ctr [|b d]]];
    try (rewrite Check_short in HC by done; by simplify_eq).
  rewrite Check_message in * by done.
  destruct (crc =? _) eqn:Hcrc; [|by simplify_eq]. cbv zeta in *. simplify_eq. cbn.
  by rewrite Z.sub_diag.
Qed.

Lemma replay_reported_witness :
  fst (Check crc_table (frame 0 [7]) (mk 0 1)) = Ok kRepeated.
Proof.
  apply (replay_reported (frame 0 [7]) (mk 0 0) kOk (mk 0 1));
    first [discriminate | by_eval | by vm_compute].
Defined.

(** C40: every table that construction leaves behind computes the bit-serial CRC-8
    of the data behind the offset, and the lookup never leaves the table. *)
Theorem calculateCrc_correct st data offset :
  (if mCrcTableInitialized st then mCrcTable st = crc_table else True) →
  is_bytes data →
  calculateCrc (mCrcTable (snd (construct st))) data offset = Ok (crc8 (drop offset data)).
Proof. intros Hst Hd. rewrite construct_table by done. by apply calculateCrc_crc8. Qed.

Lemma calculateCrc_correct_witness :
  calculateCrc (mCrcTable (snd (construct static_init))) [49;50;51;52;53;54;55;56;57] 0
    = Ok (crc8 [49;50;51;52;53;54;55;56;57]) ∧ crc8 [49;50;51;52;53;54;55;56;57] = 75.
Proof.
  split; [apply (calculateCrc_correct static_init); [exact I|]|by vm_compute].
  repeat (apply Forall_cons; split; [split; [by vm_compute|by vm_compute]|]). apply Forall_nil_2.
Defined.

End Profile11.
