(* ===== verification/Options.v ===== *)
(** * Entry options: ara/com/option

    The IPv4 endpoint and load-balancing options with their factories, their
    payloads and [OptionDeserializer].  The component's promise to the messages
    that carry options is its [Codec] instance: every option a factory can build
    is read back from its payload, and everything the deserializer accepts could
    have been built by a factory. *)

From S2P Require Import Prelude Payload.

(** [ara/com/option/option.h:17-27] OptionType *)
Inductive OptionType :=
  | Configuration
  | LoadBalancing
  | IPv4Endpoint
  | IPv6Endpoint
  | IPv4Multicast
  | IPv6Multicast
  | IPv4SdEndpoint
  | IPv6SdEndpoint.

#[export] Instance OptionType_eq_dec : EqDecision OptionType.
Proof. solve_decision. Defined.

(** The values of the enumerators, and the enumerator a byte names. *)
Definition OptionType_code (t : OptionType) : Z :=
  match t with
  | Configuration => 1
  | LoadBalancing => 2
  | IPv4Endpoint => 4
  | IPv6Endpoint => 6
  | IPv4Multicast => 20
  | IPv6Multicast => 22
  | IPv4SdEndpoint => 36
  | IPv6SdEndpoint => 38
  end.

Definition all_OptionTypes : list OptionType :=
  [Configuration; LoadBalancing; IPv4Endpoint; IPv6Endpoint;
   IPv4Multicast; IPv6Multicast; IPv4SdEndpoint; IPv6SdEndpoint].

Definition OptionType_of (b : Z) : option OptionType :=
  find (fun t => OptionType_code t =? b) all_OptionTypes.

(** Layer4ProtocolType is a byte, since the deserializer casts any received byte
    to it. *)
Abbreviation Layer4ProtocolType := Z.
(** [ara/com/option/option.h:30-34] Layer4ProtocolType *)
Definition Tcp : Layer4ProtocolType := 6.
Definition Udp : Layer4ProtocolType := 17.

Module Ipv4EndpointOption.

(** [ara/com/option/ipv4_endpoint_option.h:17-103] Ipv4EndpointOption *)
Record t := mk {
  mType : OptionType;
  mDiscardable : bool;
  mIpAddress : Ipv4.Ipv4Address;
  mL4Proto : Layer4ProtocolType;
  mPort : Z
}.

(** [ara/com/option/ipv4_endpoint_option.cpp:11-15] Length *)
Definition Length : Z := 9.

(** [ara/com/option/ipv4_endpoint_option.cpp:49-64] CreateUnitcastEndpoint *)
Definition CreateUnitcastEndpoint (discardable : bool) (ipAddress : Ipv4.Ipv4Address)
    (protocol : Layer4ProtocolType) (port : Z) : t :=
  mk IPv4Endpoint discardable ipAddress protocol port.

(** [ara/com/option/ipv4_endpoint_option.cpp:66-90] CreateMulticastEndpoint *)
Definition CreateMulticastEndpoint (discardable : bool) (ipAddress : Ipv4.Ipv4Address)
    (port : Z) : outcome t :=
  let firstOctet := Ipv4.octet0 ipAddress in
  if (firstOctet <? 224) || (239 <? firstOctet) then Throw std_invalid_argument
  else mret (mk IPv4Multicast discardable ipAddress Udp port).

(** [ara/com/option/ipv4_endpoint_option.cpp:92-106] CreateSdEndpoint *)
Definition CreateSdEndpoint (discardable : bool) (ipAddress : Ipv4.Ipv4Address)
    (protocol : Layer4ProtocolType) (port : Z) : t :=
  mk IPv4SdEndpoint discardable ipAddress protocol port.

(** [ara/com/option/ipv4_endpoint_option.cpp:108-143] Deserialize *)
Definition Deserialize (payload : bytes) (offset : Z) (type : OptionType)
    (discardable : bool) : outcome (t * Z) :=
  '(ipAddress, offset) ← Ipv4.Extract payload offset;
  let offset := offset + 1 in
  protocol ← at_ payload offset;
  let offset := offset + 1 in
  '(port, offset) ← ExtractShort payload offset;
  match type with
  | IPv4Endpoint =>
      mret (CreateUnitcastEndpoint discardable ipAddress protocol port, offset)
  | IPv4Multicast =>
      o ← CreateMulticastEndpoint discardable ipAddress port; mret (o, offset)
  | IPv4SdEndpoint =>
      mret (CreateSdEndpoint discardable ipAddress protocol port, offset)
  | _ => Throw std_out_of_range
  end.

(** What the factories can build. *)
Definition wf (o : t) : Prop :=
  Ipv4.wf (mIpAddress o) ∧ is_u8 (mL4Proto o) ∧ is_u16 (mPort o) ∧
  match mType o with
  | IPv4Endpoint | IPv4SdEndpoint => True
  | IPv4Multicast => 224 <= Ipv4.octet0 (mIpAddress o) <= 239 ∧ mL4Proto o = Udp
  | _ => False
  end.

End Ipv4EndpointOption.

Module LoadBalancingOption.

(** [ara/com/option/loadbalancing_option.h:15-58] LoadBalancingOption *)
Record t := mk {
  mDiscardable : bool;
  mPriority : Z;
  mWeight : Z
}.

(** [ara/com/option/loadbalancing_option.cpp:10-14] Length *)
Definition Length : Z := 5.

(** [ara/com/option/loadbalancing_option.cpp:36-48] Deserialize *)
Definition Deserialize (payload : bytes) (offset : Z) (discardable : bool) :
    outcome (t * Z) :=
  '(priority, offset) ← ExtractShort payload offset;
  '(weight, offset) ← ExtractShort payload offset;
  mret (mk discardable priority weight, offset).

Definition wf (o : t) : Prop := is_u16 (mPriority o) ∧ is_u16 (mWeight o).

End LoadBalancingOption.

(** The abstract class Option and its two implementations. *)
(** [ara/com/option/option.h:37-74] Option *)
Inductive Option :=
  | OIpv4Endpoint (o : Ipv4EndpointOption.t)
  | OLoadBalancing (o : LoadBalancingOption.t).

Module Option_.

(** [ara/com/option/option.cpp:10-13] Option::Type *)
Definition Type_ (o : Option) : OptionType :=
  match o with
  | OIpv4Endpoint o => Ipv4EndpointOption.mType o
  | OLoadBalancing o => LoadBalancing
  end.

(** [ara/com/option/option.cpp:15-18] Option::Discardable *)
Definition Discardable (o : Option) : bool :=
  match o with
  | OIpv4Endpoint o => Ipv4EndpointOption.mDiscardable o
  | OLoadBalancing o => LoadBalancingOption.mDiscardable o
  end.

Definition Length (o : Option) : Z :=
  match o with
  | OIpv4Endpoint o => Ipv4EndpointOption.Length
  | OLoadBalancing o => LoadBalancingOption.Length
  end.

(** [ara/com/option/option.cpp:20-33] Option::BasePayload *)
Definition BasePayload (o : Option) : bytes :=
  let result := InjectShort [] (Length o) in
  let result := push_back result (OptionType_code (Type_ o)) in
  push_back result (if Discardable o then 1 else 0).

(** [ara/com/option/ipv4_endpoint_option.cpp:32-47] Ipv4EndpointOption::Payload *)
Definition Ipv4Payload (o : Ipv4EndpointOption.t) : bytes :=
  let result := BasePayload (OIpv4Endpoint o) in
  let result := Ipv4.Inject result (Ipv4EndpointOption.mIpAddress o) in
  let result := push_back result 0 in
  let result := push_back result (Ipv4EndpointOption.mL4Proto o) in
  InjectShort result (Ipv4EndpointOption.mPort o).

(** [ara/com/option/loadbalancing_option.cpp:26-34] LoadBalancingOption::Payload *)
Definition LoadBalancingPayload (o : LoadBalancingOption.t) : bytes :=
  let result := BasePayload (OLoadBalancing o) in
  let result := InjectShort result (LoadBalancingOption.mPriority o) in
  InjectShort result (LoadBalancingOption.mWeight o).

Definition Payload (o : Option) : bytes :=
  match o with
  | OIpv4Endpoint o => Ipv4Payload o
  | OLoadBalancing o => LoadBalancingPayload o
  end.

Definition wf (o : Option) : Prop :=
  match o with
  | OIpv4Endpoint o => Ipv4EndpointOption.wf o
  | OLoadBalancing o => LoadBalancingOption.wf o
  end.

End Option_.

Module OptionDeserializer.

(** [ara/com/option/option_deserializer.cpp:11-37] OptionDeserializer::Deserialize *)
Definition Deserialize (payload : bytes) (offset : Z) : outcome (Option * Z) :=
  let offset := offset + 2 in
  type ← at_ payload offset;
  let offset := offset + 1 in
  discardableByte ← at_ payload offset;
  let offset := offset + 1 in
  let discardable := negb (discardableByte =? 0) in
  match OptionType_of type with
  | Some ((IPv4Endpoint | IPv4Multicast | IPv4SdEndpoint) as ty) =>
      '(o, offset) ← Ipv4EndpointOption.Deserialize payload offset ty discardable;
      mret (OIpv4Endpoint o, offset)
  | Some LoadBalancing =>
      '(o, offset) ← LoadBalancingOption.Deserialize payload offset discardable;
      mret (OLoadBalancing o, offset)
  | _ => Throw std_out_of_range
  end.

End OptionDeserializer.

(** ** Lemmas *)

Lemma OptionType_of_code t : OptionType_of (OptionType_code t) = Some t.
Proof. by destruct t. Qed.

Lemma OptionType_code_u8 t : is_u8 (OptionType_code t).
Proof. destruct t; unfold OptionType_code; ulia. Qed.

Lemma Ipv4Payload_app o :
  Option_.Ipv4Payload o =
    short_bytes 9 ++
    [OptionType_code (Ipv4EndpointOption.mType o); if Ipv4EndpointOption.mDiscardable o then 1 else 0] ++
    enc (Ipv4EndpointOption.mIpAddress o) ++
    [0; Ipv4EndpointOption.mL4Proto o] ++ short_bytes (Ipv4EndpointOption.mPort o).
Proof.
  unfold Option_.Ipv4Payload, Option_.BasePayload, push_back. autorewrite with inject.
  by rewrite app_nil_l, <- !app_assoc.
Qed.

Lemma LoadBalancingPayload_app o :
  Option_.LoadBalancingPayload o =
    short_bytes 5 ++
    [OptionType_code LoadBalancing; if LoadBalancingOption.mDiscardable o then 1 else 0] ++
    short_bytes (LoadBalancingOption.mPriority o) ++ short_bytes (LoadBalancingOption.mWeight o).
Proof.
  unfold Option_.LoadBalancingPayload, Option_.BasePayload, push_back. autorewrite with inject.
  by rewrite app_nil_l, <- !app_assoc.
Qed.

#[export] Hint Rewrite Ipv4Payload_app LoadBalancingPayload_app : inject.

(** The length field counts the bytes after itself and the type. *)
Lemma size_option_Payload o : size (Option_.Payload o) = 3 + Option_.Length o.
Proof.
  destruct o; cbn [Option_.Payload Option_.Length]; autorewrite with inject;
    unfold Ipv4EndpointOption.Length, LoadBalancingOption.Length; size_lia.
Qed.

Lemma Length_Ipv4 : Ipv4EndpointOption.Length = 9.
Proof. done. Qed.
Lemma Length_LoadBalancing : LoadBalancingOption.Length = 5.
Proof. done. Qed.
#[export] Hint Rewrite Length_Ipv4 Length_LoadBalancing : size.

Lemma bool_byte (b : bool) : negb ((if b then 1 else 0) =? 0) = b.
Proof. by destruct b. Qed.

Lemma Deserialize_Payload v off o :
  Option_.wf o → holds v off (Option_.Payload o) →
  OptionDeserializer.Deserialize v off = Ok (o, off + size (Option_.Payload o)).
Proof.
  rewrite size_option_Payload. unfold OptionDeserializer.Deserialize.
  destruct o as [[ty d ip proto port]|[d prio w]]; cbn [Option_.Payload Option_.wf]; autorewrite with inject;
    cbn [Ipv4EndpointOption.mType Ipv4EndpointOption.mDiscardable Ipv4EndpointOption.mIpAddress
         Ipv4EndpointOption.mL4Proto Ipv4EndpointOption.mPort LoadBalancingOption.mDiscardable
         LoadBalancingOption.mPriority LoadBalancingOption.mWeight].
  - intros (Hip & Hproto & Hport & Hty); simpl in Hip, Hproto, Hport, Hty; intros H. read_parts.
    rewrite OptionType_of_code, bool_byte. unfold Ipv4EndpointOption.Deserialize.
    destruct ty; try done; read_parts; [ok_eq| |ok_eq].
    unfold Ipv4EndpointOption.CreateMulticastEndpoint. destruct Hty as [Hoct ->].
    replace (_ || _) with false by (symmetry; apply orb_false_iff; lia). ok_eq.
  - intros [Hp Hw]; simpl in Hp, Hw; intros H. read_parts.
    change (OptionType_of 2) with (Some LoadBalancing). rewrite bool_byte. simpl. unfold LoadBalancingOption.Deserialize.
    read_parts. ok_eq.
Qed.

Lemma Ipv4_Deserialize_defined v off ty d : defined (Ipv4EndpointOption.Deserialize v off ty d).
Proof.
  unfold Ipv4EndpointOption.Deserialize, Ipv4EndpointOption.CreateMulticastEndpoint.
  defined_tac.
Qed.

Lemma LoadBalancing_Deserialize_defined v off d : defined (LoadBalancingOption.Deserialize v off d).
Proof. unfold LoadBalancingOption.Deserialize. defined_tac. Qed.

#[export] Hint Resolve Ipv4_Deserialize_defined LoadBalancing_Deserialize_defined : defined.

Lemma option_Deserialize_defined v off : defined (OptionDeserializer.Deserialize v off).
Proof. unfold OptionDeserializer.Deserialize. defined_tac. Qed.

Lemma option_Deserialize_sound v off o off' :
  is_bytes v → 0 <= off → OptionDeserializer.Deserialize v off = Ok (o, off') →
  Option_.wf o ∧ off < off' <= size v.
Proof.
  intros Hv Hoff H. unfold OptionDeserializer.Deserialize in H. inv_ok.
  destruct (OptionType_of _) as [[]|]; try done; inv_ok.
  - unfold LoadBalancingOption.Deserialize in *. inv_ok. use_parts.
    unfold LoadBalancingOption.wf; simpl. split_and!; try done; lia.
  - unfold Ipv4EndpointOption.Deserialize in *. inv_ok. use_parts.
    unfold Ipv4EndpointOption.wf; simpl. split_and!; try done; lia.
  - unfold Ipv4EndpointOption.Deserialize, Ipv4EndpointOption.CreateMulticastEndpoint in *. inv_ok.
    case_match; [done|]. inv_ok. use_parts.
    unfold Ipv4EndpointOption.wf; simpl. split_and!; try done; lia.
  - unfold Ipv4EndpointOption.Deserialize in *. inv_ok. use_parts.
    unfold Ipv4EndpointOption.wf; simpl. split_and!; try done; lia.
Qed.

Lemma option_Payload_bytes o : Option_.wf o → is_bytes (Option_.Payload o).
Proof.
  pose proof OptionType_code_u8.
  assert (Hb : ∀ b : bool, is_u8 (if b then 1 else 0)) by (intros []; ulia).
  destruct o; cbn [Option_.Payload Option_.wf]; autorewrite with inject.
  - intros (Hip & ? & ? & _). pose proof (enc_bytes (A:=Ipv4.Ipv4Address) _ Hip).
    is_bytes_tac; apply H.
  - intros _. is_bytes_tac.
Qed.

#[export] Instance Option_Codec : Codec Option := {|
  enc := Option_.Payload;
  dec := OptionDeserializer.Deserialize;
  codec_wf := Option_.wf;
  dec_enc := Deserialize_Payload;
  dec_defined := option_Deserialize_defined;
  dec_sound := option_Deserialize_sound;
  enc_bytes := option_Payload_bytes
|}.
