(* ===== verification/Entries.v ===== *)
(** * Message entries: ara/com/entry

    Service and event-group entries with their factories, the option rules of
    [ValidateOption], their payloads and [EntryDeserializer].  The rules are
    specified declaratively by [options_ok]; adding an option is shown to enforce
    exactly that specification. *)

From S2P Require Import Prelude Payload Options.

(** [ara/com/entry/entry.h:19-25] EntryType *)
Inductive EntryType := Finding | Offering | Subscribing | Acknowledging.

#[export] Instance EntryType_eq_dec : EqDecision EntryType.
Proof. solve_decision. Defined.

Definition EntryType_code (t : EntryType) : Z :=
  match t with Finding => 0 | Offering => 1 | Subscribing => 6 | Acknowledging => 7 end.

(** The enumerator a byte names, if any. *)
Definition EntryType_of (b : Z) : option EntryType :=
  find (fun t => EntryType_code t =? b) [Finding; Offering; Subscribing; Acknowledging].

Module Entry.

(** [ara/com/entry/entry.h:28-36] Entry *)
Record t := mk {
  mType : EntryType;
  mFirstOptions : list Option;
  mSecondOptions : list Option;
  mServiceId : Z;
  mInstanceId : Z;
  mMajorVersion : Z;
  mTTL : Z
}.

Definition cAnyInstanceId : Z := 65535.
Definition cAnyMajorVersion : Z := 255.
Definition cOptionSizeBitLength : Z := 4.

(** [ara/com/entry/entry.cpp:11-21] Entry::Entry *)
Definition construct (type : EntryType) (serviceId instanceId ttl majorVersion : Z) : t :=
  mk type [] [] serviceId instanceId majorVersion ttl.

(** [ara/com/entry/entry.cpp:92-111] Entry::ContainsOption *)
Definition ContainsOption (e : t) (optionType : OptionType) : bool :=
  existsb (fun o => bool_decide (Option_.Type_ o = optionType)) (mFirstOptions e) ||
  existsb (fun o => bool_decide (Option_.Type_ o = optionType)) (mSecondOptions e).

(** [ara/com/entry/entry.cpp:46-90] Entry::ValidateOption *)
Definition ValidateOption (e : t) (o : Option) : bool :=
  match Option_.Type_ o with
  | Configuration => negb (ContainsOption e Configuration)
  | LoadBalancing => negb (ContainsOption e LoadBalancing)
  | IPv4SdEndpoint | IPv6SdEndpoint => false
  | _ => true
  end.

(** [ara/com/entry/entry.cpp:176-205] Entry::BasePayload: the payload and the value
    the referenced [optionIndex] is left with *)
Definition BasePayload (e : t) (optionIndex : Z) : bytes * Z :=
  let result := push_back [] (EntryType_code (mType e)) in
  let result := push_back result optionIndex in
  let firstOptionsSize := u8 (Z.of_nat (length (mFirstOptions e))) in
  let optionIndex := u8 (optionIndex + firstOptionsSize) in
  let result := push_back result optionIndex in
  let secondOptionsSize := u8 (Z.of_nat (length (mSecondOptions e))) in
  let optionIndex := u8 (optionIndex + secondOptionsSize) in
  let firstOptionsSize := u8 (firstOptionsSize ≪ cOptionSizeBitLength) in
  let firstOptionsSize := Z.lor firstOptionsSize secondOptionsSize in
  let result := push_back result firstOptionsSize in
  let result := InjectShort result (mServiceId e) in
  let result := InjectShort result (mInstanceId e) in
  let majorVersion := u32 (mMajorVersion e ≪ 24) in
  let majorVersion := Z.lor majorVersion (mTTL e) in
  (InjectInteger result majorVersion, optionIndex).

Definition add_first (e : t) (o : Option) : t :=
  mk (mType e) (mFirstOptions e ++ [o]) (mSecondOptions e)
     (mServiceId e) (mInstanceId e) (mMajorVersion e) (mTTL e).

Definition add_second (e : t) (o : Option) : t :=
  mk (mType e) (mFirstOptions e) (mSecondOptions e ++ [o])
     (mServiceId e) (mInstanceId e) (mMajorVersion e) (mTTL e).

End Entry.

Module ServiceEntry.

(** [ara/com/entry/service_entry.h:16-26] ServiceEntry *)
Record t := mk {
  base : Entry.t;
  mMinorVersion : Z
}.

(** [ara/com/entry/service_entry.cpp:11-19] ServiceEntry::ServiceEntry *)
Definition construct (type : EntryType)
    (serviceId instanceId ttl majorVersion minorVersion : Z) : t :=
  mk (Entry.construct type serviceId instanceId ttl majorVersion) minorVersion.

(** [ara/com/entry/service_entry.cpp:34-45] ServiceEntry::ValidateOption *)
Definition ValidateOption (e : t) (o : Option) : bool :=
  Entry.ValidateOption (base e) o &&
  (negb (bool_decide (Option_.Type_ o = IPv4Multicast)) &&
   negb (bool_decide (Option_.Type_ o = IPv6Multicast))).

(** [ara/com/entry/service_entry.cpp:52-58] ServiceEntry::Payload *)
Definition Payload (e : t) (optionIndex : Z) : bytes * Z :=
  let '(result, optionIndex) := Entry.BasePayload (base e) optionIndex in
  (InjectInteger result (mMinorVersion e), optionIndex).

(** [ara/com/entry/service_entry.cpp:60-84] CreateFindServiceEntry *)
Definition CreateFindServiceEntry (serviceId ttl instanceId majorVersion minorVersion : Z) :
    outcome t :=
  if ttl =? 0 then Throw std_invalid_argument
  else mret (construct Finding serviceId instanceId ttl majorVersion minorVersion).

(** [ara/com/entry/service_entry.cpp:86-110] CreateOfferServiceEntry *)
Definition CreateOfferServiceEntry (serviceId instanceId majorVersion minorVersion ttl : Z) :
    outcome t :=
  if ttl =? 0 then Throw std_invalid_argument
  else mret (construct Offering serviceId instanceId ttl majorVersion minorVersion).

(** [ara/com/entry/service_entry.cpp:112-131] CreateStopOfferEntry *)
Definition CreateStopOfferEntry (serviceId instanceId majorVersion minorVersion : Z) : t :=
  construct Offering serviceId instanceId 0 majorVersion minorVersion.

(** [ara/com/entry/service_entry.cpp:133-168] ServiceEntry::Deserialize *)
Definition Deserialize (payload : bytes) (offset : Z) (type : EntryType)
    (serviceId instanceId ttl majorVersion : Z) : outcome (t * Z) :=
  '(minorVersion, offset) ← ExtractInteger payload offset;
  match type with
  | Finding =>
      e ← CreateFindServiceEntry serviceId ttl instanceId majorVersion minorVersion;
      mret (e, offset)
  | Offering =>
      if 0 <? ttl then
        e ← CreateOfferServiceEntry serviceId instanceId majorVersion minorVersion ttl;
        mret (e, offset)
      else mret (CreateStopOfferEntry serviceId instanceId majorVersion minorVersion, offset)
  | _ => Throw std_out_of_range
  end.

End ServiceEntry.

Module EventgroupEntry.

(** [ara/com/entry/eventgroup_entry.h:15-31] EventgroupEntry *)
Record t := mk {
  base : Entry.t;
  mCounter : Z;
  mEventgroupId : Z
}.

Definition cNackTTL : Z := 0.
Definition cUnsubscribeEventTTL : Z := 0.

(** [ara/com/entry/eventgroup_entry.cpp:11-26] EventgroupEntry::EventgroupEntry *)
Definition construct (type : EntryType)
    (serviceId instanceId ttl majorVersion counter eventgroupId : Z) : outcome t :=
  if 15 <? counter then Throw std_out_of_range
  else mret (mk (Entry.construct type serviceId instanceId ttl majorVersion) counter eventgroupId).

(** [ara/com/entry/eventgroup_entry.cpp:43-49] isAcknowledge *)
Definition isAcknowledge (e : t) : bool :=
  bool_decide (Entry.mType (base e) = Acknowledging) && (cNackTTL <? Entry.mTTL (base e)).

(** [ara/com/entry/eventgroup_entry.cpp:51-91] EventgroupEntry::ValidateOption *)
Definition ValidateOption (e : t) (o : Option) : bool :=
  if Entry.ValidateOption (base e) o then
    match Option_.Type_ o with
    | IPv4Endpoint | IPv6Endpoint => bool_decide (Entry.mType (base e) = Subscribing)
    | (IPv4Multicast | IPv6Multicast) as ty =>
        if isAcknowledge e then negb (Entry.ContainsOption (base e) ty) else false
    | _ => false
    end
  else false.

(** [ara/com/entry/eventgroup_entry.cpp:103-112] EventgroupEntry::Payload *)
Definition Payload (e : t) (optionIndex : Z) : bytes * Z :=
  let '(result, optionIndex) := Entry.BasePayload (base e) optionIndex in
  let result := InjectShort result (mCounter e) in
  (InjectShort result (mEventgroupId e), optionIndex).

(** [ara/com/entry/eventgroup_entry.cpp:114-135] CreateSubscribeEventEntry *)
Definition CreateSubscribeEventEntry (serviceId instanceId majorVersion counter eventgroupId : Z) :
    outcome t :=
  construct Subscribing serviceId instanceId 16777215 majorVersion counter eventgroupId.

(** [ara/com/entry/eventgroup_entry.cpp:137-157] CreateUnsubscribeEventEntry *)
Definition CreateUnsubscribeEventEntry (serviceId instanceId majorVersion counter eventgroupId : Z) :
    outcome t :=
  construct Subscribing serviceId instanceId cUnsubscribeEventTTL majorVersion counter eventgroupId.

(** [ara/com/entry/eventgroup_entry.cpp:159-175] CreateAcknowledgeEntry *)
Definition CreateAcknowledgeEntry (e : t) : outcome t :=
  construct Acknowledging (Entry.mServiceId (base e)) (Entry.mInstanceId (base e))
    (Entry.mTTL (base e)) (Entry.mMajorVersion (base e)) (mCounter e) (mEventgroupId e).

(** [ara/com/entry/eventgroup_entry.cpp:177-193] CreateNegativeAcknowledgeEntry *)
Definition CreateNegativeAcknowledgeEntry (e : t) : outcome t :=
  construct Acknowledging (Entry.mServiceId (base e)) (Entry.mInstanceId (base e))
    cNackTTL (Entry.mMajorVersion (base e)) (mCounter e) (mEventgroupId e).

(** [ara/com/entry/eventgroup_entry.cpp:195-245] EventgroupEntry::Deserialize *)
Definition Deserialize (payload : bytes) (offset : Z) (type : EntryType)
    (serviceId instanceId ttl majorVersion : Z) : outcome (t * Z) :=
  let offset := offset + 1 in
  counter ← at_ payload offset;
  let offset := offset + 1 in
  '(eventgroupId, offset) ← ExtractShort payload offset;
  match type with
  | Subscribing =>
      e ← (if cUnsubscribeEventTTL <? ttl
           then CreateSubscribeEventEntry serviceId instanceId majorVersion counter eventgroupId
           else CreateUnsubscribeEventEntry serviceId instanceId majorVersion counter eventgroupId);
      mret (e, offset)
  | Acknowledging =>
      e ← construct type serviceId instanceId ttl majorVersion counter eventgroupId;
      mret (e, offset)
  | _ => Throw std_out_of_range
  end.

End EventgroupEntry.

(** A pointer to the abstract class Entry: one of its two implementations. *)
Inductive AnyEntry :=
  | EService (e : ServiceEntry.t)
  | EEventgroup (e : EventgroupEntry.t).

Definition base (e : AnyEntry) : Entry.t :=
  match e with
  | EService e => ServiceEntry.base e
  | EEventgroup e => EventgroupEntry.base e
  end.

Definition with_base (e : AnyEntry) (b : Entry.t) : AnyEntry :=
  match e with
  | EService e => EService (ServiceEntry.mk b (ServiceEntry.mMinorVersion e))
  | EEventgroup e =>
      EEventgroup (EventgroupEntry.mk b (EventgroupEntry.mCounter e) (EventgroupEntry.mEventgroupId e))
  end.

(** The virtual calls. *)
Definition ValidateOption (e : AnyEntry) (o : Option) : bool :=
  match e with
  | EService e => ServiceEntry.ValidateOption e o
  | EEventgroup e => EventgroupEntry.ValidateOption e o
  end.

Definition Payload (e : AnyEntry) (optionIndex : Z) : bytes * Z :=
  match e with
  | EService e => ServiceEntry.Payload e optionIndex
  | EEventgroup e => EventgroupEntry.Payload e optionIndex
  end.

(** [ara/com/entry/entry.cpp:143-155] Entry::AddFirstOption *)
Definition AddFirstOption (e : AnyEntry) (o : Option) : outcome AnyEntry :=
  if ValidateOption e o then mret (with_base e (Entry.add_first (base e) o))
  else Throw std_invalid_argument.

(** [ara/com/entry/entry.cpp:162-174] Entry::AddSecondOption *)
Definition AddSecondOption (e : AnyEntry) (o : Option) : outcome AnyEntry :=
  if ValidateOption e o then mret (with_base e (Entry.add_second (base e) o))
  else Throw std_invalid_argument.

Module EntryDeserializer.

(** [ara/com/entry/entry_deserializer.cpp:11-68] EntryDeserializer::Deserialize: the
    entry, the numbers of its first and second options, and the advanced offset *)
Definition Deserialize (payload : bytes) (offset : Z) : outcome (AnyEntry * Z * Z * Z) :=
  type ← at_ payload offset;
  let offset := offset + 1 in
  let offset := offset + 2 in
  optionsNumbers ← at_ payload offset;
  let offset := offset + 1 in
  let numberOfFirstOptions := optionsNumbers ≫ Entry.cOptionSizeBitLength in
  let numberOfSecondOptions := Z.land optionsNumbers 15 in
  '(serviceId, offset) ← ExtractShort payload offset;
  '(instanceId, offset) ← ExtractShort payload offset;
  '(combinedMajorVersionTtl, offset) ← ExtractInteger payload offset;
  let majorVersion := u8 (combinedMajorVersionTtl ≫ 24) in
  let ttl := Z.land combinedMajorVersionTtl 16777215 in
  match EntryType_of type with
  | Some ((Finding | Offering) as ty) =>
      '(e, offset) ← ServiceEntry.Deserialize payload offset ty serviceId instanceId ttl majorVersion;
      mret (EService e, numberOfFirstOptions, numberOfSecondOptions, offset)
  | Some ((Subscribing | Acknowledging) as ty) =>
      '(e, offset) ← EventgroupEntry.Deserialize payload offset ty serviceId instanceId ttl majorVersion;
      mret (EEventgroup e, numberOfFirstOptions, numberOfSecondOptions, offset)
  | None => Throw std_out_of_range
  end.

End EntryDeserializer.

(** ** The option rules as a specification *)

Definition options (e : AnyEntry) : list Option :=
  Entry.mFirstOptions (base e) ++ Entry.mSecondOptions (base e).

(** The option types an entry may carry at all. *)
Definition allowed (e : AnyEntry) (t : OptionType) : bool :=
  match e, t with
  | EService _, (IPv4Multicast | IPv6Multicast | IPv4SdEndpoint | IPv6SdEndpoint) => false
  | EService _, _ => true
  | EEventgroup e, (IPv4Endpoint | IPv6Endpoint) =>
      bool_decide (Entry.mType (EventgroupEntry.base e) = Subscribing)
  | EEventgroup e, (IPv4Multicast | IPv6Multicast) => EventgroupEntry.isAcknowledge e
  | EEventgroup _, _ => false
  end.

(** The types an entry may carry at most once. *)
Definition at_most_once (t : OptionType) : bool :=
  match t with
  | Configuration | LoadBalancing | IPv4Multicast | IPv6Multicast => true
  | _ => false
  end.

Definition count_type (t : OptionType) (os : list Option) : nat :=
  length (filter (fun o => Option_.Type_ o = t) os).

Definition options_ok (e : AnyEntry) : Prop :=
  Forall (fun o => allowed e (Option_.Type_ o) = true) (options e) ∧
  ∀ t, at_most_once t = true → (count_type t (options e) <= 1)%nat.

(** The rules are decidable. *)
Definition options_okb (e : AnyEntry) : bool :=
  forallb (fun o => allowed e (Option_.Type_ o)) (options e) &&
  forallb (fun t => negb (at_most_once t) || (count_type t (options e) <=? 1)%nat) all_OptionTypes.

Lemma options_ok_decide e : options_okb e = true ↔ options_ok e.
Proof.
  unfold options_okb, options_ok. rewrite andb_true_iff, !forallb_forall. split.
  - intros [Ha Hc]. split; [apply Forall_forall; intros o Ho; by apply Ha, list_elem_of_In|].
    intros t Ht. specialize (Hc t ltac:(destruct t; simpl; tauto)).
    rewrite Ht in Hc. by apply Nat.leb_le in Hc.
  - intros [Ha Hc]. split.
    + intros o Ho. rewrite Forall_forall in Ha. by apply Ha, list_elem_of_In.
    + intros t _. destruct (at_most_once t) eqn:Ht; [|done]. by apply Nat.leb_le, Hc.
Qed.

#[export] Instance options_ok_dec e : Decision (options_ok e).
Proof. destruct (options_okb e) eqn:E; [left|right]; rewrite <- options_ok_decide, E; done. Defined.

(** ** What the factories and the setters can build, and a message can carry *)

Definition base_wf (e : Entry.t) : Prop :=
  is_u16 (Entry.mServiceId e) ∧ is_u16 (Entry.mInstanceId e) ∧ is_u8 (Entry.mMajorVersion e) ∧
  0 <= Entry.mTTL e < 16777216 ∧
  Forall Option_.wf (Entry.mFirstOptions e) ∧ Forall Option_.wf (Entry.mSecondOptions e) ∧
  (length (Entry.mFirstOptions e) <= 15)%nat ∧ (length (Entry.mSecondOptions e) <= 15)%nat.

Definition entry_wf (e : AnyEntry) : Prop :=
  base_wf (base e) ∧
  match e with
  | EService s =>
      is_u32 (ServiceEntry.mMinorVersion s) ∧
      match Entry.mType (base e) with
      | Finding => 0 < Entry.mTTL (base e)
      | Offering => True
      | _ => False
      end
  | EEventgroup g =>
      0 <= EventgroupEntry.mCounter g <= 15 ∧ is_u16 (EventgroupEntry.mEventgroupId g) ∧
      match Entry.mType (base e) with
      | Subscribing => Entry.mTTL (base e) = 0 ∨ Entry.mTTL (base e) = 16777215
      | Acknowledging => True
      | _ => False
      end
  end.

(** The entry without its options: what the entries array of a message holds. *)
Definition strip (e : AnyEntry) : AnyEntry :=
  let b := base e in
  with_base e (Entry.construct (Entry.mType b) (Entry.mServiceId b) (Entry.mInstanceId b)
                 (Entry.mTTL b) (Entry.mMajorVersion b)).

(** ** Lemmas: options *)

Lemma ContainsOption_count b t :
  Entry.ContainsOption b t = negb (count_type t (Entry.mFirstOptions b ++ Entry.mSecondOptions b) =? 0)%nat.
Proof.
  unfold Entry.ContainsOption, count_type. rewrite <- existsb_app.
  induction (_ ++ _) as [|o os IH]; [done|]. cbn [existsb]. rewrite IH, filter_cons.
  case_bool_decide; by case_decide.
Qed.

Lemma count_type_app t os os' : count_type t (os ++ os') = (count_type t os + count_type t os')%nat.
Proof. unfold count_type. by rewrite filter_app, length_app. Qed.

Lemma count_type_one t o :
  count_type t [o] = if decide (Option_.Type_ o = t) then 1%nat else 0%nat.
Proof. unfold count_type. rewrite filter_cons, filter_nil. by case_decide. Qed.

(** [ValidateOption] is the conjunction of the two rules. *)
Lemma ValidateOption_spec e o :
  ValidateOption e o =
    allowed e (Option_.Type_ o) &&
    negb (at_most_once (Option_.Type_ o) && negb (count_type (Option_.Type_ o) (options e) =? 0)%nat).
Proof.
  destruct e as [s|g]; cbn [ValidateOption allowed options base];
    unfold ServiceEntry.ValidateOption, EventgroupEntry.ValidateOption, Entry.ValidateOption;
    destruct (Option_.Type_ o); rewrite ?ContainsOption_count; cbn;
    repeat case_bool_decide; repeat case_match; try done; by rewrite ?negb_involutive, ?andb_true_r.
Qed.

(** [e'] is [e] with one more option, at the end of either array. *)
Definition extends (e e' : AnyEntry) (o : Option) : Prop :=
  e' = with_base e (Entry.add_first (base e) o) ∨ e' = with_base e (Entry.add_second (base e) o).

Lemma extends_allowed e e' o t : extends e e' o → allowed e' t = allowed e t.
Proof. by intros [->| ->]; destruct e, t. Qed.

Lemma extends_options e e' o : extends e e' o → options e' ≡ₚ o :: options e.
Proof.
  intros [->| ->]; destruct e; unfold options, Entry.add_first, Entry.add_second; simpl;
    rewrite ?app_assoc; solve_Permutation.
Qed.

Lemma count_type_perm t os os' : os ≡ₚ os' → count_type t os = count_type t os'.
Proof. intros H. unfold count_type. by rewrite H. Qed.

(** Adding keeps the rules exactly when [ValidateOption] lets it. *)
Lemma extends_ok e e' o :
  options_ok e → extends e e' o → (ValidateOption e o = true ↔ options_ok e').
Proof.
  intros [Hall Hone] Hext. rewrite ValidateOption_spec.
  pose proof (extends_options _ _ _ Hext) as Hperm.
  assert (Hcount : ∀ t, count_type t (options e') =
    (count_type t [o] + count_type t (options e))%nat).
  { intros t. by rewrite (count_type_perm _ _ _ Hperm), <- count_type_app. }
  unfold options_ok. rewrite Hperm, Forall_cons.
  rewrite andb_true_iff, negb_true_iff, andb_false_iff, negb_false_iff, Nat.eqb_eq.
  rewrite (extends_allowed _ _ _ _ Hext).
  split.
  - intros [Ha Hc]. split; [split; [done|]|].
    + eapply Forall_impl; [exact Hall|]. intros x Hx. simpl. by rewrite (extends_allowed _ _ _ _ Hext).
    + intros t Ht. rewrite Hcount, count_type_one. specialize (Hone t Ht).
      case_decide as Heq; [subst|lia]. destruct Hc as [Hc|Hc]; [congruence|lia].
  - intros [[Ha _] Hc]. split; [done|]. destruct (at_most_once _) eqn:Hm; [right|by left].
    specialize (Hc _ Hm). rewrite Hcount, count_type_one, decide_True in Hc by done. lia.
Qed.

(** ** Lemmas: payloads *)

Lemma EntryType_of_code t : EntryType_of (EntryType_code t) = Some t.
Proof. by destruct t. Qed.

Lemma EntryType_code_u8 t : is_u8 (EntryType_code t).
Proof. destruct t; unfold EntryType_code; ulia. Qed.

Definition counts_byte (b : Entry.t) : Z :=
  Z.of_nat (length (Entry.mFirstOptions b)) * 16 + Z.of_nat (length (Entry.mSecondOptions b)).

Definition version_ttl (b : Entry.t) : Z := Entry.mMajorVersion b * 16777216 + Entry.mTTL b.

(** The twelve bytes both kinds of entry start with. *)
Definition base_bytes (b : Entry.t) (idx : Z) : bytes :=
  [EntryType_code (Entry.mType b)] ++ [idx] ++ [u8 (idx + Z.of_nat (length (Entry.mFirstOptions b)))] ++
  [counts_byte b] ++ short_bytes (Entry.mServiceId b) ++ short_bytes (Entry.mInstanceId b) ++
  integer_bytes (version_ttl b).

Definition next_index (b : Entry.t) (idx : Z) : Z :=
  u8 (idx + Z.of_nat (length (Entry.mFirstOptions b)) + Z.of_nat (length (Entry.mSecondOptions b))).

Definition tail_bytes (e : AnyEntry) : bytes :=
  match e with
  | EService e => integer_bytes (ServiceEntry.mMinorVersion e)
  | EEventgroup e =>
      short_bytes (EventgroupEntry.mCounter e) ++ short_bytes (EventgroupEntry.mEventgroupId e)
  end.

Lemma BasePayload_bytes b idx :
  base_wf b → Entry.BasePayload b idx = (base_bytes b idx, next_index b idx).
Proof.
  intros (Hs & Hi & Hm & Ht & _ & _ & Hf & Hsnd). unfold Entry.BasePayload, push_back.
  rewrite (u8_id (Z.of_nat (length (Entry.mFirstOptions b)))) by ulia.
  rewrite (u8_id (Z.of_nat (length (Entry.mSecondOptions b)))) by ulia.
  unfold Entry.cOptionSizeBitLength.
  rewrite (u8_id (_ ≪ 4)) by (rewrite Z.shiftl_mul_pow2 by lia; ulia).
  rewrite lor_shiftl_add by lia.
  rewrite (u32_id (_ ≪ 24)) by (rewrite Z.shiftl_mul_pow2 by lia; ulia).
  rewrite lor_shiftl_add by lia. autorewrite with inject. rewrite app_nil_l.
  f_equal. unfold next_index. ulia.
Qed.

Lemma Payload_bytes e idx :
  base_wf (base e) → Payload e idx = (base_bytes (base e) idx ++ tail_bytes e, next_index (base e) idx).
Proof.
  intros Hwf. destruct e as [s|g]; cbn [Payload base tail_bytes] in *;
    unfold ServiceEntry.Payload, EventgroupEntry.Payload; rewrite BasePayload_bytes by done;
    by autorewrite with inject; rewrite <- ?app_assoc.
Qed.

Lemma size_entry e idx : base_wf (base e) → size (fst (Payload e idx)) = 16.
Proof. intros. rewrite Payload_bytes by done. by destruct e. Qed.

Lemma counts_byte_fields b :
  base_wf b →
  is_u8 (counts_byte b) ∧
  counts_byte b ≫ Entry.cOptionSizeBitLength = Z.of_nat (length (Entry.mFirstOptions b)) ∧
  Z.land (counts_byte b) 15 = Z.of_nat (length (Entry.mSecondOptions b)).
Proof.
  intros (_ & _ & _ & _ & _ & _ & Hf & Hs). unfold counts_byte, Entry.cOptionSizeBitLength.
  change 15 with (Z.ones 4). rewrite Z.land_ones, Z.shiftr_div_pow2 by lia.
  change (2 ^ 4) with 16. ulia.
Qed.

Lemma version_ttl_fields b :
  base_wf b →
  is_u32 (version_ttl b) ∧ u8 (version_ttl b ≫ 24) = Entry.mMajorVersion b ∧
  Z.land (version_ttl b) 16777215 = Entry.mTTL b.
Proof.
  intros (_ & _ & Hm & Ht & _). unfold version_ttl.
  change 16777215 with (Z.ones 24). rewrite Z.land_ones, Z.shiftr_div_pow2 by lia.
  change (2 ^ 24) with 16777216. ulia.
Qed.

Lemma entry_bytes e idx : entry_wf e → is_u8 idx → is_bytes (fst (Payload e idx)).
Proof.
  intros [Hb He] Hidx. rewrite Payload_bytes by done. cbn [fst]. unfold base_bytes.
  pose proof (EntryType_code_u8 (Entry.mType (base e))).
  destruct (counts_byte_fields _ Hb) as [? _].
  destruct e; unfold tail_bytes; is_bytes_tac.
Qed.

Lemma next_index_u8 b idx : is_u8 (next_index b idx).
Proof. apply u8_is. Qed.

#[export] Hint Resolve EntryType_code_u8 next_index_u8 : word.

Lemma counter_bytes c : 0 <= c <= 15 → short_bytes c = [0] ++ [c].
Proof.
  intros. unfold short_bytes. rewrite Z.shiftr_div_pow2 by lia. change (2 ^ 8) with 256.
  simpl. f_equal; [ulia|]. f_equal. ulia.
Qed.

(** What is read back from the entries array: the entry without its options, and
    how many of them to attach. *)
Lemma entry_Deserialize_Payload v off e idx :
  entry_wf e → holds v off (fst (Payload e idx)) →
  EntryDeserializer.Deserialize v off =
    Ok (strip e, Z.of_nat (length (Entry.mFirstOptions (base e))),
        Z.of_nat (length (Entry.mSecondOptions (base e))), off + 16).
Proof.
  intros [Hb He] H. rewrite Payload_bytes in H by done. cbn [fst] in H. unfold base_bytes in H.
  destruct (counts_byte_fields _ Hb) as (Hcb & Hn1 & Hn2).
  destruct (version_ttl_fields _ Hb) as (Hvt & Hmaj & Httl).
  destruct Hb as (Hs & Hi & Hm & Ht & _).
  unfold EntryDeserializer.Deserialize. destruct e as [s|g]; cbn [tail_bytes base] in *.
  - read_parts. rewrite EntryType_of_code, Hn1, Hn2, Hmaj, Httl.
    destruct s as [b minor]; cbn [ServiceEntry.base ServiceEntry.mMinorVersion] in *.
    destruct b as [ty fs ss sid iid maj ttl]; cbn in He, Ht, Hm |- *. destruct He as [Hminor Hty].
    unfold ServiceEntry.Deserialize, ServiceEntry.CreateFindServiceEntry,
      ServiceEntry.CreateOfferServiceEntry.
    destruct ty; try done; read_parts.
    + rewrite (proj2 (Z.eqb_neq ttl 0)) by lia. ok_eq.
    + destruct (0 <? ttl) eqn:Hp.
      * rewrite (proj2 (Z.eqb_neq ttl 0)) by lia. ok_eq.
      * replace ttl with 0 by lia. ok_eq.
  - rewrite (counter_bytes (EventgroupEntry.mCounter g)) in H by apply He.
    read_parts. rewrite EntryType_of_code, Hn1, Hn2, Hmaj, Httl.
    destruct g as [b ctr egid]; cbn [EventgroupEntry.base EventgroupEntry.mCounter EventgroupEntry.mEventgroupId] in *.
    destruct b as [ty fs ss sid iid maj ttl]; cbn in He, Ht, Hm |- *. destruct He as (Hctr & Hegid & Hty).
    unfold EventgroupEntry.Deserialize, EventgroupEntry.CreateSubscribeEventEntry,
      EventgroupEntry.CreateUnsubscribeEventEntry, EventgroupEntry.construct.
    destruct ty; try done; read_parts; rewrite (proj2 (Z.ltb_ge 15 ctr)) by lia.
    + destruct Hty as [-> | ->]; ok_eq.
    + ok_eq.
Qed.

Lemma entry_Deserialize_defined v off : defined (EntryDeserializer.Deserialize v off).
Proof.
  unfold EntryDeserializer.Deserialize, ServiceEntry.Deserialize, EventgroupEntry.Deserialize,
    ServiceEntry.CreateFindServiceEntry, ServiceEntry.CreateOfferServiceEntry,
    EventgroupEntry.CreateSubscribeEventEntry, EventgroupEntry.CreateUnsubscribeEventEntry,
    EventgroupEntry.construct.
  defined_tac.
Qed.

#[export] Hint Resolve entry_Deserialize_defined : defined.

Lemma strip_options e : options (strip e) = [].
Proof. by destruct e. Qed.

Lemma strip_ok e : options_ok (strip e).
Proof. unfold options_ok. rewrite strip_options. split; [constructor|]. intros t _. cbn. lia. Qed.

(** What the deserializer accepts has no options yet, is well formed, and took
    sixteen bytes of the payload. *)
Lemma entry_Deserialize_sound v off e n1 n2 off' :
  is_bytes v → 0 <= off → EntryDeserializer.Deserialize v off = Ok (e, n1, n2, off') →
  entry_wf e ∧ options e = [] ∧ 0 <= n1 <= 15 ∧ 0 <= n2 <= 15 ∧ off' = off + 16 ∧ off' <= size v.
Proof.
  intros Hv Hoff H. unfold EntryDeserializer.Deserialize in H. inv_ok.
  assert (Hn : ∀ b, is_u8 b → 0 <= b ≫ Entry.cOptionSizeBitLength <= 15 ∧ 0 <= Z.land b 15 <= 15).
  { intros b Hb. unfold Entry.cOptionSizeBitLength. change 15 with (Z.ones 4) at 2 3.
    rewrite Z.land_ones, Z.shiftr_div_pow2 by lia. change (2 ^ 4) with 16. ulia. }
  assert (Httl : ∀ w, is_u32 w → 0 <= Z.land w 16777215 < 16777216).
  { intros w Hw. change 16777215 with (Z.ones 24). rewrite Z.land_ones by lia. ulia. }
  destruct (EntryType_of _) as [[]|]; try done; inv_ok;
    unfold ServiceEntry.Deserialize, ServiceEntry.CreateFindServiceEntry, ServiceEntry.CreateOfferServiceEntry,
      EventgroupEntry.Deserialize, EventgroupEntry.CreateSubscribeEventEntry,
      EventgroupEntry.CreateUnsubscribeEventEntry, EventgroupEntry.construct in *; inv_ok;
    repeat (case_match; try done; inv_ok); use_parts;
    match goal with H : is_u8 ?b |- context [?b ≫ Entry.cOptionSizeBitLength] => destruct (Hn b H) end;
    match goal with H : is_u32 ?b |- context [Z.land ?b 16777215] => pose proof (Httl b H)
    | |- context [ServiceEntry.CreateStopOfferEntry] => idtac | _ => idtac end;
    unfold entry_wf, base_wf in *; simpl; split_and!; try done; try lia;
      try apply Forall_nil_2; try apply u8_is; auto; ulia.
Qed.

(** ** Properties *)

(** Adding an option to either array of an entry whose options obey the rules
    succeeds exactly when the extended entry obeys them too, and otherwise throws
    [std::invalid_argument]. *)
Theorem AddOption_enforces_rules e o :
  options_ok e →
  let first := with_base e (Entry.add_first (base e) o) in
  let second := with_base e (Entry.add_second (base e) o) in
  AddFirstOption e o = (if decide (options_ok first) then Ok first else Throw std_invalid_argument) ∧
  AddSecondOption e o = (if decide (options_ok second) then Ok second else Throw std_invalid_argument).
Proof.
  intros Hok first second. unfold AddFirstOption, AddSecondOption.
  pose proof (extends_ok e first o Hok (or_introl eq_refl)) as H1.
  pose proof (extends_ok e second o Hok (or_intror eq_refl)) as H2.
  split; case_decide; destruct (ValidateOption e o); try done; exfalso; naive_solver.
Qed.

(** A load-balancing option is accepted once; an SD endpoint never. *)
Lemma AddOption_enforces_rules_witness :
  let e := EService (ServiceEntry.CreateStopOfferEntry 1 2 3 4) in
  let lb := OLoadBalancing (LoadBalancingOption.mk false 1 2) in
  let sd := OIpv4Endpoint (Ipv4EndpointOption.CreateSdEndpoint false (Ipv4.mk 1 2 3 4) Tcp 5) in
  is_ok (AddFirstOption e lb) = true ∧ AddSecondOption e sd = Throw std_invalid_argument.
Proof.
  intros e lb sd.
  assert (Hok : options_ok e) by (by apply options_ok_decide).
  destruct (AddOption_enforces_rules e lb Hok) as [H1 _].
  destruct (AddOption_enforces_rules e sd Hok) as [_ H2]. rewrite H1, H2. split; by vm_compute.
Defined.
