(* ===== verification/SomeIp.v ===== *)
(** * SOME/IP messages: ara/com/someip

    The SOME/IP header (someip_message.cpp) and the RPC message
    (someip_rpc_message.cpp).  The theorems state that serialising and reading
    back an RPC message are inverse, and classify everything [Deserialize] does
    on an arbitrary vector of bytes, undefined behaviour included. *)

From S2P Require Import Prelude Payload.

(** Message types and return codes are bytes: the deserializer casts any received
    byte to the enumeration. *)
(** [ara/com/someip/someip_message.h:18-30] SomeIpMessageType *)
Definition Request : Z := 0.
Definition RequestNoReturn : Z := 1.
Definition Notification : Z := 2.
Definition Response : Z := 128.
Definition Error : Z := 129.

(** [ara/com/someip/someip_message.h:33-51] SomeIpReturnCode *)
Definition eOK : Z := 0.
Definition eNotOk : Z := 1.
Definition eUnknownService : Z := 2.
Definition eUnknownMethod : Z := 3.
Definition eWrongProtocolVersion : Z := 7.
Definition eWrongInterfaceVersion : Z := 8.
Definition eMalformedMessage : Z := 9.
Definition eWrongMessageType : Z := 10.

Module SomeIpMessage.

(** [ara/com/someip/someip_message.h:54-64] SomeIpMessage *)
Record t := mk {
  mMessageId : Z;
  mClientId : Z;
  mSessionId : Z;
  mProtocolVersion : Z;
  mInterfaceVersion : Z;
  mMessageType : Z;
  mReturnCode : Z
}.

(** [ara/com/someip/someip_message.cpp:29-48] the constructor of requests and
    notifications *)
Definition construct_request
    (messageId clientId protocolVersion interfaceVersion messageType sessionId : Z) : outcome t :=
  let m := mk messageId clientId sessionId protocolVersion interfaceVersion messageType eOK in
  if negb (messageType =? Request) && negb (messageType =? Notification)
  then Throw std_invalid_argument else mret m.

(** [ara/com/someip/someip_message.cpp:50-76] the constructor of responses *)
Definition construct_response
    (messageId clientId protocolVersion interfaceVersion messageType returnCode sessionId : Z) :
    outcome t :=
  let m := mk messageId clientId sessionId protocolVersion interfaceVersion messageType returnCode in
  if (messageType =? Request) || (messageType =? Notification) then Throw std_invalid_argument
  else if (messageType =? Error) && (returnCode =? eOK) then Throw std_invalid_argument
  else mret m.

(** [ara/com/someip/someip_message.cpp:101-121] Deserialize: the last four fields
    are read with the unchecked operator *)
Definition Deserialize (payload : bytes) : outcome t :=
  let offset := 0 in
  '(messageId, offset) ← ExtractInteger payload offset;
  let offset := offset + 4 in
  '(clientId, offset) ← ExtractShort payload offset;
  '(sessionId, offset) ← ExtractShort payload offset;
  protocolVersion ← index_ payload offset;
  let offset := offset + 1 in
  interfaceVersion ← index_ payload offset;
  let offset := offset + 1 in
  messageType ← index_ payload offset;
  let offset := offset + 1 in
  returnCode ← index_ payload offset;
  mret (mk messageId clientId sessionId protocolVersion interfaceVersion messageType returnCode).

(** [ara/com/someip/someip_message.cpp:138-141] SetSessionId *)
Definition SetSessionId (m : t) (sessionId : Z) : t :=
  mk (mMessageId m) (mClientId m) sessionId (mProtocolVersion m) (mInterfaceVersion m)
     (mMessageType m) (mReturnCode m).

(** [ara/com/someip/someip_message.cpp:143-158] IncrementSessionId *)
Definition IncrementSessionId (m : t) : bool * t :=
  if mSessionId m =? 65535 then (true, SetSessionId m 1)
  else (false, SetSessionId m (u16 (mSessionId m + 1))).

(** [ara/com/someip/someip_message.cpp:180-198] Payload, given the virtual Length *)
Definition Payload (m : t) (Length : Z) : bytes :=
  let result := InjectInteger [] (mMessageId m) in
  let result := InjectInteger result Length in
  let result := InjectShort result (mClientId m) in
  let result := InjectShort result (mSessionId m) in
  let result := push_back result (mProtocolVersion m) in
  let result := push_back result (mInterfaceVersion m) in
  let result := push_back result (mMessageType m) in
  push_back result (mReturnCode m).

(** Every field has the width of its member. *)
Definition wf (m : t) : Prop :=
  is_u32 (mMessageId m) ∧ is_u16 (mClientId m) ∧ is_u16 (mSessionId m) ∧
  is_u8 (mProtocolVersion m) ∧ is_u8 (mInterfaceVersion m) ∧
  is_u8 (mMessageType m) ∧ is_u8 (mReturnCode m).

End SomeIpMessage.

Module SomeIpRpcMessage.

(** [ara/com/someip/rpc/someip_rpc_message.h:17-20] SomeIpRpcMessage *)
Record t := mk {
  header : SomeIpMessage.t;
  mRpcPayload : bytes
}.

(** [ara/com/someip/rpc/someip_rpc_message.cpp:21-34] the request constructor *)
Definition construct_request
    (messageId clientId sessionId protocolVersion interfaceVersion : Z) (rpcPayload : bytes) :
    outcome t :=
  h ← SomeIpMessage.construct_request messageId clientId protocolVersion interfaceVersion
        Request sessionId;
  mret (mk h rpcPayload).

(** [ara/com/someip/rpc/someip_rpc_message.cpp:51-66] the response constructor *)
Definition construct_response
    (messageId clientId sessionId protocolVersion interfaceVersion returnCode : Z)
    (rpcPayload : bytes) : outcome t :=
  h ← SomeIpMessage.construct_response messageId clientId protocolVersion interfaceVersion
        (if returnCode =? eOK then Response else Error) returnCode sessionId;
  mret (mk h rpcPayload).

(** [ara/com/someip/rpc/someip_rpc_message.cpp:68-75] Length *)
Definition Length (m : t) : Z := u32 (8 + size (mRpcPayload m)).

(** [ara/com/someip/rpc/someip_rpc_message.cpp:77-85] Payload *)
Definition Payload (m : t) : bytes :=
  SomeIpMessage.Payload (header m) (Length m) ++ mRpcPayload m.

(** [ara/com/someip/rpc/someip_rpc_message.cpp:92-110] Deserialize.  Reading the
    length has advanced [lengthOffset] from 4 to 8; the pointer sum is taken as its
    value, [16 + length - 8]. *)
Definition Deserialize (payload : bytes) : outcome t :=
  '(length, lengthOffset) ← ExtractInteger payload 4;
  header ← SomeIpMessage.Deserialize payload;
  rpcPayload ← range_ payload 16 (16 + length - lengthOffset);
  mret (mk header rpcPayload).

Definition wf (m : t) : Prop :=
  SomeIpMessage.wf (header m) ∧ is_bytes (mRpcPayload m) ∧ 8 + size (mRpcPayload m) < 4294967296.

End SomeIpRpcMessage.

(** ** Lemmas: the header *)

Definition header_bytes (m : SomeIpMessage.t) (len : Z) : bytes :=
  integer_bytes (SomeIpMessage.mMessageId m) ++ integer_bytes len ++
  short_bytes (SomeIpMessage.mClientId m) ++ short_bytes (SomeIpMessage.mSessionId m) ++
  [SomeIpMessage.mProtocolVersion m] ++ [SomeIpMessage.mInterfaceVersion m] ++
  [SomeIpMessage.mMessageType m] ++ [SomeIpMessage.mReturnCode m].

Lemma header_Payload m len : SomeIpMessage.Payload m len = header_bytes m len.
Proof.
  unfold SomeIpMessage.Payload, push_back. autorewrite with inject.
  by rewrite app_nil_l, <- !app_assoc.
Qed.

Lemma size_header m len : size (header_bytes m len) = 16.
Proof. done. Qed.

#[export] Hint Rewrite header_Payload : inject.
#[export] Hint Rewrite size_header : size.

Lemma header_is_bytes m len : SomeIpMessage.wf m → is_bytes (header_bytes m len).
Proof. intros (?&?&?&?&?&?&?). unfold header_bytes. is_bytes_tac. Qed.

(** A vector that holds a header at its start is read back as it. *)
Lemma header_Deserialize v m len :
  SomeIpMessage.wf m → is_u32 len → holds v 0 (header_bytes m len) →
  SomeIpMessage.Deserialize v = Ok m ∧ ExtractInteger v 4 = Ok (len, 8).
Proof.
  intros (Hid & Hc & Hs & Hpv & Hiv & Hmt & Hrc) Hlen H. unfold header_bytes in H.
  destruct m as [id c s pv iv mt rc]; cbn [SomeIpMessage.mMessageId SomeIpMessage.mClientId
    SomeIpMessage.mSessionId SomeIpMessage.mProtocolVersion SomeIpMessage.mInterfaceVersion
    SomeIpMessage.mMessageType SomeIpMessage.mReturnCode] in *.
  unfold SomeIpMessage.Deserialize. split; read_parts; [done|ok_eq].
Qed.

(** Uses the specification of an extraction whose range is known. *)
Ltac extract_at lem v o :=
  let Hs := fresh "Hs" in
  repeat match goal with
    | |- context [ExtractShort v ?o'] =>
        lazymatch o' with o => fail | _ => replace o' with o by lia end
    | |- context [ExtractInteger v ?o'] =>
        lazymatch o' with o => fail | _ => replace o' with o by lia end
    end;
  pose proof (lem v o ltac:(done) ltac:(lia)) as Hs;
  lazymatch type of Hs with
  | if ?c then _ else _ =>
      first [ replace c with true in Hs by (symmetry; apply Z.leb_le; lia);
              let z := fresh "z" in let E := fresh "E" in destruct Hs as (z & E & ? & ?); try rewrite E
            | replace c with false in Hs by (symmetry; apply Z.leb_gt; lia); cbv iota in Hs; try rewrite Hs ]
  end.

Lemma header_short v :
  is_bytes v → size v < 12 → SomeIpMessage.Deserialize v = Throw std_out_of_range.
Proof.
  intros Hv Hlt. unfold SomeIpMessage.Deserialize. cbv zeta.
  destruct (Z.lt_ge_cases (size v) 4); [by extract_at ExtractInteger_spec v 0|].
  extract_at ExtractInteger_spec v 0. simpl.
  destruct (Z.lt_ge_cases (size v) 10); [by extract_at ExtractShort_spec v 8|].
  extract_at ExtractShort_spec v 8. simpl. by extract_at ExtractShort_spec v 10.
Qed.

(** An access with the unchecked operator, before one that is undefined. *)
Lemma index_then_undefined {A} v o (f : Z → outcome A) :
  (∀ b, f b = Undefined) → index_ v o ≫= f = Undefined.
Proof.
  intros Hf. unfold index_. case_match; [|done]. by case_match; simpl.
Qed.

Lemma header_truncated v :
  is_bytes v → 12 <= size v < 16 → SomeIpMessage.Deserialize v = Undefined.
Proof.
  intros Hv Hlt. unfold SomeIpMessage.Deserialize. cbv zeta.
  extract_at ExtractInteger_spec v 0. simpl. extract_at ExtractShort_spec v 8. simpl.
  extract_at ExtractShort_spec v 10. simpl.
  do 3 (apply index_then_undefined; intros). by rewrite index_out by lia.
Qed.

Lemma header_complete v :
  is_bytes v → 16 <= size v →
  ∃ m len, SomeIpMessage.wf m ∧ is_u32 len ∧ holds v 0 (header_bytes m len).
Proof.
  intros Hv Hle.
  extract_at ExtractInteger_spec v 0. extract_at ExtractInteger_spec v 4.
  extract_at ExtractShort_spec v 8. extract_at ExtractShort_spec v 10.
  destruct (index_total v 12 ltac:(lia)) as (b12 & _ & H12).
  destruct (index_total v 13 ltac:(lia)) as (b13 & _ & H13).
  destruct (index_total v 14 ltac:(lia)) as (b14 & _ & H14).
  destruct (index_total v 15 ltac:(lia)) as (b15 & _ & H15).
  exists (SomeIpMessage.mk z z1 z2 b12 b13 b14 b15), z0.
  assert (Hu : ∀ o b, holds v o [b] → is_u8 b).
  { intros o b Hb. apply holds_is_bytes in Hb; [|done]. by inversion Hb. }
  split; [do 6 (refine (conj _ _); [solve [eauto]|]); solve [eauto]|]. split; [done|]. unfold header_bytes.
  repeat (apply holds_app; split; [done|]). done.
Qed.

(** ** Lemmas: the range constructor *)

Lemma range_app pre mid post n1 n2 :
  n1 = size pre → n2 = size pre + size mid → range_ (pre ++ mid ++ post) n1 n2 = Ok mid.
Proof.
  intros -> ->. unfold range_. pose proof (size_nonneg pre). pose proof (size_nonneg mid).
  pose proof (size_nonneg post). rewrite !size_app.
  replace (_ && _) with true by (symmetry; rewrite !andb_true_iff; lia).
  rewrite (proj2 (Z.leb_le _ _)) by lia. replace (size pre + size mid - size pre) with (size mid) by lia.
  unfold size. rewrite !Nat2Z.id. by rewrite drop_app_length, take_app_length.
Qed.

Lemma range_holds v off bs n : holds v off bs → n = off + size bs → range_ v off n = Ok bs.
Proof. intros (pre & post & -> & ->) ->. by apply range_app. Qed.

(** Every range a vector holds, and why the others fail. *)
Lemma range_cases v n1 n2 :
  0 <= n1 <= size v → 0 <= n2 →
  range_ v n1 n2 =
    if n2 <=? size v then
      if n1 <=? n2 then Ok (take (Z.to_nat (n2 - n1)) (drop (Z.to_nat n1) v))
      else Throw std_length_error
    else Undefined.
Proof.
  intros H1 H2. unfold range_. rewrite (proj2 (Z.leb_le 0 n1)), (proj2 (Z.leb_le n1 _)) by lia.
  rewrite (proj2 (Z.leb_le 0 n2)) by lia. cbn [andb]. by destruct (n2 <=? size v).
Qed.

(** ** RPC messages *)
Module RpcMessage_facts.
Import SomeIpRpcMessage.

Lemma Payload_app m :
  Payload m = header_bytes (header m) (Length m) ++ mRpcPayload m.
Proof. unfold Payload. by autorewrite with inject. Qed.

Lemma Length_wf m : wf m → Length m = 8 + size (mRpcPayload m).
Proof. intros (_ & _ & Hs). unfold Length. pose proof (size_nonneg (mRpcPayload m)). ulia. Qed.

Lemma size_Payload m : wf m → size (Payload m) = 8 + Length m.
Proof. intros Hwf. rewrite Payload_app, size_app, size_header, Length_wf by done. lia. Qed.

Lemma Payload_is_bytes m : wf m → is_bytes (Payload m).
Proof.
  intros (Hh & Hp & _). rewrite Payload_app.
  apply is_bytes_app; [by apply header_is_bytes|done].
Qed.

(** A message at the start of a vector is read back whatever follows it. *)
Lemma Deserialize_app m rest : wf m → Deserialize (Payload m ++ rest) = Ok m.
Proof.
  intros Hwf. pose proof (Length_wf m Hwf) as HL. destruct Hwf as (Hh & Hp & Hs).
  pose proof (size_nonneg (mRpcPayload m)). rewrite Payload_app, <- app_assoc.
  destruct (header_Deserialize (header_bytes (header m) (Length m) ++ mRpcPayload m ++ rest)
    (header m) (Length m)) as [HD HE]; [done|rewrite HL; ulia|by eexists [], _|].
  unfold Deserialize. rewrite HE, Ok_bind, HD, Ok_bind.
  rewrite (range_app (header_bytes (header m) (Length m)) (mRpcPayload m)).
  - by destruct m.
  - by rewrite size_header.
  - rewrite size_header. lia.
Qed.

(** The length field of a vector that has one. *)
Definition length_field (v : bytes) : Z :=
  match ExtractInteger v 4 with Ok (n, _) => n | _ => 0 end.

(** What [Deserialize] does on every vector of bytes. *)
Lemma Deserialize_cases v :
  is_bytes v →
  let n := length_field v in
  if size v <? 12 then Deserialize v = Throw std_out_of_range
  else if size v <? 16 then Deserialize v = Undefined
  else if n <? 8 then Deserialize v = Throw std_length_error
  else if size v <? 8 + n then Deserialize v = Undefined
  else ∃ m, Deserialize v = Ok m ∧ wf m ∧ Length m = n ∧ Payload m = take (Z.to_nat (8 + n)) v.
Proof.
  intros Hv n. destruct (size v <? 12) eqn:H12.
  { unfold Deserialize. destruct (Z.lt_ge_cases (size v) 8).
    - by extract_at ExtractInteger_spec v 4.
    - extract_at ExtractInteger_spec v 4. simpl. by rewrite header_short by (try done; lia). }
  destruct (size v <? 16) eqn:H16.
  { unfold Deserialize. extract_at ExtractInteger_spec v 4. simpl. by rewrite header_truncated by (try done; lia). }
  destruct (header_complete v) as (h & len & Hh & Hlen & Hholds); [done|lia|].
  destruct (header_Deserialize v h len Hh Hlen Hholds) as [HD HE].
  assert (Hn : n = len) by (unfold n, length_field; by rewrite HE). subst n. rewrite Hn. clear Hn.
  unfold Deserialize. rewrite HE, Ok_bind, HD, Ok_bind.
  rewrite range_cases by (unfold is_u32 in Hlen; lia).
  destruct (len <? 8) eqn:H8.
  { rewrite (proj2 (Z.leb_le _ _)) by lia. by rewrite (proj2 (Z.leb_gt _ _)) by lia. }
  destruct (size v <? 8 + len) eqn:Hlong.
  { by rewrite (proj2 (Z.leb_gt _ _)) by lia. }
  rewrite !(proj2 (Z.leb_le _ _)) by lia. simpl.
  destruct Hholds as (pre & post & Hsplit & Hpre).
  assert (pre = []) as -> by (destruct pre; [done|unfold size in Hpre; simpl in Hpre; lia]).
  rewrite app_nil_l in Hsplit. subst v. rewrite size_app, size_header in *.
  assert (Hsz : size (take (Z.to_nat (16 + len - 8 - 16)) post) = len - 8).
  { unfold size in *. rewrite length_take. lia. }
  replace (drop (Z.to_nat 16) (header_bytes h len ++ post)) with post by done.
  assert (Hwf : wf (mk h (take (Z.to_nat (16 + len - 8 - 16)) post))).
  { split; [done|]. cbn [mRpcPayload]. split; [|unfold is_u32 in Hlen; lia].
    apply Forall_app in Hv as [_ Hv]. by apply Forall_take. }
  eexists. split; [done|]. split; [done|]. pose proof (Length_wf _ Hwf) as HL.
  cbn [mRpcPayload] in HL. split; [lia|]. rewrite Payload_app, HL, Hsz. cbn [header mRpcPayload].
  replace (8 + (len - 8)) with len by lia. rewrite take_app.
  replace (length (header_bytes h len)) with 16%nat by done.
  rewrite (take_ge (header_bytes h len)) by (replace (length (header_bytes h len)) with 16%nat by done; lia).
  do 2 f_equal. lia.
Qed.

End RpcMessage_facts.

(** ** Properties *)

(** A well-formed RPC message is read back from its payload, whatever bytes
    follow it, and whatever [Deserialize] accepts is a well-formed message whose
    payload is exactly the part of the vector that its length field announces. *)
Theorem rpc_message_roundtrip :
  (∀ m rest, SomeIpRpcMessage.wf m →
     SomeIpRpcMessage.Deserialize (SomeIpRpcMessage.Payload m ++ rest) = Ok m) ∧
  (∀ v m, is_bytes v → SomeIpRpcMessage.Deserialize v = Ok m →
     SomeIpRpcMessage.wf m ∧ ∃ rest, v = SomeIpRpcMessage.Payload m ++ rest).
Proof.
  split; [apply RpcMessage_facts.Deserialize_app|]. intros v m Hv HD.
  pose proof (RpcMessage_facts.Deserialize_cases v Hv) as Hc. cbv zeta in Hc.
  repeat case_match; try (rewrite HD in Hc; done).
  destruct Hc as (m' & HD' & Hwf & _ & HP). rewrite HD in HD'. simplify_eq.
  split; [done|]. rewrite HP. eexists. symmetry. apply take_drop.
Qed.

(** What [SomeIpRpcMessage::Deserialize] does on an arbitrary vector of bytes.
    A vector shorter than twelve bytes is rejected with [std::out_of_range], as the
    header promises; but twelve to fifteen bytes, or a length field that exceeds
    the vector, are read out of bounds, and a length field below eight asks for a
    vector of negative size. *)
Theorem rpc_Deserialize_classification v :
  is_bytes v →
  let n := RpcMessage_facts.length_field v in
  (size v < 12 → SomeIpRpcMessage.Deserialize v = Throw std_out_of_range) ∧
  (12 <= size v < 16 → SomeIpRpcMessage.Deserialize v = Undefined) ∧
  (16 <= size v → n < 8 → SomeIpRpcMessage.Deserialize v = Throw std_length_error) ∧
  (16 <= size v → 8 <= n → size v < 8 + n → SomeIpRpcMessage.Deserialize v = Undefined) ∧
  (16 <= size v → 8 <= n → 8 + n <= size v → is_ok (SomeIpRpcMessage.Deserialize v) = true).
Proof.
  intros Hv. pose proof (RpcMessage_facts.Deserialize_cases v Hv) as Hc. cbv zeta in *.
  split_and!; intros; repeat case_match; try done; try lia. by destruct Hc as (m & -> & _).
Qed.

(** Sixteen bytes that announce a payload they do not have. *)
Lemma rpc_Deserialize_classification_witness :
  SomeIpRpcMessage.Deserialize (replicate 7 0 ++ [9] ++ replicate 8 0) = Undefined.
Proof.
  apply (rpc_Deserialize_classification (replicate 7 0 ++ [9] ++ replicate 8 0)).
  - repeat (apply Forall_cons; split; [by split; vm_compute|]). apply Forall_nil_2.
  - by vm_compute.
  - by vm_compute.
  - by vm_compute.
Defined.
