(* ===== verification/SdMessage.v ===== *)
(** * Service discovery messages: ara/com/someip/sd/someip_sd_message.cpp

    The message with its entries and their options, its payload, and the loop that
    reads entries and options from two cursors.  The theorems: the length field,
    the round trip of every well-formed message, the safety and termination of
    [Deserialize] on arbitrary bytes, and the option indices the payload carries. *)

From S2P Require Import Prelude Payload Options Entries SomeIp.

Module SomeIpSdMessage.

(** [ara/com/someip/sd/someip_sd_message.h:19-33] SomeIpSdMessage *)
Record t := mk {
  header : SomeIpMessage.t;
  mRebooted : bool;
  mEntries : list AnyEntry
}.

Definition cMessageId : Z := 4294934784.
Definition cClientId : Z := 0.
Definition cProtocolVersion : Z := 1.
Definition cInterfaceVersion : Z := 1.
Definition cMessageType : Z := Notification.
Definition cRebootedFlag : Z := 3221225472.
Definition cNotRebootedFlag : Z := 1073741824.

(** [ara/com/someip/sd/someip_sd_message.cpp:15-23] SomeIpSdMessage::SomeIpSdMessage *)
Definition construct : outcome t :=
  h ← SomeIpMessage.construct_request cMessageId cClientId cProtocolVersion cInterfaceVersion
        cMessageType 1;
  mret (mk h true []).

(** [ara/com/someip/sd/someip_sd_message.cpp:40-47] getEntriesLength *)
Definition getEntriesLength (m : t) : Z :=
  let numberOfEntries := u32 (Z.of_nat (length (mEntries m))) in
  u32 (numberOfEntries * 16).

(** [ara/com/someip/sd/someip_sd_message.cpp:49-68] getOptionsLength *)
Definition getOptionsLength (m : t) : Z :=
  foldl (fun result e =>
    let result := foldl (fun r o => u32 (r + (3 + Option_.Length o))) result
                    (Entry.mFirstOptions (base e)) in
    foldl (fun r o => u32 (r + (3 + Option_.Length o))) result (Entry.mSecondOptions (base e)))
    0 (mEntries m).

(** [ara/com/someip/sd/someip_sd_message.cpp:75-78] AddEntry *)
Definition AddEntry (m : t) (e : AnyEntry) : t := mk (header m) (mRebooted m) (mEntries m ++ [e]).

(** [ara/com/someip/sd/someip_sd_message.cpp:80-97] Length *)
Definition Length (m : t) : Z :=
  let entriesLength := u32 (4 + getEntriesLength m) in
  let optionsLength := u32 (4 + getOptionsLength m) in
  u32 (8 + 4 + entriesLength + optionsLength).

(** [ara/com/someip/sd/someip_sd_message.cpp:99-108] SetSessionId *)
Definition SetSessionId (m : t) (sessionId : Z) : outcome t :=
  if sessionId =? 0 then Throw std_invalid_argument
  else mret (mk (SomeIpMessage.SetSessionId (header m) sessionId) (mRebooted m) (mEntries m)).

(** [ara/com/someip/sd/someip_sd_message.cpp:110-117] IncrementSessionId *)
Definition IncrementSessionId (m : t) : bool * t :=
  let '(wrapped, h) := SomeIpMessage.IncrementSessionId (header m) in
  (wrapped, mk h (mRebooted m && negb wrapped) (mEntries m)).

(** [ara/com/someip/sd/someip_sd_message.cpp:144-158] the options of one array: each
    payload is appended and the index is incremented *)
Definition options_payload (os : list Option) (st : bytes * Z) : bytes * Z :=
  foldl (fun '(optionsPayload, lastOptionIndex) o =>
    (Concat optionsPayload (Option_.Payload o), u8 (lastOptionIndex + 1))) st os.

(** [ara/com/someip/sd/someip_sd_message.cpp:138-159] the loop over the entries:
    entries payload, options payload, last option index *)
Fixpoint entries_payload (es : list AnyEntry) (st : bytes * bytes * Z) : bytes * bytes * Z :=
  match es with
  | [] => st
  | e :: es =>
      let '(entriesPayload, optionsPayload, lastOptionIndex) := st in
      let '(entryPayload, lastOptionIndex) := Entries.Payload e lastOptionIndex in
      let entriesPayload := Concat entriesPayload entryPayload in
      let '(optionsPayload, lastOptionIndex) :=
        options_payload (Entry.mFirstOptions (base e)) (optionsPayload, lastOptionIndex) in
      let '(optionsPayload, lastOptionIndex) :=
        options_payload (Entry.mSecondOptions (base e)) (optionsPayload, lastOptionIndex) in
      entries_payload es (entriesPayload, optionsPayload, lastOptionIndex)
  end.

(** [ara/com/someip/sd/someip_sd_message.cpp:119-172] Payload *)
Definition Payload (m : t) : bytes :=
  let result := SomeIpMessage.Payload (header m) (Length m) in
  let result := if mRebooted m then InjectInteger result cRebootedFlag
                else InjectInteger result cNotRebootedFlag in
  let '(entriesPayload, optionsPayload, _) := entries_payload (mEntries m) ([], [], 0) in
  let result := InjectInteger result (getEntriesLength m) in
  let result := Concat result entriesPayload in
  let result := InjectInteger result (getOptionsLength m) in
  Concat result optionsPayload.

(** [ara/com/someip/sd/someip_sd_message.cpp:218-225] a loop that reads options and
    adds them to the entry *)
Fixpoint read_options (add : AnyEntry → Option → outcome AnyEntry) (n : nat) (payload : bytes)
    (e : AnyEntry) (optionOffset : Z) : outcome (AnyEntry * Z) :=
  match n with
  | O => mret (e, optionOffset)
  | S n =>
      '(o, optionOffset) ← OptionDeserializer.Deserialize payload optionOffset;
      e ← add e o;
      read_options add n payload e optionOffset
  end.

(** [ara/com/someip/sd/someip_sd_message.cpp:206-237] the loop over the entries *)
Fixpoint read_entries (fuel : nat) (payload : bytes) (entryOffset entryOffsetMax optionOffset : Z)
    (result : t) : outcome t :=
  if entryOffset <? entryOffsetMax then
    match fuel with
    | O => OutOfFuel
    | S fuel =>
        '(e, numberOfFirstOptions, numberOfSecondOptions, entryOffset) ←
          EntryDeserializer.Deserialize payload entryOffset;
        '(e, optionOffset) ←
          read_options AddFirstOption (Z.to_nat numberOfFirstOptions) payload e optionOffset;
        '(e, optionOffset) ←
          read_options AddSecondOption (Z.to_nat numberOfSecondOptions) payload e optionOffset;
        read_entries fuel payload entryOffset entryOffsetMax optionOffset (AddEntry result e)
    end
  else mret result.

(** [ara/com/someip/sd/someip_sd_message.cpp:174-240] Deserialize.  Every iteration
    consumes sixteen bytes of the payload, so its length is enough fuel. *)
Definition Deserialize (payload : bytes) : outcome t :=
  result ← construct;
  header ← SomeIpMessage.Deserialize payload;
  let entryOffset := 16 in
  '(rebootFlag, entryOffset) ← ExtractInteger payload entryOffset;
  rebooted ← (if rebootFlag =? cRebootedFlag then mret true
              else if rebootFlag =? cNotRebootedFlag then mret false
              else Throw std_out_of_range);
  '(entriesLength, entryOffset) ← ExtractInteger payload entryOffset;
  let entryOffsetMax := u32 (entryOffset + entriesLength) in
  let optionOffset := entryOffset + entriesLength + 4 in
  read_entries (length payload) payload entryOffset entryOffsetMax optionOffset
    (mk header rebooted (mEntries result)).

(** What the API can build and its 32-bit length fields can describe. *)
Definition options_size (e : AnyEntry) : Z :=
  foldr (fun o n => 3 + Option_.Length o + n) 0 (options e).

Definition options_total (es : list AnyEntry) : Z :=
  foldr (fun e n => options_size e + n) 0 es.

Definition wf (m : t) : Prop :=
  SomeIpMessage.wf (header m) ∧
  Forall entry_wf (mEntries m) ∧ Forall options_ok (mEntries m) ∧
  24 + 16 * Z.of_nat (length (mEntries m)) + options_total (mEntries m) < 4294967296.

End SomeIpSdMessage.

(** ** Lemmas: attaching options *)

(** The entry with its two option arrays replaced. *)
Definition set_options (e : AnyEntry) (fs ss : list Option) : AnyEntry :=
  let b := base e in
  with_base e (Entry.mk (Entry.mType b) fs ss (Entry.mServiceId b) (Entry.mInstanceId b)
                 (Entry.mMajorVersion b) (Entry.mTTL b)).

Lemma set_options_id e :
  set_options e (Entry.mFirstOptions (base e)) (Entry.mSecondOptions (base e)) = e.
Proof. destruct e as [[[??????] ?]|[[??????] ? ?]]; done. Qed.

Lemma set_options_options e fs ss : options (set_options e fs ss) = fs ++ ss.
Proof. by destruct e. Qed.

Lemma set_options_allowed e fs ss t : allowed (set_options e fs ss) t = allowed e t.
Proof. by destruct e, t. Qed.

(** Fewer options obey the rules too. *)
Lemma options_ok_prefix e fs ss fs' ss' os :
  fs ++ ss ≡ₚ (fs' ++ ss') ++ os → options_ok (set_options e fs ss) → options_ok (set_options e fs' ss').
Proof.
  intros Hp [Hall Hone]. unfold options_ok in *. rewrite set_options_options in *. split.
  - rewrite Hp, Forall_app in Hall. destruct Hall as [Hall _].
    eapply Forall_impl; [exact Hall|]. intros o. by rewrite !set_options_allowed.
  - intros t Ht. specialize (Hone t Ht).
    rewrite (count_type_perm _ _ _ Hp), count_type_app in Hone. lia.
Qed.

Definition payloads (os : list Option) : bytes := concat (map Option_.Payload os).

Lemma payloads_cons o os : payloads (o :: os) = Option_.Payload o ++ payloads os.
Proof. done. Qed.

Lemma payloads_app os os' : payloads (os ++ os') = payloads os ++ payloads os'.
Proof. unfold payloads. by rewrite map_app, concat_app. Qed.

(** The two loops differ in the array they extend; [grow] is what one addition does
    to the pair of arrays. *)
Lemma read_options_correct add (grow : list Option * list Option → Option → list Option * list Option)
    v e os fs ss oo :
  (∀ fs ss o fs' ss', grow (fs, ss) o = (fs', ss') → fs' ++ ss' ≡ₚ (fs ++ ss) ++ [o] ∧
     add (set_options e fs ss) o =
       if ValidateOption (set_options e fs ss) o then Ok (set_options e fs' ss')
       else Throw std_invalid_argument) →
  (∀ fs ss o fs' ss', grow (fs, ss) o = (fs', ss') →
     extends (set_options e fs ss) (set_options e fs' ss') o) →
  let '(fs', ss') := foldl grow (fs, ss) os in
  options_ok (set_options e fs' ss') → Forall Option_.wf os → holds v oo (payloads os) →
  SomeIpSdMessage.read_options add (length os) v (set_options e fs ss) oo =
    Ok (set_options e fs' ss', oo + size (payloads os)).
Proof.
  intros Hadd Hext. revert fs ss oo.
  assert (Hperm : ∀ l p, let '(fs', ss') := foldl grow p l in fs' ++ ss' ≡ₚ (fst p ++ snd p) ++ l).
  { induction l as [|o os0 IH]; intros [fs ss]; simpl; [by rewrite app_nil_r|].
    destruct (grow (fs, ss) o) as [fs1 ss1] eqn:Hg. specialize (IH (fs1, ss1)).
    destruct (foldl grow (fs1, ss1) os0) as [fs' ss']. simpl in IH.
    destruct (Hadd _ _ _ _ _ Hg) as [Hp _]. rewrite IH, Hp, <- !app_assoc. done. }
  induction os as [|o os IH]; intros fs ss oo; simpl.
  { intros _ _ _. do 2 f_equal. unfold payloads, size. simpl. lia. }
  destruct (grow (fs, ss) o) as [fs1 ss1] eqn:Hg. specialize (IH fs1 ss1). specialize (Hperm os (fs1, ss1)).
  destruct (foldl grow (fs1, ss1) os) as [fs' ss'] eqn:Hf. simpl in Hperm.
  intros Hok [Ho Hos]%Forall_cons Hh. rewrite payloads_cons in Hh. apply holds_app in Hh as [Hh1 Hh2].
  rewrite (Deserialize_Payload _ _ o), Ok_bind by done.
  destruct (Hadd _ _ _ _ _ Hg) as [Hp1 ->].
  assert (Hok1 : options_ok (set_options e fs1 ss1)) by (by eapply options_ok_prefix).
  assert (Hok0 : options_ok (set_options e fs ss)) by (by eapply options_ok_prefix).
  rewrite (proj2 (extends_ok _ _ _ Hok0 (Hext _ _ _ _ _ Hg)) Hok1), Ok_bind.
  rewrite IH by done. rewrite payloads_cons, size_app. do 2 f_equal. lia.
Qed.

(** One addition to either array, and a sequence of them. *)
Definition grow_first (p : list Option * list Option) (o : Option) : list Option * list Option :=
  (fst p ++ [o], snd p).
Definition grow_second (p : list Option * list Option) (o : Option) : list Option * list Option :=
  (fst p, snd p ++ [o]).

Lemma foldl_first l p : foldl grow_first p l = (fst p ++ l, snd p).
Proof.
  revert p. induction l as [|x l IH]; intros [? ?]; simpl; [by rewrite app_nil_r|].
  by rewrite IH; simpl; rewrite <- app_assoc.
Qed.

Lemma foldl_second l p : foldl grow_second p l = (fst p, snd p ++ l).
Proof.
  revert p. induction l as [|x l IH]; intros [? ?]; simpl; [by rewrite app_nil_r|].
  by rewrite IH; simpl; rewrite <- app_assoc.
Qed.

Lemma read_first_correct v e os ss oo :
  options_ok (set_options e os ss) → Forall Option_.wf os → holds v oo (payloads os) →
  SomeIpSdMessage.read_options AddFirstOption (length os) v (set_options e [] ss) oo =
    Ok (set_options e os ss, oo + size (payloads os)).
Proof.
  pose proof (read_options_correct AddFirstOption grow_first v e os [] ss oo) as H.
  rewrite foldl_first in H. simpl in H. apply H.
  - intros fs ss' o fs' ss'' Hg. unfold grow_first in Hg. simplify_eq/=. split; [solve_Permutation|].
    unfold AddFirstOption. by destruct e.
  - intros fs ss' o fs' ss'' Hg. unfold grow_first in Hg. simplify_eq/=. left. by destruct e.
Qed.

Lemma read_second_correct v e fs os oo :
  options_ok (set_options e fs os) → Forall Option_.wf os → holds v oo (payloads os) →
  SomeIpSdMessage.read_options AddSecondOption (length os) v (set_options e fs []) oo =
    Ok (set_options e fs os, oo + size (payloads os)).
Proof.
  pose proof (read_options_correct AddSecondOption grow_second v e os fs [] oo) as H.
  rewrite foldl_second in H. simpl in H. apply H.
  - intros fs' ss' o fs'' ss'' Hg. unfold grow_second in Hg. simplify_eq/=. split; [by rewrite app_assoc|].
    unfold AddSecondOption. by destruct e.
  - intros fs' ss' o fs'' ss'' Hg. unfold grow_second in Hg. simplify_eq/=. right. by destruct e.
Qed.

(** ** Lemmas: the payload *)
Module SdMessage_facts.
Import SomeIpSdMessage.

(** The bytes of the entries array when the running option index starts at [idx]. *)
Fixpoint entries_bytes (es : list AnyEntry) (idx : Z) : bytes :=
  match es with
  | [] => []
  | e :: es =>
      fst (Entries.Payload e idx) ++
      entries_bytes es (u8 (idx + 2 * Z.of_nat (length (options e))))
  end.

Definition all_options (es : list AnyEntry) : list Option := concat (map options es).

Lemma options_payload_eq os acc idx :
  options_payload os (acc, idx) = (acc ++ payloads os,
    if (length os =? 0)%nat then idx else u8 (idx + Z.of_nat (length os))).
Proof.
  revert acc idx. induction os as [|o os IH]; intros acc idx; cbn [options_payload foldl].
  { unfold payloads. simpl. by rewrite app_nil_r. }
  unfold options_payload in IH. rewrite IH. unfold Concat. rewrite payloads_cons, <- app_assoc.
  f_equal. destruct (length os =? 0)%nat eqn:H0; cbn [length Nat.eqb].
  - apply Nat.eqb_eq in H0. by rewrite H0.
  - ulia.
Qed.

Lemma entries_payload_eq es ep op idx :
  Forall entry_wf es → is_u8 idx →
  fst (entries_payload es (ep, op, idx)) =
    (ep ++ entries_bytes es idx, op ++ payloads (all_options es)).
Proof.
  intros Hwf. revert ep op idx. induction Hwf as [|e es [He _] _ IH]; intros ep op idx Hidx.
  { unfold all_options, payloads. simpl. by rewrite !app_nil_r. }
  cbn [entries_payload entries_bytes]. rewrite Payload_bytes by done. cbn [fst].
  rewrite !options_payload_eq. unfold Concat. rewrite IH.
  - unfold all_options. cbn [map concat]. unfold options at 3.
    rewrite !payloads_app, <- !app_assoc. do 4 f_equal.
    unfold next_index, options. rewrite length_app.
    f_equal. repeat case_match; rewrite ?Nat.eqb_eq, ?Nat.eqb_neq in *; ulia.
  - case_match; [|apply u8_is]. case_match; [|apply u8_is]. apply next_index_u8.
Qed.

Lemma size_entries es idx :
  Forall entry_wf es → size (entries_bytes es idx) = 16 * Z.of_nat (length es).
Proof.
  intros Hwf. revert idx. induction Hwf as [|e es [He _] _ IH]; intros idx; [done|].
  cbn [entries_bytes length]. rewrite size_app, size_entry, IH by done. lia.
Qed.

Lemma size_payloads os : size (payloads os) = foldr (fun o n => 3 + Option_.Length o + n) 0 os.
Proof.
  induction os as [|o os IH]; [done|]. rewrite payloads_cons, size_app, size_option_Payload, IH.
  cbn [foldr]. lia.
Qed.

Lemma size_all_options es : size (payloads (all_options es)) = options_total es.
Proof.
  induction es as [|e es IH]; [done|]. unfold all_options in *. cbn [map concat options_total foldr].
  by rewrite payloads_app, size_app, IH, size_payloads.
Qed.

Lemma options_total_nonneg es : 0 <= options_total es.
Proof. rewrite <- size_all_options. apply size_nonneg. Qed.

Lemma getOptionsLength_eq m : wf m → getOptionsLength m = options_total (mEntries m).
Proof.
  intros (_ & _ & _ & Hsz). unfold getOptionsLength.
  assert (Hone : ∀ os r, foldl (fun r o => u32 (r + (3 + Option_.Length o))) r os =
    if (length os =? 0)%nat then r else u32 (r + size (payloads os))).
  { induction os as [|o os IH]; intros r; cbn [foldl length Nat.eqb]; [done|].
    rewrite IH, payloads_cons, size_app, size_option_Payload. case_match eqn:H0; [|ulia].
    apply Nat.eqb_eq in H0. destruct os; [|done]. unfold payloads, size. simpl. f_equal. lia. }
  assert (Hgen : ∀ es r, 0 <= r → r + options_total es < 4294967296 →
    foldl (fun result e =>
      let result := foldl (fun r o => u32 (r + (3 + Option_.Length o))) result
                      (Entry.mFirstOptions (base e)) in
      foldl (fun r o => u32 (r + (3 + Option_.Length o))) result (Entry.mSecondOptions (base e)))
      r es = r + options_total es).
  { induction es as [|e es IH]; intros r Hr Hlt; cbn [foldl options_total foldr] in *; [lia|].
    pose proof (options_total_nonneg es). unfold options_total in *. cbv zeta. rewrite !Hone.
    assert (Hs : options_size e = size (payloads (Entry.mFirstOptions (base e))) +
      size (payloads (Entry.mSecondOptions (base e)))).
    { unfold options_size, options. by rewrite <- size_payloads, payloads_app, size_app. }
    pose proof (size_nonneg (payloads (Entry.mFirstOptions (base e)))).
    pose proof (size_nonneg (payloads (Entry.mSecondOptions (base e)))).
    assert (Hz : ∀ os : list Option, (length os =? 0)%nat = true → size (payloads os) = 0)
      by (intros [|? ?]; done).
    pose proof (Hz (Entry.mFirstOptions (base e))). pose proof (Hz (Entry.mSecondOptions (base e))).
    rewrite IH; repeat case_match; ulia. }
  rewrite Hgen; lia.
Qed.

Lemma getEntriesLength_eq m : wf m → getEntriesLength m = 16 * Z.of_nat (length (mEntries m)).
Proof.
  intros (_ & _ & _ & Hsz). pose proof (options_total_nonneg (mEntries m)).
  unfold getEntriesLength. ulia.
Qed.

Lemma Length_eq m :
  wf m → Length m = 20 + 16 * Z.of_nat (length (mEntries m)) + options_total (mEntries m).
Proof.
  intros Hwf. unfold Length. rewrite getEntriesLength_eq, getOptionsLength_eq by done.
  destruct Hwf as (_ & _ & _ & Hsz). pose proof (options_total_nonneg (mEntries m)). ulia.
Qed.

Definition reboot_flag (m : t) : Z := if mRebooted m then cRebootedFlag else cNotRebootedFlag.

Lemma sd_Payload_app m :
  wf m →
  Payload m = header_bytes (header m) (Length m) ++ integer_bytes (reboot_flag m) ++
    integer_bytes (16 * Z.of_nat (length (mEntries m))) ++ entries_bytes (mEntries m) 0 ++
    integer_bytes (options_total (mEntries m)) ++ payloads (all_options (mEntries m)).
Proof.
  intros Hwf. unfold Payload, Concat. rewrite getEntriesLength_eq, getOptionsLength_eq by done.
  destruct Hwf as (_ & He & _ & _).
  pose proof (entries_payload_eq (mEntries m) [] [] 0 He ltac:(ulia)) as Heq.
  destruct (entries_payload (mEntries m) ([], [], 0)) as [[ep op] idx]. cbn [fst] in Heq.
  simplify_eq. rewrite !app_nil_l. unfold reboot_flag.
  destruct (mRebooted m); autorewrite with inject; by rewrite <- !app_assoc.
Qed.

Lemma sd_size_Payload m : wf m → size (Payload m) = 8 + Length m.
Proof.
  intros Hwf. rewrite sd_Payload_app, Length_eq by done. destruct Hwf as (_ & He & _).
  rewrite !size_app, size_entries, size_all_options, size_header, !size_integer_bytes by done. lia.
Qed.

Lemma read_entries_correct v es fuel eo oo idx acc :
  (length es <= fuel)%nat → Forall entry_wf es → Forall options_ok es → is_u8 idx →
  holds v eo (entries_bytes es idx) → holds v oo (payloads (all_options es)) →
  read_entries fuel v eo (eo + 16 * Z.of_nat (length es)) oo acc =
    Ok (mk (header acc) (mRebooted acc) (mEntries acc ++ es)).
Proof.
  intros Hfuel Hwf. revert fuel eo oo idx acc Hfuel.
  induction Hwf as [|e es He Hes IH]; intros fuel eo oo idx acc Hfuel Hok Hidx Hheld Hopts.
  { destruct fuel; cbn [read_entries length]; rewrite (proj2 (Z.ltb_ge _ _)) by lia;
      rewrite app_nil_r; by destruct acc. }
  destruct fuel as [|fuel]; [cbn in Hfuel; lia|]. cbn [read_entries].
  rewrite (proj2 (Z.ltb_lt _ _)) by (cbn [length]; lia).
  cbn [entries_bytes] in Hheld. unfold all_options in Hopts. cbn [map concat] in Hopts.
  fold (all_options es) in Hopts. unfold options at 1 in Hopts. rewrite !payloads_app in Hopts.
  apply holds_app in Hheld as [Hh1 Hh2]. apply holds_app in Hopts as [Ho1 Ho2].
  apply holds_app in Ho1 as [Ho0 Ho1]. rewrite size_entry in Hh2 by apply He.
  apply Forall_cons in Hok as [Hoke Hok].
  rewrite (entry_Deserialize_Payload _ _ e idx) by done. rewrite Ok_bind. rewrite !Nat2Z.id.
  destruct He as [(_ & _ & _ & _ & Hf & Hs & _) _].
  assert (Hok1 : options_ok (set_options e (Entry.mFirstOptions (base e)) [])).
  { eapply (options_ok_prefix e _ _ _ _ (Entry.mSecondOptions (base e)));
      [|rewrite set_options_id; exact Hoke]. by rewrite app_nil_r. }
  change (strip e) with (set_options e [] []).
  rewrite (read_first_correct v e (Entry.mFirstOptions (base e)) [] oo), Ok_bind by done.
  rewrite read_second_correct, Ok_bind; [|by rewrite set_options_id|done|done].
  rewrite set_options_id. rewrite <- Z.add_assoc, <- size_app in *.
  replace (eo + 16 * Z.of_nat (length (e :: es))) with (eo + 16 + 16 * Z.of_nat (length es))
    by (cbn [length]; lia).
  rewrite (IH fuel _ _ (u8 (idx + 2 * Z.of_nat (length (options e))))); [| |done|apply u8_is|done|done].
  - by cbn [AddEntry header mRebooted mEntries]; rewrite <- app_assoc.
  - cbn in Hfuel. lia.
Qed.

Lemma entries_fit es idx rest v off :
  Forall entry_wf es → holds v off (entries_bytes es idx ++ rest) → (length es <= length v)%nat.
Proof.
  intros He H. apply holds_bound in H as [? H]. rewrite size_app, size_entries in H by done.
  pose proof (size_nonneg rest). unfold size in *. lia.
Qed.

(** A vector that starts with the payload of a message is read back as it. *)
Lemma sd_Deserialize_app m rest : wf m → Deserialize (Payload m ++ rest) = Ok m.
Proof.
  intros Hwf. pose proof (Length_eq m Hwf) as HL. pose proof (options_total_nonneg (mEntries m)).
  rewrite sd_Payload_app by done. destruct Hwf as (Hh & He & Ho & Hsz).
  set (v := _ ++ rest). assert (Hv : holds v 0 (header_bytes (header m) (Length m) ++
    integer_bytes (reboot_flag m) ++ integer_bytes (16 * Z.of_nat (length (mEntries m))) ++
    entries_bytes (mEntries m) 0 ++ integer_bytes (options_total (mEntries m)) ++
    payloads (all_options (mEntries m)))) by (exists [], rest; done).
  apply holds_app in Hv as [Hhead Hv]. apply holds_app in Hv as [Hflag Hv].
  apply holds_app in Hv as [Hel Hv]. pose proof (entries_fit _ _ _ _ _ He Hv) as Hfit.
  apply holds_app in Hv as [Hes Hv]. apply holds_app in Hv as [_ Hos].
  rewrite !size_header, !size_integer_bytes, size_entries in * by done. cbn [Z.add] in *.
  destruct (header_Deserialize v (header m) (Length m)) as [HD _]; [done|rewrite HL; ulia|done|].
  unfold Deserialize. change construct with (@Ok t (mk (SomeIpMessage.mk cMessageId cClientId 1
    cProtocolVersion cInterfaceVersion cMessageType eOK) true [])).
  rewrite Ok_bind, HD, Ok_bind. cbv zeta.
  rewrite (ExtractInteger_holds v 16 (reboot_flag m)), Ok_bind;
    [|unfold reboot_flag, cRebootedFlag, cNotRebootedFlag; case_match; ulia|done].
  assert (Hreb : (if reboot_flag m =? cRebootedFlag then mret true
              else if reboot_flag m =? cNotRebootedFlag then mret false
              else Throw std_out_of_range) = Ok (mRebooted m)).
  { unfold reboot_flag. by destruct (mRebooted m). }
  rewrite Hreb, Ok_bind.
  rewrite (ExtractInteger_holds v (16 + 4) (16 * Z.of_nat (length (mEntries m)))), Ok_bind by (done || ulia).
  rewrite u32_id by ulia.
  rewrite (read_entries_correct v (mEntries m) _ (16 + 4 + 4) _ 0);
    [by destruct m|done|done|done|ulia|done|].
  replace (16 + 4 + 4 + 16 * Z.of_nat (length (mEntries m)) + 4) with
    (24 + 16 * Z.of_nat (length (mEntries m)) + 4) by lia. done.
Qed.

(** ** Lemmas: arbitrary vectors *)

Lemma add_defined e o : defined (AddFirstOption e o) ∧ defined (AddSecondOption e o).
Proof. unfold AddFirstOption, AddSecondOption. by case_match. Qed.

Lemma read_options_defined add n v e oo :
  (∀ e o, defined (add e o)) → defined (read_options add n v e oo).
Proof.
  intros Hadd. revert e oo. induction n as [|n IH]; intros e oo; [done|]. cbn [read_options].
  apply defined_bind; [apply option_Deserialize_defined|]. intros [o oo'] _.
  apply defined_bind; [done|]. intros e' _. apply IH.
Qed.

(** The options a successful loop has added. *)
Lemma read_options_sound add grow n v e fs ss oo e' oo' :
  (∀ fs ss o e', add (set_options e fs ss) o = Ok e' →
     e' = set_options e (fst (grow (fs, ss) o)) (snd (grow (fs, ss) o)) ∧
     extends (set_options e fs ss) e' o ∧ ValidateOption (set_options e fs ss) o = true) →
  is_bytes v → 0 <= oo → options_ok (set_options e fs ss) →
  read_options add n v (set_options e fs ss) oo = Ok (e', oo') →
  0 <= oo' ∧ options_ok e' ∧ ∃ os, length os = n ∧ Forall Option_.wf os ∧
    e' = set_options e (fst (foldl grow (fs, ss) os)) (snd (foldl grow (fs, ss) os)).
Proof.
  intros Hadd Hv. revert fs ss oo. induction n as [|n IH]; intros fs ss oo Hoo Hok; cbn [read_options].
  { intros [= <- <-]. split; [done|]. split; [done|]. by exists []. }
  intros H. apply bind_Ok in H as ([o oo1] & Ho & H). apply bind_Ok in H as (e1 & He1 & H).
  apply option_Deserialize_sound in Ho as [Hwf Ho]; [|done|done].
  destruct (Hadd _ _ _ _ He1) as (-> & Hext & Hval). 
  destruct (IH _ _ oo1 ltac:(lia) (proj1 (extends_ok _ _ _ Hok Hext) Hval) H) as (? & ? & os & Hlen & Hos & ->).
  split; [done|]. split; [done|]. exists (o :: os). split; [by simpl; f_equal|].
  split; [by apply Forall_cons|]. cbn [foldl]. by rewrite <- surjective_pairing.
Qed.

Lemma AddFirst_grow e fs ss o e' :
  AddFirstOption (set_options e fs ss) o = Ok e' →
  e' = set_options e (fst (grow_first (fs, ss) o)) (snd (grow_first (fs, ss) o)) ∧
  extends (set_options e fs ss) e' o ∧ ValidateOption (set_options e fs ss) o = true.
Proof. unfold AddFirstOption. case_match; [|done]. intros [= <-]. split_and!; [by destruct e|by left|done]. Qed.

Lemma AddSecond_grow e fs ss o e' :
  AddSecondOption (set_options e fs ss) o = Ok e' →
  e' = set_options e (fst (grow_second (fs, ss) o)) (snd (grow_second (fs, ss) o)) ∧
  extends (set_options e fs ss) e' o ∧ ValidateOption (set_options e fs ss) o = true.
Proof. unfold AddSecondOption. case_match; [|done]. intros [= <-]. split_and!; [by destruct e|by right|done]. Qed.

Lemma set_options_wf e fs ss :
  entry_wf e → Forall Option_.wf fs → Forall Option_.wf ss →
  (length fs <= 15)%nat → (length ss <= 15)%nat → entry_wf (set_options e fs ss).
Proof.
  intros [(?&?&?&?&_) He] ? ? ? ?. destruct e; (split; [do 7 (refine (conj _ _); [done|]); done|exact He]).
Qed.

Lemma no_options e : options e = [] → e = set_options e [] [].
Proof.
  intros H. unfold options in H. apply app_eq_nil in H as [H1 H2].
  rewrite <- (set_options_id e) at 1. by rewrite H1, H2.
Qed.

(** One iteration: progress through the vector and a well-formed entry. *)
Lemma read_entry_sound v eo oo e n1 n2 eo' e1 oo1 e2 oo2 :
  is_bytes v → 0 <= eo → 0 <= oo →
  EntryDeserializer.Deserialize v eo = Ok (e, n1, n2, eo') →
  read_options AddFirstOption (Z.to_nat n1) v e oo = Ok (e1, oo1) →
  read_options AddSecondOption (Z.to_nat n2) v e1 oo1 = Ok (e2, oo2) →
  eo' = eo + 16 ∧ eo' <= size v ∧ 0 <= oo2 ∧ entry_wf e2 ∧ options_ok e2.
Proof.
  intros Hv Heo Hoo HD H1 H2.
  apply entry_Deserialize_sound in HD as (Hwf & Hnil & Hn1 & Hn2 & -> & Hle); [|done|done].
  apply no_options in Hnil. assert (Hok : options_ok (set_options e [] [])) by apply (strip_ok e).
  rewrite Hnil in H1.
  destruct (read_options_sound _ grow_first _ _ _ _ _ _ _ _ (AddFirst_grow e) Hv Hoo Hok H1)
    as (Hoo1 & Hok1 & os1 & Hl1 & Hos1 & ->). rewrite foldl_first in *. cbn [fst snd] in *.
  rewrite app_nil_l in *.
  destruct (read_options_sound _ grow_second _ _ _ _ _ _ _ _ (AddSecond_grow e) Hv Hoo1 Hok1 H2)
    as (Hoo2 & Hok2 & os2 & Hl2 & Hos2 & ->). rewrite foldl_second in *. cbn [fst snd] in *.
  rewrite app_nil_l in *. split_and!; try done. apply set_options_wf; try done; lia.
Qed.

(** The loop finishes when the fuel covers what is left of the vector. *)
Lemma read_entries_defined fuel v eo emax oo acc :
  is_bytes v → 0 <= eo <= size v → 0 <= oo → size v < eo + 16 * Z.of_nat fuel →
  defined (read_entries fuel v eo emax oo acc).
Proof.
  intros Hv. revert eo oo acc. induction fuel as [|fuel IH]; intros eo oo acc Heo Hoo Hfuel;
    cbn [read_entries]; case_match; try done; [lia|].
  apply defined_bind; [apply entry_Deserialize_defined|]. intros [[[e n1] n2] eo'] He.
  apply defined_bind; [apply read_options_defined; intros; apply add_defined|]. intros [e1 oo1] H1.
  apply defined_bind; [apply read_options_defined; intros; apply add_defined|]. intros [e2 oo2] H2.
  destruct (read_entry_sound _ _ _ _ _ _ _ _ _ _ _ Hv (proj1 Heo) Hoo He H1 H2) as (-> & ? & ? & _).
  apply IH; lia.
Qed.

Lemma read_entries_sound fuel v eo emax oo acc m :
  is_bytes v → 0 <= eo → 0 <= oo → read_entries fuel v eo emax oo acc = Ok m →
  header m = header acc ∧ ∃ es, mEntries m = mEntries acc ++ es ∧
    Forall entry_wf es ∧ Forall options_ok es ∧
    (es = [] ∨ eo + 16 * Z.of_nat (length es) <= size v).
Proof.
  intros Hv. revert eo oo acc. induction fuel as [|fuel IH]; intros eo oo acc Heo Hoo;
    cbn [read_entries]; case_match; try done.
  1, 3: intros [= <-]; split; [done|exists []; rewrite app_nil_r; split_and!; auto].
  intros HR. apply bind_Ok in HR as ([[[e n1] n2] eo'] & He & HR).
  apply bind_Ok in HR as ([e1 oo1] & H1 & HR). apply bind_Ok in HR as ([e2 oo2] & H2 & HR).
  destruct (read_entry_sound _ _ _ _ _ _ _ _ _ _ _ Hv Heo Hoo He H1 H2) as (-> & ? & ? & Hwf & Hok).
  apply IH in HR as (Hh & es & Hes & Hwfs & Hoks & Hlen); [|lia|done].
  split; [done|]. exists (e2 :: es). cbn [AddEntry mEntries] in Hes. rewrite <- app_assoc in Hes.
  split; [done|]. split; [by apply Forall_cons|]. split; [by apply Forall_cons|]. right.
  destruct Hlen as [-> | ?]; cbn [length]; lia.
Qed.

End SdMessage_facts.

(** ** Properties *)

(** C1: a service-discovery message built from well-formed entries whose options
    obey the rules is read back from its payload, entries, options, flags and header
    alike, whatever bytes follow it. *)
Theorem sd_message_roundtrip m rest :
  SomeIpSdMessage.wf m →
  SomeIpSdMessage.Deserialize (SomeIpSdMessage.Payload m ++ rest) = Ok m.
Proof. apply SdMessage_facts.sd_Deserialize_app. Qed.

(** An offer with a TCP endpoint and a load-balancing option, and an acknowledged
    subscription with a multicast endpoint. *)
Definition example_offer : AnyEntry :=
  EService (ServiceEntry.mk (Entry.mk Offering
    [OIpv4Endpoint (Ipv4EndpointOption.CreateUnitcastEndpoint true (Ipv4.mk 192 168 0 1) Tcp 8080)]
    [OLoadBalancing (LoadBalancingOption.mk false 1 7)] 4660 1 1 3) 65537).
Definition example_ack : AnyEntry :=
  EEventgroup (EventgroupEntry.mk (Entry.mk Acknowledging
    [OIpv4Endpoint (Ipv4EndpointOption.mk IPv4Multicast true (Ipv4.mk 239 0 0 1) Udp 5555)] []
    4660 1 1 16777215) 0 9).
Definition example_message : SomeIpSdMessage.t :=
  SomeIpSdMessage.mk (SomeIpMessage.mk SomeIpSdMessage.cMessageId 0 7 1 1 Notification eOK) false
    [example_offer; example_ack].

Lemma example_message_wf : SomeIpSdMessage.wf example_message.
Proof.
  split; [by_eval|]. split; [by_eval|]. split; [|by_eval].
  repeat (apply Forall_cons; split); [by apply options_ok_decide|by apply options_ok_decide|apply Forall_nil_2].
Qed.

Lemma sd_message_roundtrip_witness :
  SomeIpSdMessage.wf example_message ∧
  SomeIpSdMessage.Deserialize (SomeIpSdMessage.Payload example_message ++ [1; 2; 3]) = Ok example_message.
Proof. split; [apply example_message_wf|apply sd_message_roundtrip, example_message_wf]. Defined.

(** The length field of a message is the number of bytes that follow it. *)
Theorem sd_length_correct m :
  SomeIpSdMessage.wf m →
  SomeIpSdMessage.Length m = size (SomeIpSdMessage.Payload m) - 8 ∧
  SomeIpSdMessage.Length m =
    20 + 16 * Z.of_nat (length (SomeIpSdMessage.mEntries m)) +
    SomeIpSdMessage.options_total (SomeIpSdMessage.mEntries m).
Proof.
  intros Hwf. rewrite SdMessage_facts.sd_size_Payload by done.
  split; [lia|by apply SdMessage_facts.Length_eq].
Qed.

Lemma sd_length_correct_witness :
  SomeIpSdMessage.Length example_message = size (SomeIpSdMessage.Payload example_message) - 8 ∧
  SomeIpSdMessage.Length example_message = 84.
Proof.
  destruct (sd_length_correct example_message example_message_wf) as [H1 H2].
  split; [exact H1|]. rewrite H2. by vm_compute.
Defined.

(** C35: on any vector of at least sixteen bytes, [Deserialize] neither reads out of
    bounds nor loops forever, and a message it returns has only well-formed entries
    whose options obey the rules and that fit into the vector. *)
Theorem sd_Deserialize_safe v :
  is_bytes v → 16 <= size v →
  defined (SomeIpSdMessage.Deserialize v) ∧
  ∀ m, SomeIpSdMessage.Deserialize v = Ok m →
    SomeIpMessage.wf (SomeIpSdMessage.header m) ∧
    Forall entry_wf (SomeIpSdMessage.mEntries m) ∧ Forall options_ok (SomeIpSdMessage.mEntries m) ∧
    24 + 16 * Z.of_nat (length (SomeIpSdMessage.mEntries m)) <= size v.
Proof.
  intros Hv Hsz. destruct (header_complete v Hv Hsz) as (h & len & Hh & Hlen & Hheld).
  destruct (header_Deserialize v h len Hh Hlen Hheld) as [HD _].
  unfold SomeIpSdMessage.Deserialize. rewrite HD. split.
  - repeat (apply defined_bind; [by defined_tac|intros ? ?]). destruct a1 as [flag o1]. simpl in *.
    apply defined_bind; [by defined_tac|]. intros reb _.
    apply ExtractInteger_Ok in H1 as (_ & -> & ?); [|done|lia].
    apply defined_bind; [by defined_tac|]. intros [el o2] He.
    apply ExtractInteger_Ok in He as (? & -> & ?); [|done|lia].
    apply SdMessage_facts.read_entries_defined; [done|lia|unfold is_u32 in *; lia|unfold size in *; lia].
  - intros m H. apply bind_Ok in H as (r & Hr & H). injection Hr as <-. rewrite Ok_bind in H.
    apply bind_Ok in H as ([flag o1] & E1 & H). apply bind_Ok in H as (reb & _ & H).
    apply bind_Ok in H as ([el o2] & E2 & H).
    apply ExtractInteger_Ok in E1 as (_ & -> & ?); [|done|lia].
    apply ExtractInteger_Ok in E2 as (? & -> & ?); [|done|lia].
    apply SdMessage_facts.read_entries_sound in H as (-> & es & -> & ? & ? & Hn);
      [|done|lia|unfold is_u32 in *; lia].
    cbn. split_and!; try done. destruct Hn as [-> | ?]; [cbn; lia|lia].
Qed.

Lemma sd_Deserialize_safe_witness :
  defined (SomeIpSdMessage.Deserialize (replicate 16 0 ++ [64;0;0;0; 0;0;0;16; 1;0;0;255])).
Proof.
  apply (sd_Deserialize_safe (replicate 16 0 ++ [64;0;0;0; 0;0;0;16; 1;0;0;255])); by_eval.
Defined.

(** The index field of the first options array, in the k-th entry of a payload. *)
Definition index_field (p : bytes) (k : nat) : outcome Z := at_ p (24 + 16 * Z.of_nat k + 1).

Lemma entries_bytes_index v es idx k off :
  Forall entry_wf es → is_u8 idx → (k < length es)%nat → holds v off (SdMessage_facts.entries_bytes es idx) →
  at_ v (off + 16 * Z.of_nat k + 1) =
    Ok (u8 (idx + 2 * Z.of_nat (length (SdMessage_facts.all_options (take k es))))).
Proof.
  intros Hwf. revert idx k off. induction Hwf as [|e es [He _] _ IH]; intros idx k off Hidx Hk H;
    [cbn in Hk; lia|].
  cbn [SdMessage_facts.entries_bytes] in H. apply holds_app in H as [H1 H2].
  rewrite size_entry in H2 by done. destruct k as [|k].
  - rewrite Payload_bytes in H1 by done. cbn [fst] in H1. unfold base_bytes in H1.
    rewrite <- app_assoc in H1. read_parts. f_equal. ulia.
  - specialize (IH _ k _ (u8_is _) ltac:(cbn in Hk; lia) H2).
    replace (off + 16 * Z.of_nat (S k) + 1) with (off + 16 + 16 * Z.of_nat k + 1) by lia.
    rewrite IH. f_equal. unfold SdMessage_facts.all_options. cbn [take map concat].
    rewrite length_app. ulia.
Qed.

(** The index of the first option of an entry counts every option of the entries
    before it twice, because [Entry::Payload] has already advanced the running index
    that the loop of [SomeIpSdMessage::Payload] increments again. *)
Theorem sd_option_index_doubled m k :
  SomeIpSdMessage.wf m → (k < length (SomeIpSdMessage.mEntries m))%nat →
  index_field (SomeIpSdMessage.Payload m) k =
    Ok (u8 (2 * Z.of_nat (length (concat (map options (take k (SomeIpSdMessage.mEntries m))))))).
Proof.
  intros Hwf Hk. unfold index_field. rewrite SdMessage_facts.sd_Payload_app by done.
  destruct Hwf as (_ & He & _).
  match goal with |- at_ ?w _ = _ => pose proof (holds_self w) as H end.
  apply holds_app in H as [_ H]. apply holds_app in H as [_ H].
  apply holds_app in H as [_ H]. apply holds_app in H as [H _].
  apply (entries_bytes_index _ _ _ k) in H; [|done|ulia|done]. rewrite Z.add_0_l in H. done.
Qed.

(** Both entries of the example: the second one's options start at index 2, and the
    payload says 4. *)
Lemma sd_option_index_doubled_witness :
  index_field (SomeIpSdMessage.Payload example_message) 1 = Ok 4 ∧
  length (options example_offer) = 2%nat.
Proof.
  split; [|reflexivity].
  rewrite (sd_option_index_doubled example_message 1 example_message_wf); [by vm_compute|by_eval].
Defined.
