(* ===== verification/SdNetwork.v ===== *)
(** * The service-discovery network layer: ara/com/someip/sd/sd_network_layer.cpp,
    ara/com/helper/network_layer.h

    Messages are queued, copied into a buffer of 256 bytes and sent whole, to the
    multicast group or to each unicast peer; datagrams that come from the right port and
    hold an SD message are deserialised for each receiver.  The codec of messages is that
    of SdMessage.v. *)

From S2P Require Import Prelude Payload Options Entries SomeIp SdMessage.
#[local] Open Scope Z_scope.

Module SdNetworkLayer.

(** [ara/com/someip/sd/sd_network_layer.cpp:14-15] cBufferSize *)
Definition cBufferSize : Z := 256.

(** [ara/com/someip/sd/sd_network_layer.h:27-39] SdNetworkLayer; [mReceiverCallbacks]
    (network_layer.h:21) is the receiving objects in the order of the map *)
Record t := mk {
  cMulticastGroup : string;
  cPort : Z;
  mUnicastPeers : list string;
  mSendingQueue : list bytes;
  mReceiverCallbacks : list nat
}.

(** [ara/com/someip/sd/sd_network_layer.cpp:17-48] SdNetworkLayer::SdNetworkLayer: whether
    the socket is set up and both callbacks are added to the poller *)
Definition construct (set_up receiver sender : bool) (multicastGroup : string) (port : Z) (unicastPeers : list string) :
    outcome t :=
  if negb set_up then Throw std_runtime_error
  else if negb receiver then Throw std_runtime_error
  else if negb sender then Throw std_runtime_error
  else Ok (mk multicastGroup port unicastPeers [] []).

(** [ara/com/helper/network_layer.h:49-52] SetReceiver: the map keeps one callback for each
    object, in the order of the objects *)
Fixpoint insert_receiver (object : nat) (objects : list nat) : list nat :=
  match objects with
  | [] => [object]
  | o :: objects' =>
      if (object =? o)%nat then objects
      else if (object <? o)%nat then object :: objects
      else o :: insert_receiver object objects'
  end.
Definition SetReceiver (object : nat) (l : t) : t :=
  mk (cMulticastGroup l) (cPort l) (mUnicastPeers l) (mSendingQueue l) (insert_receiver object (mReceiverCallbacks l)).

(** [ara/com/helper/network_layer.h:26-36] FireReceiverCallbacks: what each receiver is
    called with *)
Fixpoint FireReceiverCallbacks (receivers : list nat) (payload : bytes) : outcome (list (nat * SomeIpSdMessage.t)) :=
  match receivers with
  | [] => mret []
  | r :: receivers =>
      receivedMessage ← SomeIpSdMessage.Deserialize payload;
      rest ← FireReceiverCallbacks receivers payload;
      mret ((r, receivedMessage) :: rest)
  end.

(** [ara/com/someip/sd/sd_network_layer.cpp:50-80] onReceive: the bytes the socket wrote
    over the head of the buffer, and the port they come from; nothing is received when
    there are none *)
Definition onReceive (received buffer : bytes) (port : Z) (l : t) : outcome (list (nat * SomeIpSdMessage.t)) :=
  let buffer := received ++ drop (length received) buffer in
  let receivedSize := size received in
  if (0 <? receivedSize) && (port =? cPort l) then
    b0 ← index_ buffer 0;
    b1 ← index_ buffer 1;
    let serviceId := u16 (Z.lor (b0 ≪ 8) b1) in
    if negb (serviceId =? 65535) then mret []
    else
      requestPayload ← range_ buffer 0 receivedSize;
      FireReceiverCallbacks (mReceiverCallbacks l) requestPayload
  else mret [].

(** [ara/com/someip/sd/sd_network_layer.cpp:90-94] the buffer onSend builds: what the
    payload does not fill was not initialised, and copying past it is undefined *)
Definition datagram (payload buffer : bytes) : outcome bytes :=
  if size payload <=? cBufferSize then Ok (payload ++ drop (length payload) buffer) else Undefined.

(** [ara/com/someip/sd/sd_network_layer.cpp:82-109] onSend: what is sent, and where *)
Fixpoint send_all (l : t) (buffer : bytes) (queue : list bytes) : outcome (list (string * bytes)) :=
  match queue with
  | [] => mret []
  | payload :: queue =>
      d ← datagram payload buffer;
      rest ← send_all l buffer queue;
      mret (match mUnicastPeers l with [] => [(cMulticastGroup l, d)] | peers => map (fun p => (p, d)) peers end ++ rest)
  end.
Definition onSend (buffer : bytes) : M t (list (string * bytes)) := fun l =>
  (send_all l buffer (mSendingQueue l),
   mk (cMulticastGroup l) (cPort l) (mUnicastPeers l) [] (mReceiverCallbacks l)).

(** [ara/com/someip/sd/sd_network_layer.cpp:111-115] Send; [locked]: another thread holds
    the lock of the queue, and the message is dropped *)
Definition Send (locked : bool) (message : SomeIpSdMessage.t) (l : t) : t :=
  if locked then l
  else mk (cMulticastGroup l) (cPort l) (mUnicastPeers l) (mSendingQueue l ++ [SomeIpSdMessage.Payload message])
          (mReceiverCallbacks l).

(** Where a message is sent. *)
Definition destinations (l : t) : list string :=
  match mUnicastPeers l with [] => [cMulticastGroup l] | peers => peers end.

(** *** Lemmas *)

Lemma Fire_ok receivers payload m :
  SomeIpSdMessage.Deserialize payload = Ok m →
  FireReceiverCallbacks receivers payload = Ok ((fun r => (r, m)) <$> receivers).
Proof.
  intros Hd. induction receivers as [|r receivers IH]; [done|].
  cbn [FireReceiverCallbacks]. by rewrite Hd, Ok_bind, IH.
Qed.

Lemma send_all_ok l buffer queue :
  Forall (fun payload => size payload <= cBufferSize) queue →
  send_all l buffer queue =
    Ok (concat (map (fun payload => map (fun p => (p, payload ++ drop (length payload) buffer)) (destinations l)) queue)).
Proof.
  induction 1 as [|payload queue Hp Hq IH]; [done|]. cbn [send_all]. unfold datagram.
  rewrite (proj2 (Z.leb_le _ _) Hp), Ok_bind, IH, Ok_bind. unfold destinations. by destruct (mUnicastPeers l).
Qed.

Lemma onReceive_other received buffer port l :
  cPort l ≠ port → onReceive received buffer port l = Ok [].
Proof.
  intros Hne. unfold onReceive. cbv zeta.
  rewrite (proj2 (Z.eqb_neq port (cPort l))) by done. by rewrite andb_false_r.
Qed.

(** What a datagram that starts with the message id of service discovery is: all of it is
    deserialised, for each receiver. *)
Lemma onReceive_sd tail buffer l :
  onReceive (255 :: 255 :: tail) buffer (cPort l) l =
    FireReceiverCallbacks (mReceiverCallbacks l) (255 :: 255 :: tail).
Proof.
  unfold onReceive. cbv zeta. rewrite Z.eqb_refl.
  set (r := 255 :: 255 :: tail). set (b := r ++ _).
  assert (Hb : size b = size r + size (drop (length r) buffer)) by (unfold b; apply size_app).
  assert (Hr : 2 <= size r) by (unfold r, size; cbn [length]; lia).
  pose proof (size_nonneg (drop (length r) buffer)).
  rewrite (proj2 (Z.ltb_lt 0 (size r))) by lia. cbn [andb].
  unfold index_. rewrite !(proj2 (Z.ltb_lt _ (size b))) by lia.
  change (b !! Z.to_nat 0) with (Some 255). change (b !! Z.to_nat 1) with (Some 255). cbn [Z.leb Z.compare andb].
  rewrite !Ok_bind. change (negb (u16 (Z.lor (255 ≪ 8) 255) =? 65535)) with false. cbv iota.
  unfold range_. rewrite !(proj2 (Z.leb_le _ (size b))) by lia. rewrite !(proj2 (Z.leb_le 0 (size r))) by lia.
  cbn [Z.leb Z.compare andb]. rewrite Ok_bind. f_equal. unfold b, size.
  rewrite Z.sub_0_r, Nat2Z.id. change (drop (Z.to_nat 0) ?x) with x. apply take_app_length.
Qed.

Lemma sd_Payload_head m :
  SomeIpSdMessage.wf m → SomeIpMessage.mMessageId (SomeIpSdMessage.header m) = SomeIpSdMessage.cMessageId →
  ∃ tail, SomeIpSdMessage.Payload m = 255 :: 255 :: tail.
Proof.
  intros Hwf Hid. rewrite SdMessage_facts.sd_Payload_app by done. unfold header_bytes, integer_bytes at 1.
  rewrite Hid. eexists. reflexivity.
Qed.

(** A message that was padded with whatever the buffer held. *)
Lemma onReceive_padded m pad buffer l :
  SomeIpSdMessage.wf m → SomeIpMessage.mMessageId (SomeIpSdMessage.header m) = SomeIpSdMessage.cMessageId →
  onReceive (SomeIpSdMessage.Payload m ++ pad) buffer (cPort l) l = Ok ((fun r => (r, m)) <$> mReceiverCallbacks l).
Proof.
  intros Hwf Hid. pose proof (SdMessage_facts.sd_Deserialize_app m pad Hwf) as HD.
  destruct (sd_Payload_head m Hwf Hid) as [tail Ht]. revert HD. rewrite Ht. cbn [app]. intros HD.
  rewrite onReceive_sd. by apply Fire_ok.
Qed.

Lemma Send_all ms l :
  foldl (fun l m => Send false m l) l ms =
    mk (cMulticastGroup l) (cPort l) (mUnicastPeers l) (mSendingQueue l ++ (SomeIpSdMessage.Payload <$> ms))
       (mReceiverCallbacks l).
Proof.
  revert l. induction ms as [|m ms IH]; intros l; cbn [foldl fmap list_fmap].
  - rewrite app_nil_r. by destruct l.
  - rewrite IH. cbn. by rewrite <- app_assoc.
Qed.

Lemma send_all_too_long l buffer queue :
  Exists (fun payload => cBufferSize < size payload) queue → send_all l buffer queue = Undefined.
Proof.
  induction 1 as [payload queue Hp|payload queue Hq IH]; cbn [send_all]; unfold datagram.
  - by rewrite (proj2 (Z.leb_gt _ _) Hp).
  - destruct (_ <=? _); [|done]. by rewrite Ok_bind, IH.
Qed.

(** The messages a layer hands to the network, each to each of its destinations. *)
Definition addressed (ms : list SomeIpSdMessage.t) (l : t) : list (string * SomeIpSdMessage.t) :=
  concat (map (fun m => map (fun p => (p, m)) (destinations l)) ms).

(** A datagram carries a message when it fills the sender's buffer and every layer on the
    same port, whatever its own buffer holds, calls each of its receivers with it. *)
Definition carries (port : Z) (a : string * SomeIpSdMessage.t) (d : string * bytes) : Prop :=
  a.1 = d.1 ∧ size d.2 = cBufferSize ∧
  ∀ l' buffer, onReceive d.2 buffer port l' =
    Ok (if port =? cPort l' then (fun r => (r, a.2)) <$> mReceiverCallbacks l' else []).

Lemma padded_carries m pad p port :
  SomeIpSdMessage.wf m → SomeIpMessage.mMessageId (SomeIpSdMessage.header m) = SomeIpSdMessage.cMessageId →
  size (SomeIpSdMessage.Payload m ++ pad) = cBufferSize →
  carries port (p, m) (p, SomeIpSdMessage.Payload m ++ pad).
Proof.
  intros Hwf Hid Hsz. split; [done|]. split; [done|]. intros l' buffer. cbn [fst snd].
  destruct (Z.eqb_spec port (cPort l')) as [->|Hne]; [by apply onReceive_padded|].
  by apply onReceive_other.
Qed.

End SdNetworkLayer.

(** ** Properties *)

Section Network.
Import SdNetworkLayer.

(** C8: service-discovery messages cross the network.  However many well-formed messages
    are handed to an idle layer, one pass of its sender hands each, in order, to the
    multicast group or to each unicast peer, as a datagram of 256 bytes; a layer on the
    same port that gets the datagram calls each of its receivers with exactly that message,
    whatever was in both buffers, and a layer on another port calls none.  The queue is
    empty again.  This needs every message to fit in 256 bytes: a single one that does not
    makes the pass write past its buffer. *)
Theorem sd_messages_cross_the_network ms l buffer :
  mSendingQueue l = [] → size buffer = cBufferSize →
  Forall (fun m => SomeIpSdMessage.wf m ∧
                   SomeIpMessage.mMessageId (SomeIpSdMessage.header m) = SomeIpSdMessage.cMessageId) ms →
  let (sent, l') := onSend buffer (foldl (fun l m => Send false m l) l ms) in
  l' = l ∧
  (Forall (fun m => size (SomeIpSdMessage.Payload m) <= cBufferSize) ms →
     ∃ datagrams, sent = Ok datagrams ∧ Forall2 (carries (cPort l)) (addressed ms l) datagrams) ∧
  (Exists (fun m => cBufferSize < size (SomeIpSdMessage.Payload m)) ms → sent = Undefined).
Proof.
  intros Hq Hb Hms. rewrite Send_all. unfold onSend. rewrite Hq. cbn [app mSendingQueue cMulticastGroup cPort
    mUnicastPeers mReceiverCallbacks]. split; [by destruct l; cbn in Hq; rewrite Hq|]. split.
  - intros Hfit. rewrite send_all_ok by (by apply Forall_fmap). eexists. split; [done|].
    unfold addressed, destinations. cbn [cMulticastGroup mUnicastPeers]. fold (destinations l).
    induction Hms as [|m ms [Hwf Hid] Hms IH]; [constructor|]. apply Forall_cons in Hfit as [Hf Hfit].
    cbn [map concat fmap list_fmap]. apply Forall2_app; [|by apply IH].
    apply Forall2_fmap_2, Forall_Forall2_diag, Forall_true. intros p. apply padded_carries; [done..|].
    rewrite size_app. unfold size at 2. rewrite length_drop. unfold size in *. lia.
  - intros Hlong. apply send_all_too_long. by apply Exists_fmap.
Qed.

Definition example_layer : t := mk "239.0.0.1" 5555 ["10.0.0.1"%string; "10.0.0.2"%string] [] [1%nat; 4%nat].

Lemma sd_messages_cross_the_network_witness :
  ∃ datagrams,
    (onSend (repeat 7 256) (foldl (fun l m => Send false m l) example_layer [example_message; example_message])).1 =
      Ok datagrams ∧
    Forall2 (carries 5555)
      [("10.0.0.1", example_message); ("10.0.0.2", example_message);
       ("10.0.0.1", example_message); ("10.0.0.2", example_message)] datagrams.
Proof.
  pose proof (sd_messages_cross_the_network [example_message; example_message] example_layer (repeat 7 256)
    eq_refl eq_refl
    ltac:(repeat (apply Forall_cons; split; [by split; [apply example_message_wf|]|]); apply Forall_nil_2)) as H.
  destruct (onSend _ _) as [sent l'] eqn:E. destruct H as (_ & H & _).
  apply H. repeat (apply Forall_cons; split; [by vm_compute|]). apply Forall_nil_2.
Defined.

End Network.
