(* ===== verification/Rpc.v ===== *)
(** * Remote procedure calls: ara/com/someip/rpc

    The RPC client and server (rpc_client.cpp, rpc_server.cpp) and the TCP framing
    of their socket implementations (socket_rpc_client.cpp, socket_rpc_server.cpp).
    Handlers are the application's code: a handler is any function with an
    application state [W], and may throw.  The theorems: the server's answer on
    every branch as the client decodes it, the session identifiers of the client,
    and that the reassembly of messages from TCP reads does not depend on how the
    stream was cut. *)

From S2P Require Import Prelude Payload SomeIp.

(** [static_cast<uint32_t>(serviceId << 16)] or-ed with the method. *)
Definition message_id (serviceId methodId : Z) : Z := Z.lor (u32 (serviceId ≪ 16)) methodId.

Module RpcServer.
Section RpcServer.
Context {W : Type}.

(** [ara/com/someip/rpc/rpc_server.h:27-28] HandlerType: the result and the response
    it has written *)
Definition HandlerType : Type := bytes → M W (bool * bytes).

(** [ara/com/someip/rpc/rpc_server.h:30-34] RpcServer *)
Record t := mk {
  mProtocolVersion : Z;
  mInterfaceVersion : Z;
  mServices : gset Z;
  mHandlers : gmap Z HandlerType
}.

(** [ara/com/someip/rpc/rpc_server.cpp:14-18] RpcServer::RpcServer *)
Definition construct (protocolVersion interfaceVersion : Z) : t :=
  mk protocolVersion interfaceVersion ∅ ∅.

(** [ara/com/someip/rpc/rpc_server.cpp:20-45] validate *)
Definition validate (srv : t) (request : SomeIpRpcMessage.t) : Z :=
  let h := SomeIpRpcMessage.header request in
  if negb (SomeIpMessage.mMessageType h =? Request) then eWrongMessageType
  else if negb (SomeIpMessage.mProtocolVersion h =? mProtocolVersion srv) then eWrongProtocolVersion
  else if negb (SomeIpMessage.mInterfaceVersion h =? mInterfaceVersion srv) then eWrongInterfaceVersion
  else
    let serviceId := u16 (SomeIpMessage.mMessageId h ≫ 16) in
    if bool_decide (serviceId ∈ mServices srv) then eOK else eUnknownService.

(** [ara/com/someip/rpc/rpc_server.cpp:47-63] getResponsePayload *)
Definition getResponsePayload (srv : t) (request : SomeIpRpcMessage.t) (returnCode : Z)
    (rpcPayload : bytes) : outcome bytes :=
  let h := SomeIpRpcMessage.header request in
  errorMessage ← SomeIpRpcMessage.construct_response
    (SomeIpMessage.mMessageId h) (SomeIpMessage.mClientId h) (SomeIpMessage.mSessionId h)
    (mProtocolVersion srv) (mInterfaceVersion srv) returnCode rpcPayload;
  mret (SomeIpRpcMessage.Payload errorMessage).

(** [ara/com/someip/rpc/rpc_server.cpp:74-126] TryInvokeHandler: the response when it
    returns true; when it returns false the response is untouched *)
Definition TryInvokeHandler (srv : t) (requestPayload : bytes) : M W (option bytes) :=
  catch_out_of_range
    (request ← lift (SomeIpRpcMessage.Deserialize requestPayload);
     let returnCode := validate srv request in
     if negb (returnCode =? eOK) then
       r ← lift (getResponsePayload srv request returnCode []); mret (Some r)
     else
       match mHandlers srv !! SomeIpMessage.mMessageId (SomeIpRpcMessage.header request) with
       | Some handler =>
           '(handled, rpcResponsePdu) ← handler (SomeIpRpcMessage.mRpcPayload request);
           if (handled : bool) then
             r ← lift (getResponsePayload srv request eOK rpcResponsePdu); mret (Some r)
           else
             r ← lift (getResponsePayload srv request eNotOk rpcResponsePdu); mret (Some r)
       | None =>
           r ← lift (getResponsePayload srv request eUnknownMethod []); mret (Some r)
       end)
    (mret None).

(** [ara/com/someip/rpc/rpc_server.cpp:128-136] SetHandler *)
Definition SetHandler (srv : t) (serviceId methodId : Z) (handler : HandlerType) : t :=
  mk (mProtocolVersion srv) (mInterfaceVersion srv) ({[ serviceId ]} ∪ mServices srv)
     (<[ message_id serviceId methodId := handler ]> (mHandlers srv)).

End RpcServer.
Arguments t W : clear implicits.
Arguments HandlerType W : clear implicits.
End RpcServer.

Module RpcClient.
Section RpcClient.
Context {W : Type}.

(** [ara/com/someip/rpc/rpc_client.h:24-24] HandlerType *)
Definition HandlerType : Type := SomeIpRpcMessage.t → M W ().

(** [ara/com/someip/rpc/rpc_client.h:26-30] RpcClient *)
Record t := mk {
  mProtocolVersion : Z;
  mInterfaceVersion : Z;
  mSessionIds : gmap Z Z;
  mHandlers : gmap Z HandlerType
}.

(** [ara/com/someip/rpc/rpc_client.cpp:13-18] RpcClient::RpcClient *)
Definition construct (protocolVersion interfaceVersion : Z) : t :=
  mk protocolVersion interfaceVersion ∅ ∅.

(** [ara/com/someip/rpc/rpc_client.cpp:20-37] InvokeHandler *)
Definition InvokeHandler (cl : t) (payload : bytes) : M W () :=
  catch_out_of_range
    (message ← lift (SomeIpRpcMessage.Deserialize payload);
     match mHandlers cl !! SomeIpMessage.mMessageId (SomeIpRpcMessage.header message) with
     | Some handler => handler message
     | None => mret ()
     end)
    (mret ()).

(** [ara/com/someip/rpc/rpc_client.cpp:39-45] SetHandler *)
Definition SetHandler (cl : t) (serviceId methodId : Z) (handler : HandlerType) : t :=
  mk (mProtocolVersion cl) (mInterfaceVersion cl) (mSessionIds cl)
     (<[ message_id serviceId methodId := handler ]> (mHandlers cl)).

(** [ara/com/someip/rpc/rpc_client.cpp:47-75] Send: the payload given to the virtual
    [Send], and the client with its next session identifier *)
Definition Send (serviceId methodId clientId : Z) (rpcPayload : bytes) : M t bytes :=
  cl ← get;
  let messageId := message_id serviceId methodId in
  let sessionId := match mSessionIds cl !! messageId with Some s => s | None => 1 end in
  request ← lift (SomeIpRpcMessage.construct_request messageId clientId sessionId
                    (mProtocolVersion cl) (mInterfaceVersion cl) rpcPayload);
  let '(_, h) := SomeIpMessage.IncrementSessionId (SomeIpRpcMessage.header request) in
  modify (fun cl => mk (mProtocolVersion cl) (mInterfaceVersion cl)
            (<[ messageId := SomeIpMessage.mSessionId h ]> (mSessionIds cl)) (mHandlers cl));;
  mret (SomeIpRpcMessage.Payload request).

End RpcClient.
Arguments t W : clear implicits.
Arguments HandlerType W : clear implicits.
End RpcClient.

(** ** TCP framing: the receive callbacks of both socket classes *)
Section Framing.
Context {S : Type}.
Variable handle : bytes → M S ().

(** [ara/com/someip/rpc/socket_rpc_client.cpp:98-128] the reassembly loop; the state
    is the receive buffer and the state of the object that handles the messages *)
Fixpoint receive_loop (fuel : nat) : M (bytes * S) () := fun '(buffer, s) =>
  if size buffer <? 8 then (Ok (), (buffer, s))
  else
    match ExtractInteger buffer 4 with
    | Ok (length, _) =>
        let totalSize := 8 + length in
        if size buffer <? totalSize then (Ok (), (buffer, s))
        else
          match fuel with
          | O => (OutOfFuel, (buffer, s))
          | Datatypes.S fuel =>
              match range_ buffer 0 totalSize with
              | Ok message =>
                  let buffer := drop (Z.to_nat totalSize) buffer in
                  match handle message s with
                  | (Ok _, s) => receive_loop fuel (buffer, s)
                  | (r, s) => (r, (buffer, s))
                  end
              | Throw e => (Throw e, (buffer, s))
              | Undefined => (Undefined, (buffer, s))
              | OutOfFuel => (OutOfFuel, (buffer, s))
              end
          end
    | Throw e => (Throw e, (buffer, s))
    | Undefined => (Undefined, (buffer, s))
    | OutOfFuel => (OutOfFuel, (buffer, s))
    end.

(** [ara/com/someip/rpc/socket_rpc_client.cpp:78-129] onReceive, given what the socket
    returned; every message takes at least eight bytes of the buffer *)
Definition receive_chunk (received : bytes) : M (bytes * S) () := fun '(buffer, s) =>
  if size received <=? 0 then (Ok (), (buffer, s))
  else
    let buffer := buffer ++ received in
    receive_loop (length buffer) (buffer, s).

End Framing.

Module SocketRpcServer.
Section SocketRpcServer.
Context {W : Type}.

(** [ara/com/someip/rpc/socket_rpc_server.h:20-34] SocketRpcServer: what a callback
    changes besides the receive buffer is the queue of responses and the
    application *)
Record State := mkState {
  mSendingQueue : list bytes;
  world : W
}.

(** [ara/com/someip/rpc/socket_rpc_server.cpp:134-140] the message handling of
    onReceive; [TryEnqueue] succeeds when the queue's mutex is free *)
Definition handle (srv : RpcServer.t W) (message : bytes) : M State () := fun s =>
  match RpcServer.TryInvokeHandler srv message (world s) with
  | (Ok (Some responsePayload), w) => (Ok (), mkState (mSendingQueue s ++ [responsePayload]) w)
  | (Ok None, w) => (Ok (), mkState (mSendingQueue s) w)
  | (Throw e, w) => (Throw e, mkState (mSendingQueue s) w)
  | (Undefined, w) => (Undefined, mkState (mSendingQueue s) w)
  | (OutOfFuel, w) => (OutOfFuel, mkState (mSendingQueue s) w)
  end.

(** [ara/com/someip/rpc/socket_rpc_server.cpp:83-142] onReceive: an empty read runs the
    disconnect handler and leaves the receive buffer as it is *)
Definition onReceive (srv : RpcServer.t W) (disconnect : option (M W ())) (received : bytes) :
    M (bytes * State) () := fun '(buffer, s) =>
  if size received <=? 0 then
    match disconnect with
    | Some d => let (r, w) := d (world s) in (r, (buffer, mkState (mSendingQueue s) w))
    | None => (Ok (), (buffer, s))
    end
  else receive_chunk (handle srv) received (buffer, s).

(** [ara/com/someip/rpc/socket_rpc_server.cpp:144-162] onSend: the payloads handed to
    the socket, and the emptied queue *)
Definition onSend (s : State) : list bytes * State :=
  (filter (fun p => p ≠ []) (mSendingQueue s), mkState [] (world s)).

End SocketRpcServer.
Arguments State W : clear implicits.
End SocketRpcServer.

(** ** Lemmas: framing *)

(** The complete messages at the start of a buffer, and what is left. *)
Fixpoint split_frames (fuel : nat) (buffer : bytes) : list bytes * bytes :=
  if size buffer <? 8 then ([], buffer)
  else
    let totalSize := 8 + RpcMessage_facts.length_field buffer in
    if size buffer <? totalSize then ([], buffer)
    else
      match fuel with
      | O => ([], buffer)
      | S fuel =>
          let '(fs, r) := split_frames fuel (drop (Z.to_nat totalSize) buffer) in
          (take (Z.to_nat totalSize) buffer :: fs, r)
      end.

Definition frames (buffer : bytes) : list bytes * bytes := split_frames (length buffer) buffer.

Lemma length_field_bound v : is_bytes v → 8 <= size v →
  is_u32 (RpcMessage_facts.length_field v) ∧
  ExtractInteger v 4 = Ok (RpcMessage_facts.length_field v, 8).
Proof.
  intros Hv Hs. unfold RpcMessage_facts.length_field. extract_at ExtractInteger_spec v 4. done.
Qed.

Lemma length_field_app v w : is_bytes (v ++ w) → 8 <= size v →
  RpcMessage_facts.length_field (v ++ w) = RpcMessage_facts.length_field v.
Proof.
  intros Hvw Hs. assert (Hv : is_bytes v) by (by apply Forall_app in Hvw as [? _]).
  unfold RpcMessage_facts.length_field at 2. extract_at ExtractInteger_spec v 4.
  unfold RpcMessage_facts.length_field. rewrite (ExtractInteger_holds _ 4 z); [done|done|].
  destruct H0 as (pre & post & -> & Hpre). exists pre, (post ++ w). by rewrite <- !app_assoc.
Qed.

Lemma drop_size v n : 0 <= n <= size v → size (drop (Z.to_nat n) v) = size v - n.
Proof. unfold size. rewrite length_drop. lia. Qed.

Lemma take_size v n : 0 <= n <= size v → size (take (Z.to_nat n) v) = n.
Proof. unfold size. rewrite length_take. lia. Qed.

(** More fuel than the buffer is long makes no difference. *)
Lemma split_frames_fuel f1 f2 buffer :
  is_bytes buffer → (length buffer <= f1)%nat → (length buffer <= f2)%nat →
  split_frames f1 buffer = split_frames f2 buffer.
Proof.
  revert f2 buffer. induction f1 as [|f1 IH]; intros f2 buffer Hb H1 H2.
  { destruct buffer; [|cbn in H1; lia]. by destruct f2. }
  destruct f2 as [|f2]; [destruct buffer; [done|cbn in H2; lia]|]. cbn [split_frames].
  destruct (size buffer <? 8) eqn:H8; [done|]. cbv zeta. destruct (size buffer <? _) eqn:Ht; [done|].
  destruct (length_field_bound buffer Hb ltac:(lia)) as [Hlen _].
  rewrite (IH f2); [done|by apply Forall_drop|rewrite length_drop; ulia|rewrite length_drop; ulia].
Qed.

Lemma frames_incomplete buffer :
  is_bytes buffer → size buffer < 8 + (if size buffer <? 8 then 0 else RpcMessage_facts.length_field buffer) →
  frames buffer = ([], buffer).
Proof.
  intros Hb H. unfold frames. destruct buffer as [|x buffer]; [done|]. cbn [split_frames length].
  destruct (size (x :: buffer) <? 8) eqn:H8; [done|]. cbv zeta. by rewrite (proj2 (Z.ltb_lt _ _)) by lia.
Qed.

Lemma frames_complete buffer :
  is_bytes buffer → 8 <= size buffer → 8 + RpcMessage_facts.length_field buffer <= size buffer →
  let n := Z.to_nat (8 + RpcMessage_facts.length_field buffer) in
  frames buffer = (take n buffer :: fst (frames (drop n buffer)), snd (frames (drop n buffer))).
Proof.
  intros Hb H8 Ht n. unfold frames at 1.
  destruct (length_field_bound buffer Hb H8) as [Hlen _].
  destruct (length buffer) as [|k] eqn:Hk; [unfold size in H8; lia|]. cbn [split_frames].
  rewrite (proj2 (Z.ltb_ge _ _)) by lia. cbv zeta. rewrite (proj2 (Z.ltb_ge _ _)) by lia. fold n.
  unfold frames. rewrite (split_frames_fuel k (length (drop n buffer)));
    [|by apply Forall_drop|rewrite length_drop; unfold n; ulia|lia].
  by destruct (split_frames _ (drop n buffer)).
Qed.

(** Later bytes extend the remainder and leave the complete messages alone. *)
Lemma frames_app b c :
  is_bytes (b ++ c) →
  frames (b ++ c) =
    (fst (frames b) ++ fst (frames (snd (frames b) ++ c)), snd (frames (snd (frames b) ++ c))).
Proof.
  remember (length b) as n eqn:Hn. revert b Hn.
  induction n as [n IH] using lt_wf_ind. intros b Hn Hbc.
  assert (Hb : is_bytes b) by (by apply Forall_app in Hbc as [? _]).
  destruct (Z.lt_ge_cases (size b) (8 + (if size b <? 8 then 0 else RpcMessage_facts.length_field b)))
    as [Hinc|Hcomp].
  { rewrite (frames_incomplete b) by done. cbn [fst snd app]. apply surjective_pairing. }
  destruct (size b <? 8) eqn:H8; [lia|].
  destruct (length_field_bound b Hb ltac:(lia)) as [Hlen _]. pose proof (size_nonneg c).
  assert (Hlf : RpcMessage_facts.length_field (b ++ c) = RpcMessage_facts.length_field b)
    by (apply length_field_app; [done|lia]).
  rewrite (frames_complete b) by (done || lia).
  rewrite (frames_complete (b ++ c)) by (rewrite ?Hlf, ?size_app; done || lia).
  rewrite Hlf. cbn [fst snd]. set (k := Z.to_nat (8 + RpcMessage_facts.length_field b)).
  assert (Hk : (8 <= k <= length b)%nat) by (unfold k, size, is_u32 in *; lia).
  rewrite take_app_le, drop_app_le by lia.
  rewrite (IH (length (drop k b))); [done|rewrite length_drop; lia|done|].
  rewrite <- drop_app_le by lia. by apply Forall_drop.
Qed.

(** Splitting loses nothing and leaves no complete message behind. *)
Lemma frames_sound b :
  is_bytes b →
  b = concat (fst (frames b)) ++ snd (frames b) ∧ frames (snd (frames b)) = ([], snd (frames b)).
Proof.
  remember (length b) as n eqn:Hn. revert b Hn.
  induction n as [n IH] using lt_wf_ind. intros b Hn Hb.
  destruct (Z.lt_ge_cases (size b) (8 + (if size b <? 8 then 0 else RpcMessage_facts.length_field b)))
    as [Hinc|Hcomp].
  { pose proof (frames_incomplete b Hb Hinc) as E. rewrite E. cbn [fst snd concat app]. by rewrite E. }
  destruct (size b <? 8) eqn:H8; [lia|].
  destruct (length_field_bound b Hb ltac:(lia)) as [Hlen _].
  rewrite frames_complete by (done || lia). cbn [fst snd concat].
  set (k := Z.to_nat (8 + RpcMessage_facts.length_field b)).
  assert (Hk : (8 <= k <= length b)%nat) by (unfold k, size, is_u32 in *; lia).
  destruct (IH (length (drop k b)) ltac:(rewrite length_drop; lia) (drop k b) eq_refl) as [H1 H2];
    [by apply Forall_drop|]. split; [|done].
  rewrite <- app_assoc, <- H1. by rewrite take_drop.
Qed.

(** The messages a stream of payloads splits into. *)
Lemma frames_payload m rest :
  SomeIpRpcMessage.wf m → is_bytes rest →
  frames (SomeIpRpcMessage.Payload m ++ rest) =
    (SomeIpRpcMessage.Payload m :: fst (frames rest), snd (frames rest)).
Proof.
  intros Hwf Hrest. pose proof (RpcMessage_facts.Payload_is_bytes m Hwf) as Hp.
  pose proof (RpcMessage_facts.size_Payload m Hwf) as Hs. pose proof (size_nonneg rest).
  pose proof (RpcMessage_facts.Length_wf m Hwf) as HL.
  pose proof (size_nonneg (SomeIpRpcMessage.mRpcPayload m)).
  assert (Hlf : RpcMessage_facts.length_field (SomeIpRpcMessage.Payload m ++ rest) = SomeIpRpcMessage.Length m).
  { unfold RpcMessage_facts.length_field.
    destruct Hwf as (Hh & _ & ?).
    destruct (header_Deserialize (SomeIpRpcMessage.Payload m ++ rest) (SomeIpRpcMessage.header m)
      (SomeIpRpcMessage.Length m)) as [_ ->]; [done|rewrite HL; ulia| |done].
    rewrite RpcMessage_facts.Payload_app, <- app_assoc. by eexists [], _. }
  rewrite frames_complete by (rewrite ?Hlf, ?size_app; first [lia | by apply is_bytes_app]).
  rewrite Hlf.
  replace (Z.to_nat (8 + SomeIpRpcMessage.Length m)) with (length (SomeIpRpcMessage.Payload m))
    by (unfold size in Hs; lia).
  by rewrite take_app_length, drop_app_length.
Qed.

Lemma frames_stream ms :
  Forall SomeIpRpcMessage.wf ms →
  frames (concat (map SomeIpRpcMessage.Payload ms)) = (map SomeIpRpcMessage.Payload ms, []) ∧
  is_bytes (concat (map SomeIpRpcMessage.Payload ms)).
Proof.
  induction 1 as [|m ms Hm _ [IH Hb]]; [split; [done|apply is_bytes_nil]|]. cbn [map concat].
  rewrite frames_payload, IH by done. split; [done|].
  apply is_bytes_app; [by apply RpcMessage_facts.Payload_is_bytes|done].
Qed.

Section Framing_facts.
Context {S : Type}.
Variable handle : bytes → M S ().

Fixpoint run_all (ms : list bytes) : M S () :=
  match ms with [] => mret () | m :: ms => handle m;; run_all ms end.

Fixpoint feed (chunks : list bytes) : M (bytes * S) () :=
  match chunks with [] => mret () | c :: cs => receive_chunk handle c;; feed cs end.

Lemma run_all_app ms ms' s :
  run_all (ms ++ ms') s = (run_all ms;; run_all ms') s.
Proof.
  revert s. induction ms as [|m ms IH]; intros s; [done|]. cbn [app run_all].
  unfold mbind, M_bind in *. by destruct (handle m s) as [[] ?]; rewrite ?IH.
Qed.

(** The loop handles the complete messages and keeps the rest. *)
Lemma receive_loop_frames fuel buffer s s' :
  is_bytes buffer → (length buffer <= fuel)%nat →
  run_all (fst (frames buffer)) s = (Ok (), s') →
  receive_loop handle fuel (buffer, s) = (Ok (), (snd (frames buffer), s')).
Proof.
  revert buffer s. induction fuel as [|fuel IH]; intros buffer s Hb Hf Hrun.
  { destruct buffer; [|cbn in Hf; lia]. cbn in Hrun. by injection Hrun as <-. }
  cbn [receive_loop].
  destruct (Z.lt_ge_cases (size buffer) (8 + (if size buffer <? 8 then 0 else RpcMessage_facts.length_field buffer)))
    as [Hinc|Hcomp].
  { rewrite frames_incomplete in * by done. cbn in Hrun. injection Hrun as <-.
    destruct (size buffer <? 8) eqn:H8; [done|].
    destruct (length_field_bound buffer Hb ltac:(lia)) as [_ ->]. cbv zeta.
    by rewrite (proj2 (Z.ltb_lt _ _)) by lia. }
  destruct (size buffer <? 8) eqn:H8; [lia|].
  destruct (length_field_bound buffer Hb ltac:(lia)) as [Hlen ->]. cbv zeta.
  rewrite (proj2 (Z.ltb_ge _ _)) by lia.
  rewrite range_cases by ulia. rewrite (proj2 (Z.leb_le _ _)) by lia. rewrite (proj2 (Z.leb_le _ _)) by ulia.
  rewrite frames_complete in * by (done || lia). cbn [fst snd run_all] in *.
  rewrite drop_0, Z.sub_0_r.
  set (k := Z.to_nat (8 + RpcMessage_facts.length_field buffer)) in *.
  unfold mbind, M_bind in Hrun. destruct (handle (take k buffer) s) as [[] s1]; try done.
  apply IH; [by apply Forall_drop|rewrite length_drop; unfold k; ulia|done].
Qed.

(** However the stream is cut, the same messages are handled. *)
Lemma feed_frames chunks r s s' :
  is_bytes (r ++ concat chunks) → frames r = ([], r) →
  run_all (fst (frames (r ++ concat chunks))) s = (Ok (), s') →
  feed chunks (r, s) = (Ok (), (snd (frames (r ++ concat chunks)), s')).
Proof.
  revert r s. induction chunks as [|c cs IH]; intros r s Hb Hr Hrun; cbn [feed concat] in *.
  { rewrite app_nil_r in *. rewrite Hr in *. cbn in *. by injection Hrun as <-. }
  rewrite app_assoc in *. unfold mbind, M_bind, receive_chunk.
  destruct (size c <=? 0) eqn:Hc.
  { destruct c as [|x c]; [|rewrite size_cons in Hc; pose proof (size_nonneg c); lia].
    rewrite app_nil_r in *. by apply IH. }
  assert (Hrc : is_bytes (r ++ c)) by (by apply Forall_app in Hb as [? _]).
  rewrite (frames_app (r ++ c)) in Hrun |- * by done. cbn [fst snd] in *.
  rewrite run_all_app in Hrun. unfold mbind, M_bind in Hrun.
  destruct (run_all (fst (frames (r ++ c))) s) as [[[]| | |] s1] eqn:Hrun1; try done.
  rewrite (receive_loop_frames _ (r ++ c) s s1) by done.
  destruct (frames_sound (r ++ c) Hrc) as [Hsplit Hnone].
  apply IH; [|done|done]. rewrite Hsplit, <- app_assoc in Hb. by apply Forall_app in Hb as [_ Hb].
Qed.

End Framing_facts.

(** ** Lemmas: the server *)
Section Server_facts.
Context {W : Type}.
Implicit Types (srv : RpcServer.t W) (m : SomeIpRpcMessage.t) (w : W).

(** The message a server answers [m] with. *)
Definition reply srv m (returnCode : Z) (rpcPayload : bytes) : SomeIpRpcMessage.t :=
  let h := SomeIpRpcMessage.header m in
  SomeIpRpcMessage.mk
    (SomeIpMessage.mk (SomeIpMessage.mMessageId h) (SomeIpMessage.mClientId h) (SomeIpMessage.mSessionId h)
       (RpcServer.mProtocolVersion srv) (RpcServer.mInterfaceVersion srv)
       (if returnCode =? eOK then Response else Error) returnCode) rpcPayload.

Lemma getResponsePayload_reply srv m rc p :
  RpcServer.getResponsePayload srv m rc p = Ok (SomeIpRpcMessage.Payload (reply srv m rc p)).
Proof.
  unfold RpcServer.getResponsePayload, SomeIpRpcMessage.construct_response,
    SomeIpMessage.construct_response, reply.
  by destruct (rc =? eOK).
Qed.

Lemma TryInvokeHandler_eq srv m rest w :
  SomeIpRpcMessage.wf m →
  RpcServer.TryInvokeHandler srv (SomeIpRpcMessage.Payload m ++ rest) w =
    let answer rc p := Ok (Some (SomeIpRpcMessage.Payload (reply srv m rc p))) in
    let rc := RpcServer.validate srv m in
    if negb (rc =? eOK) then (answer rc [], w)
    else
      match RpcServer.mHandlers srv !! SomeIpMessage.mMessageId (SomeIpRpcMessage.header m) with
      | None => (answer eUnknownMethod [], w)
      | Some h =>
          match h (SomeIpRpcMessage.mRpcPayload m) w with
          | (Ok (handled, pdu), w') => (answer (if handled : bool then eOK else eNotOk) pdu, w')
          | (Throw std_out_of_range, w') => (Ok None, w')
          | (Throw e, w') => (Throw e, w')
          | (Undefined, w') => (Undefined, w')
          | (OutOfFuel, w') => (OutOfFuel, w')
          end
      end.
Proof.
  intros Hwf. unfold RpcServer.TryInvokeHandler, catch_out_of_range.
  rewrite RpcMessage_facts.Deserialize_app by done. run. cbv zeta.
  destruct (negb _); [by rewrite getResponsePayload_reply|].
  destruct (_ !! _) as [h|]; [|by rewrite getResponsePayload_reply].
  destruct (h _ w) as [[[handled pdu]|e| |] w']; try done; [|by destruct e].
  by destruct handled; rewrite getResponsePayload_reply.
Qed.

(** A server whose versions are bytes and whose handlers return and answer with
    payloads a message can carry. *)
Definition total_handler (h : RpcServer.HandlerType W) : Prop :=
  ∀ p w, ∃ handled pdu w', h p w = (Ok (handled, pdu), w') ∧ is_bytes pdu ∧ 8 + size pdu < 4294967296.

Definition server_wf srv : Prop :=
  is_u8 (RpcServer.mProtocolVersion srv) ∧ is_u8 (RpcServer.mInterfaceVersion srv) ∧
  map_Forall (fun _ => total_handler) (RpcServer.mHandlers srv).

Lemma validate_u8 srv m : is_u8 (RpcServer.validate srv m).
Proof.
  unfold RpcServer.validate, eWrongMessageType, eWrongProtocolVersion, eWrongInterfaceVersion,
    eUnknownService, eOK. repeat case_match; ulia.
Qed.

Lemma reply_wf srv m rc p :
  server_wf srv → SomeIpRpcMessage.wf m → is_u8 rc → is_bytes p → 8 + size p < 4294967296 →
  SomeIpRpcMessage.wf (reply srv m rc p).
Proof.
  intros (Hpv & Hiv & _) ((Hid & Hc & Hs & _) & _ & _) Hrc Hp Hsz.
  split; [|done]. do 5 (refine (conj _ _); [done|]). refine (conj _ Hrc).
  cbn. unfold Response, Error. case_match; ulia.
Qed.

(** The answer and the application's state after one request. *)
Definition answer srv m w : SomeIpRpcMessage.t * W :=
  let rc := RpcServer.validate srv m in
  if negb (rc =? eOK) then (reply srv m rc [], w)
  else
    match RpcServer.mHandlers srv !! SomeIpMessage.mMessageId (SomeIpRpcMessage.header m) with
    | None => (reply srv m eUnknownMethod [], w)
    | Some h =>
        match h (SomeIpRpcMessage.mRpcPayload m) w with
        | (Ok (handled, pdu), w') => (reply srv m (if handled : bool then eOK else eNotOk) pdu, w')
        | (_, w') => (reply srv m eNotOk [], w')
        end
    end.

Lemma TryInvokeHandler_answer srv m rest w :
  server_wf srv → SomeIpRpcMessage.wf m →
  RpcServer.TryInvokeHandler srv (SomeIpRpcMessage.Payload m ++ rest) w =
    (Ok (Some (SomeIpRpcMessage.Payload (fst (answer srv m w)))), snd (answer srv m w)) ∧
  SomeIpRpcMessage.wf (fst (answer srv m w)).
Proof.
  intros Hsrv Hwf. rewrite TryInvokeHandler_eq by done. unfold answer. cbv zeta.
  assert (Hu : ∀ z, 0 <= z < 256 → is_u8 z) by (intros; ulia).
  assert (Hnil : is_bytes [] ∧ 8 + size [] < 4294967296) by (split; [apply is_bytes_nil|done]).
  destruct (negb _).
  { split; [done|]. apply reply_wf; try done; [apply validate_u8|apply Hnil]. }
  destruct (_ !! _) as [h|] eqn:Hh;
    [|split; [done|]; apply reply_wf; first [done | apply Hnil]].
  destruct Hsrv as (Hpv & Hiv & Hhs). pose proof (Hhs _ _ Hh) as Htot.
  destruct (Htot (SomeIpRpcMessage.mRpcPayload m) w) as (handled & pdu & w' & -> & Hp & Hsz).
  split; [done|]. apply reply_wf; try done. apply Hu. by destruct handled.
Qed.

End Server_facts.

(** ** Properties *)

(** However a TCP stream of RPC messages is cut into reads, the receive callback
    handles exactly those messages, in order, and leaves nothing in its buffer. *)
Theorem stream_reassembly {S} (handle : bytes → M S ()) ms chunks s s' :
  Forall SomeIpRpcMessage.wf ms →
  concat chunks = concat (map SomeIpRpcMessage.Payload ms) →
  run_all handle (map SomeIpRpcMessage.Payload ms) s = (Ok (), s') →
  feed handle chunks ([], s) = (Ok (), ([], s')).
Proof.
  intros Hms Hc Hrun. destruct (frames_stream ms Hms) as [Hf Hb].
  pose proof (feed_frames handle chunks [] s s') as H. cbn [app] in H. rewrite Hc, Hf in H.
  by apply H.
Qed.

(** Two messages, cut in the middle of the first header and of the second payload. *)
Definition example_request (session : Z) (p : bytes) : SomeIpRpcMessage.t :=
  SomeIpRpcMessage.mk (SomeIpMessage.mk 65537 3 session 1 1 Request eOK) p.

Lemma stream_reassembly_witness :
  let ms := [example_request 1 [7]; example_request 2 [8; 9]] in
  let stream := concat (map SomeIpRpcMessage.Payload ms) in
  feed (fun m => modify (fun log => log ++ [m])) [take 5 stream; []; drop 5 (take 34 stream); drop 34 stream] ([], [])
    = (Ok (), ([], map SomeIpRpcMessage.Payload ms)).
Proof.
  intros ms stream.
  apply (stream_reassembly (fun m => modify (fun log => log ++ [m])) ms
    [take 5 stream; []; drop 5 (take 34 stream); drop 34 stream] []); [by_eval|by vm_compute|by vm_compute].
Defined.

(** A server answers every well-formed message with one that the client reads
    back: same message, client and session identifiers, the server's versions, and
    type Response exactly when the return code is OK.  The code is decided in the
    order type, protocol version, interface version, service, method, handler; the
    handler runs only when all checks pass, and its payload is the answer's. *)
Theorem rpc_server_answers {W} (srv : RpcServer.t W) m w :
  server_wf srv → SomeIpRpcMessage.wf m →
  let h := SomeIpRpcMessage.header m in
  ∃ r w',
    RpcServer.TryInvokeHandler srv (SomeIpRpcMessage.Payload m) w =
      (Ok (Some (SomeIpRpcMessage.Payload r)), w') ∧
    SomeIpRpcMessage.Deserialize (SomeIpRpcMessage.Payload r) = Ok r ∧
    let rh := SomeIpRpcMessage.header r in
    let code := SomeIpMessage.mReturnCode rh in
    SomeIpMessage.mMessageId rh = SomeIpMessage.mMessageId h ∧
    SomeIpMessage.mClientId rh = SomeIpMessage.mClientId h ∧
    SomeIpMessage.mSessionId rh = SomeIpMessage.mSessionId h ∧
    SomeIpMessage.mMessageType rh = (if code =? eOK then Response else Error) ∧
    (if negb (SomeIpMessage.mMessageType h =? Request) then code = eWrongMessageType ∧ w' = w
     else if negb (SomeIpMessage.mProtocolVersion h =? RpcServer.mProtocolVersion srv)
     then code = eWrongProtocolVersion ∧ w' = w
     else if negb (SomeIpMessage.mInterfaceVersion h =? RpcServer.mInterfaceVersion srv)
     then code = eWrongInterfaceVersion ∧ w' = w
     else if negb (bool_decide (u16 (SomeIpMessage.mMessageId h ≫ 16) ∈ RpcServer.mServices srv))
     then code = eUnknownService ∧ w' = w
     else
       match RpcServer.mHandlers srv !! SomeIpMessage.mMessageId h with
       | None => code = eUnknownMethod ∧ w' = w
       | Some handler => ∃ handled,
           handler (SomeIpRpcMessage.mRpcPayload m) w = (Ok (handled, SomeIpRpcMessage.mRpcPayload r), w') ∧
           code = (if handled : bool then eOK else eNotOk)
       end).
Proof.
  intros Hsrv Hwf h. destruct (TryInvokeHandler_answer srv m [] w Hsrv Hwf) as [HT Hr].
  rewrite app_nil_r in HT. exists (fst (answer srv m w)), (snd (answer srv m w)).
  split; [done|]. split.
  { pose proof (RpcMessage_facts.Deserialize_app (fst (answer srv m w)) [] Hr) as HD. by rewrite app_nil_r in HD. }
  destruct Hsrv as (_ & _ & Hhs). unfold answer, RpcServer.validate. cbv zeta. fold h.
  repeat case_match; try done; cbn; split_and!; try done;
    match goal with H : RpcServer.mHandlers srv !! _ = Some ?hd |- _ =>
      destruct (Hhs _ _ H (SomeIpRpcMessage.mRpcPayload m) w) as (? & ? & ? & ? & _) end;
    first [congruence | simplify_eq; eauto].
Qed.

(** A handler that answers with a fixed payload. *)
Definition fixed_server (ok : bool) (p : bytes) : RpcServer.t nat :=
  RpcServer.SetHandler (RpcServer.construct 1 1) 1 1 (fun _ n => (Ok (ok, p), S n)).

Lemma fixed_server_wf ok p : is_bytes p → 8 + size p < 4294967296 → server_wf (fixed_server ok p).
Proof.
  intros Hp Hs. split; [by_eval|]. split; [by_eval|].
  apply map_Forall_insert_2; [|apply map_Forall_empty].
  intros q w. by exists ok, p, (S w).
Qed.

Lemma rpc_server_answers_witness :
  ∃ r, RpcServer.TryInvokeHandler (fixed_server true [4; 2]) (SomeIpRpcMessage.Payload (example_request 9 [7])) 0%nat
         = (Ok (Some (SomeIpRpcMessage.Payload r)), 1%nat) ∧
       SomeIpMessage.mSessionId (SomeIpRpcMessage.header r) = 9.
Proof.
  destruct (rpc_server_answers (fixed_server true [4; 2]) (example_request 9 [7]) 0%nat) as (r & w' & HT & _ & _ & _ & Hs & _ & Hb).
  - apply fixed_server_wf; by_eval.
  - by_eval.
  - exists r. cbn in Hb. destruct Hb as (handled & Hb & _). simplify_eq. by split.
Defined.

(** ** The client's sessions *)

(** A call: service, method, client, payload. *)
Definition call : Type := Z * Z * Z * bytes.
Definition call_id (c : call) : Z := let '(serviceId, methodId, _, _) := c in message_id serviceId methodId.

Fixpoint send_all {W} (calls : list call) : M (RpcClient.t W) (list bytes) :=
  match calls with
  | [] => mret []
  | (serviceId, methodId, clientId, p) :: calls =>
      q ← RpcClient.Send serviceId methodId clientId p; qs ← send_all calls; mret (q :: qs)
  end.

(** The session of a request after [n] earlier requests for the same message. *)
Definition nth_session (n : nat) : Z := 1 + Z.of_nat n mod 65535.

Definition count_calls (id : Z) (calls : list call) : nat :=
  length (filter (fun c => call_id c = id) calls).

(** The requests a sequence of calls should put on the wire after [past]. *)
Fixpoint expected {W} (cl : RpcClient.t W) (past calls : list call) : list SomeIpRpcMessage.t :=
  match calls with
  | [] => []
  | c :: calls =>
      let '(_, _, clientId, p) := c in
      SomeIpRpcMessage.mk (SomeIpMessage.mk (call_id c) clientId (nth_session (count_calls (call_id c) past))
        (RpcClient.mProtocolVersion cl) (RpcClient.mInterfaceVersion cl) Request eOK) p
      :: expected cl (past ++ [c]) calls
  end.

Definition sessions_after {W} (cl : RpcClient.t W) (past : list call) : Prop :=
  ∀ id, match RpcClient.mSessionIds cl !! id with Some s => s | None => 1 end
        = nth_session (count_calls id past).

Lemma nth_session_succ n h :
  SomeIpMessage.mSessionId h = nth_session n →
  SomeIpMessage.mSessionId (snd (SomeIpMessage.IncrementSessionId h)) = nth_session (S n).
Proof.
  intros H. unfold SomeIpMessage.IncrementSessionId, nth_session in *.
  destruct (_ =? 65535) eqn:E; cbn; ulia.
Qed.

Lemma Send_eq {W} sid mid cid p (cl : RpcClient.t W) :
  let id := message_id sid mid in
  let h := SomeIpMessage.mk id cid match RpcClient.mSessionIds cl !! id with Some s => s | None => 1 end
             (RpcClient.mProtocolVersion cl) (RpcClient.mInterfaceVersion cl) Request eOK in
  RpcClient.Send sid mid cid p cl =
    (Ok (SomeIpRpcMessage.Payload (SomeIpRpcMessage.mk h p)),
     RpcClient.mk (RpcClient.mProtocolVersion cl) (RpcClient.mInterfaceVersion cl)
       (<[ id := SomeIpMessage.mSessionId (snd (SomeIpMessage.IncrementSessionId h)) ]> (RpcClient.mSessionIds cl))
       (RpcClient.mHandlers cl)).
Proof.
  intros id h. unfold RpcClient.Send. run.
  unfold SomeIpRpcMessage.construct_request, SomeIpMessage.construct_request, outcome_bind. cbn.
  unfold h. by destruct (SomeIpMessage.IncrementSessionId _).
Qed.

Lemma count_calls_snoc id past c :
  count_calls id (past ++ [c]) = (count_calls id past + if decide (call_id c = id) then 1 else 0)%nat.
Proof.
  unfold count_calls. rewrite filter_app, length_app, filter_cons, filter_nil.
  by case_decide.
Qed.

Lemma expected_ext {W} (cl cl' : RpcClient.t W) past calls :
  RpcClient.mProtocolVersion cl = RpcClient.mProtocolVersion cl' →
  RpcClient.mInterfaceVersion cl = RpcClient.mInterfaceVersion cl' →
  expected cl past calls = expected cl' past calls.
Proof.
  intros H1 H2. revert past. induction calls as [|[[[? ?] ?] ?] calls IH]; intros past; [done|].
  cbn [expected]. by rewrite IH, H1, H2.
Qed.

Lemma send_all_expected {W} calls past (cl : RpcClient.t W) :
  sessions_after cl past →
  fst (send_all calls cl) = Ok (map SomeIpRpcMessage.Payload (expected cl past calls)).
Proof.
  revert past cl. induction calls as [|[[[sid mid] cid] p] calls IH]; intros past cl Hs; [done|].
  cbn [send_all expected map call_id]. unfold mbind, M_bind. rewrite Send_eq. rewrite (Hs (message_id sid mid)).
  set (cl' := RpcClient.mk _ _ (<[ _ := _ ]> _) _).
  specialize (IH (past ++ [(sid, mid, cid, p)]) cl').
  rewrite (expected_ext cl' cl) in IH by done.
  destruct (send_all calls cl') as [r cl2]. cbn [fst] in IH. rewrite IH; [done|].
  intros id. unfold cl'. cbn [RpcClient.mSessionIds]. rewrite count_calls_snoc. cbn [call_id].
  case_decide as Hid.
  - subst id. rewrite lookup_insert_eq, Nat.add_1_r. by apply nth_session_succ.
  - rewrite lookup_insert_ne by done. rewrite Nat.add_0_r. apply Hs.
Qed.

(** The request that a client sends for method [methodId]. *)
Definition sent_request {W} (cl : RpcClient.t W) (serviceId methodId clientId : Z) (p : bytes) : SomeIpRpcMessage.t :=
  let id := message_id serviceId methodId in
  SomeIpRpcMessage.mk
    (SomeIpMessage.mk id clientId match RpcClient.mSessionIds cl !! id with Some s => s | None => 1 end
       (RpcClient.mProtocolVersion cl) (RpcClient.mInterfaceVersion cl) Request eOK) p.

Lemma Send_sent {W} sid mid cid p (cl : RpcClient.t W) :
  ∃ cl', RpcClient.Send sid mid cid p cl = (Ok (SomeIpRpcMessage.Payload (sent_request cl sid mid cid p)), cl') ∧
    RpcClient.mHandlers cl' = RpcClient.mHandlers cl ∧
    RpcClient.mProtocolVersion cl' = RpcClient.mProtocolVersion cl ∧
    RpcClient.mInterfaceVersion cl' = RpcClient.mInterfaceVersion cl.
Proof. eexists. split; [apply Send_eq|done]. Qed.

(** Versions and sessions are in range. *)
Definition rpc_client_ok {W} (cl : RpcClient.t W) : Prop :=
  is_u8 (RpcClient.mProtocolVersion cl) ∧ is_u8 (RpcClient.mInterfaceVersion cl) ∧
  map_Forall (fun _ s => is_u16 s) (RpcClient.mSessionIds cl).

Lemma Send_ok {W} sid mid cid p (cl : RpcClient.t W) :
  rpc_client_ok cl → rpc_client_ok (snd (RpcClient.Send sid mid cid p cl)).
Proof.
  intros (Hpv & Hiv & Hs). rewrite Send_eq. split_and!; [done..|]. cbn. apply map_Forall_insert_2; [|done].
  unfold SomeIpMessage.IncrementSessionId. case_match; cbn; apply u16_is || by split.
Qed.

Lemma sent_request_wf {W} (cl : RpcClient.t W) sid mid cid p :
  rpc_client_ok cl → is_u32 (message_id sid mid) → is_u16 cid → is_bytes p → 8 + size p < 4294967296 →
  SomeIpRpcMessage.wf (sent_request cl sid mid cid p).
Proof.
  intros (Hpv & Hiv & Hs) Hid Hcid Hp Hsz. split; [|done].
  assert (Hsess : is_u16 (match RpcClient.mSessionIds cl !! message_id sid mid with Some s => s | None => 1 end)).
  { destruct (_ !! _) eqn:E; [by apply (Hs _ _ E)|by split]. }
  split_and!; try done; by split; vm_compute.
Qed.

Lemma InvokeHandler_registered {W} (cl : RpcClient.t W) m (h : RpcClient.HandlerType W) w :
  SomeIpRpcMessage.wf m →
  RpcClient.mHandlers cl !! SomeIpMessage.mMessageId (SomeIpRpcMessage.header m) = Some h →
  RpcClient.InvokeHandler cl (SomeIpRpcMessage.Payload m) w =
    match h m w with (Throw std_out_of_range, w') => (Ok (), w') | r => r end.
Proof.
  intros Hwf Hh. unfold RpcClient.InvokeHandler, catch_out_of_range.
  rewrite <- (app_nil_r (SomeIpRpcMessage.Payload m)), RpcMessage_facts.Deserialize_app by done.
  change (lift (Ok m) ≫= ?f) with (fun w => f m w). cbv beta. unfold RpcClient.HandlerType in *. rewrite Hh.
  by destruct (h m w) as [[|[]| |] ?].
Qed.

(** A server answers the request of a client with the handler's answer. *)
Lemma request_answered {W V} (srv : RpcServer.t W) (cl : RpcClient.t V) sid mid cid p
    (h : RpcServer.HandlerType W) w (handled : bool) pdu w' :
  rpc_client_ok cl → is_u32 (message_id sid mid) → is_u16 cid → is_bytes p → 8 + size p < 4294967296 →
  u16 (message_id sid mid ≫ 16) = sid →
  RpcServer.mProtocolVersion srv = RpcClient.mProtocolVersion cl →
  RpcServer.mInterfaceVersion srv = RpcClient.mInterfaceVersion cl →
  sid ∈ RpcServer.mServices srv → RpcServer.mHandlers srv !! message_id sid mid = Some h →
  h p w = (Ok (handled, pdu), w') →
  RpcServer.TryInvokeHandler srv (SomeIpRpcMessage.Payload (sent_request cl sid mid cid p)) w =
    (Ok (Some (SomeIpRpcMessage.Payload (reply srv (sent_request cl sid mid cid p) (if handled then eOK else eNotOk) pdu))), w').
Proof.
  intros Hcl Hid Hcid Hp Hsz Hsid Hpv Hiv Hin Hh Hrun.
  rewrite <- (app_nil_r (SomeIpRpcMessage.Payload _)).
  rewrite TryInvokeHandler_eq by by apply sent_request_wf.
  assert (Hval : RpcServer.validate srv (sent_request cl sid mid cid p) = eOK).
  { unfold RpcServer.validate, sent_request. cbn. rewrite Hpv, Hiv, !Z.eqb_refl, Hsid. cbn.
    by rewrite bool_decide_eq_true_2. }
  rewrite Hval. cbv zeta. cbn [negb Z.eqb eOK].
  change (SomeIpMessage.mMessageId (SomeIpRpcMessage.header (sent_request cl sid mid cid p))) with (message_id sid mid).
  match goal with |- context [match ?o with Some _ => _ | None => _ end] => replace o with (Some h) by done end.
  change (SomeIpRpcMessage.mRpcPayload (sent_request cl sid mid cid p)) with p. by rewrite Hrun.
Qed.

Lemma reply_ok {W V} (srv : RpcServer.t W) (cl : RpcClient.t V) sid mid cid p rc pdu :
  rpc_client_ok cl → is_u32 (message_id sid mid) → is_u16 cid → is_bytes p → 8 + size p < 4294967296 →
  is_u8 (RpcServer.mProtocolVersion srv) → is_u8 (RpcServer.mInterfaceVersion srv) →
  is_u8 rc → is_bytes pdu → 8 + size pdu < 4294967296 →
  SomeIpRpcMessage.wf (reply srv (sent_request cl sid mid cid p) rc pdu).
Proof.
  intros Hcl Hid Hcid Hp Hsz Hpv Hiv Hrc Hpdu Hsz'.
  destruct (sent_request_wf cl sid mid cid p Hcl Hid Hcid Hp Hsz) as ((_ & _ & Hs & _) & _ & _).
  split; [|done]. split_and!; try done. cbn. unfold Response, Error. case_match; by split; vm_compute.
Qed.

(** The n-th request a new client sends for a message identifier carries session
    1 + n mod 65535, whatever other requests are sent in between: the session is
    never 0, wraps from 65535 to 1, and the rest of each request is its call's. *)
Theorem rpc_client_sessions {W} pv iv (calls : list call) :
  let cl := RpcClient.construct (W:=W) pv iv in
  fst (send_all calls cl) = Ok (map SomeIpRpcMessage.Payload (expected cl [] calls)) ∧
  ∀ n, 1 <= nth_session n <= 65535 ∧ nth_session n ≠ nth_session (S n).
Proof.
  split; [apply send_all_expected; intros id; cbn; by rewrite lookup_empty|].
  intros n. unfold nth_session. split; Z.div_mod_to_equations; lia.
Qed.

(** ** Client and server together *)

(** The client's handler that keeps the responses it is given. *)
Definition record_handler : RpcClient.HandlerType (list SomeIpRpcMessage.t) :=
  fun r log => (Ok (), log ++ [r]).

(** The answers to a list of requests, each in the state the earlier ones leave. *)
Fixpoint answers {W} (srv : RpcServer.t W) (ms : list SomeIpRpcMessage.t) (w : W) : list SomeIpRpcMessage.t * W :=
  match ms with
  | [] => ([], w)
  | m :: ms => let (r, w) := answer srv m w in let (rs, w) := answers srv ms w in (r :: rs, w)
  end.

Lemma server_run_all {W} (srv : RpcServer.t W) ms q w :
  server_wf srv → Forall SomeIpRpcMessage.wf ms →
  run_all (SocketRpcServer.handle srv) (map SomeIpRpcMessage.Payload ms) (SocketRpcServer.mkState q w) =
    (Ok (), SocketRpcServer.mkState (q ++ map SomeIpRpcMessage.Payload (fst (answers srv ms w))) (snd (answers srv ms w)))
  ∧ Forall SomeIpRpcMessage.wf (fst (answers srv ms w)).
Proof.
  intros Hsrv Hms. revert q w. induction Hms as [|m ms Hm _ IH]; intros q w.
  { cbn. by rewrite app_nil_r. }
  cbn [map run_all answers]. unfold mbind, M_bind, SocketRpcServer.handle at 1.
  cbn [SocketRpcServer.world SocketRpcServer.mSendingQueue].
  destruct (TryInvokeHandler_answer srv m [] w Hsrv Hm) as [HT Hr]. rewrite app_nil_r in HT. rewrite HT.
  destruct (answer srv m w) as [r w1]. cbn [fst snd] in *.
  destruct (IH (q ++ [SomeIpRpcMessage.Payload r]) w1) as [IH1 IH2]. rewrite IH1.
  destruct (answers srv ms w1) as [rs w2]. cbn [fst snd map] in *. rewrite <- app_assoc.
  split; [done|by apply Forall_cons].
Qed.

Lemma client_run_all (cl : RpcClient.t (list SomeIpRpcMessage.t)) rs log :
  Forall SomeIpRpcMessage.wf rs →
  Forall (fun r => RpcClient.mHandlers cl !! SomeIpMessage.mMessageId (SomeIpRpcMessage.header r)
                   = Some record_handler) rs →
  run_all (RpcClient.InvokeHandler cl) (map SomeIpRpcMessage.Payload rs) log = (Ok (), log ++ rs).
Proof.
  intros Hwf. revert log. induction Hwf as [|r rs Hr _ IH]; intros log Hh; cbn [map run_all].
  { cbn. by rewrite app_nil_r. }
  apply Forall_cons in Hh as [Hh Hhs]. unfold mbind, M_bind, RpcClient.InvokeHandler at 1, catch_out_of_range.
  pose proof (RpcMessage_facts.Deserialize_app r [] Hr) as HD. rewrite app_nil_r in HD.
  run. rewrite HD. unfold RpcClient.HandlerType in *. rewrite Hh. cbn. rewrite IH by done. by rewrite <- app_assoc.
Qed.

Lemma answers_ids {W} (srv : RpcServer.t W) ms w :
  map (fun m => SomeIpMessage.mMessageId (SomeIpRpcMessage.header m)) (fst (answers srv ms w)) =
    map (fun m => SomeIpMessage.mMessageId (SomeIpRpcMessage.header m)) ms ∧
  map (fun m => SomeIpMessage.mSessionId (SomeIpRpcMessage.header m)) (fst (answers srv ms w)) =
    map (fun m => SomeIpMessage.mSessionId (SomeIpRpcMessage.header m)) ms.
Proof.
  revert w. induction ms as [|m ms IH]; intros w; [done|]. cbn [answers map].
  assert (Ha : ∀ w, SomeIpMessage.mMessageId (SomeIpRpcMessage.header (fst (answer srv m w))) =
      SomeIpMessage.mMessageId (SomeIpRpcMessage.header m) ∧
    SomeIpMessage.mSessionId (SomeIpRpcMessage.header (fst (answer srv m w))) =
      SomeIpMessage.mSessionId (SomeIpRpcMessage.header m))
    by (intros w'; unfold answer; repeat case_match; done).
  destruct (Ha w) as [H1 H2]. destruct (answer srv m w) as [r w1]. specialize (IH w1).
  destruct (answers srv ms w1) as [rs w2]. cbn [fst map] in *. destruct IH as [-> ->]. by rewrite H1, H2.
Qed.

(** C2: requests that cross a TCP connection cut anywhere, are answered by the
    server and cross back cut anywhere reach the client's handler as the server's
    answers, one for each request, in order, with its message and session
    identifiers. *)
Theorem rpc_end_to_end {W} (srv : RpcServer.t W) (cl : RpcClient.t (list SomeIpRpcMessage.t)) ms w chunks back :
  server_wf srv → Forall SomeIpRpcMessage.wf ms →
  Forall (fun m => RpcClient.mHandlers cl !! SomeIpMessage.mMessageId (SomeIpRpcMessage.header m)
                   = Some record_handler) ms →
  concat chunks = concat (map SomeIpRpcMessage.Payload ms) →
  ∃ queue w',
    feed (SocketRpcServer.handle srv) chunks ([], SocketRpcServer.mkState [] w) =
      (Ok (), ([], SocketRpcServer.mkState queue w')) ∧
    (concat back = concat queue →
     ∃ rs, feed (RpcClient.InvokeHandler cl) back ([], []) = (Ok (), ([], rs)) ∧
       rs = fst (answers srv ms w) ∧
       map (fun m => SomeIpMessage.mMessageId (SomeIpRpcMessage.header m)) rs =
         map (fun m => SomeIpMessage.mMessageId (SomeIpRpcMessage.header m)) ms ∧
       map (fun m => SomeIpMessage.mSessionId (SomeIpRpcMessage.header m)) rs =
         map (fun m => SomeIpMessage.mSessionId (SomeIpRpcMessage.header m)) ms).
Proof.
  intros Hsrv Hms Hh Hc. destruct (server_run_all srv ms [] w Hsrv Hms) as [Hrun Hrs].
  destruct (answers_ids srv ms w) as [Hids Hsess].
  destruct (frames_stream ms Hms) as [Hf Hb].
  pose proof (feed_frames (SocketRpcServer.handle srv) chunks [] (SocketRpcServer.mkState [] w)) as Hfeed.
  cbn [app] in Hfeed. rewrite Hc, Hf in Hfeed. specialize (Hfeed _ Hb eq_refl Hrun).
  exists (map SomeIpRpcMessage.Payload (fst (answers srv ms w))), (snd (answers srv ms w)).
  split; [done|]. intros Hback. exists (fst (answers srv ms w)). split; [|done].
  destruct (frames_stream _ Hrs) as [Hf' Hb'].
  pose proof (feed_frames (RpcClient.InvokeHandler cl) back [] []) as Hfeed'.
  cbn [app] in Hfeed'. rewrite Hback, Hf' in Hfeed'. apply Hfeed'; [done|done|].
  apply (client_run_all cl _ []); [done|].
  clear -Hh Hids. revert Hids Hh. generalize (fst (answers srv ms w)) as rs.
  induction ms as [|m ms IH]; intros [|r rs] Hids Hh; try done.
  cbn [map] in Hids. injection Hids as Hid Hids. apply Forall_cons in Hh as [Hm Hh].
  apply Forall_cons. rewrite Hid. split; [done|by apply IH].
Qed.

Lemma rpc_end_to_end_witness :
  let srv := fixed_server true [4; 2] in
  let cl := RpcClient.SetHandler (RpcClient.construct 1 1) 1 1 record_handler in
  let ms := [example_request 1 [7]; example_request 2 []] in
  let stream := concat (map SomeIpRpcMessage.Payload ms) in
  ∃ queue w', feed (SocketRpcServer.handle srv) [take 3 stream; drop 3 stream] ([], SocketRpcServer.mkState [] 0%nat)
                = (Ok (), ([], SocketRpcServer.mkState queue w')) ∧
    ∃ rs, feed (RpcClient.InvokeHandler cl) [concat queue] ([], []) = (Ok (), ([], rs)) ∧ length rs = 2%nat.
Proof.
  intros srv cl ms stream.
  destruct (server_run_all srv ms [] 0%nat) as [_ Hrs]; [apply fixed_server_wf; by_eval|by_eval|].
  destruct (rpc_end_to_end srv cl ms 0%nat [take 3 stream; drop 3 stream]
    [concat (map SomeIpRpcMessage.Payload (fst (answers srv ms 0%nat)))]) as (queue & w' & Hq & Hback).
  - apply fixed_server_wf; by_eval.
  - by_eval.
  - repeat (apply Forall_cons; split; [by vm_compute|]). apply Forall_nil_2.
  - by vm_compute.
  - assert (Hqueue : queue = map SomeIpRpcMessage.Payload (fst (answers srv ms 0%nat)))
      by (vm_compute in Hq; injection Hq as <- _; by vm_compute).
    subst queue. exists (map SomeIpRpcMessage.Payload (fst (answers srv ms 0%nat))), w'. split; [exact Hq|].
    destruct Hback as (rs & Hfeed & -> & _); [cbn [concat]; by rewrite app_nil_r|].
    exists (fst (answers srv ms 0%nat)). split; [exact Hfeed|by vm_compute].
Defined.
