(* ===== verification/Connections.v ===== *)
(** * Connections of the RPC sockets: ara/com/someip/rpc/socket_rpc_server.cpp, socket_rpc_client.cpp

    What Rpc.v says of messages is put behind the sockets: setting up, accepting and leaving, and
    which of the poller's callbacks are registered.  What the calls of the socket library give is
    a truth value of the run.  The theorems: what is registered and thrown in every case, and
    that a server's buffers outlive its connections. *)

From S2P Require Import Prelude Payload SomeIp Rpc.

(** The callbacks that the poller has for a socket. *)
Record Poller := mkPoller { listener : bool; receiver : bool; sender : bool }.

(** ** The server *)
Module ServerSocket.
Section Server.
Context {W : Type}.
Variable srv : RpcServer.t W.

(** [ara/com/someip/rpc/socket_rpc_server.h:20-40] SocketRpcServer, with what the poller has for
    its socket and whether there is a connection *)
Record State := mk {
  mPoller : Poller;
  connected : bool;
  mReceiveBuffer : bytes;
  inner : SocketRpcServer.State W;
  mDisconnectHandler : option (M W ())
}.

Definition set_poller (p : Poller) (s : State) : State :=
  mk p (connected s) (mReceiveBuffer s) (inner s) (mDisconnectHandler s).

(** [ara/com/someip/rpc/socket_rpc_server.cpp:17-40] SocketRpcServer::SocketRpcServer *)
Definition construct (setup addListener : bool) (w : W) : outcome State :=
  if negb setup then Throw std_runtime_error
  else if negb addListener then Throw std_runtime_error
  else Ok (mk (mkPoller true false false) false [] (SocketRpcServer.mkState [] w) None).

(** [ara/com/someip/rpc/socket_rpc_server.cpp:42-75] onAccept *)
Definition onAccept (accept nonblock addReceiver addSender : bool) : M State () :=
  if negb accept then raise std_runtime_error
  else
    modify (fun s => mk (mPoller s) true (mReceiveBuffer s) (inner s) (mDisconnectHandler s));;
    if negb nonblock then raise std_runtime_error
    else if negb addReceiver then raise std_runtime_error
    else
      modify (fun s => set_poller (mkPoller (listener (mPoller s)) true (sender (mPoller s))) s);;
      if negb addSender then raise std_runtime_error
      else modify (fun s => set_poller (mkPoller (listener (mPoller s)) (receiver (mPoller s)) true) s).

(** [ara/com/someip/rpc/socket_rpc_server.cpp:77-81] SetDisconnectHandler *)
Definition SetDisconnectHandler (handler : M W ()) : M State () :=
  modify (fun s => mk (mPoller s) (connected s) (mReceiveBuffer s) (inner s) (Some handler)).

(** [onReceive] and [onSend] of Rpc.v on this state. *)
Definition onReceive (received : bytes) : M State () := fun s =>
  let '(r, (buffer, i)) := SocketRpcServer.onReceive srv (mDisconnectHandler s) received (mReceiveBuffer s, inner s) in
  (r, mk (mPoller s) (connected s) buffer i (mDisconnectHandler s)).
Definition onSend : M State (list bytes) := fun s =>
  let '(sent, i) := SocketRpcServer.onSend (inner s) in
  (Ok sent, mk (mPoller s) (connected s) (mReceiveBuffer s) i (mDisconnectHandler s)).

(** [ara/com/someip/rpc/socket_rpc_server.cpp:164-169] ~SocketRpcServer *)
Definition destroy : M State () := modify (set_poller (mkPoller false false false)).

(** A client: it connects, sends its chunks, is sent what is queued unless the connection ends
    first, and leaves.  The result is what it is sent. *)
Fixpoint receive_all (chunks : list bytes) : M State () :=
  match chunks with [] => mret () | c :: cs => onReceive c;; receive_all cs end.
Definition session (chunks : list bytes) (flushed : bool) : M State (list bytes) :=
  onAccept true true true true;;
  receive_all chunks;;
  sent ← (if flushed then onSend else mret []);
  onReceive [];;
  mret sent.

End Server.
Arguments State W : clear implicits.
End ServerSocket.

(** ** The client *)
Module ClientSocket.
Section Client.
Context {W : Type}.

(** [ara/com/someip/rpc/socket_rpc_client.h:20-35] SocketRpcClient *)
Record State := mk {
  mPoller : Poller;
  mReceiveBuffer : bytes;
  mSendingQueue : list bytes;
  world : W
}.

(** [ara/com/someip/rpc/socket_rpc_client.cpp:17-55] SocketRpcClient::SocketRpcClient *)
Definition construct (setup connect addSender addReceiver : bool) (w : W) : outcome State :=
  if negb setup then Throw std_runtime_error
  else if negb connect then Throw std_runtime_error
  else if negb addSender then Throw std_runtime_error
  else if negb addReceiver then Throw std_runtime_error
  else Ok (mk (mkPoller false true true) [] [] w).

(** [ara/com/someip/rpc/socket_rpc_client.cpp:131-134] Send; the mutex of the queue is free *)
Definition Send (payload : bytes) : M State () :=
  modify (fun s => mk (mPoller s) (mReceiveBuffer s) (mSendingQueue s ++ [payload]) (world s)).

(** [ara/com/someip/rpc/socket_rpc_client.cpp:57-75] onSend *)
Definition onSend : M State (list bytes) := fun s =>
  (Ok (filter (fun p => p ≠ []) (mSendingQueue s)), mk (mPoller s) (mReceiveBuffer s) [] (world s)).

Definition onReceive (cl : RpcClient.t W) (received : bytes) : M State () := fun s =>
  let '(r, (buffer, w)) := receive_chunk (RpcClient.InvokeHandler cl) received (mReceiveBuffer s, world s) in
  (r, mk (mPoller s) buffer (mSendingQueue s) w).

(** [ara/com/someip/rpc/socket_rpc_client.cpp:136-140] ~SocketRpcClient *)
Definition destroy : M State () := modify (fun s => mk (mkPoller false false false) (mReceiveBuffer s) (mSendingQueue s) (world s)).

End Client.
End ClientSocket.

(** ** Lemmas *)
Section Facts.
Context {W : Type}.
Variable srv : RpcServer.t W.
Import ServerSocket.

(** Without empty reads, receiving is the reassembly of Rpc.v. *)
Lemma receive_all_feed chunks p c buffer i d r buffer' i' :
  Forall (fun c => c ≠ []) chunks → feed (SocketRpcServer.handle srv) chunks (buffer, i) = (r, (buffer', i')) →
  receive_all srv chunks (mk p c buffer i d) = (r, mk p c buffer' i' d).
Proof.
  intros Hc. revert buffer i. induction Hc as [|c' cs Hc' _ IH]; intros buffer i; cbn [receive_all feed].
  { by intros [= <- <- <-]. }
  unfold mbind, M_bind, onReceive, SocketRpcServer.onReceive. cbn [mReceiveBuffer inner].
  rewrite (proj2 (Z.leb_gt _ _)) by (destruct c'; [done|rewrite size_cons; pose proof (size_nonneg c'); lia]).
  destruct (receive_chunk _ c' (buffer, i)) as [r1 [b1 i1]]. destruct r1; [apply IH|by intros [= <- <- <-]..].
Qed.

Lemma accept_spec p c buffer (i : SocketRpcServer.State W) d :
  onAccept true true true true (mk p c buffer i d) = (Ok (), mk (mkPoller (listener p) true true) true buffer i d).
Proof. done. Qed.

(** What a session does to a server whose buffer holds no complete message. *)
Lemma session_spec p c buffer i d chunks flushed i' w' :
  let all := buffer ++ concat chunks in
  Forall (fun c => c ≠ []) chunks → is_bytes all → frames buffer = ([], buffer) →
  run_all (SocketRpcServer.handle srv) (fst (frames all)) i = (Ok (), i') →
  match d with Some d => d (SocketRpcServer.world i') = (Ok (), w') | None => w' = SocketRpcServer.world i' end →
  session srv chunks flushed (mk p c buffer i d) =
    (Ok (if flushed then filter (fun p => p ≠ []) (SocketRpcServer.mSendingQueue i') else []),
     mk (mkPoller (listener p) true true) true (snd (frames all))
       (SocketRpcServer.mkState (if flushed then [] else SocketRpcServer.mSendingQueue i') w') d).
Proof.
  cbv zeta. intros Hc Hb Hn Hr Hd. pose proof (feed_frames _ chunks buffer i i' Hb Hn Hr) as Hf.
  unfold session, mbind, M_bind. rewrite accept_spec, (receive_all_feed chunks _ true _ _ d _ _ _ Hc Hf).
  assert (Hleave : ∀ q, onReceive srv [] (mk (mkPoller (listener p) true true) true (snd (frames (buffer ++ concat chunks)))
    (SocketRpcServer.mkState q (SocketRpcServer.world i')) d) =
    (Ok (), mk (mkPoller (listener p) true true) true (snd (frames (buffer ++ concat chunks))) (SocketRpcServer.mkState q w') d)).
  { intros q. unfold onReceive, SocketRpcServer.onReceive. cbn. destruct d as [d|]; [by rewrite Hd|by subst w']. }
  destruct flushed; cbn; [|destruct i']; by rewrite Hleave.
Qed.

Lemma payloads_sent rs :
  Forall SomeIpRpcMessage.wf rs →
  filter (fun p => p ≠ []) (map SomeIpRpcMessage.Payload rs) = map SomeIpRpcMessage.Payload rs.
Proof.
  intros Hrs. induction Hrs as [|m rs Hm _ IH]; [done|]. cbn [map]. rewrite filter_cons_True, IH; [done|].
  intros H. pose proof (RpcMessage_facts.size_Payload m Hm) as Hs. rewrite H in Hs.
  rewrite RpcMessage_facts.Length_wf in Hs by done. unfold size in Hs. cbn in Hs. lia.
Qed.
End Facts.

(** ** Properties *)
Import ServerSocket.

(** Setting up and accepting, completely: a server that exists listens; a connection that is
    accepted is served in both directions, or [runtime_error] says which call failed, and a
    failure to register for sending leaves the callback for receiving behind.  A client that
    exists is connected and registered for both directions. *)
Theorem sockets_set_up {W} (w : W) :
  (∀ setup addListener,
    match construct setup addListener w with
    | Ok s => setup = true ∧ addListener = true ∧ mPoller s = mkPoller true false false ∧ connected s = false
    | Throw e => e = std_runtime_error ∧ (setup = false ∨ addListener = false)
    | _ => False
    end) ∧
  (∀ accept nonblock addReceiver addSender (s : State W),
    mPoller s = mkPoller true false false → connected s = false →
    let '(r, s') := onAccept accept nonblock addReceiver addSender s in
    (r = Ok () ↔ accept && nonblock && addReceiver && addSender = true) ∧ (r = Ok () ∨ r = Throw std_runtime_error) ∧
    connected s' = accept ∧
    mPoller s' = mkPoller true (accept && nonblock && addReceiver) (accept && nonblock && addReceiver && addSender)) ∧
  (∀ setup connect addSender addReceiver,
    match ClientSocket.construct setup connect addSender addReceiver w with
    | Ok s => setup = true ∧ connect = true ∧ addSender = true ∧ addReceiver = true ∧
        ClientSocket.mPoller s = mkPoller false true true
    | Throw e => e = std_runtime_error ∧ setup && connect && addSender && addReceiver = false
    | _ => False
    end).
Proof.
  split_and!.
  - intros [] []; cbn; auto.
  - intros accept nonblock addReceiver addSender [p c b i d] Hp Hc. cbn in Hp, Hc. subst p c.
    destruct accept, nonblock, addReceiver, addSender; cbn; split_and!; auto; done.
  - intros [] [] [] []; cbn; auto.
Qed.

(** C10: a server's buffers outlive its connections, although the disconnect handler is there so that
    the next connection starts clean.  A client that leaves complete messages and takes its
    answers leaves nothing; but answers that were not sent before it left go to the next
    client, before its own, and a message that it did not finish swallows what the next client
    sends, which gets no answer until the missing bytes have come. *)
Theorem buffers_outlive_connections {W} (srv : RpcServer.t W) (d : M W ()) ms ms2 part chunks chunks2 flushed w w1 w2 s :
  server_wf srv → Forall SomeIpRpcMessage.wf ms → Forall SomeIpRpcMessage.wf ms2 →
  is_bytes part → frames part = ([], part) →
  Forall (fun c => c ≠ []) chunks → concat chunks = concat (map SomeIpRpcMessage.Payload ms) ++ part →
  Forall (fun c => c ≠ []) chunks2 → concat chunks2 = concat (map SomeIpRpcMessage.Payload ms2) →
  construct true true w = Ok s → d (snd (answers srv ms w)) = (Ok (), w1) →
  let '(sent, s1) := session srv chunks flushed (snd (SetDisconnectHandler d s)) in
  let own := map SomeIpRpcMessage.Payload (fst (answers srv ms w)) in
  sent = Ok (if flushed then own else []) ∧
  (part = [] → d (snd (answers srv ms2 w1)) = (Ok (), w2) →
    fst (session srv chunks2 true s1) =
      Ok ((if flushed then [] else own) ++ map SomeIpRpcMessage.Payload (fst (answers srv ms2 w1)))) ∧
  (8 <= size part → size part + size (concat chunks2) < 8 + RpcMessage_facts.length_field part → d w1 = (Ok (), w2) →
    fst (session srv chunks2 true s1) = Ok (if flushed then [] else own)).
Proof.
  intros Hsrv Hms Hms2 Hpb Hpf Hc1 He1 Hc2 He2 [= <-] Hd.
  destruct (frames_stream ms Hms) as [Hf Hb]. destruct (frames_stream ms2 Hms2) as [Hf2 Hb2].
  destruct (server_run_all srv ms [] w Hsrv Hms) as [Hr Hwf]. cbn [app] in Hr.
  assert (Hfr : frames (concat chunks) = (map SomeIpRpcMessage.Payload ms, part)).
  { rewrite He1, frames_app by (by apply is_bytes_app). rewrite Hf. cbn [fst snd app]. rewrite Hpf. cbn. by rewrite app_nil_r. }
  unfold SetDisconnectHandler. run. cbn [snd].
  rewrite (session_spec srv _ _ [] _ (Some d) chunks flushed
    (SocketRpcServer.mkState (map SomeIpRpcMessage.Payload (fst (answers srv ms w))) (snd (answers srv ms w))) w1 Hc1); [|by rewrite app_nil_l, He1; apply is_bytes_app|done|
    rewrite app_nil_l, Hfr; exact Hr|exact Hd].
  rewrite app_nil_l, Hfr. cbn [fst snd SocketRpcServer.mSendingQueue SocketRpcServer.world]. rewrite payloads_sent by done.
  split; [done|]. set (q := if flushed then [] else _).
  assert (Hq : filter (fun p => p ≠ []) q = q) by (unfold q; destruct flushed; [done|by apply payloads_sent]).
  split.
  - intros -> Hd2. destruct (server_run_all srv ms2 q w1 Hsrv Hms2) as [Hr2 Hwf2].
    rewrite (session_spec srv _ _ [] _ (Some d) chunks2 true (SocketRpcServer.mkState
      (q ++ map SomeIpRpcMessage.Payload (fst (answers srv ms2 w1))) (snd (answers srv ms2 w1))) w2 Hc2); [|by rewrite app_nil_l, He2|done|
      rewrite app_nil_l, He2, Hf2; exact Hr2|exact Hd2].
    cbn [fst SocketRpcServer.mSendingQueue]. by rewrite filter_app, Hq, payloads_sent.
  - intros H8 Hlen Hd2. assert (Hpb2 : is_bytes (part ++ concat chunks2)) by (rewrite He2; by apply is_bytes_app).
    assert (Hinc : frames (part ++ concat chunks2) = ([], part ++ concat chunks2)).
    { apply frames_incomplete; [done|]. rewrite (length_field_app part) by done. rewrite size_app.
      pose proof (size_nonneg (concat chunks2)). by rewrite (proj2 (Z.ltb_ge _ _)) by lia. }
    rewrite (session_spec srv _ _ part _ (Some d) chunks2 true (SocketRpcServer.mkState q w1) w2 Hc2); [|done|done|by rewrite Hinc|exact Hd2].
    cbn [fst SocketRpcServer.mSendingQueue]. by rewrite Hq.
Qed.

(** A client that is answered only after it left, and one that leaves half a message; each is
    followed by a client with a request of its own. *)
Lemma buffers_outlive_connections_witness :
  let srv := fixed_server true [4; 2] in
  let m := example_request 1 [7] in
  let m2 := example_request 2 [] in
  let d : M nat () := mret () in
  ∃ s, construct true true 0%nat = Ok s ∧
    fst (session srv [SomeIpRpcMessage.Payload m2] true
      (snd (session srv [SomeIpRpcMessage.Payload m] false (snd (SetDisconnectHandler d s))))) =
      Ok (map SomeIpRpcMessage.Payload (fst (answers srv [m] 0%nat) ++ fst (answers srv [m2] (snd (answers srv [m] 0%nat))))) ∧
    fst (session srv [SomeIpRpcMessage.Payload m2] true
      (snd (session srv [take 8 (SomeIpRpcMessage.Payload (example_request 1 (replicate 40 7)))] true
        (snd (SetDisconnectHandler d s))))) = Ok [].
Proof.
  intros srv m m2 d. assert (Hsrv : server_wf srv) by (apply fixed_server_wf; by_eval).
  eexists. split; [reflexivity|]. split.
  - pose proof (buffers_outlive_connections srv d [m] [m2] [] [SomeIpRpcMessage.Payload m] [SomeIpRpcMessage.Payload m2] false
      0%nat (snd (answers srv [m] 0%nat)) (snd (answers srv [m2] (snd (answers srv [m] 0%nat)))) _ Hsrv
      ltac:(by_eval) ltac:(by_eval) ltac:(by_eval) ltac:(by_eval) ltac:(by_eval) ltac:(by_eval) ltac:(by_eval) ltac:(by_eval)
      eq_refl ltac:(by_eval)) as H.
    destruct (session srv [SomeIpRpcMessage.Payload m] false _) as [sent s1]. destruct H as (_ & H & _).
    rewrite map_app. exact (H eq_refl eq_refl).
  - pose proof (buffers_outlive_connections srv d [] [m2] (take 8 (SomeIpRpcMessage.Payload (example_request 1 (replicate 40 7))))
      [take 8 (SomeIpRpcMessage.Payload (example_request 1 (replicate 40 7)))] [SomeIpRpcMessage.Payload m2] true
      0%nat 0%nat 0%nat _ Hsrv
      ltac:(by_eval) ltac:(by_eval) ltac:(by_eval) ltac:(by_eval) ltac:(by_eval) ltac:(by_eval) ltac:(by_eval) ltac:(by_eval)
      eq_refl ltac:(by_eval)) as H.
    destruct (session srv [take 8 _] true _) as [sent s1]. destruct H as (_ & _ & H).
    exact (H ltac:(vm_compute; discriminate) ltac:(by vm_compute) eq_refl).
Defined.
