(* ===== verification/Core.v ===== *)
(** * Core types: ara/core/optional.h, ara/core/result.h

    [Optional] keeps its value behind an owning pointer, and [Result] is a pair of
    [Optional]s.  The model has the heap and the objects: what an operation does when both
    of its arguments are one object, what is freed, what is used after it was freed and what
    is never freed are consequences, not assumptions.  The theorems: programs over any number
    of such objects do what programs over plain options and sums do, touch no memory that is
    not theirs, and free everything at the end but what was taken out of an rvalue; two
    exceptions are part of the statement, the assignment of an object to itself, which
    empties it, and of an object's own value to it, which is undefined. *)

From S2P Require Import Prelude.
From stdpp Require Import gmap fin_maps.
#[local] Open Scope Z_scope.

(** Addresses of [Optional] and [Result] objects, and of cells of the heap. *)
Abbreviation object := nat.
Abbreviation address := nat.

(** ** Memory *)

(** The living [Optional<T>]s with their pointers, and the allocated cells. *)
Record Mem (T : Type) := mkMem { mValuePtr : gmap object (option address); heap : gmap address T }.
Arguments mkMem {T}.
Arguments mValuePtr {T}.
Arguments heap {T}.

Section Memory.
Context {T : Type}.

(** Reading a pointer, and writing it: the object has to live. *)
Definition ptr (this : object) : M (Mem T) (option address) := fun m =>
  match mValuePtr m !! this with Some p => (Ok p, m) | None => (Undefined, m) end.

Definition set_ptr (this : object) (p : option address) : M (Mem T) () := fun m =>
  match mValuePtr m !! this with
  | Some _ => (Ok (), mkMem (<[this := p]> (mValuePtr m)) (heap m))
  | None => (Undefined, m)
  end.

(** The life of an object begins, with no pointer yet, and ends. *)
Definition begin_life (this : object) : M (Mem T) () := fun m =>
  match mValuePtr m !! this with
  | Some _ => (Undefined, m)
  | None => (Ok (), mkMem (<[this := None]> (mValuePtr m)) (heap m))
  end.

Definition end_life (this : object) : M (Mem T) () := fun m =>
  match mValuePtr m !! this with
  | Some _ => (Ok (), mkMem (delete this (mValuePtr m)) (heap m))
  | None => (Undefined, m)
  end.

(** [new T{v}], [delete l], [*l]: only an allocated cell may be freed, read or written. *)
Definition new (v : T) : M (Mem T) address := fun m =>
  let l := fresh (dom (heap m)) in (Ok l, mkMem (mValuePtr m) (<[l := v]> (heap m))).

Definition free (l : address) : M (Mem T) () := fun m =>
  match heap m !! l with
  | Some _ => (Ok (), mkMem (mValuePtr m) (delete l (heap m)))
  | None => (Undefined, m)
  end.

Definition load (l : address) : M (Mem T) T := fun m =>
  match heap m !! l with Some v => (Ok v, m) | None => (Undefined, m) end.

Definition store (l : address) (v : T) : M (Mem T) () := fun m =>
  match heap m !! l with
  | Some _ => (Ok (), mkMem (mValuePtr m) (<[l := v]> (heap m)))
  | None => (Undefined, m)
  end.

(** Moving a value out leaves [moved v] behind. *)
Definition move_out (moved : T → T) (l : address) : M (Mem T) T := v ← load l; store l (moved v);; mret v.

(** [*mValuePtr], which must not be null. *)
Definition deref (this : object) : M (Mem T) T :=
  p ← ptr this; match p with Some l => load l | None => lift Undefined end.

(** [mValuePtr = new T{v}] *)
Definition put (this : object) (v : T) : M (Mem T) () := l ← new v; set_ptr this (Some l).

(** [mValuePtr = other.mValuePtr; other.mValuePtr = nullptr] *)
Definition transfer (this other : object) : M (Mem T) () :=
  p ← ptr other; set_ptr this p;; set_ptr other None.

End Memory.

(** ** Optional *)
Module Optional.
Section Operations.
Context {T : Type}.

(** [ara/core/optional.h:145-148] HasValue *)
Definition HasValue (this : object) : M (Mem T) bool :=
  p ← ptr this; mret (match p with Some _ => true | None => false end).

(** [ara/core/optional.h:134-141] Reset *)
Definition Reset (this : object) : M (Mem T) () :=
  p ← ptr this;
  match p with Some l => free l;; set_ptr this None | None => mret () end.

(** [ara/core/optional.h:21-23] Optional *)
Definition construct (this : object) : M (Mem T) () := begin_life this.

(** [ara/core/optional.h:25-33] Optional(const T &), Optional(T &&) *)
Definition from_value (this : object) (value : T) : M (Mem T) () := begin_life this;; put this value.

(** [ara/core/optional.h:35-38] Optional(const Optional &): the other object must live already *)
Definition copy_construct (this other : object) : M (Mem T) () :=
  b ← HasValue other;
  begin_life this;;
  if (b : bool) then v ← deref other; put this v else set_ptr this None.

(** [ara/core/optional.h:40-52] Optional(Optional &&) *)
Definition move_construct (this other : object) : M (Mem T) () :=
  b ← HasValue other;
  begin_life this;;
  if (b : bool) then transfer this other else set_ptr this None.

(** [ara/core/optional.h:54-57] ~Optional *)
Definition destruct_ (this : object) : M (Mem T) () := Reset this;; end_life this.

(** [ara/core/optional.h:59-69] operator=(const Optional &) *)
Definition copy_assign (this other : object) : M (Mem T) () :=
  Reset this;;
  b ← HasValue other;
  if (b : bool) then v ← deref other; put this v else mret ().

(** [ara/core/optional.h:71-83] operator=(Optional &&) *)
Definition move_assign (this other : object) : M (Mem T) () :=
  Reset this;;
  b ← HasValue other;
  if (b : bool) then transfer this other else mret ().

(** A [const T &]: to a temporary, or into the heap. *)
Definition read (value : T + address) : M (Mem T) T :=
  match value with inl v => mret v | inr l => load l end.

(** [ara/core/optional.h:85-101] operator=(const U &), operator=(U &&) *)
Definition assign (this : object) (value : T + address) : M (Mem T) () :=
  Reset this;; v ← read value; put this v.

(** [ara/core/optional.h:105-110] Emplace *)
Definition Emplace (this : object) (args : T + address) : M (Mem T) () :=
  Reset this;; v ← read args; put this v.

(** [ara/core/optional.h:114-131] Swap *)
Definition Swap (this other : object) : M (Mem T) () :=
  b ← HasValue this; b' ← HasValue other;
  match b, b' with
  | true, true => p ← ptr this; p' ← ptr other; set_ptr this p';; set_ptr other p
  | true, false => transfer other this
  | false, true => transfer this other
  | false, false => mret ()
  end.

(** [ara/core/optional.h:201-211] Value() const &, a reference into the heap *)
Definition Value (this : object) : M (Mem T) address :=
  p ← ptr this; match p with Some l => mret l | None => raise std_runtime_error end.

(** [ara/core/optional.h:216-229] Value() &&: the pointer is forgotten *)
Definition Value_rvalue (this : object) : M (Mem T) address :=
  p ← ptr this; match p with Some l => set_ptr this None;; mret l | None => raise std_runtime_error end.

(** [ara/core/optional.h:172-182] operator*() &&: a reference, nothing is moved yet *)
Definition star_rvalue (this : object) : M (Mem T) address :=
  b ← HasValue this;
  if (b : bool) then p ← ptr this; match p with Some l => mret l | None => lift Undefined end
  else raise std_runtime_error.

(** [ara/core/optional.h:235-246] ValueOr() const & *)
Definition ValueOr (this : object) (defaultValue : T) : M (Mem T) T :=
  b ← HasValue this; if (b : bool) then deref this else mret defaultValue.

(** [ara/core/optional.h:252-263] ValueOr() && *)
Definition ValueOr_rvalue (moved : T → T) (this : object) (defaultValue : T) : M (Mem T) T :=
  b ← HasValue this;
  if (b : bool) then
    p ← ptr this; match p with Some l => move_out moved l | None => lift Undefined end
  else mret defaultValue.

(** [ara/core/optional.h:267-286] operator== *)
Definition equal `{EqDecision T} (lhs rhs : object) : M (Mem T) bool :=
  b ← HasValue lhs; b' ← HasValue rhs;
  match b, b' with
  | true, true => l ← Value lhs; v ← load l; l' ← Value rhs; v' ← load l'; mret (bool_decide (v = v'))
  | false, false => mret true
  | _, _ => mret false
  end.

(** [ara/core/optional.h:289-308] operator!= *)
Definition not_equal `{EqDecision T} (lhs rhs : object) : M (Mem T) bool :=
  b ← HasValue lhs; b' ← HasValue rhs;
  match b, b' with
  | true, true => l ← Value lhs; v ← load l; l' ← Value rhs; v' ← load l'; mret (bool_decide (v ≠ v'))
  | false, false => mret false
  | _, _ => mret true
  end.

(** [std::swap] of two living objects, by the move constructor and two move assignments. *)
Definition std_swap (a b : object) : M (Mem T) () :=
  _ ← ptr a; _ ← ptr b;
  m ← get;
  let tmp := fresh (dom (mValuePtr m)) in
  move_construct tmp a;; move_assign a b;; move_assign b tmp;; destruct_ tmp.

End Operations.
End Optional.

(** ** The specification: plain options *)

(** The living objects with their values, and the cells that nothing will free. *)
Record Plain (T : Type) := mkPlain { values : gmap object (option T); leaked : list T }.
Arguments mkPlain {T}.
Arguments values {T}.
Arguments leaked {T}.

Section Plain_operations.
Context {T : Type}.

Definition value (x : object) : M (Plain T) (option T) := fun s =>
  match values s !! x with Some o => (Ok o, s) | None => (Undefined, s) end.

Definition set_value (x : object) (o : option T) : M (Plain T) () := fun s =>
  (Ok (), mkPlain (<[x := o]> (values s)) (leaked s)).

Definition kill (x : object) : M (Plain T) () := fun s =>
  (Ok (), mkPlain (delete x (values s)) (leaked s)).

Definition unborn (x : object) : M (Plain T) () := fun s =>
  match values s !! x with Some _ => (Undefined, s) | None => (Ok (), s) end.

Definition leak (o : option T) : M (Plain T) () := fun s =>
  (Ok (), mkPlain (values s) (leaked s ++ option_list o)).

End Plain_operations.

(** A program runs until it has undefined behaviour; it catches what is thrown. *)
Fixpoint run_program {Op S A} (step : Op → M S A) (ops : list Op) (s : S) : list (outcome A) * S :=
  match ops with
  | [] => ([], s)
  | op :: ops =>
      let '(r, s) := step op s in
      match r with
      | Undefined => ([Undefined], s)
      | _ => let '(rs, s) := run_program step ops s in (r :: rs, s)
      end
  end.

(** ** What programs do with optionals *)
Section Programs.
Context {T : Type} `{EqDecision T}.
Variable moved : T → T.

(** [AssignFrom x y] is [x = y.Value()], [Take x] is [T v{std::move(x).Value()}],
    [MoveOut x] is [T v{*std::move(x)}]. *)
Inductive operation :=
  | Default (x : object)
  | FromValue (x : object) (v : T)
  | CopyConstruct (x y : object)
  | MoveConstruct (x y : object)
  | Destroy (x : object)
  | CopyAssign (x y : object)
  | MoveAssign (x y : object)
  | AssignValue (x : object) (v : T)
  | AssignFrom (x y : object)
  | EmplaceValue (x : object) (v : T)
  | SwapWith (x y : object)
  | ResetValue (x : object)
  | Has (x : object)
  | Get (x : object)
  | Take (x : object)
  | MoveOut (x : object)
  | GetOr (x : object) (v : T)
  | TakeOr (x : object) (v : T)
  | Equal (x y : object)
  | StdSwap (x y : object).

(** What a program observes. *)
Inductive observation := Done | Truth (b : bool) | Got (v : T).

Definition done_ {S} (m : M S ()) : M S observation := m;; mret Done.
Definition truth {S} (m : M S bool) : M S observation := b ← m; mret (Truth b).
Definition got {S} (m : M S T) : M S observation := v ← m; mret (Got v).

Definition execute (op : operation) : M (Mem T) observation :=
  match op with
  | Default x => done_ (Optional.construct x)
  | FromValue x v => done_ (Optional.from_value x v)
  | CopyConstruct x y => done_ (Optional.copy_construct x y)
  | MoveConstruct x y => done_ (Optional.move_construct x y)
  | Destroy x => done_ (Optional.destruct_ x)
  | CopyAssign x y => done_ (Optional.copy_assign x y)
  | MoveAssign x y => done_ (Optional.move_assign x y)
  | AssignValue x v => done_ (Optional.assign x (inl v))
  | AssignFrom x y => done_ (l ← Optional.Value y; Optional.assign x (inr l))
  | EmplaceValue x v => done_ (Optional.Emplace x (inl v))
  | SwapWith x y => done_ (Optional.Swap x y)
  | ResetValue x => done_ (Optional.Reset x)
  | Has x => truth (Optional.HasValue x)
  | Get x => got (l ← Optional.Value x; load l)
  | Take x => got (l ← Optional.Value_rvalue x; move_out moved l)
  | MoveOut x => got (l ← Optional.star_rvalue x; move_out moved l)
  | GetOr x v => got (Optional.ValueOr x v)
  | TakeOr x v => got (Optional.ValueOr_rvalue moved x v)
  | Equal x y => truth (Optional.equal x y)
  | StdSwap x y => done_ (Optional.std_swap x y)
  end.

(** The same on plain options: a copy is a copy and a move a move, an object that is
    assigned to itself is emptied, and its own value must not be assigned to it; what is
    taken from an rvalue's [Value()] leaves its cell behind. *)
Definition specify (op : operation) : M (Plain T) observation :=
  let need {A} (o : option A) : M (Plain T) A := match o with Some v => mret v | None => raise std_runtime_error end in
  match op with
  | Default x => unborn x;; done_ (set_value x None)
  | FromValue x v => unborn x;; done_ (set_value x (Some v))
  | CopyConstruct x y => unborn x;; o ← value y; done_ (set_value x o)
  | MoveConstruct x y => unborn x;; o ← value y; done_ (set_value x o;; set_value y None)
  | Destroy x => _ ← value x; done_ (kill x)
  | CopyAssign x y =>
      _ ← value x; o ← value y; done_ (set_value x (if decide (x = y) then None else o))
  | MoveAssign x y =>
      _ ← value x; o ← value y; done_ (set_value x o;; set_value y None)
  | AssignValue x v | EmplaceValue x v => _ ← value x; done_ (set_value x (Some v))
  | AssignFrom x y =>
      o ← value y; v ← need o; _ ← value x;
      if decide (x = y) then lift Undefined else done_ (set_value x (Some v))
  | SwapWith x y | StdSwap x y => o ← value x; o' ← value y; done_ (set_value x o';; set_value y o)
  | ResetValue x => _ ← value x; done_ (set_value x None)
  | Has x => truth (o ← value x; mret (match o with Some _ => true | None => false end))
  | Get x => got (o ← value x; need o)
  | Take x => got (o ← value x; v ← need o; set_value x None;; leak (Some (moved v));; mret v)
  | MoveOut x => got (o ← value x; v ← need o; set_value x (Some (moved v));; mret v)
  | GetOr x v => got (o ← value x; mret (default v o))
  | TakeOr x v => got (o ← value x; set_value x (moved <$> o);; mret (default v o))
  | Equal x y => truth (o ← value x; o' ← value y; mret (bool_decide (o = o')))
  end.

End Programs.

(** ** Lemmas: simulation *)

(** A call on states [S] does what the other does on states [S'] that [R] relates to them. *)
Definition simulates {S S' A} (R : S → S' → Prop) (c : M S A) (a : M S' A) : Prop := ∀ m s, R m s →
  fst (c m) = fst (a s) ∧ (fst (c m) ≠ Undefined → R (snd (c m)) (snd (a s))).

Section Simulates.
Context {S S' : Type} (R : S → S' → Prop).

Lemma simulates_bind {A B} (c : M S A) a (f : A → M S B) g :
  simulates R c a → (∀ r, simulates R (f r) (g r)) → simulates R (c ≫= f) (a ≫= g).
Proof.
  intros Hc Hf m s Hr. destruct (Hc m s Hr) as [H1 H2]. unfold mbind, M_bind.
  destruct (c m) as [[r|e| |] m'], (a s) as [[r'|e'| |] s']; cbn in *; try done; simplify_eq; try (split; [done|intros _; by apply H2]).
  apply Hf. by apply H2.
Qed.

Lemma simulates_ret {A} (r : A) : simulates R (mret r) (mret r).
Proof. by intros m s Hr. Qed.

Lemma simulates_lift {A} (r : outcome A) : simulates R (lift r) (lift r).
Proof. by intros m s Hr. Qed.

Lemma simulates_if {A} (b : bool) (c1 c2 : M S A) a1 a2 :
  simulates R c1 a1 → simulates R c2 a2 → simulates R (if b then c1 else c2) (if b then a1 else a2).
Proof. by destruct b. Qed.

Lemma simulates_both {A} (b b' : bool) (c1 c2 c3 c4 : M S A) a1 a2 a3 a4 :
  simulates R c1 a1 → simulates R c2 a2 → simulates R c3 a3 → simulates R c4 a4 →
  simulates R (match b, b' with true, true => c1 | true, false => c2 | false, true => c3 | false, false => c4 end)
              (match b, b' with true, true => a1 | true, false => a2 | false, true => a3 | false, false => a4 end).
Proof. by destruct b, b'. Qed.

(** Programs: the observations are the same, and the states stay related until a call is
    undefined. *)
Lemma run_program_simulates {Op A} (c : Op → M S A) a ops m s :
  (∀ op, simulates R (c op) (a op)) → R m s →
  fst (run_program c ops m) = fst (run_program a ops s) ∧
  (Undefined ∉ fst (run_program c ops m) → R (snd (run_program c ops m)) (snd (run_program a ops s))).
Proof.
  intros Hop. revert m s. induction ops as [|op ops IH]; intros m s Hr; [done|]. cbn [run_program].
  destruct (Hop op m s Hr) as [H1 H2]. destruct (c op m) as [r m'], (a op s) as [r' s']. cbn in H1, H2. subst r'.
  destruct r as [r|e| |]; [..|split; [done|]; intros Hu; exfalso; apply Hu; cbn; by left|];
    specialize (H2 ltac:(done)); destruct (IH m' s' H2) as [IH1 IH2];
    destruct (run_program c ops m') as [rs m''], (run_program a ops s') as [rs' s'']; cbn in IH1, IH2; subst rs';
    (split; [done|]); intros Hu; apply IH2; intros Hin; apply Hu; cbn; by right.
Qed.

End Simulates.

(** ** Lemmas: memory and plain options *)
Section Simulation.
Context {T : Type}.
Implicit Types (m : Mem T) (s : Plain T).

(** The values are behind the pointers, no two pointers are equal, and the other cells are
    the leaked ones. *)
Record represents (m : Mem T) (s : Plain T) (Lk : gmap address T) : Prop := {
  r_value : ∀ x, match mValuePtr m !! x, values s !! x with
                 | None, None | Some None, Some None => True
                 | Some (Some l), Some (Some v) => heap m !! l = Some v ∧ Lk !! l = None
                 | _, _ => False
                 end;
  r_unique : ∀ x y l, mValuePtr m !! x = Some (Some l) → mValuePtr m !! y = Some (Some l) → x = y;
  r_cells : ∀ l v, heap m !! l = Some v → Lk !! l = Some v ∨ ∃ x, mValuePtr m !! x = Some (Some l);
  r_leaked : ∀ l v, Lk !! l = Some v → heap m !! l = Some v;
  r_list : (map_to_list Lk).*2 ≡ₚ leaked s
}.

Definition Rep m s : Prop := ∃ Lk, represents m s Lk.

Ltac split_rep := split; cbn [mValuePtr heap values leaked].
Ltac at_object x :=
  match goal with |- context [<[?y := _]> _ !! x] =>
    destruct (decide (x = y)) as [->|]; [rewrite !lookup_insert_eq|repeat rewrite (lookup_insert_ne _ y x) by done] end.

Lemma rep_update x l v m s :
  Rep m s → mValuePtr m !! x = Some (Some l) →
  Rep (mkMem (mValuePtr m) (<[l := v]> (heap m))) (mkPlain (<[x := Some v]> (values s)) (leaked s)).
Proof.
  intros [Lk [Hv Hu Hc Hl Hp]] Hx. pose proof (Hv x) as Hvx. rewrite Hx in Hvx.
  destruct (values s !! x) as [[w|]|] eqn:Es; try done. destruct Hvx as [Hh Hlk].
  exists Lk. split_rep; try done.
  - intros y. destruct (decide (y = x)) as [->|Hne].
    + rewrite Hx, !lookup_insert_eq. done.
    + rewrite lookup_insert_ne by done. specialize (Hv y).
      destruct (mValuePtr m !! y) as [[l'|]|] eqn:Ey; try done. destruct (values s !! y) as [[v'|]|]; try done.
      rewrite lookup_insert_ne; [done|]. intros ->. by apply Hne, (Hu y x l').
  - intros l' v'. destruct (decide (l' = l)) as [->|]; [intros _; right; eauto|].
    rewrite lookup_insert_ne by done. apply Hc.
  - intros l' v' H'. destruct (decide (l' = l)) as [->|]; [congruence|]. rewrite lookup_insert_ne by done. by apply Hl.
Qed.

Lemma rep_alloc x l v m s :
  Rep m s → mValuePtr m !! x = Some None → heap m !! l = None →
  Rep (mkMem (<[x := Some l]> (mValuePtr m)) (<[l := v]> (heap m))) (mkPlain (<[x := Some v]> (values s)) (leaked s)).
Proof.
  intros [Lk [Hv Hu Hc Hl Hp]] Hx Hnew.
  assert (Hno : ∀ y, mValuePtr m !! y ≠ Some (Some l)).
  { intros y Hy. specialize (Hv y). rewrite Hy in Hv. destruct (values s !! y) as [[]|]; try done. destruct Hv. congruence. }
  exists Lk. split_rep; try done.
  - intros y. at_object y.
    + split; [done|]. destruct (Lk !! l) eqn:E; [|done]. apply Hl in E. congruence.
    + specialize (Hv y). destruct (mValuePtr m !! y) as [[l'|]|] eqn:Ey; try done. destruct (values s !! y) as [[v'|]|]; try done.
      rewrite lookup_insert_ne; [done|]. intros ->. by apply (Hno y).
  - intros y z l'. at_object y; at_object z; try done.
    + intros [= ->] Hz. by apply Hno in Hz.
    + intros Hy [= ->]. by apply Hno in Hy.
    + apply Hu.
  - intros l' v'. destruct (decide (l' = l)) as [->|].
    + intros _. right. exists x. apply lookup_insert_eq.
    + rewrite lookup_insert_ne by done. intros Hh. apply Hc in Hh as [?|[y Hy]]; [by left|right]. exists y.
      rewrite lookup_insert_ne; [done|]. intros ->. congruence.
  - intros l' v' H'. destruct (decide (l' = l)) as [->|]; [apply Hl in H'; congruence|]. rewrite lookup_insert_ne by done. by apply Hl.
Qed.

Lemma rep_free x l m s :
  Rep m s → mValuePtr m !! x = Some (Some l) →
  Rep (mkMem (<[x := None]> (mValuePtr m)) (delete l (heap m))) (mkPlain (<[x := None]> (values s)) (leaked s)).
Proof.
  intros [Lk [Hv Hu Hc Hl Hp]] Hx. pose proof (Hv x) as Hvx. rewrite Hx in Hvx.
  destruct (values s !! x) as [[w|]|] eqn:Es; try done. destruct Hvx as [Hh Hlk].
  exists Lk. split_rep; try done.
  - intros y. at_object y; [done|]. specialize (Hv y).
    destruct (mValuePtr m !! y) as [[l'|]|] eqn:Ey; try done. destruct (values s !! y) as [[v'|]|]; try done.
    rewrite lookup_delete_ne; [done|]. intros ->. by rewrite (Hu x y l') in *.
  - intros y z l'. at_object y; [done|]. at_object z; [done|]. apply Hu.
  - intros l' v' [Hne Hd]%lookup_delete_Some. apply Hc in Hd as [?|[y Hy]]; [by left|right]. exists y.
    rewrite lookup_insert_ne; [done|]. intros ->. congruence.
  - intros l' v' H'. rewrite lookup_delete_ne by congruence. by apply Hl.
Qed.

Lemma rep_forget x l v m s :
  Rep m s → mValuePtr m !! x = Some (Some l) → values s !! x = Some (Some v) →
  Rep (mkMem (<[x := None]> (mValuePtr m)) (heap m)) (mkPlain (<[x := None]> (values s)) (leaked s ++ [v])).
Proof.
  intros [Lk [Hv Hu Hc Hl Hp]] Hx Es. pose proof (Hv x) as Hvx. rewrite Hx, Es in Hvx. destruct Hvx as [Hh Hlk].
  exists (<[l := v]> Lk). split_rep.
  - intros y. at_object y; [done|]. specialize (Hv y).
    destruct (mValuePtr m !! y) as [[l'|]|] eqn:Ey; try done. destruct (values s !! y) as [[v'|]|]; try done.
    rewrite lookup_insert_ne; [done|]. intros ->. by rewrite (Hu x y l') in *.
  - intros y z l'. at_object y; [done|]. at_object z; [done|]. apply Hu.
  - intros l' v' Hh'. destruct (decide (l' = l)) as [->|].
    + left. rewrite lookup_insert_eq. congruence.
    + rewrite lookup_insert_ne by done. apply Hc in Hh' as [?|[y Hy]]; [by left|right]. exists y.
      rewrite lookup_insert_ne; [done|]. intros ->. congruence.
  - intros l' v'. destruct (decide (l' = l)) as [->|]; [rewrite lookup_insert_eq; congruence|].
    rewrite lookup_insert_ne by done. apply Hl.
  - rewrite map_to_list_insert by done. cbn. rewrite Hp. apply Permutation_cons_append.
Qed.

Lemma rep_exchange x y p p' o o' m s :
  Rep m s → mValuePtr m !! x = Some p → mValuePtr m !! y = Some p' →
  values s !! x = Some o → values s !! y = Some o' →
  Rep (mkMem (<[y := p]> (<[x := p']> (mValuePtr m))) (heap m)) (mkPlain (<[y := o]> (<[x := o']> (values s))) (leaked s)).
Proof.
  intros [Lk [Hv Hu Hc Hl Hp]] Hx Hy Ex Ey. exists Lk. pose proof (Hv x) as Hvx. pose proof (Hv y) as Hvy.
  rewrite Hx, Ex in Hvx. rewrite Hy, Ey in Hvy.
  assert (Hold : ∀ z, ∃ z', <[y:=p]> (<[x:=p']> (mValuePtr m)) !! z = mValuePtr m !! z' ∧
      z' = if decide (z = y) then x else if decide (z = x) then y else z).
  { intros z. eexists. split; [|reflexivity]. destruct (decide (z = y)) as [->|].
    - by rewrite lookup_insert_eq.
    - rewrite lookup_insert_ne by done. destruct (decide (z = x)) as [->|]; [by rewrite lookup_insert_eq|].
      by rewrite lookup_insert_ne. }
  split_rep; try done.
  - intros z. at_object z; [done|]. at_object z; [done|]. apply Hv.
  - intros z1 z2 l. destruct (Hold z1) as (z1' & -> & H1), (Hold z2) as (z2' & -> & H2).
    intros Hz1 Hz2. pose proof (Hu _ _ _ Hz1 Hz2) as He. rewrite He in H1. clear -H1 H2. repeat case_decide; congruence.
  - intros l v Hh. apply Hc in Hh as [?|[z Hz]]; [by left|right].
    exists (if decide (z = y) then x else if decide (z = x) then y else z).
    destruct (Hold (if decide (z = y) then x else if decide (z = x) then y else z)) as (z' & -> & ->).
    rewrite <- Hz. f_equal. repeat case_decide; congruence.
Qed.

Lemma rep_born x m s :
  Rep m s → mValuePtr m !! x = None →
  Rep (mkMem (<[x := None]> (mValuePtr m)) (heap m)) (mkPlain (<[x := None]> (values s)) (leaked s)).
Proof.
  intros [Lk [Hv Hu Hc Hl Hp]] Hx. exists Lk. split_rep; try done.
  - intros y. at_object y; [done|]. apply Hv.
  - intros y z l'. at_object y; [done|]. at_object z; [done|]. apply Hu.
  - intros l' v' Hh. apply Hc in Hh as [?|[y Hy]]; [by left|right]. exists y.
    rewrite lookup_insert_ne; [done|]. intros ->. congruence.
Qed.

Lemma rep_dead x m s :
  Rep m s → mValuePtr m !! x = Some None →
  Rep (mkMem (delete x (mValuePtr m)) (heap m)) (mkPlain (delete x (values s)) (leaked s)).
Proof.
  intros [Lk [Hv Hu Hc Hl Hp]] Hx. exists Lk. split_rep; try done.
  - intros y. destruct (decide (y = x)) as [->|]; [by rewrite !lookup_delete_eq|rewrite !lookup_delete_ne by done]. apply Hv.
  - intros y z l' [_ H1]%lookup_delete_Some [_ H2]%lookup_delete_Some. by apply (Hu _ _ l').
  - intros l' v' Hh. apply Hc in Hh as [?|[y Hy]]; [by left|right]. exists y.
    rewrite lookup_delete_ne; [done|]. intros ->. congruence.
Qed.

(** A call does in memory what the other does on plain options. *)
Definition sim {A} (c : M (Mem T) A) (a : M (Plain T) A) : Prop := simulates Rep c a.

(** Two calls on plain options are the same, up to what undefined behaviour leaves behind. *)
Definition same {S A} (a a' : M S A) : Prop := ∀ w : S,
  fst (a w) = fst (a' w) ∧ (fst (a w) ≠ Undefined → snd (a w) = snd (a' w)).

Lemma sim_same {A} (c : M (Mem T) A) a a' : sim c a → same a a' → sim c a'.
Proof.
  intros Hc Ha m s Hr. destruct (Hc m s Hr) as [H1 H2], (Ha s) as [H3 H4]. split; [congruence|].
  intros Hu. rewrite <- H4 by congruence. by apply H2.
Qed.

(** What a pointer says of a value. *)
Lemma rep_ptr x m s : Rep m s →
  match mValuePtr m !! x, values s !! x with
  | None, None | Some None, Some None => True
  | Some (Some l), Some (Some v) => heap m !! l = Some v
  | _, _ => False
  end.
Proof. intros [Lk HR]. pose proof (r_value _ _ _ HR x) as Hx.
  destruct (mValuePtr m !! x) as [[l|]|], (values s !! x) as [[v|]|]; try done. apply Hx.
Qed.

End Simulation.

(** Opens a simulation of primitive calls: the object [x] lives, with or without a value. *)
Ltac object_cases x Hr :=
  let Hx := fresh "Hx" in let Ep := fresh "Ep" in let Eo := fresh "Eo" in
  pose proof (rep_ptr x _ _ Hr) as Hx;
  match type of Hx with context [mValuePtr ?m !! x] => destruct (mValuePtr m !! x) as [[?l|]|] eqn:Ep end;
  match type of Hx with context [values ?s !! x] => destruct (values s !! x) as [[?v|]|] eqn:Eo end;
  try done.

Section Primitives.
Context {T : Type}.
Implicit Types (m : Mem T) (s : Plain T).

Lemma HasValue_sim x : sim (T := T) (Optional.HasValue x) (o ← value x; mret (match o with Some _ => true | None => false end)).
Proof. intros m s Hr. unfold Optional.HasValue, ptr, value. run. object_cases x Hr. Qed.

Lemma deref_sim x : sim (T := T) (deref x) (o ← value x; match o with Some v => mret v | None => lift Undefined end).
Proof. intros m s Hr. unfold deref, ptr, value, load. run. object_cases x Hr. by rewrite Hx. Qed.

Lemma begin_sim x : sim (T := T) (begin_life x) (unborn x;; set_value x None).
Proof.
  intros m s Hr. unfold begin_life, unborn, set_value. run. object_cases x Hr. split; [done|]. intros _. by apply rep_born.
Qed.

Lemma Reset_sim x : sim (T := T) (Optional.Reset x) (_ ← value x; set_value x None).
Proof.
  intros m s Hr. unfold Optional.Reset, ptr, free, set_ptr, value, set_value. run. object_cases x Hr.
  - rewrite Hx. cbn [mValuePtr]. rewrite Ep. split; [done|]. intros _. cbn. by eapply rep_free.
  - split; [done|]. intros _. cbn. rewrite insert_id by done. by destruct s.
Qed.

Lemma end_life_sim x : sim (T := T) (end_life x) (o ← value x; leak o;; kill x).
Proof.
  intros m s Hr. unfold end_life, value, leak, kill. run. object_cases x Hr; cbn; (split; [done|]; intros _).
  - pose proof (rep_dead x _ _ (rep_forget x _ _ _ _ Hr Ep Eo)) as Hd. cbn in Hd.
    rewrite lookup_insert_eq, !delete_insert_eq in Hd. by apply Hd.
  - rewrite app_nil_r. by apply rep_dead.
Qed.

Lemma heap_fresh m : heap m !! fresh (dom (heap m)) = None.
Proof. apply not_elem_of_dom, is_fresh. Qed.

Lemma put_sim x v : sim (T := T) (put x v) (o ← value x; leak o;; set_value x (Some v)).
Proof.
  intros m s Hr. unfold put, new, set_ptr, value, leak, set_value. run. cbn [mValuePtr heap].
  object_cases x Hr; cbn; (split; [done|]; intros _).
  - pose proof (rep_alloc x (fresh (dom (heap m))) v _ _ (rep_forget x _ _ _ _ Hr Ep Eo)) as Ha. cbn in Ha.
    rewrite lookup_insert_eq, !insert_insert_eq in Ha. by apply Ha, heap_fresh.
  - rewrite app_nil_r. apply rep_alloc; [done|done|apply heap_fresh].
Qed.

Lemma exchange_sim x y :
  sim (T := T) (p ← ptr x; p' ← ptr y; set_ptr x p';; set_ptr y p)
      (o ← value x; o' ← value y; set_value x o';; set_value y o).
Proof.
  intros m s Hr. unfold ptr, set_ptr, value, set_value. run. cbn [mValuePtr heap].
  object_cases x Hr; object_cases y Hr; rewrite Ep; cbn [mValuePtr];
    (destruct (decide (x = y)) as [->|Hne]; [rewrite lookup_insert_eq|rewrite lookup_insert_ne by done; rewrite Ep0]);
    cbn; (split; [done|]; intros _); by eapply rep_exchange.
Qed.

Lemma transfer_sim x y :
  x ≠ y → sim (T := T) (transfer x y) (o' ← value y; o ← value x; leak o;; set_value x o';; set_value y None).
Proof.
  intros Hne m s Hr. unfold transfer, ptr, set_ptr, value, leak, set_value. run. cbn [mValuePtr heap].
  assert (He : ∀ m s p' o', Rep m s → mValuePtr m !! x = Some None → values s !! x = Some None →
    mValuePtr m !! y = Some p' → values s !! y = Some o' →
    Rep (mkMem (<[y := None]> (<[x := p']> (mValuePtr m))) (heap m))
        (mkPlain (<[y := None]> (<[x := o']> (values s))) (leaked s))).
  { intros m' s' p' o' Hr' ????. by apply rep_exchange. }
  object_cases y Hr; object_cases x Hr; cbn [mValuePtr];
    rewrite lookup_insert_ne by done; rewrite Ep; cbn; (split; [done|]; intros _).
  1,3: pose proof (He _ _ _ _ (rep_forget x _ _ _ _ Hr Ep0 Eo0) (lookup_insert_eq _ _ _) (lookup_insert_eq _ _ _)
      (eq_trans (lookup_insert_ne _ _ _ _ Hne) Ep) (eq_trans (lookup_insert_ne _ _ _ _ Hne) Eo)) as Hg;
    cbn [mValuePtr heap values leaked] in Hg; by rewrite !insert_insert_eq in Hg.
  all: rewrite app_nil_r; by apply He.
Qed.

(** Dereferencing an optional's reference right away. *)
Definition needed (o : option T) : M (Plain T) T := match o with Some v => mret v | None => raise std_runtime_error end.

Lemma get_sim x : sim (T := T) (l ← Optional.Value x; load l) (o ← value x; needed o).
Proof. intros m s Hr. unfold Optional.Value, ptr, value, load, needed. run. object_cases x Hr. by rewrite Hx. Qed.

Lemma take_sim moved x :
  sim (T := T) (l ← Optional.Value_rvalue x; move_out moved l)
      (o ← value x; v ← needed o; set_value x None;; leak (Some (moved v));; mret v).
Proof.
  intros m s Hr. unfold Optional.Value_rvalue, move_out, ptr, set_ptr, load, store, value, needed, set_value, leak. run.
  object_cases x Hr. rewrite Ep. cbn. rewrite Hx. cbn. rewrite ?Hx. split; [done|]. intros _. cbn.
  pose proof (rep_update x _ (moved v) _ _ Hr Ep) as Hu.
  pose proof (rep_forget x _ (moved v) _ _ Hu Ep ltac:(cbn; by rewrite lookup_insert_eq)) as Hf. cbn in Hf.
  by rewrite insert_insert_eq in Hf.
Qed.

Lemma move_sim moved x :
  sim (T := T) (p ← ptr x; match p with Some l => move_out moved l | None => lift Undefined end)
      (o ← value x; match o with Some v => set_value x (Some (moved v));; mret v | None => lift Undefined end).
Proof.
  intros m s Hr. unfold move_out, ptr, load, store, value, set_value. run.
  object_cases x Hr. rewrite Hx. cbn. rewrite ?Hx. cbn. split; [done|]. intros _. cbn. by apply rep_update.
Qed.

Lemma Reset_full x l v m :
  mValuePtr m !! x = Some (Some l) → heap m !! l = Some v →
  Optional.Reset x m = (Ok (), mkMem (<[x := None]> (mValuePtr m)) (delete l (heap m))).
Proof. intros Hx Hl. unfold Optional.Reset, ptr, free, set_ptr. run. rewrite Hx, Hl. cbn. by rewrite Hx. Qed.

Lemma Reset_empty x m : mValuePtr m !! x = Some None → Optional.Reset x m = (Ok (), m).
Proof. intros Hx. unfold Optional.Reset, ptr. run. by rewrite Hx. Qed.

(** Filling an optional that holds nothing. *)
Lemma put_empty x v m s :
  Rep m s → values s !! x = Some None →
  fst (put x v m) = Ok () ∧ Rep (snd (put x v m)) (mkPlain (<[x := Some v]> (values s)) (leaked s)).
Proof.
  intros Hr Hx. destruct (put_sim x v m s Hr) as [H1 H2]. unfold value, leak, set_value in H1, H2.
  cbv [mbind M_bind] in H1, H2. rewrite Hx in H1, H2. cbn in H1, H2. rewrite app_nil_r in H2.
  split; [done|]. apply H2. by rewrite H1.
Qed.

(** [x = y.Value()]: the reference dangles when [x] and [y] are one object. *)
Lemma assign_from_sim x y :
  sim (T := T) (l ← Optional.Value y; Optional.assign x (inr l))
      (o ← value y; v ← needed o; _ ← value x; if decide (x = y) then lift Undefined else set_value x (Some v)).
Proof.
  intros m s Hr. cbv [mbind M_bind]. unfold Optional.Value, ptr, value, needed. cbv [mbind M_bind mret M_ret raise].
  object_cases y Hr. unfold Optional.assign, Optional.read. cbv [mbind M_bind]. object_cases x Hr.
  - rewrite (Reset_full x _ _ m Ep0 Hx0). unfold load. cbn [heap]. case_decide as Hxy.
    + subst y. assert (l0 = l) as -> by congruence. by rewrite lookup_delete_eq.
    + rewrite lookup_delete_ne, Hx; cycle 1.
      { intros ->. destruct Hr as [Lk HR]. by apply Hxy, (r_unique _ _ _ HR x y l). }
      pose proof (rep_free x _ _ _ Hr Ep0) as Hr'.
      destruct (put_empty x v _ _ Hr' (lookup_insert_eq _ _ _)) as [Hp1 Hp2]. cbn in Hp2. rewrite insert_insert_eq in Hp2.
      by split.
  - rewrite (Reset_empty x m Ep0). unfold load. rewrite Hx. case_decide as Hxy; [congruence|].
    by destruct (put_empty x v _ _ Hr Eo0) as [Hp1 Hp2].
  - unfold Optional.Reset, ptr. cbv [mbind M_bind]. by rewrite Ep0.
Qed.

Lemma rep_dom m s : Rep m s → dom (mValuePtr m) = dom (values s).
Proof.
  intros Hr. apply set_eq. intros x. rewrite !elem_of_dom. pose proof (rep_ptr x m s Hr) as Hx.
  destruct (mValuePtr m !! x) as [[]|], (values s !! x) as [[]|]; try done.
Qed.

Lemma temporary_sim {A} (f : object → M (Mem T) A) g :
  (∀ t, sim (T := T) (f t) (g t)) →
  sim (T := T) (m ← get; f (fresh (dom (mValuePtr m)))) (s ← get; g (fresh (dom (values s)))).
Proof. intros Hf m s Hr. unfold get. run. rewrite (rep_dom m s Hr). by apply Hf. Qed.

Lemma set_none_sim x : sim (T := T) (set_ptr x None) (o ← value x; leak o;; set_value x None).
Proof.
  intros m s Hr. unfold set_ptr, value, leak, set_value. run. object_cases x Hr; cbn; (split; [done|]; intros _).
  - by apply rep_forget with (l := l).
  - rewrite !insert_id, app_nil_r by done. by destruct m, s.
Qed.

End Primitives.

(** A simulation is the composition of those of its calls, up to an equation of calls on
    plain options, which is the cases of the objects' values. *)
Ltac compose :=
  repeat first
    [ apply HasValue_sim | apply Reset_sim | apply deref_sim | apply put_sim
    | apply begin_sim | apply end_life_sim | apply set_none_sim | apply get_sim | apply take_sim | apply move_sim | apply assign_from_sim
    | apply exchange_sim | (apply transfer_sim; assumption)
    | lazymatch goal with
      | |- _ (mret _) _ => apply simulates_ret
      | |- _ (lift _) _ => apply simulates_lift
      | |- _ (_ ≫= _) _ => eapply simulates_bind; [|intros ?]
      | |- _ (match _ with true => match _ with true => _ | false => _ end | false => _ end) _ => apply simulates_both
      | |- _ (if _ then _ else _) _ => apply simulates_if
      end ].

Ltac same_maps :=
  apply map_eq; intros ?i;
  repeat match goal with
    | |- context [<[?x := _]> _ !! ?x] => rewrite lookup_insert_eq
    | |- context [delete ?x _ !! ?x] => rewrite lookup_delete_eq
    | |- context [<[?x := _]> _ !! ?i] => destruct (decide (i = x)) as [->|]; [rewrite !lookup_insert_eq|repeat rewrite (lookup_insert_ne _ x i) by done]
    | |- context [delete ?x _ !! ?i] => destruct (decide (i = x)) as [->|]; [rewrite !lookup_delete_eq|repeat rewrite (lookup_delete_ne _ x i) by done]
    end; try done; try congruence.

Ltac same_cases :=
  intros s; unfold same, unborn, value, set_value, kill, leak, needed;
  cbv [mbind M_bind mret M_ret lift raise]; cbn [values leaked fst snd];
  repeat (first
    [ rewrite lookup_insert_eq
    | rewrite lookup_insert_ne by done
    | match goal with H : values ?s !! ?x = _ |- context [values ?s !! ?x] => rewrite H end
    | match goal with |- context [values ?s !! ?x] => is_var s; destruct (values s !! x) as [[?|]|] eqn:? end ];
    cbn [values leaked fst snd option_list]; try done);
  rewrite ?app_nil_r, ?insert_insert_eq, ?delete_insert_eq; try (split; [done|intros _; first [done|f_equal; same_maps|destruct s; cbn [values leaked] in *; f_equal; same_maps]]).

Section Operations_sim.
Context {T : Type}.
Implicit Types (x y : object) (v : T).

Lemma from_value_sim x v : sim (T := T) (Optional.from_value x v) (unborn x;; set_value x (Some v)).
Proof. eapply sim_same; [unfold Optional.from_value; compose|]. same_cases. Qed.

Lemma copy_construct_sim x y : sim (T := T) (Optional.copy_construct x y) (unborn x;; o ← value y; set_value x o).
Proof.
  destruct (decide (x = y)) as [->|]; (eapply sim_same; [unfold Optional.copy_construct; compose|]); same_cases.
Qed.

Lemma move_construct_sim x y :
  sim (T := T) (Optional.move_construct x y) (unborn x;; o ← value y; set_value x o;; set_value y None).
Proof.
  destruct (decide (x = y)) as [->|]; cycle 1.
  - eapply sim_same; [unfold Optional.move_construct; compose|]. same_cases.
  - intros m s Hr. unfold Optional.move_construct, Optional.HasValue, begin_life, ptr, unborn, value. run.
    object_cases y Hr; by rewrite ?Ep, ?Eo.
Qed.

Lemma destruct_sim x : sim (T := T) (Optional.destruct_ x) (_ ← value x; kill x).
Proof. eapply sim_same; [unfold Optional.destruct_; compose|]. same_cases. Qed.

Lemma copy_assign_sim x y :
  sim (T := T) (Optional.copy_assign x y) (_ ← value x; o ← value y; set_value x (if decide (x = y) then None else o)).
Proof.
  eapply sim_same; [unfold Optional.copy_assign; compose|]. case_decide as Hxy; [subst y|]; same_cases.
Qed.

Lemma move_assign_sim x y :
  sim (T := T) (Optional.move_assign x y) (_ ← value x; o ← value y; set_value x o;; set_value y None).
Proof.
  destruct (decide (x = y)) as [->|]; cycle 1.
  - eapply sim_same; [unfold Optional.move_assign; compose|]. same_cases.
  - intros m s Hr. unfold Optional.move_assign. cbv [mbind M_bind].
    unfold value. object_cases y Hr.
    + rewrite (Reset_full y _ _ m Ep Hx). unfold Optional.HasValue, ptr. cbv [mbind M_bind]. cbn [mValuePtr].
      rewrite lookup_insert_eq, ?Eo. split; [done|]. intros _. cbn. rewrite insert_insert_eq. by apply rep_free.
    + rewrite (Reset_empty y m Ep). unfold Optional.HasValue, ptr. cbv [mbind M_bind].
      rewrite Ep, ?Eo. split; [done|]. intros _. cbn. rewrite insert_insert_eq, insert_id by done. by destruct s.
    + unfold Optional.Reset, ptr. cbv [mbind M_bind]. by rewrite Ep, ?Eo.
Qed.

Lemma assign_sim x v : sim (T := T) (Optional.assign x (inl v)) (_ ← value x; set_value x (Some v)).
Proof. eapply sim_same; [unfold Optional.assign, Optional.read; compose|]. same_cases. Qed.

Lemma Emplace_sim x v : sim (T := T) (Optional.Emplace x (inl v)) (_ ← value x; set_value x (Some v)).
Proof. exact (assign_sim x v). Qed.

Lemma Swap_sim x y :
  sim (T := T) (Optional.Swap x y) (o ← value x; o' ← value y; set_value x o';; set_value y o).
Proof.
  destruct (decide (x = y)) as [->|Hne]; cycle 1.
  - assert (y ≠ x) by done. eapply sim_same.
    + unfold Optional.Swap. compose.
    + same_cases.
  - intros m s Hr. unfold Optional.Swap, Optional.HasValue, ptr, set_ptr, value, set_value. run. cbn [mValuePtr heap].
    object_cases y Hr.
    + rewrite !Ep. cbn. rewrite !lookup_insert_eq. cbn.
      rewrite ?Eo, !insert_insert_eq, !insert_id by done. by destruct m, s.
    + rewrite !Ep, ?Eo. cbn. rewrite insert_insert_eq, insert_id by done. by destruct s.
Qed.

Lemma ValueOr_sim x v : sim (T := T) (Optional.ValueOr x v) (o ← value x; mret (default v o)).
Proof. eapply sim_same; [unfold Optional.ValueOr; compose|]. same_cases. Qed.

Lemma ValueOr_rvalue_sim moved x v :
  sim (T := T) (Optional.ValueOr_rvalue moved x v) (o ← value x; set_value x (moved <$> o);; mret (default v o)).
Proof. eapply sim_same; [unfold Optional.ValueOr_rvalue; compose|]. same_cases. Qed.

Lemma star_rvalue_sim moved x :
  sim (T := T) (l ← Optional.star_rvalue x; move_out moved l)
    (o ← value x; v ← needed o; set_value x (Some (moved v));; mret v).
Proof.
  intros m s Hr. unfold Optional.star_rvalue, Optional.HasValue, move_out, ptr, load, store, value, set_value, needed. run.
  object_cases x Hr. rewrite ?Ep; cbn. rewrite Hx. cbn. rewrite Hx. split; [done|]. intros _. cbn. by apply rep_update.
Qed.

Lemma equal_sim `{EqDecision T} x y :
  sim (T := T) (Optional.equal x y) (o ← value x; o' ← value y; mret (bool_decide (o = o'))).
Proof.
  intros m s Hr. unfold Optional.equal, Optional.HasValue, Optional.Value, ptr, load, value. run.
  object_cases x Hr; object_cases y Hr; rewrite ?Ep, ?Hx, ?Hx0; cbn; rewrite ?Ep, ?Ep0, ?Hx, ?Hx0; cbn; rewrite ?Ep, ?Ep0, ?Hx, ?Hx0;
    (split; [|done]); cbn; f_equal; apply bool_decide_ext; naive_solver.
Qed.

Lemma not_equal_sim `{EqDecision T} x y :
  sim (T := T) (Optional.not_equal x y) (o ← value x; o' ← value y; mret (bool_decide (o ≠ o'))).
Proof.
  intros m s Hr. unfold Optional.not_equal, Optional.HasValue, Optional.Value, ptr, load, value. run.
  object_cases x Hr; object_cases y Hr; rewrite ?Ep, ?Hx, ?Hx0; cbn; rewrite ?Ep, ?Ep0, ?Hx, ?Hx0; cbn; rewrite ?Ep, ?Ep0, ?Hx, ?Hx0;
    (split; [|done]); cbn; f_equal; apply bool_decide_ext; naive_solver.
Qed.

(** [std::swap] through the temporary [tmp]. *)
Definition plain_swap x y (tmp : object) : M (Plain T) () :=
  (unborn tmp;; o ← value x; set_value tmp o;; set_value x None);;
  (_ ← value x; o ← value y; set_value x o;; set_value y None);;
  (_ ← value y; o ← value tmp; set_value y o;; set_value tmp None);;
  _ ← value tmp; kill tmp.

Lemma plain_swap_swaps x y tmp s :
  values s !! tmp = None → is_Some (values s !! y) →
  let a := plain_swap x y tmp s in
  let a' := (o ← value x; o' ← value y; set_value x o';; set_value y o) s in
  fst a = fst a' ∧ (fst a ≠ Undefined → snd a = snd a').
Proof.
  intros Htmp [o' Ey]. cbv zeta. unfold plain_swap, unborn, value, set_value, kill. cbv [mbind M_bind]. rewrite Htmp.
  destruct (values s !! x) as [o|] eqn:Ex; [|done]. cbn [values leaked].
  assert (Hx : tmp ≠ x) by congruence. rewrite lookup_insert_eq. cbn [values leaked].
  destruct (decide (x = y)) as [->|Hne].
  - rewrite !lookup_insert_eq. cbn [values leaked].
    rewrite !lookup_insert_eq. cbn [values leaked].
    rewrite ?(lookup_insert_ne _ y tmp), ?lookup_insert_eq by done. cbn [values leaked fst snd].
    rewrite ?lookup_insert_eq, ?Ex. cbn [values leaked fst snd]. split; [done|]. intros _. f_equal. same_maps.
  - rewrite (lookup_insert_ne _ x y), Ey by done.
    assert (Hy : tmp ≠ y) by congruence. rewrite (lookup_insert_ne _ tmp y), Ey by done. cbn [values leaked].
    rewrite lookup_insert_eq. cbn [values leaked].
    rewrite ?(lookup_insert_ne _ y tmp), ?(lookup_insert_ne _ x tmp), lookup_insert_eq by done. cbn [values leaked].
    rewrite lookup_insert_eq. cbn [values leaked fst snd]. split; [done|]. intros _. f_equal. same_maps.
Qed.

Lemma living_sim {A} x (c : M (Mem T) A) a : sim c a → sim (_ ← ptr x; c) (_ ← value x; a).
Proof.
  intros Hs m s Hr. unfold ptr, value. cbv [mbind M_bind]. object_cases x Hr; by apply Hs.
Qed.

Lemma std_swap_sim x y :
  sim (T := T) (Optional.std_swap x y) (o ← value x; o' ← value y; set_value x o';; set_value y o).
Proof.
  eapply sim_same.
  - apply living_sim, living_sim.
    apply (temporary_sim (fun tmp => Optional.move_construct tmp x;; Optional.move_assign x y;; Optional.move_assign y tmp;; Optional.destruct_ tmp)
      (plain_swap x y)). intros tmp. eapply simulates_bind; [apply move_construct_sim|intros _].
    eapply simulates_bind; [apply move_assign_sim|intros _]. eapply simulates_bind; [apply move_assign_sim|intros _]. apply destruct_sim.
  - intros s. assert (Hv : ∀ z, value z s = match values s !! z with Some o => (Ok o, s) | None => (Undefined, s) end) by done.
    destruct (values s !! x) as [o|] eqn:Ex, (values s !! y) as [o'|] eqn:Ey;
      try (cbv [mbind M_bind]; rewrite (Hv x), Ex, ?(Hv y), ?Ey; done).
    pose proof (plain_swap_swaps x y (fresh (dom (values s))) s (proj1 (not_elem_of_dom _ _) (is_fresh _)) (mk_is_Some _ _ Ey)) as Hp.
    revert Hp. unfold get. cbv [mbind M_bind]. rewrite (Hv x), Ex, (Hv y), Ey. done.
Qed.

End Operations_sim.

Section Programs_sim.
Context {T : Type} `{EqDecision T}.
Variable moved : T → T.

Lemma execute_sim op : sim (T := T) (execute moved op) (specify moved op).
Proof.
  destruct op; cbn [execute specify]; unfold done_, truth, got.
  all: try (eapply sim_same; [eapply simulates_bind;
    [first [apply begin_sim | apply from_value_sim | apply copy_construct_sim | apply move_construct_sim | apply destruct_sim
       | apply copy_assign_sim | apply move_assign_sim | apply assign_sim | apply assign_from_sim | apply Emplace_sim | apply Swap_sim
       | apply Reset_sim | apply HasValue_sim | apply get_sim | apply take_sim | apply star_rvalue_sim | apply ValueOr_sim
       | apply ValueOr_rvalue_sim | apply equal_sim | apply std_swap_sim]|intros r; apply simulates_ret]|]).
  all: try (same_cases; fail).
  case_decide; same_cases.
Qed.

End Programs_sim.

(** When every object is destroyed, the cells that are left are the leaked ones. *)
Lemma rep_destroyed {T} (m : Mem T) s : Rep m s → values s = ∅ → (map_to_list (heap m)).*2 ≡ₚ leaked s.
Proof.
  intros [Lk [Hv Hu Hc Hl Hp]] He. rewrite <- Hp. assert (heap m = Lk) as ->; [|done].
  apply map_eq. intros l. destruct (heap m !! l) as [v|] eqn:Eh.
  - destruct (Hc l v Eh) as [->|[x Hx]]; [done|]. specialize (Hv x). rewrite Hx, He, lookup_empty in Hv. done.
  - destruct (Lk !! l) as [v|] eqn:El; [|done]. apply Hl in El. congruence.
Qed.

Lemma rep_nothing {T} : Rep (T := T) (mkMem ∅ ∅) (mkPlain ∅ []).
Proof. exists ∅. split; cbn; done. Qed.

(** ** Result *)

(** Calls of the two members. *)
Definition on_value {S S' A} (m : M S A) : M (S * S') A := fun '(t, e) => let '(r, t) := m t in (r, (t, e)).
Definition on_error {S S' A} (m : M S' A) : M (S * S') A := fun '(t, e) => let '(r, e) := m e in (r, (t, e)).

Module Result.
Section Operations.
Context {T E : Type}.

(** [ara/core/result.h:19-20] Result: each member is an [Optional] of its own memory *)
Definition Memory : Type := Mem T * Mem E.

(** [ara/core/result.h:190-193] HasValue *)
Definition HasValue (this : object) : M Memory bool := on_value (Optional.HasValue this).

(** [ara/core/result.h:30-38] Result(const T &), Result(T &&) *)
Definition from_value (this : object) (t : T) : M Memory () :=
  on_value (Optional.from_value this t);; on_error (Optional.construct this).

(** [ara/core/result.h:40-48] Result(const E &), Result(E &&) *)
Definition from_error (this : object) (e : E) : M Memory () :=
  on_value (Optional.construct this);; on_error (Optional.from_value this e).

(** [ara/core/result.h:50-63] Result(const Result &) *)
Definition copy_construct (this other : object) : M Memory () :=
  on_value (Optional.construct this);; on_error (Optional.construct this);;
  b ← HasValue other;
  if (b : bool) then on_value (Optional.copy_assign this other) else on_error (Optional.copy_assign this other).

(** [ara/core/result.h:65-78] Result(Result &&) *)
Definition move_construct (this other : object) : M Memory () :=
  on_value (Optional.construct this);; on_error (Optional.construct this);;
  b ← HasValue other;
  if (b : bool) then on_value (Optional.move_assign this other) else on_error (Optional.move_assign this other).

(** [ara/core/result.h:80-80] ~Result *)
Definition destruct_ (this : object) : M Memory () :=
  on_error (Optional.destruct_ this);; on_value (Optional.destruct_ this).

(** [ara/core/result.h:106-123] operator=(const Result &) *)
Definition copy_assign (this other : object) : M Memory () :=
  b ← HasValue other;
  if (b : bool)
  then on_value (Optional.copy_assign this other);; on_error (Optional.Reset this)
  else on_error (Optional.copy_assign this other);; on_value (Optional.Reset this).

(** [ara/core/result.h:125-142] operator=(Result &&) *)
Definition move_assign (this other : object) : M Memory () :=
  b ← HasValue other;
  if (b : bool)
  then on_value (Optional.move_assign this other);; on_error (Optional.Reset this)
  else on_error (Optional.move_assign this other);; on_value (Optional.Reset this).

(** [ara/core/result.h:146-151] EmplaceValue *)
Definition EmplaceValue (this : object) (arg : T) : M Memory () :=
  on_value (Optional.assign this (inl arg));; on_error (Optional.Reset this).

(** [ara/core/result.h:155-160] EmplaceError *)
Definition EmplaceError (this : object) (arg : E) : M Memory () :=
  on_error (Optional.assign this (inl arg));; on_value (Optional.Reset this).

(** [ara/core/result.h:164-186] Swap *)
Definition Swap (this other : object) : M Memory () :=
  b ← HasValue this; b' ← HasValue other;
  match b, b' with
  | true, true => on_value (Optional.std_swap this other)
  | true, false => on_error (Optional.move_assign this other);; on_value (Optional.move_assign other this)
  | false, true => on_value (Optional.move_assign this other);; on_error (Optional.move_assign other this)
  | false, false => on_error (Optional.std_swap this other)
  end.

(** [ara/core/result.h:225-228] Value() const & *)
Definition Value (this : object) : M Memory address := on_value (Optional.Value this).

(** [ara/core/result.h:233-236] Value() && *)
Definition Value_rvalue (this : object) : M Memory address := on_value (Optional.Value_rvalue this).

(** [ara/core/result.h:241-244] Error() const & *)
Definition Error (this : object) : M Memory address := on_error (Optional.Value this).

(** [ara/core/result.h:249-252] Error() && *)
Definition Error_rvalue (this : object) : M Memory address := on_error (Optional.Value_rvalue this).

(** [ara/core/result.h:286-290] ValueOr *)
Definition ValueOr (this : object) (defaultValue : T) : M Memory T := on_value (Optional.ValueOr this defaultValue).

(** [ara/core/result.h:306-310] ErrorOr *)
Definition ErrorOr (this : object) (defaultError : E) : M Memory E := on_error (Optional.ValueOr this defaultError).

(** [ara/core/result.h:325-338] CheckError *)
Definition CheckError `{EqDecision E} (this : object) (error : E) : M Memory bool :=
  b ← HasValue this;
  if (b : bool) then mret false
  else l ← Error this; e ← on_error (load l); mret (bool_decide (e = error)).

(** [ara/core/result.h:360-364] Resolve *)
Definition Resolve (f : E → T) (this : object) : M Memory T :=
  b ← HasValue this;
  if (b : bool) then l ← Value this; on_value (load l)
  else l ← Error this; e ← on_error (load l); mret (f e).

(** [ara/core/result.h:370-383] Bind: what the new [Result] of the callable's type is made of *)
Definition Bind {U} (f : T → U) (this : object) : M Memory (U + E) :=
  b ← HasValue this;
  if (b : bool) then l ← Value this; v ← on_value (load l); mret (inl (f v))
  else l ← Error this; e ← on_error (load l); mret (inr e).

(** [ara/core/result.h:419-438] operator== *)
Definition equal `{EqDecision T, EqDecision E} (lhs rhs : object) : M Memory bool :=
  b ← HasValue lhs; b' ← HasValue rhs;
  match b, b' with
  | true, true =>
      l ← Value lhs; v ← on_value (load l); l' ← Value rhs; v' ← on_value (load l'); mret (bool_decide (v = v'))
  | true, false => mret false
  | false, true => mret false
  | false, false =>
      l ← Error lhs; e ← on_error (load l); l' ← Error rhs; e' ← on_error (load l'); mret (bool_decide (e = e'))
  end.

(** [ara/core/result.h:462-467] operator==(const Result &, const T &) *)
Definition equal_value `{EqDecision T} (lhs : object) (rhs : T) : M Memory bool :=
  b ← HasValue lhs;
  if (b : bool) then l ← Value lhs; v ← on_value (load l); mret (bool_decide (v = rhs)) else mret false.

(** [ara/core/result.h:490-495] operator==(const Result &, const E &) *)
Definition equal_error `{EqDecision E} (lhs : object) (rhs : E) : M Memory bool :=
  b ← HasValue lhs;
  if (b : bool) then mret false else l ← Error lhs; e ← on_error (load l); mret (bool_decide (e = rhs)).

End Operations.
End Result.

(** ** What programs do with results *)
Section Result_programs.
Context {T E : Type} `{EqDecision T, EqDecision E}.
Variable moved : T → T.
Variable moved_error : E → E.

(** [Take x] is [T v{std::move(x).Value()}], [TakeError x] the same with [Error()]. *)
Inductive result_operation :=
  | RFromValue (x : object) (v : T)
  | RFromError (x : object) (e : E)
  | RCopyConstruct (x y : object)
  | RMoveConstruct (x y : object)
  | RDestroy (x : object)
  | RCopyAssign (x y : object)
  | RMoveAssign (x y : object)
  | REmplaceValue (x : object) (v : T)
  | REmplaceError (x : object) (e : E)
  | RSwap (x y : object)
  | RHas (x : object)
  | RGet (x : object)
  | RTake (x : object)
  | RGetError (x : object)
  | RTakeError (x : object)
  | RValueOr (x : object) (v : T)
  | RErrorOr (x : object) (e : E)
  | RCheckError (x : object) (e : E)
  | RResolve (f : E → T) (x : object)
  | RBind (f : T → T) (x : object)
  | REqual (x y : object).

Inductive result_observation := RDone | RTruth (b : bool) | RValue (v : T) | RError (e : E) | REither (r : T + E).

Definition execute_result (op : result_operation) : M (Result.Memory (T := T) (E := E)) result_observation :=
  match op with
  | RFromValue x v => Result.from_value x v;; mret RDone
  | RFromError x e => Result.from_error x e;; mret RDone
  | RCopyConstruct x y => Result.copy_construct x y;; mret RDone
  | RMoveConstruct x y => Result.move_construct x y;; mret RDone
  | RDestroy x => Result.destruct_ x;; mret RDone
  | RCopyAssign x y => Result.copy_assign x y;; mret RDone
  | RMoveAssign x y => Result.move_assign x y;; mret RDone
  | REmplaceValue x v => Result.EmplaceValue x v;; mret RDone
  | REmplaceError x e => Result.EmplaceError x e;; mret RDone
  | RSwap x y => Result.Swap x y;; mret RDone
  | RHas x => b ← Result.HasValue x; mret (RTruth b)
  | RGet x => v ← (l ← Result.Value x; on_value (load l)); mret (RValue v)
  | RTake x => v ← (l ← Result.Value_rvalue x; on_value (move_out moved l)); mret (RValue v)
  | RGetError x => e ← (l ← Result.Error x; on_error (load l)); mret (RError e)
  | RTakeError x => e ← (l ← Result.Error_rvalue x; on_error (move_out moved_error l)); mret (RError e)
  | RValueOr x v => v ← Result.ValueOr x v; mret (RValue v)
  | RErrorOr x e => e ← Result.ErrorOr x e; mret (RError e)
  | RCheckError x e => b ← Result.CheckError x e; mret (RTruth b)
  | RResolve f x => v ← Result.Resolve f x; mret (RValue v)
  | RBind f x => r ← Result.Bind f x; mret (REither r)
  | REqual x y => b ← Result.equal x y; mret (RTruth b)
  end.

(** A plain result: a value, an error, or neither, which is what a move leaves behind. *)
Inductive plain_result := PValue (v : T) | PError (e : E) | PHollow.

Definition of_options (o : option T) (o' : option E) : plain_result :=
  match o, o' with Some v, _ => PValue v | None, Some e => PError e | None, None => PHollow end.

Definition value_part (r : plain_result) : option T := match r with PValue v => Some v | _ => None end.
Definition error_part (r : plain_result) : option E := match r with PError e => Some e | _ => None end.

Abbreviation Plains := (Plain T * Plain E)%type.

Definition contents (x : object) : M Plains plain_result :=
  o ← on_value (value x); o' ← on_error (value x); mret (of_options o o').

Definition set_contents (x : object) (r : plain_result) : M Plains () :=
  on_value (set_value x (value_part r));; on_error (set_value x (error_part r)).

Definition unborn_result (x : object) : M Plains () := on_value (unborn x);; on_error (unborn x).

(** The same on plain results: a copy is a copy and a move a move, a result that is assigned
    to itself ends with neither a value nor an error, and what is taken from an rvalue
    leaves its cell behind. *)
Definition specify_result (op : result_operation) : M Plains result_observation :=
  match op with
  | RFromValue x v => unborn_result x;; set_contents x (PValue v);; mret RDone
  | RFromError x e => unborn_result x;; set_contents x (PError e);; mret RDone
  | RCopyConstruct x y =>
      unborn_result x;;
      if decide (x = y) then set_contents x PHollow;; mret RDone
      else r ← contents y; set_contents x r;; mret RDone
  | RMoveConstruct x y =>
      unborn_result x;;
      if decide (x = y) then set_contents x PHollow;; mret RDone
      else r ← contents y; set_contents x r;; set_contents y PHollow;; mret RDone
  | RDestroy x => _ ← contents x; on_value (kill x);; on_error (kill x);; mret RDone
  | RCopyAssign x y =>
      r ← contents y; _ ← contents x; set_contents x (if decide (x = y) then PHollow else r);; mret RDone
  | RMoveAssign x y => r ← contents y; _ ← contents x; set_contents x r;; set_contents y PHollow;; mret RDone
  | REmplaceValue x v => _ ← contents x; set_contents x (PValue v);; mret RDone
  | REmplaceError x e => _ ← contents x; set_contents x (PError e);; mret RDone
  | RSwap x y => r ← contents x; r' ← contents y; set_contents x r';; set_contents y r;; mret RDone
  | RHas x => r ← contents x; mret (RTruth (match r with PValue _ => true | _ => false end))
  | RGet x => r ← contents x; match r with PValue v => mret (RValue v) | _ => raise std_runtime_error end
  | RTake x =>
      r ← contents x;
      match r with
      | PValue v => set_contents x PHollow;; on_value (leak (Some (moved v)));; mret (RValue v)
      | _ => raise std_runtime_error
      end
  | RGetError x => r ← contents x; match r with PError e => mret (RError e) | _ => raise std_runtime_error end
  | RTakeError x =>
      r ← contents x;
      match r with
      | PError e => set_contents x PHollow;; on_error (leak (Some (moved_error e)));; mret (RError e)
      | _ => raise std_runtime_error
      end
  | RValueOr x v => r ← contents x; mret (RValue (match r with PValue v' => v' | _ => v end))
  | RErrorOr x e => r ← contents x; mret (RError (match r with PError e' => e' | _ => e end))
  | RCheckError x e =>
      r ← contents x;
      match r with
      | PValue _ => mret (RTruth false)
      | PError e' => mret (RTruth (bool_decide (e' = e)))
      | PHollow => raise std_runtime_error
      end
  | RResolve f x =>
      r ← contents x;
      match r with
      | PValue v => mret (RValue v)
      | PError e => mret (RValue (f e))
      | PHollow => raise std_runtime_error
      end
  | RBind f x =>
      r ← contents x;
      match r with
      | PValue v => mret (REither (inl (f v)))
      | PError e => mret (REither (inr e))
      | PHollow => raise std_runtime_error
      end
  | REqual x y =>
      r ← contents x; r' ← contents y;
      match r, r' with
      | PValue v, PValue v' => mret (RTruth (bool_decide (v = v')))
      | PValue _, _ | _, PValue _ => mret (RTruth false)
      | PError e, PError e' => mret (RTruth (bool_decide (e = e')))
      | _, _ => raise std_runtime_error
      end
  end.

End Result_programs.

(** ** Lemmas: results *)
Section Result_sim.
Context {T E : Type} `{EqDecision T, EqDecision E}.

Abbreviation Plains := (Plain T * Plain E)%type.

(** A result's two optionals live together, and at most one of them holds something. *)
Definition exclusive (s : Plains) : Prop := ∀ x,
  match values s.1 !! x, values s.2 !! x with
  | None, None | Some None, Some _ | Some _, Some None => True
  | _, _ => False
  end.

Definition Rep2 (m : Mem T * Mem E) (s : Plains) : Prop := Rep m.1 s.1 ∧ Rep m.2 s.2.

Definition RepResult (m : Mem T * Mem E) (s : Plains) : Prop := Rep2 m s ∧ exclusive s.

Lemma on_value_sim {A} (c : M (Mem T) A) a : sim c a → simulates Rep2 (on_value c) (on_value a).
Proof.
  intros Hc [m m'] [s s'] [Hr Hr']. destruct (Hc m s Hr) as [H1 H2]. unfold on_value.
  destruct (c m) as [r m1], (a s) as [r' s1]. cbn in *. split; [done|]. intros Hu. split; [by apply H2|done].
Qed.

Lemma on_error_sim {A} (c : M (Mem E) A) a : sim c a → simulates Rep2 (on_error c) (on_error a).
Proof.
  intros Hc [m m'] [s s'] [Hr Hr']. destruct (Hc m' s' Hr') as [H1 H2]. unfold on_error.
  destruct (c m') as [r m1], (a s') as [r' s1]. cbn in *. split; [done|]. intros Hu. split; [done|by apply H2].
Qed.

(** A composition of calls on plain optionals that is a call on plain results. *)
Definition refines {A} (a a' : M Plains A) : Prop := ∀ s, exclusive s →
  fst (a s) = fst (a' s) ∧ (fst (a s) ≠ Undefined → snd (a s) = snd (a' s) ∧ exclusive (snd (a' s))).

Lemma simulates_refines {A} (c : M (Mem T * Mem E) A) a a' :
  simulates Rep2 c a → refines a a' → simulates RepResult c a'.
Proof.
  intros Hc Ha m s [Hr He]. destruct (Hc m s Hr) as [H1 H2], (Ha s He) as [H3 H4]. split; [congruence|].
  intros Hu. destruct H4 as [H4 H5]; [congruence|]. split; [|done]. rewrite <- H4. by apply H2.
Qed.

End Result_sim.

(** The references that a result hands out are read at once. *)
Section Result_reads.
Context {T E : Type}.

Lemma value_read_sim x :
  simulates (Rep2 (T := T) (E := E)) (l ← Result.Value x; on_value (load l)) (on_value (o ← value x; needed o)).
Proof.
  intros [m m'] [s s'] Hr. pose proof (on_value_sim _ _ (get_sim x) (m, m') (s, s') Hr) as Hs.
  unfold Result.Value, on_value in *. cbv [mbind M_bind] in *. by destruct (Optional.Value x m) as [[l|e| |] m1].
Qed.

Lemma value_take_sim moved x :
  simulates (Rep2 (T := T) (E := E)) (l ← Result.Value_rvalue x; on_value (move_out moved l))
    (on_value (o ← value x; v ← needed o; set_value x None;; leak (Some (moved v));; mret v)).
Proof.
  intros [m m'] [s s'] Hr. pose proof (on_value_sim _ _ (take_sim moved x) (m, m') (s, s') Hr) as Hs.
  unfold Result.Value_rvalue, on_value in *. cbv [mbind M_bind] in *. by destruct (Optional.Value_rvalue x m) as [[l|e| |] m1].
Qed.

Lemma error_read_sim x :
  simulates (Rep2 (T := T) (E := E)) (l ← Result.Error x; on_error (load l)) (on_error (o ← value x; needed o)).
Proof.
  intros [m m'] [s s'] Hr. pose proof (on_error_sim _ _ (get_sim x) (m, m') (s, s') Hr) as Hs.
  unfold Result.Error, on_error in *. cbv [mbind M_bind] in *. by destruct (Optional.Value x m') as [[l|e| |] m1].
Qed.

Lemma error_take_sim moved x :
  simulates (Rep2 (T := T) (E := E)) (l ← Result.Error_rvalue x; on_error (move_out moved l))
    (on_error (o ← value x; v ← needed o; set_value x None;; leak (Some (moved v));; mret v)).
Proof.
  intros [m m'] [s s'] Hr. pose proof (on_error_sim _ _ (take_sim moved x) (m, m') (s, s') Hr) as Hs.
  unfold Result.Error_rvalue, on_error in *. cbv [mbind M_bind] in *. by destruct (Optional.Value_rvalue x m') as [[l|e| |] m1].
Qed.

(** Reading and going on with what was read. *)
Lemma bind_assoc {S A B C} (m : M S A) (f : A → M S B) (g : B → M S C) s :
  ((m ≫= f) ≫= g) s = (m ≫= (fun a => f a ≫= g)) s.
Proof. cbv [mbind M_bind]. by destruct (m s) as [[] ?]. Qed.

Lemma simulates_assoc {S S' A B C} (R : S → S' → Prop) (m : M S A) (f : A → M S B) (g : B → M S C) (a : M S' C) :
  simulates R ((m ≫= f) ≫= g) a → simulates R (m ≫= (fun x => f x ≫= g)) a.
Proof. intros H w w' Hr. rewrite <- bind_assoc. by apply H. Qed.

End Result_reads.

(** As for optionals: compositions of the members' simulations. *)
Ltac compose_results :=
  repeat first
    [ apply value_read_sim | apply value_take_sim | apply error_read_sim | apply error_take_sim
    | lazymatch goal with
      | |- _ (on_value _) _ => apply on_value_sim;
          first [apply begin_sim | apply from_value_sim | apply destruct_sim | apply copy_assign_sim | apply move_assign_sim
            | apply assign_sim | apply Reset_sim | apply HasValue_sim | apply ValueOr_sim | apply std_swap_sim]
      | |- _ (on_error _) _ => apply on_error_sim;
          first [apply begin_sim | apply from_value_sim | apply destruct_sim | apply copy_assign_sim | apply move_assign_sim
            | apply assign_sim | apply Reset_sim | apply HasValue_sim | apply ValueOr_sim | apply std_swap_sim]
      | |- _ (mret _) _ => apply simulates_ret
      | |- _ (Result.Value _ ≫= _) _ => apply simulates_assoc; eapply simulates_bind; [apply value_read_sim|intros ?]
      | |- _ (Result.Error _ ≫= _) _ => apply simulates_assoc; eapply simulates_bind; [apply error_read_sim|intros ?]
      | |- _ (_ ≫= _) _ => eapply simulates_bind; [|intros ?]
      | |- _ (match _ with true => match _ with true => _ | false => _ end | false => _ end) _ => apply simulates_both
      | |- _ (if _ then _ else _) _ => apply simulates_if
      end ].

Ltac lookups :=
  repeat match goal with
    | |- context [<[?x := _]> _ !! ?x] => rewrite !lookup_insert_eq
    | |- context [delete ?x _ !! ?x] => rewrite !lookup_delete_eq
    | |- context [<[?x := _]> _ !! ?i] => destruct (decide (i = x)) as [->|]; [|repeat rewrite (lookup_insert_ne _ x i) by done]
    | |- context [delete ?x _ !! ?i] => destruct (decide (i = x)) as [->|]; [|repeat rewrite (lookup_delete_ne _ x i) by done]
    end.

Ltac refine_cases :=
  intros [s s'] Hex;
  unfold contents, set_contents, unborn_result, on_value, on_error, unborn, value, set_value, kill, leak, needed;
  cbv [mbind M_bind mret M_ret lift raise]; cbn [values leaked fst snd of_options value_part error_part];
  repeat (first
    [ rewrite lookup_insert_eq
    | rewrite lookup_insert_ne by done
    | match goal with H : values ?s !! ?x = _ |- context [values ?s !! ?x] => rewrite H end
    | match goal with |- context [values ?s1 !! ?x] => is_var s1;
        let H := fresh "Hx" in pose proof (Hex x) as H; cbn [fst snd] in H;
        destruct (values s !! x) as [[?|]|] eqn:?, (values s' !! x) as [[?|]|] eqn:?; try done; clear H
      end ];
    cbn [values leaked fst snd option_list of_options value_part error_part]; try done);
  rewrite ?app_nil_r, ?insert_insert_eq, ?delete_insert_eq;
  try (split; [done|]; intros _; split;
    [ first [done | destruct s, s'; cbn [values leaked] in *; f_equal; f_equal; same_maps]
    | first [done | intros z; pose proof (Hex z) as Hz; cbn [fst snd values] in *; lookups; try done] ]).

Section Result_programs_sim.
Context {T E : Type} `{EqDecision T, EqDecision E}.
Variable moved : T → T.
Variable moved_error : E → E.

Lemma execute_result_sim op : simulates RepResult (execute_result moved moved_error op) (specify_result moved moved_error op).
Proof.
  destruct op; cbn [execute_result specify_result]; (eapply simulates_refines;
   [unfold Result.from_value, Result.from_error, Result.copy_construct, Result.move_construct, Result.destruct_,
      Result.copy_assign, Result.move_assign, Result.EmplaceValue, Result.EmplaceError, Result.Swap, Result.ValueOr, Result.ErrorOr,
      Result.CheckError, Result.Resolve, Result.Bind, Result.equal, Result.HasValue; compose_results|]).
  3,4,6,7,10,21: destruct (decide (x = y)) as [<-|].
  all: refine_cases.
Qed.

End Result_programs_sim.

(** ** Properties *)

(** Optionals are plain options: every program over any number of [Optional]s, through
    all of their operations, observes what it would observe with plain options, the two
    mistakes of the class included (an optional that is assigned to itself is empty, and its
    own value must not be assigned to it); unless it makes the second or uses an object that
    does not live, it touches no memory that is not its own, and once all objects are
    destroyed the memory holds exactly what was taken out of rvalues' [Value()], which is
    never freed. *)
Theorem optional_programs {T} `{EqDecision T} (moved : T → T) (ops : list operation) :
  let '(rs, s) := run_program (specify moved) ops (mkPlain ∅ []) in
  let '(rs', m) := run_program (execute moved) ops (mkMem ∅ ∅) in
  rs' = rs ∧
  (Undefined ∉ rs → dom (mValuePtr m) = dom (values s) ∧
     (values s = ∅ → (map_to_list (heap m)).*2 ≡ₚ leaked s)).
Proof.
  destruct (run_program_simulates Rep (execute moved) (specify moved) ops (mkMem ∅ ∅) (mkPlain ∅ []) (execute_sim moved) rep_nothing)
    as [Hrs Hrep].
  destruct (run_program (specify moved) ops _) as [rs s], (run_program (execute moved) ops _) as [rs' m]. cbn in Hrs, Hrep.
  subst rs'. split; [done|]. intros Hu. specialize (Hrep Hu). split; [by apply rep_dom|by apply rep_destroyed].
Qed.

(** C13: results are plain sums: every program over any number of [Result]s observes what it
    would observe with plain results, which hold a value or an error, or neither after they
    were moved from or assigned to themselves; unless it uses an object that does not live, it
    touches no memory that is not its own, no result ever holds both, and once all objects
    are destroyed the memories hold exactly the values and errors that were taken out of
    rvalues, which are never freed. *)
Theorem result_programs {T E} `{EqDecision T, EqDecision E} (moved : T → T) (moved_error : E → E) (ops : list result_operation) :
  let '(rs, s) := run_program (specify_result moved moved_error) ops (mkPlain ∅ [], mkPlain ∅ []) in
  let '(rs', m) := run_program (execute_result moved moved_error) ops (mkMem ∅ ∅, mkMem ∅ ∅) in
  rs' = rs ∧
  (Undefined ∉ rs →
     (∀ x l l', mValuePtr m.1 !! x = Some (Some l) → mValuePtr m.2 !! x ≠ Some (Some l')) ∧
     (values s.1 = ∅ → (map_to_list (heap m.1)).*2 ≡ₚ leaked s.1) ∧
     (values s.2 = ∅ → (map_to_list (heap m.2)).*2 ≡ₚ leaked s.2)).
Proof.
  assert (He : RepResult (T := T) (E := E) (mkMem ∅ ∅, mkMem ∅ ∅) (mkPlain ∅ [], mkPlain ∅ [])).
  { split; [split; apply rep_nothing|]. by intros x. }
  pose proof (run_program_simulates RepResult (execute_result moved moved_error) (specify_result moved moved_error) ops
    _ _ (execute_result_sim moved moved_error) He) as Hsim.
  destruct (run_program (specify_result moved moved_error) ops _) as [rs s].
  destruct (run_program (execute_result moved moved_error) ops _) as [rs' m] eqn:Em.
  assert (Hrs : fst (rs', m) = fst (rs, s)) by (rewrite <- Em; exact (proj1 Hsim)).
  assert (Hrep : Undefined ∉ fst (rs', m) → RepResult (snd (rs', m)) (snd (rs, s))) by (rewrite <- Em; exact (proj2 Hsim)).
  cbn in Hrs, Hrep. subst rs'. split; [done|]. intros Hu. destruct (Hrep Hu) as [[Hr1 Hr2] Hex]. split_and!.
  - intros x l l' Hx Hx'. pose proof (rep_ptr x _ _ Hr1) as H1. pose proof (rep_ptr x _ _ Hr2) as H2. specialize (Hex x).
    rewrite Hx in H1. rewrite Hx' in H2. by destruct (values s.1 !! x) as [[]|], (values s.2 !! x) as [[]|].
  - by apply rep_destroyed.
  - by apply rep_destroyed.
Qed.

(** A result is copied, taken from and destroyed: the value that was taken stays allocated;
    one that is assigned to itself has neither a value nor an error. *)
Definition demo_results : list (result_operation (T := Z) (E := Z)) :=
  [RFromValue 0 7; RCopyConstruct 1 0; RTake 0; RDestroy 0; RGet 1; RCopyAssign 1 1; RHas 1; RGetError 1; RDestroy 1].

Lemma result_programs_witness :
  fst (run_program (execute_result id id) demo_results (mkMem ∅ ∅, mkMem ∅ ∅)) =
    [Ok RDone; Ok RDone; Ok (RValue 7); Ok RDone; Ok (RValue 7); Ok RDone; Ok (RTruth false); Throw std_runtime_error; Ok RDone] ∧
  (map_to_list (heap (snd (run_program (execute_result id id) demo_results (mkMem ∅ ∅, mkMem ∅ ∅))).1)).*2 ≡ₚ [7].
Proof.
  pose proof (result_programs id id demo_results) as H. cbv beta in H.
  destruct (run_program (execute_result id id) demo_results _) as [rs' m].
  assert (Hs : run_program (specify_result id id) demo_results (mkPlain ∅ [], mkPlain ∅ []) =
    ([Ok RDone; Ok RDone; Ok (RValue 7); Ok RDone; Ok (RValue 7); Ok RDone; Ok (RTruth false); Throw std_runtime_error; Ok RDone],
     (mkPlain ∅ [7], mkPlain ∅ []))) by (vm_compute; reflexivity).
  rewrite Hs in H. cbv iota beta in H. destruct H as [-> H]. split; [reflexivity|]. apply H; [|reflexivity].
  intros Hin. repeat (apply elem_of_cons in Hin as [Hin|Hin]; [discriminate|]). by apply elem_of_nil in Hin.
Defined.

(** The value of an optional is assigned to it. *)
Definition demo_optionals : list (operation (T := Z)) := [FromValue 0 7; AssignFrom 0 0].

Lemma optional_programs_witness :
  fst (run_program (execute id) demo_optionals (mkMem ∅ ∅)) = [Ok Done; Undefined].
Proof.
  pose proof (optional_programs id demo_optionals) as H. cbv beta in H.
  destruct (run_program (execute id) demo_optionals _) as [rs' m].
  assert (Hs : fst (run_program (specify id) demo_optionals (mkPlain ∅ [])) = [Ok Done; Undefined]) by (vm_compute; reflexivity).
  destruct (run_program (specify id) demo_optionals _) as [rs s]. cbn in Hs |- *. destruct H as [-> _]. exact Hs.
Defined.
