(* ===== verification/CoreVoid.v ===== *)
(** * Results without a value: ara/core/result.h

    [Result<void, E>], one optional error over the memory of Core.v, with all of its
    operations; and the operations of [Result<T, E>] that Core.v leaves out, which are
    variants of those it has. *)

From stdpp Require Import gmap.
From S2P Require Import Prelude Core.
#[local] Open Scope Z_scope.

(** ** Result<void, E> *)
Module VoidResult.
Section Operations.
Context {E : Type}.

(** [ara/core/result.h:526-529] hasError, of the only member, an [Optional<E>] *)
Definition hasError (this : object) : M (Mem E) bool := Optional.HasValue this.

(** [ara/core/result.h:537-537] Result() *)
Definition construct (this : object) : M (Mem E) () := Optional.construct this.

(** [ara/core/result.h:539-547] Result(const E &), Result(E &&) *)
Definition from_error (this : object) (e : E) : M (Mem E) () := Optional.from_value this e.

(** [ara/core/result.h:549-556] Result(const Result &) *)
Definition copy_construct (this other : object) : M (Mem E) () :=
  Optional.construct this;;
  b ← hasError other; if (b : bool) then Optional.copy_assign this other else mret ().

(** [ara/core/result.h:558-565] Result(Result &&) *)
Definition move_construct (this other : object) : M (Mem E) () :=
  Optional.construct this;;
  b ← hasError other; if (b : bool) then Optional.move_assign this other else mret ().

(** [ara/core/result.h:567-567] ~Result *)
Definition destruct_ (this : object) : M (Mem E) () := Optional.destruct_ this.

(** [ara/core/result.h:790-795] FromValue: the local object is the one that is returned *)
Definition FromValue (this : object) : M (Mem E) () := construct this.

(** [ara/core/result.h:797-821] FromError, from an error or from the arguments of one *)
Definition FromError (this : object) (e : E) : M (Mem E) () := from_error this e.

(** [ara/core/result.h:590-603] operator=(const Result &); the move assignment names a member
    that the class does not have, so that no program can use it *)
Definition copy_assign (this other : object) : M (Mem E) () :=
  b ← hasError other; if (b : bool) then Optional.copy_assign this other else Optional.Reset this.

(** [ara/core/result.h:623-626] EmplaceError *)
Definition EmplaceError (this : object) (arg : E) : M (Mem E) () := Optional.assign this (inl arg).

(** [ara/core/result.h:630-645] Swap *)
Definition Swap (this other : object) : M (Mem E) () :=
  b ← hasError this; b' ← hasError other;
  match b, b' with
  | true, true => Optional.std_swap this other
  | true, false => Optional.move_assign other this
  | false, true => Optional.move_assign this other
  | false, false => mret ()
  end.

(** [ara/core/result.h:649-658] HasValue, operator bool *)
Definition HasValue (this : object) : M (Mem E) bool := b ← hasError this; mret (negb b).

(** [ara/core/result.h:679-682] Error() const & *)
Definition Error (this : object) : M (Mem E) address := Optional.Value this.

(** [ara/core/result.h:687-690] Error() && *)
Definition Error_rvalue (this : object) : M (Mem E) address := Optional.Value_rvalue this.

(** [ara/core/result.h:694-697] Err() const &: a new optional *)
Definition Err (this result : object) : M (Mem E) () := Optional.copy_construct result this.

(** [ara/core/result.h:701-704] Err() && *)
Definition Err_rvalue (this result : object) : M (Mem E) () := Optional.move_construct result this.

(** [ara/core/result.h:718-721] ErrorOr() const & *)
Definition ErrorOr (this : object) (defaultError : E) : M (Mem E) E := Optional.ValueOr this defaultError.

(** [ara/core/result.h:728-731] ErrorOr() && *)
Definition ErrorOr_rvalue (moved : E → E) (this : object) (defaultError : E) : M (Mem E) E :=
  Optional.ValueOr_rvalue moved this defaultError.

(** [ara/core/result.h:737-749] CheckError *)
Definition CheckError `{EqDecision E} (this : object) (error : E) : M (Mem E) bool :=
  b ← hasError this;
  if (b : bool) then e ← (l ← Error this; load l); mret (bool_decide (e = error)) else mret false.

(** [ara/core/result.h:753-756] ValueOrThrow: it throws, whatever the result holds *)
Definition ValueOrThrow (this : object) : M (Mem E) () := raise std_runtime_error.

(** [ara/core/result.h:762-768] Resolve: the error that the callable gets, if it is called *)
Definition Resolve (this : object) : M (Mem E) (option E) :=
  b ← hasError this;
  if (b : bool) then e ← (l ← Error this; load l); mret (Some e) else mret None.

(** [ara/core/result.h:775-787] Bind: what the new result is made of; [f] is what the callable
    returns *)
Definition Bind {U} (f : U) (this : object) : M (Mem E) (U + E) :=
  b ← hasError this;
  if (b : bool) then e ← (l ← Error this; load l); mret (inr e) else mret (inl f).

(** [ara/core/result.h:824-843] operator== *)
Definition equal `{EqDecision E} (lhs rhs : object) : M (Mem E) bool :=
  b ← hasError lhs; b' ← hasError rhs;
  match b, b' with
  | true, true =>
      e ← (l ← Error lhs; load l); e' ← (l' ← Error rhs; load l'); mret (bool_decide (e = e'))
  | false, false => mret true
  | _, _ => mret false
  end.

(** [ara/core/result.h:846-865] operator!= *)
Definition not_equal `{EqDecision E} (lhs rhs : object) : M (Mem E) bool :=
  b ← hasError lhs; b' ← hasError rhs;
  match b, b' with
  | true, true =>
      e ← (l ← Error lhs; load l); e' ← (l' ← Error rhs; load l'); mret (bool_decide (e ≠ e'))
  | false, false => mret false
  | _, _ => mret true
  end.

End Operations.
End VoidResult.

(** ** What programs do with them *)
Section Programs.
Context {E : Type} `{EqDecision E}.
Variable moved : E → E.

(** [VTakeError x] is [E e{std::move(x).Error()}], [VTakeErr x z] is
    [Optional<E> z{std::move(x).Err()}]. *)
Inductive void_operation :=
  | VDefault (x : object)
  | VFromError (x : object) (e : E)
  | VCopyConstruct (x y : object)
  | VMoveConstruct (x y : object)
  | VDestroy (x : object)
  | VCopyAssign (x y : object)
  | VEmplaceError (x : object) (e : E)
  | VSwap (x y : object)
  | VHas (x : object)
  | VGetError (x : object)
  | VTakeError (x : object)
  | VErr (x z : object)
  | VTakeErr (x z : object)
  | VErrorOr (x : object) (e : E)
  | VTakeErrorOr (x : object) (e : E)
  | VCheckError (x : object) (e : E)
  | VValueOrThrow (x : object)
  | VResolve (x : object)
  | VBind (f : nat) (x : object)
  | VEqual (x y : object)
  | VNotEqual (x y : object).

Inductive void_observation := VDone | VTruth (b : bool) | VError (e : E) | VOption (o : option E) | VEither (r : nat + E).

Definition execute_void (op : void_operation) : M (Mem E) void_observation :=
  match op with
  | VDefault x => VoidResult.FromValue x;; mret VDone
  | VFromError x e => VoidResult.FromError x e;; mret VDone
  | VCopyConstruct x y => VoidResult.copy_construct x y;; mret VDone
  | VMoveConstruct x y => VoidResult.move_construct x y;; mret VDone
  | VDestroy x => VoidResult.destruct_ x;; mret VDone
  | VCopyAssign x y => VoidResult.copy_assign x y;; mret VDone
  | VEmplaceError x e => VoidResult.EmplaceError x e;; mret VDone
  | VSwap x y => VoidResult.Swap x y;; mret VDone
  | VHas x => b ← VoidResult.HasValue x; mret (VTruth b)
  | VGetError x => e ← (l ← VoidResult.Error x; load l); mret (VError e)
  | VTakeError x => e ← (l ← VoidResult.Error_rvalue x; move_out moved l); mret (VError e)
  | VErr x z => VoidResult.Err x z;; mret VDone
  | VTakeErr x z => VoidResult.Err_rvalue x z;; mret VDone
  | VErrorOr x e => e ← VoidResult.ErrorOr x e; mret (VError e)
  | VTakeErrorOr x e => e ← VoidResult.ErrorOr_rvalue moved x e; mret (VError e)
  | VCheckError x e => b ← VoidResult.CheckError x e; mret (VTruth b)
  | VValueOrThrow x => VoidResult.ValueOrThrow x;; mret VDone
  | VResolve x => o ← VoidResult.Resolve x; mret (VOption o)
  | VBind f x => r ← VoidResult.Bind f x; mret (VEither r)
  | VEqual x y => b ← VoidResult.equal x y; mret (VTruth b)
  | VNotEqual x y => b ← VoidResult.not_equal x y; mret (VTruth b)
  end.

(** The same on plain optional errors, of which none is a success. *)
Definition specify_void (op : void_operation) : M (Plain E) void_observation :=
  match op with
  | VDefault x => unborn x;; set_value x None;; mret VDone
  | VFromError x e => unborn x;; set_value x (Some e);; mret VDone
  | VCopyConstruct x y =>
      unborn x;; if decide (x = y) then set_value x None;; mret VDone else o ← value y; set_value x o;; mret VDone
  | VMoveConstruct x y =>
      unborn x;;
      if decide (x = y) then set_value x None;; mret VDone
      else o ← value y; set_value x o;; set_value y None;; mret VDone
  | VDestroy x => _ ← value x; kill x;; mret VDone
  | VCopyAssign x y => o ← value y; _ ← value x; set_value x (if decide (x = y) then None else o);; mret VDone
  | VEmplaceError x e => _ ← value x; set_value x (Some e);; mret VDone
  | VSwap x y => o ← value x; o' ← value y; set_value x o';; set_value y o;; mret VDone
  | VHas x => o ← value x; mret (VTruth (match o with Some _ => false | None => true end))
  | VGetError x => o ← value x; e ← needed o; mret (VError e)
  | VTakeError x => o ← value x; e ← needed o; set_value x None;; leak (Some (moved e));; mret (VError e)
  | VErr x z => unborn z;; o ← value x; set_value z o;; mret VDone
  | VTakeErr x z => unborn z;; o ← value x; set_value z o;; set_value x None;; mret VDone
  | VErrorOr x e => o ← value x; mret (VError (default e o))
  | VTakeErrorOr x e => o ← value x; set_value x (moved <$> o);; mret (VError (default e o))
  | VCheckError x e => o ← value x; mret (VTruth (bool_decide (o = Some e)))
  | VValueOrThrow x => raise std_runtime_error
  | VResolve x => o ← value x; mret (VOption o)
  | VBind f x => o ← value x; mret (VEither (match o with Some e => inr e | None => inl f end))
  | VEqual x y => o ← value x; o' ← value y; mret (VTruth (bool_decide (o = o')))
  | VNotEqual x y => o ← value x; o' ← value y; mret (VTruth (bool_decide (o ≠ o')))
  end.

(** ** Lemmas: the simulation *)

(** Compositions of the member's simulations. *)
Ltac compose_void :=
  repeat first
    [ apply begin_sim | apply from_value_sim | apply copy_construct_sim | apply move_construct_sim | apply destruct_sim
    | apply copy_assign_sim | apply move_assign_sim | apply assign_sim | apply Reset_sim | apply HasValue_sim | apply ValueOr_sim
    | apply ValueOr_rvalue_sim | apply std_swap_sim | apply get_sim | apply take_sim
    | lazymatch goal with
      | |- _ (mret _) _ => apply simulates_ret
      | |- _ (raise _) _ => apply (simulates_lift _ (Throw _))
      | |- _ (_ ≫= _) _ => eapply simulates_bind; [|intros ?]
      | |- _ (match _ with true => match _ with true => _ | false => _ end | false => _ end) _ => apply simulates_both
      | |- _ (if _ then _ else _) _ => apply simulates_if
      end ].

Lemma execute_void_sim op : sim (execute_void op) (specify_void op).
Proof.
  destruct op; cbn [execute_void specify_void]; (eapply sim_same;
    [unfold VoidResult.FromValue, VoidResult.FromError, VoidResult.construct, VoidResult.from_error, VoidResult.copy_construct,
       VoidResult.move_construct, VoidResult.destruct_, VoidResult.copy_assign, VoidResult.EmplaceError, VoidResult.Swap,
       VoidResult.HasValue, VoidResult.Error, VoidResult.Error_rvalue, VoidResult.Err, VoidResult.Err_rvalue, VoidResult.ErrorOr,
       VoidResult.ErrorOr_rvalue, VoidResult.CheckError, VoidResult.ValueOrThrow, VoidResult.Resolve, VoidResult.Bind,
       VoidResult.equal, VoidResult.not_equal, VoidResult.hasError; compose_void|]).
  all: try (same_cases; fail).
  1,2,3: destruct (decide (x = y)) as [<-|]; same_cases.
  all: same_cases; (split; [do 2 f_equal; apply bool_decide_ext; naive_solver|done]).
Qed.
End Programs.

(** ** The other operations of Result<T, E> *)
Module ResultVariants.
Section Variants.
Context {T E : Type} `{EqDecision T, EqDecision E}.
Abbreviation Memory := (Result.Memory (T := T) (E := E)).

(** [ara/core/result.h:386-400] FromValue: the local object is the one that is returned *)
Definition FromValue (this : object) (t : T) : M Memory () := Result.from_value this t.

(** [ara/core/result.h:402-416] FromError *)
Definition FromError (this : object) (e : E) : M Memory () := Result.from_error this e.

(** [ara/core/result.h:203-220] operator*() const &, operator->: a reference to the value *)
Definition dereference (this : object) : M Memory address := on_value (Optional.Value this).

(** [ara/core/result.h:210-213] operator*() && *)
Definition dereference_rvalue (this : object) : M Memory address := on_value (Optional.Value_rvalue this).

(** [ara/core/result.h:256-259] Ok() const &: a new optional *)
Definition Ok_ (this result : object) : M Memory () := on_value (Optional.copy_construct result this).

(** [ara/core/result.h:263-266] Ok() && *)
Definition Ok_rvalue (this result : object) : M Memory () := on_value (Optional.move_construct result this).

(** [ara/core/result.h:270-273] Err() const & *)
Definition Err (this result : object) : M Memory () := on_error (Optional.copy_construct result this).

(** [ara/core/result.h:277-280] Err() && *)
Definition Err_rvalue (this result : object) : M Memory () := on_error (Optional.move_construct result this).

(** [ara/core/result.h:296-300] ValueOr() && *)
Definition ValueOr_rvalue (moved : T → T) (this : object) (defaultValue : T) : M Memory T :=
  on_value (Optional.ValueOr_rvalue moved this defaultValue).

(** [ara/core/result.h:316-320] ErrorOr() && *)
Definition ErrorOr_rvalue (moved : E → E) (this : object) (defaultError : E) : M Memory E :=
  on_error (Optional.ValueOr_rvalue moved this defaultError).

(** [ara/core/result.h:343-354] ValueOrThrow *)
Definition ValueOrThrow (this : object) : M Memory address := on_value (Optional.Value this).

(** [ara/core/result.h:441-460] operator!= *)
Definition not_equal (lhs rhs : object) : M Memory bool :=
  b ← Result.HasValue lhs; b' ← Result.HasValue rhs;
  match b, b' with
  | true, true =>
      l ← Result.Value lhs; v ← on_value (load l); l' ← Result.Value rhs; v' ← on_value (load l'); mret (bool_decide (v ≠ v'))
  | true, false => mret true
  | false, true => mret true
  | false, false =>
      l ← Result.Error lhs; e ← on_error (load l); l' ← Result.Error rhs; e' ← on_error (load l'); mret (bool_decide (e ≠ e'))
  end.

(** [ara/core/result.h:476-488] operator!= with a value, on either side *)
Definition not_equal_value (lhs : object) (rhs : T) : M Memory bool :=
  b ← Result.HasValue lhs;
  if (b : bool) then l ← Result.Value lhs; v ← on_value (load l); mret (bool_decide (v ≠ rhs)) else mret true.

(** [ara/core/result.h:504-516] operator!= with an error, on either side *)
Definition not_equal_error (lhs : object) (rhs : E) : M Memory bool :=
  b ← Result.HasValue lhs;
  if (b : bool) then mret true else l ← Result.Error lhs; e ← on_error (load l); mret (bool_decide (e ≠ rhs)).

(** [!] of what a comparison gives. *)
Definition negated (m : M Memory bool) : M Memory bool := b ← m; mret (negb b).

(** The comparisons for inequality are those for equality, negated. *)
Lemma inequalities (x y : object) (t : T) (e : E) m :
  not_equal x y m = negated (Result.equal x y) m ∧
  not_equal_value x t m = negated (Result.equal_value x t) m ∧
  not_equal_error x e m = negated (Result.equal_error x e) m.
Proof.
  unfold not_equal, not_equal_value, not_equal_error, negated, Result.equal, Result.equal_value, Result.equal_error.
  cbv [mbind M_bind mret M_ret]. split_and!.
  - destruct (Result.HasValue x m) as [[b| | |] m1]; try done. destruct (Result.HasValue y m1) as [[b'| | |] m2]; try done.
    destruct b, b'; try done.
    + destruct (Result.Value x m2) as [[l| | |] m3]; try done. destruct (on_value (load l) m3) as [[v| | |] m4]; try done.
      destruct (Result.Value y m4) as [[l'| | |] m5]; try done. destruct (on_value (load l') m5) as [[v'| | |] m6]; try done.
      by rewrite bool_decide_not.
    + destruct (Result.Error x m2) as [[l| | |] m3]; try done. destruct (on_error (load l) m3) as [[v| | |] m4]; try done.
      destruct (Result.Error y m4) as [[l'| | |] m5]; try done. destruct (on_error (load l') m5) as [[v'| | |] m6]; try done.
      by rewrite bool_decide_not.
  - destruct (Result.HasValue x m) as [[[]| | |] m1]; try done. destruct (Result.Value x m1) as [[l| | |] m2]; try done.
    destruct (on_value (load l) m2) as [[v| | |] m3]; try done. by rewrite bool_decide_not.
  - destruct (Result.HasValue x m) as [[[]| | |] m1]; try done. destruct (Result.Error x m1) as [[l| | |] m2]; try done.
    destruct (on_error (load l) m2) as [[v| | |] m3]; try done. by rewrite bool_decide_not.
Qed.

End Variants.
End ResultVariants.

(** ** Properties *)

(** Results without a value are plain optional errors: every program over any number of them,
    through all operations that compile, observes what it would observe with optional errors
    of which none means success.  So an error that is taken out of a result, that is moved
    from it, or that is assigned to the result it is in, leaves a success behind, and
    [ValueOrThrow] throws for a success too.  Unless the program uses an object that does not
    live, it touches no memory that is not its own, and once all objects are destroyed the
    memory holds exactly the errors that were taken out of rvalues, which are never freed. *)
Theorem void_result_programs {E} `{EqDecision E} (moved : E → E) (ops : list void_operation) :
  let '(rs, s) := run_program (specify_void moved) ops (mkPlain ∅ []) in
  let '(rs', m) := run_program (execute_void moved) ops (mkMem ∅ ∅) in
  rs' = rs ∧
  (Undefined ∉ rs → dom (mValuePtr m) = dom (values s) ∧
     (values s = ∅ → (map_to_list (heap m)).*2 ≡ₚ leaked s)).
Proof.
  destruct (run_program_simulates Rep (execute_void moved) (specify_void moved) ops (mkMem ∅ ∅) (mkPlain ∅ [])
    (execute_void_sim moved) rep_nothing) as [Hrs Hrep].
  destruct (run_program (specify_void moved) ops _) as [rs s], (run_program (execute_void moved) ops _) as [rs' m].
  cbn in Hrs, Hrep. subst rs'. split; [done|]. intros Hu. specialize (Hrep Hu).
  split; [by apply rep_dom|by apply rep_destroyed].
Qed.

(** A failed result is assigned to itself and is a success afterwards; the error of another
    is taken, with the same effect; and a success throws. *)
Definition demo_void : list (void_operation (E := Z)) :=
  [VFromError 0 7; VHas 0; VCopyAssign 0 0; VHas 0; VFromError 1 8; VTakeError 1; VHas 1; VValueOrThrow 1; VDestroy 0; VDestroy 1].

Lemma void_result_programs_witness :
  fst (run_program (execute_void id) demo_void (mkMem ∅ ∅)) =
    [Ok VDone; Ok (VTruth false); Ok VDone; Ok (VTruth true); Ok VDone; Ok (VError 8); Ok (VTruth true); Throw std_runtime_error;
     Ok VDone; Ok VDone].
Proof.
  pose proof (void_result_programs id demo_void) as H. cbv beta in H.
  destruct (run_program (execute_void id) demo_void _) as [rs' m].
  assert (Hs : fst (run_program (specify_void id) demo_void (mkPlain ∅ [])) =
    [Ok VDone; Ok (VTruth false); Ok VDone; Ok (VTruth true); Ok VDone; Ok (VError 8); Ok (VTruth true); Throw std_runtime_error;
     Ok VDone; Ok VDone]) by (vm_compute; reflexivity).
  destruct (run_program (specify_void id) demo_void _) as [rs s]. cbn in Hs |- *. destruct H as [-> _]. exact Hs.
Defined.
