(* ===== verification/Fsm.v ===== *)
(** * State machines: ara/com/helper/finite_state_machine.h and machine_state.h

    The controller that the publish/subscribe and service-discovery components
    share.  A component promises through the class [StateMachine] where its current
    state is kept, which machine states are registered and what activating and
    deactivating them does; the controller is written against that interface. *)

From S2P Require Import Prelude.

(** [ara/com/helper/machine_state.h:45-51] MachineState, as the interface of the
    objects of a machine with states [T] living in an object of type [S] *)
Class StateMachine (T S : Type) := {
  state_eq_dec :: EqDecision T;
  mCurrentState : S → T;
  set_current : T → S → S;
  mStates : list T;
  Activate : T → T → M S ();
  Deactivate : T → T → M S ();
  current_set t s : mCurrentState (set_current t s) = t
}.

Module FiniteStateMachine.
Section FiniteStateMachine.
Context {T S : Type} `{!StateMachine T S}.

(** [std::map::at] on the registered states. *)
Definition at_state (t : T) : outcome () :=
  if decide (t ∈ mStates) then Ok () else Throw std_out_of_range.

(** [ara/com/helper/finite_state_machine.h:34-46] Initialize: the entry point is
    activated as its own predecessor *)
Definition Initialize (entrypoint : T) : M S () :=
  lift (at_state entrypoint);;
  Activate entrypoint entrypoint;;
  modify (set_current entrypoint).

(** [ara/com/helper/finite_state_machine.h:62-71] Transit *)
Definition Transit (previousState nextState : T) : M S () :=
  s ← get;
  if decide (previousState = mCurrentState s) then
    lift (at_state nextState);;
    modify (set_current nextState);;
    Activate nextState previousState
  else mret ().

End FiniteStateMachine.
End FiniteStateMachine.

Module MachineState.
Section MachineState.
Context {T S : Type} `{!StateMachine T S}.

(** [ara/com/helper/machine_state.h:59-66] Transit, called on the state [mState] *)
Definition Transit (mState nextState : T) : M S () :=
  Deactivate mState nextState;;
  FiniteStateMachine.Transit mState nextState.

End MachineState.
End MachineState.

Section Facts.
Context {T S : Type} `{!StateMachine T S}.

(** Only the current state can leave: a transition asked of any other state changes
    nothing beyond that state's deactivation. *)
Lemma Transit_other (t next : T) (s : S) :
  t ≠ mCurrentState s → FiniteStateMachine.Transit t next s = (Ok (), s).
Proof. intros H. unfold FiniteStateMachine.Transit. run. by rewrite decide_False. Qed.

(** The current state's transition enters a registered state and activates it. *)
Lemma Transit_current (next : T) (s : S) :
  next ∈ mStates →
  FiniteStateMachine.Transit (mCurrentState s) next s =
    Activate next (mCurrentState s) (set_current next s).
Proof.
  intros H. unfold FiniteStateMachine.Transit, FiniteStateMachine.at_state. run.
  by rewrite !decide_True.
Qed.

End Facts.
