(* ===== verification/PubSub.v ===== *)
(** * Publish/subscribe: ara/com/someip/pubsub

    The server (someip_pubsub_server.cpp with its three machine states), the client
    (someip_pubsub_client.cpp) and the event path from [Publish] through
    pubsub_event_network_layer.cpp to pubsub_event_receiver.cpp.  The server is
    shown to implement an abstract counter of subscriptions. *)

From S2P Require Import Prelude Payload Options Entries SomeIp SdMessage Fsm.

(** [ara/com/helper/machine_state.h:34-39] PubSubState *)
Inductive PubSubState := ServiceDown | NotSubscribed | Subscribed.

#[export] Instance PubSubState_eq_dec : EqDecision PubSubState.
Proof. solve_decision. Defined.

Module SomeIpPubSubServer.

(** The constant members. *)
(** [ara/com/someip/pubsub/someip_pubsub_server.h:25-41] SomeIpPubSubServer *)
Record Config := mkConfig {
  mServiceId : Z;
  mInstanceId : Z;
  mMajorVersion : Z;
  mEventgroupId : Z;
  mEndpointIp : Ipv4.Ipv4Address;
  mEndpointPort : Z
}.

(** The members that change, the messages handed to the communication layer and the
    notifications handed to the event layer.  The subscription counter has no value
    before the state is first activated. *)
Record State := mk {
  mCurrent : PubSubState;
  mSubscriptionCounter : option Z;
  mSessionId : Z;
  mEventLayer : bool;
  mSent : list SomeIpSdMessage.t;
  mPublished : list bytes
}.

Definition set_state (t : PubSubState) (s : State) : State :=
  mk t (mSubscriptionCounter s) (mSessionId s) (mEventLayer s) (mSent s) (mPublished s).
Definition set_counter (c : Z) (s : State) : State :=
  mk (mCurrent s) (Some c) (mSessionId s) (mEventLayer s) (mSent s) (mPublished s).
Definition send (m : SomeIpSdMessage.t) (s : State) : State :=
  mk (mCurrent s) (mSubscriptionCounter s) (mSessionId s) (mEventLayer s) (mSent s ++ [m]) (mPublished s).

(** [ara/com/someip/pubsub/fsm/subscribed_state.cpp:17-20] Activate; the other two
    states do nothing on activation *)
Definition Activate_ (t previousState : PubSubState) : M State () :=
  match t with
  | Subscribed => modify (set_counter 1)
  | _ => mret ()
  end.

#[export, refine] Instance PubSubMachine : StateMachine PubSubState State := {|
  mCurrentState := mCurrent;
  set_current := set_state;
  mStates := [ServiceDown; NotSubscribed; Subscribed];
  Activate := Activate_;
  Deactivate := fun _ _ => mret ()
|}.
Proof. done. Defined.

(** [ara/com/someip/pubsub/fsm/service_down_state.cpp:22-25] ServiceDownState::Started *)
Definition ServiceDown_Started : M State () := MachineState.Transit ServiceDown NotSubscribed.

(** [ara/com/someip/pubsub/fsm/notsubscribed_state.cpp:22-25] NotSubscribedState::Subscribed *)
Definition NotSubscribed_Subscribed : M State () := MachineState.Transit NotSubscribed Subscribed.

(** [ara/com/someip/pubsub/fsm/notsubscribed_state.cpp:27-30] NotSubscribedState::Stopped *)
Definition NotSubscribed_Stopped : M State () := MachineState.Transit NotSubscribed ServiceDown.

(** The 32-bit counter: reading it before activation and overflowing it are undefined. *)
Definition counter_add (d : Z) : M State Z := fun s =>
  match mSubscriptionCounter s with
  | Some c =>
      if (-2147483648 <=? c + d) && (c + d <? 2147483648)
      then (Ok (c + d), set_counter (c + d) s) else (Undefined, s)
  | None => (Undefined, s)
  end.

(** [ara/com/someip/pubsub/fsm/subscribed_state.cpp:22-25] SubscribedState::Subscribed *)
Definition Subscribed_Subscribed : M State () := counter_add 1;; mret ().

(** [ara/com/someip/pubsub/fsm/subscribed_state.cpp:27-35] SubscribedState::Unsubscribed *)
Definition Subscribed_Unsubscribed : M State () :=
  c ← counter_add (-1);
  if c <=? 0 then MachineState.Transit Subscribed NotSubscribed else mret ().

(** [ara/com/someip/pubsub/fsm/subscribed_state.cpp:37-40] SubscribedState::Stopped *)
Definition Subscribed_Stopped : M State () := MachineState.Transit Subscribed ServiceDown.

(** [ara/com/someip/pubsub/someip_pubsub_server.cpp:15-43] SomeIpPubSubServer *)
Definition construct : M State () := FiniteStateMachine.Initialize ServiceDown.
Definition blank : State := mk ServiceDown None 1 false [] [].

(** [ara/com/someip/pubsub/someip_pubsub_server.cpp:84-118] processEntry *)
Definition processEntry (cfg : Config) (e : EventgroupEntry.t) : M State () :=
  acknowledgeMessage ← lift SomeIpSdMessage.construct;
  s ← get;
  let state := mCurrent s in
  match state with
  | NotSubscribed => NotSubscribed_Subscribed
  | Subscribed => Subscribed_Subscribed
  | ServiceDown => mret ()
  end;;
  acknowledgeEntry ← lift
    match state with
    | ServiceDown => EventgroupEntry.CreateNegativeAcknowledgeEntry e
    | _ => EventgroupEntry.CreateAcknowledgeEntry e
    end;
  acknowledgeEntry ← lift
    match state with
    | ServiceDown => Ok (EEventgroup acknowledgeEntry)
    | _ =>
        multicastEndpoint ← Ipv4EndpointOption.CreateMulticastEndpoint true (mEndpointIp cfg) (mEndpointPort cfg);
        AddFirstOption (EEventgroup acknowledgeEntry) (OIpv4Endpoint multicastEndpoint)
    end;
  modify (send (SomeIpSdMessage.AddEntry acknowledgeMessage acknowledgeEntry)).

(** The condition of onMessageReceived on one entry. *)
Definition matches (cfg : Config) (e : AnyEntry) : option EventgroupEntry.t :=
  match e with
  | EEventgroup g =>
      let b := EventgroupEntry.base g in
      if bool_decide (Entry.mType b = Subscribing) &&
         ((Entry.mServiceId b =? mServiceId cfg) &&
          ((Entry.mInstanceId b =? Entry.cAnyInstanceId) || (Entry.mInstanceId b =? mInstanceId cfg)) &&
          ((Entry.mMajorVersion b =? Entry.cAnyMajorVersion) || (Entry.mMajorVersion b =? mMajorVersion cfg)) &&
          (EventgroupEntry.mEventgroupId g =? mEventgroupId cfg))
      then Some g else None
  | EService _ => None
  end.

(** [ara/com/someip/pubsub/someip_pubsub_server.cpp:45-82] onMessageReceived *)
Fixpoint process_entries (cfg : Config) (es : list AnyEntry) : M State () :=
  match es with
  | [] => mret ()
  | e :: es =>
      match matches cfg e with
      | Some g =>
          if 0 <? Entry.mTTL (EventgroupEntry.base g) then processEntry cfg g
          else
            s ← get;
            match mCurrent s with
            | Subscribed => Subscribed_Unsubscribed
            | _ => mret ()
            end
      | None => process_entries cfg es
      end
  end.

Definition onMessageReceived (cfg : Config) (message : SomeIpSdMessage.t) : M State () :=
  process_entries cfg (SomeIpSdMessage.mEntries message).

(** [ara/com/someip/pubsub/someip_pubsub_server.cpp:120-124] SetEventLayer *)
Definition SetEventLayer (attached : bool) (s : State) : State :=
  mk (mCurrent s) (mSubscriptionCounter s) (mSessionId s) attached (mSent s) (mPublished s).

(** [ara/com/someip/pubsub/someip_pubsub_server.cpp:126-176] Publish *)
Definition Publish (cfg : Config) (eventId : Z) (payload : bytes) : M State () :=
  s ← get;
  if negb (mEventLayer s) then mret ()
  else if negb (bool_decide (mCurrent s = Subscribed)) then mret ()
  else
    let messageId := Z.lor (u32 (mServiceId cfg ≪ 16)) eventId in
    let length := u32 (8 + size payload) in
    let notification := InjectInteger [] messageId in
    let notification := InjectInteger notification length in
    let notification := InjectShort notification 0 in
    let notification := InjectShort notification (mSessionId s) in
    let notification := push_back notification 1 in
    let notification := push_back notification (mMajorVersion cfg) in
    let notification := push_back notification 2 in
    let notification := push_back notification 0 in
    let notification := notification ++ payload in
    let session := u16 (mSessionId s + 1) in
    let session := if session =? 0 then 1 else session in
    modify (fun s => mk (mCurrent s) (mSubscriptionCounter s) session (mEventLayer s) (mSent s)
                        (mPublished s ++ [notification])).

(** [ara/com/someip/pubsub/someip_pubsub_server.cpp:178-185] Start *)
Definition Start : M State () :=
  s ← get;
  match mCurrent s with ServiceDown => ServiceDown_Started | _ => mret () end.

(** [ara/com/someip/pubsub/someip_pubsub_server.cpp:192-203] Stop *)
Definition Stop : M State () :=
  s ← get;
  match mCurrent s with
  | NotSubscribed => NotSubscribed_Stopped
  | Subscribed => Subscribed_Stopped
  | ServiceDown => mret ()
  end.

End SomeIpPubSubServer.

Module SomeIpPubSubClient.

(** [ara/com/someip/pubsub/someip_pubsub_client.cpp:44-58] Subscribe: the message sent *)
Definition Subscribe (counter serviceId instanceId majorVersion eventgroupId : Z) :
    outcome SomeIpSdMessage.t :=
  message ← SomeIpSdMessage.construct;
  e ← EventgroupEntry.CreateSubscribeEventEntry serviceId instanceId majorVersion counter eventgroupId;
  mret (SomeIpSdMessage.AddEntry message (EEventgroup e)).

(** [ara/com/someip/pubsub/someip_pubsub_client.cpp:60-74] Unsubscribe *)
Definition Unsubscribe (counter serviceId instanceId majorVersion eventgroupId : Z) :
    outcome SomeIpSdMessage.t :=
  message ← SomeIpSdMessage.construct;
  e ← EventgroupEntry.CreateUnsubscribeEventEntry serviceId instanceId majorVersion counter eventgroupId;
  mret (SomeIpSdMessage.AddEntry message (EEventgroup e)).

(** [ara/com/someip/pubsub/someip_pubsub_client.cpp:28-42] onMessageReceived: the buffer
    of acknowledgements.  The message is moved away inside the loop that walks its
    entries, so a later acknowledging entry enqueues the message without entries. *)
Definition onMessageReceived (message : SomeIpSdMessage.t) (buffer : list SomeIpSdMessage.t) :
    list SomeIpSdMessage.t :=
  let moved := SomeIpSdMessage.mk (SomeIpSdMessage.header message) (SomeIpSdMessage.mRebooted message) [] in
  snd (foldl (fun '(message, buffer) e =>
    if bool_decide (Entry.mType (base e) = Acknowledging) then (moved, buffer ++ [message])
    else (message, buffer)) (message, buffer) (SomeIpSdMessage.mEntries message)).

End SomeIpPubSubClient.

Module PubSubEventNetworkLayer.

Definition cBufferSize : nat := 256.

(** [ara/com/someip/pubsub/pubsub_event_network_layer.cpp:14-45] PubSubEventNetworkLayer:
    whether the socket is set up and the sender added to the poller *)
Definition construct (set_up sender : bool) : outcome () :=
  if negb set_up then Throw std_runtime_error else if negb sender then Throw std_runtime_error else Ok ().

(** [ara/com/someip/pubsub/pubsub_event_network_layer.cpp:53-58] the datagram onSend
    builds from a queued payload: copying past the array is undefined *)
Definition datagram (payload : bytes) : outcome bytes :=
  if (length payload <=? cBufferSize)%nat
  then Ok (payload ++ replicate (cBufferSize - length payload) 0) else Undefined.

(** [ara/com/someip/pubsub/pubsub_event_network_layer.cpp:47-74] onSend: each queued
    payload goes to the multicast address, or to every unicast peer *)
Fixpoint onSend (peers : list string) (eventIp : string) (queue : list bytes) :
    outcome (list (string * bytes)) :=
  match queue with
  | [] => mret []
  | payload :: queue =>
      buffer ← datagram payload;
      rest ← onSend peers eventIp queue;
      mret (match peers with [] => [(eventIp, buffer)] | _ => map (fun p => (p, buffer)) peers end ++ rest)
  end.

End PubSubEventNetworkLayer.

Module PubSubEventReceiver.

(** [ara/com/someip/pubsub/pubsub_event_receiver.cpp:15-47] PubSubEventReceiver *)
Definition construct (set_up receiver : bool) : outcome () :=
  if negb set_up then Throw std_runtime_error else if negb receiver then Throw std_runtime_error else Ok ().

(** [ara/com/someip/pubsub/pubsub_event_receiver.cpp:49-76] onReceive: what the
    callback is called with, given what the socket wrote into the zeroed buffer *)
Definition onReceive (received : bytes) : outcome (option bytes) :=
  let buffer := received ++ replicate (256 - length received) 0 in
  if 16 <? size received then
    b0 ← index_ buffer 0;
    b1 ← index_ buffer 1;
    let serviceId := u16 (Z.lor (b0 ≪ 8) b1) in
    if serviceId =? 65535 then mret None
    else
      payload ← range_ buffer 16 (size received);
      mret (Some payload)
  else mret None.

End PubSubEventReceiver.

(** ** The abstract server: down, or up with a number of subscriptions *)
Module Spec.

Inductive t := Down | Up (n : nat).

Inductive event :=
  | EStart
  | EStop
  | EMessage (m : SomeIpSdMessage.t)
  | EPublish (eventId : Z) (payload : bytes).

(** The entry a message asks with: the first one addressed to this event group. *)
Definition request (cfg : SomeIpPubSubServer.Config) (m : SomeIpSdMessage.t) : option EventgroupEntry.t :=
  head (omap (SomeIpPubSubServer.matches cfg) (SomeIpSdMessage.mEntries m)).

Definition step (cfg : SomeIpPubSubServer.Config) (a : t) (ev : event) : t :=
  match ev, a with
  | EStart, Down => Up 0
  | EStop, _ => Down
  | EMessage m, Up n =>
      match request cfg m with
      | Some g => if 0 <? Entry.mTTL (EventgroupEntry.base g) then Up (S n) else Up (pred n)
      | None => a
      end
  | _, _ => a
  end.

(** The acknowledgement of a subscription: negative when the service is down. *)
Definition ack (cfg : SomeIpPubSubServer.Config) (a : t) (g : EventgroupEntry.t) : AnyEntry :=
  let b := EventgroupEntry.base g in
  let entry ttl os := EEventgroup (EventgroupEntry.mk
    (Entry.mk Acknowledging os [] (Entry.mServiceId b) (Entry.mInstanceId b) (Entry.mMajorVersion b) ttl)
    (EventgroupEntry.mCounter g) (EventgroupEntry.mEventgroupId g)) in
  match a with
  | Down => entry 0 []
  | Up _ => entry (Entry.mTTL b)
      [OIpv4Endpoint (Ipv4EndpointOption.mk IPv4Multicast true (SomeIpPubSubServer.mEndpointIp cfg) Udp
         (SomeIpPubSubServer.mEndpointPort cfg))]
  end.

(** The messages an event makes the server send. *)
Definition sends (cfg : SomeIpPubSubServer.Config) (a : t) (ev : event) : list AnyEntry :=
  match ev with
  | EMessage m =>
      match request cfg m with
      | Some g => if 0 <? Entry.mTTL (EventgroupEntry.base g) then [ack cfg a g] else []
      | None => []
      end
  | _ => []
  end.

End Spec.

Section Refinement.
Import SomeIpPubSubServer.
Variable cfg : Config.
Hypothesis Hmulticast : 224 <= Ipv4.octet0 (mEndpointIp cfg) <= 239.

Definition impl_step (ev : Spec.event) : M State () :=
  match ev with
  | Spec.EStart => Start
  | Spec.EStop => Stop
  | Spec.EMessage m => onMessageReceived cfg m
  | Spec.EPublish eventId payload => Publish cfg eventId payload
  end.

Definition abs (s : State) : Spec.t :=
  match mCurrent s with
  | ServiceDown => Spec.Down
  | NotSubscribed => Spec.Up 0
  | Subscribed => Spec.Up (Z.to_nat (default 0 (mSubscriptionCounter s)))
  end.

(** The counter has been set and is positive while there are subscribers. *)
Definition inv (s : State) : Prop :=
  1 <= mSessionId s <= 65535 ∧
  (mCurrent s = Subscribed → ∃ c, mSubscriptionCounter s = Some c ∧ 1 <= c < 2147483648).

(** Entries as the deserializer makes them. *)
Definition event_wf (ev : Spec.event) : Prop :=
  match ev with
  | Spec.EMessage m => Forall entry_wf (SomeIpSdMessage.mEntries m)
  | _ => True
  end.

Definition room (a : Spec.t) : Prop :=
  match a with Spec.Up n => Z.of_nat n < 2147483647 | Spec.Down => True end.

Definition entries_sent (s : State) : list AnyEntry := concat (map SomeIpSdMessage.mEntries (mSent s)).

Lemma onMessage_request m s :
  onMessageReceived cfg m s =
    match Spec.request cfg m with
    | Some g =>
        if 0 <? Entry.mTTL (EventgroupEntry.base g) then processEntry cfg g s
        else match mCurrent s with Subscribed => Subscribed_Unsubscribed s | _ => (Ok (), s) end
    | None => (Ok (), s)
    end.
Proof.
  unfold onMessageReceived, Spec.request. induction (SomeIpSdMessage.mEntries m) as [|e es IH]; [done|].
  cbn [process_entries omap list_omap]. destruct (matches cfg e) as [g|]; [|done]. cbn [head].
  destruct (0 <? _); [done|]. run. by destruct (mCurrent s).
Qed.

Lemma request_wf m g :
  Forall entry_wf (SomeIpSdMessage.mEntries m) → Spec.request cfg m = Some g →
  0 <= EventgroupEntry.mCounter g <= 15.
Proof.
  unfold Spec.request. intros Hwf. induction Hwf as [|e es He _ IH]; [done|]. cbn [omap list_omap].
  destruct (matches cfg e) as [g'|] eqn:Hm; [|done]. cbn [head]. intros [= <-].
  unfold matches in Hm. destruct e as [|g0]; [done|]. case_match; [|done]. simplify_eq. apply He.
Qed.

(** A subscription is counted first and then acknowledged. *)
Lemma processEntry_correct g s :
  inv s → room (abs s) → 0 <= EventgroupEntry.mCounter g <= 15 → 0 < Entry.mTTL (EventgroupEntry.base g) →
  ∃ s', processEntry cfg g s = (Ok (), s') ∧ inv s' ∧
    abs s' = (match abs s with Spec.Down => Spec.Down | Spec.Up n => Spec.Up (S n) end) ∧
    entries_sent s' = entries_sent s ++ [Spec.ack cfg (abs s) g] ∧
    mEventLayer s' = mEventLayer s ∧ mPublished s' = mPublished s.
Proof.
  intros [Hsess Hinv] Hroom Hc Httl. unfold processEntry.
  assert (Hm : Ipv4EndpointOption.CreateMulticastEndpoint true (mEndpointIp cfg) (mEndpointPort cfg) =
    Ok (Ipv4EndpointOption.mk IPv4Multicast true (mEndpointIp cfg) Udp (mEndpointPort cfg))).
  { unfold Ipv4EndpointOption.CreateMulticastEndpoint.
    replace (_ || _) with false by (symmetry; apply orb_false_iff; lia). done. }
  assert (Hctor : ∀ ty a b t maj, EventgroupEntry.construct ty a b t maj (EventgroupEntry.mCounter g)
      (EventgroupEntry.mEventgroupId g) = Ok (EventgroupEntry.mk (Entry.construct ty a b t maj)
      (EventgroupEntry.mCounter g) (EventgroupEntry.mEventgroupId g))).
  { intros. unfold EventgroupEntry.construct. by rewrite (proj2 (Z.ltb_ge 15 _)) by lia. }
  assert (Hadd : ∀ a b t maj o, 0 < t → Ipv4EndpointOption.mType o = IPv4Multicast →
    AddFirstOption (EEventgroup (EventgroupEntry.mk (Entry.construct Acknowledging a b t maj)
      (EventgroupEntry.mCounter g) (EventgroupEntry.mEventgroupId g))) (OIpv4Endpoint o) =
    Ok (EEventgroup (EventgroupEntry.mk (Entry.mk Acknowledging [OIpv4Endpoint o] [] a b maj t)
      (EventgroupEntry.mCounter g) (EventgroupEntry.mEventgroupId g)))).
  { intros a b t maj o Ht Ho. unfold AddFirstOption, ValidateOption, EventgroupEntry.ValidateOption,
      Entry.ValidateOption, EventgroupEntry.isAcknowledge. cbn. rewrite Ho.
    unfold EventgroupEntry.cNackTTL. by rewrite (proj2 (Z.ltb_lt 0 t)) by lia. }
  destruct s as [cur ctr sess layer sent pub]. unfold abs, entries_sent in *.
  unfold EventgroupEntry.CreateAcknowledgeEntry, EventgroupEntry.CreateNegativeAcknowledgeEntry.
  destruct cur; cbn [mCurrent mSubscriptionCounter mSent] in *.
  - eexists. split; [run; cbn [mCurrent]; rewrite Hctor; reflexivity|].
    unfold inv, entries_sent, abs. cbn. rewrite map_app, concat_app. done.
  - eexists. split.
    { run. cbn [mCurrent]. rewrite Hctor, Hm, Ok_bind. unfold NotSubscribed_Subscribed, MachineState.Transit.
      run. cbn -[AddFirstOption]. rewrite Hadd by done. unfold FiniteStateMachine.Transit.
      run. cbn. reflexivity. }
    unfold inv, entries_sent, abs. cbn. rewrite map_app, concat_app.
    split; [|done]. split; [done|]. intros _. exists 1. split; [done|lia].
  - destruct (proj2 (conj Hsess Hinv) eq_refl) as (c & -> & Hcb). cbn in Hroom. eexists. split.
    { run. cbn [mCurrent]. rewrite Hctor, Hm, Ok_bind. unfold Subscribed_Subscribed, counter_add. run.
      cbn -[AddFirstOption Z.leb Z.ltb]. rewrite Hadd by done.
      replace (_ && _) with true by (symmetry; apply andb_true_iff; lia). reflexivity. }
    unfold inv, entries_sent, abs. cbn. rewrite map_app, concat_app.
    split; [|split; [f_equal; lia|done]]. split; [done|]. intros _. eexists. split; [done|lia].
Qed.

(** Every step of the server is the step of the abstract server. *)
Lemma step_refines ev s :
  inv s → event_wf ev → room (abs s) →
  ∃ s', impl_step ev s = (Ok (), s') ∧ inv s' ∧ abs s' = Spec.step cfg (abs s) ev ∧
    entries_sent s' = entries_sent s ++ Spec.sends cfg (abs s) ev.
Proof.
  intros Hinv Hwf Hroom. destruct ev as [| |m|eventId payload]; cbn [impl_step Spec.step Spec.sends].
  - unfold Start. destruct s as [cur ctr sess layer sent pub]. destruct Hinv as [Hs Hi].
    rewrite app_nil_r. destruct cur; eexists; (split; [done|]);
      (split; [split; [done|first [exact Hi | by intros]]|done]).
  - unfold Stop. destruct s as [cur ctr sess layer sent pub]. destruct Hinv as [Hs Hi].
    rewrite app_nil_r. destruct cur; eexists; (split; [done|]);
      (split; [split; [done|by intros]|done]).
  - rewrite onMessage_request. destruct (Spec.request cfg m) as [g|] eqn:Hreq.
    + pose proof (request_wf m g Hwf Hreq) as Hc. destruct (0 <? _) eqn:Httl.
      * destruct (processEntry_correct g s Hinv Hroom Hc ltac:(lia)) as (s' & -> & Hi & Ha & He & _).
        exists s'. split; [done|]. split; [done|]. split; [|done]. rewrite Ha. by destruct (abs s).
      * rewrite app_nil_r. destruct Hinv as [Hs Hi].
        destruct s as [cur ctr sess layer sent pub]. unfold abs. destruct cur; cbn in *;
          [by eexists; split_and!; try done..|].
        destruct (Hi eq_refl) as (c & -> & Hcb). unfold Subscribed_Unsubscribed, counter_add. run. cbn.
        replace (_ && _) with true by (symmetry; apply andb_true_iff; lia).
        destruct (c + -1 <=? 0) eqn:Hle; cbn.
        -- eexists. split; [done|]. split; [by split|]. split; [|done]. do 2 f_equal. lia.
        -- eexists. split; [done|]. split; [split; [done|]; intros _; eexists; split; [done|lia]|].
           split; [|done]. cbn. f_equal. lia.
    + eexists. split; [done|]. split; [done|]. rewrite app_nil_r. by destruct (abs s).
  - rewrite app_nil_r. unfold Publish. run. destruct s as [cur ctr sess layer sent pub]. cbn in *.
    destruct Hinv as [Hs Hi]. destruct layer; cbn; [|by eexists; split_and!; [done|split; auto|destruct cur|]].
    destruct cur; cbn; [by eexists; split_and!; [done|split; auto|..]..|].
    eexists. split; [done|]. split; [|done]. split; [|done]. cbn. cbn in Hs. case_match; ulia.
Qed.

Fixpoint run_events (evs : list Spec.event) : M State () :=
  match evs with [] => mret () | ev :: evs => impl_step ev;; run_events evs end.

Fixpoint spec_run (a : Spec.t) (evs : list Spec.event) : Spec.t * list AnyEntry :=
  match evs with
  | [] => (a, [])
  | ev :: evs =>
      let '(a', out) := spec_run (Spec.step cfg a ev) evs in (a', Spec.sends cfg a ev ++ out)
  end.

Definition subscriptions (a : Spec.t) : Z := match a with Spec.Up n => Z.of_nat n | Spec.Down => 0 end.

Lemma step_subscriptions a ev : subscriptions (Spec.step cfg a ev) <= subscriptions a + 1.
Proof. destruct ev, a; cbn; repeat case_match; cbn; lia. Qed.

Lemma run_events_refines evs s :
  inv s → Forall event_wf evs → subscriptions (abs s) + Z.of_nat (length evs) < 2147483647 →
  ∃ s', run_events evs s = (Ok (), s') ∧ inv s' ∧ abs s' = fst (spec_run (abs s) evs) ∧
    entries_sent s' = entries_sent s ++ snd (spec_run (abs s) evs).
Proof.
  intros Hinv Hwf. revert s Hinv. induction Hwf as [|ev evs Hev _ IH]; intros s Hinv Hlen.
  { exists s. cbn. by rewrite app_nil_r. }
  destruct (step_refines ev s Hinv Hev) as (s1 & H1 & Hi1 & Ha1 & He1).
  { unfold room, subscriptions in *. case_match; cbn [length] in Hlen; [done|lia]. }
  destruct (IH s1 Hi1) as (s' & H' & Hi' & Ha' & He').
  { rewrite Ha1. pose proof (step_subscriptions (abs s) ev). cbn [length] in Hlen. lia. }
  exists s'. cbn [run_events spec_run]. unfold mbind, M_bind. rewrite H1.
  rewrite Ha1 in *. destruct (spec_run (Spec.step cfg (abs s) ev) evs) as [a' out].
  split; [done|]. split; [done|]. split; [done|]. cbn [snd] in *. by rewrite He', He1, <- app_assoc.
Qed.

End Refinement.

(** ** Properties *)

(** C3: from construction on, and for any sequence of starts, stops, received
    messages and publications (fewer than 2^31 - 1 of them), the server behaves as
    the abstract counter of subscriptions: no step throws or is undefined, the state
    is Subscribed exactly while the counter is positive, and the entries it sends are
    the positive acknowledgements with the multicast endpoint when it is up and the
    negative ones when it is down. *)
Theorem pubsub_refines_counter cfg evs :
  224 <= Ipv4.octet0 (SomeIpPubSubServer.mEndpointIp cfg) <= 239 →
  Forall event_wf evs → Z.of_nat (length evs) < 2147483647 →
  ∃ s, (SomeIpPubSubServer.construct;; run_events cfg evs) SomeIpPubSubServer.blank = (Ok (), s) ∧
    abs s = fst (spec_run cfg Spec.Down evs) ∧ entries_sent s = snd (spec_run cfg Spec.Down evs) ∧
    (SomeIpPubSubServer.mCurrent s = Subscribed ↔ 0 < subscriptions (abs s)).
Proof.
  intros Hip Hwf Hlen.
  assert (Hinv : inv SomeIpPubSubServer.blank) by (split; [by_eval|done]).
  destruct (run_events_refines cfg Hip evs SomeIpPubSubServer.blank Hinv Hwf) as (s & Hrun & [_ Hi] & Ha & He);
    [cbn; lia|].
  exists s. split; [exact Hrun|]. split; [done|]. split; [done|].
  unfold abs. destruct (SomeIpPubSubServer.mCurrent s); cbn; [split; [done|lia]..|].
  split; [|done]. intros _. destruct (Hi eq_refl) as (c & -> & Hc). cbn. lia.
Qed.

Definition example_pubsub : SomeIpPubSubServer.Config :=
  SomeIpPubSubServer.mkConfig 4660 1 1 9 (Ipv4.mk 239 0 0 1) 5555.

Definition example_subscribe (ttl : Z) : SomeIpSdMessage.t :=
  SomeIpSdMessage.mk (SomeIpMessage.mk SomeIpSdMessage.cMessageId 0 7 1 1 Notification eOK) true
    [EEventgroup (EventgroupEntry.mk (Entry.construct Subscribing 4660 65535 ttl 1) 3 9)].

Lemma pubsub_refines_counter_witness :
  ∃ s, (SomeIpPubSubServer.construct;; run_events example_pubsub
          [Spec.EMessage (example_subscribe 16777215); Spec.EStart; Spec.EMessage (example_subscribe 16777215);
           Spec.EMessage (example_subscribe 16777215); Spec.EMessage (example_subscribe 0)])
         SomeIpPubSubServer.blank = (Ok (), s) ∧
       abs s = Spec.Up 1 ∧ length (entries_sent s) = 3%nat.
Proof.
  destruct (pubsub_refines_counter example_pubsub
    [Spec.EMessage (example_subscribe 16777215); Spec.EStart; Spec.EMessage (example_subscribe 16777215);
     Spec.EMessage (example_subscribe 16777215); Spec.EMessage (example_subscribe 0)])
    as (s & Hrun & Ha & He & _); [by_eval|by_eval|by_eval|].
  exists s. split; [exact Hrun|]. rewrite Ha, He. split; by vm_compute.
Defined.

(** What [Publish] puts on the wire, as an RPC message. *)
Definition notification (cfg : SomeIpPubSubServer.Config) (session eventId : Z) (payload : bytes) : SomeIpRpcMessage.t :=
  SomeIpRpcMessage.mk (SomeIpMessage.mk (Z.lor (u32 (SomeIpPubSubServer.mServiceId cfg ≪ 16)) eventId) 0 session 1
    (SomeIpPubSubServer.mMajorVersion cfg) Notification eOK) payload.

Lemma lor_u16_u32 a b : is_u32 (u32 a) → is_u16 b → is_u32 (Z.lor (u32 a) b).
Proof. intros Ha Hb. apply (lor_bound _ _ 32); [lia|done|unfold is_u16 in Hb; lia]. Qed.

(** Publishing does nothing unless an event layer is attached and somebody is
    subscribed; otherwise it queues one notification that every SOME/IP receiver reads
    back as the event with the server's identifiers, and moves to the next session,
    which is never 0. *)
Theorem publish_notification cfg eventId payload s :
  inv s → is_u16 (SomeIpPubSubServer.mServiceId cfg) → is_u8 (SomeIpPubSubServer.mMajorVersion cfg) →
  is_u16 eventId → is_bytes payload → 8 + size payload < 4294967296 →
  let m := notification cfg (SomeIpPubSubServer.mSessionId s) eventId payload in
  if SomeIpPubSubServer.mEventLayer s && bool_decide (SomeIpPubSubServer.mCurrent s = Subscribed) then
    ∃ s', SomeIpPubSubServer.Publish cfg eventId payload s = (Ok (), s') ∧ inv s' ∧
      SomeIpPubSubServer.mPublished s' = SomeIpPubSubServer.mPublished s ++ [SomeIpRpcMessage.Payload m] ∧
      SomeIpRpcMessage.Deserialize (SomeIpRpcMessage.Payload m) = Ok m ∧
      SomeIpPubSubServer.mSessionId s' = SomeIpPubSubServer.mSessionId s mod 65535 + 1
  else SomeIpPubSubServer.Publish cfg eventId payload s = (Ok (), s).
Proof.
  intros [Hs Hi] Hsid Hmaj Hev Hp Hsz m. unfold SomeIpPubSubServer.Publish. run.
  destruct (SomeIpPubSubServer.mEventLayer s); [|done]. cbn [andb negb].
  case_bool_decide as Hc; [|done]. cbn [negb]. eexists. split; [reflexivity|].
  assert (Hm : SomeIpRpcMessage.wf m).
  { pose proof (lor_u16_u32 _ _ (u32_is (SomeIpPubSubServer.mServiceId cfg ≪ 16)) Hev) as Hid.
    assert (is_u16 (SomeIpPubSubServer.mSessionId s)) by ulia.
    split; [|done]. refine (conj Hid (conj _ (conj _ (conj _ (conj _ (conj _ _)))))); first [done | by_eval]. }
  split; [split; cbn; [case_match; ulia|exact Hi]|]. split; [done|]. split.
  - pose proof (RpcMessage_facts.Deserialize_app m [] Hm) as HD. by rewrite app_nil_r in HD.
  - cbn. case_match; ulia.
Qed.

Lemma Publish_keeps cfg eventId payload s s' :
  SomeIpPubSubServer.Publish cfg eventId payload s = (Ok (), s') →
  abs s' = abs s ∧ SomeIpPubSubServer.mEventLayer s' = SomeIpPubSubServer.mEventLayer s.
Proof.
  unfold SomeIpPubSubServer.Publish. run. destruct (negb _); [by intros [= <-]|].
  destruct (negb _); [by intros [= <-]|]. by intros [= <-].
Qed.

Lemma publish_notification_witness :
  let s := SomeIpPubSubServer.mk Subscribed (Some 1) 65535 true [] [] in
  ∃ s', SomeIpPubSubServer.Publish example_pubsub 32769 [5] s = (Ok (), s') ∧ SomeIpPubSubServer.mSessionId s' = 1.
Proof.
  intros s. assert (Hinv : inv s) by (split; [by_eval|intros _; exists 1; split; [done|by_eval]]).
  destruct (publish_notification example_pubsub 32769 [5] s Hinv) as (s' & H & _ & _ & _ & Hn);
    [by_eval..|].
  exists s'. split; [exact H|exact Hn].
Defined.

(** A datagram of the event layer, and what the receiver's callback gets from it. *)
Definition deliver (n : bytes) : outcome (option bytes) :=
  buffer ← PubSubEventNetworkLayer.datagram n; PubSubEventReceiver.onReceive buffer.

(** The datagram of a notification, and what its receiver gets. *)
Lemma deliver_notification cfg session eventId payload :
  is_u16 (SomeIpPubSubServer.mServiceId cfg) → SomeIpPubSubServer.mServiceId cfg ≠ 65535 →
  is_u16 eventId → is_bytes payload →
  deliver (SomeIpRpcMessage.Payload (notification cfg session eventId payload)) =
    if (length payload <=? 240)%nat
    then Ok (Some (payload ++ replicate (240 - length payload) 0)) else Undefined.
Proof.
  intros Hs Hne He Hp. unfold deliver, PubSubEventNetworkLayer.datagram, PubSubEventNetworkLayer.cBufferSize.
  rewrite RpcMessage_facts.Payload_app. cbn [SomeIpRpcMessage.mRpcPayload notification SomeIpRpcMessage.header].
  set (hd := header_bytes _ _). assert (Hlen : length hd = 16%nat) by done. rewrite length_app, Hlen.
  destruct (length payload <=? 240)%nat eqn:Hle.
  2: { by rewrite (proj2 (Nat.leb_gt _ _)) by (apply Nat.leb_gt in Hle; lia). }
  apply Nat.leb_le in Hle. rewrite (proj2 (Nat.leb_le _ _)) by lia. rewrite Ok_bind.
  replace (256 - (16 + length payload))%nat with (240 - length payload)%nat by lia.
  unfold PubSubEventReceiver.onReceive.
  assert (Hsz : length ((hd ++ payload) ++ replicate (240 - length payload) 0) = 256%nat)
    by (rewrite !length_app, length_replicate, Hlen; lia).
  rewrite Hsz. cbn [Nat.sub replicate]. rewrite app_nil_r. unfold size. rewrite Hsz. cbn [Z.ltb Z.compare Z.of_nat].
  rewrite <- app_assoc.
  set (id := Z.lor _ _) in hd. pose proof (lor_u16_u32 _ _ (u32_is (SomeIpPubSubServer.mServiceId cfg ≪ 16)) He) as Hid.
  fold id in Hid.
  assert (H0 : index_ (hd ++ payload ++ replicate (240 - length payload) 0) 0 = Ok (u8 (id ≫ 24)))
    by (apply index_holds; by exists [], (drop 1 hd ++ payload ++ replicate (240 - length payload) 0)).
  assert (H1 : index_ (hd ++ payload ++ replicate (240 - length payload) 0) 1 = Ok (u8 (id ≫ 16)))
    by (apply index_holds; by exists [u8 (id ≫ 24)], (drop 2 hd ++ payload ++ replicate (240 - length payload) 0)).
  rewrite H0, Ok_bind, H1, Ok_bind.
  assert (Hidv : id = SomeIpPubSubServer.mServiceId cfg * 65536 + eventId).
  { unfold id. rewrite u32_id by (rewrite Z.shiftl_mul_pow2 by lia; ulia). rewrite lor_shiftl_add; ulia. }
  rewrite lor_shiftl_add by ulia. rewrite !Z.shiftr_div_pow2 by lia.
  change (2 ^ 24) with 16777216. change (2 ^ 16) with 65536. change (2 ^ 8) with 256.
  replace (u16 _ =? 65535) with false by (symmetry; apply Z.eqb_neq; ulia).
  change (16 <? Z.of_nat 256) with true. cbv iota.
  replace (hd ++ payload ++ replicate (240 - length payload) 0)
    with (hd ++ (payload ++ replicate (240 - length payload) 0) ++ []) by (by rewrite app_nil_r).
  rewrite (range_app hd (payload ++ replicate (240 - length payload) 0) []); [done|by unfold size; rewrite Hlen|].
  unfold size. rewrite Hlen, length_app, length_replicate. lia.
Qed.

(** An event published to subscribers reaches the receiver's callback padded with
    zeros to 240 bytes, because the sender transmits its whole buffer and the receiver
    ignores the length field; and a payload of more than 240 bytes makes the sender
    write beyond that buffer. *)
Theorem event_delivery cfg session eventId payload :
  is_u16 (SomeIpPubSubServer.mServiceId cfg) → SomeIpPubSubServer.mServiceId cfg ≠ 65535 →
  is_u16 eventId → is_bytes payload →
  deliver (SomeIpRpcMessage.Payload (notification cfg session eventId payload)) =
    if (length payload <=? 240)%nat
    then Ok (Some (payload ++ replicate (240 - length payload) 0)) else Undefined.
Proof. apply deliver_notification. Qed.

Lemma event_delivery_witness :
  deliver (SomeIpRpcMessage.Payload (notification example_pubsub 1 32769 (replicate 239 7))) =
    Ok (Some (replicate 239 7 ++ [0])) ∧
  deliver (SomeIpRpcMessage.Payload (notification example_pubsub 1 32769 (replicate 241 7))) = Undefined.
Proof.
  assert (H : ∀ n, is_bytes (replicate n 7)) by (intros; apply Forall_replicate; by_eval).
  split; [rewrite (event_delivery example_pubsub 1 32769 (replicate 239 7) ltac:(by_eval) ltac:(by_eval) ltac:(by_eval) (H _))
         |rewrite (event_delivery example_pubsub 1 32769 (replicate 241 7) ltac:(by_eval) ltac:(by_eval) ltac:(by_eval) (H _))];
    by vm_compute.
Defined.
