(* ===== verification/PubSubClient.v ===== *)
(** * Waiting for an acknowledgement: ara/com/someip/pubsub/someip_pubsub_client.cpp

    The publish/subscribe client with its two threads: the poller, which buffers
    acknowledgements, and the caller of [TryGetProcessedSubscription], a program counter that
    waits on the condition variable.  Each attempt to take the mutex of the buffer may fail,
    which is a choice of the run.  The theorem: a caller gets what was buffered, in order, and
    nothing undefined happens, unless its wait ends spuriously. *)

From S2P Require Import Prelude Payload Options Entries SomeIp SdMessage Fsm PubSub.

Module SubscriptionClient.

(** Where the caller is: outside with what its last call gave, past its look at an empty buffer,
    waiting, with its wait ended, and about to take the first message. *)
Inductive Call :=
  | Returned (result : option SomeIpSdMessage.t)
  | SawEmpty
  | Blocked
  | Woken (timeout : bool)
  | Dequeuing.

(** [ara/com/someip/pubsub/someip_pubsub_client.h:20-29] SomeIpPubSubClient: the buffer, the
    flag of the destructor and the call on the condition variable *)
Record State := mk { mMessageBuffer : list SomeIpSdMessage.t; mValidNotify : bool; call : Call }.

(** [ara/com/someip/pubsub/someip_pubsub_client.cpp:11-26] SomeIpPubSubClient *)
Definition construct : State := mk [] true (Returned None).

(** [std::condition_variable::notify_one] *)
Definition notify_one (c : Call) : Call := match c with Blocked => Woken false | c => c end.

(** The entries that a message keeps when it is moved away: none. *)
Definition moved (m : SomeIpSdMessage.t) : SomeIpSdMessage.t :=
  SomeIpSdMessage.mk (SomeIpSdMessage.header m) (SomeIpSdMessage.mRebooted m) [].

Definition acknowledging (e : AnyEntry) : bool := bool_decide (Entry.mType (base e) = Acknowledging).

(** What the walk over the entries [es] of [m] puts into the buffer; [free] is whether the mutex
    is free at each attempt, and is [true] where it says nothing. *)
Fixpoint enqueue_entries (es : list AnyEntry) (free : list bool) (m : SomeIpSdMessage.t) : list SomeIpSdMessage.t :=
  match es with
  | [] => []
  | e :: es =>
      if acknowledging e then
        match free with
        | false :: free => enqueue_entries es free m
        | _ => m :: enqueue_entries es (tail free) (moved m)
        end
      else enqueue_entries es free m
  end.

(** [ara/com/someip/pubsub/someip_pubsub_client.cpp:28-42] onMessageReceived: a message that got
    into the buffer is announced to a caller that waits *)
Definition onMessageReceived (free : list bool) (message : SomeIpSdMessage.t) (s : State) : State :=
  let queued := enqueue_entries (SomeIpSdMessage.mEntries message) free message in
  mk (mMessageBuffer s ++ queued) (mValidNotify s) (match queued with [] => call s | _ => notify_one (call s) end).

(** [ara/com/someip/pubsub/someip_pubsub_client.cpp:76-106] TryGetProcessedSubscription, a step of
    it; [over] is whether the wait is over, or whether the mutex is free *)
Definition TryGetProcessedSubscription (over : bool) (s : State) : outcome State :=
  match call s with
  | Returned _ =>
      mret (mk (mMessageBuffer s) (mValidNotify s) (match mMessageBuffer s with [] => SawEmpty | _ => Dequeuing end))
  | SawEmpty => mret (mk (mMessageBuffer s) (mValidNotify s) Blocked)
  | Blocked => mret (mk (mMessageBuffer s) (mValidNotify s) (if over then Woken true else Blocked))
  | Woken timeout =>
      mret (mk (mMessageBuffer s) (mValidNotify s)
        (if mValidNotify s && negb timeout then Dequeuing else Returned None))
  | Dequeuing =>
      if over then
        match mMessageBuffer s with
        | [] => Undefined
        | m :: buffer => mret (mk buffer (mValidNotify s) (Returned (Some m)))
        end
      else mret (mk (mMessageBuffer s) (mValidNotify s) (Returned None))
  end.

(** [ara/com/someip/pubsub/someip_pubsub_client.cpp:108-114] ~SomeIpPubSubClient *)
Definition destroy (s : State) : State := mk (mMessageBuffer s) false (notify_one (call s)).

(** The poller hands a message over, the caller goes on, its wait ends for no reason, the client
    is destroyed. *)
Inductive event :=
  | Receive (free : list bool) (message : SomeIpSdMessage.t)
  | CallStep (over : bool)
  | Spurious
  | Destroy.

Definition step (e : event) (s : State) : outcome State :=
  match e with
  | Receive free message => mret (onMessageReceived free message s)
  | CallStep over => TryGetProcessedSubscription over s
  | Spurious => mret (mk (mMessageBuffer s) (mValidNotify s) (notify_one (call s)))
  | Destroy => mret (destroy s)
  end.

(** A run, with what its calls returned. *)
Fixpoint run_client (es : list event) (s : State) : outcome (State * list SomeIpSdMessage.t) :=
  match es with
  | [] => mret (s, [])
  | e :: es =>
      s' ← step e s;
      '(s'', ms) ← run_client es s';
      mret (s'', match e, call s' with CallStep _, Returned (Some m) => m :: ms | _, _ => ms end)
  end.

(** What the poller buffered in it. *)
Definition buffered (es : list event) : list SomeIpSdMessage.t :=
  concat (map (fun e => match e with
    | Receive free m => enqueue_entries (SomeIpSdMessage.mEntries m) free m
    | _ => []
    end) es).

(** ** Lemmas *)

(** Where every mutex is free, this is the client of PubSub.v. *)
Lemma enqueue_free es m buffer :
  snd (foldl (fun '(message, buffer) e =>
    if bool_decide (Entry.mType (base e) = Acknowledging) then (moved m, buffer ++ [message]) else (message, buffer))
    (m, buffer) es) = buffer ++ enqueue_entries es [] m.
Proof.
  enough (H : ∀ m', moved m' = moved m → snd (foldl (fun '(message, buffer) e =>
    if bool_decide (Entry.mType (base e) = Acknowledging) then (moved m, buffer ++ [message]) else (message, buffer))
    (m', buffer) es) = buffer ++ enqueue_entries es [] m') by by apply H.
  revert buffer. induction es as [|e es IH]; intros buffer m' Hm; cbn; [by rewrite app_nil_r|]. unfold acknowledging.
  case_bool_decide; [|by apply IH]. rewrite IH by done. rewrite <- Hm, <- (assoc_L (++)). done.
Qed.

Lemma onMessageReceived_free m s :
  mMessageBuffer (onMessageReceived [] m s) = SomeIpPubSubClient.onMessageReceived m (mMessageBuffer s).
Proof. symmetry. apply enqueue_free. Qed.

(** A caller about to take a message finds one; one woken by a valid client will. *)
Definition fed (s : State) : Prop :=
  match call s with
  | Dequeuing => mMessageBuffer s ≠ []
  | Woken false => mValidNotify s = true → mMessageBuffer s ≠ []
  | _ => True
  end.

Lemma step_fed e s :
  e ≠ Spurious → fed s → ∃ s', step e s = Ok s' ∧ fed s' ∧
    mMessageBuffer s ++ buffered [e] =
      match e, call s' with CallStep _, Returned (Some m) => m :: mMessageBuffer s' | _, _ => mMessageBuffer s' end.
Proof.
  intros He Hf. destruct e as [free m|over| |]; [|..|done|]; cbn [step].
  - eexists. split; [done|]. cbn. rewrite app_nil_r. split; [|done]. unfold fed, onMessageReceived in *. cbn.
    destruct (enqueue_entries _ _ _) as [|m' q]; [by rewrite app_nil_r|]. destruct (call s) as [| | |[]|]; cbn; try done;
      intros; by destruct (mMessageBuffer s).
  - unfold TryGetProcessedSubscription, fed in *. cbn. rewrite app_nil_r.
    destruct (call s) as [r| | |timeout|] eqn:Ec.
    + destruct (mMessageBuffer s) as [|m b]; by eexists.
    + by eexists.
    + destruct over; by eexists.
    + destruct timeout, (mValidNotify s) eqn:Ev; (eexists; split; [done|]); cbn; rewrite ?Ev; cbn; try done. split; [by apply Hf|done].
    + destruct over; [|by eexists]. destruct (mMessageBuffer s) as [|m b]; [done|]. by eexists.
  - eexists. split; [done|]. cbn. rewrite app_nil_r. split; [|done]. unfold fed, destroy in *. cbn.
    by destruct (call s) as [| | |[]|].
Qed.

Lemma buffered_cons e es : buffered (e :: es) = buffered [e] ++ buffered es.
Proof. unfold buffered. cbn. by rewrite app_nil_r. Qed.

Lemma run_fed es s :
  Spurious ∉ es → fed s → ∃ s' ms, run_client es s = Ok (s', ms) ∧ fed s' ∧ mMessageBuffer s ++ buffered es = ms ++ mMessageBuffer s'.
Proof.
  revert s. induction es as [|e es IH]; intros s Hes Hf; [exists s, []; cbn; by rewrite app_nil_r|].
  apply not_elem_of_cons in Hes as [He Hes]. destruct (step_fed e s) as (s1 & Hs & Hf1 & Hb); [done..|].
  rewrite buffered_cons, (assoc_L (++)), Hb. destruct (IH s1 Hes Hf1) as (s2 & ms & Hr & Hf2 & Hb2). cbn [run_client]. rewrite Hs. cbn. rewrite Hr. cbn.
  eexists _, _. split; [done|]. split; [done|].
  destruct e; try exact Hb2. destruct (call s1) as [[m|]| | | |]; try exact Hb2.
  cbn. by rewrite Hb2.
Qed.

(** The acknowledgements of a message, where the mutex is always free: the message once, and
    without its entries for each further one. *)
Lemma enqueue_count es m :
  enqueue_entries es [] m =
    match length (filter (fun e => acknowledging e) es) with 0%nat => [] | S n => m :: repeat (moved m) n end.
Proof.
  revert m. induction es as [|e es IH]; intros m; [done|]. cbn [enqueue_entries tail]. rewrite filter_cons.
  destruct (acknowledging e); cbn; rewrite IH; [rewrite decide_True by done|rewrite decide_False by (by intros []); done].
  cbn. by destruct (length _).
Qed.

End SubscriptionClient.

(** ** Properties *)
Import SubscriptionClient.

(** What the calls of [TryGetProcessedSubscription] give, in any run without spurious wake-ups:
    the messages that the poller could buffer, each once and in order, and nothing undefined.
    A message arrives as itself, followed by one without entries for every further
    acknowledgement that it holds.  One that comes between the call's look at the buffer and its
    wait is not announced, and the call waits until its timeout and fails; and a wait that ends
    spuriously takes a message from an empty queue, which is undefined. *)
Theorem acknowledgements_in_order :
  (∀ es, Spurious ∉ es → ∃ s ms, run_client es construct = Ok (s, ms) ∧ ms ++ mMessageBuffer s = buffered es) ∧
  (∀ m, buffered [Receive [] m] =
    match length (filter (fun e => acknowledging e) (SomeIpSdMessage.mEntries m)) with
    | 0%nat => []
    | S n => m :: repeat (moved m) n
    end) ∧
  (∀ m n, ∃ s, mMessageBuffer s = buffered [Receive [] m] ∧
    run_client ([CallStep true; Receive [] m; CallStep true] ++ repeat (CallStep false) n ++ [CallStep true; CallStep true])
      construct = Ok (s, [])) ∧
  run_client [CallStep true; CallStep true; Spurious; CallStep true; CallStep true] construct = Undefined.
Proof.
  split_and!.
  - intros es Hes. destruct (run_fed es construct Hes ltac:(done)) as (s & ms & Hr & _ & Hb). by exists s, ms.
  - intros m. unfold buffered. cbn. by rewrite app_nil_r, enqueue_count.
  - intros m n. exists (mk (buffered [Receive [] m]) true (Returned None)). split; [done|].
    assert (Hw : ∀ b, run_client (repeat (CallStep false) n ++ [CallStep true; CallStep true]) (mk b true Blocked) =
      Ok (mk b true (Returned None), [])).
    { intros b. induction n as [|n IH]; [done|]. cbn [repeat app run_client step]. cbn. by rewrite IH. }
    unfold buffered. cbn [map concat]. rewrite app_nil_r. cbn [app run_client]. cbn.
    unfold onMessageReceived. cbn. destruct (enqueue_entries _ _ _) as [|m' q]; cbn; by rewrite Hw.
  - done.
Qed.

Definition demo_acknowledgement : SomeIpSdMessage.t :=
  SomeIpSdMessage.mk (SomeIpMessage.mk SomeIpSdMessage.cMessageId 0 1 1 1 Notification eOK) true
    [EEventgroup (EventgroupEntry.mk (Entry.mk Acknowledging [] [] 4660 1 1 3) 0 1);
     EEventgroup (EventgroupEntry.mk (Entry.mk Acknowledging [] [] 4660 1 1 3) 1 1)].

(** Two acknowledgements in one message: the second call gets a message without entries. *)
Lemma acknowledgements_in_order_witness :
  (∃ s ms, run_client [CallStep true; CallStep true; Receive [] demo_acknowledgement; CallStep true; CallStep true; CallStep true;
      CallStep true] construct = Ok (s, ms) ∧ ms ++ mMessageBuffer s = [demo_acknowledgement; moved demo_acknowledgement]).
Proof.
  apply (proj1 acknowledgements_in_order
    [CallStep true; CallStep true; Receive [] demo_acknowledgement; CallStep true; CallStep true; CallStep true; CallStep true]).
  repeat (apply not_elem_of_cons; split; [done|]). apply not_elem_of_nil.
Defined.
