(* ===== verification/SdServer.v ===== *)
(** * The service-discovery server: ara/com/someip/sd/someip_sd_server.cpp

    The server with its four machine states (fsm/notready_state.cpp,
    fsm/initial_wait_state.h, fsm/repetition_state.h, fsm/main_state.cpp and their
    base fsm/timer_set_state.h).  The worker thread that walks the phases is a
    program counter in the state: one worker step runs from the end of a sleep, or
    from the end of a phase, to the next read of the flags that other threads set.
    Traces interleave worker steps with the calls of other threads.  The lengths of the
    sleeps are kept for the constructors, which refuse some of them; that a sleep ends
    is a worker step. *)

From S2P Require Import Prelude Payload Options Entries SomeIp SdMessage Fsm.

(** [ara/com/helper/machine_state.h:14-20] SdServerState *)
Inductive SdServerState := NotReady | InitialWaitPhase | RepetitionPhase | MainPhase.

#[export] Instance SdServerState_eq_dec : EqDecision SdServerState.
Proof. solve_decision. Defined.

(** ** The constructors of the timer states *)

(** [ara/com/someip/sd/fsm/initial_wait_state.h:72-77] InitialWaitState: the delays it accepts *)
Definition delays_accepted (initialDelayMin initialDelayMax : Z) : bool :=
  negb ((initialDelayMin <? 0) || (initialDelayMax <? 0) || (initialDelayMax <? initialDelayMin)).

(** [ara/com/someip/sd/fsm/initial_wait_state.h:62-78] InitialWaitState *)
Definition InitialWaitState_construct (initialDelayMin initialDelayMax : Z) : outcome () :=
  if delays_accepted initialDelayMin initialDelayMax then Ok () else Throw std_invalid_argument.

(** [ara/com/someip/sd/fsm/repetition_state.h:60-77] RepetitionState *)
Definition RepetitionState_construct (repetitionsBaseDelay : Z) : outcome () :=
  if repetitionsBaseDelay <? 0 then Throw std_invalid_argument else Ok ().

(** [ara/com/someip/sd/fsm/main_state.cpp:15-29] MainState *)
Definition MainState_construct (cyclicOfferDelay : Z) : outcome () :=
  if cyclicOfferDelay <? 0 then Throw std_invalid_argument else Ok ().

Module SomeIpSdServer.

(** The constant members, those of the states included. *)
(** [ara/com/someip/sd/someip_sd_server.h:34-37] the service *)
Record Config := mkConfig {
  mServiceId : Z;
  mInstanceId : Z;
  mMajorVersion : Z;
  mMinorVersion : Z;
  RepetitionsMax : nat;
  InitialDelayMin : Z;
  InitialDelayMax : Z;
  RepetitionsBaseDelay : Z;
  mCyclicOfferDelay : Z
}.

(** [ara/com/someip/sd/fsm/timer_set_state.h:25-29] the flags of a timer state *)
Record Flags := mkFlags { mStopped : bool; mInterrupted : bool }.

(** Where the worker thread is: not running, asleep in iteration [i] of a phase, or
    past the timer of a phase. *)
Inductive Worker := Idle | Waiting (st : SdServerState) (i : nat) | Ending (st : SdServerState).

(** What is sent through the communication layer. *)
Inductive Sent := Offer (m : SomeIpSdMessage.t) | StopOffer (m : SomeIpSdMessage.t).

(** [ara/com/someip/sd/someip_sd_server.h:24-33] SomeIpSdServer *)
Record State := mk {
  mCurrent : SdServerState;
  mInitialWaitState : Flags;
  mRepetitionState : Flags;
  mMainState : Flags;
  mMessageBuffer : list SomeIpSdMessage.t;
  mOfferServiceMessage : SomeIpSdMessage.t;
  mStopOfferMessage : SomeIpSdMessage.t;
  mSent : list Sent;
  worker : Worker;
  Future : bool
}.

Definition set_current (t : SdServerState) (s : State) : State :=
  mk t (mInitialWaitState s) (mRepetitionState s) (mMainState s) (mMessageBuffer s)
     (mOfferServiceMessage s) (mStopOfferMessage s) (mSent s) (worker s) (Future s).
Definition set_worker (w : Worker) (s : State) : State :=
  mk (mCurrent s) (mInitialWaitState s) (mRepetitionState s) (mMainState s) (mMessageBuffer s)
     (mOfferServiceMessage s) (mStopOfferMessage s) (mSent s) w (Future s).
Definition set_future (b : bool) (s : State) : State :=
  mk (mCurrent s) (mInitialWaitState s) (mRepetitionState s) (mMainState s) (mMessageBuffer s)
     (mOfferServiceMessage s) (mStopOfferMessage s) (mSent s) (worker s) b.
Definition set_buffer (b : list SomeIpSdMessage.t) (s : State) : State :=
  mk (mCurrent s) (mInitialWaitState s) (mRepetitionState s) (mMainState s) b
     (mOfferServiceMessage s) (mStopOfferMessage s) (mSent s) (worker s) (Future s).
Definition set_flags (st : SdServerState) (f : Flags) (s : State) : State :=
  let g st' old := if decide (st = st') then f else old in
  mk (mCurrent s) (g InitialWaitPhase (mInitialWaitState s)) (g RepetitionPhase (mRepetitionState s))
     (g MainPhase (mMainState s)) (mMessageBuffer s)
     (mOfferServiceMessage s) (mStopOfferMessage s) (mSent s) (worker s) (Future s).
Definition flags (st : SdServerState) (s : State) : Flags :=
  match st with
  | InitialWaitPhase => mInitialWaitState s
  | RepetitionPhase => mRepetitionState s
  | MainPhase => mMainState s
  | NotReady => mkFlags false false
  end.

(** [ara/com/someip/sd/someip_sd_server.cpp:155-159] onServiceStopped *)
Definition onServiceStopped : M State () := modify (fun s =>
  mk (mCurrent s) (mInitialWaitState s) (mRepetitionState s) (mMainState s) (mMessageBuffer s)
     (mOfferServiceMessage s) (snd (SomeIpSdMessage.IncrementSessionId (mStopOfferMessage s)))
     (mSent s ++ [StopOffer (mStopOfferMessage s)]) (worker s) (Future s)).

(** [ara/com/someip/sd/fsm/timer_set_state.h:108-114] TimerSetState::Activate, which
    enters the timer of the phase unless the phase is already stopped; a repetition
    phase without repetitions has nothing to wait for *)
Definition TimerSetState_Activate (cfg : Config) (st : SdServerState) : M State () :=
  s ← get;
  if negb (mStopped (flags st s)) then
    modify (set_worker
      match st with
      | RepetitionPhase => if (0 <? RepetitionsMax cfg)%nat then Waiting st 0 else Ending st
      | _ => Waiting st 0
      end)
  else modify (set_worker Idle).

(** [ara/com/someip/sd/fsm/notready_state.cpp:19-27] NotReadyState::Activate *)
Definition NotReadyState_Activate (previousState : SdServerState) : M State () :=
  (if decide (previousState ≠ NotReady) then onServiceStopped else mret ());;
  modify (set_worker Idle).

Definition Activate_ (cfg : Config) (st previousState : SdServerState) : M State () :=
  match st with
  | NotReady => NotReadyState_Activate previousState
  | st => TimerSetState_Activate cfg st
  end.

(** [ara/com/someip/sd/fsm/timer_set_state.h:96-102] TimerSetState::Deactivate *)
Definition Deactivate_ (st nextState : SdServerState) : M State () :=
  match st with
  | NotReady => mret ()
  | st => modify (set_flags st (mkFlags false false))
  end.

#[export, refine] Instance SdServerMachine (cfg : Config) : StateMachine SdServerState State := {|
  mCurrentState := mCurrent;
  Fsm.set_current := set_current;
  mStates := [NotReady; InitialWaitPhase; RepetitionPhase; MainPhase];
  Activate := Activate_ cfg;
  Deactivate := Deactivate_
|}.
Proof. done. Defined.

(** [ara/com/someip/sd/someip_sd_server.cpp:126-140] sendOffer: one offer for every
    buffered find *)
Fixpoint sendOffers (finds : list SomeIpSdMessage.t) (offer : SomeIpSdMessage.t) (sent : list Sent) :
    SomeIpSdMessage.t * list Sent :=
  match finds with
  | [] => (offer, sent)
  | _ :: finds => sendOffers finds (snd (SomeIpSdMessage.IncrementSessionId offer)) (sent ++ [Offer offer])
  end.

Definition sendOffer : M State () := modify (fun s =>
  let '(offer, sent) := sendOffers (mMessageBuffer s) (mOfferServiceMessage s) (mSent s) in
  mk (mCurrent s) (mInitialWaitState s) (mRepetitionState s) (mMainState s) []
     offer (mStopOfferMessage s) sent (worker s) (Future s)).

(** [ara/com/someip/sd/someip_sd_server.cpp:99-124] matchOfferingService: decided by the
    first finding entry *)
Fixpoint match_entries (cfg : Config) (es : list AnyEntry) : bool :=
  match es with
  | [] => false
  | EService e :: es =>
      let b := ServiceEntry.base e in
      if bool_decide (Entry.mType b = Finding) then
        (Entry.mServiceId b =? mServiceId cfg) &&
        ((Entry.mInstanceId b =? Entry.cAnyInstanceId) || (Entry.mInstanceId b =? mInstanceId cfg)) &&
        ((Entry.mMajorVersion b =? Entry.cAnyMajorVersion) || (Entry.mMajorVersion b =? mMajorVersion cfg)) &&
        ((ServiceEntry.mMinorVersion e =? 4294967295) || (ServiceEntry.mMinorVersion e =? mMinorVersion cfg))
      else match_entries cfg es
  | EEventgroup _ :: es => match_entries cfg es
  end.

Definition matchOfferingService (cfg : Config) (message : SomeIpSdMessage.t) : bool :=
  match_entries cfg (SomeIpSdMessage.mEntries message).

(** [ara/com/someip/sd/someip_sd_server.cpp:142-153] receiveFind *)
Definition receiveFind (cfg : Config) (message : SomeIpSdMessage.t) : M State () :=
  if matchOfferingService cfg message
  then modify (fun s => set_buffer (mMessageBuffer s ++ [message]) s)
  else mret ().

(** [ara/com/someip/sd/fsm/timer_set_state.h:117-120] ServiceStopped *)
Definition ServiceStopped (st : SdServerState) : M State () :=
  modify (fun s => set_flags st (mkFlags true (mInterrupted (flags st s))) s).

(** [ara/com/someip/sd/fsm/notready_state.cpp:29-32] NotReadyState::ServiceActivated *)
Definition ServiceActivated (cfg : Config) : M State () :=
  MachineState.Transit (StateMachine0 := SdServerMachine cfg) NotReady InitialWaitPhase.

(** [ara/com/someip/sd/someip_sd_server.cpp:161-172] StartAgent, with the check of
    SomeIpSdAgent::Start *)
Definition Start (cfg : Config) : M State () :=
  s ← get;
  if Future s then raise std_logic_error
  else if decide (mCurrent s = NotReady) then
    modify (set_future true);; ServiceActivated cfg
  else mret ().

(** [ara/com/someip/sd/fsm/timer_set_state.h:31-43] the second half of setTimerBase *)
Definition setTimerBase_end (cfg : Config) (st : SdServerState) : M State () :=
  s ← get;
  if mStopped (flags st s) then MachineState.Transit (StateMachine0 := SdServerMachine cfg) st NotReady
  else
    MachineState.Transit (StateMachine0 := SdServerMachine cfg) st
      match st with
      | InitialWaitPhase => RepetitionPhase
      | RepetitionPhase => MainPhase
      | _ => NotReady
      end.

(** [ara/com/someip/sd/fsm/initial_wait_state.h:33-51] InitialWaitState::SetTimer after
    its sleep *)
Definition InitialWait_timer (interrupted : bool) : M State () :=
  (if negb interrupted then sendOffer else mret ());;
  modify (set_worker (Ending InitialWaitPhase)).

(** [ara/com/someip/sd/fsm/repetition_state.h:34-52] RepetitionState::SetTimer after the
    sleep of iteration [i] *)
Definition Repetition_timer (cfg : Config) (i : nat) (interrupted : bool) : M State () :=
  if interrupted then modify (set_worker (Ending RepetitionPhase))
  else
    sendOffer;;
    modify (set_worker (if (S i <? RepetitionsMax cfg)%nat then Waiting RepetitionPhase (S i)
                        else Ending RepetitionPhase)).

(** [ara/com/someip/sd/fsm/main_state.cpp:31-47] MainState::SetTimer after a sleep *)
Definition Main_timer (interrupted : bool) : M State () :=
  if interrupted then modify (set_worker (Ending MainPhase))
  else sendOffer;; modify (set_worker (Waiting MainPhase 0)).

(** One step of the worker thread. *)
Definition worker_step (cfg : Config) : M State () :=
  s ← get;
  match worker s with
  | Idle => mret ()
  | Ending st => setTimerBase_end cfg st
  | Waiting st i =>
      let interrupted := mStopped (flags st s) || mInterrupted (flags st s) in
      match st with
      | NotReady => mret ()
      | InitialWaitPhase => InitialWait_timer interrupted
      | RepetitionPhase => Repetition_timer cfg i interrupted
      | MainPhase => Main_timer interrupted
      end
  end.

(** [ara/com/someip/sd/someip_sd_agent.h:73-80] Join returns once the worker is done *)
Definition Join : M State () :=
  s ← get;
  match worker s with Idle => modify (set_future false) | _ => mret () end.

(** [ara/com/someip/sd/someip_sd_server.cpp:174-180] StopAgent before it joins *)
Definition StopAgent : M State () :=
  ServiceStopped InitialWaitPhase;; ServiceStopped RepetitionPhase;; ServiceStopped MainPhase.

(** [ara/com/someip/sd/someip_sd_server.cpp:14-97] SomeIpSdServer::SomeIpSdServer: its states
    are made first, and may refuse their delays *)
Definition construct (cfg : Config) (ipAddress : Ipv4.Ipv4Address) (port : Z) : outcome State :=
  InitialWaitState_construct (InitialDelayMin cfg) (InitialDelayMax cfg);;
  RepetitionState_construct (RepetitionsBaseDelay cfg);;
  MainState_construct (mCyclicOfferDelay cfg);;
  message ← SomeIpSdMessage.construct;
  offerServiceEntry ← ServiceEntry.CreateOfferServiceEntry (mServiceId cfg) (mInstanceId cfg)
    (mMajorVersion cfg) (mMinorVersion cfg) 16777215;
  let stopOfferEntry := ServiceEntry.CreateStopOfferEntry (mServiceId cfg) (mInstanceId cfg)
    (mMajorVersion cfg) (mMinorVersion cfg) in
  let endpoint := OIpv4Endpoint (Ipv4EndpointOption.CreateUnitcastEndpoint false ipAddress Tcp port) in
  offer ← AddFirstOption (EService offerServiceEntry) endpoint;
  stopOffer ← AddFirstOption (EService stopOfferEntry) endpoint;
  let s := mk NotReady (mkFlags false false) (mkFlags false false) (mkFlags false false) []
    (SomeIpSdMessage.AddEntry message offer) (SomeIpSdMessage.AddEntry message stopOffer) [] Idle false in
  match FiniteStateMachine.Initialize (StateMachine0 := SdServerMachine cfg) NotReady s with
  | (Ok _, s) => Ok s
  | (Throw e, _) => Throw e
  | (Undefined, _) => Undefined
  | (OutOfFuel, _) => OutOfFuel
  end.

End SomeIpSdServer.

(** ** Traces *)
Section Traces.
Import SomeIpSdServer.
Variable cfg : Config.

Inductive event :=
  | EStart
  | EServiceStopped (st : SdServerState)
  | EJoin
  | EWorker
  | EFind (m : SomeIpSdMessage.t).

Definition do_event (ev : event) : M State () :=
  match ev with
  | EStart => Start cfg
  | EServiceStopped st => ServiceStopped st
  | EJoin => Join
  | EWorker => worker_step cfg
  | EFind m => receiveFind cfg m
  end.

(** A call that throws leaves the object as it is and the trace goes on. *)
Definition run_trace (evs : list event) (s : State) : State :=
  foldl (fun s ev => snd (do_event ev s)) s evs.

Lemma run_trace_app evs evs' s : run_trace (evs ++ evs') s = run_trace evs' (run_trace evs s).
Proof. unfold run_trace. by rewrite foldl_app. Qed.

(** The calls of [Stop]: the three flags, then the join once the worker is done. *)
Definition stop_events : list event :=
  [EServiceStopped InitialWaitPhase; EServiceStopped RepetitionPhase; EServiceStopped MainPhase].

Lemma stop_events_StopAgent s : run_trace stop_events s = snd (StopAgent s).
Proof. done. Qed.

Definition is_offer (x : Sent) : bool := match x with Offer _ => true | StopOffer _ => false end.
Definition offers (s : State) : list Sent := List.filter is_offer (mSent s).
Definition stop_offers (s : State) : list Sent := List.filter (fun x => negb (is_offer x)) (mSent s).
Definition finds (evs : list event) : nat :=
  length (List.filter (fun ev => match ev with EFind m => matchOfferingService cfg m | _ => false end) evs).

(** The worker runs the timer of the current phase, and only while a future is held. *)
Definition worker_inv (s : State) : Prop :=
  match worker s with
  | Idle => True
  | Waiting st _ | Ending st => mCurrent s = st ∧ st ≠ NotReady ∧ Future s = true
  end.

Lemma sendOffers_spec fs offer sent :
  List.filter is_offer (snd (sendOffers fs offer sent)) =
    List.filter is_offer sent ++ List.filter is_offer (snd (sendOffers fs offer [])) ∧
  length (List.filter is_offer (snd (sendOffers fs offer []))) = length fs ∧
  List.filter (fun x => negb (is_offer x)) (snd (sendOffers fs offer sent)) =
    List.filter (fun x => negb (is_offer x)) sent.
Proof.
  revert offer sent. induction fs as [|f fs IH]; intros offer sent; cbn [sendOffers snd List.filter length app].
  { by rewrite app_nil_r. }
  set (o := snd (SomeIpSdMessage.IncrementSessionId offer)).
  destruct (IH o (sent ++ [Offer offer])) as (H1 & H2 & H3).
  destruct (IH o ([] ++ [Offer offer])) as (H1' & _ & _). cbn [app] in H1'.
  rewrite H1, H1', !List.filter_app, H3, List.filter_app. cbn. rewrite <- app_assoc, !app_nil_r.
  split; [done|]. split; [by rewrite H2|done].
Qed.

Lemma sendOffer_spec s :
  let s' := snd (sendOffer s) in
  length (offers s') = (length (offers s) + length (mMessageBuffer s))%nat ∧ mMessageBuffer s' = [] ∧
  stop_offers s' = stop_offers s ∧
  mCurrent s' = mCurrent s ∧ worker s' = worker s ∧ Future s' = Future s ∧
  (∀ st, flags st s' = flags st s) ∧ fst (sendOffer s) = Ok ().
Proof.
  unfold sendOffer, modify, offers, stop_offers.
  destruct (sendOffers_spec (mMessageBuffer s) (mOfferServiceMessage s) (mSent s)) as (H1 & H2 & H3).
  destruct (sendOffers _ _ (mSent s)) as [o sent]. cbn [snd] in *. cbn.
  rewrite H1, length_app, H2. split_and!; done.
Qed.

(** A transition by the worker: where it goes and what it sends. *)
Lemma worker_transit st next s :
  mCurrent s = st → st ≠ NotReady → next ≠ st →
  let s0 := set_current next (set_flags st (mkFlags false false) s) in
  MachineState.Transit (StateMachine0 := SdServerMachine cfg) st next s = Activate_ cfg next st s0.
Proof.
  intros Hc Hne Hn s0. unfold MachineState.Transit. cbn [Deactivate SdServerMachine]. unfold mbind, M_bind.
  assert (Hd : Deactivate_ st next s = (Ok (), set_flags st (mkFlags false false) s)) by (by destruct st).
  rewrite Hd.
  pose proof (Transit_current (StateMachine0 := SdServerMachine cfg) next (set_flags st (mkFlags false false) s)) as HT.
  cbn [mCurrentState SdServerMachine] in HT.
  change (mCurrent (set_flags st (mkFlags false false) s)) with (mCurrent s) in HT. rewrite Hc in HT.
  apply HT. destruct next; set_solver.
Qed.

(** Entering a timer phase: no message is sent, and the worker sleeps in that phase or
    is done when the phase is already marked stopped. *)
Lemma enter_phase st s :
  st ≠ NotReady →
  let s' := snd (Activate_ cfg st NotReady s) in
  mSent s' = mSent s ∧ mMessageBuffer s' = mMessageBuffer s ∧ mCurrent s' = mCurrent s ∧ Future s' = Future s ∧
  (∀ st', flags st' s' = flags st' s) ∧
  worker s' = if mStopped (flags st s) then Idle else
    match st with
    | RepetitionPhase => if (0 <? RepetitionsMax cfg)%nat then Waiting st 0 else Ending st
    | _ => Waiting st 0
    end.
Proof.
  intros Hne. assert (Hf : ∀ w st', flags st' (set_worker w s) = flags st' s) by (by intros ? []).
  destruct st; [done|..]; cbn [Activate_]; unfold TimerSetState_Activate; run;
    destruct (mStopped (flags _ s)) eqn:E; cbn [negb snd];
    cbn [mSent mMessageBuffer mCurrent Future worker set_worker]; split_and!; try done; apply Hf.
Qed.

Lemma activate_phase_prev st prev s : st ≠ NotReady → Activate_ cfg st prev s = Activate_ cfg st NotReady s.
Proof. by destruct st. Qed.

Definition next_phase (st : SdServerState) : SdServerState :=
  match st with InitialWaitPhase => RepetitionPhase | RepetitionPhase => MainPhase | _ => NotReady end.

(** The end of a phase: to NotReady with one stop offer when the phase was stopped (or
    was the main phase), else into the next phase without any message. *)
Lemma ending_spec st s :
  mCurrent s = st → st ≠ NotReady →
  let s' := snd (setTimerBase_end cfg st s) in
  offers s' = offers s ∧ mMessageBuffer s' = mMessageBuffer s ∧ Future s' = Future s ∧
  (∀ st', flags st' s' = if decide (st = st') then mkFlags false false else flags st' s) ∧
  if mStopped (flags st s) || bool_decide (st = MainPhase)
  then mCurrent s' = NotReady ∧ worker s' = Idle ∧ mSent s' = mSent s ++ [StopOffer (mStopOfferMessage s)]
  else mCurrent s' = next_phase st ∧ mSent s' = mSent s ∧
       worker s' = if mStopped (flags (next_phase st) s) then Idle else
         match next_phase st with
         | RepetitionPhase => if (0 <? RepetitionsMax cfg)%nat then Waiting RepetitionPhase 0 else Ending RepetitionPhase
         | p => Waiting p 0
         end.
Proof.
  intros Hc Hne. unfold setTimerBase_end. run.
  assert (Hflags : ∀ st' next, flags st' (set_current next (set_flags st (mkFlags false false) s)) =
    if decide (st = st') then mkFlags false false else flags st' s) by (intros [] ?; by destruct st).
  assert (Hstop : ∀ s', s' = snd (Activate_ cfg NotReady st (set_current NotReady (set_flags st (mkFlags false false) s))) →
    offers s' = offers s ∧ mMessageBuffer s' = mMessageBuffer s ∧ Future s' = Future s ∧
    (∀ st', flags st' s' = if decide (st = st') then mkFlags false false else flags st' s) ∧
    mCurrent s' = NotReady ∧ worker s' = Idle ∧ mSent s' = mSent s ++ [StopOffer (mStopOfferMessage s)]).
  { intros s' ->. cbn [Activate_]. unfold NotReadyState_Activate, onServiceStopped. run.
    rewrite decide_True by done. cbn [snd]. unfold offers. cbn [set_worker set_current set_flags mSent mMessageBuffer
      Future mCurrent worker mStopOfferMessage]. rewrite List.filter_app. cbn. rewrite app_nil_r.
    split_and!; try done. intros st'. rewrite <- (Hflags st' NotReady). by destruct st'. }
  destruct (mStopped (flags st s)) eqn:Est; cbn [orb].
  - rewrite worker_transit by done. destruct (Hstop _ eq_refl) as (?&?&?&?&?). done.
  - case_bool_decide as Hmain.
    + subst st. rewrite Hmain. rewrite worker_transit by done. rewrite Hmain in *.
      destruct (Hstop _ eq_refl) as (?&?&?&?&?). done.
    + replace (match st with InitialWaitPhase => RepetitionPhase | RepetitionPhase => MainPhase | _ => NotReady end)
        with (next_phase st) by (by destruct st).
      rewrite worker_transit; [|done|done|by destruct st].
      assert (Hnn : next_phase st ≠ NotReady) by (by destruct st).
      rewrite activate_phase_prev by done.
      destruct (enter_phase (next_phase st) (set_current (next_phase st) (set_flags st (mkFlags false false) s)) Hnn)
        as (H1 & H2 & H3 & H4 & H5 & H6). unfold offers. rewrite H1, H2, H3, H4, H6.
      split_and!; try done.
      * intros st'. by rewrite H5, Hflags.
      * rewrite Hflags. rewrite decide_False by (by destruct st). by destruct st.
Qed.

(** The part of the state the worker's timers leave alone. *)
Lemma set_worker_offers w s : offers (set_worker w s) = offers s ∧ stop_offers (set_worker w s) = stop_offers s.
Proof. done. Qed.

(** What one event does to the worker, and to offers and buffered finds. *)
Lemma event_inv ev s :
  worker_inv s →
  let s' := snd (do_event ev s) in
  worker_inv s' ∧
  (length (offers s') + length (mMessageBuffer s') =
    length (offers s) + length (mMessageBuffer s) + finds [ev])%nat.
Proof.
  intros Hinv. unfold finds. destruct ev as [|st| | |m]; cbn [do_event List.filter length].
  - unfold Start. run. destruct (Future s) eqn:HF; cbn [snd]; [split; [done|lia]|].
    case_decide as HN; cbn [snd]; [|split; [done|lia]].
    unfold ServiceActivated, MachineState.Transit. cbn [Deactivate SdServerMachine Deactivate_]. run.
    set (s1 := set_future true s).
    change NotReady with NotReady in HN.
    pose proof (Transit_current (StateMachine0 := SdServerMachine cfg) InitialWaitPhase s1) as HT.
    cbn [mCurrentState SdServerMachine] in HT. change (mCurrent s1) with (mCurrent s) in HT. rewrite HN in HT.
    rewrite HT by (cbn; set_solver). cbn [Activate SdServerMachine].
    change (Fsm.set_current InitialWaitPhase s1) with (set_current InitialWaitPhase s1).
    destruct (enter_phase InitialWaitPhase (set_current InitialWaitPhase s1) ltac:(done)) as (H1 & H2 & H3 & H4 & H5 & H6).
    unfold worker_inv, offers. rewrite H1, H2, H3, H4, H6. split; [|cbn; lia]. by case_match.
  - split; [|unfold offers; cbn; lia]. unfold worker_inv in *. cbn. done.
  - unfold Join. run. unfold worker_inv in *. destruct (worker s) eqn:Hw; cbn [snd]; [split; [cbn; by rewrite Hw|unfold offers; cbn; lia]|..];
      rewrite Hw; (split; [done|lia]).
  - unfold worker_step. run. unfold worker_inv in Hinv. destruct (worker s) as [|st i|st] eqn:Hw.
    + cbn [snd]. unfold worker_inv. rewrite Hw. split; [done|lia].
    + destruct Hinv as (Hc & Hne & HF). pose proof (sendOffer_spec s) as Hspec. revert Hspec.
      destruct (sendOffer s) as [r s1] eqn:Hs. cbn [fst snd]. intros (H1 & H2 & H3 & H4 & H5 & H6 & H7 & ->).
      destruct st; [done|..]; unfold InitialWait_timer, Repetition_timer, Main_timer; run;
        destruct (_ || _); cbn [negb]; run; rewrite ?Hs; cbn [snd]; unfold worker_inv, offers in *;
        cbn [worker set_worker mCurrent Future mSent mMessageBuffer]; rewrite ?H2, ?H4, ?H6, ?H1;
        (split; [try (destruct (_ <? _)%nat); done|cbn [length]; lia]).
    + destruct Hinv as (Hc & Hne & HF). destruct (ending_spec st s Hc Hne) as (H1 & H2 & H3 & H4 & H5).
      unfold offers in *. rewrite H1, H2. split; [|lia]. unfold worker_inv. rewrite H3.
      destruct (_ || _) eqn:E; destruct H5 as (-> & H5); [by destruct H5 as [-> _]|destruct H5 as [_ ->]].
      apply orb_false_iff in E as [_ E%bool_decide_eq_false].
      destruct (mStopped _); [done|]. destruct st; cbn [next_phase] in *; try done;
        try (destruct (_ <? _)%nat); done.
  - unfold receiveFind. destruct (matchOfferingService cfg m); run; cbn [snd length]; [|split; [done|lia]].
    unfold worker_inv, offers in *. cbn. rewrite length_app. cbn. split; [done|lia].
Qed.

Lemma trace_inv evs s :
  worker_inv s →
  worker_inv (run_trace evs s) ∧
  (length (offers (run_trace evs s)) + length (mMessageBuffer (run_trace evs s)) =
    length (offers s) + length (mMessageBuffer s) + finds evs)%nat.
Proof.
  revert s. induction evs as [|ev evs IH]; intros s Hinv; cbn [run_trace foldl]; [unfold finds; cbn; split; [done|lia]|].
  destruct (event_inv ev s Hinv) as [H1 H2]. destruct (IH _ H1) as [H3 H4]. split; [done|].
  unfold run_trace in *. unfold finds in *. cbn [List.filter length] in *.
  destruct ev; cbn [length] in *; try lia. destruct (matchOfferingService cfg m); cbn [length] in *; lia.
Qed.

(** A server whose worker is done outside NotReady. *)
Definition stuck (s : State) : Prop := worker s = Idle ∧ mCurrent s ≠ NotReady.

Lemma stuck_event ev s :
  stuck s → stuck (snd (do_event ev s)) ∧ mSent (snd (do_event ev s)) = mSent s ∧
  mCurrent (snd (do_event ev s)) = mCurrent s.
Proof.
  intros [Hw Hc]. destruct ev; cbn [do_event].
  - unfold Start. run. destruct (Future s); [done|]. by rewrite decide_False.
  - done.
  - unfold Join. run. by rewrite Hw.
  - unfold worker_step. run. by rewrite Hw.
  - unfold receiveFind. by destruct (matchOfferingService cfg m).
Qed.

Lemma stuck_forever evs s :
  stuck s → stuck (run_trace evs s) ∧ mSent (run_trace evs s) = mSent s ∧ mCurrent (run_trace evs s) = mCurrent s.
Proof.
  revert s. induction evs as [|ev evs IH]; intros s Hs; [done|]. cbn [run_trace foldl].
  destruct (stuck_event ev s Hs) as (H1 & H2 & H3). destruct (IH _ H1) as (H4 & H5 & H6).
  unfold run_trace in *. by rewrite H5, H6, H2, H3.
Qed.

(** All three timers are marked stopped. *)
Definition all_stopped (s : State) : Prop :=
  ∀ st, st ≠ NotReady → mStopped (flags st s) = true.

Lemma stop_events_effect s :
  let s' := run_trace stop_events s in
  all_stopped s' ∧ mSent s' = mSent s ∧ worker s' = worker s ∧ mCurrent s' = mCurrent s ∧
  Future s' = Future s ∧ mStopOfferMessage s' = mStopOfferMessage s.
Proof. split_and!; try done. by intros []. Qed.

Definition running (s : State) : Prop := worker s ≠ Idle.

(** Two worker steps end a stopped phase, whichever it is and wherever its timer is. *)
Lemma stopped_worker s :
  worker_inv s → running s → all_stopped s →
  let s' := run_trace [EWorker; EWorker] s in
  mCurrent s' = NotReady ∧ worker s' = Idle ∧ Future s' = true ∧
  mSent s' = mSent s ++ [StopOffer (mStopOfferMessage s)] ∧
  (∀ st, flags st s' = if decide (mCurrent s = st) then mkFlags false false else flags st s).
Proof.
  intros Hinv Hrun Hall. unfold worker_inv, running in *.
  assert (Hend : ∀ st s, worker s = Ending st → mCurrent s = st → st ≠ NotReady → Future s = true → all_stopped s →
    let s' := snd (do_event EWorker s) in
    mCurrent s' = NotReady ∧ worker s' = Idle ∧ Future s' = true ∧
    mSent s' = mSent s ++ [StopOffer (mStopOfferMessage s)] ∧
    (∀ st, flags st s' = if decide (mCurrent s = st) then mkFlags false false else flags st s)).
  { clear. intros st s Hw Hc Hne HF Hall. cbn [do_event]. unfold worker_step. run. rewrite Hw.
    destruct (ending_spec st s Hc Hne) as (_ & _ & H3 & H4 & H5). rewrite Hall in H5 by done. cbn [orb] in H5.
    destruct H5 as (H5 & H6 & H7). rewrite H3, H5, H6, H7, HF. split_and!; try done.
    intros st'. by rewrite H4, Hc. }
  destruct (worker s) as [|st i|st] eqn:Hw; [done|..]; destruct Hinv as (Hc & Hne & HF).
  - cbn [run_trace foldl].
    assert (H1 : snd (do_event EWorker s) = set_worker (Ending st) s).
    { cbn [do_event]. unfold worker_step. run. rewrite Hw, Hall by done. cbn [orb].
      destruct st; [done|..]; unfold InitialWait_timer, Repetition_timer, Main_timer; run; done. }
    rewrite H1. destruct (Hend st (set_worker (Ending st) s)) as (H2 & H3 & H4 & H5 & H6); try done.
  - cbn [run_trace foldl]. destruct (Hend st s) as (H2 & H3 & H4 & H5 & H6); try done.
    assert (H7 : snd (do_event EWorker (snd (do_event EWorker s))) = snd (do_event EWorker s)).
    { set (s1 := snd (do_event EWorker s)) in *. cbn [do_event]. unfold worker_step. run. by rewrite H3. }
    by rewrite H7.
Qed.

(** A start that finds only one of the timers reset. *)
Lemma restart_stuck s :
  mCurrent s = NotReady → worker s = Idle →
  (∃ p, p ≠ NotReady ∧ ∀ st, st ≠ NotReady → (p = st ∧ flags st s = mkFlags false false) ∨ mStopped (flags st s) = true) →
  let s' := run_trace [EJoin; EStart; EWorker; EWorker] s in
  stuck s' ∧ (mCurrent s' = InitialWaitPhase ∨ mCurrent s' = RepetitionPhase).
Proof.
  intros Hc Hw (p & Hp & Hfl). unfold run_trace. cbn [foldl].
  assert (HJ : snd (do_event EJoin s) = set_future false s) by (cbn [do_event]; unfold Join; run; by rewrite Hw).
  rewrite HJ. set (s1 := set_future false s).
  assert (HS : snd (do_event EStart s1) = snd (Activate_ cfg InitialWaitPhase NotReady (set_current InitialWaitPhase (set_future true s1)))).
  { cbn [do_event]. unfold Start. run. cbn [Future set_future s1]. rewrite decide_True by done.
    unfold ServiceActivated, MachineState.Transit. cbn [Deactivate SdServerMachine Deactivate_]. run.
    pose proof (Transit_current (StateMachine0 := SdServerMachine cfg) InitialWaitPhase (set_future true s1)) as HT.
    cbn [mCurrentState SdServerMachine] in HT. change (mCurrent (set_future true s1)) with (mCurrent s) in HT. rewrite Hc in HT.
    rewrite HT by (cbn; set_solver). done. }
  rewrite HS. set (s2 := set_current InitialWaitPhase (set_future true s1)).
  assert (Hf2 : ∀ st, flags st s2 = flags st s) by (by intros []).
  destruct (enter_phase InitialWaitPhase s2 ltac:(done)) as (_ & _ & H3 & H4 & H5 & H6).
  set (s3 := snd (Activate_ cfg InitialWaitPhase NotReady s2)) in *. cbn [mCurrent s2 set_current] in H3.
  rewrite Hf2 in H6.
  destruct (mStopped (flags InitialWaitPhase s)) eqn:Hinit.
  { assert (Hstuck : stuck s3) by (split; [done|by rewrite H3]).
    destruct (stuck_forever [EWorker; EWorker] s3 Hstuck) as (H7 & _ & H8).
    unfold run_trace in *. cbn [foldl] in *. split; [done|]. left. by rewrite H8, H3. }
  assert (Hrep : mStopped (flags RepetitionPhase s) = true).
  { destruct (Hfl RepetitionPhase ltac:(done)) as [[-> _]|]; [|done].
    destruct (Hfl InitialWaitPhase ltac:(done)) as [[? _]|?]; congruence. }
  assert (H7 : ∃ s4, snd (do_event EWorker s3) = set_worker (Ending InitialWaitPhase) s4 ∧
    mCurrent s4 = InitialWaitPhase ∧ (∀ st, flags st s4 = flags st s3)).
  { cbn [do_event]. unfold worker_step. run. rewrite H6.
    destruct (sendOffer_spec s3) as (_ & _ & _ & HX1 & _ & _ & HX2 & HX3).
    unfold InitialWait_timer. destruct (_ || _); cbn [negb]; run.
    - exists s3. done.
    - exists (snd (sendOffer s3)). destruct (sendOffer s3) as [r s4]. cbn [fst snd] in *. subst r.
      split; [done|]. split; [by rewrite HX1|done]. }
  destruct H7 as (s4 & -> & Hc4 & Hf4).
  assert (Hf5 : ∀ st, flags st (set_worker (Ending InitialWaitPhase) s4) = flags st s)
    by (intros st; transitivity (flags st s4); [by destruct st|by rewrite Hf4, H5, Hf2]).
  set (s5 := set_worker (Ending InitialWaitPhase) s4) in *.
  destruct (ending_spec InitialWaitPhase s5 Hc4 ltac:(done)) as (_ & _ & _ & _ & H8).
  cbn [next_phase] in H8. rewrite !Hf5, Hinit, Hrep in H8. cbn [orb next_phase] in H8. rewrite bool_decide_false in H8 by done.
  destruct H8 as (H8 & _ & H9).
  assert (HW : snd (do_event EWorker s5) = snd (setTimerBase_end cfg InitialWaitPhase s5)) by done.
  rewrite HW. split; [split; [done|by rewrite H8]|by right].
Qed.

End Traces.

(** ** Properties *)

Definition reached (cfg : SomeIpSdServer.Config) ip port (evs : list event) (s : SomeIpSdServer.State) : Prop :=
  ∃ s0, SomeIpSdServer.construct cfg ip port = Ok s0 ∧ s = run_trace cfg evs s0.

(** The delays that the three timer states accept. *)
Definition timing_accepted (cfg : SomeIpSdServer.Config) : bool :=
  delays_accepted (SomeIpSdServer.InitialDelayMin cfg) (SomeIpSdServer.InitialDelayMax cfg) &&
  (0 <=? SomeIpSdServer.RepetitionsBaseDelay cfg) && (0 <=? SomeIpSdServer.mCyclicOfferDelay cfg).

Lemma delays_in_order a b : delays_accepted a b = true ↔ 0 <= a <= b.
Proof. unfold delays_accepted. rewrite negb_true_iff, !orb_false_iff, !Z.ltb_ge. lia. Qed.

(** The server as its constructor leaves it. *)
Definition fresh_server (cfg : SomeIpSdServer.Config) (ip : Ipv4.Ipv4Address) (port : Z) : SomeIpSdServer.State :=
  let offered ttl := SomeIpSdMessage.mk (SomeIpMessage.mk SomeIpSdMessage.cMessageId 0 1 1 1 Notification eOK) true
    [EService (ServiceEntry.mk (Entry.mk Offering [OIpv4Endpoint (Ipv4EndpointOption.CreateUnitcastEndpoint false ip Tcp port)] []
       (SomeIpSdServer.mServiceId cfg) (SomeIpSdServer.mInstanceId cfg) (SomeIpSdServer.mMajorVersion cfg) ttl)
       (SomeIpSdServer.mMinorVersion cfg))] in
  SomeIpSdServer.mk NotReady (SomeIpSdServer.mkFlags false false) (SomeIpSdServer.mkFlags false false)
    (SomeIpSdServer.mkFlags false false) [] (offered 16777215) (offered 0) [] SomeIpSdServer.Idle false.

(** The constructor succeeds for delays that its states accept, and throws for all others. *)
Lemma construct_spec cfg ip port :
  SomeIpSdServer.construct cfg ip port =
    if timing_accepted cfg then Ok (fresh_server cfg ip port) else Throw std_invalid_argument.
Proof.
  unfold SomeIpSdServer.construct, timing_accepted, InitialWaitState_construct, RepetitionState_construct, MainState_construct.
  rewrite !Z.leb_antisym. destruct (delays_accepted _ _); [|reflexivity].
  destruct (SomeIpSdServer.RepetitionsBaseDelay cfg <? 0); [reflexivity|].
  by destruct (SomeIpSdServer.mCyclicOfferDelay cfg <? 0).
Qed.

Lemma construct_worker_inv cfg ip port s0 :
  SomeIpSdServer.construct cfg ip port = Ok s0 →
  worker_inv s0 ∧ SomeIpSdServer.mSent s0 = [] ∧ SomeIpSdServer.mMessageBuffer s0 = [].
Proof. rewrite construct_spec. destruct (timing_accepted cfg); [|done]. by intros [= <-]. Qed.

(** C23: in every interleaving of the worker with starts, stops and received messages,
    the server sends exactly one offer for each find that asked for its service, and
    buffers the rest: offers are never unsolicited and no find is answered twice or
    lost while the worker runs. *)
Theorem offers_answer_finds cfg ip port evs s :
  reached cfg ip port evs s →
  (length (offers s) + length (SomeIpSdServer.mMessageBuffer s) = finds cfg evs)%nat.
Proof.
  intros (s0 & Hc & ->). destruct (construct_worker_inv _ _ _ _ Hc) as (Hinv & Hs & Hb).
  destruct (trace_inv cfg evs s0 Hinv) as [_ H]. unfold offers in H at 2. by rewrite Hs, Hb in H.
Qed.

(** Stopping the server in any phase makes the worker, within two steps, enter
    NotReady and send exactly one stop offer. *)
Theorem stop_sends_one_stop_offer cfg ip port evs s :
  reached cfg ip port evs s → running s →
  let s' := run_trace cfg (stop_events ++ [EWorker; EWorker]) s in
  SomeIpSdServer.mCurrent s' = NotReady ∧ SomeIpSdServer.worker s' = SomeIpSdServer.Idle ∧
  SomeIpSdServer.mSent s' =
    SomeIpSdServer.mSent s ++ [SomeIpSdServer.StopOffer (SomeIpSdServer.mStopOfferMessage s)].
Proof.
  intros (s0 & Hc & ->) Hrun. destruct (construct_worker_inv _ _ _ _ Hc) as (Hinv & _).
  destruct (trace_inv cfg evs s0 Hinv) as [Hinv' _]. set (s := run_trace cfg evs s0) in *.
  destruct (stop_events_effect cfg s) as (Hall & Hs & Hw & Hcur & HF & Hmsg).
  unfold run_trace. rewrite foldl_app. fold (run_trace cfg stop_events s). set (s1 := run_trace cfg stop_events s) in *.
  destruct (stopped_worker cfg s1) as (H1 & H2 & _ & H3 & _); [| |done|].
  - unfold worker_inv. by rewrite Hw, Hcur, HF.
  - unfold running. by rewrite Hw.
  - cbv zeta in *. unfold run_trace in H1, H2, H3. rewrite H1, H2, H3, Hs, Hmsg. done.
Qed.

(** A server that was stopped while its worker was running never works again: the
    stop marks all three timers, only the one that was running is reset, so after the
    next start the worker ends in the initial-wait or the repetition phase, and from
    there no sequence of calls, finds and worker steps sends another message - no
    offer, and no stop offer. *)
Theorem restart_after_stop_is_stuck cfg ip port evs s more :
  reached cfg ip port evs s → running s →
  let s1 := run_trace cfg (stop_events ++ [EWorker; EWorker; EJoin; EStart; EWorker; EWorker]) s in
  let s2 := run_trace cfg more s1 in
  SomeIpSdServer.worker s1 = SomeIpSdServer.Idle ∧
  (SomeIpSdServer.mCurrent s1 = InitialWaitPhase ∨ SomeIpSdServer.mCurrent s1 = RepetitionPhase) ∧
  SomeIpSdServer.mCurrent s2 = SomeIpSdServer.mCurrent s1 ∧
  SomeIpSdServer.mSent s2 = SomeIpSdServer.mSent s1.
Proof.
  intros (s0 & Hc & ->) Hrun. destruct (construct_worker_inv _ _ _ _ Hc) as (Hinv & _).
  destruct (trace_inv cfg evs s0 Hinv) as [Hinv' _]. set (s := run_trace cfg evs s0) in *.
  destruct (stop_events_effect cfg s) as (Hall & _ & Hw & Hcur & HF & _).
  set (sa := run_trace cfg stop_events s) in *.
  assert (Hinva : worker_inv sa) by (unfold worker_inv; by rewrite Hw, Hcur, HF).
  assert (Hruna : running sa) by (unfold running; by rewrite Hw).
  destruct (stopped_worker cfg sa Hinva Hruna Hall) as (Hb1 & Hb2 & _ & _ & Hb5).
  set (sb := run_trace cfg [EWorker; EWorker] sa) in *.
  assert (Hstuck : stuck (run_trace cfg [EJoin; EStart; EWorker; EWorker] sb) ∧
    (SomeIpSdServer.mCurrent (run_trace cfg [EJoin; EStart; EWorker; EWorker] sb) = InitialWaitPhase ∨
     SomeIpSdServer.mCurrent (run_trace cfg [EJoin; EStart; EWorker; EWorker] sb) = RepetitionPhase)).
  { apply restart_stuck; [done|done|]. exists (SomeIpSdServer.mCurrent sa). split.
    - unfold worker_inv in Hinva. unfold running in Hruna.
      destruct (SomeIpSdServer.worker sa); [done|..]; by destruct Hinva as (-> & ? & _).
    - intros st Hst. rewrite Hb5. case_decide; [by left|right]. by rewrite Hall. }
  intros s1 s2.
  assert (Hs1 : s1 = run_trace cfg [EJoin; EStart; EWorker; EWorker] sb).
  { unfold s1, sb, sa. rewrite <- !run_trace_app. done. }
  rewrite <- Hs1 in Hstuck. destruct Hstuck as [Hst Hcur1].
  destruct (stuck_forever cfg more s1 Hst) as (_ & H1 & H2). by destruct Hst.
Qed.

Definition example_server : SomeIpSdServer.Config := SomeIpSdServer.mkConfig 4660 1 1 0 3 10 100 30 1000.

(** A find for any instance of the example service. *)
Definition example_find : SomeIpSdMessage.t :=
  SomeIpSdMessage.mk (SomeIpMessage.mk SomeIpSdMessage.cMessageId 0 1 1 1 Notification eOK) true
    [EService (ServiceEntry.mk (Entry.construct Finding 4660 65535 16777215 255) 4294967295)].

Definition example_start : SomeIpSdServer.State :=
  match SomeIpSdServer.construct example_server (Ipv4.mk 10 0 0 1) 8080 with
  | Ok s => s
  | _ => SomeIpSdServer.mk NotReady (SomeIpSdServer.mkFlags false false) (SomeIpSdServer.mkFlags false false)
           (SomeIpSdServer.mkFlags false false) [] example_find example_find [] SomeIpSdServer.Idle false
  end.

Lemma example_reached evs : reached example_server (Ipv4.mk 10 0 0 1) 8080 evs (run_trace example_server evs example_start).
Proof. exists example_start. split; [by vm_compute|done]. Qed.

Lemma offers_answer_finds_witness :
  let s := run_trace example_server [EStart; EFind example_find; EWorker; EFind example_find] example_start in
  (length (offers s) + length (SomeIpSdServer.mMessageBuffer s) = 2)%nat ∧ length (offers s) = 1%nat.
Proof.
  split; [|by vm_compute].
  exact (offers_answer_finds example_server _ _ _ _ (example_reached [EStart; EFind example_find; EWorker; EFind example_find])).
Defined.

Lemma stop_sends_one_stop_offer_witness :
  let s := run_trace example_server [EStart; EWorker; EWorker] example_start in
  SomeIpSdServer.mCurrent s = RepetitionPhase ∧
  SomeIpSdServer.mCurrent (run_trace example_server (stop_events ++ [EWorker; EWorker]) s) = NotReady.
Proof.
  intros s. split; [by vm_compute|].
  exact (proj1 (stop_sends_one_stop_offer example_server _ _ _ s
    (example_reached [EStart; EWorker; EWorker]) ltac:(vm_compute; discriminate))).
Defined.

Lemma restart_after_stop_is_stuck_witness :
  let s := run_trace example_server [EStart] example_start in
  let s1 := run_trace example_server (stop_events ++ [EWorker; EWorker; EJoin; EStart; EWorker; EWorker]) s in
  SomeIpSdServer.mCurrent s1 = RepetitionPhase ∧
  SomeIpSdServer.mSent (run_trace example_server [EFind example_find; EWorker; EWorker; EWorker] s1) = SomeIpSdServer.mSent s1.
Proof.
  intros s s1. split; [by vm_compute|].
  destruct (restart_after_stop_is_stuck example_server _ _ _ s [EFind example_find; EWorker; EWorker; EWorker]
    (example_reached [EStart]) ltac:(vm_compute; discriminate)) as (_ & _ & _ & H). exact H.
Defined.
