(* ===== verification/VehicleStatus.v ===== *)
(** * The vehicle status service: src-gen/vehicle_status

    The event's data on the wire, the skeleton that offers the service and publishes the
    event, and the proxy that subscribes to it.  Skeleton and proxy put the components of
    SdServer.v, PubSub.v and SdNetwork.v together; the values the constructors read in the
    manifest are a record. *)

From S2P Require Import Prelude Texts Payload Addresses Options Entries SomeIp SdMessage SdNetwork Fsm PubSub SdServer.
#[local] Open Scope Z_scope.

Module VehicleStatusData.

Definition cVinLength : nat := 17.
Definition cPayloadSize : nat := 19.

(** [src-gen/vehicle_status/vehicle_status_data.h:18-34] VehicleStatusData *)
Record t := mk { Vin : string; ConnectedToCloud : bool; SenderInstanceId : Z }.

(** [src-gen/vehicle_status/vehicle_status_data.cpp:13-25] Serialize *)
Definition Serialize (d : t) : bytes :=
  let payload := replicate cPayloadSize 0 in
  let vin := bytes_of_string (Vin d) in
  let copyLen := if (length vin <? cVinLength)%nat then length vin else cVinLength in
  let payload := take copyLen vin ++ drop copyLen payload in
  let payload := <[cVinLength := if ConnectedToCloud d then 1 else 0]> payload in
  <[S cVinLength := SenderInstanceId d]> payload.

(** [src-gen/vehicle_status/vehicle_status_data.cpp:32-40] the loop that looks for the end
    of the VIN, with [n] bytes left *)
Fixpoint vinEnd (payload : bytes) (i n : nat) : outcome nat :=
  match n with
  | O => Ok cVinLength
  | S n => b ← index_ payload (Z.of_nat i); if b =? 0 then Ok i else vinEnd payload (S i) n
  end.

(** [src-gen/vehicle_status/vehicle_status_data.cpp:27-49] Deserialize *)
Definition Deserialize (payload : bytes) : outcome t :=
  e ← vinEnd payload 0 cVinLength;
  let vin := string_of_bytes (take e payload) in
  cloud ← index_ payload (Z.of_nat cVinLength);
  sender ← index_ payload (Z.of_nat (S cVinLength));
  mret (mk vin (negb (cloud =? 0)) sender).

(** The bytes before the first NUL. *)
Fixpoint until_nul (v : bytes) : bytes :=
  match v with b :: v' => if b =? 0 then [] else b :: until_nul v' | [] => [] end.

(** What the wire keeps of a VIN: seventeen bytes, up to the first NUL. *)
Definition kept (vin : string) : string := string_of_bytes (until_nul (take cVinLength (bytes_of_string vin))).

End VehicleStatusData.

Module VehicleStatusSkeleton.

Definition cTelematicEventId : Z := 0x8001.

(** What configureFromManifest reads. *)
(** [src-gen/vehicle_status/vehicle_status_skeleton.cpp:144-176] configureFromManifest: the values read *)
Record Manifest := mkManifest {
  multicastPort : Z;
  multicastIp : string;
  peerNodes : list string;
  serviceId : Z;
  instanceId : Z;
  majorVersion : Z;
  minorVersion : Z;
  unicastIp : string;
  unicastPort : Z;
  eventGroupId : Z;
  initialDelayMin : Z;
  initialDelayMax : Z
}.

(** Which calls on sockets and the poller succeed: of the discovery layer, and of the event
    layer. *)
Record Sockets := mkSockets {
  sd_set_up : bool; sd_receiver : bool; sd_sender : bool; event_set_up : bool; event_sender : bool
}.

(** [src-gen/vehicle_status/vehicle_status_skeleton.cpp:207-217] configureFromManifest: what the
    discovery server is made with; the other delays and the number of repetitions are the
    defaults of its constructor (ara/com/someip/sd/someip_sd_server.h, lines 74 to 76) *)
Definition sd_config (m : Manifest) : SomeIpSdServer.Config :=
  SomeIpSdServer.mkConfig (serviceId m) (instanceId m) (majorVersion m) (minorVersion m) 3
    (initialDelayMin m) (initialDelayMax m) 30 1000.

Definition pubsub_config (m : Manifest) (ip : Ipv4.Ipv4Address) : SomeIpPubSubServer.Config :=
  SomeIpPubSubServer.mkConfig (serviceId m) (instanceId m) (majorVersion m) (eventGroupId m) ip (multicastPort m).

(** The two objects that receive discovery messages: they are told apart by number. *)
Definition sd_object : nat := 1.
Definition pubsub_object : nat := 2.

(** [src-gen/vehicle_status/vehicle_status_skeleton.h:65-69] VehicleStatusSkeleton; [deleted] is
    a discovery server whose destructor was called *)
Record t := mk {
  cSd : SomeIpSdServer.Config;
  cPubSub : SomeIpPubSubServer.Config;
  mNetworkLayer : SdNetworkLayer.t;
  mSdServer : option SomeIpSdServer.State;
  mPubSubServer : SomeIpPubSubServer.State;
  mInstanceId : Z;
  deleted : option SomeIpSdServer.State
}.

Definition set_sd (o : option SomeIpSdServer.State) (s : t) : t :=
  mk (cSd s) (cPubSub s) (mNetworkLayer s) o (mPubSubServer s) (mInstanceId s) (deleted s).
Definition set_pubsub (p : SomeIpPubSubServer.State) (s : t) : t :=
  mk (cSd s) (cPubSub s) (mNetworkLayer s) (mSdServer s) p (mInstanceId s) (deleted s).
Definition set_deleted (o : option SomeIpSdServer.State) (s : t) : t :=
  mk (cSd s) (cPubSub s) (mNetworkLayer s) (mSdServer s) (mPubSubServer s) (mInstanceId s) o.

Definition on_sd (f : SomeIpSdServer.State → outcome () * SomeIpSdServer.State) : M t () := fun s =>
  match mSdServer s with
  | Some d => let '(r, d) := f d in (r, set_sd (Some d) s)
  | None => (Undefined, s)
  end.
Definition on_pubsub (f : SomeIpPubSubServer.State → outcome () * SomeIpPubSubServer.State) : M t () := fun s =>
  let '(r, p) := f (mPubSubServer s) in (r, set_pubsub p s).

(** [src-gen/vehicle_status/vehicle_status_skeleton.cpp:84-99] the peers that are not empty *)
Definition peers (nodes : list string) : list string :=
  List.filter (fun ip => negb (bool_decide (ip = EmptyString))) nodes.

(** [src-gen/vehicle_status/vehicle_status_skeleton.cpp:204-246] configureFromManifest: the
    objects it creates from what it has read *)
Definition configureFromManifest (up : Sockets) (m : Manifest) : outcome t :=
  layer ← SdNetworkLayer.construct (sd_set_up up) (sd_receiver up) (sd_sender up)
            (multicastIp m) (multicastPort m) (peers (peerNodes m));
  unicast ← Ipv4Text.construct (unicastIp m);
  sd ← SomeIpSdServer.construct (sd_config m) unicast (unicastPort m);
  let layer := SdNetworkLayer.SetReceiver sd_object layer in
  multicast ← Ipv4Text.construct (multicastIp m);
  let '(r, pubsub) := SomeIpPubSubServer.construct SomeIpPubSubServer.blank in
  r;;
  let layer := SdNetworkLayer.SetReceiver pubsub_object layer in
  PubSubEventNetworkLayer.construct (event_set_up up) (event_sender up);;
  mret (mk (sd_config m) (pubsub_config m multicast) layer (Some sd)
           (SomeIpPubSubServer.SetEventLayer true pubsub) (instanceId m) None).

(** [src-gen/vehicle_status/vehicle_status_skeleton.cpp:248-254] OfferService *)
Definition OfferService : M t () :=
  on_pubsub SomeIpPubSubServer.Start;;
  s ← get;
  match mSdServer s with Some _ => on_sd (SomeIpSdServer.Start (cSd s)) | None => mret () end.

(** [src-gen/vehicle_status/vehicle_status_skeleton.cpp:256-262] StopOfferService: the
    destructor of the discovery server stops it *)
Definition StopOfferService : M t () :=
  on_pubsub SomeIpPubSubServer.Stop;;
  modify (fun s => set_sd None (set_deleted
    match mSdServer s with Some d => Some (snd (SomeIpSdServer.StopAgent d)) | None => deleted s end s)).

(** [src-gen/vehicle_status/vehicle_status_skeleton.cpp:264-273] events_VehicleStatus_Send *)
Definition events_VehicleStatus_Send (data : VehicleStatusData.t) : M t () :=
  s ← get;
  let injected := VehicleStatusData.mk (VehicleStatusData.Vin data) (VehicleStatusData.ConnectedToCloud data)
                    (u8 (mInstanceId s)) in
  on_pubsub (SomeIpPubSubServer.Publish (cPubSub s) cTelematicEventId (VehicleStatusData.Serialize injected)).

(** The network layer's callbacks: a message handed to one of the two objects.  The callback
    of a discovery server that was deleted is still registered. *)
Definition handle (r : nat * SomeIpSdMessage.t) : M t () :=
  s ← get;
  if (r.1 =? sd_object)%nat then on_sd (SomeIpSdServer.receiveFind (cSd s) r.2)
  else on_pubsub (SomeIpPubSubServer.onMessageReceived (cPubSub s) r.2).
Fixpoint handle_all (rs : list (nat * SomeIpSdMessage.t)) : M t () :=
  match rs with [] => mret () | r :: rs => handle r;; handle_all rs end.

(** A datagram that arrives at the discovery layer. *)
Definition receive (received buffer : bytes) (port : Z) : M t () :=
  s ← get;
  rs ← lift (SdNetworkLayer.onReceive received buffer port (mNetworkLayer s));
  handle_all rs.

End VehicleStatusSkeleton.

Module VehicleStatusProxy.

(** [src-gen/vehicle_status/vehicle_status_proxy.h:69-74] VehicleStatusProxy; [handled] is what the
    receive handler was called with *)
Record t := mk { mSelfInstanceId : Z; mPeerInstanceId : Z; mReceiveHandler : bool; handled : list VehicleStatusData.t }.

(** [src-gen/vehicle_status/vehicle_status_proxy.cpp:154-166] the callback of the event receiver *)
Definition callback (raw : bytes) : M t () :=
  p ← get;
  if (length raw <? VehicleStatusData.cPayloadSize)%nat then mret ()
  else
    data ← lift (VehicleStatusData.Deserialize raw);
    if negb (VehicleStatusData.SenderInstanceId data =? u8 (mPeerInstanceId p)) then mret ()
    else if mReceiveHandler p
         then modify (fun p => mk (mSelfInstanceId p) (mPeerInstanceId p) (mReceiveHandler p) (handled p ++ [data]))
         else mret ().

(** [src-gen/vehicle_status/vehicle_status_proxy.cpp:184-188] events_VehicleStatus_SetReceiveHandler *)
Definition events_VehicleStatus_SetReceiveHandler (handler : bool) (p : t) : t :=
  mk (mSelfInstanceId p) (mPeerInstanceId p) handler (handled p).

(** [src-gen/vehicle_status/vehicle_status_proxy.cpp:190-193] events_VehicleStatus_UnsetReceiveHandler *)
Definition events_VehicleStatus_UnsetReceiveHandler (p : t) : t :=
  mk (mSelfInstanceId p) (mPeerInstanceId p) false (handled p).

(** [src-gen/vehicle_status/vehicle_status_proxy.cpp:195-198] GetSelfInstanceId *)
Definition GetSelfInstanceId (p : t) : Z := mSelfInstanceId p.

(** [src-gen/vehicle_status/vehicle_status_proxy.cpp:200-203] GetPeerInstanceId *)
Definition GetPeerInstanceId (p : t) : Z := mPeerInstanceId p.

(** What configureFromManifest reads of the service that is required. *)
(** [src-gen/vehicle_status/vehicle_status_proxy.cpp:99-107] configureFromManifest: the values read *)
Record Manifest := mkManifest {
  serviceId : Z;
  instanceId : Z;
  majorVersion : Z;
  eventGroupId : Z;
  multicastIp : string;
  multicastPort : Z;
  peerNodes : list string;
  watchdogInstanceId : Z
}.

(** [src-gen/vehicle_status/vehicle_status_proxy.cpp:144-182] configureFromManifest: the
    objects it creates, the discovery layer with its subscription queued *)
Definition configureFromManifest (sd_set_up sd_receiver sd_sender event_set_up event_receiver : bool) (m : Manifest) :
    outcome (t * SdNetworkLayer.t) :=
  layer ← SdNetworkLayer.construct sd_set_up sd_receiver sd_sender (multicastIp m) (multicastPort m)
            (VehicleStatusSkeleton.peers (peerNodes m));
  let layer := SdNetworkLayer.SetReceiver 1 layer in
  PubSubEventReceiver.construct event_set_up event_receiver;;
  message ← SomeIpPubSubClient.Subscribe 1 (serviceId m) (instanceId m) (majorVersion m) (eventGroupId m);
  mret (mk (watchdogInstanceId m) (instanceId m) false [], SdNetworkLayer.Send false message layer).

(** A datagram that arrives at the event receiver. *)
Definition receive (received : bytes) : M t () :=
  payload ← lift (PubSubEventReceiver.onReceive received);
  match payload with Some raw => callback raw | None => mret () end.

End VehicleStatusProxy.

(** ** Lemmas: the event's data *)
Module VehicleStatusData_facts.
Import VehicleStatusData.

Definition padded (v : bytes) : bytes := take cVinLength v ++ replicate (cVinLength - length v) 0.

Lemma length_padded v : length (padded v) = cVinLength.
Proof. unfold padded. rewrite length_app, length_take, length_replicate. lia. Qed.

Lemma Serialize_eq d :
  Serialize d = padded (bytes_of_string (Vin d)) ++ [if ConnectedToCloud d then 1 else 0; SenderInstanceId d].
Proof.
  unfold Serialize. set (v := bytes_of_string (Vin d)). cbv zeta.
  replace (if (length v <? cVinLength)%nat then length v else cVinLength) with (min (length v) cVinLength)
    by (destruct (Nat.ltb_spec (length v) cVinLength); lia).
  assert (Hp : take (min (length v) cVinLength) v ++ drop (min (length v) cVinLength) (replicate cPayloadSize 0) =
               padded v ++ [0; 0]).
  { rewrite drop_replicate. unfold padded. rewrite <- app_assoc. f_equal.
    { destruct (Nat.le_gt_cases cVinLength (length v)); [by rewrite Nat.min_r|].
      by rewrite Nat.min_l, !take_ge by lia. }
    change [0; 0] with (replicate 2 0). rewrite <- replicate_add. f_equal. unfold cPayloadSize, cVinLength. lia. }
  rewrite Hp. pose proof (length_padded v) as Hl.
  rewrite (insert_app_r_alt (padded v)), Hl by lia. rewrite Nat.sub_diag.
  rewrite (insert_app_r_alt (padded v)), Hl by lia. by replace (S cVinLength - cVinLength)%nat with 1%nat by lia.
Qed.

Lemma length_Serialize d : length (Serialize d) = cPayloadSize.
Proof. by rewrite Serialize_eq, length_app, length_padded. Qed.

Lemma is_bytes_Serialize d : is_u8 (SenderInstanceId d) → is_bytes (Serialize d).
Proof.
  intros Hs. rewrite Serialize_eq. unfold is_bytes, padded. rewrite !Forall_app. split; [split|].
  - apply Forall_take, is_bytes_of_string.
  - apply Forall_replicate. by_eval.
  - apply Forall_cons. split; [case_match; by_eval|]. by apply Forall_singleton.
Qed.

Lemma vinEnd_spec pre v tail :
  (length pre + length v = cVinLength)%nat →
  vinEnd (pre ++ v ++ tail) (length pre) (length v) = Ok (length pre + length (until_nul v))%nat.
Proof.
  revert pre. induction v as [|b v IH]; intros pre Hl; cbn [vinEnd length until_nul].
  { cbn in Hl. rewrite Nat.add_0_r in *. by rewrite Hl. }
  rewrite (index_holds (pre ++ (b :: v) ++ tail) _ b) by (by exists pre, (v ++ tail)).
  rewrite Ok_bind. destruct (b =? 0); [cbn; by rewrite Nat.add_0_r|].
  specialize (IH (pre ++ [b])). rewrite length_app, <- app_assoc in IH. cbn [length app] in IH |- *.
  replace (S (length pre)) with (length pre + 1)%nat by lia. rewrite IH by (cbn in Hl; lia). f_equal. lia.
Qed.

Lemma until_nul_app v n tail :
  until_nul (v ++ replicate n 0) = until_nul v ∧ take (length (until_nul v)) (v ++ tail) = until_nul v.
Proof.
  induction v as [|b v [IH1 IH2]]; cbn; [by destruct n|]. destruct (b =? 0); [done|]. cbn. by rewrite IH1, IH2.
Qed.

Lemma Deserialize_Serialize d rest :
  Deserialize (Serialize d ++ rest) = Ok (mk (kept (Vin d)) (ConnectedToCloud d) (SenderInstanceId d)).
Proof.
  rewrite Serialize_eq, <- app_assoc. set (v := bytes_of_string (Vin d)). pose proof (length_padded v) as Hl.
  unfold Deserialize. pose proof (vinEnd_spec [] (padded v) ([if ConnectedToCloud d then 1 else 0; SenderInstanceId d] ++ rest)) as He.
  rewrite Hl in He. cbn [app length Nat.add] in He. cbn [app]. rewrite He, Ok_bind by done.
  rewrite (index_holds _ (Z.of_nat cVinLength) (if ConnectedToCloud d then 1 else 0)), Ok_bind
    by (exists (padded v); eexists; split; [done|by unfold size; rewrite Hl]).
  rewrite (index_holds _ (Z.of_nat (S cVinLength)) (SenderInstanceId d)), Ok_bind
    by (exists (padded v ++ [if ConnectedToCloud d then 1 else 0]); eexists; rewrite <- app_assoc; split; [done|by unfold size; rewrite length_app, Hl]).
  rewrite (proj2 (until_nul_app (padded v) 0 _)). unfold padded at 1. rewrite (proj1 (until_nul_app _ _ [])).
  by destruct (ConnectedToCloud d).
Qed.

(** A VIN without NUL of at most seventeen characters is kept. *)
Lemma kept_id vin : (String.length vin <= cVinLength)%nat → until_nul (bytes_of_string vin) = bytes_of_string vin → kept vin = vin.
Proof.
  intros Hl Hn. unfold kept. rewrite take_ge, Hn by (by rewrite length_bytes_of_string).
  apply string_of_bytes_of_string.
Qed.

End VehicleStatusData_facts.

(** ** Lemmas: the subscription *)
Module VehicleStatus_facts.

(** The message the proxy's client sends. *)
Definition subscription (serviceId instanceId majorVersion eventGroupId : Z) : SomeIpSdMessage.t :=
  SomeIpSdMessage.mk (SomeIpMessage.mk SomeIpSdMessage.cMessageId 0 1 1 1 Notification eOK) true
    [EEventgroup (EventgroupEntry.mk (Entry.construct Subscribing serviceId instanceId 16777215 majorVersion) 1 eventGroupId)].

Lemma Subscribe_eq a b c d : SomeIpPubSubClient.Subscribe 1 a b c d = Ok (subscription a b c d).
Proof. reflexivity. Qed.

Section Subscription.
Context (a b c d : Z) (Ha : is_u16 a) (Hb : is_u16 b) (Hc : is_u8 c) (Hd : is_u16 d).

Lemma subscription_entry_wf : Forall entry_wf (SomeIpSdMessage.mEntries (subscription a b c d)).
Proof. apply Forall_singleton. repeat split; cbn; try apply Ha || apply Hb || apply Hc || apply Hd; by_eval. Qed.

Lemma subscription_wf : SomeIpSdMessage.wf (subscription a b c d).
Proof.
  split; [by_eval|]. split; [apply subscription_entry_wf|]. split; [|by_eval].
  apply Forall_singleton. by apply options_ok_decide.
Qed.

Lemma subscription_size : size (SomeIpSdMessage.Payload (subscription a b c d)) <= SdNetworkLayer.cBufferSize.
Proof. rewrite SdMessage_facts.sd_size_Payload by apply subscription_wf. by vm_compute. Qed.

End Subscription.

Import VehicleStatusSkeleton.

Definition all_up : Sockets := mkSockets true true true true true.

(** A manifest whose numbers have their widths and whose texts are addresses, the second
    one of a multicast group. *)
Record manifest_ok (m : Manifest) (unicast multicast : Ipv4.Ipv4Address) : Prop := {
  service_u16 : is_u16 (serviceId m);
  service_no_sd : serviceId m ≠ 65535;
  instance_u16 : is_u16 (instanceId m);
  major_u8 : is_u8 (majorVersion m);
  group_u16 : is_u16 (eventGroupId m);
  unicast_read : Ipv4Text.construct (unicastIp m) = Ok unicast;
  multicast_read : Ipv4Text.construct (multicastIp m) = Ok multicast;
  multicast_range : 224 <= Ipv4.octet0 multicast <= 239
}.

(** A skeleton that was set up from the manifest, offered or not. *)
Record set_up (m : Manifest) (multicast : Ipv4.Ipv4Address) (s : t) : Prop := {
  set_up_sd : cSd s = sd_config m;
  set_up_pubsub : cPubSub s = pubsub_config m multicast;
  set_up_layer : mNetworkLayer s = SdNetworkLayer.mk (multicastIp m) (multicastPort m) (peers (peerNodes m)) [] [1%nat; 2%nat];
  set_up_instance : mInstanceId s = instanceId m;
  set_up_event_layer : SomeIpPubSubServer.mEventLayer (mPubSubServer s) = true;
  set_up_inv : PubSub.inv (mPubSubServer s)
}.

Section Skeleton.
Context (m : Manifest) (unicast multicast : Ipv4.Ipv4Address) (Hm : manifest_ok m unicast multicast).

Lemma timing_of_manifest : timing_accepted (sd_config m) = delays_accepted (initialDelayMin m) (initialDelayMax m).
Proof. unfold timing_accepted. cbn. by rewrite !andb_true_r. Qed.

(** The discovery server refuses the delays before anything is offered. *)
Lemma configure_throws :
  delays_accepted (initialDelayMin m) (initialDelayMax m) = false →
  configureFromManifest all_up m = Throw std_invalid_argument.
Proof.
  intros Hdelays. unfold configureFromManifest. cbn [SdNetworkLayer.construct sd_set_up sd_receiver sd_sender all_up negb].
  by rewrite Ok_bind, (unicast_read _ _ _ Hm), Ok_bind, construct_spec, timing_of_manifest, Hdelays.
Qed.

Lemma configure_ok :
  delays_accepted (initialDelayMin m) (initialDelayMax m) = true →
  ∃ s, configureFromManifest all_up m = Ok s ∧ set_up m multicast s ∧
    PubSub.abs (mPubSubServer s) = Spec.Down ∧ SomeIpPubSubServer.mPublished (mPubSubServer s) = [] ∧
    ∃ d, mSdServer s = Some d ∧ SomeIpSdServer.Future d = false ∧ SomeIpSdServer.mCurrent d = NotReady.
Proof.
  intros Hdelays. destruct Hm as [_ _ _ _ _ Hu Hg _]. unfold configureFromManifest. cbn [SdNetworkLayer.construct sd_set_up sd_receiver
    sd_sender event_set_up event_sender all_up negb]. rewrite Ok_bind, Hu, Ok_bind.
  rewrite construct_spec, timing_of_manifest, Hdelays. set (d := fresh_server _ _ _). rewrite Ok_bind, Hg, Ok_bind.
  destruct (SomeIpPubSubServer.construct SomeIpPubSubServer.blank) as [r p] eqn:Ep. vm_compute in Ep. injection Ep as <- <-.
  rewrite !Ok_bind. eexists. split; [reflexivity|]. split.
  { by split. }
  split; [done|]. split; [done|]. by exists d.
Qed.

(** What offering does: the publish/subscribe server comes up, and the discovery server's
    worker starts. *)
Lemma OfferService_ok s d :
  set_up m multicast s → PubSub.abs (mPubSubServer s) = Spec.Down →
  mSdServer s = Some d → SomeIpSdServer.Future d = false → SomeIpSdServer.mCurrent d = NotReady →
  ∃ s', OfferService s = (Ok (), s') ∧ set_up m multicast s' ∧ PubSub.abs (mPubSubServer s') = Spec.Up 0 ∧
    SomeIpPubSubServer.mPublished (mPubSubServer s') = SomeIpPubSubServer.mPublished (mPubSubServer s) ∧
    ∃ d', mSdServer s' = Some d' ∧ SomeIpSdServer.Future d' = true.
Proof.
  intros [] Habs Hd Hf Hc. destruct s as [csd cps layer sd [cur ctr sess ev sent pub] inst del].
  destruct d as [dcur f1 f2 f3 buf off stop dsent w fut]. cbn in *. subst.
  unfold PubSub.abs in Habs. cbn in Habs. destruct cur; try done.
  assert (Hf1 : ∃ d', SomeIpSdServer.Start (sd_config m) (SomeIpSdServer.mk NotReady f1 f2 f3 buf off stop dsent w false) =
                      (Ok (), d') ∧ SomeIpSdServer.Future d' = true).
  { destruct f1 as [[] i1]; eexists; split; reflexivity. }
  destruct Hf1 as (d' & Hd' & Hfut). unfold OfferService, on_pubsub, on_sd. run. cbn -[SomeIpSdServer.Start SomeIpPubSubServer.Start].
  change (SomeIpPubSubServer.Start _) with
    (@Ok () (), SomeIpPubSubServer.mk NotSubscribed ctr sess true sent pub). cbn -[SomeIpSdServer.Start].
  rewrite Hd'. eexists. split; [reflexivity|]. split; [|split; [done|]; split; [done|]; by exists d'].
  split; try done. by split; [apply set_up_inv0|].
Qed.

Lemma subscription_request :
  Spec.request (pubsub_config m multicast) (subscription (serviceId m) (instanceId m) (majorVersion m) (eventGroupId m)) =
    Some (EventgroupEntry.mk (Entry.construct Subscribing (serviceId m) (instanceId m) 16777215 (majorVersion m)) 1 (eventGroupId m)).
Proof.
  unfold Spec.request. cbn [SomeIpSdMessage.mEntries subscription omap list_omap].
  unfold SomeIpPubSubServer.matches, Entry.construct. cbn. by rewrite !Z.eqb_refl, !orb_true_r.
Qed.

(** A message without finding entries means nothing to the discovery server. *)
Lemma handle_sd msg s d :
  mSdServer s = Some d → SomeIpSdServer.matchOfferingService (cSd s) msg = false → handle (1%nat, msg) s = (Ok (), s).
Proof.
  intros Hd Hno. unfold handle, on_sd. run. cbn [fst snd Nat.eqb sd_object]. rewrite Hd.
  unfold SomeIpSdServer.receiveFind. rewrite Hno. run. unfold set_sd. destruct s; cbn in *. by rewrite Hd.
Qed.

Lemma handle_pubsub msg s :
  handle (2%nat, msg) s = on_pubsub (SomeIpPubSubServer.onMessageReceived (cPubSub s) msg) s.
Proof. done. Qed.

Lemma handle_two msg s :
  handle_all [(1%nat, msg); (2%nat, msg)] s = (handle (1%nat, msg);; handle (2%nat, msg)) s.
Proof. cbn [handle_all]. run. by repeat match goal with |- context [match ?x with _ => _ end] => destruct x as [[[]| | |] ?] end. Qed.

(** A subscription that arrives, padded, is counted. *)
Lemma receive_subscription pad buffer n s d :
  set_up m multicast s → PubSub.abs (mPubSubServer s) = Spec.Up n → Z.of_nat n < 2147483647 →
  mSdServer s = Some d →
  ∃ s', receive (SomeIpSdMessage.Payload (subscription (serviceId m) (instanceId m) (majorVersion m) (eventGroupId m)) ++ pad)
          buffer (multicastPort m) s = (Ok (), s') ∧
    set_up m multicast s' ∧ PubSub.abs (mPubSubServer s') = Spec.Up (S n) ∧
    SomeIpPubSubServer.mPublished (mPubSubServer s') = SomeIpPubSubServer.mPublished (mPubSubServer s) ∧
    mSdServer s' = mSdServer s.
Proof.
  intros [Hsd Hps Hlayer Hi Hev Hinv] Habs Hn Hd. destruct Hm as [Hs1 Hs2 Hs3 Hs4 Hs5 _ _ Hmc].
  pose proof subscription_request as Hreq. revert Hreq. set (msg := subscription _ _ _ _). intros Hreq.
  pose proof (SdNetworkLayer.onReceive_padded msg pad buffer (mNetworkLayer s)
    (subscription_wf _ _ _ _ Hs1 Hs3 Hs4 Hs5) eq_refl) as HR.
  unfold receive. run. rewrite Hlayer in HR |- *. cbn [SdNetworkLayer.cPort SdNetworkLayer.mReceiverCallbacks fmap list_fmap] in HR.
  rewrite HR, handle_two. run. rewrite (handle_sd msg s d Hd) by done.
  rewrite handle_pubsub. unfold on_pubsub. rewrite Hps, onMessage_request, Hreq.
  cbn [Entry.construct EventgroupEntry.base Entry.mTTL]. change (0 <? 16777215) with true. cbv iota.
  destruct (processEntry_correct (pubsub_config m multicast) Hmc
    (EventgroupEntry.mk (Entry.construct Subscribing (serviceId m) (instanceId m) 16777215 (majorVersion m)) 1 (eventGroupId m))
    (mPubSubServer s) Hinv) as (p & Hp & Hi' & Ha' & _ & He' & Hpub).
  { by rewrite Habs. } { by cbn. } { by cbn. }
  rewrite Habs in Ha'. exists (set_pubsub p s). rewrite Hp. split; [done|].
  split; [|done]. split; try done. cbn. by rewrite He'.
Qed.

(** The status that is published, as every receiver of the event reads it. *)
Definition sent_as (data : VehicleStatusData.t) : VehicleStatusData.t :=
  VehicleStatusData.mk (VehicleStatusData.Vin data) (VehicleStatusData.ConnectedToCloud data) (u8 (instanceId m)).

Lemma Send_event data s n :
  set_up m multicast s → PubSub.abs (mPubSubServer s) = Spec.Up (S n) →
  ∃ s' e, events_VehicleStatus_Send data s = (Ok (), s') ∧ set_up m multicast s' ∧
    PubSub.abs (mPubSubServer s') = Spec.Up (S n) ∧ mSdServer s' = mSdServer s ∧
    SomeIpPubSubServer.mPublished (mPubSubServer s') = SomeIpPubSubServer.mPublished (mPubSubServer s) ++ [e] ∧
    PubSub.deliver e = Ok (Some (VehicleStatusData.Serialize (sent_as data) ++ replicate 221 0)).
Proof.
  intros [Hsd Hps Hlayer Hi Hev Hinv] Habs. destruct Hm as [Hs1 Hs2 Hs3 Hs4 Hs5 _ _ Hmc].
  set (payload := VehicleStatusData.Serialize (sent_as data)).
  assert (Hlen : length payload = 19%nat) by apply VehicleStatusData_facts.length_Serialize.
  assert (Hb : is_bytes payload) by (apply VehicleStatusData_facts.is_bytes_Serialize, u8_is).
  assert (Hcur : SomeIpPubSubServer.mCurrent (mPubSubServer s) = Subscribed).
  { unfold PubSub.abs in Habs. by destruct (SomeIpPubSubServer.mCurrent (mPubSubServer s)). }
  pose proof (publish_notification (pubsub_config m multicast) cTelematicEventId payload (mPubSubServer s) Hinv Hs1 Hs4
    ltac:(by_eval) Hb ltac:(unfold size; lia)) as HP.
  rewrite Hev, bool_decide_eq_true_2 in HP by done. destruct HP as (p & Hp & Hi' & Hpub & _ & _).
  destruct (Publish_keeps _ _ _ _ _ Hp) as [Hc' Hl'].
  exists (set_pubsub p s). eexists. split.
  { unfold events_VehicleStatus_Send, on_pubsub. run. rewrite Hi, Hps. fold (sent_as data) payload. by rewrite Hp. }
  split; [split; try done; cbn; by rewrite Hl'|]. split; [|split; [done|split; [exact Hpub|]]].
  - cbn. by rewrite Hc'.
  - rewrite deliver_notification by (done || by_eval). by rewrite Hlen.
Qed.

(** Without subscribers nothing is published. *)
Lemma Send_nobody data s :
  set_up m multicast s → PubSub.abs (mPubSubServer s) = Spec.Up 0 → events_VehicleStatus_Send data s = (Ok (), s).
Proof.
  intros [Hsd Hps Hlayer Hi Hev Hinv] Habs. destruct Hm as [Hs1 Hs2 Hs3 Hs4 Hs5 _ _ Hmc].
  set (payload := VehicleStatusData.Serialize (sent_as data)).
  assert (Hlen : length payload = 19%nat) by apply VehicleStatusData_facts.length_Serialize.
  assert (Hb : is_bytes payload) by (apply VehicleStatusData_facts.is_bytes_Serialize, u8_is).
  pose proof (publish_notification (pubsub_config m multicast) cTelematicEventId payload (mPubSubServer s) Hinv Hs1 Hs4
    ltac:(by_eval) Hb ltac:(unfold size; lia)) as HP.
  rewrite bool_decide_eq_false_2, andb_false_r in HP.
  - unfold events_VehicleStatus_Send, on_pubsub. run. rewrite Hi, Hps. fold (sent_as data) payload. rewrite HP. by destruct s.
  - intros Hc. destruct Hinv as [_ Hcount]. unfold PubSub.abs in Habs. rewrite Hc in Habs.
    destruct (Hcount Hc) as (x & Hx & ?). rewrite Hx in Habs. cbn [default from_option id] in Habs. injection Habs as Habs. lia.
Qed.

Fixpoint send_each (datas : list VehicleStatusData.t) : M t () :=
  match datas with [] => mret () | data :: datas => events_VehicleStatus_Send data;; send_each datas end.

Lemma send_each_ok datas s n :
  set_up m multicast s → PubSub.abs (mPubSubServer s) = Spec.Up (S n) →
  ∃ s' es, send_each datas s = (Ok (), s') ∧ set_up m multicast s' ∧ PubSub.abs (mPubSubServer s') = Spec.Up (S n) ∧
    SomeIpPubSubServer.mPublished (mPubSubServer s') = SomeIpPubSubServer.mPublished (mPubSubServer s) ++ es ∧
    Forall2 (fun data e => PubSub.deliver e = Ok (Some (VehicleStatusData.Serialize (sent_as data) ++ replicate 221 0))) datas es.
Proof.
  revert s. induction datas as [|data datas IH]; intros s Hs Ha.
  { exists s, []. rewrite app_nil_r. by repeat split; try apply Hs. }
  destruct (Send_event data s n Hs Ha) as (s1 & e & H1 & Hs1 & Ha1 & _ & Hp1 & He).
  destruct (IH s1 Hs1 Ha1) as (s' & es & H' & Hs' & Ha' & Hp' & Hes).
  exists s', (e :: es). cbn [send_each]. unfold mbind, M_bind. rewrite H1, H'.
  split; [done|]. split; [done|]. split; [done|]. split; [|by constructor]. by rewrite Hp', Hp1, <- app_assoc.
Qed.

End Skeleton.

(** ** Lemmas: the proxy *)

(** The datagrams of the published events arrive one after the other. *)
Fixpoint receive_events (es : list bytes) : M VehicleStatusProxy.t () :=
  match es with
  | [] => mret ()
  | e :: es => d ← lift (PubSubEventNetworkLayer.datagram e); VehicleStatusProxy.receive d;; receive_events es
  end.

Definition as_read (data : VehicleStatusData.t) : VehicleStatusData.t :=
  VehicleStatusData.mk (VehicleStatusData.kept (VehicleStatusData.Vin data)) (VehicleStatusData.ConnectedToCloud data)
    (VehicleStatusData.SenderInstanceId data).

Definition add_handled (ds : list VehicleStatusData.t) (p : VehicleStatusProxy.t) : VehicleStatusProxy.t :=
  VehicleStatusProxy.mk (VehicleStatusProxy.mSelfInstanceId p) (VehicleStatusProxy.mPeerInstanceId p)
    (VehicleStatusProxy.mReceiveHandler p) (VehicleStatusProxy.handled p ++ ds).

(** The event of a peer is handed on when a handler is set; everybody else's is dropped. *)
Lemma callback_event data pad p :
  VehicleStatusProxy.callback (VehicleStatusData.Serialize data ++ pad) p =
    (Ok (), if (VehicleStatusData.SenderInstanceId data =? u8 (VehicleStatusProxy.mPeerInstanceId p)) &&
               VehicleStatusProxy.mReceiveHandler p
            then add_handled [as_read data] p else p).
Proof.
  unfold VehicleStatusProxy.callback. run.
  rewrite length_app, VehicleStatusData_facts.length_Serialize. cbn [Nat.ltb Nat.leb VehicleStatusData.cPayloadSize Nat.add].
  rewrite VehicleStatusData_facts.Deserialize_Serialize. cbn [VehicleStatusData.SenderInstanceId].
  destruct (_ =? _), (VehicleStatusProxy.mReceiveHandler p) eqn:Hh; cbn; done.
Qed.

Lemma receive_events_ok datas es p :
  Forall2 (fun data e => PubSub.deliver e = Ok (Some (VehicleStatusData.Serialize data ++ replicate 221 0))) datas es →
  Forall (fun data => VehicleStatusData.SenderInstanceId data = u8 (VehicleStatusProxy.mPeerInstanceId p)) datas →
  VehicleStatusProxy.mReceiveHandler p = true →
  receive_events es p = (Ok (), add_handled (as_read <$> datas) p).
Proof.
  intros H. revert p. induction H as [|data e datas es He H IH]; intros p Hs Hh.
  { unfold add_handled. destruct p; cbn. by rewrite app_nil_r. }
  apply Forall_cons in Hs as [Hs Hss]. cbn [receive_events]. unfold PubSub.deliver in He.
  apply bind_Ok in He as (d & Hd & He). unfold VehicleStatusProxy.receive. run. rewrite Hd, He, callback_event, Hs, Hh, Z.eqb_refl.
  cbn [andb]. rewrite IH by done. unfold add_handled. cbn. by rewrite <- app_assoc.
Qed.

(** Stopping takes the publish/subscribe server down, starting takes it up again. *)
Lemma Stop_down p : ∃ p', SomeIpPubSubServer.Stop p = (Ok (), p') ∧ SomeIpPubSubServer.mCurrent p' = ServiceDown.
Proof. destruct p as [[] ctr sess ev sent pub]; eexists; split; reflexivity. Qed.

Lemma Start_up p :
  SomeIpPubSubServer.mCurrent p = ServiceDown → ∃ p', SomeIpPubSubServer.Start p = (Ok (), p') ∧ PubSub.abs p' = Spec.Up 0.
Proof. destruct p as [cur ctr sess ev sent pub]. cbn. intros ->. eexists. split; reflexivity. Qed.

End VehicleStatus_facts.

(** ** Properties *)

Section Properties.
Import VehicleStatus_facts.

(** The required service of a proxy is the one a skeleton provides. *)
Record matches (ms : VehicleStatusSkeleton.Manifest) (mp : VehicleStatusProxy.Manifest) : Prop := {
  same_service : VehicleStatusProxy.serviceId mp = VehicleStatusSkeleton.serviceId ms;
  same_instance : VehicleStatusProxy.instanceId mp = VehicleStatusSkeleton.instanceId ms;
  same_version : VehicleStatusProxy.majorVersion mp = VehicleStatusSkeleton.majorVersion ms;
  same_group : VehicleStatusProxy.eventGroupId mp = VehicleStatusSkeleton.eventGroupId ms;
  same_port : VehicleStatusProxy.multicastPort mp = VehicleStatusSkeleton.multicastPort ms
}.

(** C5: the vehicle's status reaches its watcher.  A skeleton and a proxy set up from
    matching manifests: the one pass of the proxy's discovery layer sends a datagram to each
    of its destinations, any of which, received by the skeleton after it offered its service,
    makes it publish what is sent from then on; and the proxy's handler is called, in order,
    with each status that is sent: the VIN cut after seventeen characters or at a NUL, the
    connection flag, and the low byte of the service's instance as the sender.  This is so
    when the discovery server accepts the initial delays of the manifest, which are not
    negative and in order; of any others the set-up of the skeleton is an exception. *)
Theorem status_reaches_the_proxy ms mp unicast multicast b1 b2 datas :
  manifest_ok ms unicast multicast → matches ms mp →
  size b1 = SdNetworkLayer.cBufferSize →
  (¬ (0 <= VehicleStatusSkeleton.initialDelayMin ms <= VehicleStatusSkeleton.initialDelayMax ms) →
   VehicleStatusSkeleton.configureFromManifest all_up ms = Throw std_invalid_argument) ∧
  (0 <= VehicleStatusSkeleton.initialDelayMin ms <= VehicleStatusSkeleton.initialDelayMax ms →
   ∃ sk p layer subscriptions,
    VehicleStatusSkeleton.configureFromManifest all_up ms = Ok sk ∧
    VehicleStatusProxy.configureFromManifest true true true true true mp = Ok (p, layer) ∧
    fst (SdNetworkLayer.onSend b1 layer) = Ok subscriptions ∧
    fst <$> subscriptions = SdNetworkLayer.destinations layer ∧
    Forall (fun d =>
      ∃ sk', (VehicleStatusSkeleton.OfferService;; VehicleStatusSkeleton.receive d.2 b2 (VehicleStatusProxy.multicastPort mp);;
              send_each datas) sk = (Ok (), sk') ∧
        receive_events (SomeIpPubSubServer.mPublished (VehicleStatusSkeleton.mPubSubServer sk'))
          (VehicleStatusProxy.events_VehicleStatus_SetReceiveHandler true p) =
        (Ok (), add_handled ((fun data => as_read (sent_as ms data)) <$> datas)
                  (VehicleStatusProxy.events_VehicleStatus_SetReceiveHandler true p))) subscriptions).
Proof.
  intros Hm [H1 H2 H3 H4 H5] Hb1.
  split; [rewrite <- delays_in_order; intros Hd; by apply (configure_throws ms unicast multicast), not_true_is_false|].
  rewrite <- delays_in_order. intros Hdelays.
  destruct (configure_ok ms unicast multicast Hm Hdelays) as (sk & Hsk & Hup & Hdown & Hpub0 & d & Hd & Hf & Hc).
  destruct (OfferService_ok ms multicast sk d Hup Hdown Hd Hf Hc) as (sk1 & Ho & Hup1 & Ha1 & Hpub1 & d1 & Hd1 & _).
  exists sk. unfold VehicleStatusProxy.configureFromManifest. cbn [SdNetworkLayer.construct PubSubEventReceiver.construct negb].
  rewrite !Ok_bind, H1, H2, H3, H4, Subscribe_eq, Ok_bind.
  assert (Hsz : size (SomeIpSdMessage.Payload (subscription (VehicleStatusSkeleton.serviceId ms) (VehicleStatusSkeleton.instanceId ms)
    (VehicleStatusSkeleton.majorVersion ms) (VehicleStatusSkeleton.eventGroupId ms))) <= SdNetworkLayer.cBufferSize)
    by (apply subscription_size; apply Hm).
  do 3 eexists. split; [done|]. split; [done|]. unfold SdNetworkLayer.onSend. cbn [fst].
  rewrite SdNetworkLayer.send_all_ok by (cbn; by apply Forall_singleton). split; [done|].
  cbn [SdNetworkLayer.Send SdNetworkLayer.SetReceiver SdNetworkLayer.mSendingQueue app map concat]. rewrite app_nil_r.
  split; [rewrite <- list_fmap_compose; apply list_fmap_id|].
  apply Forall_fmap, Forall_true. intros dst. cbn [compose snd].
  destruct (receive_subscription ms unicast multicast Hm (drop (length (SomeIpSdMessage.Payload (subscription
    (VehicleStatusSkeleton.serviceId ms) (VehicleStatusSkeleton.instanceId ms) (VehicleStatusSkeleton.majorVersion ms)
    (VehicleStatusSkeleton.eventGroupId ms)))) b1) b2 0 sk1 d1 Hup1 Ha1 ltac:(done) Hd1) as (sk2 & Hr & Hup2 & Ha2 & Hpub2 & _).
  destruct (send_each_ok ms unicast multicast Hm datas sk2 0 Hup2 Ha2) as (sk3 & es & H3' & _ & _ & Hpub3 & Hes).
  exists sk3. split.
  { unfold mbind, M_bind. rewrite Ho, H5. unfold compose; cbn [snd]. rewrite Hr. exact H3'. }
  rewrite Hpub3, Hpub2, Hpub1, Hpub0. cbn [app]. rewrite (receive_events_ok (sent_as ms <$> datas)).
  - by rewrite <- list_fmap_compose.
  - by apply Forall2_fmap_l.
  - apply Forall_fmap, Forall_true. intros x. cbn. by rewrite ?H2.
  - done.
Qed.

(** A manifest of the example service, and the proxy's. *)
Definition example_manifest : VehicleStatusSkeleton.Manifest :=
  VehicleStatusSkeleton.mkManifest 5555 "239.0.0.1" [""%string] 4660 257 1 0 "10.0.0.1" 8080 9 10 100.
Definition example_required : VehicleStatusProxy.Manifest :=
  VehicleStatusProxy.mkManifest 4660 257 1 9 "239.0.0.1" 5555 ["10.0.0.1"%string; "10.0.0.2"%string] 3.

Lemma example_manifest_ok : manifest_ok example_manifest (Ipv4.mk 10 0 0 1) (Ipv4.mk 239 0 0 1).
Proof. split; by_eval. Qed.

Definition example_status : list VehicleStatusData.t :=
  [VehicleStatusData.mk "DEMO0000000000001" true 0; VehicleStatusData.mk "A number that is too long" false 7].

Lemma status_reaches_the_proxy_witness :
  ∃ sk p layer d,
    VehicleStatusSkeleton.configureFromManifest all_up example_manifest = Ok sk ∧
    VehicleStatusProxy.configureFromManifest true true true true true example_required = Ok (p, layer) ∧
    ∃ sk', (VehicleStatusSkeleton.OfferService;; VehicleStatusSkeleton.receive d (repeat 0 256) 5555;;
            send_each example_status) sk = (Ok (), sk') ∧
      VehicleStatusProxy.handled (snd (receive_events (SomeIpPubSubServer.mPublished (VehicleStatusSkeleton.mPubSubServer sk'))
        (VehicleStatusProxy.events_VehicleStatus_SetReceiveHandler true p))) =
      [VehicleStatusData.mk "DEMO0000000000001" true 1; VehicleStatusData.mk "A number that is " false 1].
Proof.
  destruct (status_reaches_the_proxy example_manifest example_required _ _ (repeat 0 256) (repeat 0 256) example_status
    example_manifest_ok ltac:(by split) eq_refl) as [_ H].
  destruct (H ltac:(by_eval)) as (sk & p & layer & subs & Hsk & Hp & _ & Hdst & Hsubs).
  assert (Hl : SdNetworkLayer.destinations layer = ["10.0.0.1"%string; "10.0.0.2"%string]).
  { vm_compute in Hp. injection Hp as <- <-. reflexivity. }
  rewrite Hl in Hdst. destruct subs as [|d subs]; [discriminate|].
  apply Forall_cons in Hsubs as [(sk' & Hrun & Hrec) _].
  exists sk, p, layer, d.2. split; [exact Hsk|]. split; [exact Hp|]. exists sk'. split; [exact Hrun|].
  rewrite Hrec. vm_compute in Hp. injection Hp as <- <-. reflexivity.
Defined.

(** A service that is no longer offered: the discovery server is deleted, but the network
    layer still calls it, so that the next discovery message that arrives is handled by an
    object that is gone, which is undefined behaviour; and offering the service again only
    starts the publish/subscribe server, as the discovery server is never made again. *)
Theorem stopped_service_is_still_called m unicast multicast s :
  manifest_ok m unicast multicast → set_up m multicast s →
  ∃ s', VehicleStatusSkeleton.StopOfferService s = (Ok (), s') ∧
    (∀ msg pad buffer, SomeIpSdMessage.wf msg →
       SomeIpMessage.mMessageId (SomeIpSdMessage.header msg) = SomeIpSdMessage.cMessageId →
       fst (VehicleStatusSkeleton.receive (SomeIpSdMessage.Payload msg ++ pad) buffer (VehicleStatusSkeleton.multicastPort m) s') =
         Undefined) ∧
    ∃ s'', VehicleStatusSkeleton.OfferService s' = (Ok (), s'') ∧ VehicleStatusSkeleton.mSdServer s'' = None ∧
      PubSub.abs (VehicleStatusSkeleton.mPubSubServer s'') = Spec.Up 0.
Proof.
  intros Hm [Hsd Hps Hlayer Hi Hev Hinv].
  destruct (Stop_down (VehicleStatusSkeleton.mPubSubServer s)) as (p & Hp & Hc).
  eexists. split; [unfold VehicleStatusSkeleton.StopOfferService, VehicleStatusSkeleton.on_pubsub; run; by rewrite Hp|].
  split.
  - intros msg pad buffer Hwf Hid. pose proof (SdNetworkLayer.onReceive_padded msg pad buffer (VehicleStatusSkeleton.mNetworkLayer s) Hwf Hid) as HR.
    rewrite Hlayer in HR. cbn [SdNetworkLayer.cPort SdNetworkLayer.mReceiverCallbacks fmap list_fmap] in HR.
    unfold VehicleStatusSkeleton.receive. run.
    cbn [VehicleStatusSkeleton.mNetworkLayer VehicleStatusSkeleton.set_sd VehicleStatusSkeleton.set_deleted VehicleStatusSkeleton.set_pubsub].
    by rewrite Hlayer, HR.
  - destruct (Start_up p Hc) as (p' & Hp' & Ha').
    unfold VehicleStatusSkeleton.OfferService, VehicleStatusSkeleton.on_pubsub. run. cbn. rewrite Hp'. by eexists.
Qed.

Definition example_skeleton : VehicleStatusSkeleton.t := Eval vm_compute in
  match VehicleStatusSkeleton.configureFromManifest all_up example_manifest with
  | Ok s => snd (VehicleStatusSkeleton.OfferService s)
  | _ => VehicleStatusSkeleton.mk (VehicleStatusSkeleton.sd_config example_manifest)
           (VehicleStatusSkeleton.pubsub_config example_manifest (Ipv4.mk 239 0 0 1)) example_layer None
           SomeIpPubSubServer.blank 0 None
  end.

Lemma stopped_service_is_still_called_witness :
  ∃ s', VehicleStatusSkeleton.StopOfferService example_skeleton = (Ok (), s') ∧
    fst (VehicleStatusSkeleton.receive (SomeIpSdMessage.Payload example_message ++ [0; 0]) (repeat 0 256) 5555 s') = Undefined.
Proof.
  destruct (stopped_service_is_still_called example_manifest _ _ example_skeleton example_manifest_ok) as (s' & Hs' & H & _).
  { split; [by vm_compute|by vm_compute|by vm_compute|by vm_compute|by vm_compute|].
    split; [by_eval|]. intros H. by vm_compute in H. }
  exists s'. split; [exact Hs'|]. exact (H example_message [0; 0] (repeat 0 256) example_message_wf eq_refl).
Defined.
End Properties.
