(* ===== verification/SdClient.v ===== *)
(** * The service-discovery client: ara/com/someip/sd/someip_sd_client.cpp

    The client, its TTL timer (helper/ttl_timer.cpp) and its six machine states.  As
    for the server, the worker thread is a program counter: one step runs to the next
    wait or the next read of what other threads write.  The theorems: which endpoint
    an offer gives, what an offer without one does to the object, how often a find is
    sent, and that an expired TTL is forgotten. *)

From S2P Require Import Prelude Payload Options Entries SomeIp SdMessage Fsm SdServer.

(** [ara/com/helper/machine_state.h:23-31] SdClientState *)
Inductive SdClientState :=
  | ServiceNotSeen
  | ServiceSeen
  | ServiceReady
  | Stopped
  | InitialWaitPhase
  | RepetitionPhase.

#[export] Instance SdClientState_eq_dec : EqDecision SdClientState.
Proof. solve_decision. Defined.

Module TtlTimer.

(** [ara/com/helper/ttl_timer.h:21-30] TtlTimer: its condition variable is the
    choice of the worker's next step *)
Record t := mk {
  mRequested : bool;
  mDisposing : bool;
  mSignalFlag : bool;
  mTtl : Z
}.

(** [ara/com/helper/ttl_timer.cpp:30-33] GetOffered *)
Definition GetOffered (s : t) : bool := 0 <? mTtl s.

(** [ara/com/helper/ttl_timer.cpp:23-28] SetRequested *)
Definition SetRequested (requested : bool) (s : t) : t := mk requested (mDisposing s) true (mTtl s).

(** [ara/com/helper/ttl_timer.cpp:35-40] SetOffered *)
Definition SetOffered (ttl : Z) (s : t) : t := mk (mRequested s) (mDisposing s) true ttl.

(** [ara/com/helper/ttl_timer.cpp:86-89] Dispose *)
Definition Dispose (s : t) : t := mk (mRequested s) true (mSignalFlag s) (mTtl s).

Definition clear_signal (s : t) : t := mk (mRequested s) (mDisposing s) false (mTtl s).

(** [ara/com/helper/ttl_timer.cpp:58-84] WaitForExpiration: whether it waits at all,
    and its result when the wait ended with or without a timeout *)
Definition expires_now (s : t) : bool := (mTtl s =? 0) || mDisposing s.
Definition expired (timeout : bool) (s : t) : bool := timeout || (mTtl s =? 0) || mDisposing s.

End TtlTimer.

Module SomeIpSdClient.

(** [ara/com/someip/sd/someip_sd_client.h:46-47] the service and the repetitions *)
Record Config := mkConfig { mServiceId : Z; RepetitionsMax : nat }.

(** The worker: not running, about to look at the timer in a state, waiting in a
    state (iteration [i] of the repetition phase), or past the timer of a phase with
    its next state. *)
Inductive Worker :=
  | Idle
  | Checking (st : SdClientState)
  | Waiting (st : SdClientState) (i : nat)
  | Ending (st next : SdClientState).

(** A call that waits on one of the client's condition variables: none, one that has seen the
    client valid and owns the lock, one that waits (in milliseconds, for ever unless positive),
    one whose wait has ended, and one that has returned. *)
Inductive Wait :=
  | NoCall
  | Entered (duration : Z)
  | Blocked (duration : Z)
  | Woken (timeout : bool)
  | Returned (result : bool).

(** [std::condition_variable::notify_one], heard by a call that waits already. *)
Definition notify_one (w : Wait) : Wait := match w with Blocked _ => Woken false | w => w end.

(** The call on each condition variable; each has a lock of its own, which only one call can
    use at a time. *)
Record Waits := mkWaits { mOfferingConditionVariable : Wait; mStopOfferingConditionVariable : Wait }.

(** [ara/com/someip/sd/someip_sd_client.h:26-51] SomeIpSdClient *)
Record State := mk {
  mCurrent : SdClientState;
  mTtlTimer : TtlTimer.t;
  mValidState : bool;
  mEverRequested : bool;
  mNotSeenDisposing : bool;
  mFindServieMessage : SomeIpSdMessage.t;
  mOfferedIpAddress : option Ipv4.Ipv4Address;
  mOfferedPort : option Z;
  mEndpointLock : bool;
  mSent : list SomeIpSdMessage.t;
  worker : Worker;
  Future : bool;
  waits : Waits
}.

Definition set_current (t : SdClientState) (s : State) : State :=
  mk t (mTtlTimer s) (mValidState s) (mEverRequested s) (mNotSeenDisposing s) (mFindServieMessage s)
     (mOfferedIpAddress s) (mOfferedPort s) (mEndpointLock s) (mSent s) (worker s) (Future s) (waits s).
Definition set_timer (t : TtlTimer.t) (s : State) : State :=
  mk (mCurrent s) t (mValidState s) (mEverRequested s) (mNotSeenDisposing s) (mFindServieMessage s)
     (mOfferedIpAddress s) (mOfferedPort s) (mEndpointLock s) (mSent s) (worker s) (Future s) (waits s).
Definition set_worker (w : Worker) (s : State) : State :=
  mk (mCurrent s) (mTtlTimer s) (mValidState s) (mEverRequested s) (mNotSeenDisposing s) (mFindServieMessage s)
     (mOfferedIpAddress s) (mOfferedPort s) (mEndpointLock s) (mSent s) w (Future s) (waits s).
Definition set_lock (b : bool) (s : State) : State :=
  mk (mCurrent s) (mTtlTimer s) (mValidState s) (mEverRequested s) (mNotSeenDisposing s) (mFindServieMessage s)
     (mOfferedIpAddress s) (mOfferedPort s) b (mSent s) (worker s) (Future s) (waits s).
Definition set_endpoint (ip : Ipv4.Ipv4Address) (port : Z) (s : State) : State :=
  mk (mCurrent s) (mTtlTimer s) (mValidState s) (mEverRequested s) (mNotSeenDisposing s) (mFindServieMessage s)
     (Some ip) (Some port) (mEndpointLock s) (mSent s) (worker s) (Future s) (waits s).
Definition set_requested_once (s : State) : State :=
  mk (mCurrent s) (mTtlTimer s) (mValidState s) true (mNotSeenDisposing s) (mFindServieMessage s)
     (mOfferedIpAddress s) (mOfferedPort s) (mEndpointLock s) (mSent s) (worker s) (Future s) (waits s).
Definition set_future (b : bool) (s : State) : State :=
  mk (mCurrent s) (mTtlTimer s) (mValidState s) (mEverRequested s) (mNotSeenDisposing s) (mFindServieMessage s)
     (mOfferedIpAddress s) (mOfferedPort s) (mEndpointLock s) (mSent s) (worker s) b (waits s).
Definition set_waits (w : Waits) (s : State) : State :=
  mk (mCurrent s) (mTtlTimer s) (mValidState s) (mEverRequested s) (mNotSeenDisposing s) (mFindServieMessage s)
     (mOfferedIpAddress s) (mOfferedPort s) (mEndpointLock s) (mSent s) (worker s) (Future s) w.
Definition set_offering (w : Wait) (s : State) : State := set_waits (mkWaits w (mStopOfferingConditionVariable (waits s))) s.
Definition set_stop_offering (w : Wait) (s : State) : State := set_waits (mkWaits (mOfferingConditionVariable (waits s)) w) s.
Definition invalidate (s : State) : State :=
  mk (mCurrent s) (mTtlTimer s) false (mEverRequested s) (mNotSeenDisposing s) (mFindServieMessage s)
     (mOfferedIpAddress s) (mOfferedPort s) (mEndpointLock s) (mSent s) (worker s) (Future s) (waits s).
Definition set_disposing (s : State) : State :=
  mk (mCurrent s) (TtlTimer.Dispose (mTtlTimer s)) (mValidState s) (mEverRequested s) true (mFindServieMessage s)
     (mOfferedIpAddress s) (mOfferedPort s) (mEndpointLock s) (mSent s) (worker s) (Future s) (waits s).

(** [ara/com/someip/sd/someip_sd_client.cpp:61-65] sendFind *)
Definition sendFind : M State () := modify (fun s =>
  mk (mCurrent s) (mTtlTimer s) (mValidState s) (mEverRequested s) (mNotSeenDisposing s)
     (snd (SomeIpSdMessage.IncrementSessionId (mFindServieMessage s)))
     (mOfferedIpAddress s) (mOfferedPort s) (mEndpointLock s) (mSent s ++ [mFindServieMessage s])
     (worker s) (Future s) (waits s)).

(** The calls of [notify_one] by the states, each on the variable it was given. *)
Definition notify_offering : M State () :=
  modify (fun s => set_offering (notify_one (mOfferingConditionVariable (waits s))) s).
Definition notify_stop_offering : M State () :=
  modify (fun s => set_stop_offering (notify_one (mStopOfferingConditionVariable (waits s))) s).

(** [ara/com/someip/sd/fsm/service_notseen_state.cpp:41-52] ServiceNotseenState::Activate;
    the timer phases go to sleep, the other states notify and look at the timer *)
Definition Activate_ (cfg : Config) (st previousState : SdClientState) : M State () :=
  match st with
  | ServiceNotSeen =>
      notify_stop_offering;;
      s ← get;
      if mEverRequested s && negb (mNotSeenDisposing s) then modify (set_worker (Checking ServiceNotSeen))
      else modify (set_worker Idle)
  | InitialWaitPhase => modify (set_worker (Waiting InitialWaitPhase 0))
  | RepetitionPhase =>
      modify (set_worker (if (0 <? RepetitionsMax cfg)%nat then Waiting RepetitionPhase 0
                          else Ending RepetitionPhase Stopped))
  | Stopped => notify_stop_offering;; modify (set_worker (Checking Stopped))
  | st => notify_offering;; modify (set_worker (Checking st))
  end.

#[export, refine] Instance SdClientMachine (cfg : Config) : StateMachine SdClientState State := {|
  mCurrentState := mCurrent;
  Fsm.set_current := set_current;
  mStates := [ServiceNotSeen; ServiceSeen; InitialWaitPhase; RepetitionPhase; ServiceReady; Stopped];
  Activate := Activate_ cfg;
  Deactivate := fun _ _ => mret ()
|}.
Proof. done. Defined.

Definition Transit (cfg : Config) (st next : SdClientState) : M State () :=
  MachineState.Transit (StateMachine0 := SdClientMachine cfg) st next.

(** The decisions at the end of the four [waitForNextState]. *)
(** [ara/com/someip/sd/fsm/service_notseen_state.cpp:31-38] ServiceNotseenState *)
Definition next_NotSeen (t : TtlTimer.t) : SdClientState :=
  if TtlTimer.mRequested t then InitialWaitPhase else ServiceSeen.

(** [ara/com/someip/sd/fsm/service_seen_state.cpp:33-41] ServiceSeenState *)
Definition next_Seen (t : TtlTimer.t) : SdClientState :=
  if TtlTimer.mRequested t then ServiceReady else ServiceNotSeen.

(** [ara/com/someip/sd/fsm/service_ready_state.cpp:35-46] ServiceReadyState *)
Definition next_Ready (t : TtlTimer.t) (expired : bool) : SdClientState :=
  if negb (TtlTimer.mRequested t) then ServiceSeen
  else if expired then InitialWaitPhase else Stopped.

(** [ara/com/someip/sd/fsm/stopped_state.cpp:28-35] StoppedState *)
Definition next_Stopped (t : TtlTimer.t) : SdClientState :=
  if negb (TtlTimer.mRequested t) then ServiceNotSeen else ServiceReady.

(** [ara/com/someip/sd/fsm/service_ready_state.cpp:21-47] the looks of
    [waitForNextState] at the timer, in each of the four states *)
Definition check_step (cfg : Config) (st : SdClientState) : M State () :=
  s ← get;
  let t := mTtlTimer s in
  let requested := TtlTimer.mRequested t in
  let offered := TtlTimer.GetOffered t in
  match st with
  | ServiceNotSeen =>
      if negb requested && negb offered && negb (TtlTimer.mDisposing t)
      then modify (set_worker (Waiting ServiceNotSeen 0)) else Transit cfg st (next_NotSeen t)
  | ServiceSeen =>
      if negb requested && offered && negb (TtlTimer.expires_now t)
      then modify (set_worker (Waiting ServiceSeen 0)) else Transit cfg st (next_Seen t)
  | ServiceReady =>
      if requested && offered then
        if TtlTimer.expires_now t then Transit cfg st (next_Ready t true)
        else modify (set_worker (Waiting ServiceReady 0))
      else Transit cfg st (next_Ready t false)
  | Stopped =>
      if requested && negb offered && negb (TtlTimer.mDisposing t)
      then modify (set_worker (Waiting Stopped 0)) else Transit cfg st (next_Stopped t)
  | _ => mret ()
  end.

(** [ara/com/someip/sd/fsm/client_initial_wait_state.cpp:35-57] SetTimer after its sleep *)
Definition InitialWait_timer : M State () :=
  s ← get;
  if TtlTimer.GetOffered (mTtlTimer s) then modify (set_worker (Ending InitialWaitPhase ServiceReady))
  else sendFind;; modify (set_worker (Ending InitialWaitPhase RepetitionPhase)).

(** [ara/com/someip/sd/fsm/client_repetition_state.cpp:36-59] SetTimer after the sleep of
    iteration [i] *)
Definition Repetition_timer (cfg : Config) (i : nat) : M State () :=
  s ← get;
  if TtlTimer.GetOffered (mTtlTimer s) then modify (set_worker (Ending RepetitionPhase ServiceReady))
  else
    sendFind;;
    modify (set_worker (if (S i <? RepetitionsMax cfg)%nat then Waiting RepetitionPhase (S i)
                        else Ending RepetitionPhase Stopped)).

(** One step of the worker; [timeout] is the result of the wait that ends, which for a
    wait for a signal ends only when the signal flag is set. *)
Definition worker_step (cfg : Config) (timeout : bool) : M State () :=
  s ← get;
  match worker s with
  | Idle => mret ()
  | Checking st => check_step cfg st
  | Waiting ((ServiceNotSeen | Stopped) as st) _ =>
      if TtlTimer.mSignalFlag (mTtlTimer s) then
        modify (set_timer (TtlTimer.clear_signal (mTtlTimer s)));;
        Transit cfg st (match st with Stopped => next_Stopped (mTtlTimer s) | _ => next_NotSeen (mTtlTimer s) end)
      else mret ()
  | Waiting ((ServiceSeen | ServiceReady) as st) _ =>
      modify (set_timer (TtlTimer.clear_signal (mTtlTimer s)));;
      if TtlTimer.expired timeout (mTtlTimer s) then
        Transit cfg st (match st with ServiceReady => next_Ready (mTtlTimer s) true | _ => next_Seen (mTtlTimer s) end)
      else modify (set_worker (Checking st))
  | Waiting InitialWaitPhase _ => InitialWait_timer
  | Waiting RepetitionPhase i => Repetition_timer cfg i
  | Ending st next => Transit cfg st next
  end.

(** [ara/com/someip/sd/someip_sd_client.cpp:67-91] matchRequestedService: the TTL of the
    first offering entry when it is for this service *)
Fixpoint match_entries (cfg : Config) (es : list AnyEntry) : option Z :=
  match es with
  | [] => None
  | EService e :: es =>
      let b := ServiceEntry.base e in
      if bool_decide (Entry.mType b = Offering) then
        if Entry.mServiceId b =? mServiceId cfg then Some (Entry.mTTL b) else None
      else match_entries cfg es
  | EEventgroup _ :: es => match_entries cfg es
  end.

(** [ara/com/someip/sd/someip_sd_client.cpp:100-121] the loop over the first options of
    an entry: its condition is the size of the array, so it ends by returning an
    endpoint or by [at] throwing *)
Fixpoint scan_options (os : list Option) : outcome (Ipv4.Ipv4Address * Z) :=
  match os with
  | [] => Throw std_out_of_range
  | OIpv4Endpoint o :: os =>
      if bool_decide (Ipv4EndpointOption.mType o = IPv4Endpoint) && (Ipv4EndpointOption.mL4Proto o =? Tcp)
      then Ok (Ipv4EndpointOption.mIpAddress o, Ipv4EndpointOption.mPort o)
      else scan_options os
  | _ :: os => scan_options os
  end.

(** [ara/com/someip/sd/someip_sd_client.cpp:93-125] tryExtractOfferedEndpoint *)
Fixpoint tryExtractOfferedEndpoint (es : list AnyEntry) : outcome (option (Ipv4.Ipv4Address * Z)) :=
  match es with
  | [] => mret None
  | e :: es =>
      match Entry.mFirstOptions (base e) with
      | [] => tryExtractOfferedEndpoint es
      | os => r ← scan_options os; mret (Some r)
      end
  end.

(** [std::unique_lock::lock]: throws when the lock is already owned through it. *)
Definition lock : M State () :=
  s ← get; if mEndpointLock s then raise std_system_error else modify (set_lock true).
Definition unlock : M State () := modify (set_lock false).

(** [ara/com/someip/sd/someip_sd_client.cpp:132-158] receiveSdMessage *)
Definition receiveSdMessage (cfg : Config) (message : SomeIpSdMessage.t) : M State () :=
  s ← get;
  if mValidState s then
    match match_entries cfg (SomeIpSdMessage.mEntries message) with
    | Some ttl =>
        modify (fun s => set_timer (TtlTimer.SetOffered ttl (mTtlTimer s)) s);;
        lock;;
        r ← lift (tryExtractOfferedEndpoint (SomeIpSdMessage.mEntries message));
        match r with
        | Some (ipAddress, port) => modify (set_endpoint ipAddress port)
        | None => mret ()
        end;;
        unlock
    | None => mret ()
    end
  else mret ().

(** [ara/com/someip/sd/someip_sd_client.cpp:267-283] TryGetOfferedEndpoint *)
Definition TryGetOfferedEndpoint : M State (option (Ipv4.Ipv4Address * Z)) :=
  lock;;
  s ← get;
  unlock;;
  mret (match mOfferedIpAddress s, mOfferedPort s with
        | Some ip, Some port => Some (ip, port)
        | _, _ => None
        end).

(** [ara/com/someip/sd/someip_sd_client.cpp:160-173] StartAgent, with the check of
    SomeIpSdAgent::Start and the worker's call of ServiceNotseenState::RequestService *)
Definition Start (cfg : Config) : M State () :=
  s ← get;
  if Future s then raise std_logic_error
  else
    modify (fun s => set_timer (TtlTimer.SetRequested true (mTtlTimer s)) s);;
    modify (set_future true);;
    modify set_requested_once;;
    Transit cfg ServiceNotSeen InitialWaitPhase.

(** [ara/com/someip/sd/someip_sd_client.cpp:175-187] StopAgent *)
Definition StopAgent : M State () :=
  s ← get;
  (if negb (mValidState s) then modify set_disposing else mret ());;
  modify (fun s => set_timer (TtlTimer.SetRequested false (mTtlTimer s)) s).

(** One step of a call that waits for one of the [desired] states: the look at the client and
    the lock, the wait, its end by a timeout, and the result. *)
Definition wait_step (desired : SdClientState → bool) (duration : Z) (timeout : bool) (w : Wait) (s : State) : Wait :=
  match w with
  | NoCall | Returned _ => if mValidState s then Entered duration else Returned false
  | Entered duration => Blocked duration
  | Blocked duration => if (0 <? duration) && timeout then Woken true else w
  | Woken timeout => Returned (mValidState s && (negb timeout || desired (mCurrent s)))
  end.

Definition offered_state (st : SdClientState) : bool :=
  bool_decide (st = ServiceReady) || bool_decide (st = ServiceSeen).
Definition stopped_state (st : SdClientState) : bool :=
  bool_decide (st = Stopped) || bool_decide (st = ServiceNotSeen).

(** [ara/com/someip/sd/someip_sd_client.cpp:189-225] TryWaitUntiServiceOffered, a step of it;
    [timeout] is whether a wait that has an end is over *)
Definition TryWaitUntiServiceOffered (duration : Z) (timeout : bool) : M State () :=
  modify (fun s => set_offering (wait_step offered_state duration timeout (mOfferingConditionVariable (waits s)) s) s).

(** [ara/com/someip/sd/someip_sd_client.cpp:227-265] TryWaitUntiServiceOfferStopped, a step of it *)
Definition TryWaitUntiServiceOfferStopped (duration : Z) (timeout : bool) : M State () :=
  modify (fun s =>
    set_stop_offering (wait_step stopped_state duration timeout (mStopOfferingConditionVariable (waits s)) s) s).

(** [ara/com/someip/sd/someip_sd_client.cpp:285-296] ~SomeIpSdClient, up to Join *)
Definition destroy : M State () := modify invalidate;; notify_offering;; notify_stop_offering;; StopAgent.

(** [ara/com/someip/sd/someip_sd_agent.h:73-80] Join; [false] while it blocks *)
Definition Join : M State bool :=
  s ← get;
  if Future s then
    match worker s with Idle => modify (set_future false);; mret true | _ => mret false end
  else mret true.

(** [ara/com/someip/sd/someip_sd_client.cpp:14-59] SomeIpSdClient::SomeIpSdClient; the
    signal flag of the timer starts with any value *)
Definition construct (cfg : Config) (signal : bool) : outcome State :=
  message ← SomeIpSdMessage.construct;
  findServiceEntry ← ServiceEntry.CreateFindServiceEntry (mServiceId cfg) 16777215 65535 255 4294967295;
  let s := mk ServiceNotSeen (TtlTimer.mk false false signal 0) true false false
    (SomeIpSdMessage.AddEntry message (EService findServiceEntry)) None None false [] Idle false (mkWaits NoCall NoCall) in
  match FiniteStateMachine.Initialize (StateMachine0 := SdClientMachine cfg) ServiceNotSeen s with
  | (Ok _, s) => Ok s
  | (Throw e, _) => Throw e
  | (Undefined, _) => Undefined
  | (OutOfFuel, _) => OutOfFuel
  end.

End SomeIpSdClient.

(** ** Traces *)
Section Client_traces.
Import SomeIpSdClient.
Variable cfg : Config.

(** The worker's steps, each with the outcome of the wait it ends. *)
Definition run_worker (outs : list bool) (s : State) : State :=
  foldl (fun s timeout => snd (worker_step cfg timeout s)) s outs.

Lemma run_worker_app o o' s : run_worker (o ++ o') s = run_worker o' (run_worker o s).
Proof. unfold run_worker. by rewrite foldl_app. Qed.

Lemma run_worker_cons b o s : run_worker (b :: o) s = run_worker o (snd (worker_step cfg b s)).
Proof. done. Qed.

(** Every state is registered, so the current one can always leave. *)
Lemma Transit_spec st next s :
  mCurrent s = st → Transit cfg st next s = Activate_ cfg next st (set_current next s).
Proof.
  intros <-. transitivity (FiniteStateMachine.Transit (StateMachine0 := SdClientMachine cfg) (mCurrent s) next s); [done|].
  apply (Transit_current (StateMachine0 := SdClientMachine cfg)). destruct next; set_solver.
Qed.

(** A state of the trace without offers: what the worker has done and what it will
    send.  [n] finds have been sent, and [o] waits for an offer. *)
Definition quiet (s : State) (cur : SdClientState) (w : Worker) (flag : bool) (n : nat) (o : Wait) : Prop :=
  mTtlTimer s = TtlTimer.mk true false flag 0 ∧ mCurrent s = cur ∧ worker s = w ∧
  length (mSent s) = n ∧ mOfferingConditionVariable (waits s) = o ∧ mValidState s = true.

Ltac quiet_step :=
  let H1 := fresh in let H2 := fresh in let H3 := fresh in
  intros (H1 & H2 & H3 & ? & <- & ?); unfold quiet, worker_step; run; rewrite H3;
  unfold check_step, InitialWait_timer, Repetition_timer; run; rewrite ?H1; cbn [TtlTimer.GetOffered
    TtlTimer.mRequested TtlTimer.mDisposing TtlTimer.mSignalFlag TtlTimer.mTtl Z.ltb Z.compare negb andb];
  rewrite ?Transit_spec by done; cbn; rewrite ?length_app; cbn [length]; split_and!; try done; try lia.

Lemma quiet_initial s f n b o :
  quiet s InitialWaitPhase (Waiting InitialWaitPhase 0) f n o →
  quiet (snd (worker_step cfg b s)) InitialWaitPhase (Ending InitialWaitPhase RepetitionPhase) f (S n) o.
Proof. quiet_step. Qed.

(** The worker of the repetition phase before iteration [i]. *)
Definition repetition_at (i : nat) : Worker :=
  if (i <? RepetitionsMax cfg)%nat then Waiting RepetitionPhase i else Ending RepetitionPhase Stopped.

Lemma quiet_enter s f n b o :
  quiet s InitialWaitPhase (Ending InitialWaitPhase RepetitionPhase) f n o →
  quiet (snd (worker_step cfg b s)) RepetitionPhase (repetition_at 0) f n o.
Proof. quiet_step. Qed.

Lemma quiet_repeat s f n i b o :
  (i < RepetitionsMax cfg)%nat →
  quiet s RepetitionPhase (repetition_at i) f n o →
  quiet (snd (worker_step cfg b s)) RepetitionPhase (repetition_at (S i)) f (S n) o.
Proof. intros Hi. unfold repetition_at at 1. rewrite (proj2 (Nat.ltb_lt _ _)) by done. quiet_step. Qed.

Lemma quiet_repetitions outs s f n i o :
  (i + length outs = RepetitionsMax cfg)%nat →
  quiet s RepetitionPhase (repetition_at i) f n o →
  quiet (run_worker outs s) RepetitionPhase (Ending RepetitionPhase Stopped) f (n + length outs) o.
Proof.
  revert s n i. induction outs as [|b outs IH]; intros s n i Hi Hs.
  { cbn [run_worker foldl length] in *. unfold repetition_at in Hs.
    rewrite (proj2 (Nat.ltb_ge _ _)) in Hs by lia. by rewrite Nat.add_0_r. }
  cbn [length] in *. rewrite run_worker_cons, Nat.add_succ_r, <- Nat.add_succ_l.
  apply (IH _ (S n) (S i)); [lia|]. apply quiet_repeat; [lia|done].
Qed.

Lemma quiet_stop s f n b o :
  quiet s RepetitionPhase (Ending RepetitionPhase Stopped) f n o →
  quiet (snd (worker_step cfg b s)) Stopped (Checking Stopped) f n o.
Proof. quiet_step. Qed.

Lemma quiet_check s f n b o :
  quiet s Stopped (Checking Stopped) f n o →
  quiet (snd (worker_step cfg b s)) Stopped (Waiting Stopped 0) f n o.
Proof. quiet_step. Qed.

Lemma quiet_signalled s n b o :
  quiet s Stopped (Waiting Stopped 0) true n o →
  quiet (snd (worker_step cfg b s)) ServiceReady (Checking ServiceReady) false n (notify_one o).
Proof. quiet_step. Qed.

Lemma quiet_not_offered s f n b o :
  quiet s ServiceReady (Checking ServiceReady) f n o →
  quiet (snd (worker_step cfg b s)) Stopped (Checking Stopped) f n o.
Proof. quiet_step. Qed.

Lemma quiet_rest outs s n o :
  quiet s Stopped (Waiting Stopped 0) false n o → run_worker outs s = s.
Proof.
  intros (H1 & H2 & H3 & _). induction outs as [|b outs IH]; [done|]. rewrite run_worker_cons.
  replace (snd (worker_step cfg b s)) with s; [done|].
  unfold worker_step. run. rewrite H3, H1. cbn [TtlTimer.mSignalFlag]. done.
Qed.

(** The states of a requested client whose last offer is never withdrawn: no message
    arrives and the request stays. *)
Definition offered (ttl : Z) (s : State) : Prop :=
  (∃ flag, mTtlTimer s = TtlTimer.mk true false flag ttl) ∧
  match worker s with
  | Waiting ServiceReady _ | Checking ServiceReady => mCurrent s = ServiceReady
  | Waiting InitialWaitPhase _ | Ending InitialWaitPhase ServiceReady => mCurrent s = InitialWaitPhase
  | _ => False
  end.

Lemma offered_step ttl s b :
  0 < ttl → offered ttl s →
  offered ttl (snd (worker_step cfg b s)) ∧ mSent (snd (worker_step cfg b s)) = mSent s.
Proof.
  intros Httl ((flag & Ht) & Hw). unfold worker_step. run.
  assert (H0 : (0 <? ttl) = true) by (by apply Z.ltb_lt).
  assert (H1 : (ttl =? 0) = false) by (apply Z.eqb_neq; lia).
  destruct (worker s) as [|[]|[] i|[] []] eqn:E; try done; unfold check_step, InitialWait_timer; run; rewrite ?Ht;
    unfold TtlTimer.GetOffered, TtlTimer.expires_now, TtlTimer.expired;
    cbn [TtlTimer.mRequested TtlTimer.mTtl TtlTimer.mDisposing]; rewrite ?H0, ?H1; cbn [andb orb negb];
    rewrite ?Transit_spec by done.
  - split; [split; [by exists flag|done]|done].
  - destruct b; cbn [orb]; rewrite ?Transit_spec by done; (split; [split; [by exists false|done]|done]).
  - split; [split; [by exists flag|done]|done].
  - split; [split; [by exists flag|done]|done].
Qed.

Lemma offered_forever ttl outs s :
  0 < ttl → offered ttl s → offered ttl (run_worker outs s) ∧ mSent (run_worker outs s) = mSent s.
Proof.
  intros Httl. revert s. induction outs as [|b outs IH]; intros s Hs; [done|]. rewrite run_worker_cons.
  destruct (offered_step ttl s b Httl Hs) as [H1 <-]. by apply IH.
Qed.

End Client_traces.

(** ** Endpoints *)

(** The endpoint a client can use: IPv4, TCP. *)
Definition tcp_endpoint (o : Option) : option (Ipv4.Ipv4Address * Z) :=
  match o with
  | OIpv4Endpoint o =>
      if bool_decide (Ipv4EndpointOption.mType o = IPv4Endpoint) && (Ipv4EndpointOption.mL4Proto o =? Tcp)
      then Some (Ipv4EndpointOption.mIpAddress o, Ipv4EndpointOption.mPort o) else None
  | _ => None
  end.

(** The first element the function accepts. *)
Fixpoint find_some {A B} (f : A → option B) (l : list A) : option B :=
  match l with
  | [] => None
  | a :: l => match f a with Some b => Some b | None => find_some f l end
  end.

Lemma scan_options_spec os :
  SomeIpSdClient.scan_options os =
    match find_some tcp_endpoint os with Some r => Ok r | None => Throw std_out_of_range end.
Proof.
  induction os as [|[o|o] os IH]; [done|..]; cbn [SomeIpSdClient.scan_options find_some tcp_endpoint]; try done.
  by destruct (_ && _).
Qed.

(** The first options of the first entry that has some. *)
Definition first_options (es : list AnyEntry) : option (list Option) :=
  find_some (fun e => match Entry.mFirstOptions (base e) with [] => None | os => Some os end) es.

Lemma tryExtract_spec es :
  SomeIpSdClient.tryExtractOfferedEndpoint es =
    match first_options es with
    | None => Ok None
    | Some os => match find_some tcp_endpoint os with
                 | Some r => Ok (Some r)
                 | None => Throw std_out_of_range
                 end
    end.
Proof.
  induction es as [|e es IH]; [done|]. cbn [SomeIpSdClient.tryExtractOfferedEndpoint]. unfold first_options. cbn [find_some].
  destruct (Entry.mFirstOptions (base e)) as [|o os]; [done|]. rewrite scan_options_spec.
  by destruct (find_some tcp_endpoint (o :: os)).
Qed.

(** What a matching offer does to a client whose endpoint lock is free. *)
Lemma receive_matching cfg m ttl os s :
  SomeIpSdClient.mValidState s = true → SomeIpSdClient.mEndpointLock s = false →
  SomeIpSdClient.match_entries cfg (SomeIpSdMessage.mEntries m) = Some ttl →
  first_options (SomeIpSdMessage.mEntries m) = Some os →
  let s1 := SomeIpSdClient.set_lock true
    (SomeIpSdClient.set_timer (TtlTimer.SetOffered ttl (SomeIpSdClient.mTtlTimer s)) s) in
  SomeIpSdClient.receiveSdMessage cfg m s =
    match find_some tcp_endpoint os with
    | Some (ip, port) => (Ok (), SomeIpSdClient.set_lock false (SomeIpSdClient.set_endpoint ip port s1))
    | None => (Throw std_out_of_range, s1)
    end.
Proof.
  intros Hv Hl Hm Ho. unfold SomeIpSdClient.receiveSdMessage at 1. run. rewrite Hv, Hm.
  unfold SomeIpSdClient.lock. run. cbn [SomeIpSdClient.mEndpointLock SomeIpSdClient.set_timer]. rewrite Hl.
  rewrite tryExtract_spec, Ho. by destruct (find_some tcp_endpoint os) as [[ip port]|].
Qed.

(** ** Properties *)

(** A client started while nobody offers its service sends one find after the
    initial delay and one per repetition, then rests; but on the way to rest it enters
    ServiceReady and announces an offer nobody made, because the signal flag set by
    the request itself is still up when the stopped state waits for a signal: a call that
    waits for an offer, for ever or not, is woken and returns [true]. *)
Theorem client_without_offers cfg signal s0 d b1 b2 outs b3 b4 b5 :
  SomeIpSdClient.construct cfg signal = Ok s0 → length outs = SomeIpSdClient.RepetitionsMax cfg →
  let s := snd (SomeIpSdClient.Start cfg (SomeIpSdClient.set_offering (SomeIpSdClient.Blocked d) s0)) in
  let s1 := run_worker cfg (b1 :: b2 :: outs ++ [b3; b4; b5]) s in
  SomeIpSdClient.mCurrent s1 = ServiceReady ∧
  TtlTimer.GetOffered (SomeIpSdClient.mTtlTimer s1) = false ∧
  (∀ d' t, SomeIpSdClient.mOfferingConditionVariable
    (SomeIpSdClient.waits (snd (SomeIpSdClient.TryWaitUntiServiceOffered d' t s1))) = SomeIpSdClient.Returned true) ∧
  ∀ b6 b7 more,
    let s2 := run_worker cfg (b6 :: b7 :: more) s1 in
    SomeIpSdClient.mCurrent s2 = Stopped ∧
    length (SomeIpSdClient.mSent s2) = S (SomeIpSdClient.RepetitionsMax cfg).
Proof.
  intros Hc Hlen. cbv zeta. set (s := snd (SomeIpSdClient.Start _ _)).
  assert (Hq : quiet s InitialWaitPhase (SomeIpSdClient.Waiting InitialWaitPhase 0) true 0 (SomeIpSdClient.Blocked d))
    by (unfold s, SomeIpSdClient.construct in *; revert Hc;
      destruct (ServiceEntry.CreateFindServiceEntry _ _ _ _ _); [|done..]; by intros [= <-]).
  clearbody s. rewrite !run_worker_cons, run_worker_app.
  apply (quiet_initial cfg _ _ _ b1), (quiet_enter cfg _ _ _ b2) in Hq.
  apply (quiet_repetitions cfg outs) in Hq; [|by rewrite Hlen].
  rewrite !run_worker_cons. set (s' := run_worker cfg outs _) in *.
  apply (quiet_stop cfg _ _ _ b3), (quiet_check cfg _ _ _ b4), (quiet_signalled cfg _ _ b5) in Hq.
  change (run_worker cfg [] ?x) with x.
  split; [apply Hq|]. split; [by rewrite (proj1 Hq)|]. split.
  { intros d' t. destruct Hq as (_ & _ & _ & _ & Ho & Hv). unfold SomeIpSdClient.TryWaitUntiServiceOffered. run.
    cbn [snd]. cbv [SomeIpSdClient.set_offering SomeIpSdClient.set_waits SomeIpSdClient.waits SomeIpSdClient.mOfferingConditionVariable] in *. rewrite Ho. cbn. by rewrite Hv. }
  intros b6 b7 more. rewrite !run_worker_cons.
  apply (quiet_not_offered cfg _ _ _ b6), (quiet_check cfg _ _ _ b7) in Hq.
  rewrite (quiet_rest cfg more _ _ _ Hq).
  destruct Hq as (_ & -> & _ & -> & _). rewrite Hlen. done.
Qed.

(** An expired offer is never noticed: the timer keeps the TTL it was given, so
    a requested client in ServiceReady whose wait times out goes through the initial
    wait straight back to ServiceReady, whatever its later waits give, and never sends
    a find again until another message or request arrives. *)
Theorem expired_ttl_is_forgotten cfg flag ttl i s :
  0 < ttl → SomeIpSdClient.mTtlTimer s = TtlTimer.mk true false flag ttl →
  SomeIpSdClient.worker s = SomeIpSdClient.Waiting ServiceReady i →
  SomeIpSdClient.mCurrent s = ServiceReady →
  SomeIpSdClient.mCurrent (run_worker cfg [true] s) = InitialWaitPhase ∧
  (∀ b b', SomeIpSdClient.mCurrent (run_worker cfg [true; b; b'] s) = ServiceReady) ∧
  ∀ outs, SomeIpSdClient.mSent (run_worker cfg outs s) = SomeIpSdClient.mSent s ∧
    TtlTimer.GetOffered (SomeIpSdClient.mTtlTimer (run_worker cfg outs s)) = true.
Proof.
  intros Httl Ht Hw Hc. assert (H0 : (0 <? ttl) = true) by (by apply Z.ltb_lt).
  assert (Hs : offered ttl s) by (split; [by exists flag|by rewrite Hw]).
  assert (H1 : run_worker cfg [true] s = SomeIpSdClient.set_worker (SomeIpSdClient.Waiting InitialWaitPhase 0)
    (SomeIpSdClient.set_current InitialWaitPhase (SomeIpSdClient.set_timer (TtlTimer.mk true false false ttl) s))).
  { cbn [run_worker foldl]. unfold SomeIpSdClient.worker_step. run. rewrite Hw, Ht.
    cbn [TtlTimer.expired orb]. unfold TtlTimer.expired. cbn [orb]. by rewrite Transit_spec. }
  split; [by rewrite H1|]. split.
  - intros b b'. change [true; b; b'] with ([true] ++ [b; b']). rewrite run_worker_app, H1.
    cbn [run_worker foldl]. unfold SomeIpSdClient.worker_step at 2. run.
    cbn [SomeIpSdClient.worker SomeIpSdClient.set_worker]. unfold SomeIpSdClient.InitialWait_timer. run.
    unfold TtlTimer.GetOffered. cbn [SomeIpSdClient.mTtlTimer SomeIpSdClient.set_worker
      SomeIpSdClient.set_current SomeIpSdClient.set_timer TtlTimer.mTtl]. rewrite H0. run. cbn [snd].
    unfold SomeIpSdClient.worker_step. run. cbn [SomeIpSdClient.worker SomeIpSdClient.set_worker].
    by rewrite Transit_spec.
  - intros outs. destruct (offered_forever cfg ttl outs s Httl Hs) as [[[f ->] _] ->]. done.
Qed.

(** A matching offer gives the client the first TCP endpoint among the first
    options of its first entry that has any, and [TryGetOfferedEndpoint] returns it.
    When those options hold no TCP endpoint the scan runs past them: [receiveSdMessage]
    throws with the endpoint lock held, after which every [TryGetOfferedEndpoint] and
    every matching message throw [std::system_error]. *)
Theorem offered_endpoint cfg m ttl os s :
  SomeIpSdClient.mValidState s = true → SomeIpSdClient.mEndpointLock s = false →
  SomeIpSdClient.match_entries cfg (SomeIpSdMessage.mEntries m) = Some ttl →
  first_options (SomeIpSdMessage.mEntries m) = Some os →
  let '(r, s') := SomeIpSdClient.receiveSdMessage cfg m s in
  match find_some tcp_endpoint os with
  | Some endpoint => r = Ok () ∧ fst (SomeIpSdClient.TryGetOfferedEndpoint s') = Ok (Some endpoint) ∧
      SomeIpSdClient.mEndpointLock s' = false
  | None => r = Throw std_out_of_range ∧
      SomeIpSdClient.TryGetOfferedEndpoint s' = (Throw std_system_error, s') ∧
      ∀ m' ttl', SomeIpSdClient.match_entries cfg (SomeIpSdMessage.mEntries m') = Some ttl' →
        fst (SomeIpSdClient.receiveSdMessage cfg m' s') = Throw std_system_error
  end.
Proof.
  intros Hv Hl Hm Ho. rewrite (receive_matching cfg m ttl os s Hv Hl Hm Ho). cbv zeta.
  destruct (find_some tcp_endpoint os) as [[ip port]|]; [done|].
  split; [done|]. split; [done|]. intros m' ttl' Hm'. unfold SomeIpSdClient.receiveSdMessage. run.
  cbn [SomeIpSdClient.mValidState SomeIpSdClient.set_lock SomeIpSdClient.set_timer]. rewrite Hv, Hm'. done.
Qed.

(** C26: what a server offers is what its clients find: the offer of a server built
    for an endpoint, serialised under any session and read back by a client of the
    same service, makes that client see the service offered and gives it the server's
    address and port. *)
Theorem server_offer_reaches_client scfg cfg ip port s0 offer c :
  is_u16 (SomeIpSdServer.mServiceId scfg) → is_u16 (SomeIpSdServer.mInstanceId scfg) →
  is_u8 (SomeIpSdServer.mMajorVersion scfg) → is_u32 (SomeIpSdServer.mMinorVersion scfg) →
  Ipv4.wf ip → is_u16 port →
  SomeIpSdServer.construct scfg ip port = Ok s0 →
  SomeIpSdClient.mServiceId cfg = SomeIpSdServer.mServiceId scfg →
  SomeIpMessage.wf (SomeIpSdMessage.header offer) →
  SomeIpSdMessage.mEntries offer = SomeIpSdMessage.mEntries (SomeIpSdServer.mOfferServiceMessage s0) →
  SomeIpSdClient.mValidState c = true → SomeIpSdClient.mEndpointLock c = false →
  ∃ m c', SomeIpSdMessage.Deserialize (SomeIpSdMessage.Payload offer) = Ok m ∧
    SomeIpSdClient.receiveSdMessage cfg m c = (Ok (), c') ∧
    TtlTimer.GetOffered (SomeIpSdClient.mTtlTimer c') = true ∧
    fst (SomeIpSdClient.TryGetOfferedEndpoint c') = Ok (Some (ip, port)).
Proof.
  intros Hsid Hiid Hmaj Hmin Hip Hport Hc Hid Hh Hes Hv Hl.
  rewrite construct_spec in Hc. destruct (timing_accepted scfg); [|done]. injection Hc as <-.
  destruct scfg as [sid iid maj min reps imin imax base cyc]. cbn [SomeIpSdServer.mServiceId] in Hid.
  cbn [fresh_server SomeIpSdServer.mOfferServiceMessage SomeIpSdMessage.mEntries] in Hes.
  exists offer. assert (Hwf : SomeIpSdMessage.wf offer).
  { split; [done|]. rewrite Hes. split; [|split; [|by_eval]].
    - apply Forall_cons; split; [|by apply Forall_nil]. repeat split; cbn; try done; try lia; try apply Hsid; try apply Hiid; try apply Hmaj; try apply Hmin.
      all: apply Forall_cons; split; [|by apply Forall_nil]. done.
    - apply Forall_cons; split; [|by apply Forall_nil]. by apply options_ok_decide. }
  eexists. split; [rewrite <- (app_nil_r (SomeIpSdMessage.Payload offer)); by apply SdMessage_facts.sd_Deserialize_app|].
  split.
  - erewrite (receive_matching cfg offer 16777215); [|done|done|rewrite Hes|by rewrite Hes]; [done|].
    cbn [SomeIpSdClient.match_entries ServiceEntry.base Entry.mServiceId]. by rewrite Hid, Z.eqb_refl.
  - done.
Qed.

Definition example_client : SomeIpSdClient.Config := SomeIpSdClient.mkConfig 4660 2.
Definition example_client_start : SomeIpSdClient.State :=
  match SomeIpSdClient.construct example_client false with
  | Ok s => s
  | _ => SomeIpSdClient.mk ServiceNotSeen (TtlTimer.mk false false false 0) true false false example_find
           None None false [] SomeIpSdClient.Idle false (SomeIpSdClient.mkWaits SomeIpSdClient.NoCall SomeIpSdClient.NoCall)
  end.
Definition example_server_offer : SomeIpSdMessage.t := SomeIpSdServer.mOfferServiceMessage example_start.

Lemma client_without_offers_witness :
  let s := run_worker example_client [false; false; false; false; false; false; false]
    (snd (SomeIpSdClient.Start example_client
      (SomeIpSdClient.set_offering (SomeIpSdClient.Blocked 0) example_client_start))) in
  SomeIpSdClient.mCurrent s = ServiceReady ∧
  SomeIpSdClient.mOfferingConditionVariable
    (SomeIpSdClient.waits (snd (SomeIpSdClient.TryWaitUntiServiceOffered 0 false s))) = SomeIpSdClient.Returned true ∧
  length (SomeIpSdClient.mSent (run_worker example_client [true; true; false] s)) = 3%nat.
Proof.
  destruct (client_without_offers example_client false example_client_start 0 false false [false; false]
    false false false ltac:(by vm_compute) ltac:(done)) as (H1 & _ & H0 & H2).
  split; [exact H1|]. split; [exact (H0 0 false)|]. exact (proj2 (H2 true true [false])).
Defined.

(** The client started, then offered the service, and waiting for the offer to expire. *)
Definition example_ready : SomeIpSdClient.State :=
  run_worker example_client [false; false; false]
    (snd (SomeIpSdClient.receiveSdMessage example_client example_server_offer
      (snd (SomeIpSdClient.Start example_client example_client_start)))).

Lemma expired_ttl_is_forgotten_witness :
  SomeIpSdClient.mCurrent example_ready = ServiceReady ∧
  SomeIpSdClient.mSent (run_worker example_client [true; true; true; true; true; true] example_ready) = [].
Proof.
  split; [by vm_compute|].
  destruct (expired_ttl_is_forgotten example_client true 16777215 0 example_ready ltac:(lia)
    ltac:(by vm_compute) ltac:(by vm_compute) ltac:(by vm_compute)) as (_ & _ & H).
  rewrite (proj1 (H [true; true; true; true; true; true])). by vm_compute.
Defined.

(** An offer whose only option is a UDP endpoint. *)
Definition example_udp_offer : SomeIpSdMessage.t :=
  SomeIpSdMessage.mk (SomeIpMessage.mk SomeIpSdMessage.cMessageId 0 1 1 1 Notification eOK) true
    [EService (ServiceEntry.mk (Entry.mk Offering
      [OIpv4Endpoint (Ipv4EndpointOption.CreateUnitcastEndpoint false (Ipv4.mk 10 0 0 1) Udp 5555)] [] 4660 1 1 3) 0)].

Lemma offered_endpoint_witness :
  fst (SomeIpSdClient.TryGetOfferedEndpoint
    (snd (SomeIpSdClient.receiveSdMessage example_client example_server_offer example_client_start)))
    = Ok (Some (Ipv4.mk 10 0 0 1, 8080)) ∧
  fst (SomeIpSdClient.receiveSdMessage example_client example_udp_offer example_client_start) = Throw std_out_of_range.
Proof.
  split.
  - exact (proj1 (proj2 (offered_endpoint example_client example_server_offer 16777215
      [OIpv4Endpoint (Ipv4EndpointOption.CreateUnitcastEndpoint false (Ipv4.mk 10 0 0 1) Tcp 8080)]
      example_client_start ltac:(by vm_compute) ltac:(by vm_compute) ltac:(by vm_compute) ltac:(by vm_compute)))).
  - exact (proj1 (offered_endpoint example_client example_udp_offer 3
      [OIpv4Endpoint (Ipv4EndpointOption.CreateUnitcastEndpoint false (Ipv4.mk 10 0 0 1) Udp 5555)]
      example_client_start ltac:(by vm_compute) ltac:(by vm_compute) ltac:(by vm_compute) ltac:(by vm_compute))).
Defined.

Lemma server_offer_reaches_client_witness :
  ∃ m c', SomeIpSdMessage.Deserialize (SomeIpSdMessage.Payload example_server_offer) = Ok m ∧
    SomeIpSdClient.receiveSdMessage example_client m example_client_start = (Ok (), c') ∧
    TtlTimer.GetOffered (SomeIpSdClient.mTtlTimer c') = true ∧
    fst (SomeIpSdClient.TryGetOfferedEndpoint c') = Ok (Some (Ipv4.mk 10 0 0 1, 8080)).
Proof.
  apply (server_offer_reaches_client example_server example_client (Ipv4.mk 10 0 0 1) 8080 example_start
    example_server_offer example_client_start); by_eval.
Defined.
