(* ===== verification/SdWaits.v ===== *)
(** * Waiting for a service: the blocking calls of ara/com/someip/sd/someip_sd_client.cpp

    The client of SdClient.v with the threads that call it: [TryWaitUntiServiceOffered],
    [TryWaitUntiServiceOfferStopped] and the destructor, interleaved with the worker, the
    poller and one another.  The theorems: a call that returns [true] did see the state it
    waited for, while it ran; one that begins when the state is entered already misses it; and
    the destructor releases the calls that wait, and ends. *)

From S2P Require Import Prelude Payload Options Entries SomeIp SdMessage Fsm SdServer SdClient.
Import SomeIpSdClient.

(** ** Runs *)
Section Runs.
Variable cfg : Config.

(** The two calls that wait, by what they wait for. *)
Inductive side := Offered | OfferStopped.

Definition waiting (p : side) (s : State) : Wait :=
  match p with
  | Offered => mOfferingConditionVariable (waits s)
  | OfferStopped => mStopOfferingConditionVariable (waits s)
  end.
Definition desired (p : side) : SdClientState → bool :=
  match p with Offered => offered_state | OfferStopped => stopped_state end.

(** What a thread can do: the worker goes on, the poller hands a message over, a caller starts,
    stops or asks, a call that waits goes on, and the client is destroyed. *)
Inductive event :=
  | WorkerStep (timeout : bool)
  | Receive (m : SomeIpSdMessage.t)
  | StartClient
  | StopClient
  | GetEndpoint
  | CallStep (p : side) (duration : Z) (timeout : bool)
  | Destroy.

Definition act (e : event) : M State () :=
  match e with
  | WorkerStep timeout => worker_step cfg timeout
  | Receive m => receiveSdMessage cfg m
  | StartClient => Start cfg
  | StopClient => StopAgent
  | GetEndpoint => TryGetOfferedEndpoint;; mret ()
  | CallStep Offered duration timeout => TryWaitUntiServiceOffered duration timeout
  | CallStep OfferStopped duration timeout => TryWaitUntiServiceOfferStopped duration timeout
  | Destroy => destroy
  end.

Definition run_threads (es : list event) (s : State) : State := foldl (fun s e => snd (act e s)) s es.

Lemma run_threads_app es es' s : run_threads (es ++ es') s = run_threads es' (run_threads es s).
Proof. apply foldl_app. Qed.

Lemma run_threads_cons e es s : run_threads (e :: es) s = run_threads es (snd (act e s)).
Proof. done. Qed.

Lemma run_threads_worker outs s : run_threads (map WorkerStep outs) s = run_worker cfg outs s.
Proof. revert s. induction outs as [|b outs IH]; intros s; [done|]. apply IH. Qed.

(** ** What a step lets a call hear *)

(** Nothing, or the notification of the state that is current after it. *)
Definition hears (p : side) (s s' : State) : Prop :=
  waiting p s' = waiting p s ∨
  (desired p (mCurrent s') = true ∧ waiting p s' = notify_one (waiting p s)).

Lemma Transit_hears p st next s :
  hears p s (snd (Transit cfg st next s)) ∧ mValidState (snd (Transit cfg st next s)) = mValidState s.
Proof.
  destruct (decide (st = mCurrent s)) as [->|H].
  - rewrite Transit_spec by done.
    destruct next; unfold Activate_, notify_offering, notify_stop_offering; run; try (case_match; run);
      (split; [|done]); destruct p; try (by left); by right.
  - replace (Transit cfg st next s) with (Ok tt, s); [split; [by left|done]|].
    symmetry. apply (Transit_other (StateMachine0 := SdClientMachine cfg)). done.
Qed.

Lemma worker_hears p b s :
  hears p s (snd (worker_step cfg b s)) ∧ mValidState (snd (worker_step cfg b s)) = mValidState s.
Proof.
  assert (Ht : ∀ s' st next, waits s' = waits s → mValidState s' = mValidState s →
    hears p s (snd (Transit cfg st next s')) ∧ mValidState (snd (Transit cfg st next s')) = mValidState s).
  { intros s' st next Hw <-. destruct (Transit_hears p st next s') as [H ->]. split; [|done].
    unfold hears, waiting in *. by rewrite Hw in H. }
  unfold worker_step. run. destruct (worker s) as [|st|st i|st next]; [by split; [left|]| | |by apply Ht].
  - destruct st; unfold check_step; run; repeat (case_match; run); try (by apply Ht); by split; [left|].
  - destruct st; unfold InitialWait_timer, Repetition_timer, sendFind; run; repeat (case_match; run);
      try (by apply Ht); by split; [left|].
Qed.

Lemma StopAgent_spec s :
  StopAgent s =
    (Ok (), let s' := if mValidState s then s else set_disposing s in
            set_timer (TtlTimer.SetRequested false (mTtlTimer s')) s').
Proof. unfold StopAgent. run. by destruct (mValidState s). Qed.

Lemma destroy_spec s :
  destroy s =
    (Ok (), let s' := set_disposing (set_waits (mkWaits (notify_one (waiting Offered s)) (notify_one (waiting OfferStopped s)))
              (invalidate s)) in
            set_timer (TtlTimer.SetRequested false (mTtlTimer s')) s').
Proof. done. Qed.

(** The other threads: a call hears what the state after their step announces, and a client
    that is not valid stays so. *)
Lemma act_hears p e s :
  (∀ d t, e ≠ CallStep p d t) → mValidState (snd (act e s)) = true →
  mValidState s = true ∧ hears p s (snd (act e s)).
Proof.
  intros He. destruct e as [b|m| | | |q d t|]; cbn [act].
  - by destruct (worker_hears p b s) as [H ->].
  - unfold receiveSdMessage, lock, unlock. run. destruct (mValidState s) eqn:E; [|by cbn; rewrite E].
    intros _. split; [done|]. left. case_match; [|done]. run. destruct (mEndpointLock _); [done|]. run.
    destruct (tryExtractOfferedEndpoint _) as [[[ip port]|]| | |]; run; done.
  - unfold Start. run. case_match; [by split; [|left]|]. run.
    destruct (Transit_hears p ServiceNotSeen InitialWaitPhase (set_requested_once (set_future true
      (set_timer (TtlTimer.SetRequested true (mTtlTimer s)) s)))) as [Hh Hv].
    cbn [snd] in *. intros Hv'. rewrite Hv' in Hv. by split.
  - rewrite StopAgent_spec. destruct (mValidState s) eqn:E; cbn; [by split; [|left]|by rewrite E].
  - unfold TryGetOfferedEndpoint, lock, unlock. run. destruct (mEndpointLock s); by split; [|left].
  - intros Hv. destruct p, q; try (by destruct (He d t)); by split; [|left].
  - by rewrite destroy_spec.
Qed.

Lemma call_spec p d t s :
  let s' := snd (act (CallStep p d t) s) in
  waiting p s' = wait_step (desired p) d t (waiting p s) s ∧ mValidState s' = mValidState s ∧ mCurrent s' = mCurrent s.
Proof. by destruct p. Qed.

(** ** What a call was woken by *)

Definition in_call (w : Wait) : bool := match w with Entered _ | Blocked _ | Woken _ => true | _ => false end.

(** While the call of the end of [es] ran, its state was current. *)
Definition was_there (p : side) (s0 : State) (es : list event) : Prop :=
  ∃ es1 es2, es = es1 ++ es2 ∧ desired p (mCurrent (run_threads es1 s0)) = true ∧
    ∀ es' rest, es2 = es' ++ rest → in_call (waiting p (run_threads (es1 ++ es') s0)) = true.

Lemma was_there_now p s0 es :
  desired p (mCurrent (run_threads es s0)) = true → in_call (waiting p (run_threads es s0)) = true → was_there p s0 es.
Proof.
  intros Hd Hc. exists es, []. rewrite app_nil_r. split_and!; [done..|].
  intros es' rest [-> ->]%eq_sym%app_nil. by rewrite app_nil_r.
Qed.

Lemma was_there_later p s0 es e :
  was_there p s0 es → in_call (waiting p (run_threads (es ++ [e]) s0)) = true → was_there p s0 (es ++ [e]).
Proof.
  intros (es1 & es2 & -> & Hd & Hc) He. exists es1, (es2 ++ [e]). split_and!; [by rewrite (assoc_L (++))|done|].
  intros es' rest. destruct rest as [|x rest _] using rev_ind.
  - rewrite app_nil_r. intros <-. by rewrite (assoc_L (++)).
  - rewrite (assoc_L (++)). intros [? _]%app_inj_tail. by eapply Hc.
Qed.

(** A woken call of a valid client was woken by the state it waits for. *)
Lemma woken_was_there p s0 es :
  waiting p s0 = NoCall → waiting p (run_threads es s0) = Woken false →
  mValidState (run_threads es s0) = true → was_there p s0 es.
Proof.
  intros H0. induction es as [|e es IH] using rev_ind; [cbn; congruence|].
  rewrite run_threads_app. cbn [run_threads foldl]. set (s := run_threads es s0) in *. intros Hw Hv.
  assert (Hin : in_call (waiting p (run_threads (es ++ [e]) s0)) = true)
    by (rewrite run_threads_app; cbn [run_threads foldl]; fold s; by rewrite Hw).
  assert (Hcase : (∀ d t, e ≠ CallStep p d t) ∨ ∃ d t, e = CallStep p d t)
    by (destruct e as [| | | | |q d t|]; try (by left); destruct p, q; first [by left|right; eauto]).
  destruct Hcase as [He|(d & t & ->)].
  - destruct (act_hears p e s He Hv) as [Hv' [Hsame|[Hd Hn]]].
    + apply was_there_later; [|done]. apply IH; [congruence|done].
    + apply was_there_now; [|done]. rewrite run_threads_app. exact Hd.
  - destruct (call_spec p d t s) as (Hc & Hv' & _). rewrite Hc in Hw. rewrite Hv' in Hv.
    destruct (waiting p s) as [|d'|d'|t'|r]; cbn in Hw; try (by destruct (mValidState s)).
    destruct (_ && _); congruence.
Qed.

(** ** A call that comes late *)

(** A requested client that has been offered its service and stays so, with a call that waits. *)
Record late (ttl d : Z) (s : State) : Prop := {
  late_timer : ∃ flag, mTtlTimer s = TtlTimer.mk true false flag ttl;
  late_worker : worker s = Checking ServiceReady ∨ ∃ i, worker s = SomeIpSdClient.Waiting ServiceReady i;
  late_current : mCurrent s = ServiceReady;
  late_valid : mValidState s = true;
  late_waiting : waiting Offered s = Blocked d
}.

Lemma late_stays ttl d s e :
  0 < ttl → e = WorkerStep false ∨ (∃ t, e = CallStep Offered 0 t ∧ (0 <? d) && t = false) → late ttl d s →
  late ttl d (snd (act e s)).
Proof.
  intros Httl He [[flag Ht] Hw Hc Hv Hb].
  assert (H0 : (0 <? ttl) = true) by (by apply Z.ltb_lt).
  assert (H1 : (ttl =? 0) = false) by (apply Z.eqb_neq; lia).
  destruct He as [->|(t & -> & He)]; cbn [act].
  - unfold worker_step. run. destruct Hw as [->|[i ->]]; unfold check_step; run; rewrite Ht;
      unfold TtlTimer.GetOffered, TtlTimer.expires_now, TtlTimer.expired;
      cbn [TtlTimer.mRequested TtlTimer.mTtl TtlTimer.mDisposing]; rewrite ?H0, ?H1; cbn [andb orb];
      (split; [by eexists|cbn; eauto|done..]).
  - unfold TryWaitUntiServiceOffered. run. unfold waiting in Hb. rewrite Hb. cbn [wait_step]. rewrite He.
    split; [by exists flag|done..].
Qed.

Lemma late_run ttl d es s :
  0 < ttl → Forall (fun e => e = WorkerStep false ∨ ∃ t, e = CallStep Offered 0 t ∧ (0 <? d) && t = false) es →
  late ttl d s → late ttl d (run_threads es s).
Proof.
  intros Httl Hes. revert s. induction Hes as [|e es He _ IH]; intros s Hs; [done|].
  rewrite run_threads_cons. by apply IH, late_stays.
Qed.

(** ** The end of the worker *)

(** The worker is where the machine is. *)
Definition home (s : State) : Prop :=
  match worker s with
  | Idle => True
  | Checking st => mCurrent s = st ∧ st ≠ InitialWaitPhase ∧ st ≠ RepetitionPhase
  | SomeIpSdClient.Waiting st _ | Ending st _ => mCurrent s = st
  end ∧
  (Future s = false → worker s = Idle ∧ mCurrent s = ServiceNotSeen).

Lemma Transit_home st next s :
  mCurrent s = st → Future s = true → home (snd (Transit cfg st next s)) ∧ Future (snd (Transit cfg st next s)) = true.
Proof.
  intros Hs Hf. rewrite Transit_spec by done. unfold home.
  destruct next; unfold Activate_, notify_offering, notify_stop_offering; run;
    repeat match goal with |- context [if ?b then _ else _] => destruct b end; cbn; rewrite ?Hf; split_and!; done.
Qed.
Definition place (s : State) : SdClientState * Worker * bool := (mCurrent s, worker s, Future s).

Lemma home_place s s' : place s' = place s → home s → home s'.
Proof. unfold place, home. by intros [= -> -> ->]. Qed.

Lemma receive_place m s : place (snd (receiveSdMessage cfg m s)) = place s.
Proof.
  unfold receiveSdMessage, lock, unlock. run. destruct (mValidState s); [|done].
  destruct (match_entries _ _); [|done]. run. destruct (mEndpointLock _); [done|]. run.
  by destruct (tryExtractOfferedEndpoint _) as [[[ip port]|]| | |].
Qed.

Lemma worker_home b s : home s → home (snd (worker_step cfg b s)).
Proof.
  intros Hs. pose proof Hs as [Hw Hf]. destruct (Future s) eqn:E; [clear Hf|].
  2:{ destruct (Hf eq_refl) as [Hi Hc]. unfold worker_step. run. by rewrite Hi. }
  assert (Ht : ∀ s' st next, place s' = place s → mCurrent s = st → home (snd (Transit cfg st next s'))).
  { unfold place. intros s' st next [= H1 H2 H3] H. by apply Transit_home; congruence. }
  assert (Hset : ∀ w s', (match w with
      | Idle => True | Checking st => mCurrent s = st ∧ st ≠ InitialWaitPhase ∧ st ≠ RepetitionPhase
      | SomeIpSdClient.Waiting st _ | Ending st _ => mCurrent s = st end) →
      place s' = (mCurrent s, w, true) → home s').
  { unfold place, home. intros w s' H [= -> -> ->]. by split. }
  unfold worker_step. run. destruct (worker s) as [|st|st i|st next] eqn:Ew.
  - done.
  - destruct Hw as (Hc & Hi & Hr). destruct st; try done; unfold check_step; run;
      repeat match goal with |- context [if ?b then _ else _] => destruct b end; try (by apply Ht);
      by (eapply Hset; [|unfold place; cbn; by rewrite ?E]).
  - destruct st; unfold InitialWait_timer, Repetition_timer, sendFind; run;
      repeat match goal with |- context [if ?b then _ else _] => destruct b end; try (by apply Ht); try exact Hs.
    all: eapply Hset; [|unfold place; cbn; rewrite ?E; reflexivity]; done.
  - by apply Ht.
Qed.
Lemma act_home e s : home s → home (snd (act e s)).
Proof.
  intros Hs. destruct e as [b|m| | | |p d t|]; cbn [act].
  - by apply worker_home.
  - by eapply home_place; [apply receive_place|].
  - unfold Start. run. destruct (Future s) eqn:E; [done|]. destruct (proj2 Hs E) as [_ Hc]. run. by apply Transit_home.
  - rewrite StopAgent_spec. destruct (mValidState s); by eapply home_place; [|apply Hs].
  - unfold TryGetOfferedEndpoint, lock, unlock. run. destruct (mEndpointLock s); by eapply home_place; [|apply Hs].
  - destruct p; by eapply home_place; [|apply Hs].
  - rewrite destroy_spec. by eapply home_place; [|apply Hs].
Qed.

Lemma run_home es s : home s → home (run_threads es s).
Proof. revert s. induction es as [|e es IH]; intros s Hs; [done|]. rewrite run_threads_cons. by apply IH, act_home. Qed.

(** A client that is being destroyed. *)
Definition disposing (s : State) : Prop :=
  TtlTimer.mRequested (mTtlTimer s) = false ∧ TtlTimer.mDisposing (mTtlTimer s) = true ∧
  mNotSeenDisposing s = true ∧ mValidState s = false.

(** A wait for a signal has one to come. *)
Definition signalled (s : State) : Prop :=
  match worker s with
  | SomeIpSdClient.Waiting (ServiceNotSeen | Stopped) _ => TtlTimer.mSignalFlag (mTtlTimer s) = true
  | _ => True
  end.

(** How many steps the worker has left at most. *)
Definition entering (next : SdClientState) : nat :=
  match next with
  | ServiceNotSeen => 0
  | ServiceSeen | Stopped => 1
  | ServiceReady => 2
  | RepetitionPhase => RepetitionsMax cfg + 4
  | InitialWaitPhase => RepetitionsMax cfg + 6
  end.
Definition rank (w : Worker) : nat :=
  match w with
  | Idle => 0
  | Checking ServiceNotSeen | SomeIpSdClient.Waiting ServiceNotSeen _ => 2
  | Checking st => entering st
  | SomeIpSdClient.Waiting RepetitionPhase i => RepetitionsMax cfg - i + 4
  | SomeIpSdClient.Waiting st _ => entering st
  | Ending _ next => S (entering next)
  end.

Lemma Transit_disposing st next s :
  disposing s → mCurrent s = st →
  let s' := snd (Transit cfg st next s) in
  disposing s' ∧ signalled s' ∧ (rank (worker s') <= entering next)%nat.
Proof.
  intros (H1 & H2 & H3 & H4) Hs. cbv zeta. rewrite Transit_spec by done. unfold disposing, signalled.
  destruct next; unfold Activate_, notify_offering, notify_stop_offering; run;
    try destruct (0 <? RepetitionsMax cfg)%nat; cbn; rewrite ?H3, ?andb_false_r; cbn; repeat split; try done; lia.
Qed.

Lemma worker_disposing b s :
  disposing s → home s → signalled s → worker s ≠ Idle →
  let s' := snd (worker_step cfg b s) in
  disposing s' ∧ signalled s' ∧ (rank (worker s') < rank (worker s))%nat.
Proof.
  intros Hd [Hw _] Hsig Hi. cbv zeta. pose proof Hd as (H1 & H2 & H3 & H4).
  assert (Ht : ∀ s' st next n, disposing s' → mCurrent s' = st → (entering next < n)%nat →
    disposing (snd (Transit cfg st next s')) ∧ signalled (snd (Transit cfg st next s')) ∧
    (rank (worker (snd (Transit cfg st next s'))) < n)%nat).
  { intros s' st next n Hs' Hc Hn. destruct (Transit_disposing st next s' Hs' Hc) as (? & ? & ?). split_and!; [done..|lia]. }
  unfold worker_step. run. destruct (worker s) as [|st|st i|st next] eqn:Ew; [done|..]; cbn [rank].
  - destruct Hw as (Hc & ? & ?). destruct st; try done; unfold check_step; run;
      unfold TtlTimer.expires_now, next_NotSeen, next_Seen, next_Ready, next_Stopped; rewrite H1, ?H2, ?orb_true_r;
      cbn [negb andb orb]; rewrite ?andb_false_r; cbn [negb andb]; (apply Ht; [done..|cbn; lia]).
  - unfold signalled in Hsig. rewrite Ew in Hsig.
    destruct st; unfold InitialWait_timer, Repetition_timer, sendFind; run;
      unfold TtlTimer.expired, next_NotSeen, next_Seen, next_Ready, next_Stopped;
      rewrite ?H1, ?H2, ?orb_true_r, ?Hsig; cbn [negb andb]; try (apply Ht; [done..|cbn; lia]).
    all: repeat match goal with |- context [if ?b then _ else _] => destruct b eqn:? end; rewrite ?Nat.ltb_lt in *;
      cbn; split_and!; try done; lia.
  - apply Ht; [done..|lia].
Qed.

(** Once disposed, the worker ends. *)
Lemma worker_ends outs s :
  disposing s → home s → signalled s → (rank (worker s) <= length outs)%nat → worker (run_worker cfg outs s) = Idle.
Proof.
  revert s. induction outs as [|b outs IH]; intros s Hd Hh Hs Hn.
  - cbn in Hn. cbn [run_worker foldl]. destruct (worker s) as [|[]|[]|]; cbn in Hn; try done; try lia.
  - rewrite run_worker_cons. assert (Hcase : worker s = Idle ∨ worker s ≠ Idle) by (destruct (worker s); auto).
    destruct Hcase as [Hi|Hi].
    + unfold worker_step. run. rewrite Hi. cbn [snd]. apply IH; [done..|]. rewrite Hi. cbn. lia.
    + destruct (worker_disposing b s Hd Hh Hs Hi) as (? & ? & ?). cbn [length] in Hn.
      apply IH; [done|by apply worker_home|done|lia].
Qed.

End Runs.

(** A call on a client that has been offered its service. *)
Lemma late_call cfg ttl d flag i es s :
  0 < ttl → mTtlTimer s = TtlTimer.mk true false flag ttl →
  worker s = SomeIpSdClient.Waiting ServiceReady i → mCurrent s = ServiceReady → mValidState s = true →
  waiting Offered s = NoCall →
  Forall (fun e => e = WorkerStep false ∨ ∃ t, e = CallStep Offered 0 t ∧ (0 <? d) && t = false) es →
  let s' := run_threads cfg ([CallStep Offered d false; CallStep Offered d false] ++ es) s in
  waiting Offered s' = Blocked d ∧
  (0 < d → waiting Offered (run_threads cfg [CallStep Offered d true; CallStep Offered d true] s') = Returned true).
Proof.
  intros Httl Ht Hw Hc Hv H0 Hes. cbv zeta. rewrite run_threads_app.
  assert (Hl : late ttl d (run_threads cfg [CallStep Offered d false; CallStep Offered d false] s)).
  { unfold waiting in H0. cbn. unfold TryWaitUntiServiceOffered. run. rewrite H0. cbn. rewrite Hv. cbn.
    split; cbn; eauto. }
  destruct (late_run cfg ttl d es _ Httl Hes Hl) as [_ _ Hc' Hv' Hb].
  set (s' := run_threads cfg es _) in *. clearbody s'. split; [done|]. intros Hd.
  unfold waiting in Hb. cbn. unfold TryWaitUntiServiceOffered. run. rewrite Hb. cbn.
  rewrite (proj2 (Z.ltb_lt _ _)) by done. cbn. by rewrite Hv', Hc'.
Qed.

(** Nobody offers the service, and a call is told that it is offered. *)
Lemma nobody_offers cfg signal s0 d outs :
  construct cfg signal = Ok s0 → length outs = (RepetitionsMax cfg + 5)%nat →
  let s := run_threads cfg ([CallStep Offered d false; CallStep Offered d false; StartClient] ++ map WorkerStep outs) s0 in
  TtlTimer.GetOffered (mTtlTimer s) = false ∧
  waiting Offered (run_threads cfg [CallStep Offered d false] s) = Returned true.
Proof.
  intros Hc Hlen. cbv zeta.
  assert (Hsplit : ∃ b1 b2 outs' b3 b4 b5, outs = b1 :: b2 :: outs' ++ [b3; b4; b5] ∧ length outs' = RepetitionsMax cfg).
  { destruct outs as [|b1 [|b2 outs]]; cbn in Hlen; [lia|lia|]. exists b1, b2, (take (RepetitionsMax cfg) outs).
    assert (Hd : length (drop (RepetitionsMax cfg) outs) = 3%nat) by (rewrite length_drop; lia).
    destruct (drop (RepetitionsMax cfg) outs) as [|b3 [|b4 [|b5 [|]]]] eqn:Eq; try done. exists b3, b4, b5.
    rewrite <- Eq, take_drop, length_take. split; [done|lia]. }
  destruct Hsplit as (b1 & b2 & outs' & b3 & b4 & b5 & -> & Hl).
  destruct (client_without_offers cfg signal s0 d b1 b2 outs' b3 b4 b5 Hc Hl) as (_ & Ho & Ht & _).
  assert (Hs : run_threads cfg [CallStep Offered d false; CallStep Offered d false; StartClient] s0 =
    snd (Start cfg (set_offering (Blocked d) s0))).
  { cbn. unfold TryWaitUntiServiceOffered. run. unfold construct in Hc. revert Hc.
    destruct (ServiceEntry.CreateFindServiceEntry _ _ _ _ _); [|done..]. by intros [= <-]. }
  rewrite run_threads_app, Hs, run_threads_worker. split; [exact Ho|exact (Ht d false)].
Qed.

(** ** Properties *)

(** C27: [TryWaitUntiServiceOffered] and [TryWaitUntiServiceOfferStopped] tell the truth, in the
    past tense: in every run of a client, whatever its worker, poller and callers do, a call that
    returns [true] ran while the client was in a state it waits for, although it need not be in
    it any more.  But only entering the state ends a wait: one that begins when the service is
    offered already lasts until its timeout, then with [true], or, where it has none, for as
    long as the offer is neither withdrawn nor expired, whatever the worker does.  And the state
    is not the offer: where no message ever comes, a client that is started goes through
    ServiceReady once its repetitions are over, and whoever waits is told [true]. *)
Theorem waits_tell_the_truth cfg :
  (∀ p signal s0 es b d t, construct cfg signal = Ok s0 →
    waiting p (run_threads cfg es s0) = Woken b →
    waiting p (run_threads cfg (es ++ [CallStep p d t]) s0) = Returned true →
    was_there cfg p s0 es) ∧
  (∀ ttl d flag i es s, 0 < ttl → mTtlTimer s = TtlTimer.mk true false flag ttl →
    worker s = SomeIpSdClient.Waiting ServiceReady i → mCurrent s = ServiceReady → mValidState s = true →
    waiting Offered s = NoCall →
    Forall (fun e => e = WorkerStep false ∨ ∃ t, e = CallStep Offered 0 t ∧ (0 <? d) && t = false) es →
    let s' := run_threads cfg ([CallStep Offered d false; CallStep Offered d false] ++ es) s in
    waiting Offered s' = Blocked d ∧
    (0 < d → waiting Offered (run_threads cfg [CallStep Offered d true; CallStep Offered d true] s') = Returned true)) ∧
  (∀ signal s0 d outs, construct cfg signal = Ok s0 → length outs = (RepetitionsMax cfg + 5)%nat →
    let s := run_threads cfg ([CallStep Offered d false; CallStep Offered d false; StartClient] ++ map WorkerStep outs) s0 in
    TtlTimer.GetOffered (mTtlTimer s) = false ∧
    waiting Offered (run_threads cfg [CallStep Offered d false] s) = Returned true).
Proof.
  split_and!.
  - intros p signal s0 es b d t Hc Hw Hr.
    assert (H0 : waiting p s0 = NoCall).
    { unfold construct in Hc. revert Hc. destruct (ServiceEntry.CreateFindServiceEntry _ _ _ _ _); [|done..].
      intros [= <-]. by destruct p. }
    rewrite run_threads_app in Hr. cbn [run_threads foldl] in Hr. rewrite (proj1 (call_spec cfg p d t _)), Hw in Hr.
    cbn in Hr. injection Hr as [Hv Hd]%andb_true_iff. destruct b; cbn in Hd.
    + apply was_there_now; [done|by rewrite Hw].
    + by eapply woken_was_there.
  - intros ttl d flag i es s. apply late_call.
  - intros signal s0 d outs Hc Hlen. by eapply nobody_offers.
Qed.

(** C28: the destructor ends and releases whoever waits: from any state that a client can get
    into, its worker needs at most seven steps more than there are repetitions to return, so
    that [Join] returns too, and every call that waits returns [false].  A call that has looked
    at the client before the destructor but waits only after the worker ended is lost: without
    a timeout it waits for ever.  (A signal of the timer is taken to wake the worker that waits
    for it.) *)
Theorem destruction_ends cfg signal s0 es outs :
  construct cfg signal = Ok s0 → (RepetitionsMax cfg + 7 <= length outs)%nat →
  let s := run_threads cfg es s0 in
  let s1 := run_threads cfg [Destroy] s in
  let s2 := run_worker cfg outs s1 in
  worker s2 = Idle ∧ fst (Join s2) = Ok true ∧
  (∀ p d d' t, waiting p s = Blocked d → waiting p (run_threads cfg [CallStep p d' t] s1) = Returned false) ∧
  (∀ p d ts, waiting p s2 = Entered d → d <= 0 →
    waiting p (run_threads cfg (CallStep p d false :: map (CallStep p d) ts) s2) = Blocked d).
Proof.
  intros Hc Hn. cbv zeta. set (s := run_threads cfg es s0).
  assert (Hh : home s).
  { apply run_home. unfold construct in Hc. revert Hc. destruct (ServiceEntry.CreateFindServiceEntry _ _ _ _ _); [|done..].
    by intros [= <-]. }
  clearbody s. set (s1 := run_threads cfg [Destroy] s). set (s2 := run_worker cfg outs s1).
  assert (Hw : worker s2 = Idle).
  { apply worker_ends; [done|by apply act_home| |].
    - unfold signalled. change (worker s1) with (worker s). by destruct (worker s) as [| |[]|].
    - transitivity (RepetitionsMax cfg + 7)%nat; [|done]. destruct (worker s1) as [|[]|[] |? []]; cbn; lia. }
  split_and!.
  - done.
  - unfold Join. run. destruct (Future s2); [|done]. by rewrite Hw.
  - intros p d d' t Hb. cbn [run_threads foldl]. rewrite (proj1 (call_spec cfg p d' t _)).
    replace (waiting p s1) with (Woken false); [done|]. destruct p; unfold s1, waiting in *; cbn [run_threads foldl act];
      rewrite destroy_spec; cbn; by rewrite Hb.
  - intros p d ts He Hd. rewrite run_threads_cons.
    assert (Hb : waiting p (snd (act cfg (CallStep p d false) s2)) = Blocked d)
      by (by rewrite (proj1 (call_spec cfg p d false _)), He).
    revert Hb. generalize (snd (act cfg (CallStep p d false) s2)). induction ts as [|t ts IH]; intros s3 Hb; [done|].
    cbn [map]. rewrite run_threads_cons. apply IH. rewrite (proj1 (call_spec cfg p d t _)), Hb. cbn.
    by rewrite (proj2 (Z.ltb_ge _ _)).
Qed.

(** A client without a server: the call is told of an offer that nobody made, while the client
    was in ServiceReady; and a call on a client that has been offered its service. *)
Definition demo_wait : list event :=
  [CallStep Offered 0 false; CallStep Offered 0 false; StartClient] ++ repeat (WorkerStep false) 7.

Lemma waits_tell_the_truth_witness :
  was_there example_client Offered example_client_start demo_wait ∧
  waiting Offered (run_threads example_client [CallStep Offered 5 false; CallStep Offered 5 false; WorkerStep false;
    CallStep Offered 5 true; CallStep Offered 5 true] example_ready) = Returned true ∧
  waiting Offered (run_threads example_client (demo_wait ++ [CallStep Offered 0 false]) example_client_start) = Returned true.
Proof.
  destruct (waits_tell_the_truth example_client) as (H1 & H2 & H3). split_and!.
  - exact (H1 Offered false example_client_start demo_wait false 0 false ltac:(by vm_compute) ltac:(by vm_compute) ltac:(by vm_compute)).
  - assert (H := H2 16777215 5 true 0%nat [WorkerStep false] example_ready). clear H1 H2.
    specialize (H ltac:(lia)). specialize (H ltac:(by vm_compute)). specialize (H ltac:(by vm_compute)).
    specialize (H ltac:(by vm_compute)). specialize (H ltac:(by vm_compute)).
    specialize (H ltac:(by vm_compute)).
    specialize (H ltac:(apply Forall_singleton; by left)). apply proj2 in H. specialize (H ltac:(lia)).
    rewrite <- run_threads_app in H. exact H.
  - rewrite run_threads_app. exact (proj2 (H3 false example_client_start 0 (repeat false 7) ltac:(by vm_compute) ltac:(done))).
Defined.

(** The client is destroyed while a call waits, and its worker returns. *)
Definition demo_destroying : list event :=
  [StartClient; CallStep Offered 0 false; CallStep Offered 0 false; WorkerStep false; Destroy].
Definition demo_destroyed : State := run_threads example_client demo_destroying example_client_start.

Lemma destruction_ends_witness :
  worker (run_worker example_client (repeat false 9) demo_destroyed) = Idle ∧
  waiting Offered (run_threads example_client [CallStep Offered 0 false] demo_destroyed) = Returned false.
Proof.
  assert (H := destruction_ends example_client false example_client_start
    [StartClient; CallStep Offered 0 false; CallStep Offered 0 false; WorkerStep false] (repeat false 9)
    ltac:(by vm_compute) ltac:(cbn; lia)).
  cbv zeta in H. rewrite <- run_threads_app in H. change (_ ++ [Destroy]) with demo_destroying in H.
  destruct H as (H1 & _ & H2 & _). split; [exact H1|]. apply (H2 Offered 0 0 false). vm_compute. reflexivity.
Defined.
