(* ===== verification/Monitor.v ===== *)
(** * Diagnostic monitors: ara/diag/debouncing, ara/diag/event.cpp, ara/diag/monitor.cpp

    A monitor debounces the reports of an application and writes the verdict into the
    event attached to it.  The two debouncers implement one interface, the class
    [Debouncer] with the laws the monitor relies on; the theorems on monitors are proved
    against it, the theorems on counting and timing for each debouncer. *)

From S2P Require Import Prelude.

(** [ara/diag/debouncing/debouncer.h:14-19] EventStatus *)
Inductive EventStatus := kPassed | kPending | kFailed.

#[export] Instance EventStatus_eq_dec : EqDecision EventStatus.
Proof. solve_decision. Defined.

(** [ara/diag/debouncing/debouncer.cpp:14-36] SetEventStatus, given and returning the
    member [mEventStatus]: the calls of the callback, when one is set *)
Definition SetEventStatus (hasCallback : bool) (mEventStatus status : EventStatus) : EventStatus * list bool :=
  if decide (mEventStatus = status) then (mEventStatus, [])
  else
    (status,
     if hasCallback then
       match status with kPassed => [true] | kFailed => [false] | kPending => [] end
     else []).

(** The reports a debouncer takes. *)
Inductive Report := Prepassed | Passed | Prefailed | Failed | Freeze | Reset.

(** [ara/diag/debouncing/debouncer.h:22-57] Debouncer: a report gives the new object and
    the calls of the callback.  The number is what the steady clock measures when a
    report interrupts a running timer; [tick] is what the debouncer does by itself, its
    timer expiring ([None]) or being woken early.  A callback is called exactly when the status
    becomes passed or failed, and the final reports decide the status. *)
Class Debouncer (D : Type) := {
  mEventStatus : D → EventStatus;
  report : Z → Report → D → D * list bool;
  tick : option Z → D → D * list bool;
  report_callback m r d :
    snd (report m r d) = snd (SetEventStatus true (mEventStatus d) (mEventStatus (fst (report m r d))));
  tick_callback m d :
    snd (tick m d) = snd (SetEventStatus true (mEventStatus d) (mEventStatus (fst (tick m d))));
  report_final m d :
    mEventStatus (fst (report m Passed d)) = kPassed ∧ mEventStatus (fst (report m Failed d)) = kFailed ∧
    mEventStatus (fst (report m Reset d)) = kPending
}.

Module CounterBasedDebouncer.

(** [ara/diag/debouncing/counter_based_debouncer.h:13-31] CounterBased *)
Record CounterBased := mkConfig {
  failedThreshold : Z;
  passedThreshold : Z;
  failedStepsize : Z;
  passedStepsize : Z;
  failedJumpValue : Z;
  passedJumpValue : Z;
  useJumpToFailed : bool;
  useJumpToPassed : bool
}.

(** [ara/diag/debouncing/counter_based_debouncer.h:35-39] CounterBasedDebouncer *)
Record t := mk { status : EventStatus; mFdc : Z }.

(** [ara/diag/debouncing/counter_based_debouncer.cpp:9-15] CounterBasedDebouncer *)
Definition construct : t := mk kPending 0.

Definition finally (fdc : Z) (s : EventStatus) (d : t) : t * list bool :=
  let '(s, calls) := SetEventStatus true (status d) s in (mk s fdc, calls).

(** [ara/diag/debouncing/counter_based_debouncer.cpp:17-32] ReportPrepassed: the
    comparison is made in [int], the assignment converts to [int16_t] *)
Definition ReportPrepassed (c : CounterBased) (d : t) : t * list bool :=
  if mFdc d - passedStepsize c <=? passedThreshold c then finally (passedThreshold c) kPassed d
  else if useJumpToPassed c && (passedJumpValue c <? mFdc d) then (mk (status d) (passedJumpValue c), [])
  else (mk (status d) (i16 (mFdc d - passedStepsize c)), []).

(** [ara/diag/debouncing/counter_based_debouncer.cpp:34-38] ReportPassed *)
Definition ReportPassed (c : CounterBased) (d : t) : t * list bool := finally (passedThreshold c) kPassed d.

(** [ara/diag/debouncing/counter_based_debouncer.cpp:40-55] ReportPrefailed *)
Definition ReportPrefailed (c : CounterBased) (d : t) : t * list bool :=
  if failedThreshold c <=? mFdc d + failedStepsize c then finally (failedThreshold c) kFailed d
  else if useJumpToFailed c && (mFdc d <? failedJumpValue c) then (mk (status d) (failedJumpValue c), [])
  else (mk (status d) (i16 (mFdc d + failedStepsize c)), []).

(** [ara/diag/debouncing/counter_based_debouncer.cpp:57-61] ReportFailed *)
Definition ReportFailed (c : CounterBased) (d : t) : t * list bool := finally (failedThreshold c) kFailed d.

(** [ara/diag/debouncing/counter_based_debouncer.cpp:63-72] Freeze and Reset *)
Definition Reset_ (d : t) : t * list bool := finally 0 kPending d.
Definition Freeze_ (d : t) : t * list bool := Reset_ d.

Definition report_ (c : CounterBased) (r : Report) (d : t) : t * list bool :=
  match r with
  | Prepassed => ReportPrepassed c d
  | Passed => ReportPassed c d
  | Prefailed => ReportPrefailed c d
  | Failed => ReportFailed c d
  | Freeze => Freeze_ d
  | Reset => Reset_ d
  end.

Lemma SetEventStatus_same s : SetEventStatus true s s = (s, []).
Proof. unfold SetEventStatus. by rewrite decide_True. Qed.

Lemma finally_spec fdc s d :
  finally fdc s d = (mk s fdc, snd (SetEventStatus true (status d) s)).
Proof. unfold finally, SetEventStatus. case_decide as H; [by rewrite H|done]. Qed.

#[export, refine] Instance CounterDebouncer (c : CounterBased) : Debouncer t := {|
  mEventStatus := status;
  report := fun _ => report_ c;
  tick := fun _ d => (d, [])
|}.
Proof.
  - intros _ [] d; cbn [report_]; unfold ReportPrepassed, ReportPassed, ReportPrefailed, ReportFailed,
      Freeze_, Reset_; repeat case_match; rewrite ?finally_spec; cbn [fst snd status]; by rewrite ?SetEventStatus_same.
  - intros _ d. cbn [fst snd]. by rewrite SetEventStatus_same.
  - intros _ d. cbn [report_]. unfold ReportPassed, ReportFailed, Reset_. by rewrite !finally_spec.
Defined.

(** Parameters that make sense: thresholds on both sides of zero, jumps between them. *)
Definition wf (c : CounterBased) : Prop :=
  is_i16 (failedThreshold c) ∧ is_i16 (passedThreshold c) ∧
  is_u16 (failedStepsize c) ∧ is_u16 (passedStepsize c) ∧
  passedThreshold c < 0 < failedThreshold c ∧
  passedThreshold c < failedJumpValue c < failedThreshold c ∧
  passedThreshold c < passedJumpValue c < failedThreshold c.

(** The counter stays within the thresholds and reaches one only with its verdict. *)
Definition inv (c : CounterBased) (d : t) : Prop :=
  passedThreshold c <= mFdc d <= failedThreshold c ∧
  (mFdc d = passedThreshold c → status d = kPassed) ∧
  (mFdc d = failedThreshold c → status d = kFailed).

Lemma i16_id z : is_i16 z → i16 z = z.
Proof. ulia. Qed.

Lemma report_inv c r d : wf c → inv c d → inv c (fst (report_ c r d)).
Proof.
  intros (Hf & Hp & Hsf & Hsp & Hz & Hjf & Hjp) (Hb & H1 & H2). unfold inv.
  destruct r; cbn [report_]; unfold ReportPrepassed, ReportPassed, ReportPrefailed, ReportFailed,
      Freeze_, Reset_;
    repeat match goal with |- context [if ?b then _ else _] => destruct b eqn:? end;
    rewrite ?finally_spec; cbn [fst status mFdc];
    rewrite ?andb_true_iff, ?andb_false_iff, ?Z.leb_le, ?Z.leb_gt, ?Z.ltb_lt, ?Z.ltb_ge in *;
    rewrite ?i16_id by (unfold is_i16, is_u16 in *; lia);
    (split; [unfold is_u16 in *; lia|]); split; intros ?; try done; try (unfold is_u16 in *; lia).
  - apply H2. unfold is_u16 in *. lia.
  - apply H1. unfold is_u16 in *. lia.
Qed.

(** The verdict of a run of equal reports. *)
Definition repeat_report (c : CounterBased) (r : Report) (n : nat) (d : t) : t * list bool :=
  Nat.iter n (fun '(d, calls) => let '(d, more) := report_ c r d in (d, calls ++ more)) (d, []).

Lemma repeat_report_S c r n d :
  repeat_report c r (S n) d =
    (let '(d', calls) := repeat_report c r n d in
     let '(d'', more) := report_ c r d' in (d'', calls ++ more)).
Proof. done. Qed.

Lemma prefailed_run c n :
  wf c → useJumpToFailed c = false →
  let k := Z.of_nat n * failedStepsize c in
  repeat_report c Prefailed n construct =
    if decide (failedThreshold c <= k) then (mk kFailed (failedThreshold c), [false]) else (mk kPending k, []).
Proof.
  intros (Hf & Hp & Hsf & Hsp & Hz & Hjf & Hjp) Hj. cbv zeta. unfold is_i16, is_u16 in *.
  induction n as [|n IH].
  { rewrite decide_False by lia. done. }
  rewrite repeat_report_S, IH. cbn [report_]. unfold ReportPrefailed. rewrite Hj. cbn [andb].
  repeat case_decide; cbn [mFdc status]; rewrite ?finally_spec; cbn [status].
  - rewrite (proj2 (Z.leb_le _ _)) by lia. by rewrite SetEventStatus_same.
  - nia.
  - rewrite (proj2 (Z.leb_le _ _)) by lia. done.
  - rewrite (proj2 (Z.leb_gt _ _)) by nia. rewrite i16_id by (unfold is_i16; nia). do 2 f_equal. lia.
Qed.

Lemma prepassed_run c n :
  wf c → useJumpToPassed c = false →
  let k := Z.of_nat n * passedStepsize c in
  repeat_report c Prepassed n construct =
    if decide (- k <= passedThreshold c) then (mk kPassed (passedThreshold c), [true]) else (mk kPending (- k), []).
Proof.
  intros (Hf & Hp & Hsf & Hsp & Hz & Hjf & Hjp) Hj. cbv zeta. unfold is_i16, is_u16 in *.
  induction n as [|n IH].
  { rewrite decide_False by lia. done. }
  rewrite repeat_report_S, IH. cbn [report_]. unfold ReportPrepassed. rewrite Hj. cbn [andb].
  repeat case_decide; cbn [mFdc status]; rewrite ?finally_spec; cbn [status].
  - rewrite (proj2 (Z.leb_le _ _)) by lia. by rewrite SetEventStatus_same.
  - nia.
  - rewrite (proj2 (Z.leb_le _ _)) by lia. done.
  - rewrite (proj2 (Z.leb_gt _ _)) by nia. rewrite i16_id by (unfold is_i16; nia). do 2 f_equal. lia.
Qed.

End CounterBasedDebouncer.

Module TimerBasedDebouncer.

(** [ara/diag/debouncing/timer_based_debouncer.h:15-22] TimeBased *)
Record TimeBased := mkConfig { passedMs : Z; failedMs : Z }.

(** The timer's thread: not started or joined, waiting with the mutex lock owned, or
    returned and joinable. *)
Inductive Thread := NotStarted | Ticking (duration : Z) (passing : bool) | Returned.

(** [ara/diag/debouncing/timer_based_debouncer.h:26-36] TimerBasedDebouncer *)
Record t := mk {
  status : EventStatus;
  mElapsedMs : Z;
  mIsPassing : bool;
  mThread : Thread
}.

(** [ara/diag/debouncing/timer_based_debouncer.cpp:11-18] TimerBasedDebouncer: the
    constructor leaves [mIsPassing] uninitialised *)
Definition construct (isPassing : bool) : t := mk kPending 0 isPassing NotStarted.

(** [ara/diag/debouncing/timer_based_debouncer.cpp:20-50] tick, from the end of its
    wait: by timeout, or notified after the measured time *)
Definition tick_end (c : TimeBased) (notified : option Z) (d : t) : t * list bool :=
  match mThread d with
  | Ticking _ passing =>
      match notified with
      | None =>
          let '(s, calls) := SetEventStatus true (status d) (if passing then kPassed else kFailed) in
          (mk s (if passing then passedMs c else failedMs c) (mIsPassing d) Returned, calls)
      | Some measured => (mk (status d) (u32 measured) (mIsPassing d) Returned, [])
      end
  | _ => (d, [])
  end.

(** [ara/diag/debouncing/timer_based_debouncer.cpp:115-122] Freeze: a waiting thread is
    notified, and joined *)
Definition Freeze_ (c : TimeBased) (measured : Z) (d : t) : t * list bool :=
  match mThread d with
  | NotStarted => (d, [])
  | _ =>
      let '(d, calls) := tick_end c (Some measured) d in
      (mk (status d) (mElapsedMs d) (mIsPassing d) NotStarted, calls)
  end.

(** [ara/diag/debouncing/timer_based_debouncer.cpp:51-73] start *)
Definition start (threshold : Z) (d : t) : t :=
  let duration := u32 (threshold - mElapsedMs d) in
  match mThread d with
  | Ticking _ _ => d
  | _ => if 0 <? duration then mk (status d) (mElapsedMs d) (mIsPassing d) (Ticking duration (mIsPassing d)) else d
  end.

(** The direction changes: the timer is stopped and counts from zero. *)
Definition turn (c : TimeBased) (measured : Z) (passing : bool) (d : t) : t * list bool :=
  let '(d, calls) := Freeze_ c measured d in (mk (status d) 0 passing (mThread d), calls).

(** [ara/diag/debouncing/timer_based_debouncer.cpp:75-85] ReportPrepassed *)
Definition ReportPrepassed (c : TimeBased) (measured : Z) (d : t) : t * list bool :=
  let '(d, calls) := if mIsPassing d then (d, []) else turn c measured true d in
  (start (passedMs c) d, calls).

(** [ara/diag/debouncing/timer_based_debouncer.cpp:95-105] ReportPrefailed *)
Definition ReportPrefailed (c : TimeBased) (measured : Z) (d : t) : t * list bool :=
  let '(d, calls) := if mIsPassing d then turn c measured false d else (d, []) in
  (start (failedMs c) d, calls).

(** [ara/diag/debouncing/timer_based_debouncer.cpp:87-93] ReportPassed *)
Definition ReportPassed (c : TimeBased) (measured : Z) (d : t) : t * list bool :=
  let '(d, calls) := Freeze_ c measured d in
  let '(s, more) := SetEventStatus true (status d) kPassed in
  (mk s (passedMs c) true (mThread d), calls ++ more).

(** [ara/diag/debouncing/timer_based_debouncer.cpp:107-113] ReportFailed *)
Definition ReportFailed (c : TimeBased) (measured : Z) (d : t) : t * list bool :=
  let '(d, calls) := Freeze_ c measured d in
  let '(s, more) := SetEventStatus true (status d) kFailed in
  (mk s (failedMs c) false (mThread d), calls ++ more).

(** [ara/diag/debouncing/timer_based_debouncer.cpp:124-129] Reset *)
Definition Reset_ (c : TimeBased) (measured : Z) (d : t) : t * list bool :=
  let '(d, calls) := Freeze_ c measured d in
  let '(s, more) := SetEventStatus true (status d) kPending in
  (mk s 0 (mIsPassing d) (mThread d), calls ++ more).

Definition report_ (c : TimeBased) (measured : Z) (r : Report) (d : t) : t * list bool :=
  match r with
  | Prepassed => ReportPrepassed c measured d
  | Passed => ReportPassed c measured d
  | Prefailed => ReportPrefailed c measured d
  | Failed => ReportFailed c measured d
  | Freeze => Freeze_ c measured d
  | Reset => Reset_ c measured d
  end.

(** Interrupting a timer gives no verdict. *)
Lemma Freeze_quiet c m d :
  snd (Freeze_ c m d) = [] ∧ status (fst (Freeze_ c m d)) = status d ∧
  mThread (fst (Freeze_ c m d)) = NotStarted ∧ mIsPassing (fst (Freeze_ c m d)) = mIsPassing d.
Proof. unfold Freeze_, tick_end. by destruct d as [? ? ? []]. Qed.

Lemma turn_quiet c m b d : snd (turn c m b d) = [] ∧ status (fst (turn c m b d)) = status d.
Proof.
  unfold turn. destruct (Freeze_quiet c m d) as (H1 & H2 & _).
  by destruct (Freeze_ c m d); cbn [fst snd status] in *; subst.
Qed.

Lemma start_status n d : status (start n d) = status d.
Proof. unfold start. by destruct (mThread d); repeat case_match. Qed.

Lemma SetEventStatus_fst b s s' : fst (SetEventStatus b s s') = s'.
Proof. unfold SetEventStatus. by case_decide. Qed.

Lemma final_spec c m s e p d :
  let '(d1, calls) := Freeze_ c m d in
  let '(s1, more) := SetEventStatus true (status d1) s in
  ((mk s1 e p (mThread d1), calls ++ more) : t * list bool) =
    (mk s e p NotStarted, snd (SetEventStatus true (status d) s)).
Proof.
  destruct (Freeze_quiet c m d) as (H1 & H2 & H3 & _). destruct (Freeze_ c m d) as [d1 calls]. cbn [fst snd] in *.
  subst calls. rewrite H2, H3. pose proof (SetEventStatus_fst true (status d) s).
  destruct (SetEventStatus true (status d) s) as [s1 more]. cbn in *. by subst.
Qed.

Lemma ReportPassed_spec c m d :
  ReportPassed c m d = (mk kPassed (passedMs c) true NotStarted, snd (SetEventStatus true (status d) kPassed)).
Proof. pose proof (final_spec c m kPassed (passedMs c) true d). unfold ReportPassed. by repeat case_match. Qed.

Lemma ReportFailed_spec c m d :
  ReportFailed c m d = (mk kFailed (failedMs c) false NotStarted, snd (SetEventStatus true (status d) kFailed)).
Proof. pose proof (final_spec c m kFailed (failedMs c) false d). unfold ReportFailed. by repeat case_match. Qed.

Lemma Reset_spec c m d :
  Reset_ c m d = (mk kPending 0 (mIsPassing d) NotStarted, snd (SetEventStatus true (status d) kPending)).
Proof.
  pose proof (final_spec c m kPending 0 (mIsPassing d) d). pose proof (Freeze_quiet c m d) as (_ & _ & _ & Hp).
  unfold Reset_. destruct (Freeze_ c m d) as [d1 calls]. cbn [fst] in Hp.
  destruct (SetEventStatus true (status d1) kPending). by rewrite Hp.
Qed.

#[export, refine] Instance TimerDebouncer (c : TimeBased) : Debouncer t := {|
  mEventStatus := status;
  report := report_ c;
  tick := tick_end c
|}.
Proof.
  - intros m [] d; cbn [report_]; rewrite ?ReportPassed_spec, ?ReportFailed_spec, ?Reset_spec; try done.
    + unfold ReportPrepassed. destruct (turn_quiet c m true d) as [H1 H2].
      destruct (mIsPassing d); [|destruct (turn c m true d) as [d1 calls]]; cbn [fst snd] in *;
        rewrite start_status, ?H1, ?H2; by rewrite CounterBasedDebouncer.SetEventStatus_same.
    + unfold ReportPrefailed. destruct (turn_quiet c m false d) as [H1 H2].
      destruct (mIsPassing d); [destruct (turn c m false d) as [d1 calls]|]; cbn [fst snd] in *;
        rewrite start_status, ?H1, ?H2; by rewrite CounterBasedDebouncer.SetEventStatus_same.
    + destruct (Freeze_quiet c m d) as (-> & -> & _). by rewrite CounterBasedDebouncer.SetEventStatus_same.
  - intros m d. unfold tick_end. destruct (mThread d) as [|n p|], m; cbn [fst snd status];
      try by rewrite CounterBasedDebouncer.SetEventStatus_same.
    pose proof (SetEventStatus_fst true (status d) (if p then kPassed else kFailed)) as H.
    destruct (SetEventStatus true (status d) (if p then kPassed else kFailed)) eqn:E. cbn in *. subst. by rewrite E.
  - intros m d. cbn [report_]. by rewrite ReportPassed_spec, ReportFailed_spec, Reset_spec.
Defined.

(** A failing phase run by run: each run is started by a report and interrupted after
    [m] milliseconds by a freeze. *)
Definition interrupted_run (c : TimeBased) (m : Z) (d : t) : t :=
  fst (Freeze_ c m (fst (ReportPrefailed c 0 d))).

End TimerBasedDebouncer.

(** [ara/diag/event.h:26-31] EventStatusBit, an enumeration class over [uint8_t] *)
Definition EventStatusBit := Z.
Definition kTestFailed : EventStatusBit := 0.
Definition kTestFailedThisOperationCycle : EventStatusBit := 1.
Definition kTestNotCompletedThisOperationCycle : EventStatusBit := 2.

(** [ara/diag/event.h:17-22] DTCFormatType *)
Inductive DTCFormatType := kDTCFormatOBD | kDTCFormatUDS | kDTCFormatJ1939.

(** [ara/diag/event.h:41-48] DebouncingState *)
Inductive DebouncingState :=
  kNeutral | kTemporarilyDefective | kFinallyDefective | kTemporarilyHealed | kFinallyHealed.

Module Event.

(** [ara/diag/event.h:53-63] Event; [mNotified] is what the notifier, when set, was
    called with *)
Record t := mk {
  mEventStatus : Z;
  mNotifier : bool;
  mWirStatus : bool;
  mDtcNumber : Z;
  mFdc : Z;
  mNotified : list Z
}.

(** [ara/diag/event.cpp:11-17] Event::Event *)
Definition construct : t := mk 2 false false 0 0 [].

(** [ara/diag/event.cpp:39-55] the position of a bit in the status byte *)
Definition bit_position (bit : EventStatusBit) : outcome Z :=
  if bit =? kTestFailed then Ok 7
  else if bit =? kTestFailedThisOperationCycle then Ok 6
  else if bit =? kTestNotCompletedThisOperationCycle then Ok 1
  else Throw std_out_of_range.

Fixpoint set_bits (statusBits : list (EventStatusBit * bool)) (bits : Z) : outcome Z :=
  match statusBits with
  | [] => mret bits
  | (bit, value) :: statusBits =>
      position ← bit_position bit;
      set_bits statusBits (if value then Z.setbit bits position else Z.clearbit bits position)
  end.

(** [ara/diag/event.cpp:25-74] SetEventStatusBits; the map is its bindings in the order
    of the keys *)
Definition SetEventStatusBits (statusBits : list (EventStatusBit * bool)) : M t () :=
  match statusBits with
  | [] => mret ()
  | _ =>
      e ← get;
      bits ← lift (set_bits statusBits (mEventStatus e));
      let encodedBits := u8 bits in
      if encodedBits =? mEventStatus e then mret ()
      else modify (fun e => mk encodedBits (mNotifier e) (mWirStatus e) (mDtcNumber e) (mFdc e)
                              (if mNotifier e then mNotified e ++ [encodedBits] else mNotified e))
  end.

(** [ara/diag/event.cpp:76-82] SetEventStatusChangedNotifier *)
Definition SetEventStatusChangedNotifier (notifier : bool) (e : t) : t :=
  mk (mEventStatus e) notifier (mWirStatus e) (mDtcNumber e) (mFdc e) (mNotified e).

(** [ara/diag/event.cpp:90-95] SetLatchedWIRStatus *)
Definition SetLatchedWIRStatus (status : bool) (e : t) : t :=
  mk (mEventStatus e) (mNotifier e) status (mDtcNumber e) (mFdc e) (mNotified e).

(** [ara/diag/event.cpp:97-109] GetDTCNumber *)
Definition GetDTCNumber (dtcFormat : DTCFormatType) (e : t) : outcome Z :=
  match dtcFormat with kDTCFormatUDS => Ok (mDtcNumber e) | _ => Throw std_invalid_argument end.

(** [ara/diag/event.cpp:111-114] SetDTCNumber *)
Definition SetDTCNumber (dtcNumber : Z) (e : t) : t :=
  mk (mEventStatus e) (mNotifier e) (mWirStatus e) dtcNumber (mFdc e) (mNotified e).

(** [ara/diag/event.cpp:116-143] GetDebouncingStatus *)
Definition GetDebouncingStatus (e : t) : DebouncingState :=
  if mFdc e =? 127 then kFinallyDefective
  else if 0 <? mFdc e then kTemporarilyDefective
  else if mFdc e =? -128 then kFinallyHealed
  else if mFdc e <? 0 then kTemporarilyHealed
  else kNeutral.

(** [ara/diag/event.cpp:145-153] GetTestComplete *)
Definition GetTestComplete (e : t) : bool := (mFdc e =? -128) || (mFdc e =? 127).

(** [ara/diag/event.cpp:161-164] SetFaultDetectionCounter *)
Definition SetFaultDetectionCounter (fdc : Z) (e : t) : t :=
  mk (mEventStatus e) (mNotifier e) (mWirStatus e) (mDtcNumber e) fdc (mNotified e).

End Event.

(** [ara/diag/monitor.h:18-24] InitMonitorReason *)
Inductive InitMonitorReason := kClear | kRestart | kReenabled | kDisabled.

(** [ara/diag/monitor.h:27-37] MonitorAction *)
Inductive MonitorAction :=
  | MA_kPassed | MA_kFailed | MA_kPrepassed | MA_kPrefailed | MA_kFdcThresholdReached
  | MA_kResetTestFailed | MA_kFreezeDebouncing | MA_kResetDebouncing.

Module Monitor.
Section Monitor.
Context {D : Type} `{!Debouncer D}.

(** [ara/diag/monitor.h:41-48] Monitor; [mInitMonitor] tells whether the callback is
    set, [mInited] what it was called with *)
Record t := mk {
  mInitMonitor : bool;
  mInited : list InitMonitorReason;
  mOffered : bool;
  mDebouncer : D;
  mEvent : option Event.t
}.

(** [ara/diag/monitor.cpp:10-17] Monitor::Monitor *)
Definition construct (initMonitor : bool) (debouncer : D) : t := mk initMonitor [] false debouncer None.

Definition set_debouncer (d : D) (s : t) : t := mk (mInitMonitor s) (mInited s) (mOffered s) d (mEvent s).
Definition set_event (e : option Event.t) (s : t) : t :=
  mk (mInitMonitor s) (mInited s) (mOffered s) (mDebouncer s) e.

(** A call of a method of the attached event. *)
Definition on_event (m : M Event.t ()) : M t () := fun s =>
  match mEvent s with
  | Some e => let '(r, e) := m e in (r, set_event (Some e) s)
  | None => (Ok (), s)
  end.

(** [ara/diag/monitor.cpp:19-32] onEventStatusChanged *)
Definition onEventStatusChanged (passed : bool) : M t () :=
  on_event (
    modify (Event.SetFaultDetectionCounter (if passed then -128 else 127));;
    Event.SetEventStatusBits [(kTestFailed, negb passed); (kTestNotCompletedThisOperationCycle, false)]).

Fixpoint callbacks (calls : list bool) : M t () :=
  match calls with
  | [] => mret ()
  | passed :: calls => onEventStatusChanged passed;; callbacks calls
  end.

(** A report to the debouncer with the callbacks it makes. *)
Definition debounce (measured : Z) (r : Report) : M t () :=
  s ← get;
  let '(d, calls) := report measured r (mDebouncer s) in
  modify (set_debouncer d);; callbacks calls.

(** [ara/diag/monitor.cpp:60-101] ReportMonitorAction *)
Definition ReportMonitorAction (measured : Z) (action : MonitorAction) : M t () :=
  s ← get;
  if mOffered s then
    match action with
    | MA_kPassed => debounce measured Passed
    | MA_kFailed => debounce measured Failed
    | MA_kPrepassed => debounce measured Prepassed
    | MA_kPrefailed => debounce measured Prefailed
    | MA_kFreezeDebouncing => debounce measured Freeze
    | MA_kResetDebouncing => debounce measured Reset
    | MA_kResetTestFailed => on_event (Event.SetEventStatusBits [(kTestFailed, false)])
    | MA_kFdcThresholdReached => raise std_invalid_argument
    end
  else mret ().

(** [ara/diag/monitor.cpp:103-106] AttachEvent *)
Definition AttachEvent (e : Event.t) (s : t) : t := set_event (Some e) s.

Definition init (reason : InitMonitorReason) (s : t) : t :=
  mk (mInitMonitor s) (if mInitMonitor s then mInited s ++ [reason] else mInited s) (mOffered s)
     (mDebouncer s) (mEvent s).
Definition set_offered (b : bool) (s : t) : t := mk (mInitMonitor s) (mInited s) b (mDebouncer s) (mEvent s).

(** [ara/diag/monitor.cpp:108-130] Offer: whether it succeeds (kAlreadyOffered otherwise) *)
Definition Offer : M t bool :=
  s ← get;
  if mOffered s then mret false
  else modify (set_offered true);; modify (init kReenabled);; mret true.

(** [ara/diag/monitor.cpp:132-143] StopOffer *)
Definition StopOffer : M t () :=
  s ← get;
  if mOffered s then modify (set_offered false);; modify (init kDisabled) else mret ().

End Monitor.
Arguments t D : clear implicits.
End Monitor.

(** ** Lemmas *)
Section Monitor_facts.
Context {D : Type} `{!Debouncer D}.
Import Monitor.

(** What may happen to a monitor: the application's actions, offering and not, and its
    debouncer's timer. *)
Inductive step :=
  | Act (measured : Z) (action : MonitorAction)
  | DoOffer
  | DoStopOffer
  | Tick (notified : option Z).

Definition do_step (x : step) : M (Monitor.t D) () :=
  match x with
  | Act measured action => ReportMonitorAction measured action
  | DoOffer => Offer;; mret ()
  | DoStopOffer => StopOffer
  | Tick n =>
      s ← get;
      let '(d, calls) := tick n (mDebouncer s) in modify (set_debouncer d);; callbacks calls
  end.

Definition run_steps (xs : list step) (s : Monitor.t D) : Monitor.t D :=
  foldl (fun s x => snd (do_step x s)) s xs.

(** The event of a debouncer's verdicts: untouched, failed (perhaps reset) or passed. *)
Definition event_ok (st : EventStatus) (e : Event.t) : Prop :=
  (Event.mFdc e = 0 ∧ Event.mEventStatus e = 2 ∧ st = kPending ∨
   Event.mFdc e = 127 ∧ (Event.mEventStatus e = 128 ∨ Event.mEventStatus e = 0) ∧ st ≠ kPassed ∨
   Event.mFdc e = -128 ∧ Event.mEventStatus e = 0 ∧ st ≠ kFailed).

Definition ok (s : Monitor.t D) : Prop :=
  ∃ e, mEvent s = Some e ∧ event_ok (mEventStatus (mDebouncer s)) e.

Definition verdict_byte (passed : bool) : Z := if passed then 0 else 128.

(** The effect of the callback on an event a debouncer has written. *)
Lemma verdict st passed e (s : Monitor.t D) :
  mEvent s = Some e → event_ok st e →
  fst (onEventStatusChanged passed s) = Ok () ∧
  mDebouncer (snd (onEventStatusChanged passed s)) = mDebouncer s ∧
  mOffered (snd (onEventStatusChanged passed s)) = mOffered s ∧
  ∃ e', mEvent (snd (onEventStatusChanged passed s)) = Some e' ∧
    Event.mFdc e' = (if passed then -128 else 127) ∧ Event.mEventStatus e' = verdict_byte passed.
Proof.
  intros He Hok. unfold onEventStatusChanged, on_event. rewrite He.
  destruct e as [b n w dtc fdc l]. unfold event_ok in Hok. cbn in Hok.
  assert (Hb : b = 2 ∨ b = 128 ∨ b = 0) by intuition lia. clear Hok He.
  destruct Hb as [->|[->| ->]], passed; cbn; split_and!; try done; by eexists.
Qed.

Lemma report_ok (s : Monitor.t D) (d : D) calls :
  ok s → calls = snd (SetEventStatus true (mEventStatus (mDebouncer s)) (mEventStatus d)) →
  ok (snd (callbacks calls (set_debouncer d s))) ∧
  mDebouncer (snd (callbacks calls (set_debouncer d s))) = d ∧
  mOffered (snd (callbacks calls (set_debouncer d s))) = mOffered s ∧
  fst (callbacks calls (set_debouncer d s)) = Ok ().
Proof.
  intros (e & He & Hok) ->. unfold SetEventStatus. case_decide as Heq.
  { cbn. split; [|done]. exists e. split; [done|]. cbn. by rewrite <- Heq. }
  cbn [snd]. destruct (mEventStatus d) eqn:Ed; cbn [callbacks].
  - destruct (verdict _ true e (set_debouncer d s) He Hok) as (H1 & H2 & H3 & e' & H4 & H5 & H6).
    run. destruct (onEventStatusChanged true _) as [[] s']; try done. cbn [fst snd] in *.
    split_and!; try done. exists e'. rewrite H2. cbn. rewrite Ed. split; [done|]. unfold event_ok. rewrite H5, H6. intuition done.
  - cbn. split; [|done]. exists e. split; [done|]. cbn. rewrite Ed. unfold event_ok in *. intuition congruence.
  - destruct (verdict _ false e (set_debouncer d s) He Hok) as (H1 & H2 & H3 & e' & H4 & H5 & H6).
    run. destruct (onEventStatusChanged false _) as [[] s']; try done. cbn [fst snd] in *.
    split_and!; try done. exists e'. rewrite H2. cbn. rewrite Ed. split; [done|]. unfold event_ok. rewrite H5, H6. intuition done.
Qed.

Lemma debounce_ok m r (s : Monitor.t D) :
  ok s → ok (snd (debounce m r s)) ∧ mDebouncer (snd (debounce m r s)) = fst (report m r (mDebouncer s)) ∧
  mOffered (snd (debounce m r s)) = mOffered s ∧ fst (debounce m r s) = Ok ().
Proof.
  intros Hok. unfold debounce. run. pose proof (report_callback m r (mDebouncer s)) as H.
  destruct (report m r (mDebouncer s)) as [d calls]. cbn [fst snd] in *. by apply report_ok.
Qed.

Lemma step_ok x s : ok s → ok (snd (do_step x s)).
Proof.
  intros Hok. destruct x as [m a| | |n]; cbn [do_step].
  - unfold ReportMonitorAction. run. destruct (mOffered s); [|done].
    destruct a; try exact (proj1 (debounce_ok _ _ _ Hok)); [done|].
    destruct Hok as (e & He & Hok). unfold on_event. rewrite He. destruct e as [b nf w dtc fdc l].
    unfold event_ok in Hok. cbn in Hok.
    assert (Hb : b = 2 ∨ b = 128 ∨ b = 0) by intuition lia.
    destruct Hb as [->|[->| ->]]; cbn; eexists; (split; [done|]); unfold event_ok; cbn; intuition lia.
  - unfold Offer. run. by destruct (mOffered s).
  - unfold StopOffer. run. by destruct (mOffered s).
  - run. pose proof (tick_callback n (mDebouncer s)) as H.
    destruct (tick n (mDebouncer s)) as [d calls]. cbn [fst snd] in *. by apply report_ok.
Qed.

Lemma steps_ok xs s : ok s → ok (run_steps xs s).
Proof. revert s. induction xs as [|x xs IH]; intros s Hs; [done|]. by apply IH, step_ok. Qed.

(** A final report the debouncer already agrees with changes nothing of the event. *)
Lemma report_agreed m r (s : Monitor.t D) :
  mOffered s = true → mEventStatus (fst (report m r (mDebouncer s))) = mEventStatus (mDebouncer s) →
  mEvent (snd (debounce m r s)) = mEvent s.
Proof.
  intros Ho H. unfold debounce. run. pose proof (report_callback m r (mDebouncer s)) as Hc.
  destruct (report m r (mDebouncer s)) as [d calls]. cbn [fst snd] in *.
  rewrite H, CounterBasedDebouncer.SetEventStatus_same in Hc. cbn in Hc. by subst.
Qed.

End Monitor_facts.

(** ** Properties *)

(** A monitor with a fresh event attached and a debouncer that has given no verdict. *)
Definition attached {D} `{!Debouncer D} (initMonitor : bool) (d : D) : Monitor.t D :=
  Monitor.AttachEvent Event.construct (Monitor.construct initMonitor d).

(** C38: with any debouncer, through any sequence of actions, offers and timer expiries,
    the event only ever shows a settled state: neutral until the first verdict, then
    finally defective or finally healed.  The test counts as complete exactly when the
    not-completed bit of the status byte is clear, a set test-failed bit means finally
    defective, and the event never contradicts the debouncer's standing verdict. *)
Theorem monitor_event_consistent {D} `{!Debouncer D} (initMonitor : bool) (d : D) xs :
  mEventStatus d = kPending →
  let s := run_steps xs (attached initMonitor d) in
  ∃ e, Monitor.mEvent s = Some e ∧
    (Event.GetTestComplete e = true ↔ Z.testbit (Event.mEventStatus e) 1 = false) ∧
    (Z.testbit (Event.mEventStatus e) 7 = true → Event.GetDebouncingStatus e = kFinallyDefective) ∧
    match mEventStatus (Monitor.mDebouncer s) with
    | kPassed => Event.GetDebouncingStatus e = kFinallyHealed
    | kFailed => Event.GetDebouncingStatus e = kFinallyDefective
    | kPending => Event.GetDebouncingStatus e ≠ kTemporarilyDefective ∧ Event.GetDebouncingStatus e ≠ kTemporarilyHealed
    end.
Proof.
  intros Hd. cbv zeta. destruct (steps_ok xs (attached initMonitor d)) as (e & He & Hok).
  { exists Event.construct. split; [done|]. left. done. }
  clear Hd. exists e. split; [done|]. destruct e as [b n w dtc fdc l]. unfold event_ok in Hok. cbn in Hok.
  unfold Event.GetTestComplete, Event.GetDebouncingStatus. cbn [Event.mFdc Event.mEventStatus].
  destruct Hok as [(-> & -> & ->)|[(-> & [-> | ->] & Hne)|(-> & -> & Hne)]]; cbn;
    (split; [done|]); (split; [done|]); first [done | by destruct (mEventStatus (Monitor.mDebouncer (run_steps xs (attached initMonitor d))))].
Qed.

Definition example_counter : CounterBasedDebouncer.CounterBased :=
  CounterBasedDebouncer.mkConfig 127 (-128) 40 50 10 (-10) false false.

Lemma monitor_event_consistent_witness :
  let s := run_steps (D := CounterBasedDebouncer.t) (Debouncer0 := CounterBasedDebouncer.CounterDebouncer example_counter)
    [DoOffer; Act 0 MA_kPrefailed; Act 0 MA_kPrefailed; Act 0 MA_kPrefailed; Act 0 MA_kPrefailed]
    (attached (Debouncer0 := CounterBasedDebouncer.CounterDebouncer example_counter) false CounterBasedDebouncer.construct) in
  ∃ e, Monitor.mEvent s = Some e ∧ Event.GetDebouncingStatus e = kFinallyDefective.
Proof.
  destruct (monitor_event_consistent (Debouncer0 := CounterBasedDebouncer.CounterDebouncer example_counter)
    false CounterBasedDebouncer.construct
    [DoOffer; Act 0 MA_kPrefailed; Act 0 MA_kPrefailed; Act 0 MA_kPrefailed; Act 0 MA_kPrefailed] eq_refl)
    as (e & He & _ & _ & H).
  exists e. split; [exact He|]. exact H.
Defined.

(** A final report on an offered monitor makes the event finally defective or
    finally healed.  When the debouncer already stood at that verdict the event is not
    touched at all: a test-failed bit cleared by a reset-test-failed action stays clear
    however often the failure is reported again, until the debouncer is reset or
    passes. *)
Theorem final_report_effect {D} `{!Debouncer D} (initMonitor : bool) (d : D) xs m (passed : bool) :
  mEventStatus d = kPending →
  let s := run_steps xs (attached initMonitor d) in
  Monitor.mOffered s = true →
  let action := if passed then MA_kPassed else MA_kFailed in
  let verdict := if passed then kPassed else kFailed in
  let '(r, s') := Monitor.ReportMonitorAction m action s in
  r = Ok () ∧ mEventStatus (Monitor.mDebouncer s') = verdict ∧
  (∃ e, Monitor.mEvent s' = Some e ∧
     Event.GetDebouncingStatus e = if passed then kFinallyHealed else kFinallyDefective) ∧
  (mEventStatus (Monitor.mDebouncer s) = verdict → Monitor.mEvent s' = Monitor.mEvent s).
Proof.
  intros Hd s Ho. cbv zeta. assert (Hs : ok s).
  { apply steps_ok. exists Event.construct. split; [done|]. left. done. }
  set (rep := if passed then Passed else Failed).
  assert (Hrun : Monitor.ReportMonitorAction m (if passed then MA_kPassed else MA_kFailed) s = Monitor.debounce m rep s).
  { unfold Monitor.ReportMonitorAction. run. rewrite Ho. by destruct passed. }
  rewrite Hrun. destruct (debounce_ok m rep s Hs) as ((e & He & Hok) & Hdeb & _ & Hr).
  assert (Hv : mEventStatus (fst (report m rep (Monitor.mDebouncer s))) = if passed then kPassed else kFailed).
  { destruct (report_final m (Monitor.mDebouncer s)) as (H1 & H2 & _). by destruct passed. }
  pose proof (report_agreed m rep s Ho) as Hag.
  destruct (Monitor.debounce m rep s) as [r s']. cbn [fst snd] in *.
  split; [done|]. rewrite Hdeb, Hv. split; [done|]. split.
  - exists e. split; [done|]. rewrite Hdeb, Hv in Hok. unfold event_ok in Hok. unfold Event.GetDebouncingStatus.
    destruct passed; destruct Hok as [(? & ? & ?)|[(-> & ? & ?)|(-> & ? & ?)]]; done.
  - intros H. apply Hag. by rewrite Hv, H.
Qed.

Definition example_timer : TimerBasedDebouncer.TimeBased := TimerBasedDebouncer.mkConfig 200 300.

(** A failure, its bit reset, and the failure again. *)
Lemma final_report_effect_witness :
  let D := TimerBasedDebouncer.TimerDebouncer example_timer in
  let s := run_steps [DoOffer; Act 0 MA_kFailed; Act 0 MA_kResetTestFailed]
    (attached false (TimerBasedDebouncer.construct false)) in
  Event.mEventStatus <$> Monitor.mEvent s = Some 0 ∧
  Event.mEventStatus <$> Monitor.mEvent (snd (Monitor.ReportMonitorAction 0 MA_kFailed s)) = Some 0.
Proof.
  intros D s. split; [by vm_compute|].
  destruct (final_report_effect (Debouncer0 := D) false (TimerBasedDebouncer.construct false)
    [DoOffer; Act 0 MA_kFailed; Act 0 MA_kResetTestFailed] 0 false eq_refl eq_refl) as (_ & _ & _ & H).
  exact (eq_trans (f_equal (fmap Event.mEventStatus) (H eq_refl)) eq_refl).
Defined.

(** Counter-based debouncing counts as its parameters say: the counter never leaves
    the thresholds nor its 16 bits, and stands at a threshold only with that verdict;
    from a fresh debouncer without jumps, [n] equal reports add up to [n] steps until
    the threshold, where the callback is called once. *)
Theorem counter_debouncing c rs n :
  CounterBasedDebouncer.wf c →
  let d := foldl (fun d r => fst (CounterBasedDebouncer.report_ c r d)) CounterBasedDebouncer.construct rs in
  (CounterBasedDebouncer.passedThreshold c <= CounterBasedDebouncer.mFdc d <= CounterBasedDebouncer.failedThreshold c ∧
   (CounterBasedDebouncer.mFdc d = CounterBasedDebouncer.failedThreshold c → CounterBasedDebouncer.status d = kFailed) ∧
   (CounterBasedDebouncer.mFdc d = CounterBasedDebouncer.passedThreshold c → CounterBasedDebouncer.status d = kPassed)) ∧
  (CounterBasedDebouncer.useJumpToFailed c = false →
   CounterBasedDebouncer.repeat_report c Prefailed n CounterBasedDebouncer.construct =
     let k := Z.of_nat n * CounterBasedDebouncer.failedStepsize c in
     if decide (CounterBasedDebouncer.failedThreshold c <= k)
     then (CounterBasedDebouncer.mk kFailed (CounterBasedDebouncer.failedThreshold c), [false])
     else (CounterBasedDebouncer.mk kPending k, [])) ∧
  (CounterBasedDebouncer.useJumpToPassed c = false →
   CounterBasedDebouncer.repeat_report c Prepassed n CounterBasedDebouncer.construct =
     let k := Z.of_nat n * CounterBasedDebouncer.passedStepsize c in
     if decide (- k <= CounterBasedDebouncer.passedThreshold c)
     then (CounterBasedDebouncer.mk kPassed (CounterBasedDebouncer.passedThreshold c), [true])
     else (CounterBasedDebouncer.mk kPending (- k), [])).
Proof.
  intros Hwf. split; [|split; [by apply CounterBasedDebouncer.prefailed_run|by apply CounterBasedDebouncer.prepassed_run]].
  assert (H : ∀ d, CounterBasedDebouncer.inv c d →
    CounterBasedDebouncer.inv c (foldl (fun d r => fst (CounterBasedDebouncer.report_ c r d)) d rs)).
  { induction rs as [|r rs IH]; intros d Hd; [done|]. by apply IH, CounterBasedDebouncer.report_inv. }
  destruct (H CounterBasedDebouncer.construct) as (H1 & H2 & H3); [|done].
  destruct Hwf as (_ & _ & _ & _ & Hz & _). unfold CounterBasedDebouncer.inv. cbn. lia.
Qed.

Lemma counter_debouncing_witness :
  CounterBasedDebouncer.wf example_counter ∧
  CounterBasedDebouncer.repeat_report example_counter Prefailed 4 CounterBasedDebouncer.construct =
    (CounterBasedDebouncer.mk kFailed 127, [false]).
Proof.
  assert (H : CounterBasedDebouncer.wf example_counter) by (repeat split; done).
  split; [exact H|]. exact (proj1 (proj2 (counter_debouncing example_counter [] 4 H)) eq_refl).
Defined.

(** A time-based debouncer whose failing phase runs undisturbed reports the failure
    when its timer expires.  Interrupted runs do not add up: the elapsed time is set to
    the last run alone, so after any number of runs of [m] milliseconds, each shorter
    than the threshold, the next run still waits for the threshold less [m], and no
    verdict has been given. *)
Theorem timer_debouncing c ms m :
  Forall (fun m => 0 <= m < TimerBasedDebouncer.failedMs c) (ms ++ [m]) →
  is_u32 (TimerBasedDebouncer.failedMs c) →
  let d := foldl (fun d m => TimerBasedDebouncer.interrupted_run c m d) (TimerBasedDebouncer.construct false) (ms ++ [m]) in
  let '(d', calls) := TimerBasedDebouncer.ReportPrefailed c 0 d in
  TimerBasedDebouncer.status d = kPending ∧ calls = [] ∧
  TimerBasedDebouncer.mThread d' = TimerBasedDebouncer.Ticking (TimerBasedDebouncer.failedMs c - m) false ∧
  snd (TimerBasedDebouncer.tick_end c None d') = [false] ∧
  TimerBasedDebouncer.status (fst (TimerBasedDebouncer.tick_end c None d')) = kFailed.
Proof.
  intros Hall Hc. cbv zeta. set (run := foldl _ _ _).
  assert (Hd : run = TimerBasedDebouncer.mk kPending m false TimerBasedDebouncer.NotStarted).
  { unfold run. rewrite foldl_app. cbn [foldl]. apply Forall_app in Hall as [Hms Hm].
    apply Forall_cons in Hm as [Hm _]. clear run.
    assert (H : ∀ e, 0 <= e < TimerBasedDebouncer.failedMs c → ∀ m, 0 <= m < TimerBasedDebouncer.failedMs c →
      TimerBasedDebouncer.interrupted_run c m (TimerBasedDebouncer.mk kPending e false TimerBasedDebouncer.NotStarted) =
      TimerBasedDebouncer.mk kPending m false TimerBasedDebouncer.NotStarted).
    { intros e He m' Hm'. unfold TimerBasedDebouncer.interrupted_run, TimerBasedDebouncer.ReportPrefailed,
        TimerBasedDebouncer.start. cbn [TimerBasedDebouncer.mIsPassing TimerBasedDebouncer.mThread TimerBasedDebouncer.mElapsedMs].
      rewrite (proj2 (Z.ltb_lt _ _)) by ulia. cbn. by rewrite u32_id by ulia. }
    assert (H' : ∀ e, 0 <= e < TimerBasedDebouncer.failedMs c → ∃ e', 0 <= e' < TimerBasedDebouncer.failedMs c ∧
      foldl (fun d m => TimerBasedDebouncer.interrupted_run c m d) (TimerBasedDebouncer.mk kPending e false TimerBasedDebouncer.NotStarted) ms =
      TimerBasedDebouncer.mk kPending e' false TimerBasedDebouncer.NotStarted).
    { induction Hms as [|m' ms Hm' _ IH]; intros e He; [by exists e|]. cbn [foldl]. rewrite H by done. by apply IH. }
    destruct (H' 0 ltac:(lia)) as (e & He & Heq). unfold TimerBasedDebouncer.construct. rewrite Heq. by apply H. }
  rewrite Hd. unfold TimerBasedDebouncer.ReportPrefailed, TimerBasedDebouncer.start.
  cbn [TimerBasedDebouncer.mIsPassing TimerBasedDebouncer.mThread TimerBasedDebouncer.mElapsedMs].
  apply Forall_app in Hall as [_ Hm]. apply Forall_cons in Hm as [Hm _]. unfold is_u32 in Hc.
  assert (Hu : u32 (TimerBasedDebouncer.failedMs c - m) = TimerBasedDebouncer.failedMs c - m) by (apply u32_id; ulia).
  rewrite Hu, (proj2 (Z.ltb_lt _ _)) by lia. done.
Qed.

Lemma timer_debouncing_witness :
  TimerBasedDebouncer.mThread (fst (TimerBasedDebouncer.ReportPrefailed example_timer 0
    (foldl (fun d m => TimerBasedDebouncer.interrupted_run example_timer m d)
      (TimerBasedDebouncer.construct false) ([250; 250; 250] ++ [100])))) = TimerBasedDebouncer.Ticking 200 false.
Proof.
  exact (proj1 (proj2 (proj2 (timer_debouncing example_timer [250; 250; 250] 100 ltac:(by_eval) ltac:(by_eval))))).
Defined.
