(* ===== verification/Dtc.v ===== *)
(** * Diagnostic trouble codes and the small diagnostic objects: ara/diag/dtc_information.cpp,
    operation_cycle.cpp, condition.cpp, cancellation_handler.cpp

    The store of status bytes with its three notifiers, and the objects that only hold a
    value and a notifier.  A notifier is named by a number; what it was called with is
    appended to a log.  The store is compared with a specification of one bit of one code
    at a time, and the log with the changes of the store. *)

From S2P Require Import Prelude.

(** ** The store of trouble codes *)
Module DTCInformation.

(** [ara/diag/dtc_information.h:15-19] ControlDtcStatusType *)
Inductive ControlDtcStatusType := kDTCSettingOn | kDTCSettingOff.

#[export] Instance ControlDtcStatusType_eq_dec : EqDecision ControlDtcStatusType.
Proof. solve_decision. Defined.

(** [ara/diag/diag_error_domain.h:13-30] the errors these methods return *)
Inductive DiagErrc := kNoSuchDTC | kWrongDtc.

(** The three kinds of calls of a notifier. *)
Inductive notice :=
  | DtcStatusChanged (dtc old_status new_status : Z)
  | NumberOfStoredEntries (number : Z)
  | ControlDtcStatus (status : ControlDtcStatusType).

(** [ara/diag/dtc_information.h:44-53] DTCInformation; [called] is which notifier was
    called with what *)
Record t := mk {
  mStatuses : gmap Z Z;
  mDtcStatusChangedNotifier : option nat;
  mNumberOfStoredEntriesNotifier : option nat;
  mControlDtcStatus : ControlDtcStatusType;
  mControlDtcStatusNotifier : option nat;
  called : list (nat * notice)
}.

(** [ara/diag/dtc_information.cpp:10-13] DTCInformation::DTCInformation *)
Definition construct : t := mk ∅ None None kDTCSettingOff None [].

Definition set_statuses (m : gmap Z Z) (s : t) : t :=
  mk m (mDtcStatusChangedNotifier s) (mNumberOfStoredEntriesNotifier s)
     (mControlDtcStatus s) (mControlDtcStatusNotifier s) (called s).

(** [if (notifier) notifier(n)] *)
Definition call (notifier : option nat) (n : notice) (s : t) : t :=
  match notifier with
  | Some who =>
      mk (mStatuses s) (mDtcStatusChangedNotifier s) (mNumberOfStoredEntriesNotifier s)
         (mControlDtcStatus s) (mControlDtcStatusNotifier s) (called s ++ [(who, n)])
  | None => s
  end.

(** [mStatuses.size()], converted to the [uint32_t] of the notifier. *)
Definition stored (s : t) : Z := u32 (Z.of_nat (base.size (mStatuses s))).

Definition notify_number (s : t) : t :=
  call (mNumberOfStoredEntriesNotifier s) (NumberOfStoredEntries (stored s)) s.

(** [ara/diag/dtc_information.cpp:15-33] GetCurrentStatus *)
Definition GetCurrentStatus (dtc : Z) (s : t) : DiagErrc + Z :=
  match mStatuses s !! dtc with Some status => inr status | None => inl kNoSuchDTC end.

(** [ara/diag/dtc_information.cpp:35-77] SetCurrentStatus *)
Definition SetCurrentStatus (dtc mask status : Z) (s : t) : t :=
  match mStatuses s !! dtc with
  | None => notify_number (set_statuses (<[dtc := status]> (mStatuses s)) s)
  | Some currentStatus =>
      let differenceByte := u8 (Z.lxor currentStatus status) in
      let maskByte := u8 mask in
      let maskedDifferenceByte := u8 (Z.land differenceByte maskByte) in
      if maskedDifferenceByte =? 0 then s
      else
        let newStatusBits := u8 (Z.lxor currentStatus maskedDifferenceByte) in
        let s := set_statuses (<[dtc := newStatusBits]> (mStatuses s)) s in
        call (mDtcStatusChangedNotifier s) (DtcStatusChanged dtc currentStatus newStatusBits) s
  end.

(** [ara/diag/dtc_information.cpp:79-87] SetDTCStatusChangedNotifier *)
Definition SetDTCStatusChangedNotifier (notifier : option nat) (s : t) : t :=
  mk (mStatuses s) notifier (mNumberOfStoredEntriesNotifier s)
     (mControlDtcStatus s) (mControlDtcStatusNotifier s) (called s).

(** [ara/diag/dtc_information.cpp:89-95] GetNumberOfStoredEntries *)
Definition GetNumberOfStoredEntries (s : t) : Z := stored s.

(** [ara/diag/dtc_information.cpp:97-105] SetNumberOfStoredEntriesNotifier *)
Definition SetNumberOfStoredEntriesNotifier (notifier : option nat) (s : t) : t :=
  mk (mStatuses s) (mDtcStatusChangedNotifier s) notifier
     (mControlDtcStatus s) (mControlDtcStatusNotifier s) (called s).

(** [ara/diag/dtc_information.cpp:107-132] Clear *)
Definition Clear (dtc : Z) (s : t) : (DiagErrc + ()) * t :=
  match mStatuses s !! dtc with
  | Some _ => (inr (), notify_number (set_statuses (delete dtc (mStatuses s)) s))
  | None => (inl kWrongDtc, s)
  end.

(** [ara/diag/dtc_information.cpp:134-138] GetControlDTCStatus *)
Definition GetControlDTCStatus (s : t) : ControlDtcStatusType := mControlDtcStatus s.

(** [ara/diag/dtc_information.cpp:140-148] SetControlDtcStatusNotifier *)
Definition SetControlDtcStatusNotifier (notifier : option nat) (s : t) : t :=
  mk (mStatuses s) (mDtcStatusChangedNotifier s) (mNumberOfStoredEntriesNotifier s)
     (mControlDtcStatus s) notifier (called s).

(** [ara/diag/dtc_information.cpp:150-166] EnableControlDtc *)
Definition EnableControlDtc (s : t) : t :=
  if decide (mControlDtcStatus s = kDTCSettingOn) then s
  else call (mControlDtcStatusNotifier s) (ControlDtcStatus kDTCSettingOn)
         (mk (mStatuses s) (mDtcStatusChangedNotifier s) (mNumberOfStoredEntriesNotifier s)
             kDTCSettingOn (mControlDtcStatusNotifier s) (called s)).

(** A call of one of the methods that change the object. *)
Inductive operation :=
  | Set_ (dtc mask status : Z)
  | Clear_ (dtc : Z)
  | Enable
  | Register_status (notifier : option nat)
  | Register_number (notifier : option nat)
  | Register_control (notifier : option nat).

Definition perform (op : operation) (s : t) : t :=
  match op with
  | Set_ dtc mask status => SetCurrentStatus dtc mask status s
  | Clear_ dtc => snd (Clear dtc s)
  | Enable => EnableControlDtc s
  | Register_status n => SetDTCStatusChangedNotifier n s
  | Register_number n => SetNumberOfStoredEntriesNotifier n s
  | Register_control n => SetControlDtcStatusNotifier n s
  end.

Definition run (ops : list operation) (s : t) : t := fold_left (fun s op => perform op s) ops s.

(** The arguments are bytes, as their C++ types are. *)
Definition bytes_only (op : operation) : Prop :=
  match op with Set_ _ mask status => is_u8 mask ∧ is_u8 status | _ => True end.

(** *** The specification: one bit of one code *)

(** Bit [k] of code [dtc] after a call, [None] when the code is not stored: the first
    status of a code is stored whole, later ones where the mask allows it. *)
Definition bit_after (dtc k : Z) (b : option bool) (op : operation) : option bool :=
  match op with
  | Set_ dtc' mask status =>
      if decide (dtc' = dtc) then
        Some match b with
             | Some old => if Z.testbit mask k then Z.testbit status k else old
             | None => Z.testbit status k
             end
      else b
  | Clear_ dtc' => if decide (dtc' = dtc) then None else b
  | _ => b
  end.

Definition bit (dtc k : Z) (s : t) : option bool := (fun status => Z.testbit status k) <$> mStatuses s !! dtc.

(** *** What observers are told *)

(** The calls that tell the difference between two stores: their numbers of codes, or the
    code whose status differs. *)
Definition differences (m m' : gmap Z Z) : list notice :=
  if decide (base.size m = base.size m') then
    omap (fun '(dtc, status) =>
      match m !! dtc with
      | Some old => if old =? status then None else Some (DtcStatusChanged dtc old status)
      | None => None
      end) (map_to_list m')
  else [NumberOfStoredEntries (u32 (Z.of_nat (base.size m')))].

(** Both notifiers of the store are registered, for one observer. *)
Definition observed (who : nat) (s : t) : Prop :=
  mDtcStatusChangedNotifier s = Some who ∧ mNumberOfStoredEntriesNotifier s = Some who.

(** The calls change the store, not its notifiers. *)
Definition on_store (op : operation) : bool :=
  match op with Set_ _ _ _ | Clear_ _ => true | _ => false end.

(** The stores a run goes through, the first one included. *)
Fixpoint stores (ops : list operation) (s : t) : list (gmap Z Z) :=
  mStatuses s :: match ops with [] => [] | op :: ops => stores ops (perform op s) end.

(** The differences between successive stores. *)
Fixpoint successive (ms : list (gmap Z Z)) : list notice :=
  match ms with
  | m :: ((m' :: _) as rest) => differences m m' ++ successive rest
  | _ => []
  end.

End DTCInformation.

(** *** Lemmas: what a call does to the store, and what it tells *)
Module DtcFacts.
Import DTCInformation.

Lemma call_statuses n x s : mStatuses (call n x s) = mStatuses s.
Proof. by destruct n. Qed.

Lemma notify_number_statuses s : mStatuses (notify_number s) = mStatuses s.
Proof. apply call_statuses. Qed.

Create Rewrite HintDb dtc.
#[export] Hint Rewrite call_statuses notify_number_statuses : dtc.

(** The masked update of a status, as a byte. *)
Definition masked (current mask status : Z) : Z := Z.lxor current (Z.land (Z.lxor current status) mask).

Lemma masked_bit current mask status k :
  0 <= k →
  Z.testbit (masked current mask status) k =
  if Z.testbit mask k then Z.testbit status k else Z.testbit current k.
Proof.
  intros Hk. unfold masked. rewrite Z.lxor_spec, Z.land_spec, Z.lxor_spec.
  by destruct (Z.testbit mask k), (Z.testbit current k), (Z.testbit status k).
Qed.

Lemma masked_u8 current mask status :
  is_u8 current → is_u8 mask → is_u8 status → is_u8 (masked current mask status).
Proof.
  intros Hc Hm Hs. apply lxor_u8; [done|]. apply (land_bound _ _ 8); [lia| |exact Hm].
  by apply lxor_u8.
Qed.

(** With bytes the conversions lose nothing: the store gets the masked update, which is
    the old status when no selected bit differs. *)
Lemma SetCurrentStatus_known dtc mask status s current :
  mStatuses s !! dtc = Some current → is_u8 current → is_u8 mask → is_u8 status →
  let new := masked current mask status in
  SetCurrentStatus dtc mask status s =
    if current =? new then s
    else call (mDtcStatusChangedNotifier s) (DtcStatusChanged dtc current new)
           (set_statuses (<[dtc := new]> (mStatuses s)) s).
Proof.
  intros Hl Hc Hm Hs new. unfold SetCurrentStatus. rewrite Hl.
  assert (Hd : is_u8 (Z.lxor current status)) by by apply lxor_u8.
  assert (Hn : is_u8 new) by by apply masked_u8.
  assert (Hand : is_u8 (Z.land (Z.lxor current status) mask))
    by (apply (land_bound _ _ 8); [lia|apply Hd|exact Hm]).
  rewrite (u8_id (Z.lxor current status)), (u8_id mask), (u8_id (Z.land _ _)) by done.
  change (Z.lxor current (Z.land (Z.lxor current status) mask)) with new. rewrite (u8_id new) by done.
  destruct (Z.eqb_spec (Z.land (Z.lxor current status) mask) 0) as [H0|H0].
  - assert (new = current) as -> by (unfold new, masked; by rewrite H0, Z.lxor_0_r).
    by rewrite Z.eqb_refl.
  - destruct (Z.eqb_spec current new) as [He|He]; [|done]. exfalso. apply H0.
    apply (lxor_cancel_l current). rewrite Z.lxor_0_r. symmetry. exact He.
Qed.

Definition byte_store (s : t) : Prop := map_Forall (λ _ status, is_u8 status) (mStatuses s).

(** The store after a call. *)
Definition store_after (op : operation) (m : gmap Z Z) : gmap Z Z :=
  match op with
  | Set_ dtc mask status =>
      <[dtc := match m !! dtc with Some current => masked current mask status | None => status end]> m
  | Clear_ dtc => delete dtc m
  | _ => m
  end.

Lemma perform_statuses op s :
  byte_store s → bytes_only op → mStatuses (perform op s) = store_after op (mStatuses s).
Proof.
  intros Hs Hop. destruct op as [dtc mask status|dtc| | | |]; try done; simpl.
  - destruct Hop as [Hm Hst]. destruct (mStatuses s !! dtc) as [current|] eqn:Hl.
    + rewrite (SetCurrentStatus_known _ _ _ _ _ Hl (Hs _ _ Hl) Hm Hst).
      case_match eqn:He; [|by autorewrite with dtc].
      apply Z.eqb_eq in He. by rewrite <- He, insert_id.
    + unfold SetCurrentStatus. rewrite Hl. by autorewrite with dtc.
  - unfold Clear. destruct (mStatuses s !! dtc) eqn:Hl; simpl.
    + by autorewrite with dtc.
    + by rewrite delete_id.
  - unfold EnableControlDtc. case_decide; by autorewrite with dtc.
Qed.

Lemma perform_byte_store op s : byte_store s → bytes_only op → byte_store (perform op s).
Proof.
  intros Hs Hop. unfold byte_store. rewrite perform_statuses by done.
  destruct op as [dtc mask status|dtc| | | |]; try done; simpl.
  - destruct Hop as [Hm Hst]. apply map_Forall_insert_2; [|done].
    case_match eqn:Hl; [|done]. apply masked_u8; [by apply (Hs dtc)|done..].
  - by apply map_Forall_delete.
Qed.

Lemma perform_bit op s dtc k :
  byte_store s → bytes_only op → 0 <= k →
  bit dtc k (perform op s) = bit_after dtc k (bit dtc k s) op.
Proof.
  intros Hs Hop Hk. unfold bit. rewrite perform_statuses by done.
  destruct op as [dtc' mask status|dtc'| | | |]; try done; simpl; case_decide as Hd.
  - subst. rewrite lookup_insert_eq. destruct (mStatuses s !! dtc); simpl; [|done].
    by rewrite masked_bit.
  - by rewrite lookup_insert_ne.
  - subst. by rewrite lookup_delete_eq.
  - by rewrite lookup_delete_ne.
Qed.

Lemma run_bits ops dtc k : ∀ s,
  byte_store s → Forall bytes_only ops → 0 <= k →
  bit dtc k (run ops s) = fold_left (bit_after dtc k) ops (bit dtc k s).
Proof.
  induction ops as [|op ops IH]; intros s Hs Hops Hk; [done|].
  apply Forall_cons in Hops as [Hop Hops]. simpl. rewrite <- perform_bit by done.
  apply IH; auto using perform_byte_store.
Qed.

Lemma omap_none {A B} (f : A → option B) (l : list A) :
  (∀ z, z ∈ l → f z = None) → omap f l = [].
Proof.
  induction l as [|z l IH]; intros Hn; [done|]. simpl. rewrite (Hn z) by apply list_elem_of_here.
  apply IH. intros w Hw. by apply Hn, list_elem_of_further.
Qed.

(** One changed value is the whole difference of two stores with the same codes. *)
Lemma omap_only {A B} (f : A → option B) (l : list A) x y :
  f x = Some y → x ∈ l → NoDup l → (∀ z, z ∈ l → z ≠ x → f z = None) → omap f l = [y].
Proof.
  intros Hf Hx Hd Hn. induction l as [|z l IH]; [by apply not_elem_of_nil in Hx|].
  apply NoDup_cons in Hd as [Hz Hd]. simpl. apply elem_of_cons in Hx as [<-|Hx].
  - rewrite Hf. f_equal. apply omap_none. intros w Hw.
    apply Hn; [by apply list_elem_of_further|]. by intros ->.
  - rewrite (Hn z) by (apply list_elem_of_here || by intros ->).
    apply IH; [done..|]. intros w Hw. by apply Hn, list_elem_of_further.
Qed.

Lemma differences_same m : differences m m = [].
Proof.
  unfold differences. rewrite decide_True by done. apply omap_none. intros [dtc status] Hin.
  apply elem_of_map_to_list in Hin. by rewrite Hin, Z.eqb_refl.
Qed.

Lemma differences_update m dtc old new :
  m !! dtc = Some old → old ≠ new → differences m (<[dtc := new]> m) = [DtcStatusChanged dtc old new].
Proof.
  intros Hl Hne. unfold differences.
  rewrite decide_True by (symmetry; by rewrite (map_size_insert_Some _ _ _ _ Hl) || by rewrite map_size_insert, Hl).
  apply (omap_only _ _ (dtc, new)).
  - rewrite Hl. by rewrite (proj2 (Z.eqb_neq old new) Hne).
  - apply elem_of_map_to_list, lookup_insert_eq.
  - apply NoDup_map_to_list.
  - intros [d status] Hin Hd. apply elem_of_map_to_list in Hin.
    destruct (decide (d = dtc)) as [->|Hdd].
    + rewrite lookup_insert_eq in Hin. by simplify_eq.
    + rewrite lookup_insert_ne in Hin by done. by rewrite Hin, Z.eqb_refl.
Qed.

Lemma differences_insert m dtc status :
  m !! dtc = None →
  differences m (<[dtc := status]> m) = [NumberOfStoredEntries (u32 (Z.of_nat (base.size (<[dtc := status]> m))))].
Proof.
  intros Hl. unfold differences. rewrite decide_False; [done|].
  rewrite map_size_insert, Hl. simpl. lia.
Qed.

Lemma differences_delete m dtc status :
  m !! dtc = Some status →
  differences m (delete dtc m) = [NumberOfStoredEntries (u32 (Z.of_nat (base.size (delete dtc m))))].
Proof.
  intros Hl. unfold differences. rewrite decide_False; [done|].
  rewrite <- (insert_delete_id m dtc status Hl) at 1.
  rewrite map_size_insert, lookup_delete_eq. simpl. lia.
Qed.

Lemma notify_number_told who m s :
  observed who s →
  called (notify_number (set_statuses m s)) =
    called s ++ [(who, NumberOfStoredEntries (u32 (Z.of_nat (base.size m))))] ∧
  observed who (notify_number (set_statuses m s)).
Proof. intros [Ho1 Ho2]. unfold notify_number, observed. simpl. rewrite Ho2. simpl. auto. Qed.

(** Every call tells the observer exactly the difference it makes. *)
Lemma perform_differences op who s :
  observed who s → byte_store s → bytes_only op → on_store op = true →
  called (perform op s) =
    called s ++ ((fun n => (who, n)) <$> differences (mStatuses s) (mStatuses (perform op s))) ∧
  observed who (perform op s).
Proof.
  intros [Ho1 Ho2] Hs Hop Hon. destruct op as [dtc mask status|dtc| | | |]; try done; simpl.
  - destruct Hop as [Hm Hst]. destruct (mStatuses s !! dtc) as [current|] eqn:Hl.
    + rewrite (SetCurrentStatus_known _ _ _ _ _ Hl (Hs _ _ Hl) Hm Hst).
      destruct (Z.eqb_spec current (masked current mask status)) as [He|He].
      * by rewrite differences_same, app_nil_r.
      * autorewrite with dtc. simpl. by rewrite (differences_update _ _ _ _ Hl He), Ho1.
    + unfold SetCurrentStatus. rewrite Hl. autorewrite with dtc. simpl.
      rewrite differences_insert by done. by apply notify_number_told.
  - unfold Clear. destruct (mStatuses s !! dtc) as [status|] eqn:Hl; simpl.
    + autorewrite with dtc. simpl. rewrite (differences_delete _ _ _ Hl).
      by apply notify_number_told.
    + by rewrite differences_same, app_nil_r.
Qed.

Lemma run_differences who ops : ∀ s,
  observed who s → byte_store s → Forall bytes_only ops → forallb on_store ops = true →
  called (run ops s) = called s ++ ((fun n => (who, n)) <$> successive (stores ops s)).
Proof.
  induction ops as [|op ops IH]; intros s Ho Hs Hops Hon; [by rewrite app_nil_r|].
  apply Forall_cons in Hops as [Hop Hops]. simpl in Hon. apply andb_true_iff in Hon as [Hon1 Hon].
  destruct (perform_differences op who s) as [Hc Ho']; [done..|].
  simpl. rewrite IH by auto using perform_byte_store. rewrite Hc.
  destruct ops as [|op' ops]; simpl; by rewrite fmap_app, <- app_assoc.
Qed.

End DtcFacts.

(** ** Operation cycles, conditions and cancellation handlers *)
Module OperationCycle.

(** [ara/diag/operation_cycle.h:12-16] OperationCycle; [called] is which notifiers were
    called *)
Record t := mk { mNotifier : option nat; called : list nat }.

(** [ara/diag/operation_cycle.cpp:7-9] OperationCycle::OperationCycle *)
Definition construct : t := mk None [].

(** [ara/diag/operation_cycle.cpp:11-17] SetNotifier *)
Definition SetNotifier (notifier : option nat) (s : t) : t := mk notifier (called s).

(** [ara/diag/operation_cycle.cpp:19-28] RestartOperationCycle *)
Definition RestartOperationCycle (s : t) : t :=
  match mNotifier s with Some who => mk (mNotifier s) (called s ++ [who]) | None => s end.

End OperationCycle.

Module Condition.

(** [ara/diag/condition.h:12-16] ConditionType *)
Inductive ConditionType := kConditionFalse | kConditionTrue.

(** [ara/diag/condition.cpp:7-10] Condition::Condition: the object is its value *)
Definition construct : ConditionType := kConditionFalse.

(** [ara/diag/condition.cpp:12-16] GetCondition *)
Definition GetCondition (mCondition : ConditionType) : ConditionType := mCondition.

(** [ara/diag/condition.cpp:18-24] SetCondition: it replaces the value *)
Definition SetCondition (condition : ConditionType) (mCondition : ConditionType) : ConditionType := condition.

End Condition.

Module CancellationHandler.

(** [ara/diag/cancellation_handler.h:11-15] CancellationHandler *)
Record t := mk { mIsCanceled : bool; mNotifier : option nat; called : list nat }.

(** [ara/diag/cancellation_handler.cpp:7-9] CancellationHandler::CancellationHandler *)
Definition construct (isCanceled : bool) : t := mk isCanceled None [].

(** [ara/diag/cancellation_handler.cpp:11-14] IsCanceled *)
Definition IsCanceled (s : t) : bool := mIsCanceled s.

(** [ara/diag/cancellation_handler.cpp:16-27] SetIsCanceled *)
Definition SetIsCanceled (isCanceled : bool) (s : t) : t :=
  if eqb (mIsCanceled s) isCanceled then s
  else mk isCanceled (mNotifier s)
          (match mNotifier s with Some who => called s ++ [who] | None => called s end).

(** [ara/diag/cancellation_handler.cpp:29-32] SetNotifier *)
Definition SetNotifier (notifier : option nat) (s : t) : t := mk (mIsCanceled s) notifier (called s).

(** Setting the status to each of the values of a list, in this order. *)
Definition set_all (values : list bool) (s : t) : t := fold_left (fun s b => SetIsCanceled b s) values s.

(** How often a list of values changes, from a first one. *)
Fixpoint changes (b : bool) (values : list bool) : nat :=
  match values with
  | [] => 0
  | b' :: values => (if eqb b b' then 0 else 1) + changes b' values
  end.

(** The notifier is called once for each change, and not for a repeated value. *)
Lemma set_all_called who values : ∀ s,
  mNotifier s = Some who →
  called (set_all values s) = called s ++ repeat who (changes (mIsCanceled s) values).
Proof.
  induction values as [|b values IH]; intros s Hs; simpl; [by rewrite app_nil_r|].
  change (set_all (b :: values) s) with (set_all values (SetIsCanceled b s)).
  unfold SetIsCanceled. destruct (eqb (mIsCanceled s) b) eqn:Hb; simpl.
  - apply eqb_prop in Hb as <-. by apply IH.
  - rewrite IH by done. simpl. by rewrite Hs, <- app_assoc.
Qed.

End CancellationHandler.

(** ** Properties *)

(** C15: after any calls of the methods of a new [DTCInformation], each bit of each code's
    status is what the specification of that bit alone says: the first status of a code
    is stored whole whatever the mask, later ones change the bits the mask selects and
    no others, clearing forgets the code and nothing of other codes.  Whether updates are
    enabled ([EnableControlDtc]) makes no difference. *)
Theorem dtc_status_bits ops dtc k :
  Forall DTCInformation.bytes_only ops → 0 <= k →
  DTCInformation.bit dtc k (DTCInformation.run ops DTCInformation.construct) =
  fold_left (DTCInformation.bit_after dtc k) ops None.
Proof. intros Hops Hk. by apply DtcFacts.run_bits. Qed.

Definition example_codes : list DTCInformation.operation :=
  [DTCInformation.Set_ 4660 1 129; DTCInformation.Set_ 4660 6 3; DTCInformation.Set_ 99 255 8;
   DTCInformation.Enable; DTCInformation.Clear_ 99].

Lemma dtc_status_bits_witness :
  DTCInformation.GetCurrentStatus 4660 (DTCInformation.run example_codes DTCInformation.construct) = inr 131 ∧
  DTCInformation.bit 4660 1 (DTCInformation.run example_codes DTCInformation.construct) = Some true.
Proof.
  split; [vm_compute; reflexivity|]. rewrite (dtc_status_bits example_codes 4660 1).
  - vm_compute. reflexivity.
  - by_eval.
  - lia.
Defined.

(** An observer registered for the status and the number of codes is told exactly the
    differences between the successive stores of any run of updates and clears: the
    number of codes when it changes, and else the one code whose status changed, with its
    old and new status; a call that changes nothing tells nothing. *)
Theorem dtc_observer_sees_all_changes who ops :
  Forall DTCInformation.bytes_only ops → forallb DTCInformation.on_store ops = true →
  let s0 := DTCInformation.run [DTCInformation.Register_status (Some who); DTCInformation.Register_number (Some who)]
              DTCInformation.construct in
  DTCInformation.called (DTCInformation.run ops s0) =
  (fun n => (who, n)) <$> DTCInformation.successive (DTCInformation.stores ops s0).
Proof. intros Hops Hon s0. by rewrite (DtcFacts.run_differences who). Qed.

Definition example_updates : list DTCInformation.operation :=
  [DTCInformation.Set_ 7 1 2; DTCInformation.Set_ 7 1 3; DTCInformation.Set_ 7 1 3; DTCInformation.Clear_ 7].

Lemma dtc_observer_sees_all_changes_witness :
  DTCInformation.called
    (DTCInformation.run example_updates
       (DTCInformation.run [DTCInformation.Register_status (Some 5%nat); DTCInformation.Register_number (Some 5%nat)]
          DTCInformation.construct)) =
  [(5%nat, DTCInformation.NumberOfStoredEntries 1); (5%nat, DTCInformation.DtcStatusChanged 7 2 3);
   (5%nat, DTCInformation.NumberOfStoredEntries 0)].
Proof.
  rewrite (dtc_observer_sees_all_changes 5 example_updates); [vm_compute; reflexivity| |reflexivity].
  by_eval.
Defined.
