(* ===== verification/DiagManager.v ===== *)
(** * The diagnostic manager: application/platform/diagnostic_manager.cpp

    The process that watches the service discovery client, debounces what it sees through
    a monitor, and starts the OBD bridge when the service is finally there.  The monitor,
    its timer and its event are those of Monitor.v; the manager reacts to the event in the
    timer's thread.  What the discovery client, the network and the CAN hardware answer is
    the input of a step; the values of the manifest are parameters. *)

From S2P Require Import Prelude Monitor SdClient.
#[local] Open Scope Z_scope.

Module DiagnosticManager.

(** What is logged. *)
Inductive Log :=
  | Discovered | NoObdHardware | FailedWithDtc (dtc : Z)
  | ServiceAt (endpoint : option (string * Z)) | ServiceLost
  | Heartbeat (state : SdClientState) | Initialized | Terminated.

(** [application/platform/diagnostic_manager.h:26-38] DiagnosticManager: the discovery
    client until it is deleted, the monitor with its event, and the converter and the
    emulator pointed to; [converters] and [emulators] are the objects that live, named by
    numbers below [created] *)
Record t := mk {
  mSdClient : bool;
  mLastSdState : SdClientState;
  mMonitor : Monitor.t TimerBasedDebouncer.t;
  mObdToDoipConverter : option nat;
  mObdEmulator : option nat;
  heartbeatCounter : Z;
  created : nat;
  converters : list nat;
  emulators : list nat;
  logged : list Log
}.

Definition set_monitor (m : Monitor.t TimerBasedDebouncer.t) (s : t) : t :=
  mk (mSdClient s) (mLastSdState s) m (mObdToDoipConverter s) (mObdEmulator s) (heartbeatCounter s)
     (created s) (converters s) (emulators s) (logged s).
Definition set_state (st : SdClientState) (s : t) : t :=
  mk (mSdClient s) st (mMonitor s) (mObdToDoipConverter s) (mObdEmulator s) (heartbeatCounter s)
     (created s) (converters s) (emulators s) (logged s).
Definition set_counter (n : Z) (s : t) : t :=
  mk (mSdClient s) (mLastSdState s) (mMonitor s) (mObdToDoipConverter s) (mObdEmulator s) n
     (created s) (converters s) (emulators s) (logged s).
Definition set_objects (converter emulator : option nat) (n : nat) (cs es : list nat) (s : t) : t :=
  mk (mSdClient s) (mLastSdState s) (mMonitor s) converter emulator (heartbeatCounter s) n cs es (logged s).
Definition delete_client (s : t) : t :=
  mk false (mLastSdState s) (mMonitor s) (mObdToDoipConverter s) (mObdEmulator s) (heartbeatCounter s)
     (created s) (converters s) (emulators s) (logged s).
Definition log (x : Log) : M t () :=
  modify (fun s => mk (mSdClient s) (mLastSdState s) (mMonitor s) (mObdToDoipConverter s) (mObdEmulator s)
                      (heartbeatCounter s) (created s) (converters s) (emulators s) (logged s ++ [x])).

(** [delete] of an object that is pointed to. *)
Definition remove (o : option nat) (l : list nat) : list nat :=
  match o with Some x => filter (fun y => y ≠ x) l | None => l end.

(** [application/platform/diagnostic_manager.cpp:17-28] DiagnosticManager::DiagnosticManager,
    and what the client's creation (line 93) and configureMonitor give: the monitor comes
    from there *)
Definition construct (m : Monitor.t TimerBasedDebouncer.t) : t :=
  mk true ServiceNotSeen m None None 0 0 [] [] [].

(** [application/platform/diagnostic_manager.cpp:185-197] configureEvent: the event, with the
    number read in the manifest and the notifier *)
Definition configureEvent (cDtcNumber : Z) : Event.t :=
  Event.SetEventStatusChangedNotifier true (Event.SetDTCNumber cDtcNumber Event.construct).

Section Manager.
(** The debouncing times read in the manifest. *)
Variable timeBased : TimerBasedDebouncer.TimeBased.

#[local] Instance debouncer : Debouncer TimerBasedDebouncer.t := TimerBasedDebouncer.TimerDebouncer timeBased.

(** [application/platform/diagnostic_manager.cpp:258-267] configureMonitor; [isPassing] is
    the uninitialised member of the debouncer *)
Definition configureMonitor (isPassing : bool) (event : Event.t) : Monitor.t TimerBasedDebouncer.t :=
  snd (Monitor.Offer (Monitor.AttachEvent event (Monitor.construct true (TimerBasedDebouncer.construct isPassing)))).

(** [application/platform/diagnostic_manager.cpp:101-166] onEventStatusChanged, for the event
    as it is then: the endpoint the client gives, whether the connection to it succeeds,
    and whether the emulator starts *)
Definition onEventStatusChanged (e : Event.t) (endpoint : option (string * Z)) (reachable started : bool) : M t () :=
  match Event.GetDebouncingStatus e with
  | kFinallyHealed =>
      log Discovered;;
      s ← get;
      if mSdClient s then
        match endpoint with
        | None => raise std_runtime_error
        | Some _ =>
            if reachable then
              let converter := created s in
              let emulator := S (created s) in
              modify (set_objects (Some converter) (Some emulator) (S (S (created s)))
                        (converters s ++ [converter]) (emulators s ++ [emulator]));;
              if started then mret ()
              else
                log NoObdHardware;;
                modify (fun s => set_objects None None (created s)
                          (remove (mObdToDoipConverter s) (converters s)) (remove (mObdEmulator s) (emulators s)) s)
            else raise std_runtime_error
        end
      else lift Undefined
  | kFinallyDefective =>
      dtc ← lift (Event.GetDTCNumber kDTCFormatUDS e); log (FailedWithDtc dtc)
  | _ => mret ()
  end.

(** A step of the monitor, and the manager's reaction to each notification of its event. *)
Fixpoint react (e : Event.t) (notifications : list Z) (endpoint : option (string * Z)) (reachable started : bool) : M t () :=
  match notifications with
  | [] => mret ()
  | _ :: notifications =>
      onEventStatusChanged e endpoint reachable started;; react e notifications endpoint reachable started
  end.

Definition monitor_step (x : Monitor.step) (endpoint : option (string * Z)) (reachable started : bool) : M t () :=
  s ← get;
  let '(r, m) := do_step x (mMonitor s) in
  modify (set_monitor m);;
  lift r;;
  match Monitor.mEvent (mMonitor s), Monitor.mEvent m with
  | Some e, Some e' =>
      react e' (drop (length (Event.mNotified e)) (Event.mNotified e')) endpoint reachable started
  | _, _ => mret ()
  end.

(** Whether the client has found the service, and whether it has lost it. *)
Definition seen (st : SdClientState) : bool := bool_decide (st = ServiceReady) || bool_decide (st = ServiceSeen).
Definition unseen (st : SdClientState) : bool := bool_decide (st = Stopped) || bool_decide (st = ServiceNotSeen).

(** [application/platform/diagnostic_manager.cpp:270-310] checkServiceDiscovery; [measured]
    is what the debouncer measures if the report stops its timer *)
Definition checkServiceDiscovery (cState : SdClientState) (endpoint : option (string * Z)) (measured : Z) : M t () :=
  s ← get;
  (if decide (cState = mLastSdState s) then mret ()
   else
     (if seen cState then log (ServiceAt endpoint)
      else if decide (cState = ServiceNotSeen) then log ServiceLost else mret ());;
     modify (set_state cState));;
  if seen cState then monitor_step (Act measured MA_kPrepassed) endpoint true true
  else if unseen cState then monitor_step (Act measured MA_kPrefailed) endpoint true true
  else mret ().

(** [application/platform/diagnostic_manager.cpp:336-370] the body of Main's loop *)
Definition iterate (cState : SdClientState) (endpoint : option (string * Z)) (measured : Z) : M t () :=
  checkServiceDiscovery cState endpoint measured;;
  modify (fun s => set_counter (u32 (heartbeatCounter s + 1)) s);;
  s ← get;
  if heartbeatCounter s mod 500 =? 0 then log (Heartbeat cState) else mret ().

(** [application/platform/diagnostic_manager.cpp:372-379] the end of Main *)
Definition finish : M t () := modify delete_client;; log Terminated.

(** [application/platform/diagnostic_manager.cpp:391-421] DiagnosticManager::~DiagnosticManager:
    it deletes what is pointed to *)
Definition destroy : M t () :=
  modify (fun s => set_objects None None (created s)
            (remove (mObdToDoipConverter s) (converters s)) (remove (mObdEmulator s) (emulators s)) s);;
  monitor_step DoStopOffer None true true.

(** The manager's loop, its timer expiring, and the end of its loop.  An exception that
    leaves the timer's thread ends the program. *)
Inductive step :=
  | Iterate (cState : SdClientState) (endpoint : option (string * Z)) (measured : Z)
  | Expire (endpoint : option (string * Z)) (reachable started : bool)
  | Finish.

Definition run_step (x : step) : M t () :=
  match x with
  | Iterate cState endpoint measured => iterate cState endpoint measured
  | Expire endpoint reachable started => fun s =>
      match monitor_step (Tick None) endpoint reachable started s with
      | (Throw _, s) => (Throw std_terminate, s)
      | r => r
      end
  | Finish => finish
  end.

Fixpoint run_all (xs : list step) : M t () :=
  match xs with
  | [] => mret ()
  | x :: xs => run_step x;; run_all xs
  end.

End Manager.
End DiagnosticManager.

(** ** Lemmas *)
Module DiagFacts.
Import DiagnosticManager.
Section DiagFacts.
Context (timeBased : TimerBasedDebouncer.TimeBased).

#[local] Hint Extern 0 (Debouncer _) => exact (debouncer timeBased) : typeclass_instances.

Definition status_of (s : t) : EventStatus := TimerBasedDebouncer.status (Monitor.mDebouncer (mMonitor s)).

(** Reports that a verdict is near call nobody and leave the verdict. *)
Lemma prereport_quiet m r d :
  r = Prepassed ∨ r = Prefailed →
  snd (TimerBasedDebouncer.report_ timeBased m r d) = [] ∧
  TimerBasedDebouncer.status (fst (TimerBasedDebouncer.report_ timeBased m r d)) = TimerBasedDebouncer.status d.
Proof.
  intros [-> | ->]; cbn [TimerBasedDebouncer.report_];
    unfold TimerBasedDebouncer.ReportPrepassed, TimerBasedDebouncer.ReportPrefailed;
    [pose proof (TimerBasedDebouncer.turn_quiet timeBased m true d) as [H1 H2]|
     pose proof (TimerBasedDebouncer.turn_quiet timeBased m false d) as [H1 H2]];
    destruct (TimerBasedDebouncer.mIsPassing d);
    repeat match goal with |- context [TimerBasedDebouncer.turn ?c ?m ?b ?d] =>
             destruct (TimerBasedDebouncer.turn c m b d) end;
    cbn [fst snd] in *; by rewrite TimerBasedDebouncer.start_status.
Qed.

(** The event after a verdict, or before the first one. *)
Definition event_matches (st : EventStatus) (e : Event.t) : Prop :=
  Event.mNotifier e = true ∧
  match st with
  | kPending => Event.mEventStatus e = 2 ∧ Event.mFdc e = 0
  | kFailed => Event.mEventStatus e = 128 ∧ Event.mFdc e = 127
  | kPassed => Event.mEventStatus e = 0 ∧ Event.mFdc e = -128
  end.

Definition matches (s : t) : Prop :=
  Monitor.mOffered (mMonitor s) = true ∧
  ∃ e, Monitor.mEvent (mMonitor s) = Some e ∧ event_matches (status_of s) e.

(** The step of a monitor that reports that a verdict is near. *)
Lemma near_step measured action s :
  action = MA_kPrepassed ∨ action = MA_kPrefailed → matches s →
  ∃ m, (∀ endpoint reachable started, monitor_step timeBased (Act measured action) endpoint reachable started s = (Ok (), set_monitor m s)) ∧
    Monitor.mOffered m = true ∧ Monitor.mEvent m = Monitor.mEvent (mMonitor s) ∧
    TimerBasedDebouncer.status (Monitor.mDebouncer m) = status_of s.
Proof.
  intros Ha (Ho & e & He & Hm).
  set (r := match action with MA_kPrepassed => Prepassed | _ => Prefailed end).
  assert (Hr : r = Prepassed ∨ r = Prefailed) by (destruct Ha as [-> | ->]; auto).
  pose proof (prereport_quiet measured r (Monitor.mDebouncer (mMonitor s)) Hr) as [Hq Hst].
  assert (Hstep : do_step (Act measured action) (mMonitor s) = Monitor.debounce measured r (mMonitor s)).
  { cbn [do_step]. unfold Monitor.ReportMonitorAction. run. rewrite Ho. by destruct Ha as [-> | ->]. }
  unfold monitor_step. run. rewrite Hstep. unfold Monitor.debounce. run. cbn [report debouncer TimerBasedDebouncer.TimerDebouncer].
  destruct (TimerBasedDebouncer.report_ timeBased measured r (Monitor.mDebouncer (mMonitor s))) as [d calls].
  cbn [fst snd] in Hq, Hst. subst calls. cbn [Monitor.callbacks].
  exists (Monitor.set_debouncer d (mMonitor s)). split.
  - intros endpoint reachable started. cbn. rewrite He. by rewrite drop_all.
  - done.
Qed.

(** The effect of a verdict on the event. *)
Lemma verdict_event (passed : bool) st e (s : Monitor.t TimerBasedDebouncer.t) :
  Monitor.mEvent s = Some e → event_matches st e → st ≠ (if passed then kPassed else kFailed) →
  ∃ e' : Event.t, Monitor.onEventStatusChanged passed s = (Ok (), Monitor.set_event (Some e') s) ∧
    event_matches (if passed then kPassed else kFailed) e' ∧
    Event.mNotified e' = Event.mNotified e ++ [if passed then 0 else 128] ∧
    Event.mDtcNumber e' = Event.mDtcNumber e.
Proof.
  intros He Hm Hne. unfold Monitor.onEventStatusChanged, Monitor.on_event. rewrite He.
  destruct e as [b n w dtc fdc l]. destruct Hm as [Hn Hm]. cbn in Hn, Hm. subst n.
  destruct st, passed; try done; destruct Hm as [-> ->]; cbn; eexists; by repeat split.
Qed.

(** The timer's end: its verdict, when it is a new one. *)
Definition new_verdict (s : t) : option bool :=
  match TimerBasedDebouncer.mThread (Monitor.mDebouncer (mMonitor s)) with
  | TimerBasedDebouncer.Ticking _ passing =>
      if decide (status_of s = if passing then kPassed else kFailed) then None else Some passing
  | _ => None
  end.

Lemma expire_step endpoint reachable started s :
  matches s →
  match new_verdict s with
  | Some passed =>
      ∃ m e, monitor_step timeBased (Tick None) endpoint reachable started s =
               (onEventStatusChanged e endpoint reachable started;; mret ()) (set_monitor m s) ∧
        matches (set_monitor m s) ∧
        Event.GetDebouncingStatus e = if passed then kFinallyHealed else kFinallyDefective
  | None =>
      ∃ m, monitor_step timeBased (Tick None) endpoint reachable started s = (Ok (), set_monitor m s) ∧
        matches (set_monitor m s)
  end.
Proof.
  intros (Ho & e & He & Hm). unfold new_verdict, status_of, monitor_step. run. cbn [do_step]. run.
  cbn [tick debouncer TimerBasedDebouncer.TimerDebouncer]. unfold TimerBasedDebouncer.tick_end.
  destruct (TimerBasedDebouncer.mThread (Monitor.mDebouncer (mMonitor s))) as [|n passing|] eqn:Hth.
  1, 3: cbn [Monitor.callbacks]; run; eexists; split; [cbn; rewrite He; by rewrite drop_all|]; split; [done|]; by exists e.
  unfold SetEventStatus. case_decide as Hst; cbn [Monitor.callbacks].
  - run. cbn. rewrite He, drop_all. eexists; split; [done|]. split; [done|]. by exists e.
  - assert (Hcalls : (if true then match (if passing then kPassed else kFailed) with kPassed => [true] | kFailed => [false] | kPending => [] end else [])
                     = [passing]) by by destruct passing.
    rewrite Hcalls. cbn [Monitor.callbacks].
    set (d' := TimerBasedDebouncer.mk _ _ _ _).
    destruct (verdict_event passing (status_of s) e (Monitor.set_debouncer d' (mMonitor s)) He Hm Hst)
      as (e' & Hev & Hm' & Hnot & _).
    run. rewrite Hev. cbn. rewrite He, Hnot, drop_app_length.
    exists (Monitor.set_event (Some e') (Monitor.set_debouncer d' (mMonitor s))), e'. split; [done|]. split.
    + split; [done|]. by exists e'.
    + unfold Event.GetDebouncingStatus. destruct Hm' as [_ Hm']. by destruct passing; destruct Hm' as [_ ->].
Qed.

Lemma construct_matches isPassing dtc :
  matches (construct (configureMonitor isPassing (configureEvent dtc))).
Proof. split; [done|]. eexists. split; [reflexivity|]. by repeat split. Qed.

(** How often the service was discovered, by the log. *)
Definition discoveries (s : t) : nat :=
  length (List.filter (fun x => match x with Discovered => true | _ => false end) (logged s)).

(** What the loop leaves alone. *)
Definition objects (s : t) : bool * option nat * list nat * nat * nat :=
  (mSdClient s, mObdEmulator s, emulators s, created s, discoveries s).

Lemma log_quiet x s s' : log x s = (Ok (), s') → x ≠ Discovered → objects s' = objects s ∧ mMonitor s' = mMonitor s.
Proof.
  unfold log, modify. intros [= <-] Hx. split; [|done]. unfold objects, discoveries. cbn.
  rewrite List.filter_app, length_app. destruct x; try done; cbn; by rewrite Nat.add_0_r.
Qed.

(** A method that returns, and leaves the objects and what matches. *)
Definition quiet (m : M t ()) : Prop := ∀ s, matches s →
  ∃ s', m s = (Ok (), s') ∧ matches s' ∧ objects s' = objects s.

Lemma quiet_ret : quiet (mret ()).
Proof. intros s Hs. by exists s. Qed.

Lemma quiet_bind m (f : () → M t ()) : quiet m → quiet (f ()) → quiet (m ≫= f).
Proof.
  intros Hm Hf s Hs. destruct (Hm s Hs) as (s1 & H1 & Hs1 & Ho1). destruct (Hf s1 Hs1) as (s2 & H2 & Hs2 & Ho2).
  exists s2. run. rewrite H1. split; [done|]. split; [done|]. congruence.
Qed.

Lemma quiet_get (f : t → M t ()) : (∀ s, quiet (f s)) → quiet (get ≫= f).
Proof. intros Hf s Hs. by apply Hf. Qed.

Lemma quiet_log x : x ≠ Discovered → quiet (log x).
Proof.
  intros Hx s Hs. eexists. split; [reflexivity|]. split; [done|]. by eapply log_quiet.
Qed.

Lemma quiet_if (b : bool) m m' : quiet m → quiet m' → quiet (if b then m else m').
Proof. by destruct b. Qed.

Lemma quiet_decide (P : Prop) `{Decision P} m m' : quiet m → quiet m' → quiet (if decide P then m else m').
Proof. by destruct (decide P). Qed.

Lemma quiet_near action measured endpoint reachable started :
  action = MA_kPrepassed ∨ action = MA_kPrefailed → quiet (monitor_step timeBased (Act measured action) endpoint reachable started).
Proof.
  intros Ha s Hs. destruct (near_step measured action s Ha Hs) as (m & Hm & Ho & He & Hst).
  exists (set_monitor m s). split; [apply Hm|]. split; [|done].
  destruct Hs as (_ & e & He' & Hmatch). split; [done|]. exists e. split; [by rewrite <- He'|].
  unfold status_of. cbn. by rewrite Hst.
Qed.

Lemma quiet_iterate cState endpoint measured : quiet (iterate timeBased cState endpoint measured).
Proof.
  unfold iterate, checkServiceDiscovery.
  repeat lazymatch goal with
         | |- quiet (get ≫= _) => apply quiet_get; intros ?
         | |- quiet (_ ≫= _) => apply quiet_bind
         | |- quiet (if decide _ then _ else _) => apply quiet_decide
         | |- quiet (if _ then _ else _) => apply quiet_if
         | |- quiet (mret _) => apply quiet_ret
         | |- quiet (log _) => by apply quiet_log
         | |- quiet (monitor_step _ (Act _ MA_kPrepassed) _ _ _) => apply quiet_near; by left
         | |- quiet (monitor_step _ (Act _ MA_kPrefailed) _ _ _) => apply quiet_near; by right
         | |- quiet (modify _) => intros ? ?; by eexists
         end.
Qed.

(** The invariant of a run whose discoveries all start an emulator. *)
Definition inv (s : t) : Prop :=
  matches s ∧ mSdClient s = true ∧ mObdEmulator s = last (emulators s) ∧ NoDup (emulators s) ∧
  (∀ x, x ∈ emulators s → (x < created s)%nat) ∧ length (emulators s) = discoveries s.

(** Steps whose discoveries find the endpoint, the connection and the hardware. *)
Definition in_order (x : step) : Prop :=
  match x with
  | Iterate _ _ _ => True
  | Expire endpoint reachable started => is_Some endpoint ∧ reachable = true ∧ started = true
  | Finish => False
  end.

Lemma inv_step x s : inv s → in_order x → ∃ s', run_step timeBased x s = (Ok (), s') ∧ inv s'.
Proof.
  intros (Hm & Hc & Hl & Hd & Hlt & Hn) Hx. destruct x as [cState endpoint measured|endpoint reachable started|]; [| |done].
  - destruct (quiet_iterate cState endpoint measured s Hm) as (s' & Hrun & Hm' & [= E1 E2 E3 E4 E5]).
    exists s'. split; [done|]. unfold inv. by rewrite E1, E2, E3, E4, E5.
  - destruct Hx as ([ep ->] & -> & ->). cbn [run_step].
    pose proof (expire_step (Some ep) true true s Hm) as Hexp.
    destruct (new_verdict s) as [passed|].
    + destruct Hexp as (m & e & -> & Hm' & Hst). unfold onEventStatusChanged. rewrite Hst. destruct passed.
      * run. cbn. rewrite Hc. cbn. eexists. split; [reflexivity|].
        split; [exact Hm'|]. split; [done|]. cbn. split; [by rewrite last_snoc|]. split.
        { apply NoDup_app. split; [done|]. split; [|apply NoDup_singleton].
          intros y Hy%Hlt ->%list_elem_of_singleton. lia. }
        split; [intros y [Hy%Hlt| ->%list_elem_of_singleton]%elem_of_app; lia|].
        unfold discoveries in *. cbn. rewrite List.filter_app, !length_app, Hn. done.
      * cbn. eexists. split; [reflexivity|]. split; [exact Hm'|]. cbn. split_and!; try done.
        unfold discoveries in *. cbn. rewrite List.filter_app, !length_app, Hn. simpl. lia.
    + destruct Hexp as (m & -> & Hm'). eexists. split; [reflexivity|]. by split.
Qed.

Lemma inv_run xs : ∀ s, inv s → Forall in_order xs → ∃ s', run_all timeBased xs s = (Ok (), s') ∧ inv s'.
Proof.
  induction xs as [|x xs IH]; intros s Hs Hxs; [by exists s|]. apply Forall_cons in Hxs as [Hx Hxs].
  destruct (inv_step x s Hs Hx) as (s1 & H1 & Hs1). destruct (IH s1 Hs1 Hxs) as (s2 & H2 & Hs2).
  exists s2. split; [|done]. cbn [run_all]. run. by rewrite H1.
Qed.

Lemma manager_construct_inv isPassing dtc : inv (construct (configureMonitor isPassing (configureEvent dtc))).
Proof.
  split; [apply construct_matches|]. cbn. split_and!; try done; [constructor|]. by intros x ?%not_elem_of_nil.
Qed.

(** The destructor deletes the last emulator only. *)
Lemma destroy_emulators s : inv s → ∃ s', destroy timeBased s = (Ok (), s') ∧ length (emulators s') = pred (length (emulators s)).
Proof.
  intros ((Ho & e & He & Hm) & Hc & Hl & Hd & Hlt & Hn). unfold destroy, monitor_step. run. cbn [do_step].
  unfold Monitor.StopOffer. run. cbn [set_objects mMonitor]. rewrite Ho. cbn. rewrite He, drop_all. cbn.
  eexists. split; [reflexivity|]. cbn. rewrite Hl. clear -Hd. induction (emulators s) as [|x l _] using rev_ind; [done|].
  rewrite last_snoc. cbn. apply NoDup_app in Hd as (_ & Hx & _).
  rewrite filter_app, filter_cons_False, filter_nil, app_nil_r, length_app by (by intros []). simpl.
  rewrite Nat.add_1_r. simpl. f_equal. clear -Hx. induction l as [|y l IH]; [done|].
  rewrite filter_cons_True.
  - f_equal. apply IH. intros z Hz. apply Hx. by right.
  - intros ->. apply (Hx x); [by left|]. by left.
Qed.

End DiagFacts.
End DiagFacts.

(** ** Properties *)

Import DiagnosticManager.

(** C16: whatever the discovery client goes through, as long as each discovery finds the
    endpoint, the connection and the hardware, the manager's loop and its timer never
    fail, and each discovery starts an emulator more: the earlier ones are forgotten, not
    stopped, and the destructor deletes only the last of them. *)
Theorem every_discovery_starts_an_emulator timeBased isPassing dtc xs :
  Forall DiagFacts.in_order xs →
  ∃ s s', run_all timeBased xs (construct (configureMonitor isPassing (configureEvent dtc))) = (Ok (), s) ∧
    length (emulators s) = DiagFacts.discoveries s ∧
    destroy timeBased s = (Ok (), s') ∧ length (emulators s') = pred (DiagFacts.discoveries s).
Proof.
  intros Hxs. destruct (DiagFacts.inv_run timeBased xs _ (DiagFacts.manager_construct_inv isPassing dtc) Hxs) as (s & Hrun & Hinv).
  destruct (DiagFacts.destroy_emulators timeBased s Hinv) as (s' & Hd & Hl). destruct Hinv as (_ & _ & _ & _ & _ & Hn).
  exists s, s'. by rewrite Hl, Hn.
Qed.

Definition example_times : TimerBasedDebouncer.TimeBased := TimerBasedDebouncer.mkConfig 200 300.
Definition example_endpoint : option (string * Z) := Some ("10.0.0.1"%string, 13400).

(** The service is found, lost and found again, long enough each time. *)
Definition found_twice : list step :=
  [Iterate ServiceReady example_endpoint 0; Expire example_endpoint true true;
   Iterate ServiceNotSeen None 0; Expire example_endpoint true true;
   Iterate ServiceReady example_endpoint 0; Expire example_endpoint true true].

Lemma every_discovery_starts_an_emulator_witness :
  ∃ s s', run_all example_times found_twice (construct (configureMonitor false (configureEvent 7))) = (Ok (), s) ∧
    length (emulators s) = DiagFacts.discoveries s ∧
    destroy example_times s = (Ok (), s') ∧ length (emulators s') = pred (DiagFacts.discoveries s).
Proof.
  apply (every_discovery_starts_an_emulator example_times false 7 found_twice).
  repeat constructor; eauto.
Defined.

(** Two emulators run after this, and one after the destructor. *)
Example two_emulators :
  let s := snd (run_all example_times found_twice (construct (configureMonitor false (configureEvent 7)))) in
  DiagFacts.discoveries s = 2%nat ∧ emulators s = [1; 3]%nat ∧
  emulators (snd (destroy example_times s)) = [1]%nat.
Proof. vm_compute. repeat split. Qed.

(** A discovery is dealt with in the timer's thread: when the timer passes a service
    while the client has no endpoint for it, or the connection to it fails, the program
    is terminated; and when the manager's loop has already ended, the client that was
    deleted is used, which is undefined behaviour. *)
Theorem discovery_in_the_timer_thread timeBased s endpoint reachable started :
  DiagFacts.matches s → DiagFacts.new_verdict s = Some true →
  (mSdClient s = false → fst (run_step timeBased (Expire endpoint reachable started) s) = Undefined) ∧
  (mSdClient s = true → endpoint = None ∨ reachable = false →
   fst (run_step timeBased (Expire endpoint reachable started) s) = Throw std_terminate).
Proof.
  intros Hm Hv. pose proof (DiagFacts.expire_step timeBased endpoint reachable started s Hm) as Hexp. rewrite Hv in Hexp.
  destruct Hexp as (m & e & Hstep & _ & Hst). cbn [run_step]. rewrite Hstep.
  unfold onEventStatusChanged. rewrite Hst. run. cbn. split.
  - by intros ->.
  - intros -> Hbad. cbn. destruct endpoint as [ep|]; [|done]. destruct Hbad as [?| ->]; done.
Qed.

(** The loop ends while the timer is running. *)
Definition ended_too_early : t :=
  Eval vm_compute in
    snd (run_all example_times [Iterate ServiceReady example_endpoint 0; Finish]
      (construct (configureMonitor false (configureEvent 7)))).

Lemma discovery_in_the_timer_thread_witness :
  fst (run_step example_times (Expire example_endpoint true true) ended_too_early) = Undefined.
Proof.
  apply (discovery_in_the_timer_thread example_times ended_too_early example_endpoint true true).
  - split; [reflexivity|]. eexists. split; [reflexivity|]. by repeat split.
  - reflexivity.
  - reflexivity.
Defined.
