(* ===== verification/Uds.v ===== *)
(** * UDS services: ara/diag/routing, ara/diag/meta_info.cpp, ara/diag/ecu_reset_request.cpp,
    ara/diag/generic_routine.cpp

    The router, the interface of the services it routes to, and the services of memory
    transfer (request download or upload, transfer data, request transfer exit), ECU
    reset and routines.  Futures are modelled by what their [get] gives: the services
    fulfil them before they return. *)

From S2P Require Import Prelude Texts.
From Stdlib Require Import Ascii.

(** ** Meta information *)
Module MetaInfo.

(** [ara/diag/meta_info.h:14-30] MetaInfo's values *)
Definition t : Type := gmap string string.

(** [ara/diag/meta_info.cpp:12-24] GetValue *)
Definition GetValue (key : string) (m : t) : option string := m !! key.

(** [ara/diag/meta_info.cpp:26-30] SetValue: [std::map::insert] keeps an old value *)
Definition SetValue (key value : string) (m : t) : t :=
  match m !! key with Some _ => m | None => <[key := value]> m end.

End MetaInfo.

(** [ara/diag/routing/routable_uds_service.h:64-81] TryExtractValue, with the
    conversion to the requested type *)
Definition TryExtractValue (cast : Z → Z) (metaInfo : MetaInfo.t) (key : string) : outcome (option Z) :=
  match MetaInfo.GetValue key metaInfo with
  | Some value => n ← stoi value; Ok (Some (cast n))
  | None => Ok None
  end.

(** ** The services' interface *)

(** [ara/diag/routing/routable_uds_service.h:35-43] the shared constants *)
Definition cPositiveResponseSidIncrement : Z := 64.
Definition cSubFunctionNotSupported : Z := 18.
Definition cIncorrectMessageLength : Z := 19.
Definition cRequestSequenceError : Z := 36.
Definition cNegativeResponseCodeSid : Z := 127.

(** [ara/diag/routing/routable_uds_service.cpp:22-26] GenerateNegativeResponse *)
Definition GenerateNegativeResponse (mSid nrc : Z) : bytes := [cNegativeResponseCodeSid; mSid; nrc].

(** [ara/diag/routing/routable_uds_service.h:28-112] RoutableUdsService: an object that
    lives in a state [S]; [HandleMessage] is given the request, its meta information
    and whether its conversation is cancelled *)
Record RoutableUdsService (S : Type) := {
  GetSid : Z;
  IsOffered : S → bool;
  set_offered : bool → S → S;
  HandleMessage : bytes → MetaInfo.t → bool → M S bytes
}.
Arguments GetSid {S} r.
Arguments IsOffered {S} r s.
Arguments set_offered {S} r b s.
Arguments HandleMessage {S} r requestData metaInfo cancelled.

(** [ara/diag/routing/routable_uds_service.cpp:33-51] Offer: whether it succeeds
    (kAlreadyOffered otherwise) *)
Definition Offer {S} (svc : RoutableUdsService S) : M S bool :=
  s ← get;
  if IsOffered svc s then mret false else modify (set_offered svc true);; mret true.

(** [ara/diag/routing/routable_uds_service.cpp:58-61] StopOffer *)
Definition StopOffer {S} (svc : RoutableUdsService S) : M S () := modify (set_offered svc false).

(** What a client relies on: an answer is the positive response of the service asked,
    or the negative one. *)
Definition answers (sid : Z) (response : bytes) : Prop :=
  head response = Some (u8 (sid + cPositiveResponseSidIncrement)) ∨
  ∃ nrc, response = GenerateNegativeResponse sid nrc.

Class Answering {S} (svc : RoutableUdsService S) : Prop :=
  answering requestData metaInfo cancelled s response s' :
    HandleMessage svc requestData metaInfo cancelled s = (Ok response, s') →
    answers (GetSid svc) response.

(** ** The router *)
Module UdsServiceRouter.
Section UdsServiceRouter.
Context {S : Type}.

(** [ara/diag/routing/uds_service_router.h:14-20] UdsServiceRouter *)
Definition t := gmap Z (RoutableUdsService S).

(** [ara/diag/routing/uds_service_router.cpp:11-14] AddService *)
Definition AddService (svc : RoutableUdsService S) (mServices : t) : t := <[GetSid svc := svc]> mServices.

(** [ara/diag/routing/uds_service_router.cpp:16-24] RemoveService *)
Definition RemoveService (sid : Z) (mServices : t) : t := delete sid mServices.

Definition cNegativeResponseSid : Z := 127.
Definition cServiceNotSupportedNrc : Z := 17.

(** [ara/diag/routing/uds_service_router.cpp:26-68] Route *)
Definition Route (mServices : t) (requestData : bytes) (metaInfo : MetaInfo.t) (cancelled : bool) : M S bytes :=
  match requestData with
  | [] => raise std_invalid_argument
  | cSid :: _ =>
      s ← get;
      match mServices !! cSid with
      | Some svc =>
          if IsOffered svc s then HandleMessage svc requestData metaInfo cancelled
          else mret [cNegativeResponseSid; cSid; cServiceNotSupportedNrc]
      | None => mret [cNegativeResponseSid; cSid; cServiceNotSupportedNrc]
      end
  end.

End UdsServiceRouter.
Arguments t S : clear implicits.
End UdsServiceRouter.

(** ** Memory transfer *)

(** [ara/diag/routing/transfer_data.h:15-20] TransferDirection *)
Inductive TransferDirection := kNone | kDownload | kUpload.

#[export] Instance TransferDirection_eq_dec : EqDecision TransferDirection.
Proof. solve_decision. Defined.

Module TransferData.

(** [ara/diag/routing/transfer_data.h:25-33] the constants *)
Definition cSid : Z := 54.
Definition cMemoryPoolSize : Z := 1024.
Definition cInitialBlockSequenceCounter : Z := 1.
Definition cWrongBlockSequenceCounter : Z := 115.

(** [ara/diag/routing/transfer_data.h:35-40] TransferData *)
Record t := mk {
  mTransferDirection : TransferDirection;
  mMemoryAddress : Z;
  mMemorySize : Z;
  mMemoryPool : bytes;
  mCurrentBlockSequenceCounter : Z;
  mNextBlockSequenceCounter : Z
}.

(** [ara/diag/routing/transfer_data.cpp:15-21] TransferData::TransferData: the pool, the
    address and the size are uninitialised *)
Definition construct (address size : Z) (pool : bytes) : t :=
  mk kNone address size pool cInitialBlockSequenceCounter cInitialBlockSequenceCounter.

Definition set_pool (pool : bytes) (s : t) : t :=
  mk (mTransferDirection s) (mMemoryAddress s) (mMemorySize s) pool
     (mCurrentBlockSequenceCounter s) (mNextBlockSequenceCounter s).
Definition set_counters (current next : Z) (s : t) : t :=
  mk (mTransferDirection s) (mMemoryAddress s) (mMemorySize s) (mMemoryPool s) current next.

(** [ara/diag/routing/transfer_data.cpp:23-36] tryValidateSequenceCounter *)
Definition tryValidateSequenceCounter (counter : Z) (s : t) : bool :=
  (counter =? mCurrentBlockSequenceCounter s) || (counter =? mNextBlockSequenceCounter s).

(** [std::copy] of [n] bytes of [src] to [dst + address]: a range past either end is
    undefined behaviour. *)
Definition copy_ (src : bytes) (n : Z) (dst : bytes) (address : Z) : outcome bytes :=
  if (0 <=? n) && (n <=? size src) && (0 <=? address) && (address + n <=? size dst) then
    Ok (take (Z.to_nat address) dst ++ take (Z.to_nat n) src ++ drop (Z.to_nat (address + n)) dst)
  else Undefined.

(** [ara/diag/routing/transfer_data.cpp:38-90] tryTransfer: the result and the response *)
Definition tryTransfer (blockSequenceCounter : Z) (transferRequestParameterRecord : bytes) : M t (bool * bytes) :=
  s ← get;
  let wrong := mret (false, GenerateNegativeResponse cSid cWrongBlockSequenceCounter) in
  let positive data := mret (true, u8 (cSid + cPositiveResponseSidIncrement) :: blockSequenceCounter :: data) in
  match mTransferDirection s with
  | kDownload =>
      if tryValidateSequenceCounter blockSequenceCounter s then
        pool ← lift (copy_ transferRequestParameterRecord (mMemorySize s) (mMemoryPool s) (mMemoryAddress s));
        modify (set_pool pool);;
        positive []
      else wrong
  | kUpload =>
      if tryValidateSequenceCounter blockSequenceCounter s then
        data ← lift (range_ (mMemoryPool s) (mMemoryAddress s) (mMemoryAddress s + mMemorySize s));
        positive data
      else wrong
  | kNone => mret (false, GenerateNegativeResponse cSid cRequestSequenceError)
  end.

(** [ara/diag/routing/transfer_data.cpp:92-127] HandleMessage *)
Definition HandleMessage (requestData : bytes) : M t bytes :=
  match requestData with
  | _ :: blockSequenceCounter :: transferRequestParameterRecord =>
      '(succeed, response) ← tryTransfer blockSequenceCounter transferRequestParameterRecord;
      (if succeed : bool then modify (set_counters blockSequenceCounter (u8 (blockSequenceCounter + 1))) else mret ());;
      mret response
  | _ => mret (GenerateNegativeResponse cSid cIncorrectMessageLength)
  end.

(** [ara/diag/routing/transfer_data.cpp:129-163] TrySetTransferConfiguration; the sum is
    a [size_t] *)
Definition TrySetTransferConfiguration (transferDirection : TransferDirection) (memoryAddress memorySize : Z) :
    M t bool :=
  s ← get;
  if bool_decide (transferDirection = kNone) then mret false
  else if cMemoryPoolSize <=? memoryAddress then mret false
  else if (memorySize =? 0) || (cMemoryPoolSize <? u64 (memoryAddress + memorySize)) then mret false
  else if negb (bool_decide (mTransferDirection s = kNone)) then mret false
  else
    modify (fun s => mk transferDirection memoryAddress memorySize (mMemoryPool s)
                       (mCurrentBlockSequenceCounter s) (mNextBlockSequenceCounter s));;
    mret true.

(** [ara/diag/routing/transfer_data.cpp:165-179] TryResetTransferConfiguration *)
Definition TryResetTransferConfiguration : M t bool :=
  s ← get;
  if bool_decide (mTransferDirection s = kNone) then mret false
  else
    modify (fun s => mk kNone (mMemoryAddress s) (mMemorySize s) (mMemoryPool s)
                       cInitialBlockSequenceCounter cInitialBlockSequenceCounter);;
    mret true.

End TransferData.

Module RequestTransfer.
Section RequestTransfer.

(** The constant members (request_transfer.h): the service's SID and its
    direction, on the transfer data it shares *)
Variables (mSid : Z) (mTransferDirection : TransferDirection).

Definition cRequestOutOfRange : Z := 49.
Definition cUploadDownloadNotAccepted : Z := 112.
Definition cMaxNumberOfBlockLengthKey : string := "MaxNumberOfBlockLength".

(** [ara/diag/routing/request_transfer.cpp:24-53] TryParseRequest *)
Definition TryParseRequest (requestData : bytes) : option (Z * Z * bytes) :=
  match requestData with
  | _ :: dataFormatIdentifier :: addressAndLengthFormatIdentifier :: (_ :: _) as memoryAddressAndSize =>
      Some (dataFormatIdentifier, addressAndLengthFormatIdentifier, memoryAddressAndSize)
  | _ => None
  end.

(** [ara/diag/routing/request_transfer.cpp:55-107] TryParseLengthFormat *)
Definition TryParseLengthFormat (dataFormatIdentifier addressAndLengthFormatIdentifier : Z)
    (memoryAddressAndSize : bytes) : option (Z * Z) :=
  if negb (dataFormatIdentifier =? 0) then None
  else
    let addressLength := Z.land addressAndLengthFormatIdentifier 15 in
    let sizeLength := Z.shiftr addressAndLengthFormatIdentifier 4 in
    if (addressLength =? 2) && (sizeLength =? 2) && (size memoryAddressAndSize =? addressLength + sizeLength) then
      match memoryAddressAndSize with
      | [a1; a0; s1; s0] => Some (Z.lor (Z.shiftl a1 8) a0, Z.lor (Z.shiftl s1 8) s0)
      | _ => None
      end
    else None.

(** [ara/diag/routing/request_transfer.cpp:109-114] TryRequestTransfer *)
Definition TryRequestTransfer (memoryAddress memorySize : Z) : M TransferData.t bool :=
  TransferData.TrySetTransferConfiguration mTransferDirection memoryAddress memorySize.

(** [ara/diag/routing/request_transfer.cpp:116-145] TryGeneratePositiveResponse *)
Definition TryGeneratePositiveResponse (metaInfo : MetaInfo.t) : outcome (option bytes) :=
  maxNumberOfBlockLength ← TryExtractValue u8 metaInfo cMaxNumberOfBlockLengthKey;
  match maxNumberOfBlockLength with
  | Some n => Ok (Some [u8 (mSid + cPositiveResponseSidIncrement); 16; n])
  | None => Ok None
  end.

(** [ara/diag/routing/request_transfer.cpp:147-194] RequestDataTransfer: what the future's
    [get] gives *)
Definition RequestDataTransfer (dataFormatIdentifier addressAndLengthFormatIdentifier : Z)
    (memoryAddressAndSize : bytes) : M TransferData.t () :=
  match TryParseLengthFormat dataFormatIdentifier addressAndLengthFormatIdentifier memoryAddressAndSize with
  | Some (memoryAddress, memorySize) =>
      succeed ← TryRequestTransfer memoryAddress memorySize;
      if succeed : bool then mret () else raise (NrcExecption cUploadDownloadNotAccepted)
  | None => raise (NrcExecption cRequestOutOfRange)
  end.

(** [ara/diag/routing/request_transfer.cpp:196-255] HandleMessage: only NRC exceptions
    are caught, one of [std::stoi] leaves the handler *)
Definition HandleMessage (requestData : bytes) (metaInfo : MetaInfo.t) : M TransferData.t bytes :=
  match TryParseRequest requestData with
  | Some (dataFormatIdentifier, addressAndLengthFormatIdentifier, memoryAddressAndSize) => fun s =>
      let respond : M TransferData.t bytes :=
        RequestDataTransfer dataFormatIdentifier addressAndLengthFormatIdentifier memoryAddressAndSize;;
        response ← lift (TryGeneratePositiveResponse metaInfo);
        mret (default (GenerateNegativeResponse mSid cUploadDownloadNotAccepted) response) in
      match respond s with
      | (Throw (NrcExecption nrc), s) => (Ok (GenerateNegativeResponse mSid nrc), s)
      | r => r
      end
  | None => mret (GenerateNegativeResponse mSid cIncorrectMessageLength)
  end.

End RequestTransfer.
End RequestTransfer.

(** [ara/diag/download.h:14-19] DownloadService::cSid *)
Definition cDownloadSid : Z := 52.
(** [ara/diag/upload.h:14-19] UploadService::cSid *)
Definition cUploadSid : Z := 53.

Module RequestTransferExit.

Definition cSid : Z := 55.

(** [ara/diag/routing/request_transfer_exit.cpp:19-44] HandleMessage *)
Definition HandleMessage : M TransferData.t bytes :=
  succeed ← TransferData.TryResetTransferConfiguration;
  if succeed : bool then mret [u8 (cSid + cPositiveResponseSidIncrement)]
  else mret (GenerateNegativeResponse cSid cRequestSequenceError).

End RequestTransferExit.

(** The object of a server that offers memory transfer: the data both directions share
    and the offering flag of each service. *)
Record TransferServer := mkServer {
  transfer : TransferData.t;
  download_offered : bool;
  upload_offered : bool;
  data_offered : bool;
  exit_offered : bool
}.

Definition on_transfer {A} (m : M TransferData.t A) : M TransferServer A := fun s =>
  let '(r, t) := m (transfer s) in
  (r, mkServer t (download_offered s) (upload_offered s) (data_offered s) (exit_offered s)).

(** [ara/diag/download.cpp:11-16] DownloadService *)
Definition DownloadService : RoutableUdsService TransferServer := {|
  GetSid := cDownloadSid;
  IsOffered := download_offered;
  set_offered := fun b s => mkServer (transfer s) b (upload_offered s) (data_offered s) (exit_offered s);
  HandleMessage := fun req meta _ => on_transfer (RequestTransfer.HandleMessage cDownloadSid kDownload req meta)
|}.

(** [ara/diag/upload.cpp:11-16] UploadService *)
Definition UploadService : RoutableUdsService TransferServer := {|
  GetSid := cUploadSid;
  IsOffered := upload_offered;
  set_offered := fun b s => mkServer (transfer s) (download_offered s) b (data_offered s) (exit_offered s);
  HandleMessage := fun req meta _ => on_transfer (RequestTransfer.HandleMessage cUploadSid kUpload req meta)
|}.

Definition TransferDataService : RoutableUdsService TransferServer := {|
  GetSid := TransferData.cSid;
  IsOffered := data_offered;
  set_offered := fun b s => mkServer (transfer s) (download_offered s) (upload_offered s) b (exit_offered s);
  HandleMessage := fun req _ _ => on_transfer (TransferData.HandleMessage req)
|}.

Definition TransferExitService : RoutableUdsService TransferServer := {|
  GetSid := RequestTransferExit.cSid;
  IsOffered := exit_offered;
  set_offered := fun b s => mkServer (transfer s) (download_offered s) (upload_offered s) (data_offered s) b;
  HandleMessage := fun _ _ _ => on_transfer RequestTransferExit.HandleMessage
|}.

Definition transfer_router : UdsServiceRouter.t TransferServer :=
  foldr UdsServiceRouter.AddService ∅ [DownloadService; UploadService; TransferDataService; TransferExitService].

(** ** ECU reset *)

(** [ara/diag/ecu_reset_request.h:13-19] ResetRequestType *)
Inductive ResetRequestType := kSoftReset | kHardReset | kKeyOffOnReset | kCustomReset.

Module EcuResetRequest.

Definition cSid : Z := 17.

(** [ara/diag/ecu_reset_request.h:22-29] EcuResetRequest: the promise's value once its
    future was taken *)
Record t := mk { mOffered : bool; mResetType : option ResetRequestType; mRapidShutdownEnabled : bool }.

(** [ara/diag/ecu_reset_request.cpp:145-165] RequestReset: whether the future it returns
    is valid *)
Definition RequestReset (resetType : ResetRequestType) : M t bool :=
  s ← get;
  match mResetType s with
  | None => modify (fun s => mk (mOffered s) (Some resetType) (mRapidShutdownEnabled s));; mret true
  | Some _ => mret false
  end.

(** [ara/diag/ecu_reset_request.cpp:167-177] ExecuteReset *)
Definition ExecuteReset : M t () := raise std_logic_error.

(** [ara/diag/ecu_reset_request.cpp:179-190] EnableRapidShutdown *)
Definition EnableRapidShutdown (enable : bool) : M t bool :=
  modify (fun s => mk (mOffered s) (mResetType s) enable);; mret true.

(** [ara/diag/ecu_reset_request.cpp:17-86] TryHandleSubFunction: the result, and whether
    a power-down time is required *)
Definition TryHandleSubFunction (subFunction : Z) : M t (bool * bool) :=
  result ←
    (if subFunction =? 1 then RequestReset kHardReset
     else if subFunction =? 2 then RequestReset kKeyOffOnReset
     else if subFunction =? 3 then RequestReset kSoftReset
     else if subFunction =? 4 then EnableRapidShutdown true
     else if subFunction =? 5 then EnableRapidShutdown false
     else mret false);
  mret (result, result && (subFunction =? 4)).

(** [ara/diag/ecu_reset_request.cpp:88-143] HandleMessage *)
Definition HandleMessage_ (requestData : bytes) (metaInfo : MetaInfo.t) : M t bytes :=
  match requestData with
  | _ :: subFunction :: _ =>
      '(succeed, powerDownTimeRequired) ← TryHandleSubFunction subFunction;
      powerDownTime ← (if powerDownTimeRequired : bool then lift (TryExtractValue u8 metaInfo "PowerDownTime") else mret None);
      if (succeed : bool) && (negb powerDownTimeRequired || bool_decide (is_Some powerDownTime)) then
        mret ([u8 (cSid + cPositiveResponseSidIncrement); subFunction] ++
              match powerDownTime with Some n => [n] | None => [] end)
      else mret (GenerateNegativeResponse cSid cSubFunctionNotSupported)
  | _ => mret (GenerateNegativeResponse cSid cIncorrectMessageLength)
  end.

Definition service : RoutableUdsService t := {|
  GetSid := cSid;
  IsOffered := mOffered;
  set_offered := fun b s => mk b (mResetType s) (mRapidShutdownEnabled s);
  HandleMessage := fun req meta _ => HandleMessage_ req meta
|}.

End EcuResetRequest.

(** ** Routines *)
Module GenericRoutine.
Section GenericRoutine.
Context {S : Type}.

(** The pure virtual operations of the class. *)
Variables Start Stop RequestResults : Z → bytes → MetaInfo.t → M S bytes.

Definition cSid : Z := 49.

(** [ara/diag/generic_routine.cpp:17-77] HandleMessage *)
Definition HandleMessage_ (requestData : bytes) (metaInfo : MetaInfo.t) : M S bytes :=
  match requestData with
  | _ :: subFunction :: msb :: lsb :: _ =>
      let routineId := Z.lor (u16 (Z.shiftl msb 8)) lsb in
      if subFunction =? 1 then Start routineId requestData metaInfo
      else if subFunction =? 2 then Stop routineId requestData metaInfo
      else if subFunction =? 3 then RequestResults routineId requestData metaInfo
      else mret (GenerateNegativeResponse cSid cSubFunctionNotSupported)
  | _ => mret (GenerateNegativeResponse cSid cIncorrectMessageLength)
  end.

End GenericRoutine.
End GenericRoutine.

(** ** Lemmas: memory transfer *)
Module Transfer_facts.
Import TransferData.

Definition configured (s : t) : Prop :=
  0 <= mMemoryAddress s ∧ 0 < mMemorySize s ∧ mMemoryAddress s + mMemorySize s <= cMemoryPoolSize.

(** The state of an idle or configured transfer. *)
Definition inv (s : t) : Prop :=
  size (mMemoryPool s) = cMemoryPoolSize ∧
  match mTransferDirection s with
  | kNone => mCurrentBlockSequenceCounter s = 1 ∧ mNextBlockSequenceCounter s = 1
  | _ => configured s
  end.

(** The block that is read past its end: a download's, too short for the region. *)
Definition short_block (requestData : bytes) (s : t) : Prop :=
  match requestData with
  | _ :: counter :: record =>
      mTransferDirection s = kDownload ∧ tryValidateSequenceCounter counter s = true ∧ size record < mMemorySize s
  | _ => False
  end.

(** Where a memory transfer ends: in a defined outcome, with the invariant. *)
Definition safe {A} (r : outcome A * t) : Prop := defined (fst r) ∧ inv (snd r).

Lemma copy_spec src n dst address :
  0 < n → 0 <= address → address + n <= size dst →
  copy_ src n dst address =
    (if n <=? size src then
       Ok (take (Z.to_nat address) dst ++ take (Z.to_nat n) src ++ drop (Z.to_nat (address + n)) dst)
     else Undefined).
Proof.
  intros Hn Ha Hd. unfold copy_. rewrite (proj2 (Z.leb_le 0 n)), (proj2 (Z.leb_le 0 address)),
    (proj2 (Z.leb_le (address + n) _)) by lia. by destruct (n <=? size src).
Qed.

Lemma copy_size src n dst address pool :
  0 < n → 0 <= address → copy_ src n dst address = Ok pool → size pool = size dst.
Proof.
  unfold copy_. intros Hn Ha. destruct (_ && _) eqn:E; [|done]. intros [= <-].
  rewrite !andb_true_iff, !Z.leb_le in E. unfold size in *.
  rewrite !length_app, !length_take, length_drop. lia.
Qed.

Lemma parse_bounds d f v address n :
  is_bytes v → RequestTransfer.TryParseLengthFormat d f v = Some (address, n) ->
  is_u16 address ∧ is_u16 n.
Proof.
  unfold RequestTransfer.TryParseLengthFormat. intros Hv. destruct (d =? 0); [|done]. cbn [negb].
  destruct (_ && _); [|done]. destruct v as [|a [|b [|c [|e []]]]]; try done. intros [= <- <-].
  repeat (apply Forall_cons in Hv as [? Hv]). split; rewrite lor_shiftl_add by ulia; ulia.
Qed.

Lemma set_safe dir address n s :
  is_u16 address → is_u16 n → inv s →
  inv (snd (TrySetTransferConfiguration dir address n s)) ∧
  ∃ b, fst (TrySetTransferConfiguration dir address n s) = Ok b.
Proof.
  intros Ha Hn [Hp Hinv]. unfold TrySetTransferConfiguration. run.
  case_bool_decide as H1; [by split; [|eexists]|].
  destruct (cMemoryPoolSize <=? address) eqn:H2; [by split; [|eexists]|].
  destruct (_ || _) eqn:H3; [by split; [|eexists]|].
  case_bool_decide as H4; cbn [negb]; [|by split; [|eexists]].
  split; [|by eexists]. split; [done|]. cbn. rewrite Z.leb_gt in H2.
  rewrite orb_false_iff, Z.eqb_neq, Z.ltb_ge in H3. unfold configured. cbn.
  unfold u64 in H3. rewrite Z.mod_small in H3 by ulia. destruct dir; [done|..]; ulia.
Qed.

Lemma RequestTransfer_safe sid dir requestData metaInfo s :
  is_bytes requestData → inv s →
  defined (fst (RequestTransfer.HandleMessage sid dir requestData metaInfo s)) ∧
  inv (snd (RequestTransfer.HandleMessage sid dir requestData metaInfo s)) ∧
  ∀ r, fst (RequestTransfer.HandleMessage sid dir requestData metaInfo s) = Ok r → answers sid r.
Proof.
  intros Hreq Hinv. unfold RequestTransfer.HandleMessage.
  destruct requestData as [|b0 [|d [|f [|x v]]]]; cbn [RequestTransfer.TryParseRequest]; run;
    try (split; [done|]; split; [done|]; intros r [= <-]; right; by eexists).
  assert (Hv : is_bytes (x :: v)) by (do 3 apply Forall_cons in Hreq as [_ Hreq]; done).
  unfold RequestTransfer.RequestDataTransfer, RequestTransfer.TryRequestTransfer.
  destruct (RequestTransfer.TryParseLengthFormat d f (x :: v)) as [[address n]|] eqn:E; run;
    [|split; [done|]; split; [done|]; intros r [= <-]; right; by eexists].
  destruct (parse_bounds _ _ _ _ _ Hv E) as [Ha Hn].
  destruct (set_safe dir address n s Ha Hn Hinv) as [Hs [b Hb]].
  destruct (TrySetTransferConfiguration dir address n s) as [o s1]. cbn [fst snd] in *. subst o.
  destruct b; run; [|split; [done|]; split; [done|]; intros r [= <-]; right; by eexists].
  unfold RequestTransfer.TryGeneratePositiveResponse, TryExtractValue.
  destruct (MetaInfo.GetValue _ metaInfo) as [value|]; cbn;
    [|split; [done|]; split; [done|]; intros r [= <-]; right; by eexists].
  unfold stoi. destruct (signed value) as [sign v'].
  destruct (digits v' None); [|by split; [done|]; split].
  destruct (_ && _); cbn; [|by split; [done|]; split].
  split; [done|]. split; [done|]. intros r [= <-]. by left.
Qed.

Lemma reset_safe s :
  inv s → inv (snd (RequestTransferExit.HandleMessage s)) ∧
  ∃ r, fst (RequestTransferExit.HandleMessage s) = Ok r ∧ answers RequestTransferExit.cSid r.
Proof.
  intros [Hp Hinv]. unfold RequestTransferExit.HandleMessage, TryResetTransferConfiguration. run.
  case_bool_decide; cbn; (split; [done|]); eexists; (split; [done|]); [right; by eexists|by left].
Qed.

(** The handler of transfer data, outcome by outcome. *)
Lemma TransferData_safe requestData s :
  inv s →
  (short_block requestData s ∧ fst (HandleMessage requestData s) = Undefined) ∨
  (¬ short_block requestData s ∧ inv (snd (HandleMessage requestData s)) ∧
   ∃ r, fst (HandleMessage requestData s) = Ok r ∧ answers cSid r).
Proof.
  intros [Hp Hinv]. destruct requestData as [|b0 [|c record]];
    try (right; split; [by intros []|]; split; [done|]; eexists; split; [done|]; right; by eexists).
  unfold HandleMessage, tryTransfer, short_block. run. unfold inv.
  destruct (mTransferDirection s) eqn:Ed.
  - right. split; [by intros [? _]|]. cbn. rewrite Ed. split; [done|]. eexists; split; [done|]. right; by eexists.
  - destruct Hinv as (Ha & Hn & Hb). destruct (tryValidateSequenceCounter c s) eqn:Ev; cbn [negb].
    2: { right. split; [by intros (_ & ? & _)|]. cbn. rewrite Ed. split; [done|]. eexists; split; [done|]. right; by eexists. }
    rewrite copy_spec by lia. destruct (mMemorySize s <=? size record) eqn:El.
    + rewrite Z.leb_le in El. right. split; [intros (_ & _ & ?); lia|].
      pose proof (copy_spec record (mMemorySize s) (mMemoryPool s) (mMemoryAddress s) Hn Ha ltac:(lia)) as Hc.
      rewrite (proj2 (Z.leb_le _ _) El) in Hc. apply copy_size in Hc; [|done..].
      cbn. rewrite Ed, Hc. split; [done|].
      eexists; split; [done|]. by left.
    + left. rewrite Z.leb_gt in El. done.
  - destruct Hinv as (Ha & Hn & Hb). right. split; [by intros [? _]|].
    destruct (tryValidateSequenceCounter c s) eqn:Ev.
    + unfold range_. rewrite (proj2 (Z.leb_le 0 (mMemoryAddress s))), (proj2 (Z.leb_le (mMemoryAddress s) _)),
        (proj2 (Z.leb_le 0 (_ + _))), (proj2 (Z.leb_le (_ + _) _)), (proj2 (Z.leb_le _ (_ + _))) by (unfold cMemoryPoolSize in *; lia).
      cbn. rewrite Ed. split; [done|]. eexists; split; [done|]. by left.
    + cbn. rewrite Ed. split; [done|]. eexists; split; [done|]. right; by eexists.
Qed.

End Transfer_facts.

(** The answer of a service whose handler works on the shared transfer data. *)
Lemma on_transfer_fst {A} (m : M TransferData.t A) s :
  fst (on_transfer m s) = fst (m (transfer s)) ∧ transfer (snd (on_transfer m s)) = snd (m (transfer s)).
Proof. unfold on_transfer. by destruct (m (transfer s)). Qed.

(** What a transfer router does with a request. *)
Lemma transfer_Route requestData metaInfo cancelled s :
  UdsServiceRouter.Route transfer_router requestData metaInfo cancelled s =
    match requestData with
    | [] => (Throw std_invalid_argument, s)
    | sid :: _ =>
        let routed (svc : RoutableUdsService TransferServer) :=
          if IsOffered svc s then HandleMessage svc requestData metaInfo cancelled s else (Ok [127; sid; 17], s) in
        if sid =? 52 then routed DownloadService
        else if sid =? 53 then routed UploadService
        else if sid =? 54 then routed TransferDataService
        else if sid =? 55 then routed TransferExitService
        else (Ok [127; sid; 17], s)
    end.
Proof.
  unfold UdsServiceRouter.Route. destruct requestData as [|sid req]; [done|]. run.
  unfold transfer_router, UdsServiceRouter.AddService, UdsServiceRouter.t. cbn [foldr GetSid DownloadService UploadService
    TransferDataService TransferExitService]. unfold cDownloadSid, cUploadSid, TransferData.cSid, RequestTransferExit.cSid.
  destruct (sid =? 52) eqn:E1; [apply Z.eqb_eq in E1 as ->; rewrite lookup_insert_eq; by destruct (IsOffered _ s)|].
  destruct (sid =? 53) eqn:E2; [apply Z.eqb_eq in E2 as ->; rewrite lookup_insert_ne, lookup_insert_eq by done; by destruct (IsOffered _ s)|].
  destruct (sid =? 54) eqn:E3; [apply Z.eqb_eq in E3 as ->; rewrite !lookup_insert_ne, lookup_insert_eq by done; by destruct (IsOffered _ s)|].
  destruct (sid =? 55) eqn:E4; [apply Z.eqb_eq in E4 as ->; rewrite !lookup_insert_ne, lookup_insert_eq by done; by destruct (IsOffered _ s)|].
  rewrite Z.eqb_neq in *. by rewrite !lookup_insert_ne, lookup_empty by done.
Qed.

(** The states a server reaches by handling requests that do not read past a block. *)
Inductive transfer_reach (pool : bytes) : TransferServer → Prop :=
  | reach_start address n b1 b2 b3 b4 :
      transfer_reach pool (mkServer (TransferData.construct address n pool) b1 b2 b3 b4)
  | reach_offer svc b s :
      svc ∈ [DownloadService; UploadService; TransferDataService; TransferExitService] →
      transfer_reach pool s → transfer_reach pool (set_offered svc b s)
  | reach_request requestData metaInfo cancelled s :
      is_bytes requestData → transfer_reach pool s →
      fst (UdsServiceRouter.Route transfer_router requestData metaInfo cancelled s) ≠ Undefined →
      transfer_reach pool (snd (UdsServiceRouter.Route transfer_router requestData metaInfo cancelled s)).

Lemma Route_cases requestData metaInfo cancelled s :
  is_bytes requestData → Transfer_facts.inv (transfer s) →
  (head requestData = Some 54 ∧ data_offered s = true ∧ Transfer_facts.short_block requestData (transfer s) ∧
   fst (UdsServiceRouter.Route transfer_router requestData metaInfo cancelled s) = Undefined) ∨
  (¬ (head requestData = Some 54 ∧ data_offered s = true ∧ Transfer_facts.short_block requestData (transfer s)) ∧
   defined (fst (UdsServiceRouter.Route transfer_router requestData metaInfo cancelled s)) ∧
   Transfer_facts.inv (transfer (snd (UdsServiceRouter.Route transfer_router requestData metaInfo cancelled s)))).
Proof.
  intros Hreq Hinv. rewrite transfer_Route. destruct requestData as [|sid req]; [right; split; [by intros [? _]|done]|].
  cbv zeta. cbn [head].
  destruct (sid =? 52) eqn:E1; [|destruct (sid =? 53) eqn:E2; [|destruct (sid =? 54) eqn:E3; [|destruct (sid =? 55) eqn:E4]]];
    rewrite ?Z.eqb_eq, ?Z.eqb_neq in *; subst.
  - right. split; [by intros [? _]|]. destruct (IsOffered DownloadService s); [|done]. cbn [HandleMessage DownloadService].
    destruct (on_transfer_fst (RequestTransfer.HandleMessage cDownloadSid kDownload (52 :: req) metaInfo) s) as [-> ->].
    destruct (Transfer_facts.RequestTransfer_safe cDownloadSid kDownload (52 :: req) metaInfo (transfer s) Hreq Hinv) as (H1 & H2 & _). done.
  - right. split; [by intros [? _]|]. destruct (IsOffered UploadService s); [|done]. cbn [HandleMessage UploadService].
    destruct (on_transfer_fst (RequestTransfer.HandleMessage cUploadSid kUpload (53 :: req) metaInfo) s) as [-> ->].
    destruct (Transfer_facts.RequestTransfer_safe cUploadSid kUpload (53 :: req) metaInfo (transfer s) Hreq Hinv) as (H1 & H2 & _). done.
  - cbn [IsOffered TransferDataService HandleMessage]. destruct (data_offered s); [|by right; split; [intros (_ & ? & _)|done]].
    destruct (on_transfer_fst (TransferData.HandleMessage (54 :: req)) s) as [-> ->].
    destruct (Transfer_facts.TransferData_safe (54 :: req) (transfer s) Hinv) as [[H1 H2]|(H1 & H2 & r & H3 & _)].
    + by left.
    + right. split; [by intros (_ & _ & ?)|]. by rewrite H3.
  - right. split; [by intros [? _]|]. destruct (IsOffered TransferExitService s); [|done]. cbn [HandleMessage TransferExitService].
    destruct (on_transfer_fst RequestTransferExit.HandleMessage s) as [-> ->].
    destruct (Transfer_facts.reset_safe (transfer s) Hinv) as (H1 & r & -> & _). done.
  - right. split; [|done]. intros [[= ?] _]. done.
Qed.

Lemma transfer_reach_inv pool s :
  size pool = TransferData.cMemoryPoolSize → transfer_reach pool s → Transfer_facts.inv (transfer s).
Proof.
  intros Hp. induction 1 as [address n|svc b s Hsvc _ IH|req meta c s Hreq _ IH Hd].
  - split; [done|]. done.
  - rewrite !elem_of_cons in Hsvc. by destruct Hsvc as [->|[->|[->|[->|Hsvc%elem_of_nil]]]].
  - destruct (Route_cases req meta c s Hreq IH) as [(_ & _ & _ & H)|(_ & _ & H)]; [done|exact H].
Qed.

(** A sequence of requests through the router, with their answers. *)
Fixpoint requests (reqs : list bytes) (metaInfo : MetaInfo.t) : M TransferServer (list bytes) :=
  match reqs with
  | [] => mret []
  | req :: reqs =>
      r ← UdsServiceRouter.Route transfer_router req metaInfo false;
      rs ← requests reqs metaInfo;
      mret (r :: rs)
  end.

Lemma requests_cons req reqs metaInfo s r s' :
  UdsServiceRouter.Route transfer_router req metaInfo false s = (Ok r, s') →
  requests (req :: reqs) metaInfo s =
    match requests reqs metaInfo s' with
    | (Ok rs, s'') => (Ok (r :: rs), s'')
    | (Throw e, s'') => (Throw e, s'')
    | (Undefined, s'') => (Undefined, s'')
    | (OutOfFuel, s'') => (OutOfFuel, s'')
    end.
Proof. intros H. cbn [requests]. run. rewrite H. by destruct (requests reqs metaInfo s') as [[] ?]. Qed.

(** The request for a transfer of [n] bytes at [address]. *)
Definition transfer_request (sid address n : Z) : bytes :=
  [sid; 0; 34; Z.shiftr address 8; Z.land address 255; Z.shiftr n 8; Z.land n 255].

Lemma word_bytes n : is_u16 n → Z.lor (Z.shiftl (Z.shiftr n 8) 8) (Z.land n 255) = n.
Proof.
  intros Hn. assert (Hl : Z.land n 255 = n mod 256) by (apply (Z.land_ones n 8); lia).
  rewrite Hl, lor_shiftl_add by ulia. rewrite Z.shiftr_div_pow2 by lia. change (2 ^ 8) with 256. ulia.
Qed.

Lemma transfer_request_parse sid address n :
  is_u16 address → is_u16 n →
  RequestTransfer.TryParseRequest (transfer_request sid address n) =
    Some (0, 34, [Z.shiftr address 8; Z.land address 255; Z.shiftr n 8; Z.land n 255]) ∧
  RequestTransfer.TryParseLengthFormat 0 34 [Z.shiftr address 8; Z.land address 255; Z.shiftr n 8; Z.land n 255] =
    Some (address, n).
Proof.
  intros Ha Hn. split; [done|].
  change (Some (Z.lor (Z.shiftl (Z.shiftr address 8) 8) (Z.land address 255),
    Z.lor (Z.shiftl (Z.shiftr n 8) 8) (Z.land n 255)) = Some (address, n)). by rewrite !word_bytes.
Qed.

(** An accepted request for a transfer. *)
Lemma transfer_accepted sid dir address n k metaInfo t :
  dir ≠ kNone → is_u16 address → 0 < n → address + n <= 1024 →
  TryExtractValue u8 metaInfo RequestTransfer.cMaxNumberOfBlockLengthKey = Ok (Some k) →
  TransferData.mTransferDirection t = kNone →
  RequestTransfer.HandleMessage sid dir (transfer_request sid address n) metaInfo t =
    (Ok [u8 (sid + 64); 16; k],
     TransferData.mk dir address n (TransferData.mMemoryPool t)
       (TransferData.mCurrentBlockSequenceCounter t) (TransferData.mNextBlockSequenceCounter t)).
Proof.
  intros Hdir Ha Hn Hle Hk Ht. unfold RequestTransfer.HandleMessage, RequestTransfer.RequestDataTransfer.
  destruct (transfer_request_parse sid address n Ha ltac:(ulia)) as [-> Hp]. rewrite Hp.
  unfold RequestTransfer.TryRequestTransfer, TransferData.TrySetTransferConfiguration. run.
  rewrite bool_decide_false by done. unfold TransferData.cMemoryPoolSize.
  rewrite (proj2 (Z.leb_gt _ _)) by ulia. rewrite (proj2 (Z.eqb_neq _ _)) by lia.
  rewrite (proj2 (Z.ltb_ge _ _)) by ulia. cbn [orb]. rewrite bool_decide_true by done. cbn [negb].
  unfold RequestTransfer.TryGeneratePositiveResponse. rewrite Hk. done.
Qed.

(** ** Properties *)

(** C25: what is downloaded is what is uploaded: on an idle server that offers the four
    services, downloading [data] to a region of the memory pool, leaving the transfer,
    and uploading the same region gives the positive responses of the protocol and
    exactly those bytes. *)
Theorem memory_transfer_roundtrip s metaInfo k address data :
  s = mkServer (transfer s) true true true true →
  TransferData.mTransferDirection (transfer s) = kNone →
  TransferData.mCurrentBlockSequenceCounter (transfer s) = 1 →
  size (TransferData.mMemoryPool (transfer s)) = 1024 →
  TryExtractValue u8 metaInfo RequestTransfer.cMaxNumberOfBlockLengthKey = Ok (Some k) →
  0 <= address → 0 < size data → address + size data <= 1024 →
  fst (requests
    [transfer_request 52 address (size data); 54 :: 1 :: data; [55];
     transfer_request 53 address (size data); [54; 1]; [55]] metaInfo s) =
  Ok [[116; 16; k]; [118; 1]; [119]; [117; 16; k]; 118 :: 1 :: data; [119]].
Proof.
  intros Hs Hnone Hcur Hpool Hk Ha Hn Hle. rewrite Hs. destruct (transfer s) as [dir addr n pool cur next].
  cbn in Hnone, Hcur, Hpool. subst dir cur. clear Hs s.
  assert (Ha16 : is_u16 address) by (unfold is_u16; lia).
  erewrite requests_cons by (rewrite transfer_Route; cbn [IsOffered DownloadService HandleMessage download_offered];
    unfold on_transfer; cbn [transfer]; by erewrite transfer_accepted).
  cbn [TransferData.mMemoryPool TransferData.mCurrentBlockSequenceCounter TransferData.mNextBlockSequenceCounter].
  pose proof (Transfer_facts.copy_spec data (size data) pool address Hn Ha ltac:(lia)) as Hc.
  rewrite Z.leb_refl in Hc. set (pool' := take _ pool ++ _) in Hc.
  erewrite requests_cons by (rewrite transfer_Route; cbn [IsOffered TransferDataService HandleMessage data_offered];
    unfold on_transfer, TransferData.HandleMessage, TransferData.tryTransfer; run; cbn; rewrite Hc; cbn; reflexivity).
  erewrite requests_cons by (rewrite transfer_Route; reflexivity).
  erewrite requests_cons by (rewrite transfer_Route; cbn [IsOffered UploadService HandleMessage upload_offered];
    unfold on_transfer; cbn [transfer]; by erewrite transfer_accepted).
  assert (Hr : range_ pool' address (address + size data) = Ok data).
  { pose proof (Transfer_facts.copy_size _ _ _ _ _ Hn Ha Hc) as Hs. unfold range_.
    rewrite !(proj2 (Z.leb_le _ _)) by lia. cbn [andb]. f_equal. unfold pool'.
    assert (Hl : length (take (Z.to_nat address) pool) = Z.to_nat address) by (rewrite length_take; unfold size in *; lia).
    rewrite drop_app_le, drop_ge by lia. cbn [app].
    rewrite take_app_le by (rewrite length_take; unfold size in *; lia). rewrite take_take, take_ge; [done|unfold size in *; lia]. }
  erewrite requests_cons by (rewrite transfer_Route; cbn [IsOffered TransferDataService HandleMessage data_offered];
    unfold on_transfer, TransferData.HandleMessage, TransferData.tryTransfer; run; cbn; rewrite Hr; cbn; reflexivity).
  erewrite requests_cons by (rewrite transfer_Route; reflexivity). done.
Qed.

Definition example_meta : MetaInfo.t := MetaInfo.SetValue "MaxNumberOfBlockLength" " 200" ∅.
Definition example_pool : bytes := repeat 0 1024.
Definition example_transfer_server : TransferServer :=
  mkServer (TransferData.construct 7 7 example_pool) true true true true.

Lemma memory_transfer_roundtrip_witness :
  fst (requests
    [transfer_request 52 1000 3; [54; 1; 10; 20; 30]; [55]; transfer_request 53 1000 3; [54; 1]; [55]]
    example_meta example_transfer_server) =
  Ok [[116; 16; 200]; [118; 1]; [119]; [117; 16; 200]; [118; 1; 10; 20; 30]; [119]].
Proof. apply (memory_transfer_roundtrip example_transfer_server example_meta 200 1000 [10; 20; 30]); by_eval. Defined.

(** C24: in every state a transfer server reaches, a request is answered or throws,
    inside the memory pool, with one exception, and it is the only one: a download
    block with an accepted counter that carries fewer bytes than the configured size,
    which is read past its end. *)
Theorem transfer_memory_safe pool s requestData metaInfo cancelled :
  size pool = TransferData.cMemoryPoolSize → transfer_reach pool s → is_bytes requestData →
  let outcome := fst (UdsServiceRouter.Route transfer_router requestData metaInfo cancelled s) in
  let overread := head requestData = Some TransferData.cSid ∧ data_offered s = true ∧
    Transfer_facts.short_block requestData (transfer s) in
  (outcome = Undefined ↔ overread) ∧ (¬ overread → defined outcome).
Proof.
  intros Hp Hs Hreq. pose proof (transfer_reach_inv _ _ Hp Hs) as Hinv. cbv zeta.
  destruct (Route_cases requestData metaInfo cancelled s Hreq Hinv) as [(H1 & H2 & H3 & ->)|(H1 & H2 & _)].
  - split; [done|]. intros H. by destruct H.
  - split; [|done]. split; [|by intros ?]. intros H. by rewrite H in H2.
Qed.

(** A download of 300 bytes is requested and a block of 2 bytes sent. *)
Lemma transfer_memory_safe_witness :
  let s := snd (UdsServiceRouter.Route transfer_router (transfer_request 52 0 300) example_meta false example_transfer_server) in
  fst (UdsServiceRouter.Route transfer_router [54; 1; 10; 20] example_meta false s) = Undefined.
Proof.
  intros s. apply (transfer_memory_safe example_pool s [54; 1; 10; 20] example_meta false eq_refl); [|by_eval|].
  - apply reach_request; [by_eval|apply reach_start|]. vm_compute. discriminate.
  - split; [reflexivity|]. split; [reflexivity|]. split; [reflexivity|]. split; by_eval.
Defined.

(** ** Answers *)

Ltac negative := right; by eexists.

#[export] Instance TransferData_answering : Answering TransferDataService.
Proof.
  intros req meta c s r s' H. cbn [HandleMessage TransferDataService GetSid] in *.
  pose proof (on_transfer_fst (TransferData.HandleMessage req) s) as [Hr _]. rewrite H in Hr. cbn [fst] in Hr. clear H.
  unfold TransferData.HandleMessage, TransferData.tryTransfer in Hr.
  destruct req as [|b0 [|n record]]; try (injection Hr as ->; negative). revert Hr. run.
  destruct (TransferData.mTransferDirection (transfer s)).
  - intros [= ->]. negative.
  - destruct (TransferData.tryValidateSequenceCounter n (transfer s)); [|intros [= ->]; negative].
    destruct (TransferData.copy_ _ _ _ _); try done. intros [= ->]. by left.
  - destruct (TransferData.tryValidateSequenceCounter n (transfer s)); [|intros [= ->]; negative].
    destruct (range_ _ _ _); try done. intros [= ->]. by left.
Qed.

Lemma set_total dir a n t : ∃ b t', TransferData.TrySetTransferConfiguration dir a n t = (Ok b, t').
Proof.
  unfold TransferData.TrySetTransferConfiguration. run. case_bool_decide; [by do 2 eexists|].
  destruct (_ <=? a); [by do 2 eexists|]. destruct (_ || _); [by do 2 eexists|].
  case_bool_decide; by do 2 eexists.
Qed.

Lemma RequestTransfer_answers sid dir req meta t r :
  fst (RequestTransfer.HandleMessage sid dir req meta t) = Ok r → answers sid r.
Proof.
  unfold RequestTransfer.HandleMessage. destruct (RequestTransfer.TryParseRequest req) as [[[d f] v]|];
    [|intros [= <-]; negative].
  unfold RequestTransfer.RequestDataTransfer. destruct (RequestTransfer.TryParseLengthFormat d f v) as [[a n]|]; run;
    [|intros [= <-]; negative].
  unfold RequestTransfer.TryRequestTransfer. destruct (set_total dir a n t) as (b & t' & ->).
  destruct b; run; [|intros [= <-]; negative].
  unfold RequestTransfer.TryGeneratePositiveResponse.
  destruct (TryExtractValue u8 meta _) as [[k|]|[]| |]; cbn; try done; intros [= <-]; [by left|negative..].
Qed.

#[export] Instance Download_answering : Answering DownloadService.
Proof.
  intros req meta c s r s' H. pose proof (on_transfer_fst (RequestTransfer.HandleMessage cDownloadSid kDownload req meta) s) as [Hr _].
  cbn [HandleMessage DownloadService GetSid] in *. rewrite H in Hr. by eapply RequestTransfer_answers.
Qed.

#[export] Instance Upload_answering : Answering UploadService.
Proof.
  intros req meta c s r s' H. pose proof (on_transfer_fst (RequestTransfer.HandleMessage cUploadSid kUpload req meta) s) as [Hr _].
  cbn [HandleMessage UploadService GetSid] in *. rewrite H in Hr. by eapply RequestTransfer_answers.
Qed.

#[export] Instance Exit_answering : Answering TransferExitService.
Proof.
  intros req meta c s r s' H. pose proof (on_transfer_fst RequestTransferExit.HandleMessage s) as [Hr _].
  cbn [HandleMessage TransferExitService GetSid] in *. rewrite H in Hr. cbn [fst] in Hr. clear H.
  unfold RequestTransferExit.HandleMessage, TransferData.TryResetTransferConfiguration in Hr. revert Hr. run.
  case_bool_decide; intros [= ->]; [negative|by left].
Qed.

#[export] Instance EcuReset_answering : Answering EcuResetRequest.service.
Proof.
  intros req meta c s r s' H. cbn [HandleMessage EcuResetRequest.service GetSid] in *.
  unfold EcuResetRequest.HandleMessage_ in H. destruct req as [|b0 [|n req]]; try (injection H as <- _; negative).
  revert H. run. destruct (EcuResetRequest.TryHandleSubFunction n s) as [[[ok needed]| | |] s1]; try done.
  destruct (if needed then _ else _) as [[time| | |] s2] eqn:Et; try done.
  destruct (ok && _); intros [= <- _]; [by left|negative].
Qed.

(** Routers built from answering services. *)
Inductive built {S} : UdsServiceRouter.t S → Prop :=
  | built_empty : built ∅
  | built_add svc r : Answering svc → built r → built (UdsServiceRouter.AddService svc r)
  | built_remove sid r : built r → built (UdsServiceRouter.RemoveService sid r).

Lemma built_spec {S} (r : UdsServiceRouter.t S) sid svc :
  built r → (r : gmap Z (RoutableUdsService S)) !! sid = Some svc → GetSid svc = sid ∧ Answering svc.
Proof.
  unfold UdsServiceRouter.t in *. intros H. revert sid svc.
  induction H as [|svc' r Hsvc _ IH|sid' r _ IH]; intros sid svc Hl.
  - unfold UdsServiceRouter.t in Hl. by rewrite lookup_empty in Hl.
  - unfold UdsServiceRouter.AddService, UdsServiceRouter.t in Hl. destruct (decide (GetSid svc' = sid)) as [<-|Hne].
    + rewrite lookup_insert_eq in Hl. by injection Hl as <-.
    + rewrite lookup_insert_ne in Hl by done. by apply IH.
  - unfold UdsServiceRouter.RemoveService, UdsServiceRouter.t in Hl. apply lookup_delete_Some in Hl as [_ Hl]. by apply IH.
Qed.

(** A router of services that keep the interface's promise keeps it too: every
    answer is the positive response of the service asked for or a negative one for it;
    a request without bytes throws, and one for a service that is not there or not
    offered is answered with service-not-supported and changes nothing. *)
Theorem route_answers {S} (r : UdsServiceRouter.t S) sid req metaInfo cancelled s :
  built r →
  let '(o, s') := UdsServiceRouter.Route r (sid :: req) metaInfo cancelled s in
  (∀ response, o = Ok response → answers sid response) ∧
  (match (r : gmap Z (RoutableUdsService S)) !! sid with Some svc => IsOffered svc s = false | None => True end →
   o = Ok (GenerateNegativeResponse sid 17) ∧ s' = s) ∧
  UdsServiceRouter.Route r [] metaInfo cancelled s = (Throw std_invalid_argument, s).
Proof.
  intros Hr. unfold UdsServiceRouter.Route. run. unfold UdsServiceRouter.t in *.
  destruct ((r : gmap Z (RoutableUdsService S)) !! sid) as [svc|] eqn:Hl.
  - destruct (built_spec r sid svc Hr Hl) as [Hsid Ha]. destruct (IsOffered svc s) eqn:Ho.
    + destruct (HandleMessage svc (sid :: req) metaInfo cancelled s) as [o s'] eqn:E.
      split; [|done]. intros response ->. rewrite <- Hsid. by eapply Ha.
    + split; [|done]. intros response [= <-]. right. by eexists.
  - split; [|done]. intros response [= <-]. right. by eexists.
Qed.

Lemma route_answers_witness :
  let r := UdsServiceRouter.AddService EcuResetRequest.service ∅ in
  answers 17 [81; 3] ∧
  fst (UdsServiceRouter.Route r [62; 0] ∅ false (EcuResetRequest.mk true None false)) = Ok [127; 62; 17].
Proof.
  intros r. assert (Hr : built r) by (apply built_add; [apply EcuReset_answering|apply built_empty]). split.
  - apply (proj1 (route_answers r 17 [3] ∅ false (EcuResetRequest.mk true None false) Hr)). reflexivity.
  - exact (proj1 (proj1 (proj2 (route_answers r 62 [0] ∅ false (EcuResetRequest.mk true None false) Hr)) I)).
Defined.
