(* ===== verification/Security.v ===== *)
(** * Security access: ara/diag/security_access.cpp, ara/diag/routing/delay_timer.cpp

    Seeds, keys, and the delay after too many failed attempts.  The theorems: a level is
    unlocked only by its key, it is never locked again, and what the delay timer does to
    requests - and to the process when it is started a second time. *)

From S2P Require Import Prelude Uds.

Module DelayTimer.

(** [ara/diag/routing/delay_timer.h:16-28] DelayTimer: its thread was never started,
    waits (the timer is active), or has returned without having been joined *)
Inductive t := Inactive | Active | Elapsed.

#[export] Instance t_eq_dec : EqDecision t.
Proof. solve_decision. Defined.

(** [ara/diag/routing/delay_timer.cpp:33-36] IsActive *)
Definition IsActive (s : t) : bool := bool_decide (s = Active).

(** [ara/diag/routing/delay_timer.cpp:20-31] Start, for a positive delay: the
    assignment to a thread that is still joinable terminates the process *)
Definition Start : M t () :=
  s ← get;
  match s with
  | Active => mret ()
  | Inactive => modify (fun _ => Active)
  | Elapsed => raise std_terminate
  end.

(** [ara/diag/routing/delay_timer.cpp:13-18] delay returns *)
Definition elapse (s : t) : t := match s with Active => Elapsed | s => s end.

End DelayTimer.

Module SecurityAccess.

(** [ara/diag/security_access.h:15-27] SecurityLevel *)
Record SecurityLevel := mkLevel { Unlocked : bool; Seed : Z }.

(** [ara/diag/security_access.h:41-62] the constants *)
Definition cSid : Z := 39.
Definition cInitialSeed : Z := 1.
Definition cKeyLength : Z := 2.
Definition cGeneralReject : Z := 16.
Definition cInvalidKey : Z := 53.
Definition cExceededNumberOfAttempts : Z := 54.

(** [ara/diag/security_access.h:64-68] SecurityAccess *)
Record State := mk {
  mOffered : bool;
  mSeed : Z;
  mSecurityLevels : gmap Z SecurityLevel;
  mDelayTimer : DelayTimer.t;
  mFailedUnlockAttempt : Z
}.

(** [ara/diag/security_access.cpp:11-18] SecurityAccess::SecurityAccess *)
Definition construct : State := mk false cInitialSeed ∅ DelayTimer.Inactive 0.

Definition set_levels (l : gmap Z SecurityLevel) (s : State) : State :=
  mk (mOffered s) (mSeed s) l (mDelayTimer s) (mFailedUnlockAttempt s).
Definition set_timer (t : DelayTimer.t) (s : State) : State :=
  mk (mOffered s) (mSeed s) (mSecurityLevels s) t (mFailedUnlockAttempt s).
Definition set_failed (n : Z) (s : State) : State :=
  mk (mOffered s) (mSeed s) (mSecurityLevels s) (mDelayTimer s) n.

(** [ara/diag/security_access.cpp:20-56] hasProblem: the NRC, when there is one *)
Definition hasProblem (requestData : bytes) (s : State) : option Z :=
  match requestData with
  | _ :: subFunction :: _ =>
      let neutral := Z.land subFunction 127 in
      if (neutral =? 0) || ((67 <=? neutral) && (neutral <=? 94)) || ((97 <=? neutral) && (neutral <=? 127))
      then Some cSubFunctionNotSupported
      else if DelayTimer.IsActive (mDelayTimer s) then Some cExceededNumberOfAttempts
      else None
  | _ => Some cIncorrectMessageLength
  end.

(** [ara/diag/security_access.cpp:117-143] tryFetchSeed *)
Definition tryFetchSeed (level : Z) (s : State) : option Z :=
  match mSecurityLevels s !! level with
  | Some l => Some (if Unlocked l then 0 else Seed l)
  | None => None
  end.

(** [ara/diag/security_access.cpp:145-164] addLevel *)
Definition addLevel (level : Z) : M State Z :=
  s ← get;
  modify (fun s => mk (mOffered s) (if mSeed s =? 65535 then cInitialSeed else mSeed s + 1)
                     (<[level := mkLevel false (mSeed s)]> (mSecurityLevels s)) (mDelayTimer s) (mFailedUnlockAttempt s));;
  mret (mSeed s).

(** [ara/diag/security_access.cpp:189-213] GetSeed *)
Definition GetSeed (subFunction : Z) : M State bytes :=
  s ← get;
  seed ← (match tryFetchSeed subFunction s with Some seed => mret seed | None => addLevel subFunction end);
  mret [u8 (Z.shiftr seed 8); u8 seed].

(** [ara/diag/security_access.cpp:166-187] handleRequestSeed *)
Definition handleRequestSeed (subFunction : Z) (suppressPositiveResponse : bool) : M State bytes :=
  seed ← GetSeed subFunction;
  mret (if suppressPositiveResponse then [] else cSid :: seed).

(** [ara/diag/security_access.cpp:317-350] CompareKey; the key has two bytes *)
Definition CompareKey (subFunction : Z) (key : bytes) (metaInfo : MetaInfo.t) : M State bool :=
  encryptor ← lift (TryExtractValue u16 metaInfo "Encryptor");
  match encryptor with
  | Some encryptor =>
      s ← get;
      match mSecurityLevels s !! subFunction with
      | Some l =>
          k0 ← lift (at_ key 0);
          k1 ← lift (at_ key 1);
          mret (u16 (Z.lxor (Seed l) encryptor) =? Z.lor (Z.shiftl k0 8) k1)
      | None => raise std_out_of_range
      end
  | None => mret false
  end.

(** [ara/diag/security_access.cpp:215-225] handlePassedAttempt: the loop that locks the
    other levels works on copies of the map's elements *)
Definition handlePassedAttempt (level : Z) (l : SecurityLevel) : M State () :=
  modify (fun s => set_levels (<[level := mkLevel true (Seed l)]> (mSecurityLevels s)) s).

(** [ara/diag/security_access.cpp:227-261] handleFailedAttempt *)
Definition handleFailedAttempt (metaInfo : MetaInfo.t) : M State () :=
  s ← get;
  if DelayTimer.IsActive (mDelayTimer s) then mret ()
  else
    attemptThreshold ← lift (TryExtractValue u8 metaInfo "AttemptThreshold");
    match attemptThreshold with
    | Some attemptThreshold =>
        exceededAttemptDelay ← lift (TryExtractValue id metaInfo "ExceededAttemptDelay");
        match exceededAttemptDelay with
        | Some _ =>
            let failed := u8 (mFailedUnlockAttempt s + 1) in
            modify (set_failed failed);;
            if attemptThreshold <? failed then
              (fun s => let '(r, t) := DelayTimer.Start (mDelayTimer s) in (r, set_timer t s));;
              modify (set_failed 0)
            else mret ()
        | None => mret ()
        end
    | None => mret ()
    end.

(** [ara/diag/security_access.cpp:263-315] handleSendKey *)
Definition handleSendKey (subFunction : Z) (key : bytes) (metaInfo : MetaInfo.t)
    (suppressPositiveResponse : bool) : M State bytes :=
  if size key =? cKeyLength then
    s ← get;
    let requestSeedSubFunction := u8 (subFunction - 1) in
    match mSecurityLevels s !! requestSeedSubFunction with
    | Some l =>
        valid ← CompareKey requestSeedSubFunction key metaInfo;
        if valid : bool then
          handlePassedAttempt requestSeedSubFunction l;;
          mret (if suppressPositiveResponse then [] else [u8 (cSid + cPositiveResponseSidIncrement); subFunction])
        else
          handleFailedAttempt metaInfo;;
          s ← get;
          mret (GenerateNegativeResponse cSid
                  (if DelayTimer.IsActive (mDelayTimer s) then cExceededNumberOfAttempts else cInvalidKey))
    | None => mret (GenerateNegativeResponse cSid cRequestSequenceError)
    end
  else mret (GenerateNegativeResponse cSid cIncorrectMessageLength).

(** [ara/diag/security_access.cpp:58-115] HandleMessage *)
Definition HandleMessage_ (requestData : bytes) (metaInfo : MetaInfo.t) (cancelled : bool) : M State bytes :=
  s ← get;
  match hasProblem requestData s, requestData with
  | None, _ :: subFunction :: parameters =>
      let suppressPositiveResponse := negb (Z.land subFunction 128 =? 0) in
      if subFunction mod 2 =? 1 then handleRequestSeed subFunction suppressPositiveResponse
      else handleSendKey subFunction parameters metaInfo suppressPositiveResponse
  | None, _ => raise std_out_of_range
  | Some nrc, _ =>
      mret (GenerateNegativeResponse cSid (if cancelled then cGeneralReject else nrc))
  end.

Definition service : RoutableUdsService State := {|
  GetSid := cSid;
  IsOffered := mOffered;
  set_offered := fun b s => mk b (mSeed s) (mSecurityLevels s) (mDelayTimer s) (mFailedUnlockAttempt s);
  HandleMessage := HandleMessage_
|}.

Definition unlocked (level : Z) (s : State) : Prop :=
  ∃ l, mSecurityLevels s !! level = Some l ∧ Unlocked l = true.

(** A request, or the end of the delay. *)
Inductive event := Message (requestData : bytes) (metaInfo : MetaInfo.t) (cancelled : bool) | DelayElapsed.

Definition do_event (ev : event) : M State bytes :=
  match ev with
  | Message req meta c => HandleMessage_ req meta c
  | DelayElapsed => modify (fun s => set_timer (DelayTimer.elapse (mDelayTimer s)) s);; mret []
  end.

(** The answers to a sequence of events; a throw leaves the object as it is. *)
Fixpoint run_events (evs : list event) (s : State) : list (outcome bytes) * State :=
  match evs with
  | [] => ([], s)
  | ev :: evs =>
      let '(r, s) := do_event ev s in
      let '(rs, s) := run_events evs s in (r :: rs, s)
  end.

End SecurityAccess.

(** ** Lemmas *)
Section Security_facts.
Import SecurityAccess.

(** The request that carries the right key for a level. *)
Definition right_key (s : State) (level : Z) (req : bytes) (metaInfo : MetaInfo.t) : Prop :=
  ∃ b0 subFunction k0 k1 l encryptor,
    req = [b0; subFunction; k0; k1] ∧ level = u8 (subFunction - 1) ∧ subFunction mod 2 = 0 ∧
    DelayTimer.IsActive (mDelayTimer s) = false ∧ mSecurityLevels s !! level = Some l ∧
    TryExtractValue u16 metaInfo "Encryptor" = Ok (Some encryptor) ∧
    Z.lor (Z.shiftl k0 8) k1 = u16 (Z.lxor (Seed l) encryptor).

Lemma CompareKey_spec sub key metaInfo s :
  snd (CompareKey sub key metaInfo s) = s ∧
  (fst (CompareKey sub key metaInfo s) = Ok true → size key = 2 →
   ∃ l encryptor k0 k1, mSecurityLevels s !! sub = Some l ∧ key = [k0; k1] ∧
     TryExtractValue u16 metaInfo "Encryptor" = Ok (Some encryptor) ∧
     Z.lor (Z.shiftl k0 8) k1 = u16 (Z.lxor (Seed l) encryptor)).
Proof.
  unfold CompareKey. run. destruct (TryExtractValue u16 metaInfo "Encryptor") as [[e|]| | |]; try done.
  destruct (mSecurityLevels s !! sub) as [l|] eqn:El; [|done].
  destruct (at_ key 0) as [k0| | |] eqn:E0; try done. destruct (at_ key 1) as [k1| | |] eqn:E1; try done.
  cbn. split; [done|]. intros [= H] Hs. apply Z.eqb_eq in H. exists l, e, k0, k1.
  destruct key as [|a [|b [|c key]]]; try done; [|unfold size in Hs; cbn [length] in Hs; lia].
  change (@Ok Z a = Ok k0) in E0. change (@Ok Z b = Ok k1) in E1. injection E0 as ->. injection E1 as ->. done.
Qed.

Lemma failed_levels metaInfo s :
  mSecurityLevels (snd (handleFailedAttempt metaInfo s)) = mSecurityLevels s.
Proof.
  unfold handleFailedAttempt. run. destruct (DelayTimer.IsActive _); [done|].
  destruct (TryExtractValue u8 _ _) as [[t|]| | |]; try done.
  destruct (TryExtractValue id _ _) as [[d|]| | |]; try done.
  destruct (t <? _); [|done]. cbn. by destruct (mDelayTimer s).
Qed.

(** What a request does to the levels: nothing, one new locked level, or the unlocking
    of one level by its key. *)
Lemma HandleMessage_levels req metaInfo c s :
  let l' := mSecurityLevels (snd (HandleMessage_ req metaInfo c s)) in
  l' = mSecurityLevels s ∨
  (∃ level, mSecurityLevels s !! level = None ∧ l' = <[level := mkLevel false (mSeed s)]> (mSecurityLevels s)) ∨
  (∃ level l, right_key s level req metaInfo ∧ mSecurityLevels s !! level = Some l ∧
     l' = <[level := mkLevel true (Seed l)]> (mSecurityLevels s)).
Proof.
  cbv zeta. unfold HandleMessage_. run. destruct (hasProblem req s) as [nrc|] eqn:Ep; [by left|].
  destruct req as [|b0 [|sub key]]; [by left..|].
  assert (Hact : DelayTimer.IsActive (mDelayTimer s) = false).
  { unfold hasProblem in Ep. destruct (_ || _); [done|]. by destruct (DelayTimer.IsActive _). }
  destruct (sub mod 2 =? 1) eqn:Eodd.
  - unfold handleRequestSeed, GetSeed, tryFetchSeed. run.
    destruct (mSecurityLevels s !! sub) as [l|] eqn:El; [by left|]. right. left. exists sub. done.
  - unfold handleSendKey. destruct (size key =? cKeyLength) eqn:Ek; [|by left]. apply Z.eqb_eq in Ek. run.
    destruct (mSecurityLevels s !! u8 (sub - 1)) as [l|] eqn:El; [|by left].
    destruct (CompareKey_spec (u8 (sub - 1)) key metaInfo s) as [Hs Hk].
    destruct (CompareKey (u8 (sub - 1)) key metaInfo s) as [[[]| | |] s1]; cbn [fst snd] in *; subst s1; try by left.
    + destruct (Hk eq_refl Ek) as (l' & e & k0 & k1 & Hl' & -> & He & Hx). right. right.
      exists (u8 (sub - 1)), l. split; [|done]. exists b0, sub, k0, k1, l', e. split_and!; try done.
      apply Z.eqb_neq in Eodd. pose proof (Z.mod_pos_bound sub 2 ltac:(lia)). lia.
    + left. pose proof (failed_levels metaInfo s) as Hf.
      by destruct (handleFailedAttempt metaInfo s) as [[] s1]; cbn in *.
Qed.

Lemma event_levels ev s level :
  unlocked level s → unlocked level (snd (do_event ev s)).
Proof.
  intros (l & Hl & Hu). destruct ev as [req meta c|]; [|by exists l]. cbn [do_event]. unfold unlocked.
  destruct (HandleMessage_levels req meta c s) as [->|[(lv & Hn & ->)|(lv & l' & _ & Hl' & ->)]].
  - by exists l.
  - exists l. split; [|done]. rewrite lookup_insert_ne; [done|]. intros ->. by rewrite Hn in Hl.
  - destruct (decide (lv = level)) as [->|Hne].
    + exists (mkLevel true (Seed l')). by rewrite lookup_insert_eq.
    + exists l. by rewrite lookup_insert_ne.
Qed.

Lemma run_events_cons ev evs s :
  run_events (ev :: evs) s =
    (fst (do_event ev s) :: fst (run_events evs (snd (do_event ev s))), snd (run_events evs (snd (do_event ev s)))).
Proof. cbn [run_events]. destruct (do_event ev s) as [r s']. cbn. by destruct (run_events evs s'). Qed.

Lemma events_levels evs s level : unlocked level s → unlocked level (snd (run_events evs s)).
Proof.
  revert s. induction evs as [|ev evs IH]; intros s Hs; [done|]. rewrite run_events_cons. by apply IH, event_levels.
Qed.

(** A key request for an existing level with the wrong key, and the parameters of the
    delay. *)
Definition wrong_key (s : State) (req : bytes) (metaInfo : MetaInfo.t) (threshold : Z) : Prop :=
  ∃ b0 sub k0 k1 l encryptor delay,
    req = [b0; sub; k0; k1] ∧ sub mod 2 = 0 ∧
    hasProblem req (set_timer DelayTimer.Inactive s) = None ∧
    mSecurityLevels s !! u8 (sub - 1) = Some l ∧
    TryExtractValue u16 metaInfo "Encryptor" = Ok (Some encryptor) ∧
    u16 (Z.lxor (Seed l) encryptor) ≠ Z.lor (Z.shiftl k0 8) k1 ∧
    TryExtractValue u8 metaInfo "AttemptThreshold" = Ok (Some threshold) ∧
    TryExtractValue id metaInfo "ExceededAttemptDelay" = Ok (Some delay).

(** One failed attempt. *)
Lemma wrong_key_step req metaInfo threshold c s :
  wrong_key s req metaInfo threshold → DelayTimer.IsActive (mDelayTimer s) = false →
  0 <= mFailedUnlockAttempt s <= threshold → threshold < 255 →
  let s1 := set_failed (mFailedUnlockAttempt s + 1) s in
  HandleMessage_ req metaInfo c s =
    if decide (mFailedUnlockAttempt s = threshold) then
      match mDelayTimer s with
      | DelayTimer.Elapsed => (Throw std_terminate, s1)
      | _ => (Ok (GenerateNegativeResponse cSid cExceededNumberOfAttempts), set_failed 0 (set_timer DelayTimer.Active s1))
      end
    else (Ok (GenerateNegativeResponse cSid cInvalidKey), s1).
Proof.
  intros (b0 & sub & k0 & k1 & l & e & d & -> & Hodd & Hp & Hl & He & Hk & Ht & Hd) Hact Hf Hth. cbv zeta.
  unfold HandleMessage_. run.
  assert (Hp' : hasProblem [b0; sub; k0; k1] s = None).
  { unfold hasProblem in *. rewrite Hact. destruct (_ || _); [done|done]. }
  rewrite Hp', Hodd. cbn [Z.eqb]. unfold handleSendKey.
  change (size [k0; k1] =? cKeyLength) with true. cbv iota. run. rewrite Hl.
  unfold CompareKey. run. rewrite He, Hl.
  change (at_ [k0; k1] 0) with (@Ok Z k0). change (at_ [k0; k1] 1) with (@Ok Z k1). cbv beta iota.
  rewrite (proj2 (Z.eqb_neq _ _) Hk). unfold handleFailedAttempt. run. rewrite Hact, Ht, Hd.
  assert (Hu : u8 (mFailedUnlockAttempt s + 1) = mFailedUnlockAttempt s + 1) by (apply u8_id; ulia).
  rewrite Hu. case_decide as Heq.
  - rewrite (proj2 (Z.ltb_lt _ _)) by lia. cbn. destruct (mDelayTimer s) eqn:E; [done|by vm_compute in Hact|].
    unfold set_failed. cbn. by rewrite E.
  - rewrite (proj2 (Z.ltb_ge _ _)) by lia. cbn. by rewrite Hact.
Qed.

Lemma wrong_key_same s s' req metaInfo threshold :
  mSecurityLevels s' = mSecurityLevels s → wrong_key s req metaInfo threshold → wrong_key s' req metaInfo threshold.
Proof.
  intros Hl (b0 & sub & k0 & k1 & l & e & d & -> & ? & ? & ? & H).
  exists b0, sub, k0, k1, l, e, d. rewrite Hl. done.
Qed.

(** [n] failed attempts below the threshold. *)
Lemma wrong_keys n req metaInfo threshold s :
  wrong_key s req metaInfo threshold → DelayTimer.IsActive (mDelayTimer s) = false →
  0 <= mFailedUnlockAttempt s → mFailedUnlockAttempt s + Z.of_nat n <= threshold → threshold < 255 →
  run_events (repeat (Message req metaInfo false) n) s =
    (repeat (Ok (GenerateNegativeResponse cSid cInvalidKey)) n, set_failed (mFailedUnlockAttempt s + Z.of_nat n) s).
Proof.
  revert s. induction n as [|n IH]; intros s Hw Ha H0 Hn Ht.
  { cbn. rewrite Z.add_0_r. by destruct s. }
  cbn [repeat]. rewrite run_events_cons. cbn [do_event].
  rewrite (wrong_key_step req metaInfo threshold false s) by (done || lia). rewrite decide_False by lia. cbn [fst snd].
  rewrite IH; cbn [mFailedUnlockAttempt set_failed mDelayTimer]; try (done || lia).
  cbn [fst snd]. f_equal. unfold set_failed. cbn. f_equal. lia.
Qed.

Lemma run_events_app evs evs' s :
  run_events (evs ++ evs') s =
    (fst (run_events evs s) ++ fst (run_events evs' (snd (run_events evs s))), snd (run_events evs' (snd (run_events evs s)))).
Proof.
  revert s. induction evs as [|ev evs IH]; intros s; [cbn; by destruct (run_events evs' s)|].
  cbn [app]. by rewrite !run_events_cons, IH.
Qed.

(** A whole series of failed attempts, to the one that exceeds the threshold. *)
Lemma lockout n req metaInfo s :
  wrong_key s req metaInfo (Z.of_nat n) → DelayTimer.IsActive (mDelayTimer s) = false →
  mFailedUnlockAttempt s = 0 → (n < 255)%nat →
  let '(rs, s') := run_events (repeat (Message req metaInfo false) (S n)) s in
  match mDelayTimer s with
  | DelayTimer.Elapsed => rs = repeat (Ok (GenerateNegativeResponse cSid cInvalidKey)) n ++ [Throw std_terminate]
  | _ => rs = repeat (Ok (GenerateNegativeResponse cSid cInvalidKey)) n ++
           [Ok (GenerateNegativeResponse cSid cExceededNumberOfAttempts)] ∧
         s' = set_failed 0 (set_timer DelayTimer.Active s)
  end.
Proof.
  intros Hw Ha H0 Hn. replace (S n) with (n + 1)%nat by lia. rewrite repeat_app, run_events_app.
  rewrite (wrong_keys n req metaInfo (Z.of_nat n) s) by (done || lia). cbn [fst snd repeat]. rewrite run_events_cons. cbn [do_event].
  rewrite (wrong_key_step req metaInfo (Z.of_nat n)); cbn [mFailedUnlockAttempt mDelayTimer set_failed]; try (done || lia).
  rewrite decide_True by lia. by destruct (mDelayTimer s).
Qed.

End Security_facts.

(** ** Properties *)

(** C32: a level that a request leaves unlocked was unlocked before, or the request is
    the send-key request of that level, outside the delay, with the level's seed
    combined with the encryptor. *)
Theorem unlock_needs_key s level req metaInfo cancelled :
  SecurityAccess.unlocked level (snd (SecurityAccess.HandleMessage_ req metaInfo cancelled s)) →
  ¬ SecurityAccess.unlocked level s → right_key s level req metaInfo.
Proof.
  intros (l & Hl & Hu) Hn.
  destruct (HandleMessage_levels req metaInfo cancelled s) as [H|[(lv & Hnone & H)|(lv & l' & Hk & Hl' & H)]];
    rewrite H in Hl.
  - destruct Hn. by exists l.
  - destruct (decide (lv = level)) as [->|Hne]; [rewrite lookup_insert_eq in Hl; by injection Hl as <-|].
    rewrite lookup_insert_ne in Hl by done. destruct Hn. by exists l.
  - destruct (decide (lv = level)) as [->|Hne]; [done|].
    rewrite lookup_insert_ne in Hl by done. destruct Hn. by exists l.
Qed.

(** A level that was once unlocked stays unlocked through every sequence of requests
    and delays, the unlocking of other levels included, and its seed request is answered
    with the zero seed from then on. *)
Theorem unlocked_forever s evs level :
  SecurityAccess.unlocked level s →
  let s' := snd (SecurityAccess.run_events evs s) in
  SecurityAccess.unlocked level s' ∧ SecurityAccess.GetSeed level s' = (Ok [0; 0], s').
Proof.
  intros Hu. cbv zeta. pose proof (events_levels evs s level Hu) as H. split; [done|].
  destruct H as (l & Hl & Hul). unfold SecurityAccess.GetSeed, SecurityAccess.tryFetchSeed. run. by rewrite Hl, Hul.
Qed.

(** As many wrong keys as the threshold are refused as invalid, the next one starts
    the delay; while it runs every request is refused without effect; once it is over,
    the same series ends the process, because the delay timer's thread is assigned
    while the old one was never joined. *)
Theorem attempts_are_limited n req metaInfo s :
  wrong_key s req metaInfo (Z.of_nat n) → SecurityAccess.mDelayTimer s = DelayTimer.Inactive →
  SecurityAccess.mFailedUnlockAttempt s = 0 → (n < 255)%nat →
  let series := repeat (SecurityAccess.Message req metaInfo false) (S n) in
  let invalid := repeat (Ok (GenerateNegativeResponse SecurityAccess.cSid SecurityAccess.cInvalidKey)) n in
  let s1 := snd (SecurityAccess.run_events series s) in
  fst (SecurityAccess.run_events series s) = invalid ++ [Ok (GenerateNegativeResponse SecurityAccess.cSid SecurityAccess.cExceededNumberOfAttempts)] ∧
  (∀ req' metaInfo' cancelled, ∃ nrc, SecurityAccess.HandleMessage_ req' metaInfo' cancelled s1 =
     (Ok (GenerateNegativeResponse SecurityAccess.cSid nrc), s1)) ∧
  fst (SecurityAccess.run_events (SecurityAccess.DelayElapsed :: series) s1) =
    Ok [] :: invalid ++ [Throw std_terminate].
Proof.
  intros Hw Ht H0 Hn. cbv zeta. pose proof (lockout n req metaInfo s Hw ltac:(by rewrite Ht) H0 Hn) as H.
  destruct (SecurityAccess.run_events (repeat _ (S n)) s) as [rs s1]. rewrite Ht in H. destruct H as [-> ->]. cbn [fst snd].
  split; [done|]. split.
  - intros req' meta' c. unfold SecurityAccess.HandleMessage_. run.
    destruct (SecurityAccess.hasProblem req' _) as [nrc|] eqn:Ep; [by eexists|].
    unfold SecurityAccess.hasProblem in Ep. destruct req' as [|? [|? ?]]; try done. by destruct (_ || _).
  - rewrite run_events_cons. cbn [fst]. f_equal. set (s2 := snd _).
    assert (Hw2 : wrong_key s2 req metaInfo (Z.of_nat n)) by (by eapply wrong_key_same).
    pose proof (lockout n req metaInfo s2 Hw2 eq_refl eq_refl Hn) as H.
    destruct (SecurityAccess.run_events (repeat _ (S n)) s2) as [rs s3]. exact H.
Qed.

Definition example_security_meta : MetaInfo.t :=
  <["Encryptor"%string := "9029"%string]> (<["AttemptThreshold"%string := "2"%string]> {["ExceededAttemptDelay"%string := "10"%string]}).

(** Level 1 has been requested: its seed is 1, its key 1 xor 9029 = 9028 = 35 * 256 + 68. *)
Definition example_security : SecurityAccess.State :=
  snd (SecurityAccess.HandleMessage_ [39; 1] example_security_meta false SecurityAccess.construct).

Lemma unlock_needs_key_witness :
  right_key example_security 1 [39; 2; 35; 68] example_security_meta.
Proof.
  apply (unlock_needs_key example_security 1 [39; 2; 35; 68] example_security_meta false).
  - eexists. split; vm_compute; reflexivity.
  - intros (l & Hl & Hu). vm_compute in Hl. injection Hl as <-. vm_compute in Hu. discriminate.
Defined.

(** Level 1 is unlocked, then level 3, whose seed is 2. *)
Lemma unlocked_forever_witness :
  let s := snd (SecurityAccess.HandleMessage_ [39; 2; 35; 68] example_security_meta false example_security) in
  let evs := [SecurityAccess.Message [39; 3] example_security_meta false;
              SecurityAccess.Message [39; 4; 35; 71] example_security_meta false] in
  SecurityAccess.unlocked 1 (snd (SecurityAccess.run_events evs s)) ∧
  fst (SecurityAccess.run_events evs s) = [Ok [39; 0; 2]; Ok [103; 4]].
Proof.
  intros s evs. split; [|vm_compute; reflexivity].
  refine (proj1 (unlocked_forever s evs 1 _)). eexists. split; vm_compute; reflexivity.
Defined.

Lemma attempts_are_limited_witness :
  wrong_key example_security [39; 2; 0; 0] example_security_meta 2 ∧
  fst (SecurityAccess.run_events (repeat (SecurityAccess.Message [39; 2; 0; 0] example_security_meta false) 3) example_security)
    = [Ok [127; 39; 53]; Ok [127; 39; 53]; Ok [127; 39; 54]].
Proof.
  assert (H : wrong_key example_security [39; 2; 0; 0] example_security_meta (Z.of_nat 2)).
  { exists 39, 2, 0, 0, (SecurityAccess.mkLevel false 1), 9029, 10.
    do 7 (split; [vm_compute; try reflexivity; discriminate|]). vm_compute. reflexivity. }
  split; [exact H|].
  pose proof (attempts_are_limited 2 [39; 2; 0; 0] example_security_meta example_security H eq_refl eq_refl ltac:(lia)) as Hl.
  exact (proj1 Hl).
Defined.
