(* ===== verification/Conversations.v ===== *)
(** * Diagnostic conversations: ara/diag/conversation.cpp

    All conversations live in one static vector, and the program hands out references to
    them.  The vector is modelled with its capacity and the number of its current memory
    block, so that a reference (block and index) dangles once the vector has moved to
    another block; using a dangling reference is undefined behaviour. *)

From S2P Require Import Prelude.

Module Conversation.

(** [ara/diag/conversation.h:17-21] ActivityStatusType *)
Inductive ActivityStatusType := kActive | kInactive.

#[export] Instance ActivityStatusType_eq_dec : EqDecision ActivityStatusType.
Proof. solve_decision. Defined.

(** [ara/diag/conversation.h:23-30] SessionControlType: an enumeration of bytes, whose
    values are kept as numbers *)
Definition kDefaultSession : Z := 1.
Definition kProgrammingSession : Z := 2.
Definition kExtendedDiagnosticSession : Z := 3.
Definition kSafetySystemDiagnosticSession : Z := 4.

(** [ara/diag/conversation.h:32-36] SecurityLevelType *)
Definition kLocked : Z := 0.

(** What notifiers are called with. *)
Inductive notice :=
  | Activity (status : ActivityStatusType)
  | DiagnosticSession (session : Z)
  | SecurityLevel (level : Z).

(** [ara/diag/conversation.h:47-61] Conversation; [mMetaInfo] names the object referred
    to, which no method reads, and notifiers are named by numbers *)
Record t := mk {
  mMetaInfo : nat;
  mActivityStatus : ActivityStatusType;
  mActivityNotifier : option nat;
  mConversationIdentifier : Z;
  mDiagnosticSession : Z;
  mDiagnosticSessionNotifier : option nat;
  mDiagnosticSecurityLevel : Z;
  mSecurityLevelNotifier : option nat
}.

(** [ara/diag/conversation.cpp:10-16] Conversation::Conversation *)
Definition construct (metaInfo : nat) : t := mk metaInfo kActive None (-1) kDefaultSession None kLocked None.

Definition set_activity (status : ActivityStatusType) (c : t) : t :=
  mk (mMetaInfo c) status (mActivityNotifier c) (mConversationIdentifier c) (mDiagnosticSession c)
     (mDiagnosticSessionNotifier c) (mDiagnosticSecurityLevel c) (mSecurityLevelNotifier c).
Definition set_session (session : Z) (c : t) : t :=
  mk (mMetaInfo c) (mActivityStatus c) (mActivityNotifier c) (mConversationIdentifier c) session
     (mDiagnosticSessionNotifier c) (mDiagnosticSecurityLevel c) (mSecurityLevelNotifier c).
Definition set_level (level : Z) (c : t) : t :=
  mk (mMetaInfo c) (mActivityStatus c) (mActivityNotifier c) (mConversationIdentifier c) (mDiagnosticSession c)
     (mDiagnosticSessionNotifier c) level (mSecurityLevelNotifier c).
Definition set_notifiers (activity session level : option nat) (c : t) : t :=
  mk (mMetaInfo c) (mActivityStatus c) activity (mConversationIdentifier c) (mDiagnosticSession c)
     session (mDiagnosticSecurityLevel c) level.

(** [ara/diag/conversation.h:50] mConversations: the vector, the number of the memory
    block it lives in, and the calls of notifiers so far *)
Record Statics := mkStatics {
  block : nat;
  capacity : nat;
  mConversations : list t;
  called : list (nat * notice)
}.

(** [ara/diag/conversation.cpp:8] mConversations, initially *)
Definition initial : Statics := mkStatics 0 0 [] [].

(** A reference to a conversation of the vector, or to the variable of a loop that has
    ended. *)
Inductive ref := InVector (in_block index : nat) | LoopVariable.

Definition set_conversations (cs : list t) (s : Statics) : Statics :=
  mkStatics (block s) (capacity s) cs (called s).

(** What a reference refers to. *)
Definition target (r : ref) (s : Statics) : option t :=
  match r with
  | InVector b i => if decide (b = block s) then mConversations s !! i else None
  | LoopVariable => None
  end.

(** Reading and writing the conversation behind a reference. *)
Definition load (r : ref) : M Statics t := fun s =>
  match target r s with Some c => (Ok c, s) | None => (Undefined, s) end.
Definition store (r : ref) (c : t) : M Statics () := fun s =>
  match r, target r s with
  | InVector _ i, Some _ => (Ok (), set_conversations (<[i := c]> (mConversations s)) s)
  | _, _ => (Undefined, s)
  end.

(** [if (notifier) notifier(n)] *)
Definition call (notifier : option nat) (n : notice) : M Statics () := fun s =>
  match notifier with
  | Some who => (Ok (), mkStatics (block s) (capacity s) (mConversations s) (called s ++ [(who, n)]))
  | None => (Ok (), s)
  end.

Section Vector.
(** The capacity a full vector takes. *)
Variable grow : nat → nat.

(** [mConversations.push_back]: a full vector moves to a new block. *)
Definition push_back (c : t) : M Statics () := fun s =>
  if (length (mConversations s) <? capacity s)%nat then (Ok (), set_conversations (mConversations s ++ [c]) s)
  else (Ok (), mkStatics (S (block s)) (grow (capacity s)) (mConversations s ++ [c]) (called s)).

(** [ara/diag/conversation.cpp:18-26] GetConversation *)
Definition GetConversation (metaInfo : nat) : M Statics ref :=
  push_back (construct metaInfo);;
  s ← get;
  mret (InVector (block s) (length (mConversations s) - 1)).

End Vector.

(** [ara/diag/conversation.cpp:28-34] GetAllConversations *)
Definition GetAllConversations : M Statics (list ref) :=
  s ← get; mret (InVector (block s) <$> seq 0 (length (mConversations s))).

(** [ara/diag/conversation.cpp:51-55] GetActivityStatus *)
Definition GetActivityStatus (r : ref) : M Statics ActivityStatusType := c ← load r; mret (mActivityStatus c).

(** [ara/diag/conversation.cpp:36-49] GetCurrentActiveConversations: the loop's variable
    is a copy of each conversation, and the result refers to this copy *)
Definition GetCurrentActiveConversations : M Statics (list ref) :=
  s ← get;
  mret (omap (fun conversation => if decide (mActivityStatus conversation = kActive) then Some LoopVariable else None)
          (mConversations s)).

(** [ara/diag/conversation.cpp:57-68] Deactivate *)
Definition Deactivate (r : ref) : M Statics () :=
  c ← load r;
  if decide (mActivityStatus c = kInactive) then mret ()
  else store r (set_activity kInactive c);; call (mActivityNotifier c) (Activity kInactive).

(** [ara/diag/conversation.cpp:70-77] SetActivityNotifier *)
Definition SetActivityNotifier (r : ref) (notifier : option nat) : M Statics () :=
  c ← load r; store r (set_notifiers notifier (mDiagnosticSessionNotifier c) (mSecurityLevelNotifier c) c).

(** [ara/diag/conversation.cpp:79-83] GetConversationIdentifier *)
Definition GetConversationIdentifier (r : ref) : M Statics Z := c ← load r; mret (mConversationIdentifier c).

(** [ara/diag/conversation.cpp:85-89] GetDiagnosticSession *)
Definition GetDiagnosticSession (r : ref) : M Statics Z := c ← load r; mret (mDiagnosticSession c).

(** [ara/diag/conversation.cpp:91-101] SetDiagnosticSession *)
Definition SetDiagnosticSession (r : ref) (diagnosticSession : Z) : M Statics () :=
  c ← load r;
  if decide (mDiagnosticSession c = diagnosticSession) then mret ()
  else
    store r (set_session diagnosticSession c);;
    call (mDiagnosticSessionNotifier c) (DiagnosticSession diagnosticSession).

(** [ara/diag/conversation.cpp:103-110] SetDiagnosticSessionNotifier *)
Definition SetDiagnosticSessionNotifier (r : ref) (notifier : option nat) : M Statics () :=
  c ← load r; store r (set_notifiers (mActivityNotifier c) notifier (mSecurityLevelNotifier c) c).

(** [ara/diag/conversation.cpp:112-138] GetDiagnosticSessionShortName *)
Definition GetDiagnosticSessionShortName (session : Z) : string :=
  if session =? kDefaultSession then "Default session"
  else if session =? kProgrammingSession then "Programming session"
  else if session =? kExtendedDiagnosticSession then "Extended diagnostic session"
  else if session =? kSafetySystemDiagnosticSession then "Safety system diagnostic session"
  else "Not supported".

(** [ara/diag/conversation.cpp:140-144] GetDiagnosticSecurityLevel *)
Definition GetDiagnosticSecurityLevel (r : ref) : M Statics Z := c ← load r; mret (mDiagnosticSecurityLevel c).

(** [ara/diag/conversation.cpp:146-153] SetSecurityLevelNotifier *)
Definition SetSecurityLevelNotifier (r : ref) (notifier : option nat) : M Statics () :=
  c ← load r; store r (set_notifiers (mActivityNotifier c) (mDiagnosticSessionNotifier c) notifier c).

(** [ara/diag/conversation.cpp:158-175] GetDiagnosticSecurityLevelShortName *)
Definition GetDiagnosticSecurityLevelShortName (securityLevel : Z) : string :=
  if securityLevel =? kLocked then "Security level locked" else "Not supported".

(** [ara/diag/conversation.cpp:177-193] ResetToDefaultSession *)
Definition ResetToDefaultSession (r : ref) : M Statics () :=
  SetDiagnosticSession r kDefaultSession;;
  c ← load r;
  if decide (mDiagnosticSecurityLevel c = kLocked) then mret ()
  else
    store r (set_level kLocked c);;
    call (mSecurityLevelNotifier c) (SecurityLevel kLocked).

(** A use of a conversation through a reference to it. *)
Inductive use :=
  | UseDeactivate | UseReset
  | UseSession (session : Z)
  | UseActivityNotifier (n : option nat) | UseSessionNotifier (n : option nat) | UseLevelNotifier (n : option nat).

Definition apply (u : use) (r : ref) : M Statics () :=
  match u with
  | UseDeactivate => Deactivate r
  | UseReset => ResetToDefaultSession r
  | UseSession session => SetDiagnosticSession r session
  | UseActivityNotifier n => SetActivityNotifier r n
  | UseSessionNotifier n => SetDiagnosticSessionNotifier r n
  | UseLevelNotifier n => SetSecurityLevelNotifier r n
  end.

(** Any sequence of creations and of uses of the conversations. *)
Inductive step := Create (metaInfo : nat) | Use (u : use) (r : ref).

Definition do_step (grow : nat → nat) (st : step) : M Statics () :=
  match st with
  | Create metaInfo => GetConversation grow metaInfo;; mret ()
  | Use u r => apply u r
  end.

Fixpoint do_steps (grow : nat → nat) (sts : list step) : M Statics () :=
  match sts with
  | [] => mret ()
  | st :: sts => do_step grow st;; do_steps grow sts
  end.

Fixpoint creations (sts : list step) : nat :=
  match sts with
  | [] => 0
  | Create _ :: sts => S (creations sts)
  | Use _ _ :: sts => creations sts
  end.

End Conversation.

(** ** Lemmas *)
Module ConversationFacts.
Import Conversation.

(** What uses of conversations leave alone: where the vector is and whose conversations
    it holds. *)
Definition shape (s : Statics) : nat * nat * list nat := (block s, capacity s, mMetaInfo <$> mConversations s).

(** A method that keeps the shape when it returns. *)
Definition keeps_shape {A} (m : M Statics A) : Prop := ∀ s a s', m s = (Ok a, s') → shape s' = shape s.

Lemma keeps_ret {A} (a : A) : keeps_shape (mret a).
Proof. intros s b s' H. cbv [mret M_ret] in H. by simplify_eq. Qed.

Lemma keeps_call n x : keeps_shape (call n x).
Proof. intros s a s'. unfold call. by destruct n; intros [= <- <-]. Qed.

Lemma load_ok r s c s' : load r s = (Ok c, s') → s' = s ∧ target r s = Some c.
Proof. unfold load. by destruct (target r s); intros H; simplify_eq. Qed.

Lemma target_lookup b i s c : target (InVector b i) s = Some c → b = block s ∧ mConversations s !! i = Some c.
Proof. simpl. by case_decide. Qed.

(** A method that reads a conversation and goes on. *)
Lemma load_bind {A} r (f : t → M Statics A) s a s' :
  (c ← load r; f c) s = (Ok a, s') → ∃ c, target r s = Some c ∧ f c s = (Ok a, s').
Proof. cbv [mbind M_bind]. unfold load. destruct (target r s) as [c|]; [|done]. eauto. Qed.

(** A method that writes back what it read, changed in a field that is not the meta
    information, and calls a notifier. *)
Lemma store_shape r c c' s s' :
  target r s = Some c → mMetaInfo c' = mMetaInfo c → store r c' s = (Ok (), s') → shape s' = shape s.
Proof.
  intros Hc Hm. unfold store. destruct r as [b i|]; [|done]. rewrite Hc. intros [= <-].
  apply target_lookup in Hc as [_ Hi]. unfold shape. simpl. f_equal.
  rewrite list_fmap_insert, Hm. apply list_insert_id. by rewrite list_lookup_fmap, Hi.
Qed.

Lemma store_call_shape r c c' n x s s' :
  target r s = Some c → mMetaInfo c' = mMetaInfo c → (store r c';; call n x) s = (Ok (), s') → shape s' = shape s.
Proof.
  intros Hc Hm. cbv [mbind M_bind]. destruct (store r c' s) as [[[]| | |] s1] eqn:Hst; try done.
  intros Hcall. apply keeps_call in Hcall as ->. by apply (store_shape r c c').
Qed.

Lemma keeps_bind {A B} (m : M Statics A) (f : A → M Statics B) :
  keeps_shape m → (∀ a, keeps_shape (f a)) → keeps_shape (m ≫= f).
Proof.
  intros Hm Hf s b s'. cbv [mbind M_bind]. destruct (m s) as [[a| | |] s1] eqn:H1; try done.
  intros H2. rewrite (Hf _ _ _ _ H2). by apply (Hm _ _ _ H1).
Qed.

Lemma keeps_session r session : keeps_shape (SetDiagnosticSession r session).
Proof.
  intros s [] s' (c & Hc & H)%load_bind. case_decide; [by apply keeps_ret in H|].
  by apply (store_call_shape r c) in H.
Qed.

Lemma keeps_apply u r : keeps_shape (apply u r).
Proof.
  destruct u; simpl; try (by apply keeps_session).
  2: { apply keeps_bind; [apply keeps_session|]. intros _ s [] s' (c & Hc & H)%load_bind.
       case_decide; [by apply keeps_ret in H|]. by apply (store_call_shape r c) in H. }
  all: intros s [] s' (c & Hc & H)%load_bind; try (by apply (store_shape r c) in H).
  case_decide; [by apply keeps_ret in H|]. by apply (store_call_shape r c) in H.
Qed.

Section Grow.
Context (grow : nat → nat) (grow_more : ∀ n, (n < grow n)%nat).

Definition room (s : Statics) : Prop := (length (mConversations s) <= capacity s)%nat.

(** A creation succeeds, and refers to a new, active, locked conversation of the default
    session. *)
Lemma GetConversation_ok metaInfo s :
  ∃ s', GetConversation grow metaInfo s = (Ok (InVector (block s') (length (mConversations s))), s') ∧
    mConversations s' = mConversations s ++ [construct metaInfo] ∧
    called s' = called s ∧
    if decide (length (mConversations s) < capacity s)%nat
    then block s' = block s ∧ capacity s' = capacity s
    else block s' = S (block s) ∧ capacity s' = grow (capacity s).
Proof.
  unfold GetConversation, push_back. cbv [mbind M_bind]. case_decide as Hd.
  - rewrite (proj2 (Nat.ltb_lt _ _) Hd). cbv [get mret M_ret]. cbn [set_conversations mConversations block].
    rewrite length_app. cbn [length]. rewrite Nat.add_sub.
    by exists (set_conversations (mConversations s ++ [construct metaInfo]) s).
  - rewrite (proj2 (Nat.ltb_nlt _ _) Hd). cbv [get mret M_ret]. cbn [set_conversations mConversations block].
    rewrite length_app. cbn [length]. rewrite Nat.add_sub.
    by exists (mkStatics (S (block s)) (grow (capacity s)) (mConversations s ++ [construct metaInfo]) (called s)).
Qed.

Lemma shape_eq s s' : shape s' = shape s →
  block s' = block s ∧ capacity s' = capacity s ∧
  mMetaInfo <$> mConversations s' = mMetaInfo <$> mConversations s ∧
  length (mConversations s') = length (mConversations s).
Proof.
  unfold shape. intros H. simplify_eq. split_and!; try done.
  rewrite <- (length_fmap mMetaInfo (mConversations s')), <- (length_fmap mMetaInfo (mConversations s)).
  by f_equal.
Qed.

(** Where the vector is after any steps, and whose conversations it holds first. *)
Lemma do_steps_shape sts : ∀ s s',
  room s → do_steps grow sts s = (Ok (), s') →
  mMetaInfo <$> mConversations s `prefix_of` mMetaInfo <$> mConversations s' ∧ room s' ∧
  if decide (length (mConversations s) + creations sts <= capacity s)%nat
  then block s' = block s
  else (block s < block s')%nat.
Proof.
  induction sts as [|st sts IH]; intros s s' Hroom.
  - intros [= <-]. split_and!; [done..|]. simpl. rewrite decide_True; [done|]. unfold room in *. lia.
  - simpl. cbv [mbind M_bind]. destruct (do_step grow st s) as [[[]| | |] s1] eqn:Hst; try done.
    intros Hrun. destruct st as [metaInfo|u r].
    + destruct (GetConversation_ok metaInfo s) as (s1' & Hg & Hcs & _ & Hb).
      simpl in Hst. cbv [mbind M_bind mret M_ret] in Hst. rewrite Hg in Hst. simplify_eq.
      assert (Hroom1 : room s1).
      { unfold room in *. rewrite Hcs, length_app. simpl. specialize (grow_more (capacity s)).
        case_decide; destruct Hb as [_ ->]; lia. }
      destruct (IH _ _ Hroom1 Hrun) as (Hp & Hr & Hb'). split_and!; [|done|].
      * etrans; [|exact Hp]. rewrite Hcs, fmap_app. by apply prefix_app_r.
      * revert Hb'. rewrite Hcs, length_app. simpl. unfold room in *.
        specialize (grow_more (capacity s)).
        destruct (decide (length (mConversations s) < capacity s)%nat); destruct Hb as [-> ->];
          repeat case_decide; lia.
    + apply keeps_apply in Hst. apply shape_eq in Hst as (Hb & Hc & Hm & Hl).
      destruct (IH s1 s') as (Hp & Hr & Hb'); [unfold room in *; lia|done|].
      rewrite <- Hm. split_and!; [done..|]. rewrite Hl, Hc, Hb in Hb'. done.
Qed.

End Grow.

(** A reference refers to something when its block is the vector's. *)
Lemma target_some b i s : is_Some (target (InVector b i) s) ↔ b = block s ∧ (i < length (mConversations s))%nat.
Proof.
  simpl. case_decide as Hb.
  - rewrite lookup_lt_is_Some. tauto.
  - split; [by intros [? ?]|tauto].
Qed.

Lemma load_target r c s : target r s = Some c → load r s = (Ok c, s).
Proof. unfold load. by intros ->. Qed.

(** Deactivating the conversation that was just created: it ends inactive, and the
    conversations before it are what they were. *)
Lemma created_then_deactivated grow metaInfo s :
  ∃ r s1 s2, GetConversation grow metaInfo s = (Ok r, s1) ∧ Deactivate r s1 = (Ok (), s2) ∧
    mConversations s1 = mConversations s ++ [construct metaInfo] ∧
    mConversations s2 = mConversations s ++ [set_activity kInactive (construct metaInfo)] ∧ called s2 = called s.
Proof.
  destruct (GetConversation_ok grow metaInfo s) as (s1 & Hg & Hcs & Hca & _).
  eexists _, s1, (set_conversations (mConversations s ++ [set_activity kInactive (construct metaInfo)]) s1).
  split; [done|]. split; [|done].
  assert (Hl : target (InVector (block s1) (length (mConversations s))) s1 = Some (construct metaInfo))
    by (simpl; rewrite decide_True, Hcs by done; by rewrite lookup_app_r, Nat.sub_diag by lia).
  unfold Deactivate. cbv [mbind M_bind]. rewrite (load_target _ _ _ Hl).
  rewrite decide_False by done.
  unfold store. rewrite Hl, Hcs, insert_app_r_alt, Nat.sub_diag by lia. done.
Qed.

End ConversationFacts.

(** ** Properties *)

#[local] Existing Instance Conversation.ActivityStatusType_eq_dec.

(** Whatever is done in between (creations and uses of any conversations), a reference
    to a conversation refers to the same conversation afterwards exactly when the vector
    had room for all the conversations created since; otherwise the vector has moved and
    the reference dangles, so that using it is undefined behaviour. *)
Theorem conversation_reference_survives grow sts s s' b i c :
  (∀ n, (n < grow n)%nat) → ConversationFacts.room s →
  Conversation.target (Conversation.InVector b i) s = Some c →
  Conversation.do_steps grow sts s = (Ok (), s') →
  match Conversation.target (Conversation.InVector b i) s' with
  | Some c' =>
      (length (Conversation.mConversations s) + Conversation.creations sts <= Conversation.capacity s)%nat ∧
      Conversation.mMetaInfo c' = Conversation.mMetaInfo c
  | None =>
      (Conversation.capacity s < length (Conversation.mConversations s) + Conversation.creations sts)%nat
  end.
Proof.
  intros Hgrow Hroom Hc Hrun. apply ConversationFacts.target_lookup in Hc as [-> Hi].
  destruct (ConversationFacts.do_steps_shape grow Hgrow sts s s' Hroom Hrun) as ([l Hp] & _ & Hb).
  assert (Hm : (Conversation.mMetaInfo <$> Conversation.mConversations s') !! i = Some (Conversation.mMetaInfo c)).
  { rewrite Hp. apply lookup_app_l_Some. by rewrite list_lookup_fmap, Hi. }
  rewrite list_lookup_fmap in Hm. simpl. case_decide as Hd; case_decide as Hb'; [|lia|lia|lia].
  destruct (Conversation.mConversations s' !! i); simpl in Hm; by simplify_eq.
Qed.

(** Doubling, from one. *)
Definition example_grow (n : nat) : nat := S (2 * n).

Definition two_created : Conversation.Statics :=
  Eval vm_compute in snd (Conversation.do_steps example_grow [Conversation.Create 1; Conversation.Create 2] Conversation.initial).

Lemma conversation_reference_survives_witness :
  Conversation.capacity two_created = 3%nat ∧
  is_Some (Conversation.target (Conversation.InVector 2 0)
    (snd (Conversation.do_steps example_grow [Conversation.Create 3] two_created))) ∧
  (3 < 2 + 2)%nat.
Proof.
  split; [reflexivity|]. split; [vm_compute; eauto|].
  refine (conversation_reference_survives example_grow [Conversation.Create 3; Conversation.Create 4]
            two_created (snd (Conversation.do_steps example_grow [Conversation.Create 3; Conversation.Create 4] two_created))
            2 0 (Conversation.construct 1) _ _ _ _).
  - intros n. unfold example_grow. lia.
  - vm_compute. lia.
  - reflexivity.
  - reflexivity.
Defined.

(** [GetCurrentActiveConversations] counts the active conversations and changes
    nothing, but each reference it returns is to the variable of its loop: no one of them
    can be used. *)
Theorem active_conversations_dangle s :
  ∃ refs, Conversation.GetCurrentActiveConversations s = (Ok refs, s) ∧
    length refs = length (List.filter (fun c => bool_decide (Conversation.mActivityStatus c = Conversation.kActive))
                            (Conversation.mConversations s)) ∧
    ∀ r u, r ∈ refs → Conversation.apply u r s = (Undefined, s).
Proof.
  eexists. split; [done|]. split.
  - induction (Conversation.mConversations s) as [|c cs IH]; [done|]. simpl.
    destruct (Conversation.mActivityStatus c); simpl; by rewrite <- IH.
  - intros r u Hr. apply list_elem_of_omap in Hr as (c & _ & Hc). case_decide; [|done]. simplify_eq.
    by destruct u.
Qed.
