(* ===== verification/VehicleData.v ===== *)
(** * The vehicle's data by identifier: application/helper/read_data_by_identifier.cpp,
    memory_cache.h, curl_wrapper.cpp

    A UDS service that fetches a value from a web resource, converts it to the bytes of a
    response, and keeps the response in a cache.  Each request opens a conversation in the
    static vector of Conversations.v.  The web transfer and the clock are the world of a
    request; the JSON library is a class of its operations. *)

From stdpp Require Import pretty.
From S2P Require Import Prelude Texts Doubles Uds Conversations.
#[local] Open Scope Z_scope.

(** ** The cache *)
Module MemoryCache.
Section MemoryCache.
Context {T : Type}.

(** [application/helper/memory_cache.h:15-19] MemoryCache, with the keys used; times are
    in nanoseconds *)
Definition t : Type := gmap Z (Z * T).

(** [application/helper/memory_cache.h:31-35] Add: [emplace] keeps an item that is there *)
Definition Add (now : Z) (key : Z) (item : T) (mCachedItems : gmap Z (Z * T)) : gmap Z (Z * T) :=
  match mCachedItems !! key with Some _ => mCachedItems | None => <[key := (now, item)]> mCachedItems end.

(** [application/helper/memory_cache.h:42-66] TryGet *)
Definition TryGet (cLifetime now : Z) (key : Z) (mCachedItems : gmap Z (Z * T)) :
    option T * gmap Z (Z * T) :=
  match mCachedItems !! key with
  | Some (since, item) =>
      if now - since <? cLifetime then (Some item, mCachedItems) else (None, delete key mCachedItems)
  | None => (None, mCachedItems)
  end.

End MemoryCache.
Arguments t T : clear implicits.
End MemoryCache.

(** ** Web transfers *)
Module CurlWrapper.

(** [application/helper/curl_wrapper.cpp:35-49] callback: each call's data replaces the
    buffer *)
Definition callback (received chunk : string) : string := chunk.

(** [application/helper/curl_wrapper.cpp:51-63] TryExecute: whether the transfer
    succeeded, and the buffer after the calls the transfer makes *)
Definition TryExecute (perform : string → list string * bool) (url : string) : bool * string :=
  let '(chunks, ok) := perform url in (ok, fold_left callback chunks EmptyString).

End CurlWrapper.

(** The JSON library: parsing, [operator[]], [asString]. *)
Class Json := {
  Value : Type;
  parse : string → option Value;
  member : Value → string → outcome Value;
  asString : Value → outcome string
}.

(** ** The service *)
Module ReadDataByIdentifier.

(** [application/helper/read_data_by_identifier.h:19-29] the constants *)
Definition cSid : Z := 34.
Definition cAverageSpeedDid : Z := 62733.
Definition cFuelAmountDid : Z := 62767.
Definition cExternalTemperatureDid : Z := 62790.
Definition cAverageFuelConsumptionDid : Z := 62814.
Definition cEngineCoolantTemperatureDid : Z := 62725.
Definition cOdometerValueDid : Z := 62886.
Definition cConditionsNotCorrectNrc : Z := 34.
Definition cRequestOutOfRangeNrc : Z := 49.

(** [application/helper/read_data_by_identifier.cpp:17] cCacheLifetime: 60 s *)
Definition cCacheLifetime : Z := 60 * 1000000000.

(** The world during a request: the clock when the cache is asked and when it is filled,
    and what a transfer gives. *)
Record World := mkWorld { asked_at : Z; perform : string → list string * bool; added_at : Z }.

(** [application/helper/read_data_by_identifier.h:31-37] ReadDataByIdentifier, with the
    offer of its base class and the conversations of the program *)
Record t := mk {
  mOffered : bool;
  cResourcesUrl : string;
  mCache : gmap Z (Z * bytes);
  conversations : Conversation.Statics
}.

(** [application/helper/read_data_by_identifier.cpp:20-27] ReadDataByIdentifier::ReadDataByIdentifier *)
Definition construct (resourcesUrl : string) (cs : Conversation.Statics) : t := mk false resourcesUrl ∅ cs.

Definition set_cache (cache : gmap Z (Z * bytes)) (s : t) : t :=
  mk (mOffered s) (cResourcesUrl s) cache (conversations s).
Definition set_offered (b : bool) (s : t) : t := mk b (cResourcesUrl s) (mCache s) (conversations s).

(** A method of the conversations. *)
Definition on_conversations {A} (m : M Conversation.Statics A) : M t A := fun s =>
  let '(r, cs) := m (conversations s) in (r, mk (mOffered s) (cResourcesUrl s) (mCache s) cs).

(** [application/helper/read_data_by_identifier.cpp:29-38] getDid *)
Definition getDid (requestData : bytes) : outcome Z :=
  msb ← at_ requestData 1;
  lsb ← at_ requestData 2;
  Ok (Z.lor (u16 (Z.shiftl msb 8)) lsb).

(** [application/helper/read_data_by_identifier.cpp:40-54] generateResponse *)
Definition generateResponse (did : Z) (response : bytes) : bytes :=
  response ++ [u8 (cSid + cPositiveResponseSidIncrement); u8 (Z.shiftr did 8); u8 (Z.land did 255)].

Section Service.
Context `{Json}.
Variable w : World.

(** [application/helper/read_data_by_identifier.cpp:56-78] tryGetResourceValue *)
Definition tryGetResourceValue (url resourceKey : string) : outcome (option Value) :=
  let '(ok, restfulResponse) := CurlWrapper.TryExecute (perform w) (String.append url (String.append "/" resourceKey)) in
  if ok : bool then
    match parse restfulResponse with
    | Some jsonValue =>
        resource ← member jsonValue resourceKey;
        value ← member resource "value";
        Ok (Some value)
    | None => Ok None
    end
  else Ok None.

(** What the six readers do with a converted text: the lines they have in common. *)
Definition read_resource (cResourceKey : string) (did : Z) (convert : string → outcome bytes) (response : bytes) :
    M t bytes :=
  s ← get;
  jsonResponse ← lift (tryGetResourceValue (cResourcesUrl s) cResourceKey);
  match jsonResponse with
  | Some jsonResponse =>
      let response := generateResponse did response in
      text ← lift (asString jsonResponse);
      data ← lift (convert text);
      let response := response ++ data in
      modify (fun s => set_cache (MemoryCache.Add (added_at w) did response (mCache s)) s);;
      mret response
  | None => mret (GenerateNegativeResponse cSid cConditionsNotCorrectNrc)
  end.

(** [application/helper/read_data_by_identifier.cpp:90-93] the conversion of getAverageSpeed *)
Definition average_speed (text : string) : outcome bytes := n ← stoul text; Ok [u8 n].

(** [application/helper/read_data_by_identifier.cpp:80-100] getAverageSpeed *)
Definition getAverageSpeed : bytes → M t bytes := read_resource "averageSpeed" cAverageSpeedDid average_speed.

(** The double nearest to 2.55. *)
Definition cConversionGain : double := double_of_decimal false 255 (-2).

(** [application/helper/read_data_by_identifier.cpp:113-117] the conversion of getFuelAmount *)
Definition fuel_amount (text : string) : outcome bytes :=
  n ← stoul text;
  b ← cast_unsigned 256 (double_mul cConversionGain (double_of_Z n));
  Ok [b].

(** [application/helper/read_data_by_identifier.cpp:102-124] getFuelAmount *)
Definition getFuelAmount : bytes → M t bytes := read_resource "fuelAmount" cFuelAmountDid fuel_amount.

(** [application/helper/read_data_by_identifier.cpp:137-144] the conversion of
    getExternalTemperature, and of getEngineCoolantTemperature: the sum is an
    [unsigned long] *)
Definition temperature (text : string) : outcome bytes := n ← stoul text; Ok [u8 (u64 (n + 40))].

(** [application/helper/read_data_by_identifier.cpp:126-151] getExternalTemperature *)
Definition getExternalTemperature : bytes → M t bytes :=
  read_resource "externalTemp" cExternalTemperatureDid temperature.

(** [application/helper/read_data_by_identifier.cpp:165-181] the conversion of
    getAverageFuelConsumption *)
Definition average_fuel_consumption (text : string) : outcome bytes :=
  x ← stod text;
  n ← cast_unsigned 65536 (double_mul (double_of_Z 20) x);
  Ok [u8 (n / 256); u8 (n mod 256)].

(** [application/helper/read_data_by_identifier.cpp:153-188] getAverageFuelConsumption *)
Definition getAverageFuelConsumption : bytes → M t bytes :=
  read_resource "averageFuelConsumption" cAverageFuelConsumptionDid average_fuel_consumption.

(** [application/helper/read_data_by_identifier.cpp:190-215] getEngineCoolantTemperature *)
Definition getEngineCoolantTemperature : bytes → M t bytes :=
  read_resource "engineCoolantTemp" cEngineCoolantTemperatureDid temperature.

(** [application/helper/read_data_by_identifier.cpp:230-247] the conversion of
    getOdometerValue: its loop over the conversion bases, then the least byte *)
Fixpoint odometer_bytes (cConversionBases : list Z) (odometerValueInt : Z) : bytes :=
  match cConversionBases with
  | base :: bases => u8 (odometerValueInt / base) :: odometer_bytes bases (odometerValueInt mod base)
  | [] => [u8 odometerValueInt]
  end.

Definition odometer (text : string) : outcome bytes :=
  x ← stod text;
  n ← cast_unsigned 4294967296 (double_mul (double_of_Z 10) x);
  Ok (odometer_bytes [16777216; 65536; 256] n).

(** [application/helper/read_data_by_identifier.cpp:217-254] getOdometerValue *)
Definition getOdometerValue : bytes → M t bytes := read_resource "odometer" cOdometerValueDid odometer.

(** [application/helper/read_data_by_identifier.cpp:271-293] the switch of HandleMessage *)
Definition read_did (cDid : Z) (response : bytes) : M t bytes :=
  if cDid =? cAverageSpeedDid then getAverageSpeed response
  else if cDid =? cFuelAmountDid then getFuelAmount response
  else if cDid =? cExternalTemperatureDid then getExternalTemperature response
  else if cDid =? cAverageFuelConsumptionDid then getAverageFuelConsumption response
  else if cDid =? cEngineCoolantTemperatureDid then getEngineCoolantTemperature response
  else if cDid =? cOdometerValueDid then getOdometerValue response
  else mret (GenerateNegativeResponse cSid cRequestOutOfRangeNrc).

Variable grow : nat → nat.

(** [application/helper/read_data_by_identifier.cpp:256-306] HandleMessage: the response
    its future gives; the meta information of the conversation is a local variable *)
Definition HandleMessage_ (requestData : bytes) : M t bytes :=
  cDid ← lift (getDid requestData);
  s ← get;
  let '(item, cache) := MemoryCache.TryGet cCacheLifetime (asked_at w) cDid (mCache s) in
  modify (set_cache cache);;
  match item with
  | Some response => mret response
  | None =>
      conversation ← on_conversations (Conversation.GetConversation grow 0);
      response ← read_did cDid [];
      on_conversations (Conversation.Deactivate conversation);;
      mret response
  end.

(** The service as the router sees it. *)
Definition service : RoutableUdsService t := {|
  GetSid := cSid;
  IsOffered := mOffered;
  Uds.set_offered := set_offered;
  HandleMessage := fun requestData _ _ => HandleMessage_ requestData
|}.

End Service.
End ReadDataByIdentifier.

(** ** The specification: a fetch without a cache *)
Module Fetch.
Import ReadDataByIdentifier.
Section Fetch.
Context `{Json}.

(** The resource of each identifier, and the conversion of its value. *)
Definition resources : list (Z * (string * (string → outcome bytes))) :=
  [(cAverageSpeedDid, ("averageSpeed"%string, average_speed));
   (cFuelAmountDid, ("fuelAmount"%string, fuel_amount));
   (cExternalTemperatureDid, ("externalTemp"%string, temperature));
   (cAverageFuelConsumptionDid, ("averageFuelConsumption"%string, average_fuel_consumption));
   (cEngineCoolantTemperatureDid, ("engineCoolantTemp"%string, temperature));
   (cOdometerValueDid, ("odometer"%string, odometer))].

Definition resource_of (did : Z) : option (string * (string → outcome bytes)) :=
  snd <$> List.find (fun entry => did =? fst entry) resources.

(** What a request for an identifier gets from the web: whether the answer is positive,
    and the answer. *)
Definition fetch (w : World) (url : string) (did : Z) : outcome (bool * bytes) :=
  match resource_of did with
  | Some (key, convert) =>
      value ← tryGetResourceValue w url key;
      match value with
      | Some value =>
          text ← asString value;
          data ← convert text;
          Ok (true, [98; did / 256; did mod 256] ++ data)
      | None => Ok (false, [127; 34; 34])
      end
  | None => Ok (false, [127; 34; 49])
  end.

Definition fetched (w : World) (url : string) (did : Z) (r : bytes) : Prop := ∃ b, fetch w url did = Ok (b, r).

(** Requests, each with its world, one after another; an exception leaves the service as
    it is at that point. *)
Fixpoint serve (grow : nat → nat) (reqs : list (World * bytes)) (s : t) : list (outcome bytes) * t :=
  match reqs with
  | [] => ([], s)
  | (w, req) :: reqs =>
      let '(o, s) := HandleMessage_ w grow req s in
      let '(os, s) := serve grow reqs s in (o :: os, s)
  end.

(** *** Lemmas *)

Definition added (w : World) (did : Z) (r : bytes) (s : t) : t :=
  set_cache (MemoryCache.Add (added_at w) did r (mCache s)) s.

Lemma read_resource_fetch w key did convert s :
  is_u16 did →
  read_resource w key did convert [] s =
  match (value ← tryGetResourceValue w (cResourcesUrl s) key;
         match value with
         | Some value =>
             text ← asString value; data ← convert text; Ok (true, [98; did / 256; did mod 256] ++ data)
         | None => Ok (false, [127; 34; 34])
         end) with
  | Ok (true, r) => (Ok r, added w did r s)
  | Ok (false, r) => (Ok r, s)
  | Throw e => (Throw e, s)
  | Undefined => (Undefined, s)
  | OutOfFuel => (OutOfFuel, s)
  end.
Proof.
  intros Hd. unfold read_resource, generateResponse. rewrite Z.shiftr_div_pow2 by lia.
  change (Z.land did 255) with (Z.land did (Z.ones 8)). rewrite Z.land_ones by lia.
  change (2 ^ 8) with 256. rewrite (u8_id (did / 256)), (u8_id (did mod 256)) by ulia.
  run. destruct (tryGetResourceValue w (cResourcesUrl s) key) as [[value|]| | |]; try done.
  cbn [mbind outcome_bind]. destruct (asString value) as [text| | |]; try done.
  cbn [mbind outcome_bind]. by destruct (convert text).
Qed.

Lemma read_did_fetch w did s :
  read_did w did [] s =
  match fetch w (cResourcesUrl s) did with
  | Ok (true, r) => (Ok r, added w did r s)
  | Ok (false, r) => (Ok r, s)
  | Throw e => (Throw e, s)
  | Undefined => (Undefined, s)
  | OutOfFuel => (OutOfFuel, s)
  end.
Proof.
  unfold read_did, fetch, resource_of. cbn [List.find resources fst].
  repeat match goal with
         | |- context [did =? ?c] => destruct (Z.eqb_spec did c) as [->|_]; [apply read_resource_fetch; by split; vm_compute|]
         end.
  done.
Qed.

(** What a fetch puts into the cache. *)
Definition cached_by (w : World) (url : string) (did : Z) (cache : gmap Z (Z * bytes)) : gmap Z (Z * bytes) :=
  match fetch w url did with Ok (true, r) => <[did := (added_at w, r)]> cache | _ => cache end.

Lemma TryGet_none lifetime now key (cache cache' : gmap Z (Z * bytes)) :
  MemoryCache.TryGet lifetime now key cache = (None, cache') →
  cache' !! key = None ∧ ∀ k x, cache' !! k = Some x → cache !! k = Some x.
Proof.
  unfold MemoryCache.TryGet. destruct (cache !! key) as [[since item]|] eqn:Hk.
  - destruct (now - since <? lifetime); intros [= <-]. split; [apply lookup_delete_eq|].
    by intros k x [_ ?]%lookup_delete_Some.
  - by intros [= <-].
Qed.

Lemma TryGet_some lifetime now key (cache cache' : gmap Z (Z * bytes)) r :
  MemoryCache.TryGet lifetime now key cache = (Some r, cache') →
  cache' = cache ∧ ∃ since, cache !! key = Some (since, r) ∧ now - since < lifetime.
Proof.
  unfold MemoryCache.TryGet. destruct (cache !! key) as [[since item]|] eqn:Hk; [|done].
  destruct (Z.ltb_spec (now - since) lifetime); intros [= <- <-]. eauto.
Qed.

Definition set_conversations (cs : Conversation.Statics) (s : t) : t :=
  mk (mOffered s) (cResourcesUrl s) (mCache s) cs.

Lemma on_conversations_eq {A} (m : M Conversation.Statics A) s r cs :
  m (conversations s) = (r, cs) → on_conversations m s = (r, set_conversations cs s).
Proof. unfold on_conversations. by intros ->. Qed.

(** The whole effect of a request. *)
Lemma HandleMessage_effect w grow req s o s' did :
  getDid req = Ok did → HandleMessage_ w grow req s = (o, s') →
  cResourcesUrl s' = cResourcesUrl s ∧
  match MemoryCache.TryGet cCacheLifetime (asked_at w) did (mCache s) with
  | (Some r, cache) => o = Ok r ∧ mCache s' = cache ∧ conversations s' = conversations s
  | (None, cache) =>
      o = ('(_, r) ← fetch w (cResourcesUrl s) did; Ok r) ∧
      mCache s' = cached_by w (cResourcesUrl s) did cache ∧
      Conversation.mConversations (conversations s') =
        Conversation.mConversations (conversations s) ++
        [if is_ok o then Conversation.set_activity Conversation.kInactive (Conversation.construct 0)
         else Conversation.construct 0]
  end.
Proof.
  intros Hdid. unfold HandleMessage_. rewrite Hdid. run.
  destruct (MemoryCache.TryGet cCacheLifetime (asked_at w) did (mCache s)) as [[r|] cache] eqn:Hget.
  { intros [= <- <-]. done. }
  apply TryGet_none in Hget as [Hnone _].
  destruct (ConversationFacts.created_then_deactivated grow 0 (conversations s))
    as (r & s1 & s2 & Hg & Hd & Hcs1 & Hcs & _).
  rewrite (on_conversations_eq _ (set_cache cache s) _ _ Hg), read_did_fetch.
  cbn [cResourcesUrl set_conversations set_cache]. unfold cached_by.
  destruct (fetch w (cResourcesUrl s) did) as [[b answer]| | |]; cycle 1;
    [intros Heq; cbn in Heq; simplify_eq; simpl; by rewrite Hcs1..|].
  destruct b; rewrite (on_conversations_eq _ _ _ s2) by done; intros [= <- <-]; cbn; rewrite Hcs; split_and!; try done.
  unfold MemoryCache.Add. cbn. by rewrite Hnone.
Qed.

Lemma HandleMessage_short w grow req s e : getDid req = Throw e → HandleMessage_ w grow req s = (Throw e, s).
Proof. intros Hdid. unfold HandleMessage_. by rewrite Hdid. Qed.

Lemma getDid_cases req : (∃ did, getDid req = Ok did) ∨ getDid req = Throw std_out_of_range.
Proof.
  unfold getDid, at_.
  destruct ((0 <=? 1) && (1 <? size req)); [|by right].
  destruct (req !! Z.to_nat 1); [|by right].
  destruct ((0 <=? 2) && (2 <? size req)); [|by right].
  destruct (req !! Z.to_nat 2); [|by right]. left. by eexists.
Qed.

(** *** The invariant of the cache: every item is what an earlier request fetched *)
Definition cache_ok (url : string) (past : list (World * bytes)) (s : t) : Prop :=
  cResourcesUrl s = url ∧
  ∀ did since r, mCache s !! did = Some (since, r) →
    ∃ w req, (w, req) ∈ past ∧ getDid req = Ok did ∧ added_at w = since ∧ fetch w url did = Ok (true, r).

Lemma cache_ok_step url grow past w req s o s' :
  cache_ok url past s → HandleMessage_ w grow req s = (o, s') → cache_ok url (past ++ [(w, req)]) s'.
Proof.
  intros [Hurl Hc] Hm.
  assert (Hold : ∀ did since r, mCache s !! did = Some (since, r) →
    ∃ w' req', (w', req') ∈ past ++ [(w, req)] ∧ getDid req' = Ok did ∧ added_at w' = since ∧
      fetch w' url did = Ok (true, r)).
  { intros did since r (w' & req' & Hin & Hrest)%Hc. exists w', req'. rewrite elem_of_app. auto. }
  destruct (getDid_cases req) as [[did Hdid]|Hshort].
  2:{ rewrite (HandleMessage_short _ _ _ _ _ Hshort) in Hm. simplify_eq. by split. }
  destruct (HandleMessage_effect _ _ _ _ _ _ _ Hdid Hm) as [Hurl' He].
  split; [congruence|]. rewrite Hurl in He.
  destruct (MemoryCache.TryGet _ _ _ _) as [[r|] cache] eqn:Hget; destruct He as (_ & Hca & _).
  - apply TryGet_some in Hget as [-> _]. by rewrite Hca.
  - apply TryGet_none in Hget as [_ Hsub]. rewrite Hca. unfold cached_by. intros did' since r Hl.
    assert (Hsubset : cache !! did' = Some (since, r) → mCache s !! did' = Some (since, r))
      by apply Hsub.
    destruct (fetch w url did) as [[[] r']| | |] eqn:Hf; try by apply Hold, Hsubset.
    apply lookup_insert_Some in Hl as [[<- [= <- <-]]|[_ Hl]]; [|by apply Hold, Hsubset].
    exists w, req. split_and!; try done. apply elem_of_app. right. by apply list_elem_of_singleton.
Qed.

Lemma serve_cache_ok url grow reqs : ∀ past s,
  cache_ok url past s → cache_ok url (past ++ reqs) (snd (serve grow reqs s)).
Proof.
  induction reqs as [|[w req] reqs IH]; intros past s Hok; [by rewrite app_nil_r|]. simpl.
  destruct (HandleMessage_ w grow req s) as [o s1] eqn:Hm.
  apply (cache_ok_step _ _ _ _ _ _ _ _ Hok) in Hm. apply IH in Hm. rewrite <- app_assoc in Hm.
  by destruct (serve grow reqs s1).
Qed.

(** A fetch answers as a UDS service does. *)
Lemma fetched_answers w url did r : fetched w url did r → answers cSid r.
Proof.
  intros [b Hf]. unfold fetch in Hf. destruct (resource_of did) as [[key convert]|].
  2:{ simplify_eq. right. by exists 49. }
  apply bind_Ok in Hf as ([value|] & _ & Hf).
  - apply bind_Ok in Hf as (text & _ & Hf). apply bind_Ok in Hf as (data & _ & Hf). simplify_eq. by left.
  - simplify_eq. right. by exists 34.
Qed.

(** *** Conversations *)
Definition active (s : t) : nat :=
  length (List.filter (fun c => match Conversation.mActivityStatus c with Conversation.kActive => true | _ => false end)
            (Conversation.mConversations (conversations s))).

(** The requests that named an identifier and got no answer. *)
Fixpoint unanswered (reqs : list (World * bytes)) (os : list (outcome bytes)) : nat :=
  match reqs, os with
  | (_, req) :: reqs, o :: os => (if is_ok (getDid req) && negb (is_ok o) then 1 else 0) + unanswered reqs os
  | _, _ => 0
  end.

Lemma HandleMessage_active w grow req s o s' :
  HandleMessage_ w grow req s = (o, s') →
  active s' = (active s + if is_ok (getDid req) && negb (is_ok o) then 1 else 0)%nat.
Proof.
  intros Hm. destruct (getDid_cases req) as [[did Hdid]|Hshort].
  2:{ rewrite (HandleMessage_short _ _ _ _ _ Hshort) in Hm. rewrite Hshort. simplify_eq. simpl. lia. }
  destruct (HandleMessage_effect _ _ _ _ _ _ _ Hdid Hm) as [_ He]. rewrite Hdid. simpl. unfold active.
  destruct (MemoryCache.TryGet _ _ _ _) as [[r|] cache].
  - destruct He as (-> & _ & ->). simpl. lia.
  - destruct He as (_ & _ & ->). rewrite List.filter_app, length_app. by destruct (is_ok o).
Qed.

Lemma serve_active grow reqs : ∀ s,
  active (snd (serve grow reqs s)) = (active s + unanswered reqs (fst (serve grow reqs s)))%nat.
Proof.
  induction reqs as [|[w req] reqs IH]; intros s; simpl; [lia|].
  destruct (HandleMessage_ w grow req s) as [o s1] eqn:Hm. apply HandleMessage_active in Hm.
  specialize (IH s1). destruct (serve grow reqs s1). simpl in *. lia.
Qed.

End Fetch.
End Fetch.

(** ** Properties *)

(** C14: whatever was requested before, an answer of the service is what a fetch of the
    requested identifier gave: the fetch of this request, or of an earlier request whose
    item was put into the cache less than 60 s before the cache was asked.  So the cache
    changes no answer but for its age, and every answer is that of a UDS service. *)
Theorem answers_are_fresh `{Json} grow past url cs w req r s' :
  ReadDataByIdentifier.HandleMessage_ w grow req
    (snd (Fetch.serve grow past (ReadDataByIdentifier.construct url cs))) = (Ok r, s') →
  answers ReadDataByIdentifier.cSid r ∧
  ∃ did, ReadDataByIdentifier.getDid req = Ok did ∧
    (Fetch.fetched w url did r ∨
     ∃ w' req', (w', req') ∈ past ∧ ReadDataByIdentifier.getDid req' = Ok did ∧ Fetch.fetched w' url did r ∧
       ReadDataByIdentifier.asked_at w - ReadDataByIdentifier.added_at w' < ReadDataByIdentifier.cCacheLifetime).
Proof.
  intros Hm.
  assert (Hok : Fetch.cache_ok url past (snd (Fetch.serve grow past (ReadDataByIdentifier.construct url cs))))
    by (apply (Fetch.serve_cache_ok url grow past []); by split).
  destruct Hok as [Hurl Hc]. destruct (Fetch.getDid_cases req) as [[did Hdid]|Hshort].
  2:{ by rewrite (Fetch.HandleMessage_short _ _ _ _ _ Hshort) in Hm. }
  destruct (Fetch.HandleMessage_effect _ _ _ _ _ _ _ Hdid Hm) as [_ He]. rewrite Hurl in He.
  assert (Hfetched : ∃ w' : ReadDataByIdentifier.World, Fetch.fetched w' url did r ∧ (w' = w ∨ ∃ req', (w', req') ∈ past ∧
    ReadDataByIdentifier.getDid req' = Ok did ∧
    ReadDataByIdentifier.asked_at w - ReadDataByIdentifier.added_at w' < ReadDataByIdentifier.cCacheLifetime)).
  { destruct (MemoryCache.TryGet _ _ _ _) as [[r'|] cache] eqn:Hget; destruct He as (Ho & _).
    - apply Fetch.TryGet_some in Hget as (_ & since & Hl & Hage).
      apply Hc in Hl as (w' & req' & Hin & Hd & <- & Hf). simplify_eq.
      exists w'. split; [by eexists|]. right. by exists req'.
    - symmetry in Ho. apply bind_Ok in Ho as ([b r'] & Hf & Hr). simplify_eq.
      exists w. split; [by eexists|by left]. }
  destruct Hfetched as (w' & Hf & Hw). split; [by eapply Fetch.fetched_answers|].
  exists did. split; [done|]. destruct Hw as [->|(req' & ?)]; [by left|]. right. exists w', req'. tauto.
Qed.

(** A library that reads a text as a value that is that text. *)
Definition text_json : Json := {|
  Value := string; parse := Some; member := fun v _ => Ok v; asString := Ok
|}.

(** A transfer of a text in one piece. *)
Definition page (text : string) : string → list string * bool := fun _ => ([text], true).

Definition second : Z := 1000000000.
Definition coolant_request : bytes := [34; 245; 5].

Lemma answers_are_fresh_witness :
  let past := [(ReadDataByIdentifier.mkWorld 0 (page "70") second, coolant_request)] in
  let w := ReadDataByIdentifier.mkWorld (60 * second) (page "90") (60 * second) in
  answers 34 [98; 245; 5; 110] ∧
  fst (ReadDataByIdentifier.HandleMessage_ (H := text_json) (ReadDataByIdentifier.mkWorld (61 * second) (page "90") (61 * second))
         example_grow coolant_request
         (snd (Fetch.serve (H := text_json) example_grow past (ReadDataByIdentifier.construct "u" Conversation.initial))))
  = Ok [98; 245; 5; 130].
Proof.
  intros past w. split; [|vm_compute; reflexivity].
  refine (proj1 (answers_are_fresh (H := text_json) example_grow past "u" Conversation.initial w coolant_request
    [98; 245; 5; 110]
    (snd (ReadDataByIdentifier.HandleMessage_ (H := text_json) w example_grow coolant_request
            (snd (Fetch.serve (H := text_json) example_grow past (ReadDataByIdentifier.construct "u" Conversation.initial)))))
    _)).
  vm_compute. reflexivity.
Defined.

(** After any requests, the conversations that are active are those that were before,
    and one for each request that named an identifier and got no answer because its
    conversion threw: these are never deactivated.  When every such request is answered,
    none stays active. *)
Theorem unanswered_requests_stay_active `{Json} grow reqs s :
  Fetch.active (snd (Fetch.serve grow reqs s)) =
  (Fetch.active s + Fetch.unanswered reqs (fst (Fetch.serve grow reqs s)))%nat.
Proof. apply Fetch.serve_active. Qed.

(** A value that is not a number: the request throws and its conversation stays active. *)
Example not_a_number_stays_active :
  let reqs := [(ReadDataByIdentifier.mkWorld 0 (page "n/a") 0, coolant_request)] in
  let r := Fetch.serve (H := text_json) example_grow reqs (ReadDataByIdentifier.construct "u" Conversation.initial) in
  fst r = [Throw std_invalid_argument] ∧ Fetch.active (snd r) = 1%nat.
Proof. vm_compute. split; reflexivity. Qed.

(** The texts of the integers from [first] on. *)
Definition texts (first : Z) (n : nat) : list (Z * string) := (fun i => (i, pretty i)) <$> seqZ first (Z.of_nat n).

Lemma texts_forall (P : Z → string → bool) first n i :
  forallb (fun '(i, text) => P i text) (texts first n) = true → first <= i < first + Z.of_nat n → P i (pretty i) = true.
Proof.
  intros Hall Hi. rewrite forallb_forall in Hall. apply (Hall (i, pretty i)).
  apply list_elem_of_In. apply list_elem_of_fmap. exists i. split; [done|]. by apply elem_of_seqZ.
Qed.

(** A conversion gives one byte, with a property. *)
Definition one_byte (P : Z → bool) (o : outcome bytes) : bool :=
  match o with Ok [b] => P b | _ => false end.

Lemma one_byte_ok P o : one_byte P o = true → ∃ b, o = Ok [b] ∧ P b = true.
Proof. destruct o as [[|b [|? ?]]| | |]; try done. eauto. Qed.

(** The same of all the integers of a range. *)
Lemma one_byte_texts (convert : string → outcome bytes) (P : Z → Z → bool) first n i :
  forallb (fun '(i, text) => one_byte (P i) (convert text)) (texts first n) = true →
  first <= i < first + Z.of_nat n → ∃ b, convert (pretty i) = Ok [b] ∧ P i b = true.
Proof. intros Hall Hi. apply one_byte_ok. by apply (texts_forall (fun i text => one_byte (P i) (convert text)) first n). Qed.

(** Over their whole ranges the conversions of speeds and temperatures lose nothing,
    negative temperatures included, whose texts [stoul] wraps around: speeds from 0 to
    255, temperatures from -40 to 215; and a fuel amount of [p] percent becomes a byte
    within one of [2.55 * p], below it. *)
Theorem vehicle_values_are_kept i :
  (0 <= i <= 255 → ReadDataByIdentifier.average_speed (pretty i) = Ok [i]) ∧
  (-40 <= i <= 215 → ReadDataByIdentifier.temperature (pretty i) = Ok [i + 40]) ∧
  (0 <= i <= 100 → ∃ b, ReadDataByIdentifier.fuel_amount (pretty i) = Ok [b] ∧ 255 * i - 100 <= 100 * b <= 255 * i).
Proof.
  split_and!; intros Hi.
  - destruct (one_byte_texts ReadDataByIdentifier.average_speed (fun i b => b =? i) 0 256 i) as (b & -> & Hb);
      [vm_compute; reflexivity|lia|]. by apply Z.eqb_eq in Hb as ->.
  - destruct (one_byte_texts ReadDataByIdentifier.temperature (fun i b => b =? i + 40) (-40) 256 i) as (b & -> & Hb);
      [vm_compute; reflexivity|lia|]. by apply Z.eqb_eq in Hb as ->.
  - destruct (one_byte_texts ReadDataByIdentifier.fuel_amount
                (fun i b => (255 * i - 100 <=? 100 * b) && (100 * b <=? 255 * i)) 0 101 i) as (b & -> & Hb);
      [vm_compute; reflexivity|lia|]. exists b. split; [done|lia].
Qed.

Lemma vehicle_values_are_kept_witness :
  ReadDataByIdentifier.temperature "-12" = Ok [28] ∧
  ReadDataByIdentifier.fuel_amount "100" = Ok [254] ∧ ReadDataByIdentifier.fuel_amount "101" = Undefined ∧
  ReadDataByIdentifier.temperature "216" = Ok [0].
Proof.
  split_and!; [|vm_compute; reflexivity..].
  apply (proj1 (proj2 (vehicle_values_are_kept (-12)))). lia.
Defined.

(** The number whose bytes a response holds, most significant first. *)
Definition big_endian (data : bytes) : Z := fold_left (fun n b => 256 * n + b) data 0.

(** The bytes of the odometer and of the fuel consumption are read back as the integers
    they were made of: tenths of a kilometre, and twentieths. *)
Theorem odometer_reads_back text data :
  (ReadDataByIdentifier.odometer text = Ok data →
   ∃ x, stod text = Ok x ∧ truncate (double_mul (double_of_Z 10) x) = Some (big_endian data) ∧
     length data = 4%nat ∧ is_bytes data) ∧
  (ReadDataByIdentifier.average_fuel_consumption text = Ok data →
   ∃ x, stod text = Ok x ∧ truncate (double_mul (double_of_Z 20) x) = Some (big_endian data) ∧
     length data = 2%nat ∧ is_bytes data).
Proof.
  assert (Hcast : ∀ bound x n, cast_unsigned bound x = Ok n → truncate x = Some n ∧ 0 <= n < bound).
  { intros bound x n Hc. split; [|by eapply cast_unsigned_bound]. unfold cast_unsigned in Hc.
    destruct (truncate x) as [m|]; [|done]. by destruct ((0 <=? m) && (m <? bound)); simplify_eq. }
  split; intros H; unfold ReadDataByIdentifier.odometer, ReadDataByIdentifier.average_fuel_consumption in H;
    apply bind_Ok in H as (x & Hx & H); apply bind_Ok in H as (n & [Ht Hn]%Hcast & H);
    injection H as <-; exists x; rewrite Ht; unfold big_endian; cbn [fold_left ReadDataByIdentifier.odometer_bytes].
  - split; [done|]. split; [f_equal; ulia|]. split; [done|]. repeat constructor; ulia.
  - split; [done|]. split; [f_equal; ulia|]. split; [done|]. repeat constructor; ulia.
Qed.
