(* ===== verification/Doip.v ===== *)
(** * Diagnostics over IP and the OBD bridge: application/doip

    The server routes diagnostic messages to the service of VehicleData.v and answers
    vehicle identification requests; the client sends diagnostic messages once it knows
    the vehicle's address; the converter answers OBD queries from a table, or through the
    client.  The DoIP library is a class of its operations, with its round trips as laws.
    Packets have 64 bytes: what a message does not fill is whatever the buffer held. *)

From S2P Require Import Prelude Uds Conversations VehicleData.
#[local] Open Scope Z_scope.

(** [application/doip/doip_server.h:23] DoipServer::cDoipPacketSize, and the same of DoipClient *)
Definition cDoipPacketSize : Z := 64.

(** [application/doip/doip_server.cpp:111-117] the buffer that is sent: the message, then
    what the uninitialised buffer held *)
Definition packet (message buffer : bytes) : bytes := message ++ drop (length message) buffer.

(** ** The DoIP library *)
Inductive PayloadType :=
  VehicleIdRequest | VehicleAnnoucementIdResponse | DiagMessage | DiagMessagePositiveAcknowledgement | OtherPayload.

#[export] Instance PayloadType_eq_dec : EqDecision PayloadType.
Proof. solve_decision. Defined.

(** What the controller does with a request: it calls the handler registered for it, or
    answers by itself. *)
Inductive dispatched :=
  | ToVehicleIdRequestHandler
  | ToDiagMessageHandler (sourceAddress targetAddress : Z) (userData : bytes)
  | Answered (response : option bytes).

Class DoipLib := {
  dispatch : bytes → dispatched;
  (** what the controller answers when the handler refuses a request *)
  refused : bytes → option bytes;
  TryExtractPayloadType : bytes → option PayloadType;
  VehicleIdRequest_Serialize : Z → bytes;
  VehicleIdResponse_Serialize : Z → string → Z → bytes → bytes → Z → bytes;
  VehicleIdResponse_LogicalAddress : bytes → option Z;
  DiagMessage_Serialize : Z → Z → Z → bytes → bytes;
  DiagMessageAck_Serialize : Z → Z → Z → bytes → bytes;
  (** deserialising an acknowledgement, and its previous message *)
  DiagMessageAck_PreviousMessage : bytes → option (option bytes)
}.

(** Messages that fit a packet are read back from it, whatever follows them. *)
Class DoipLaws (L : DoipLib) : Prop := {
  dispatch_vehicle_id v buffer : dispatch (packet (VehicleIdRequest_Serialize v) buffer) = ToVehicleIdRequestHandler;
  dispatch_diag_message v source target data buffer :
    dispatch (packet (DiagMessage_Serialize v source target data) buffer) = ToDiagMessageHandler source target data;
  vehicle_id_response_type v vin la eid gid f buffer :
    TryExtractPayloadType (packet (VehicleIdResponse_Serialize v vin la eid gid f) buffer) =
    Some VehicleAnnoucementIdResponse;
  vehicle_id_response_address v vin la eid gid f buffer :
    VehicleIdResponse_LogicalAddress (packet (VehicleIdResponse_Serialize v vin la eid gid f) buffer) = Some la;
  ack_type v source target previous buffer :
    TryExtractPayloadType (packet (DiagMessageAck_Serialize v source target previous) buffer) =
    Some DiagMessagePositiveAcknowledgement;
  ack_previous v source target previous buffer :
    DiagMessageAck_PreviousMessage (packet (DiagMessageAck_Serialize v source target previous) buffer) =
    Some (Some previous);
  diag_message_size v source target data : size (DiagMessage_Serialize v source target data) = 12 + size data;
  vehicle_id_request_size v : size (VehicleIdRequest_Serialize v) <= 8;
  vehicle_id_response_size v vin la eid gid f : size (VehicleIdResponse_Serialize v vin la eid gid f) <= 41;
  ack_size v source target previous : size (DiagMessageAck_Serialize v source target previous) = 13 + size previous
}.

(** ** Vehicle identification *)
Module VehicleIdRequestHandler.

(** The loop of convertToMacAddress, from octet [i] on, for [n] octets. *)
Fixpoint octets (n : nat) (i mask id : Z) : bytes :=
  match n with
  | O => []
  | S n =>
      let cOctet := Z.land id mask in
      u8 (Z.shiftr cOctet (i * 8)) :: octets n (i + 1) (u64 (Z.shiftl mask (i * 8))) id
  end.

(** [application/doip/vehicle_id_request_handler.cpp:20-34] convertToMacAddress *)
Definition convertToMacAddress (id : Z) : bytes := octets 6 0 255 id.

(** [application/doip/vehicle_id_request_handler.h:17-25] VehicleIdRequestHandler: what its
    response is made of *)
Record t := mk { protocolVersion : Z; vin : string; logicalAddress : Z; eid : Z; gid : Z }.

(** [application/doip/vehicle_id_request_handler.h:20] cFurtherAction *)
Definition cFurtherAction : Z := 0.

(** [application/doip/vehicle_id_request_handler.cpp:11-18] mResponse, serialised *)
Definition mResponse `{DoipLib} (h : t) : bytes :=
  VehicleIdResponse_Serialize (protocolVersion h) (vin h) (logicalAddress h)
    (convertToMacAddress (eid h)) (convertToMacAddress (gid h)) cFurtherAction.

(** [application/doip/vehicle_id_request_handler.cpp:41-57] TryHandle, for a vehicle
    identification request or another message *)
Definition TryHandle `{DoipLib} (is_request : bool) (h : t) : option bytes :=
  if is_request then Some (mResponse h) else None.

End VehicleIdRequestHandler.

(** ** Diagnostic messages at the server *)
Module DiagMessageHandler.
Section DiagMessageHandler.
Context `{Json} `{DoipLib}.
Variable grow : nat → nat.

(** [application/doip/diag_message_handler.cpp:16] the services of mRouter *)
Definition mRouter (w : ReadDataByIdentifier.World) : UdsServiceRouter.t ReadDataByIdentifier.t :=
  UdsServiceRouter.AddService (ReadDataByIdentifier.service w grow) ∅.

(** [application/doip/diag_message_handler.cpp:10-18] DiagMessageHandler::DiagMessageHandler *)
Definition construct (resourcesUrl : string) (cs : Conversation.Statics) : ReadDataByIdentifier.t :=
  ReadDataByIdentifier.set_offered true (ReadDataByIdentifier.construct resourcesUrl cs).

(** [application/doip/diag_message_handler.cpp:25-65] TryHandle for a diagnostic message:
    only [std::invalid_argument] is caught *)
Definition TryHandle (w : ReadDataByIdentifier.World) (cProtocolVersion source target : Z) (userData : bytes) :
    M ReadDataByIdentifier.t (option bytes) := fun s =>
  match UdsServiceRouter.Route (mRouter w) userData ∅ false s with
  | (Ok responseData, s) => (Ok (Some (DiagMessageAck_Serialize cProtocolVersion source target responseData)), s)
  | (Throw std_invalid_argument, s) => (Ok None, s)
  | (Throw e, s) => (Throw e, s)
  | (Undefined, s) => (Undefined, s)
  | (OutOfFuel, s) => (OutOfFuel, s)
  end.

End DiagMessageHandler.
End DiagMessageHandler.

Module DoipServer.

(** [application/doip/doip_server.h:25-36] DoipServer: its handlers and its queue *)
Record t := mk {
  mVehicleIdRequestHandler : VehicleIdRequestHandler.t;
  mDiagMessageHandler : ReadDataByIdentifier.t;
  mSendQueue : list bytes
}.

(** [application/doip/doip_server.cpp:12-58] DoipServer::DoipServer: whether the listener is
    set up and added to the poller *)
Definition construct (set_up added : bool) (h : VehicleIdRequestHandler.t) (resourcesUrl : string)
    (cs : Conversation.Statics) : outcome t :=
  if set_up then
    if added then Ok (mk h (DiagMessageHandler.construct resourcesUrl cs) [])
    else Throw std_runtime_error
  else Throw std_runtime_error.

Definition set_diag (s : ReadDataByIdentifier.t) (d : t) : t := mk (mVehicleIdRequestHandler d) s (mSendQueue d).
Definition set_queue (q : list bytes) (d : t) : t := mk (mVehicleIdRequestHandler d) (mDiagMessageHandler d) q.

Section DoipServer.
Context `{Json} `{L : DoipLib}.
Variable grow : nat → nat.

(** The controller's TryHandle, through the handlers the constructor registers: the
    response, if any. *)
Definition TryHandle (w : ReadDataByIdentifier.World) (cSerializedRequest : bytes) : M t (option bytes) :=
  let answer (r : option bytes) := match r with Some r => Some r | None => refused cSerializedRequest end in
  match dispatch cSerializedRequest with
  | ToVehicleIdRequestHandler =>
      d ← get; mret (answer (VehicleIdRequestHandler.TryHandle true (mVehicleIdRequestHandler d)))
  | ToDiagMessageHandler source target userData => fun d =>
      let '(r, s) := DiagMessageHandler.TryHandle grow w
                       (VehicleIdRequestHandler.protocolVersion (mVehicleIdRequestHandler d))
                       source target userData (mDiagMessageHandler d) in
      (r ← r; Ok (answer r), set_diag s d)
  | Answered response => mret response
  end.

(** [application/doip/doip_server.cpp:85-100] onReceive: the bytes received overwrite the
    head of the buffer; the queue is only used by the poller's thread *)
Definition onReceive (w : ReadDataByIdentifier.World) (received buffer : bytes) : M t () :=
  response ← TryHandle w (packet received buffer);
  match response with
  | Some response => modify (fun d => set_queue (mSendQueue d ++ [response]) d)
  | None => mret ()
  end.

(** [application/doip/doip_server.cpp:102-122] onSend: what is sent; messages longer than
    a packet are dropped *)
Definition onSend (buffer : bytes) : M t (list bytes) := fun d =>
  (Ok ((fun message => packet message buffer) <$> filter (fun message => size message <= cDoipPacketSize) (mSendQueue d)),
   set_queue [] d).

End DoipServer.
End DoipServer.

(** ** The client *)
Module DoipClient.

(** [application/doip/doip_client.h:17-26] DoipClient; what its callback is called with is
    returned by the methods that call it *)
Record t := mk { cProtocolVersion : Z; mSendQueue : list bytes; mLogicalAddress : option Z }.

Section DoipClient.
Context `{L : DoipLib}.

(** [application/doip/doip_client.cpp:17-62] DoipClient::DoipClient: whether the connection
    is set up and connected, and the sender and the receiver added to the poller *)
Definition construct (set_up connected sender receiver : bool) (protocolVersion : Z) : outcome t :=
  if negb set_up then Throw std_runtime_error
  else if negb connected then Throw std_runtime_error
  else if negb sender then Throw std_runtime_error
  else if negb receiver then Throw std_runtime_error
  else Ok (mk protocolVersion [VehicleIdRequest_Serialize protocolVersion] None).

(** [application/doip/doip_client.cpp:64-76] handleVehicleIdResponse *)
Definition handleVehicleIdResponse (serializedMessage : bytes) (c : t) : t :=
  match VehicleIdResponse_LogicalAddress serializedMessage with
  | Some la => mk (cProtocolVersion c) (mSendQueue c) (Some la)
  | None => c
  end.

(** [application/doip/doip_client.cpp:78-95] handleDiagMessageAck: the calls of the callback *)
Definition handleDiagMessageAck (serializedMessage : bytes) : list bytes :=
  match DiagMessageAck_PreviousMessage serializedMessage with
  | Some (Some previousMessage) => [previousMessage]
  | _ => []
  end.

(** [application/doip/doip_client.cpp:97-120] onSend: what is sent *)
Definition onSend (buffer : bytes) (c : t) : list bytes * t :=
  ((fun message => packet message buffer) <$> filter (fun message => size message <= cDoipPacketSize) (mSendQueue c),
   mk (cProtocolVersion c) [] (mLogicalAddress c)).

(** [application/doip/doip_client.cpp:122-148] onReceive: the calls of the callback *)
Definition onReceive (data buffer : bytes) (c : t) : list bytes * t :=
  let cSerializedMessage := packet data buffer in
  match TryExtractPayloadType cSerializedMessage with
  | Some payloadType =>
      if decide (payloadType = VehicleAnnoucementIdResponse) then ([], handleVehicleIdResponse cSerializedMessage c)
      else if decide (payloadType = DiagMessagePositiveAcknowledgement) then (handleDiagMessageAck cSerializedMessage, c)
      else ([], c)
  | None => ([], c)
  end.

(** [application/doip/doip_client.cpp:150-168] TrySendDiagMessage; [locked]: another
    thread holds the lock of the queue *)
Definition TrySendDiagMessage (locked : bool) (userData : bytes) (c : t) : bool * t :=
  match mLogicalAddress c with
  | Some la =>
      if locked then (false, c)
      else (true, mk (cProtocolVersion c)
                     (mSendQueue c ++ [DiagMessage_Serialize (cProtocolVersion c) la la userData])
                     (mLogicalAddress c))
  | None => (false, c)
  end.

End DoipClient.
End DoipClient.

(** ** The converter of OBD queries *)
Module ObdToDoipConverter.

(** [application/doip/obd_to_doip_converter.h:17-23] ObdToDoipConverter; [callbacks] is what
    [ObdService::Callback] was called with *)
Record t := mk { mClient : DoipClient.t; callbacks : list (bytes * bytes) }.

Definition cSid : Z := 0x22.
Definition cProtocolVersion : Z := 2.

Definition Callback (pid data : bytes) (s : t) : t := mk (mClient s) (callbacks s ++ [(pid, data)]).

(** [application/doip/obd_to_doip_converter.cpp:26-54] tryParseUdsData *)
Definition tryParseUdsData (udsResponse : bytes) : option (Z * bytes) :=
  match udsResponse with
  | cReceivedSid :: _ :: pid :: obdData => if cReceivedSid =? cNegativeResponseCodeSid then None else Some (pid, obdData)
  | _ => None
  end.

(** [application/doip/obd_to_doip_converter.cpp:56-69] onUdsDataReceived *)
Definition onUdsDataReceived (receivedUdsData : bytes) (s : t) : t :=
  match tryParseUdsData receivedUdsData with Some (pid, obdData) => Callback [pid] obdData s | None => s end.

(** [application/doip/obd_to_doip_converter.cpp:96-295] the queries answered at once *)
Definition at_once (queriedPid : Z) : option bytes :=
  match queriedPid with
  | 0x00 => Some [0x3e; 0x7f; 0xf0; 0x15]
  | 0x03 => Some [0x02; 0x00]
  | 0x04 => Some [0x33]
  | 0x06 => Some [0x8c]
  | 0x07 => Some [0x80]
  | 0x0a => Some [0x50]
  | 0x0b => Some [0x4b]
  | 0x0c => Some [0x20; 0x00]
  | 0x0e => Some [0x92]
  | 0x0f => Some [0x50]
  | 0x10 => Some [0x02; 0x08]
  | 0x11 => Some [0x33]
  | 0x12 => Some [0x04]
  | 0x13 => Some [0x01]
  | 0x14 => Some [0xc8; 0xff]
  | 0x1c => Some [0x01]
  | 0x1e => Some [0x00]
  | 0x20 => Some [0xd0; 0x02; 0x70; 0x11]
  | 0x21 => Some [0x00; 0x00]
  | 0x22 => Some [0x19; 0x78]
  | 0x24 => Some [0x80; 0x00; 0x20; 0x00]
  | 0x32 => Some [0x6a; 0x40]
  | 0x33 => Some [0x65]
  | 0x34 => Some [0x80; 0x00; 0xe4; 0x00]
  | 0x3c => Some [0x19; 0x00]
  | 0x40 => Some [0x5c; 0x0b; 0xb0; 0xd5]
  | 0x42 => Some [0x2e; 0xe0]
  | 0x44 => Some [0x80; 0x00]
  | 0x45 => Some [0x33]
  | 0x4d => Some [0x00; 0x00]
  | 0x4f => Some [0x02; 0x08; 0x80; 0x19]
  | 0x50 => Some [0x41; 0x00; 0x00; 0x00]
  | 0x51 => Some [0x01]
  | 0x53 => Some [0x54; 0x38]
  | 0x54 => Some [0x1a; 0x90]
  | 0x59 => Some [0x4e; 0x20]
  | 0x5a => Some [0x33]
  | 0x5c => Some [0xd2]
  | 0x60 => Some [0xe3; 0x00; 0x00; 0x01]
  | 0x61 => Some [0x91]
  | 0x62 => Some [0x91]
  | 0x63 => Some [0x01; 0x00]
  | 0x67 => Some [0x01; 0x6e; 0x00]
  | 0x68 => Some [0x01; 0x50; 0x00]
  | 0x80 => Some [0x00; 0x00; 0x00; 0x01]
  | 0xa0 => Some [0x04; 0x00; 0x00; 0x00]
  | _ => None
  end.

(** [application/doip/obd_to_doip_converter.cpp:296-302] the queries sent to the vehicle *)
Definition sent_as_doip (queriedPid : Z) : bool :=
  match queriedPid with 0x0d | 0x2f | 0x46 | 0x5e | 0x05 | 0xa6 => true | _ => false end.

Section Converter.
Context `{L : DoipLib}.

(** [application/doip/obd_to_doip_converter.cpp:13-24] ObdToDoipConverter::ObdToDoipConverter *)
Definition construct (set_up connected sender receiver : bool) : outcome t :=
  client ← DoipClient.construct set_up connected sender receiver cProtocolVersion;
  Ok (mk client []).

(** [application/doip/obd_to_doip_converter.cpp:71-79] trySendAsDoip *)
Definition trySendAsDoip (locked : bool) (pid : Z) : M t bool := fun s =>
  let '(cResult, client) := DoipClient.TrySendDiagMessage locked [cSid; 0xf5; pid] (mClient s) in
  (Ok cResult, mk client (callbacks s)).

(** [application/doip/obd_to_doip_converter.cpp:81-86] TryGetResponse *)
Definition TryGetResponse (pid : bytes) : bool := false.

(** [application/doip/obd_to_doip_converter.cpp:88-309] TryGetResponseAsync *)
Definition TryGetResponseAsync (locked : bool) (pid : bytes) : M t bool :=
  queriedPid ← lift (at_ pid 0);
  match at_once queriedPid with
  | Some data => modify (Callback pid data);; mret true
  | None => if sent_as_doip queriedPid then trySendAsDoip locked queriedPid else mret false
  end.

(** The client receives a packet, and the converter gets its callbacks. *)
Definition onReceive (data buffer : bytes) (s : t) : t :=
  let '(received, client) := DoipClient.onReceive data buffer (mClient s) in
  fold_left (fun s r => onUdsDataReceived r s) received (mk client (callbacks s)).

Definition onSend (buffer : bytes) (s : t) : list bytes * t :=
  let '(packets, client) := DoipClient.onSend buffer (mClient s) in (packets, mk client (callbacks s)).

End Converter.
End ObdToDoipConverter.

(** ** The two ends together *)
Module Bridge.
Section Bridge.
Context `{Json} `{L : DoipLib}.
Variable grow : nat → nat.

(** What the four uninitialised buffers of a round hold. *)
Record Buffers := mkBuffers { to_send : bytes; to_receive : bytes; to_answer : bytes; to_hear : bytes }.

Fixpoint receive_all (w : ReadDataByIdentifier.World) (buffer : bytes) (packets : list bytes) : M DoipServer.t () :=
  match packets with
  | [] => mret ()
  | p :: packets => DoipServer.onReceive grow w p buffer;; receive_all w buffer packets
  end.

(** The client sends what it has queued, the server receives each packet and sends its
    answers, the client receives them: packets arrive as they were sent. *)
Definition round (b : Buffers) (w : ReadDataByIdentifier.World) (s : ObdToDoipConverter.t) (d : DoipServer.t) :
    outcome (ObdToDoipConverter.t * DoipServer.t) :=
  let '(packets, s) := ObdToDoipConverter.onSend (to_send b) s in
  match (receive_all w (to_receive b) packets;; DoipServer.onSend (to_answer b)) d with
  | (Ok answers, d) => Ok (fold_left (fun s p => ObdToDoipConverter.onReceive p (to_hear b) s) answers s, d)
  | (Throw e, _) => Throw e
  | (Undefined, _) => Undefined
  | (OutOfFuel, _) => OutOfFuel
  end.

(** *** Lemmas *)
Context {laws : DoipLaws L}.

Lemma packet_packet m b1 b2 : ∃ b, packet (packet m b1) b2 = packet m b.
Proof.
  exists (m ++ (drop (length m) b1 ++ drop (length (packet m b1)) b2)). unfold packet at 1 3.
  rewrite drop_app_length. unfold packet at 1. by rewrite <- app_assoc.
Qed.

Lemma only_message P `{∀ m : bytes, Decision (P m)} (m : bytes) : P m → filter P [m] = [m].
Proof. intros Hm. rewrite filter_cons_True by done. by rewrite filter_nil. Qed.

(** A round with one message queued, which the server answers with one message. *)
Lemma round_one b w s d message response sent :
  DoipClient.mSendQueue (ObdToDoipConverter.mClient s) = [message] → size message <= cDoipPacketSize →
  DoipServer.mSendQueue d = [] → size response <= cDoipPacketSize →
  (∀ buffer, DoipServer.TryHandle grow w (packet message buffer) d = (Ok (Some response), sent)) →
  DoipServer.mSendQueue sent = [] →
  round b w s d =
    Ok (ObdToDoipConverter.onReceive (packet response (to_answer b)) (to_hear b)
          (ObdToDoipConverter.mk
             (DoipClient.mk (DoipClient.cProtocolVersion (ObdToDoipConverter.mClient s)) []
                (DoipClient.mLogicalAddress (ObdToDoipConverter.mClient s))) (ObdToDoipConverter.callbacks s)),
        DoipServer.set_queue [] sent).
Proof.
  intros Hq Hm Hd Hr Hh Hs. unfold round, ObdToDoipConverter.onSend, DoipClient.onSend.
  rewrite Hq, only_message by done. cbn [fmap list_fmap receive_all]. unfold DoipServer.onReceive.
  destruct (packet_packet message (to_send b) (to_receive b)) as [buffer Hb]. rewrite Hb.
  run. rewrite Hh. unfold DoipServer.onSend. cbn [DoipServer.mSendQueue DoipServer.set_queue].
  rewrite Hs. cbn [app]. by rewrite only_message.
Qed.

(** A packet that holds an acknowledgement is given to the converter. *)
Lemma onReceive_ack v source target previous b1 b2 s :
  ObdToDoipConverter.onReceive (packet (DiagMessageAck_Serialize v source target previous) b1) b2 s =
  ObdToDoipConverter.onUdsDataReceived previous s.
Proof.
  unfold ObdToDoipConverter.onReceive, DoipClient.onReceive, DoipClient.handleDiagMessageAck.
  destruct (packet_packet (DiagMessageAck_Serialize v source target previous) b1 b2) as [b ->].
  rewrite ack_type. rewrite decide_False, decide_True by done. rewrite ack_previous. by destruct s.
Qed.

Lemma onReceive_vehicle_id h b1 b2 s :
  ObdToDoipConverter.onReceive (packet (VehicleIdRequestHandler.mResponse h) b1) b2 s =
  ObdToDoipConverter.mk
    (DoipClient.mk (DoipClient.cProtocolVersion (ObdToDoipConverter.mClient s))
       (DoipClient.mSendQueue (ObdToDoipConverter.mClient s)) (Some (VehicleIdRequestHandler.logicalAddress h)))
    (ObdToDoipConverter.callbacks s).
Proof.
  unfold ObdToDoipConverter.onReceive, DoipClient.onReceive, DoipClient.handleVehicleIdResponse,
    VehicleIdRequestHandler.mResponse.
  destruct (packet_packet (VehicleIdResponse_Serialize (VehicleIdRequestHandler.protocolVersion h)
    (VehicleIdRequestHandler.vin h) (VehicleIdRequestHandler.logicalAddress h)
    (VehicleIdRequestHandler.convertToMacAddress (VehicleIdRequestHandler.eid h))
    (VehicleIdRequestHandler.convertToMacAddress (VehicleIdRequestHandler.gid h))
    VehicleIdRequestHandler.cFurtherAction) b1 b2) as [b ->].
  rewrite vehicle_id_response_type. rewrite decide_True by done. by rewrite vehicle_id_response_address.
Qed.

(** The first round after the construction: the client learns the vehicle's address. *)
Lemma first_round b w v h url cs :
  round b w (ObdToDoipConverter.mk (DoipClient.mk v [VehicleIdRequest_Serialize v] None) [])
    (DoipServer.mk h (DiagMessageHandler.construct url cs) []) =
  Ok (ObdToDoipConverter.mk (DoipClient.mk v [] (Some (VehicleIdRequestHandler.logicalAddress h))) [],
      DoipServer.mk h (DiagMessageHandler.construct url cs) []).
Proof.
  rewrite (round_one b w _ _ (VehicleIdRequest_Serialize v) (VehicleIdRequestHandler.mResponse h)
    (DoipServer.mk h (DiagMessageHandler.construct url cs) [])); try done.
  - by rewrite onReceive_vehicle_id.
  - pose proof (vehicle_id_request_size v). unfold cDoipPacketSize. lia.
  - unfold VehicleIdRequestHandler.mResponse, cDoipPacketSize. etrans; [apply vehicle_id_response_size|lia].
  - intros buffer. unfold DoipServer.TryHandle. by rewrite dispatch_vehicle_id.
Qed.

(** The request the client sends for a query, and what the service makes of it. *)
Definition request_of (pid : Z) : bytes := [ObdToDoipConverter.cSid; 0xf5; pid].

Lemma sent_pids pid : ObdToDoipConverter.sent_as_doip pid = true →
  pid ∈ [0x0d; 0x2f; 0x46; 0x5e; 0x05; 0xa6].
Proof. unfold ObdToDoipConverter.sent_as_doip. intros H1. repeat case_match; try done; set_solver. Qed.

Lemma sent_not_at_once pid : ObdToDoipConverter.sent_as_doip pid = true →
  ObdToDoipConverter.at_once pid = None ∧ ReadDataByIdentifier.getDid (request_of pid) = Ok (0xf500 + pid).
Proof.
  intros Hs%sent_pids. repeat (apply elem_of_cons in Hs as [->|Hs]; [by vm_compute|]).
  by apply not_elem_of_nil in Hs.
Qed.

(** What a fetch answers is short. *)
Lemma convert_size did key convert text data :
  Fetch.resource_of did = Some (key, convert) → convert text = Ok data → (length data <= 4)%nat.
Proof.
  unfold Fetch.resource_of. cbn [List.find Fetch.resources fst].
  repeat match goal with |- context [did =? ?c] => destruct (did =? c) end; intros [= <- <-] Hd;
    repeat (apply bind_Ok in Hd as (? & _ & Hd)); injection Hd as <-; simpl; lia.
Qed.

Lemma fetch_size w url did b r : Fetch.fetch w url did = Ok (b, r) → size r <= 7.
Proof.
  unfold Fetch.fetch, size. destruct (Fetch.resource_of did) as [[key convert]|] eqn:Hr.
  2:{ intros [= <- <-]. simpl. lia. }
  intros ([value|] & _ & Hf)%bind_Ok; [|injection Hf as <- <-; simpl; lia].
  apply bind_Ok in Hf as (text & _ & Hf). apply bind_Ok in Hf as (data & Hd & Hf).
  injection Hf as <- <-. apply (convert_size _ _ _ _ _ Hr) in Hd. simpl. lia.
Qed.

(** A positive answer names its parameter, a negative one is short. *)
Lemma fetch_shape w url did positive r :
  Fetch.fetch w url did = Ok (positive, r) →
  if positive : bool then ∃ data, r = [98; did / 256; did mod 256] ++ data
  else head r = Some cNegativeResponseCodeSid.
Proof.
  unfold Fetch.fetch. destruct (Fetch.resource_of did) as [[key convert]|].
  2:{ by intros [= <- <-]. }
  intros ([value|] & _ & Hf)%bind_Ok; [|by injection Hf as <- <-].
  apply bind_Ok in Hf as (text & _ & Hf). apply bind_Ok in Hf as (data & Hd & Hf).
  injection Hf as <- <-. eauto.
Qed.

Lemma parse_answer positive pid r s :
  ObdToDoipConverter.sent_as_doip pid = true →
  (if positive : bool then ∃ data, r = [98; (0xf500 + pid) / 256; (0xf500 + pid) mod 256] ++ data
   else head r = Some cNegativeResponseCodeSid) →
  ObdToDoipConverter.callbacks (ObdToDoipConverter.onUdsDataReceived r s) =
  ObdToDoipConverter.callbacks s ++ if positive then [([pid], drop 3 r)] else [].
Proof.
  intros Hsent Hr. unfold ObdToDoipConverter.onUdsDataReceived. destruct positive.
  - destruct Hr as [data ->]. cbn [ObdToDoipConverter.tryParseUdsData app].
    assert ((0xf500 + pid) mod 256 = pid) as ->; [|done].
    apply sent_pids in Hsent. repeat (apply elem_of_cons in Hsent as [->|Hsent]; [done|]).
    by apply not_elem_of_nil in Hsent.
  - rewrite app_nil_r. destruct r as [|x [|y [|z r]]]; try done. injection Hr as ->. done.
Qed.

(** The service behind the router. *)
Lemma TryHandle_service w v source target userData svc o svc' :
  ReadDataByIdentifier.mOffered svc = true → head userData = Some ReadDataByIdentifier.cSid →
  ReadDataByIdentifier.HandleMessage_ w grow userData svc = (o, svc') →
  DiagMessageHandler.TryHandle grow w v source target userData svc =
  (match o with
   | Ok r => Ok (Some (DiagMessageAck_Serialize v source target r))
   | Throw std_invalid_argument => Ok None
   | Throw e => Throw e
   | Undefined => Undefined
   | OutOfFuel => OutOfFuel
   end, svc').
Proof.
  intros Hoff Hhead Hm. destruct userData as [|sid rest]; [done|]. injection Hhead as ->.
  assert (Hl : DiagMessageHandler.mRouter grow w !! ReadDataByIdentifier.cSid = Some (ReadDataByIdentifier.service w grow))
    by reflexivity.
  unfold DiagMessageHandler.TryHandle, UdsServiceRouter.Route. run. rewrite Hl.
  cbn [IsOffered HandleMessage ReadDataByIdentifier.service]. rewrite Hoff, Hm. by destruct o as [|[]| |].
Qed.

Lemma TryGetResponseAsync_sent locked pid s : ObdToDoipConverter.sent_as_doip pid = true →
  ObdToDoipConverter.TryGetResponseAsync locked [pid] s = ObdToDoipConverter.trySendAsDoip locked pid s.
Proof.
  intros Hsent. destruct (sent_not_at_once _ Hsent) as [Honce _].
  unfold ObdToDoipConverter.TryGetResponseAsync. change (at_ [pid] 0) with (Ok pid). run.
  by rewrite Honce, Hsent.
Qed.

(** What is not for the service is refused or not supported. *)
Lemma Route_other w userData svc :
  head userData ≠ Some ReadDataByIdentifier.cSid →
  UdsServiceRouter.Route (DiagMessageHandler.mRouter grow w) userData ∅ false svc =
  match userData with
  | [] => (Throw std_invalid_argument, svc)
  | sid :: _ => (Ok [127; sid; 17], svc)
  end.
Proof.
  destruct userData as [|sid rest]; [done|]. intros Hne. unfold UdsServiceRouter.Route. run.
  assert (Hl : DiagMessageHandler.mRouter grow w !! sid = None); [|by rewrite Hl].
  change (DiagMessageHandler.mRouter grow w) with
    (<[ReadDataByIdentifier.cSid := ReadDataByIdentifier.service w grow]> (∅ : gmap Z (RoutableUdsService ReadDataByIdentifier.t))).
  apply (lookup_insert_None (M := gmap Z)). split; [done|]. intros <-. by apply Hne.
Qed.

(** A query that is sent to the vehicle, and the round that follows it. *)
Lemma query_round b w pid v la callbacks h svc r svc' :
  ObdToDoipConverter.sent_as_doip pid = true → ReadDataByIdentifier.mOffered svc = true →
  ReadDataByIdentifier.HandleMessage_ w grow (request_of pid) svc = (Ok r, svc') → size r <= 51 →
  let s := ObdToDoipConverter.mk (DoipClient.mk v [] (Some la)) callbacks in
  ∃ s1, ObdToDoipConverter.TryGetResponseAsync false [pid] s = (Ok true, s1) ∧
    round b w s1 (DoipServer.mk h svc []) =
    Ok (ObdToDoipConverter.onUdsDataReceived r s, DoipServer.mk h svc' []).
Proof.
  intros Hsent Hoff Hm Hr s. rewrite TryGetResponseAsync_sent by done. eexists. split; [reflexivity|].
  rewrite (round_one b w _ _ (DiagMessage_Serialize v la la (request_of pid))
    (DiagMessageAck_Serialize (VehicleIdRequestHandler.protocolVersion h) la la r) (DoipServer.mk h svc' [])); try done.
  - by rewrite onReceive_ack.
  - rewrite diag_message_size. unfold cDoipPacketSize, size. simpl. lia.
  - rewrite ack_size. unfold cDoipPacketSize. lia.
  - intros buffer. unfold DoipServer.TryHandle. rewrite dispatch_diag_message.
    cbn [DoipServer.mDiagMessageHandler DoipServer.mVehicleIdRequestHandler].
    by rewrite (TryHandle_service w _ la la (request_of pid) svc _ svc' Hoff eq_refl Hm).
Qed.

(** The bridge from its construction to the answer of one query. *)
Definition bridge_query (b1 b2 : Buffers) (w1 w2 : ReadDataByIdentifier.World) (pid : Z)
    (h : VehicleIdRequestHandler.t) (url : string) (cs : Conversation.Statics) :
    outcome (bool * bool * ObdToDoipConverter.t * DoipServer.t) :=
  s ← ObdToDoipConverter.construct true true true true;
  d ← DoipServer.construct true true h url cs;
  let '(too_early, s) := ObdToDoipConverter.TryGetResponseAsync false [pid] s in
  too_early ← too_early;
  '(s, d) ← round b1 w1 s d;
  let '(in_time, s) := ObdToDoipConverter.TryGetResponseAsync false [pid] s in
  in_time ← in_time;
  '(s, d) ← round b2 w2 s d;
  Ok (too_early, in_time, s, d).

Lemma bridge_query_answered b1 b2 w1 w2 pid h url cs positive r :
  ObdToDoipConverter.sent_as_doip pid = true →
  Fetch.fetch w2 url (0xf500 + pid) = Ok (positive, r) →
  ∃ s d, bridge_query b1 b2 w1 w2 pid h url cs = Ok (false, true, s, d) ∧
    ObdToDoipConverter.callbacks s = if positive : bool then [([pid], drop 3 r)] else [].
Proof.
  intros Hsent Hf. destruct (sent_not_at_once _ Hsent) as [Honce Hdid].
  set (svc := DiagMessageHandler.construct url cs).
  destruct (ReadDataByIdentifier.HandleMessage_ w2 grow (request_of pid) svc) as [o svc'] eqn:Hm.
  destruct (Fetch.HandleMessage_effect _ _ _ _ _ _ _ Hdid Hm) as (_ & Ho & _).
  change (ReadDataByIdentifier.cResourcesUrl svc) with url in Ho. rewrite Hf in Ho. cbn in Ho. subst o.
  destruct (query_round b2 w2 pid 2 (VehicleIdRequestHandler.logicalAddress h) [] h svc r svc') as (s1 & Hq & Hround);
    [done..|pose proof (fetch_size _ _ _ _ _ Hf); lia|].
  exists (ObdToDoipConverter.onUdsDataReceived r
      (ObdToDoipConverter.mk (DoipClient.mk 2 [] (Some (VehicleIdRequestHandler.logicalAddress h))) [])),
    (DoipServer.mk h svc' []).
  split.
  - set (s0 := ObdToDoipConverter.mk (DoipClient.mk 2 [VehicleIdRequest_Serialize 2] None) []).
    unfold bridge_query. change (ObdToDoipConverter.construct true true true true) with (Ok s0).
    change (DoipServer.construct true true h url cs) with (Ok (DoipServer.mk h svc [])).
    rewrite !Ok_bind, TryGetResponseAsync_sent by done.
    change (ObdToDoipConverter.trySendAsDoip false pid s0) with (Ok false, s0). cbv beta iota.
    rewrite Ok_bind. unfold s0, svc. rewrite first_round, Ok_bind, Hq. cbv beta iota. rewrite Ok_bind.
    fold svc. by rewrite Hround.
  - by rewrite (parse_answer positive pid) by (done || by eapply fetch_shape).
Qed.

End Bridge.
End Bridge.

(** ** Queries that are advertised *)
Module Supported.

(** The last multiple of 32 before a parameter: the query whose answer says whether it is
    supported. *)
Definition bitmap_of (pid : Z) : Z := 32 * ((pid - 1) / 32).

(** The bit of a parameter in that answer, the most significant one first. *)
Definition advertised (pid : Z) : bool :=
  match ObdToDoipConverter.at_once (bitmap_of pid) with
  | Some bitmap => (length bitmap =? 4)%nat && Z.testbit (big_endian bitmap) (31 - (pid - 1) mod 32)
  | None => false
  end.

Definition answered (pid : Z) : bool :=
  match ObdToDoipConverter.at_once pid with Some _ => true | None => ObdToDoipConverter.sent_as_doip pid end.

Lemma advertised_answered pid : 1 <= pid <= 255 → advertised pid = answered pid.
Proof.
  intros Hp.
  assert (Hall : forallb (fun pid => eqb (advertised pid) (answered pid)) (seqZ 1 255) = true) by (vm_compute; reflexivity).
  rewrite forallb_forall in Hall. apply eqb_prop, Hall, list_elem_of_In, elem_of_seqZ. lia.
Qed.

End Supported.

(** ** A DoIP library, to run the bridge with

    Messages have a header of eight bytes whose last one is the length of what follows,
    and whose third and fourth are the type. *)
Module ExampleDoip.

Definition message (v type : Z) (payload : bytes) : bytes := [v; 255 - v; type / 256; type mod 256; 0; 0; 0; size payload] ++ payload.

(** The type and the payload of what a packet begins with. *)
Definition parse (data : bytes) : option (Z * bytes) :=
  match data with
  | _ :: _ :: t1 :: t0 :: _ :: _ :: _ :: n :: rest => Some (256 * t1 + t0, take (Z.to_nat n) rest)
  | _ => None
  end.

Lemma parse_message v type payload buffer : parse (packet (message v type payload) buffer) = Some (type, payload).
Proof.
  unfold packet, message. cbn [app parse]. f_equal. f_equal; [ulia|].
  unfold size. rewrite Nat2Z.id, take_app_length. done.
Qed.

Definition vehicle_id_response (vin : string) (la : Z) (eid gid : bytes) (f : Z) : bytes :=
  take 17 (Texts.bytes_of_string vin) ++ [la] ++ take 6 eid ++ take 6 gid ++ [f].

#[export] Instance example_doip : DoipLib := {|
  dispatch := fun data =>
    match parse data with
    | Some (1, _) => ToVehicleIdRequestHandler
    | Some (32769, source :: target :: _ :: _ :: userData) => ToDiagMessageHandler source target userData
    | _ => Answered None
    end;
  refused := fun _ => None;
  TryExtractPayloadType := fun data =>
    match parse data with
    | Some (1, _) => Some VehicleIdRequest
    | Some (4, _) => Some VehicleAnnoucementIdResponse
    | Some (32769, _) => Some DiagMessage
    | Some (32770, _) => Some DiagMessagePositiveAcknowledgement
    | Some _ => Some OtherPayload
    | None => None
    end;
  VehicleIdRequest_Serialize := fun v => message v 1 [];
  VehicleIdResponse_Serialize := fun v vin la eid gid f => message v 4 (la :: vehicle_id_response vin la eid gid f);
  VehicleIdResponse_LogicalAddress := fun data => match parse data with Some (4, la :: _) => Some la | _ => None end;
  DiagMessage_Serialize := fun v source target data => message v 32769 ([source; target; 0; 0] ++ data);
  DiagMessageAck_Serialize := fun v source target previous => message v 32770 ([source; target; 0; 0; 0] ++ previous);
  DiagMessageAck_PreviousMessage := fun data =>
    match parse data with Some (32770, _ :: _ :: _ :: _ :: _ :: previous) => Some (Some previous) | _ => None end
|}.

#[export] Instance example_laws : DoipLaws example_doip.
Proof.
  split; intros; cbn [dispatch TryExtractPayloadType VehicleIdRequest_Serialize VehicleIdResponse_Serialize
    VehicleIdResponse_LogicalAddress DiagMessage_Serialize DiagMessageAck_Serialize DiagMessageAck_PreviousMessage
    example_doip]; rewrite ?parse_message; try reflexivity.
  - unfold size, message. rewrite !length_app. simpl. lia.
  - unfold size, message, vehicle_id_response. rewrite length_app. cbn [length].
    rewrite !length_app, !length_take. cbn [length]. lia.
  - unfold size, message. rewrite !length_app. simpl. lia.
Qed.

End ExampleDoip.

(** ** Properties *)

#[local] Existing Instance ExampleDoip.example_laws.

(** C4: from the construction of both ends on, a query for one of the six vehicle values
    is refused while the client does not know the vehicle's address, and after one round
    of packets it is sent; the round after it calls back with what a fetch of the value
    gives: once with the queried parameter and the converted value when the fetch
    succeeds, and not at all when the service answers negatively. *)
Theorem obd_query_end_to_end `{Json} `{L : DoipLib} `{!DoipLaws L} grow b1 b2 w1 w2 pid h url cs positive r :
  ObdToDoipConverter.sent_as_doip pid = true →
  Fetch.fetch w2 url (0xf500 + pid) = Ok (positive, r) →
  ∃ s d, Bridge.bridge_query grow b1 b2 w1 w2 pid h url cs = Ok (false, true, s, d) ∧
    ObdToDoipConverter.callbacks s = if positive : bool then [([pid], drop 3 r)] else [].
Proof. intros. by apply Bridge.bridge_query_answered. Qed.

Definition example_vehicle : VehicleIdRequestHandler.t := VehicleIdRequestHandler.mk 2 "DEMO" 16 1 2.
Definition junk : Bridge.Buffers := Bridge.mkBuffers (repeat 1 64) (repeat 2 64) (repeat 3 64) (repeat 4 64).

Lemma obd_query_end_to_end_witness :
  let w := ReadDataByIdentifier.mkWorld 0 (page "70") 0 in
  ∃ s d, Bridge.bridge_query (L := ExampleDoip.example_doip) (H := text_json) example_grow junk junk w w 0x05
           example_vehicle "u" Conversation.initial = Ok (false, true, s, d) ∧
    ObdToDoipConverter.callbacks s = [([5], [110])].
Proof.
  intros w.
  apply (obd_query_end_to_end (H := text_json) (L := ExampleDoip.example_doip) example_grow junk junk w w 0x05
           example_vehicle "u" Conversation.initial true [98; 245; 5; 110]); vm_compute; reflexivity.
Defined.

(** A diagnostic message that asks for data and is too short to name an identifier
    makes the server's handler throw [std::out_of_range] out of the receive callback,
    while an empty message and any message for another service are answered or refused. *)
Theorem short_request_escapes `{Json} `{L : DoipLib} `{!DoipLaws L} grow w v source target userData buffer d :
  ReadDataByIdentifier.mOffered (DoipServer.mDiagMessageHandler d) = true → size userData < 3 →
  let message := DiagMessage_Serialize v source target userData in
  if decide (head userData = Some ReadDataByIdentifier.cSid)
  then DoipServer.onReceive grow w message buffer d = (Throw std_out_of_range, d)
  else is_ok (fst (DoipServer.onReceive grow w message buffer d)) = true.
Proof.
  intros Hoff Hsize message. unfold DoipServer.onReceive. run. unfold DoipServer.TryHandle, message.
  rewrite dispatch_diag_message. case_decide as Hhead.
  - assert (Hdid : ReadDataByIdentifier.getDid userData = Throw std_out_of_range).
    { destruct userData as [|a [|b [|c rest]]]; try done. unfold size in Hsize. simpl in Hsize. lia. }
    rewrite (Bridge.TryHandle_service _ _ _ _ _ _ _ _ _ Hoff Hhead (Fetch.HandleMessage_short _ _ _ _ _ Hdid)).
    by destruct d.
  - unfold DiagMessageHandler.TryHandle. rewrite Bridge.Route_other by done.
    destruct userData as [|sid rest]; simpl; [by case_match|done].
Qed.

Lemma short_request_escapes_witness :
  let d := DoipServer.mk example_vehicle (DiagMessageHandler.construct "u" Conversation.initial) [] in
  let w := ReadDataByIdentifier.mkWorld 0 (page "70") 0 in
  DoipServer.onReceive (H := text_json) (L := ExampleDoip.example_doip) example_grow w
    (DiagMessage_Serialize (DoipLib := ExampleDoip.example_doip) 2 16 16 [34; 245]) (repeat 0 64) d = (Throw std_out_of_range, d).
Proof.
  intros d w.
  apply (short_request_escapes (H := text_json) (L := ExampleDoip.example_doip) example_grow w 2 16 16 [34; 245] (repeat 0 64) d);
    vm_compute; reflexivity.
Defined.

(** For every parameter from 1 to 255 the converter accepts a query exactly when the
    bit of the parameter is set in the answer to the query of its range (0x00, 0x20, ...):
    what is advertised is answered and nothing else is, once the vehicle's address is
    known and the queue is free. *)
Theorem advertised_queries_are_answered `{L : DoipLib} pid s la :
  1 <= pid <= 255 → DoipClient.mLogicalAddress (ObdToDoipConverter.mClient s) = Some la →
  fst (ObdToDoipConverter.TryGetResponseAsync false [pid] s) = Ok (Supported.advertised pid).
Proof.
  intros Hp Hla. rewrite Supported.advertised_answered by done. unfold Supported.answered.
  unfold ObdToDoipConverter.TryGetResponseAsync. change (at_ [pid] 0) with (Ok pid). run.
  destruct (ObdToDoipConverter.at_once pid); [done|].
  destruct (ObdToDoipConverter.sent_as_doip pid); [|done].
  unfold ObdToDoipConverter.trySendAsDoip, DoipClient.TrySendDiagMessage. by rewrite Hla.
Qed.

Lemma advertised_queries_are_answered_witness :
  let s := ObdToDoipConverter.mk (DoipClient.mk 2 [] (Some 16)) [] in
  Supported.advertised 0xa6 = true ∧
  fst (ObdToDoipConverter.TryGetResponseAsync (L := ExampleDoip.example_doip) false [0xa6] s) = Ok true.
Proof.
  intros s. split; [vm_compute; reflexivity|].
  rewrite (advertised_queries_are_answered (L := ExampleDoip.example_doip) 0xa6 s 16); [vm_compute; reflexivity|lia|reflexivity].
Defined.

(** Of the six octets of an address only the first and the fourth survive the
    conversion: the mask moves by one, two, three octets and so on instead of by one each
    time, so that the address is kept exactly when the four others are zero. *)
Theorem mac_address_loses_octets id :
  0 <= id < 2 ^ 48 →
  VehicleIdRequestHandler.convertToMacAddress id = [id mod 256; 0; 0; id / 2 ^ 24 mod 256; 0; 0] ∧
  (VehicleIdRequestHandler.convertToMacAddress id = (fun i => id / 2 ^ (8 * i) mod 256) <$> [0; 1; 2; 3; 4; 5] ↔
   id / 2 ^ 8 mod 256 = 0 ∧ id / 2 ^ 16 mod 256 = 0 ∧ id / 2 ^ 32 mod 256 = 0 ∧ id / 2 ^ 40 mod 256 = 0).
Proof.
  intros Hid.
  assert (Hmac : VehicleIdRequestHandler.convertToMacAddress id = [id mod 256; 0; 0; id / 2 ^ 24 mod 256; 0; 0]).
  { unfold VehicleIdRequestHandler.convertToMacAddress. cbn [VehicleIdRequestHandler.octets].
    rewrite !Z.shiftr_land. cbn. unfold u8.
    change 256 with (2 ^ 8). rewrite <- !Z.land_ones by lia. rewrite <- !Z.land_assoc. cbn.
    rewrite !Z.land_0_r.
    repeat match goal with
           | |- context [Z.land ?a (Z.land ?m (Z.ones 8))] =>
               let v := eval vm_compute in (Z.land m (Z.ones 8)) in change (Z.land m (Z.ones 8)) with v
           end.
    change ((0 + 1 + 1 + 1) * 8) with 24. change (0 * 8) with 0.
    by rewrite Z.shiftr_0_r, Z.shiftr_div_pow2 by lia. }
  rewrite Hmac. split; [done|]. cbn [fmap list_fmap].
  change (8 * 0) with 0. change (8 * 1) with 8. change (8 * 2) with 16. change (8 * 3) with 24.
  change (8 * 4) with 32. change (8 * 5) with 40. split.
  - intros [=]. done.
  - intros (-> & -> & -> & ->). by rewrite Z.div_1_r.
Qed.

Lemma mac_address_loses_octets_witness :
  VehicleIdRequestHandler.convertToMacAddress 0x0123456789ab = [0xab; 0; 0; 0x45; 0; 0].
Proof. apply (proj1 (mac_address_loses_octets 0x0123456789ab ltac:(lia))). Defined.
