(* ===== verification/Phm.v ===== *)
(** * Platform health management: ara/phm/supervisors

    Elementary supervisions (alive and deadline), and the global supervision that
    listens to them through their callbacks.  Nothing locks the global supervision: a
    supervision's thread is a program counter in its callback, and a step of it is one
    access to what the threads share (taken as sequentially consistent; the members are
    plain, so overlapping accesses are undefined behaviour for C++).  The theorems: of
    reports that do not overlap, the global status is the worst elementary one and its
    callback hears exactly the changes; reports that overlap can leave it stale; an alive
    supervision expires exactly when its failures outnumber its tolerance; a deadline
    supervision supervises only once. *)

From S2P Require Import Prelude.

(** [ara/phm/supervisors/elementary_supervision.h:16-22] SupervisionStatus *)
Inductive SupervisionStatus := kDeactivated | kOk | kFailed | kExpired.

(** [ara/phm/recovery_action.h:14-19] TypeOfSupervision *)
Inductive TypeOfSupervision := AliveSupervision_ | DeadlineSupervision_ | LogicalSupervision_.

#[export] Instance SupervisionStatus_eq_dec : EqDecision SupervisionStatus.
Proof. solve_decision. Defined.
#[export] Instance TypeOfSupervision_eq_dec : EqDecision TypeOfSupervision.
Proof. solve_decision. Defined.

(** The values of the enumeration, which [operator>] compares. *)
Definition code (s : SupervisionStatus) : Z :=
  match s with kDeactivated => 0 | kOk => 1 | kFailed => 2 | kExpired => 3 end.

Lemma code_inj s t : code s = code t → s = t.
Proof. by destruct s, t. Qed.

Module ElementarySupervision.

(** [ara/phm/supervisors/elementary_supervision.h:25-31] ElementarySupervision, its
    callback apart *)
Record t := mk { cSupervisionType : TypeOfSupervision; mStatus : SupervisionStatus }.

(** [ara/phm/supervisors/elementary_supervision.cpp:10-15] ElementarySupervision *)
Definition construct (supervisionType : TypeOfSupervision) : t := mk supervisionType kDeactivated.

(** [ara/phm/supervisors/elementary_supervision.cpp:17-50] Report: the new object and
    whether the callback is called; an expired supervision can only be deactivated *)
Definition Report (status : SupervisionStatus) (e : t) : t * bool :=
  if decide (mStatus e = status) then (e, false)
  else
    match status with
    | kDeactivated | kExpired => (mk (cSupervisionType e) status, true)
    | kOk | kFailed =>
        if decide (mStatus e = kExpired) then (e, false) else (mk (cSupervisionType e) status, true)
    end.

End ElementarySupervision.

Module GlobalSupervision.

(** [ara/phm/supervisors/global_supervision.h:14-21] SupervisionUpdate *)
Record SupervisionUpdate := mkUpdate { type : TypeOfSupervision; status : SupervisionStatus }.

(** [ara/phm/supervisors/global_supervision.h:25-31] GlobalSupervision; the supervisors
    it points to are part of the state, [mUpdates] is what the callback, when set, was
    called with *)
Record t := mk {
  mSupervisors : list ElementarySupervision.t;
  mStatus : SupervisionStatus;
  mOnGlobalStatusChanged : bool;
  mUpdates : list SupervisionUpdate
}.

Definition update_of (e : ElementarySupervision.t) : SupervisionUpdate :=
  mkUpdate (ElementarySupervision.cSupervisionType e) (ElementarySupervision.mStatus e).

(** [ara/phm/supervisors/global_supervision.cpp:32-41] one iteration of the loop *)
Definition worse (result : SupervisionUpdate) (e : ElementarySupervision.t) : SupervisionUpdate :=
  if code (status result) <? code (ElementarySupervision.mStatus e) then update_of e else result.

(** [ara/phm/supervisors/global_supervision.cpp:26-44] getGlobalUpdate: an empty vector
    is indexed out of range *)
Definition getGlobalUpdate (supervisors : list ElementarySupervision.t) : outcome SupervisionUpdate :=
  match supervisors with
  | [] => Undefined
  | e :: es => Ok (foldl worse (update_of e) es)
  end.

(** [ara/phm/supervisors/global_supervision.cpp:9-24] GlobalSupervision *)
Definition construct (supervisors : list ElementarySupervision.t) : outcome t :=
  match supervisors with
  | [] => Ok (mk [] kDeactivated false [])
  | _ => u ← getGlobalUpdate supervisors; Ok (mk supervisors (status u) false [])
  end.

(** [ara/phm/supervisors/global_supervision.cpp:66-70] SetCallback *)
Definition SetCallback (g : t) : t := mk (mSupervisors g) (mStatus g) true (mUpdates g).

Definition set_supervisor (i : nat) (e : ElementarySupervision.t) (g : t) : t :=
  mk (<[i := e]> (mSupervisors g)) (mStatus g) (mOnGlobalStatusChanged g) (mUpdates g).
Definition set_status (s : SupervisionStatus) (g : t) : t :=
  mk (mSupervisors g) s (mOnGlobalStatusChanged g) (mUpdates g).
Definition call_back (u : SupervisionUpdate) (g : t) : t :=
  mk (mSupervisors g) (mStatus g) (mOnGlobalStatusChanged g)
     (if mOnGlobalStatusChanged g then mUpdates g ++ [u] else mUpdates g).

(** Where a supervision's thread is: not in the callback; with its new status written, about
    to look for a callback; collecting the statuses, those before the [n]th collected; with
    the update compared, written, and handed on. *)
Inductive Pc :=
  | Resting
  | Notifying
  | Collecting (n : nat) (result : option SupervisionUpdate)
  | Comparing (u : SupervisionUpdate)
  | Writing (u : SupervisionUpdate)
  | Calling (u : SupervisionUpdate).

(** [ara/phm/supervisors/global_supervision.cpp:26-44] getGlobalUpdate: the status that is
    looked at next *)
Definition collect (n : nat) (result : option SupervisionUpdate) (g : t) : outcome Pc :=
  match mSupervisors g !! n with
  | None => Undefined
  | Some e =>
      let u := match result with None => update_of e | Some r => worse r e end in
      Ok (if (S n <? length (mSupervisors g))%nat then Collecting (S n) (Some u) else Comparing u)
  end.

(** [ara/phm/supervisors/global_supervision.cpp:46-59] onElementaryStatusChanged: the next
    step of a thread in it, [registered] being whether the supervision has its callback *)
Definition onElementaryStatusChanged (registered : bool) (pc : Pc) : M t Pc :=
  g ← get;
  match pc with
  | Resting => mret Resting
  | Notifying => mret (if registered then Collecting 0 None else Resting)
  | Collecting n result => lift (collect n result g)
  | Comparing u => mret (if decide (status u = mStatus g) then Resting else Writing u)
  | Writing u => modify (set_status (status u));; mret (Calling u)
  | Calling u => modify (call_back u);; mret Resting
  end.

(** The threads of the supervisions at work: one begins to report, or takes its next step. *)
Inductive move := Begins (i : nat) (s : SupervisionStatus) | Goes (i : nat).

Definition do_move (m : move) (x : t * list Pc) : outcome (t * list Pc) :=
  let '(g, pcs) := x in
  match m with
  | Begins i s =>
      match mSupervisors g !! i, pcs !! i with
      | Some e, Some Resting =>
          let '(e, notify) := ElementarySupervision.Report s e in
          Ok (set_supervisor i e g, <[i := if notify : bool then Notifying else Resting]> pcs)
      | _, _ => Ok x
      end
  | Goes i =>
      match pcs !! i with
      | Some pc => let '(pc, g) := onElementaryStatusChanged true pc g in pc ← pc; Ok (g, <[i := pc]> pcs)
      | None => Ok x
      end
  end.

Fixpoint run_moves (ms : list move) (x : t * list Pc) : outcome (t * list Pc) :=
  match ms with [] => Ok x | m :: ms => x ← do_move m x; run_moves ms x end.

End GlobalSupervision.

Module AliveSupervision.

(** [ara/phm/supervisors/alive_supervision.h:20-32] AliveSupervision *)
Record t := mk {
  mExpectedAliveIndicationsMin : Z;
  mExpectedAliveIndicationsMax : Z;
  mFailedReferenceCyclesTolerance : Z;
  mAliveCounter : Z;
  mRunning : bool;
  mAliveIndications : Z;
  mBase : ElementarySupervision.t
}.

(** [ara/phm/supervisors/alive_supervision.cpp:15-39] AliveSupervision: the sum is
    converted to [uint16_t] *)
Definition construct (expectedAliveIndications minMargin maxMargin aliveReferenceCycle
    failedReferenceCyclesTolerance : Z) : outcome t :=
  if negb ((0 <? minMargin) && (minMargin <? expectedAliveIndications)) then Throw std_invalid_argument
  else if negb (0 <? maxMargin) then Throw std_invalid_argument
  else if negb (0 <? failedReferenceCyclesTolerance) then Throw std_invalid_argument
  else if negb (0 <? aliveReferenceCycle) then Throw std_invalid_argument
  else Ok (mk (u16 (expectedAliveIndications - minMargin)) (u16 (expectedAliveIndications + maxMargin))
             failedReferenceCyclesTolerance 0 true 0 (ElementarySupervision.construct AliveSupervision_)).

(** [ara/phm/supervisors/alive_supervision.cpp:82-89] ReportAliveness *)
Definition ReportAliveness (a : t) : t :=
  if mAliveIndications a <? 65535 then
    mk (mExpectedAliveIndicationsMin a) (mExpectedAliveIndicationsMax a) (mFailedReferenceCyclesTolerance a)
       (mAliveCounter a) (mRunning a) (mAliveIndications a + 1) (mBase a)
  else a.

(** [ara/phm/supervisors/alive_supervision.cpp:46-79] one iteration of supervise's loop *)
Definition cycle (a : t) : t :=
  let next counter running status :=
    mk (mExpectedAliveIndicationsMin a) (mExpectedAliveIndicationsMax a) (mFailedReferenceCyclesTolerance a)
       counter running 0 (fst (ElementarySupervision.Report status (mBase a))) in
  if mRunning a then
    if (mExpectedAliveIndicationsMin a <=? mAliveIndications a) && (mAliveIndications a <=? mExpectedAliveIndicationsMax a)
    then next (if 0 <? mAliveCounter a then mAliveCounter a - 1 else mAliveCounter a) true kOk
    else
      let counter := u8 (mAliveCounter a + 1) in
      if counter <? mFailedReferenceCyclesTolerance a then next counter true kFailed
      else next counter false kExpired
  else a.

(** A cycle in which [n] checkpoints are reported. *)
Definition cycle_with (n : nat) (a : t) : t := cycle (Nat.iter n ReportAliveness a).
Definition run_cycles (ns : list nat) (a : t) : t := foldl (fun a n => cycle_with n a) a ns.

End AliveSupervision.

Module DeadlineSupervision.

(** The deadline's thread: never started, waiting, or ended and never joined. *)
Inductive Thread := NotStarted | Waiting | Ended.

(** [ara/phm/supervisors/deadline_supervision.h:18-30] DeadlineSupervision *)
Record t := mk {
  cMinDeadline : Z;
  cMaxDeadline : Z;
  mTimeReference : Z;
  mTargetIsReached : bool;
  mDeadlineThread : Thread;
  mBase : ElementarySupervision.t
}.

(** [ara/phm/supervisors/deadline_supervision.cpp:13-19] DeadlineSupervision: the flag
    [mTargetIsReached] is uninitialised *)
Definition construct (minDeadline maxDeadline : Z) (reached : bool) : outcome t :=
  if minDeadline <? maxDeadline then
    if 0 <? maxDeadline then
      Ok (mk minDeadline maxDeadline 0 reached NotStarted (ElementarySupervision.construct DeadlineSupervision_))
    else Throw std_invalid_argument
  else Throw std_invalid_argument.

(** [ara/phm/supervisors/deadline_supervision.cpp:56-73] ReportSourceCheckpoint at time
    [now]; a notification lets the worker's wait end, as its timeout and spurious
    wake-ups do, so it is the choice of the worker's step *)
Definition ReportSourceCheckpoint (now : Z) (d : t) : t :=
  mk (cMinDeadline d) (cMaxDeadline d) now false
     (match mDeadlineThread d with NotStarted => Waiting | th => th end) (mBase d).

(** [ara/phm/supervisors/deadline_supervision.cpp:75-79] ReportTargetCheckpoint *)
Definition ReportTargetCheckpoint (d : t) : t :=
  mk (cMinDeadline d) (cMaxDeadline d) (mTimeReference d) true (mDeadlineThread d) (mBase d).

(** [ara/phm/supervisors/deadline_supervision.cpp:21-54] deadlineWorker: its wait ends at
    time [now], by timeout or not *)
Definition deadlineWorker (timeout : bool) (now : Z) (d : t) : t :=
  let ends status :=
    mk (cMinDeadline d) (cMaxDeadline d) (mTimeReference d) (mTargetIsReached d) Ended
       (fst (ElementarySupervision.Report status (mBase d))) in
  match mDeadlineThread d with
  | Waiting =>
      if timeout || negb (mTargetIsReached d) then ends kExpired
      else if now - mTimeReference d <? cMinDeadline d then ends kExpired else ends kOk
  | _ => d
  end.

Inductive event := Source (now : Z) | Target | Worker (timeout : bool) (now : Z).

Definition do_event (d : t) (ev : event) : t :=
  match ev with
  | Source now => ReportSourceCheckpoint now d
  | Target => ReportTargetCheckpoint d
  | Worker timeout now => deadlineWorker timeout now d
  end.

End DeadlineSupervision.

(** ** Lemmas: the global status *)
Section Global_facts.
Import GlobalSupervision.

(** The update that a list of supervisors deserves: the first one of the worst status. *)
Definition dominant (es : list ElementarySupervision.t) (u : SupervisionUpdate) : Prop :=
  ∃ l1 e l2, es = l1 ++ e :: l2 ∧ u = update_of e ∧
    Forall (fun e' => code (ElementarySupervision.mStatus e') < code (ElementarySupervision.mStatus e)) l1 ∧
    Forall (fun e' => code (ElementarySupervision.mStatus e') <= code (ElementarySupervision.mStatus e)) l2.

Lemma dominant_snoc es u e : dominant es u → dominant (es ++ [e]) (worse u e).
Proof.
  intros (l1 & e0 & l2 & -> & -> & H1 & H2). unfold worse. cbn [update_of status].
  destruct (_ <? _) eqn:E; rewrite ?Z.ltb_lt, ?Z.ltb_ge in E.
  - exists (l1 ++ e0 :: l2), e, []. split_and!; [done|done| |constructor].
    apply Forall_app. split; [|apply Forall_cons; split; [done|]];
      (eapply Forall_impl; [eassumption|]); intros x Hx; cbn in Hx |- *; lia.
  - exists l1, e0, (l2 ++ [e]). split_and!; [by rewrite <- app_assoc|done|done|].
    apply Forall_app. split; [done|by apply Forall_singleton].
Qed.

Lemma dominant_foldl es u l : dominant es u → dominant (es ++ l) (foldl worse u l).
Proof.
  revert es u. induction l as [|e l IH]; intros es u H; [by rewrite app_nil_r|].
  cbn [foldl]. rewrite cons_middle, app_assoc. by apply IH, dominant_snoc.
Qed.

Lemma dominant_cons e es : dominant (e :: es) (foldl worse (update_of e) es).
Proof. apply (dominant_foldl [e]). exists [], e, []. by split_and!. Qed.

Lemma dominant_status es u u' : dominant es u → dominant es u' → status u = status u'.
Proof.
  assert (H : ∀ u u', dominant es u → dominant es u' → code (status u) <= code (status u')).
  { intros u1 u2 (l1 & e & l2 & He & -> & _) (k1 & f & k2 & Hf & -> & H1 & H2). cbn.
    assert (Hin : e ∈ k1 ++ f :: k2) by (rewrite <- Hf, He; set_solver).
    rewrite elem_of_app, elem_of_cons in Hin. rewrite Forall_forall in H1, H2.
    destruct Hin as [Hin|[->|Hin]]; [apply H1 in Hin|..|apply H2 in Hin]; lia. }
  intros Hu Hu'. apply code_inj. pose proof (H _ _ Hu Hu'). pose proof (H _ _ Hu' Hu). lia.
Qed.

(** The worst status, and a supervisor that has it. *)
Lemma dominant_worst es u :
  dominant es u →
  Forall (fun e => code (ElementarySupervision.mStatus e) <= code (status u)) es ∧ ∃ e, e ∈ es ∧ u = update_of e.
Proof.
  intros (l1 & e & l2 & -> & -> & H1 & H2). split; [|exists e; split; [set_solver|done]]. cbn.
  apply Forall_app. split; [|by apply Forall_cons]. eapply Forall_impl; [exact H1|]. intros x Hx. cbn in Hx. lia.
Qed.

(** A thread that nobody disturbs. *)
Fixpoint goes (k : nat) (pc : Pc) : M t Pc :=
  match k with O => mret pc | S k => pc ← onElementaryStatusChanged true pc; goes k pc end.

Lemma goes_moves k i pc g pcs :
  (i < length pcs)%nat →
  run_moves (replicate k (Goes i)) (g, <[i := pc]> pcs) =
    let '(r, g') := goes k pc g in pc' ← r; Ok (g', <[i := pc']> pcs).
Proof.
  intros Hi. revert pc g. induction k as [|k IH]; intros pc g; [done|].
  cbn [replicate run_moves goes do_move]. rewrite list_lookup_insert_eq by done. unfold mbind, M_bind.
  destruct (onElementaryStatusChanged true pc g) as [[pc1| | |] g1]; try done.
  change (match Ok pc1 with Ok a => _ | Throw e => _ | Undefined => _ | OutOfFuel => _ end)
    with (Ok (g1, <[i := pc1]> (<[i := pc]> pcs))). cbn [outcome_bind mbind].
  rewrite list_insert_insert_eq. apply IH.
Qed.

Lemma goes_rest k g : goes k Resting g = (Ok Resting, g).
Proof. induction k as [|k IH]; [done|]. cbn [goes]. run. exact IH. Qed.

Lemma goes_collect k n r g pc :
  collect n r g = Ok pc → goes (S k) (Collecting n r) g = goes k pc g.
Proof. intros H. cbn [goes]. unfold onElementaryStatusChanged at 1. run. by rewrite H. Qed.

(** Collecting the statuses that are left. *)
Lemma goes_collecting l1 r e l2 k g :
  mSupervisors g = l1 ++ e :: l2 →
  goes (S (length l2) + k) (Collecting (length l1) r) g =
    goes k (Comparing (foldl worse (match r with None => update_of e | Some r => worse r e end) l2)) g.
Proof.
  revert l1 r e. induction l2 as [|e' l2 IH]; intros l1 r e Hg; cbn [length Nat.add].
  - apply goes_collect. unfold collect. rewrite Hg, list_lookup_middle by done. rewrite length_app. cbn [length].
    by rewrite (proj2 (Nat.ltb_ge _ _)) by lia.
  - erewrite goes_collect.
    2: { unfold collect. rewrite Hg, list_lookup_middle by done. rewrite length_app. cbn [length].
      rewrite (proj2 (Nat.ltb_lt _ _)) by lia. reflexivity. }
    rewrite cons_middle, app_assoc in Hg.
    specialize (IH (l1 ++ [e]) (Some (match r with None => update_of e | Some r => worse r e end)) e' Hg).
    rewrite length_app, Nat.add_1_r in IH. exact IH.
Qed.

(** The whole call, undisturbed. *)
Lemma goes_call e es g :
  mSupervisors g = e :: es →
  let u := foldl worse (update_of e) es in
  goes (length (mSupervisors g) + 4) Notifying g =
    (Ok Resting, if decide (status u = mStatus g) then g else call_back u (set_status (status u) g)).
Proof.
  intros Hg u. rewrite Hg. cbn [length]. replace (S (length es) + 4)%nat with (S (S (length es) + 3)) by lia.
  change (goes (S (S (length es) + 3)) Notifying g) with (goes (S (length es) + 3) (Collecting (length (@nil ElementarySupervision.t)) None) g).
  rewrite (goes_collecting [] None e es 3 g Hg). fold u. cbn [goes]. unfold onElementaryStatusChanged. run.
  by destruct (decide _).
Qed.

(** What the supervisors are after a report, and after each of several. *)
Definition reported (r : nat * SupervisionStatus) (es : list ElementarySupervision.t) : list ElementarySupervision.t :=
  match es !! r.1 with Some e => <[r.1 := fst (ElementarySupervision.Report r.2 e)]> es | None => es end.

Lemma length_reported r es : length (reported r es) = length es.
Proof. unfold reported. by destruct (es !! r.1); [rewrite length_insert|]. Qed.

Fixpoint trail (es : list ElementarySupervision.t) (rs : list (nat * SupervisionStatus)) : list (list ElementarySupervision.t) :=
  match rs with [] => [] | r :: rs => reported r es :: trail (reported r es) rs end.

(** Of a sequence of updates, those whose status is not that of the one before. *)
Fixpoint changes (s : SupervisionStatus) (us : list SupervisionUpdate) : list SupervisionUpdate :=
  match us with
  | [] => []
  | u :: us => if decide (status u = s) then changes s us else u :: changes (status u) us
  end.

(** Reports that do not overlap: each thread is out of its callback before another begins. *)
Definition one_by_one (n : nat) (rs : list (nat * SupervisionStatus)) : list move :=
  concat (map (fun r => Begins r.1 r.2 :: replicate (n + 4) (Goes r.1)) rs).

Lemma run_moves_app ms ms' x : run_moves (ms ++ ms') x = (x ← run_moves ms x; run_moves ms' x).
Proof.
  revert x. induction ms as [|m ms IH]; intros x; [done|]. cbn [app run_moves].
  destruct (do_move m x) as [y| | |]; try done. rewrite !Ok_bind. apply IH.
Qed.

Lemma Report_same s e e' : ElementarySupervision.Report s e = (e', false) → e' = e.
Proof.
  unfold ElementarySupervision.Report. destruct (decide _); [by intros [= <-]|].
  destruct s; try done; destruct (decide _); by intros [= <-].
Qed.

(** One report, from beginning to end. *)
Lemma one_report r g n :
  length (mSupervisors g) = n → n ≠ O → mOnGlobalStatusChanged g = true →
  (∃ u, dominant (mSupervisors g) u ∧ mStatus g = status u) →
  ∃ u, dominant (reported r (mSupervisors g)) u ∧
    run_moves (Begins r.1 r.2 :: replicate (n + 4) (Goes r.1)) (g, replicate n Resting) =
      Ok (mk (reported r (mSupervisors g)) (status u) true (mUpdates g ++ changes (mStatus g) [u]), replicate n Resting).
Proof.
  destruct r as [i s]. intros Hn Hne Hcb (u0 & Hu0 & Hs0). unfold reported. cbn [fst snd run_moves do_move].
  assert (Hskip : ∀ g', g' = g → ∃ u, dominant (mSupervisors g) u ∧
    Ok (g', replicate n Resting) = Ok (mk (mSupervisors g) (status u) true (mUpdates g ++ changes (mStatus g) [u]), replicate n Resting)).
  { intros g' ->. exists u0. split; [done|]. cbn [changes]. rewrite decide_True by done. rewrite app_nil_r.
    destruct g; cbn in *. by subst. }
  destruct (mSupervisors g !! i) as [e|] eqn:Hi.
  2: { rewrite Ok_bind. assert (Hpi : replicate n Resting !! i = None) by (apply lookup_ge_None; rewrite length_replicate, <- Hn; by apply lookup_ge_None).
    replace (run_moves (replicate (n + 4) (Goes i)) (g, replicate n Resting)) with (@Ok (t * list Pc) (g, replicate n Resting)); [by apply Hskip|].
    generalize (n + 4)%nat. intros k. induction k as [|k IH]; [done|]. cbn [replicate run_moves do_move]. by rewrite Hpi, Ok_bind. }
  assert (Hlt : (i < n)%nat) by (rewrite <- Hn; by eapply lookup_lt_Some).
  rewrite lookup_replicate_2 by done. destruct (ElementarySupervision.Report s e) as [e' notify] eqn:He.
  cbn [fst]. rewrite Ok_bind, goes_moves by by rewrite length_replicate. destruct notify.
  - set (g1 := set_supervisor i e' g). assert (Hlen : length (mSupervisors g1) = n) by (cbn; by rewrite length_insert).
    destruct (mSupervisors g1) as [|e1 es1] eqn:Hg1; [cbn in Hlen; congruence|].
    pose proof (goes_call e1 es1 g1 Hg1) as Hc. rewrite Hg1, Hlen in Hc. rewrite Hc.
    pose proof (dominant_cons e1 es1) as Hd. rewrite <- Hg1 in Hd. set (u := foldl _ _ _) in *. exists u. split; [exact Hd|].
    rewrite Ok_bind. rewrite list_insert_id by by rewrite lookup_replicate_2. f_equal. f_equal. cbn [changes].
    unfold call_back, set_status, g1, set_supervisor. cbn.
    destruct (decide _) as [Heq|Hneq]; rewrite ?decide_True, ?decide_False by done; rewrite ?app_nil_r, ?Hcb; by f_equal.
  - apply Report_same in He as ->. rewrite goes_rest, Ok_bind, !list_insert_id by (done || by rewrite lookup_replicate_2).
    apply Hskip. unfold set_supervisor. rewrite list_insert_id by done. by destruct g.
Qed.

(** All of them, one after the other. *)
Lemma reports_one_by_one rs g n :
  length (mSupervisors g) = n → n ≠ O → mOnGlobalStatusChanged g = true →
  (∃ u, dominant (mSupervisors g) u ∧ mStatus g = status u) →
  ∃ us g', run_moves (one_by_one n rs) (g, replicate n Resting) = Ok (g', replicate n Resting) ∧
    mSupervisors g' = default (mSupervisors g) (last (trail (mSupervisors g) rs)) ∧
    (∃ u, dominant (mSupervisors g') u ∧ mStatus g' = status u) ∧
    Forall2 dominant (trail (mSupervisors g) rs) us ∧
    mUpdates g' = mUpdates g ++ changes (mStatus g) us.
Proof.
  revert g. induction rs as [|r rs IH]; intros g Hn Hne Hcb Hdom.
  { exists [], g. cbn. by rewrite app_nil_r. }
  destruct (one_report r g n Hn Hne Hcb Hdom) as (u & Hu & Hrun). change (one_by_one n (r :: rs)) with
    ((Begins r.1 r.2 :: replicate (n + 4) (Goes r.1)) ++ one_by_one n rs). rewrite run_moves_app, Hrun, Ok_bind.
  set (g1 := mk _ _ _ _). destruct (IH g1) as (us & g' & H1 & H2 & H3 & H4 & H5);
    [by (cbn; rewrite length_reported)|done|done|by exists u|].
  exists (u :: us), g'. split; [exact H1|]. split; [|split; [exact H3|split; [by constructor|]]].
  - rewrite H2. cbn [trail mSupervisors g1]. rewrite last_cons. by destruct (last _).
  - rewrite H5. cbn [mUpdates mStatus g1 changes]. rewrite <- app_assoc. f_equal.
    destruct (decide (status u = mStatus g)) as [->|]; done.
Qed.

End Global_facts.

(** ** Lemmas: alive supervision *)
Section Alive_facts.
Import AliveSupervision.

(** Whether [n] reported checkpoints are within the margins; the counter saturates. *)
Definition alive (a : t) (n : nat) : bool :=
  (mExpectedAliveIndicationsMin a <=? Z.min (Z.of_nat n) 65535) &&
  (Z.min (Z.of_nat n) 65535 <=? mExpectedAliveIndicationsMax a).

(** A supervision at the start of a cycle. *)
Definition alive_inv (a : t) : Prop :=
  mAliveIndications a = 0 ∧ 0 < mFailedReferenceCyclesTolerance a <= 255 ∧ 0 <= mAliveCounter a ∧
  if mRunning a then mAliveCounter a < mFailedReferenceCyclesTolerance a ∧ ElementarySupervision.mStatus (mBase a) ≠ kExpired
  else ElementarySupervision.mStatus (mBase a) = kExpired.

Definition with_indications (n : Z) (a : t) : t :=
  mk (mExpectedAliveIndicationsMin a) (mExpectedAliveIndicationsMax a) (mFailedReferenceCyclesTolerance a)
     (mAliveCounter a) (mRunning a) n (mBase a).

Lemma reports_indications n a :
  mAliveIndications a = 0 → Nat.iter n ReportAliveness a = with_indications (Z.min (Z.of_nat n) 65535) a.
Proof.
  intros H0. induction n as [|n IH]; [destruct a; cbn in *; by subst|].
  change (Nat.iter (S n) ReportAliveness a) with (ReportAliveness (Nat.iter n ReportAliveness a)). rewrite IH.
  unfold ReportAliveness, with_indications. cbn [mAliveIndications].
  destruct (Z.min (Z.of_nat n) 65535 <? 65535) eqn:E; rewrite ?Z.ltb_lt, ?Z.ltb_ge in E; cbn; f_equal; lia.
Qed.

(** One cycle: the counter leaks when the entity is alive and fills when it is not. *)
Lemma cycle_with_spec n a :
  alive_inv a → mRunning a = true →
  let a' := cycle_with n a in
  alive_inv a' ∧ (∀ m, alive a' m = alive a m) ∧
  mFailedReferenceCyclesTolerance a' = mFailedReferenceCyclesTolerance a ∧
  if alive a n then
    mRunning a' = true ∧ mAliveCounter a' = Z.max 0 (mAliveCounter a - 1) ∧
    ElementarySupervision.mStatus (mBase a') = kOk
  else
    mAliveCounter a' = mAliveCounter a + 1 ∧
    mRunning a' = (mAliveCounter a + 1 <? mFailedReferenceCyclesTolerance a) ∧
    ElementarySupervision.mStatus (mBase a') = (if mRunning a' then kFailed else kExpired).
Proof.
  intros (H0 & Ht & Hc & Hr) Hrun. rewrite Hrun in Hr. destruct Hr as [Hlt Hne]. cbv zeta.
  unfold cycle_with. rewrite reports_indications by done. unfold cycle, with_indications. cbn. rewrite Hrun.
  unfold alive at 3. destruct (_ && _).
  - assert (Hst : ElementarySupervision.mStatus (fst (ElementarySupervision.Report kOk (mBase a))) = kOk).
    { unfold ElementarySupervision.Report. destruct (decide _); [done|]. by rewrite decide_False. }
    assert (Hm : (if 0 <? mAliveCounter a then mAliveCounter a - 1 else mAliveCounter a) = Z.max 0 (mAliveCounter a - 1))
      by (destruct (0 <? _) eqn:E; rewrite ?Z.ltb_lt, ?Z.ltb_ge in E; lia).
    rewrite Hm. unfold alive_inv. cbn. rewrite Hst. split_and!; try done; lia.
  - rewrite u8_id by (unfold is_u8; lia).
    destruct (mAliveCounter a + 1 <? mFailedReferenceCyclesTolerance a) eqn:E; rewrite ?Z.ltb_lt, ?Z.ltb_ge in E.
    + assert (Hst : ElementarySupervision.mStatus (fst (ElementarySupervision.Report kFailed (mBase a))) = kFailed).
      { unfold ElementarySupervision.Report. destruct (decide _); [done|]. by rewrite decide_False. }
      unfold alive_inv. cbn. rewrite Hst. split_and!; try done; lia.
    + assert (Hst : ElementarySupervision.mStatus (fst (ElementarySupervision.Report kExpired (mBase a))) = kExpired).
      { unfold ElementarySupervision.Report. by destruct (decide _). }
      unfold alive_inv. cbn. rewrite Hst. split_and!; try done; lia.
Qed.

Lemma reports_same n a :
  mRunning (Nat.iter n ReportAliveness a) = mRunning a ∧ mBase (Nat.iter n ReportAliveness a) = mBase a.
Proof.
  induction n as [|n [IH1 IH2]]; [done|]. change (Nat.iter (S n) ReportAliveness a) with (ReportAliveness (Nat.iter n ReportAliveness a)).
  unfold ReportAliveness. by destruct (_ <? _).
Qed.

Lemma stopped_cycles ns a : mRunning a = false →
  mRunning (run_cycles ns a) = false ∧ mBase (run_cycles ns a) = mBase a.
Proof.
  revert a. induction ns as [|n ns IH]; intros a Hrun; [done|]. cbn [run_cycles foldl].
  assert (H : mRunning (cycle_with n a) = false ∧ mBase (cycle_with n a) = mBase a).
  { unfold cycle_with. destruct (reports_same n a) as [H1 H2]. rewrite Hrun in H1. unfold cycle. rewrite H1. done. }
  destruct H as [H1 H2]. rewrite <- H2. by apply IH.
Qed.

Lemma run_cycles_app ns ns' a : run_cycles (ns ++ ns') a = run_cycles ns' (run_cycles ns a).
Proof. unfold run_cycles. by rewrite foldl_app. Qed.

(** The cycles in which the entity was not alive. *)
Definition failures (a : t) (ns : list nat) : nat := length (List.filter (fun n => negb (alive a n)) ns).

Lemma failures_ext a a' ns : (∀ m, alive a' m = alive a m) → failures a' ns = failures a ns.
Proof. intros H. unfold failures. f_equal. apply List.filter_ext. intros n. by rewrite H. Qed.

(** Fewer failures than the tolerance leaves keep the supervision running. *)
Lemma tolerated ns a :
  alive_inv a → mRunning a = true →
  mAliveCounter a + Z.of_nat (failures a ns) < mFailedReferenceCyclesTolerance a →
  let a' := run_cycles ns a in
  mRunning a' = true ∧ alive_inv a' ∧
  ∀ n, last ns = Some n → ElementarySupervision.mStatus (mBase a') = if alive a n then kOk else kFailed.
Proof.
  revert a. induction ns as [|n ns IH]; intros a Ha Hrun Hf; [done|]. cbn [run_cycles foldl].
  destruct (cycle_with_spec n a Ha Hrun) as (Ha1 & Hal & Htol & Hsp).
  set (a1 := cycle_with n a) in *. unfold failures in Hf. cbn [List.filter] in Hf.
  assert (Hst : mRunning a1 = true ∧ ElementarySupervision.mStatus (mBase a1) = (if alive a n then kOk else kFailed) ∧
    mAliveCounter a1 + Z.of_nat (failures a1 ns) < mFailedReferenceCyclesTolerance a1).
  { rewrite (failures_ext a a1 ns Hal), Htol. destruct (alive a n); cbn [negb length] in Hf.
    - destruct Hsp as (-> & -> & ->). split_and!; try done. destruct Ha as (_ & _ & ? & _). unfold failures. lia.
    - destruct Hsp as (Hc & Hr & Hs). rewrite Hc. rewrite (proj2 (Z.ltb_lt _ _)) in Hr by lia.
      rewrite Hr in Hs. split_and!; try done. unfold failures. lia. }
  destruct Hst as (Hr1 & Hs1 & Hf1). destruct (IH a1 Ha1 Hr1 Hf1) as (H1 & H2 & H3).
  split; [done|]. split; [done|]. intros m Hm. destruct ns as [|n' ns].
  - injection Hm as <-. exact Hs1.
  - rewrite <- Hal. exact (H3 m Hm).
Qed.

(** As many failures in a row as the tolerance end it. *)
Lemma not_tolerated ns a :
  alive_inv a → mRunning a = true → Forall (fun n => alive a n = false) ns →
  mAliveCounter a + Z.of_nat (length ns) = mFailedReferenceCyclesTolerance a → ns ≠ [] →
  mRunning (run_cycles ns a) = false ∧ ElementarySupervision.mStatus (mBase (run_cycles ns a)) = kExpired.
Proof.
  revert a. induction ns as [|n ns IH]; intros a Ha Hrun Hbad Hlen Hne; [done|]. cbn [run_cycles foldl].
  apply Forall_cons in Hbad as [Hn Hbad]. destruct (cycle_with_spec n a Ha Hrun) as (Ha1 & Hal & Htol & Hsp).
  rewrite Hn in Hsp. destruct Hsp as (Hc & Hr & Hs). cbn [length] in Hlen. destruct ns as [|n' ns].
  - rewrite (proj2 (Z.ltb_ge _ _)) in Hr by (cbn [length] in Hlen; lia). rewrite Hr in Hs. done.
  - rewrite (proj2 (Z.ltb_lt _ _)) in Hr by (cbn [length] in Hlen; lia).
    apply IH; [done|done| |rewrite Hc, Htol; cbn [length] in *; lia|done].
    eapply Forall_impl; [exact Hbad|]. intros m Hm. cbn. by rewrite Hal.
Qed.
End Alive_facts.

(** ** Properties *)

(** C33: as long as the reports of its supervisors do not overlap, the global supervision
    has the worst of their statuses and announces exactly the changes of it: after any
    sequence of reports, its status is that of the first supervisor with the worst status;
    and its callback was called once for each report after which this status is another
    one than before, with the status and the type of that supervisor, in this order, and not
    for any other report. *)
Theorem global_is_worst es g rs :
  es ≠ [] → GlobalSupervision.construct es = Ok g →
  let resting := replicate (length es) GlobalSupervision.Resting in
  ∃ us g',
    GlobalSupervision.run_moves (one_by_one (length es) rs) (GlobalSupervision.SetCallback g, resting) = Ok (g', resting) ∧
    GlobalSupervision.mSupervisors g' = default es (last (trail es rs)) ∧
    (∃ u, dominant (GlobalSupervision.mSupervisors g') u ∧ GlobalSupervision.mStatus g' = GlobalSupervision.status u) ∧
    Forall2 dominant (trail es rs) us ∧
    GlobalSupervision.mUpdates g' = changes (GlobalSupervision.mStatus g) us.
Proof.
  intros Hne Hg resting.
  assert (∃ u, dominant es u ∧ g = GlobalSupervision.mk es (GlobalSupervision.status u) false []) as (u0 & Hd & ->).
  { destruct es as [|e es]; [done|]. injection Hg as <-. eexists. split; [apply dominant_cons|done]. }
  destruct (reports_one_by_one rs (GlobalSupervision.mk es (GlobalSupervision.status u0) true []) (length es))
    as (us & g' & H1 & H2 & H3 & H4 & H5); [done|by destruct es|done|by exists u0|].
  exists us, g'. by split_and!.
Qed.

Definition example_supervisors : list ElementarySupervision.t :=
  [ElementarySupervision.construct AliveSupervision_; ElementarySupervision.construct DeadlineSupervision_].

Lemma global_is_worst_witness :
  ∃ g us g', GlobalSupervision.construct example_supervisors = Ok g ∧
    GlobalSupervision.run_moves (one_by_one 2 [(0%nat, kOk); (1%nat, kOk); (1%nat, kExpired); (1%nat, kOk); (0%nat, kExpired)])
      (GlobalSupervision.SetCallback g, [GlobalSupervision.Resting; GlobalSupervision.Resting]) =
      Ok (g', [GlobalSupervision.Resting; GlobalSupervision.Resting]) ∧
    GlobalSupervision.mUpdates g' = changes kDeactivated us ∧
    GlobalSupervision.mUpdates g' =
      [GlobalSupervision.mkUpdate AliveSupervision_ kOk; GlobalSupervision.mkUpdate DeadlineSupervision_ kExpired].
Proof.
  eexists. destruct (global_is_worst example_supervisors _ [(0%nat, kOk); (1%nat, kOk); (1%nat, kExpired); (1%nat, kOk); (0%nat, kExpired)]
    ltac:(discriminate) eq_refl) as (us & g' & H1 & _ & _ & _ & H5).
  exists us, g'. split; [reflexivity|]. split; [exact H1|]. split; [exact H5|].
  vm_compute in H1. injection H1 as <-. reflexivity.
Defined.

(** Reports that overlap can be lost: a thread that has collected the statuses overwrites
    what another one has found meanwhile, so that the global status is not the worst one any
    more, though nobody is in the callback. *)
Theorem overlapping_reports_go_stale :
  ∃ g ms g', GlobalSupervision.construct example_supervisors = Ok g ∧
    GlobalSupervision.run_moves ms (GlobalSupervision.SetCallback g, [GlobalSupervision.Resting; GlobalSupervision.Resting]) =
      Ok (g', [GlobalSupervision.Resting; GlobalSupervision.Resting]) ∧
    ElementarySupervision.mStatus <$> GlobalSupervision.mSupervisors g' = [kOk; kExpired] ∧
    GlobalSupervision.mStatus g' = kOk ∧
    GlobalSupervision.mUpdates g' =
      [GlobalSupervision.mkUpdate DeadlineSupervision_ kExpired; GlobalSupervision.mkUpdate AliveSupervision_ kOk].
Proof.
  eexists. exists (GlobalSupervision.Begins 0 kOk :: replicate 4 (GlobalSupervision.Goes 0) ++
    GlobalSupervision.Begins 1 kExpired :: replicate 6 (GlobalSupervision.Goes 1) ++ replicate 2 (GlobalSupervision.Goes 0)).
  eexists. split; [reflexivity|]. split; [vm_compute; reflexivity|]. by split_and!.
Qed.

(** A deadline supervision works once: when its worker has given its verdict, no
    sequence of checkpoints and steps changes its status or starts another worker,
    because the finished thread is still joinable. *)
Theorem deadline_supervised_once d evs timeout now :
  DeadlineSupervision.mDeadlineThread d = DeadlineSupervision.Waiting →
  let d1 := DeadlineSupervision.deadlineWorker timeout now d in
  let d2 := foldl DeadlineSupervision.do_event d1 evs in
  (ElementarySupervision.mStatus (DeadlineSupervision.mBase d) = kDeactivated →
   ElementarySupervision.mStatus (DeadlineSupervision.mBase d1) =
     if timeout || negb (DeadlineSupervision.mTargetIsReached d) ||
        (now - DeadlineSupervision.mTimeReference d <? DeadlineSupervision.cMinDeadline d)
     then kExpired else kOk) ∧
  DeadlineSupervision.mDeadlineThread d2 = DeadlineSupervision.Ended ∧
  DeadlineSupervision.mBase d2 = DeadlineSupervision.mBase d1.
Proof.
  intros Hw. cbv zeta. split; [|].
  - intros Hs. unfold DeadlineSupervision.deadlineWorker. rewrite Hw.
    destruct timeout, (DeadlineSupervision.mTargetIsReached d); cbn [orb negb];
      repeat match goal with |- context [if ?b then _ else _] => destruct b end;
      cbn [DeadlineSupervision.mBase]; unfold ElementarySupervision.Report; rewrite Hs; done.
  - assert (H1 : DeadlineSupervision.mDeadlineThread (DeadlineSupervision.deadlineWorker timeout now d) = DeadlineSupervision.Ended).
    { unfold DeadlineSupervision.deadlineWorker. rewrite Hw. by destruct (_ || _); [|destruct (_ <? _)]. }
    revert H1. generalize (DeadlineSupervision.deadlineWorker timeout now d) as d1.
    induction evs as [|ev evs IH]; intros d1 H1; [done|]. cbn [foldl].
    destruct ev as [t| |to t]; cbn [DeadlineSupervision.do_event].
    + destruct (IH (DeadlineSupervision.ReportSourceCheckpoint t d1)) as [-> ->]; [|done].
      unfold DeadlineSupervision.ReportSourceCheckpoint. cbn. by rewrite H1.
    + by destruct (IH (DeadlineSupervision.ReportTargetCheckpoint d1) H1) as [-> ->].
    + unfold DeadlineSupervision.deadlineWorker. rewrite H1. by apply IH.
Qed.

(** A deadline of 100 to 200 met after 150; the next one, missed, is not noticed. *)
Lemma deadline_supervised_once_witness :
  ∃ d, DeadlineSupervision.construct 100 200 false = Ok d ∧
    let d0 := DeadlineSupervision.ReportTargetCheckpoint (DeadlineSupervision.ReportSourceCheckpoint 0 d) in
    ElementarySupervision.mStatus (DeadlineSupervision.mBase
      (foldl DeadlineSupervision.do_event (DeadlineSupervision.deadlineWorker false 150 d0)
         [DeadlineSupervision.Source 1000; DeadlineSupervision.Worker true 1200])) = kOk.
Proof.
  eexists. split; [reflexivity|]. cbv zeta.
  rewrite (proj2 (proj2 (deadline_supervised_once
    (DeadlineSupervision.ReportTargetCheckpoint (DeadlineSupervision.ReportSourceCheckpoint 0
      (DeadlineSupervision.mk 100 200 0 false DeadlineSupervision.NotStarted (ElementarySupervision.construct DeadlineSupervision_))))
    [DeadlineSupervision.Source 1000; DeadlineSupervision.Worker true 1200] false 150 eq_refl))).
  reflexivity.
Defined.

(** An alive supervision tolerates what it was configured to: with margins that fit
    sixteen bits, fewer cycles outside the margins than the tolerance keep it running,
    its status that of the last cycle; the tolerance's number of failed cycles in a row
    expires it, and nothing after that changes it. *)
Theorem alive_supervision_tolerance expected minMargin maxMargin referenceCycle tolerance a ns more :
  is_u16 (expected + maxMargin) → tolerance <= 255 →
  AliveSupervision.construct expected minMargin maxMargin referenceCycle tolerance = Ok a →
  let ok n := (expected - minMargin <=? Z.min (Z.of_nat n) 65535) && (Z.min (Z.of_nat n) 65535 <=? expected + maxMargin) in
  (Z.of_nat (length (List.filter (fun n => negb (ok n)) ns)) < tolerance →
   let a' := AliveSupervision.run_cycles ns a in
   AliveSupervision.mRunning a' = true ∧
   ∀ n, last ns = Some n → ElementarySupervision.mStatus (AliveSupervision.mBase a') = if ok n then kOk else kFailed) ∧
  (Forall (fun n => ok n = false) ns → Z.of_nat (length ns) = tolerance →
   let a' := AliveSupervision.run_cycles (ns ++ more) a in
   AliveSupervision.mRunning a' = false ∧ ElementarySupervision.mStatus (AliveSupervision.mBase a') = kExpired).
Proof.
  intros Hu Htol Hc. unfold AliveSupervision.construct in Hc.
  destruct (_ && _) eqn:Hmin in Hc; [|done]. cbn [negb] in Hc. destruct (0 <? maxMargin) eqn:Hmax; [|done]. cbn [negb] in Hc.
  destruct (0 <? tolerance) eqn:Ht; [|done]. cbn [negb] in Hc. destruct (0 <? referenceCycle); [|done]. injection Hc as <-.
  rewrite andb_true_iff, !Z.ltb_lt in *. rewrite (u16_id (expected + maxMargin)), (u16_id (expected - minMargin)) by ulia.
  set (a := AliveSupervision.mk _ _ _ _ _ _ _). cbv zeta.
  assert (Ha : alive_inv a) by (unfold alive_inv, a; cbn; split_and!; try done; lia). split.
  - intros Hn. destruct (tolerated ns a Ha eq_refl) as (H1 & _ & H2); [exact Hn|]. done.
  - intros Hbad Hlen. rewrite run_cycles_app.
    destruct (not_tolerated ns a Ha eq_refl Hbad) as [H1 H2]; [exact Hlen|intros ->; cbn in Hlen; lia|].
    destruct (stopped_cycles more _ H1) as [-> ->]. done.
Qed.

(** Five checkpoints a cycle, one more or less allowed, and three failures. *)
Lemma alive_supervision_tolerance_witness :
  ∃ a, AliveSupervision.construct 5 1 1 100 3 = Ok a ∧
    ElementarySupervision.mStatus (AliveSupervision.mBase (AliveSupervision.run_cycles [5; 0; 6; 9]%nat a)) = kFailed ∧
    ElementarySupervision.mStatus (AliveSupervision.mBase (AliveSupervision.run_cycles ([0; 9; 3] ++ [5; 5])%nat a)) = kExpired.
Proof.
  eexists. split; [reflexivity|]. split.
  - exact (proj2 (proj1 (alive_supervision_tolerance 5 1 1 100 3 _ [5; 0; 6; 9]%nat [] ltac:(by_eval) ltac:(lia) eq_refl) eq_refl) 9%nat eq_refl).
  - exact (proj2 (proj2 (alive_supervision_tolerance 5 1 1 100 3 _ [0; 9; 3]%nat [5; 5]%nat ltac:(by_eval) ltac:(lia) eq_refl)
      ltac:(by_eval) eq_refl)).
Defined.
