(* ===== verification/Health.v ===== *)
(** * Checkpoints and platform health management: application/helper, application/platform

    The way of a checkpoint: a supervised process protects it with profile 11 and writes it
    to a named pipe; the health manager reads it there, checks it and reports it to its
    supervisions, whose worst status decides on recovery.  Every communicator reads the pipe
    as well as writing it, so that the supervised process can take its own messages out of
    it ([CheckpointPipe]).  The manager runs with the threads of its supervisions, Main's
    set-up included, as a run of single steps ([PlatformHealthManagement.step]).  The
    theorems: what arrives of a sequence of checkpoints when some are refused by a contended
    queue or read by another process; which supervision a checkpoint is reported to; how
    often recovery runs, in all runs and in those whose calls do not overlap.  The proofs
    about recovery go through the smaller step relation [vstep], which every step of the
    manager refines ([step_view]). *)

From S2P Require Import Prelude Texts Payload E2E Phm.
#[local] Open Scope Z_scope.

#[local] Existing Instance Profile11.CheckStatusType_eq_dec.

#[export] Instance ElementarySupervision_eq_dec : EqDecision ElementarySupervision.t.
Proof. solve_decision. Defined.

(** ** The communicator *)
Module FifoCheckpointCommunicator.

(** [application/helper/fifo_checkpoint_communicator.cpp:12-15] cE2eHeaderSize *)
Definition cE2eHeaderSize : Z := 2.
Definition cBufferSize : nat := 6.

(** [application/helper/fifo_checkpoint_communicator.h:24-28] FifoCheckpointCommunicator:
    the ends of the pipe are outside, [Callback] is whether there is one *)
Record t := mk {
  mProfile11 : Profile11.Profile11;
  mSendQueue : list bytes;
  Callback : bool
}.

Definition construct : t := mk (Profile11.mk 0 0) [] false.

(** [application/helper/fifo_checkpoint_communicator.cpp:20-50] FifoCheckpointCommunicator:
    every communicator becomes a reader of the pipe, and then a writer; what the ends of the
    pipe and the poller say is given *)
Definition FifoCheckpointCommunicator_ (server_set_up receiver_added client_set_up sender_added : bool) : outcome t :=
  if negb server_set_up then Throw std_runtime_error
  else if negb receiver_added then Throw std_runtime_error
  else if negb client_set_up then Throw std_runtime_error
  else if negb sender_added then Throw std_runtime_error
  else Ok construct.

(** [ara/phm/checkpoint_communicator.cpp:7-10] SetCallback *)
Definition SetCallback (c : t) : t := mk (mProfile11 c) (mSendQueue c) true.

(** [ara/phm/checkpoint_communicator.cpp:12-15] ResetCallback *)
Definition ResetCallback (c : t) : t := mk (mProfile11 c) (mSendQueue c) false.

(** The profile is a member. *)
Definition on_profile {A} (m : M Profile11.Profile11 A) : M t A := fun c =>
  let '(r, p) := m (mProfile11 c) in (r, mk p (mSendQueue c) (Callback c)).

(** [application/helper/fifo_checkpoint_communicator.cpp:101-116] TrySend: the queue refuses
    when another thread has its lock *)
Definition TrySend (locked : bool) (checkpoint : Z) : M t bool :=
  let unprotectedPayload := InjectInteger [] checkpoint in
  protectedPayload ← on_profile (Profile11.TryProtect Profile11.crc_table unprotectedPayload);
  match protectedPayload with
  | None => mret false
  | Some payload =>
      if locked then mret false
      else modify (fun c => mk (mProfile11 c) (mSendQueue c ++ [payload]) (Callback c));; mret true
  end.

(** [application/helper/fifo_checkpoint_communicator.cpp:59-71] one dequeued payload: what
    is written, [uninit] being the bytes the array happens to hold *)
Definition buffer_of (uninit payload : bytes) : option bytes :=
  if (length payload <=? cBufferSize)%nat then Some (take cBufferSize (payload ++ uninit)) else None.

(** [application/helper/fifo_checkpoint_communicator.cpp:52-75] onCheckpointSend: the writes *)
Definition onCheckpointSend (uninit : bytes) (c : t) : list bytes * t :=
  (omap (buffer_of uninit) (mSendQueue c), mk (mProfile11 c) [] (Callback c)).

(** [application/helper/fifo_checkpoint_communicator.cpp:77-99] onCheckpointReceive: the
    bytes that were read, and the checkpoint that the callback is called with *)
Definition onCheckpointReceive (uninit received : bytes) : M t (option Z) :=
  c ← get;
  if (0 <? size received) && Callback c then
    let payload := take cBufferSize (received ++ uninit) in
    status ← on_profile (Profile11.Check Profile11.crc_table payload);
    if bool_decide (status = Profile11.kOk) then
      '(checkpoint, _) ← lift (ExtractInteger payload cE2eHeaderSize);
      mret (Some checkpoint)
    else mret None
  else mret None.

End FifoCheckpointCommunicator.

(** [ara/phm/supervised_entity.h:39-47] ReportCheckpoint: the result is not looked at *)
Definition ReportCheckpoint (locked : bool) (checkpointId : Z) : M FifoCheckpointCommunicator.t () :=
  _ ← FifoCheckpointCommunicator.TrySend locked checkpointId; mret ().

(** ** The pipe *)
Module CheckpointPipe.
Import FifoCheckpointCommunicator.

(** A process that reports checkpoints, the health manager, and the pipe that both of them
    have at both ends: [mReads] is who read a message, and the checkpoint that its callback
    was called with. *)
Inductive Reader := Reporter | Manager.
Record t := mk {
  reporter : FifoCheckpointCommunicator.t;
  manager : FifoCheckpointCommunicator.t;
  pipe : list bytes;
  mReads : list (Reader * option Z)
}.

(** The reporting process enqueues a checkpoint; its poller writes what is enqueued; the poller
    of one of the two finds a message and reads it. *)
Inductive event := Report (checkpoint : Z) (locked : bool) | Write | Read (who : Reader).

Definition step (uninit : bytes) (ev : event) (x : t) : outcome t :=
  match ev with
  | Report checkpoint locked =>
      let '(r, c) := ReportCheckpoint locked checkpoint (reporter x) in
      r;; Ok (mk c (manager x) (pipe x) (mReads x))
  | Write =>
      let '(writes, c) := onCheckpointSend uninit (reporter x) in
      Ok (mk c (manager x) (pipe x ++ writes) (mReads x))
  | Read who =>
      match pipe x with
      | [] => Ok x
      | message :: pipe =>
          match who with
          | Reporter =>
              let '(r, c) := onCheckpointReceive uninit message (reporter x) in
              out ← r; Ok (mk c (manager x) pipe (mReads x ++ [(who, out)]))
          | Manager =>
              let '(r, c) := onCheckpointReceive uninit message (manager x) in
              out ← r; Ok (mk (reporter x) c pipe (mReads x ++ [(who, out)]))
          end
      end
  end.

Fixpoint run (uninit : bytes) (evs : list event) (x : t) : outcome t :=
  match evs with [] => Ok x | ev :: evs => x ← step uninit ev x; run uninit evs x end.

End CheckpointPipe.

(** ** The recovery action *)
Module LogRecoveryAction.

(** [ara/phm/recovery_action.h:28-28] RecoveryAction: whether it is offered, and the texts
    that were logged *)
Record t := mk { mOffered : bool; logged : list string }.

(** [ara/phm/recovery_action.cpp:7-11] RecoveryAction *)
Definition construct : t := mk false [].

(** [ara/phm/recovery_action.cpp:19-22] IsOffered *)
Definition IsOffered (a : t) : bool := mOffered a.

(** [ara/phm/recovery_action.cpp:24-29] Offer *)
Definition Offer (a : t) : t := mk true (logged a).

(** [ara/phm/recovery_action.cpp:31-34] StopOffer *)
Definition StopOffer (a : t) : t := mk false (logged a).

(** [application/helper/log_recovery_action.cpp:19-50] RecoveryHandler *)
Definition RecoveryHandler (functionGroup : string) (executionError : Z) (supervision : TypeOfSupervision) (a : t) : t :=
  if IsOffered a && (executionError =? 0) then
    match supervision with
    | AliveSupervision_ =>
        mk (mOffered a) (logged a ++ [("Alive supervision is expired on " +:+ functionGroup)%string])
    | DeadlineSupervision_ =>
        mk (mOffered a) (logged a ++ [("Deadline supervision is expired on " +:+ functionGroup)%string])
    | LogicalSupervision_ => a
    end
  else a.

End LogRecoveryAction.

(** ** The health manager *)
Module PlatformHealthManagement.

(** What a checkpoint is reported to. *)
Inductive Delegate := ReportAliveness | ReportSourceCheckpoint | ReportTargetCheckpoint.

(** What the reader finds in the manifest: a reference is missing or a text. *)
Record Config := mkConfig {
  checkpoint_ids : list Z;
  expectedAliveIndications : Z;
  minMargin : Z;
  maxMargin : Z;
  aliveReferenceCycle : Z;
  failedReferenceCyclesTolerance : Z;
  alive_ref : option string;
  minDeadline : Z;
  maxDeadline : Z;
  source_ref : option string;
  target_ref : option string
}.

(** [application/platform/platform_health_management.h:26-30] PlatformHealthManagement *)
Record t := mk {
  mReportDelegates : gmap Z Delegate;
  mAliveSupervision : AliveSupervision.t;
  mDeadlineSupervision : DeadlineSupervision.t;
  mGlobalSupervision : GlobalSupervision.t;
  mRecoveryAction : LogRecoveryAction.t
}.

(** [application/platform/platform_health_management.cpp:65-70] fillCheckpoints *)
Definition fillCheckpoints (ids : list Z) : gset Z := list_to_set ids.

(** [application/platform/platform_health_management.cpp:73-93] tryAddReportDelegate:
    [std::map::insert] keeps a delegate that is there *)
Definition tryAddReportDelegate (checkpointIdStr : string) (checkpoints : gset Z) (delegate : Delegate) :
    M (gmap Z Delegate) bool :=
  id ← lift (stoul checkpointIdStr);
  let checkpointId := u32 id in
  if bool_decide (checkpointId ∈ checkpoints)
  then modify (fun m => match m !! checkpointId with Some _ => m | None => <[checkpointId := delegate]> m end);; mret true
  else mret false.

(** [application/platform/platform_health_management.cpp:149-176] a reference that is there
    and names a checkpoint; otherwise an exception that [Main] catches *)
Definition addReference (reference : option string) (checkpoints : gset Z) (delegate : Delegate) : M (gmap Z Delegate) () :=
  match reference with
  | None => raise std_runtime_error
  | Some text =>
      ok ← tryAddReportDelegate text checkpoints delegate;
      if (ok : bool) then mret () else raise std_runtime_error
  end.

(** [application/platform/platform_health_management.cpp:141-177] configureAliveSupervision *)
Definition configureAliveSupervision (cfg : Config) (checkpoints : gset Z) : M (gmap Z Delegate) AliveSupervision.t :=
  a ← lift (AliveSupervision.construct (expectedAliveIndications cfg) (minMargin cfg) (maxMargin cfg)
              (aliveReferenceCycle cfg) (failedReferenceCyclesTolerance cfg));
  addReference (alive_ref cfg) checkpoints ReportAliveness;;
  mret a.

(** [application/platform/platform_health_management.cpp:211-275] configureDeadlineSupervision;
    [reached] is the flag's uninitialised value *)
Definition configureDeadlineSupervision (cfg : Config) (checkpoints : gset Z) (reached : bool) :
    M (gmap Z Delegate) DeadlineSupervision.t :=
  d ← lift (DeadlineSupervision.construct (minDeadline cfg) (maxDeadline cfg) reached);
  addReference (source_ref cfg) checkpoints ReportSourceCheckpoint;;
  addReference (target_ref cfg) checkpoints ReportTargetCheckpoint;;
  mret d.

(** [application/platform/platform_health_management.cpp:306-313] Main, until both supervisions
    are configured; the global one, which does not exist yet, would watch these two *)
Definition configured (cfg : Config) (reached : bool) : outcome t :=
  let checkpoints := fillCheckpoints (checkpoint_ids cfg) in
  let '(r, delegates) :=
    (a ← configureAliveSupervision cfg checkpoints;
     d ← configureDeadlineSupervision cfg checkpoints reached;
     mret (a, d)) ∅ in
  '(a, d) ← r;
  Ok (mk delegates a d (GlobalSupervision.mk [AliveSupervision.mBase a; DeadlineSupervision.mBase d] kDeactivated false [])
         LogRecoveryAction.construct).

(** [application/platform/platform_health_management.cpp:306-324] Main, up to its loop: the
    manager as it is set up when no other thread runs meanwhile; with the others it is
    [main_step], from [configured] on *)
Definition setup (cfg : Config) (reached : bool) : outcome t :=
  let checkpoints := fillCheckpoints (checkpoint_ids cfg) in
  let '(r, delegates) :=
    (a ← configureAliveSupervision cfg checkpoints;
     d ← configureDeadlineSupervision cfg checkpoints reached;
     mret (a, d)) ∅ in
  '(a, d) ← r;
  g ← GlobalSupervision.construct [AliveSupervision.mBase a; DeadlineSupervision.mBase d];
  Ok (mk delegates a d (GlobalSupervision.SetCallback g) (LogRecoveryAction.Offer LogRecoveryAction.construct)).

(** [application/platform/platform_health_management.cpp:277-290] onGlobalStatusChanged *)
Definition onGlobalStatusChanged (functionGroup : string) (update : GlobalSupervision.SupervisionUpdate)
    (a : LogRecoveryAction.t) : LogRecoveryAction.t :=
  if bool_decide (GlobalSupervision.status update = kExpired)
  then LogRecoveryAction.RecoveryHandler functionGroup 0 (GlobalSupervision.type update) a
  else a.

(** [application/platform/platform_health_management.cpp:29-37] onReportCheckpoint at time [now] *)
Definition onReportCheckpoint (now checkpoint : Z) (s : t) : t :=
  match mReportDelegates s !! checkpoint with
  | None => s
  | Some ReportAliveness =>
      mk (mReportDelegates s) (AliveSupervision.ReportAliveness (mAliveSupervision s)) (mDeadlineSupervision s)
         (mGlobalSupervision s) (mRecoveryAction s)
  | Some ReportSourceCheckpoint =>
      mk (mReportDelegates s) (mAliveSupervision s) (DeadlineSupervision.ReportSourceCheckpoint now (mDeadlineSupervision s))
         (mGlobalSupervision s) (mRecoveryAction s)
  | Some ReportTargetCheckpoint =>
      mk (mReportDelegates s) (mAliveSupervision s) (DeadlineSupervision.ReportTargetCheckpoint (mDeadlineSupervision s))
         (mGlobalSupervision s) (mRecoveryAction s)
  end.

(** Where Main is: both supervisions are configured, and the alive supervision's thread, which
    its constructor started, runs; the recovery action is offered; the global supervision's
    constructor collects the statuses, and gives the supervisions their callbacks one by one;
    it is constructed; it has its callback. *)
Inductive MainPc :=
  | Configured
  | Offered
  | Reading (n : nat) (result : option GlobalSupervision.SupervisionUpdate)
  | Registering (n : nat)
  | Constructed
  | Running.

(** The manager with its threads: Main's, and those of the two supervisions; [registered] is how
    many supervisions have their callback. *)
Record Threads := mkThreads {
  manager : t;
  main : MainPc;
  registered : nat;
  alive_pc : GlobalSupervision.Pc;
  deadline_pc : GlobalSupervision.Pc
}.

Definition start (s : t) : Threads := mkThreads s Configured 0 GlobalSupervision.Resting GlobalSupervision.Resting.

Definition set_global (g : GlobalSupervision.t) (s : t) : t :=
  mk (mReportDelegates s) (mAliveSupervision s) (mDeadlineSupervision s) g (mRecoveryAction s).
Definition set_recovery (a : LogRecoveryAction.t) (s : t) : t :=
  mk (mReportDelegates s) (mAliveSupervision s) (mDeadlineSupervision s) (mGlobalSupervision s) a.

(** [application/platform/platform_health_management.cpp:315-324] Main: its next step; the
    steps of the constructor are those of ara/phm/supervisors/global_supervision.cpp, lines 9
    to 24 *)
Definition main_step (x : Threads) : outcome Threads :=
  let next s pc := mkThreads s pc (registered x) (alive_pc x) (deadline_pc x) in
  let s := manager x in
  match main x with
  | Configured => Ok (next (set_recovery (LogRecoveryAction.Offer (mRecoveryAction s)) s) Offered)
  | Offered => Ok (next s (Reading 0 None))
  | Reading n result =>
      pc ← GlobalSupervision.collect n result (mGlobalSupervision s);
      match pc with
      | GlobalSupervision.Collecting n result => Ok (next s (Reading n result))
      | GlobalSupervision.Comparing u =>
          Ok (next (set_global (GlobalSupervision.set_status (GlobalSupervision.status u) (mGlobalSupervision s)) s) (Registering 0))
      | _ => Undefined
      end
  | Registering n =>
      if (n <? length (GlobalSupervision.mSupervisors (mGlobalSupervision s)))%nat
      then Ok (mkThreads s (Registering (S n)) (S n) (alive_pc x) (deadline_pc x))
      else Ok (next s Constructed)
  | Constructed => Ok (next (set_global (GlobalSupervision.SetCallback (mGlobalSupervision s)) s) Running)
  | Running => Ok x
  end.

(** The supervisor at [i] is now [e], where it was [old]: its thread goes on to notify when that
    is a change. *)
Definition reported_pc (old e : ElementarySupervision.t) : GlobalSupervision.Pc :=
  if decide (old = e) then GlobalSupervision.Resting else GlobalSupervision.Notifying.

(** A supervision's thread takes its next step in the callback; the last one calls the manager's. *)
Definition callback_step (functionGroup : string) (registered : bool) (pc : GlobalSupervision.Pc) (s : t) :
    outcome (GlobalSupervision.Pc * t) :=
  let '(next, g) := GlobalSupervision.onElementaryStatusChanged registered pc (mGlobalSupervision s) in
  next ← next;
  let a := match pc with
           | GlobalSupervision.Calling u =>
               if GlobalSupervision.mOnGlobalStatusChanged (mGlobalSupervision s)
               then onGlobalStatusChanged functionGroup u (mRecoveryAction s) else mRecoveryAction s
           | _ => mRecoveryAction s
           end in
  Ok (next, mk (mReportDelegates s) (mAliveSupervision s) (mDeadlineSupervision s) g a).

(** What happens to a manager: a step of Main; a checkpoint; a step of the alive supervision's
    thread, which is the end of a cycle up to the status that it reports, or its next one in
    the callback; the same for the deadline's thread and the end of its wait. *)
Inductive event :=
  | MainStep
  | Checkpoint (now checkpoint : Z)
  | AliveStep
  | DeadlineStep (timeout : bool) (now : Z).

Definition step (functionGroup : string) (ev : event) (x : Threads) : outcome Threads :=
  let s := manager x in
  match ev with
  | MainStep => main_step x
  | Checkpoint now c => Ok (mkThreads (onReportCheckpoint now c s) (main x) (registered x) (alive_pc x) (deadline_pc x))
  | AliveStep =>
      match alive_pc x with
      | GlobalSupervision.Resting =>
          let a := AliveSupervision.cycle (mAliveSupervision s) in
          let e := AliveSupervision.mBase a in
          Ok (mkThreads (mk (mReportDelegates s) a (mDeadlineSupervision s)
                           (GlobalSupervision.set_supervisor 0 e (mGlobalSupervision s)) (mRecoveryAction s))
                (main x) (registered x) (reported_pc (AliveSupervision.mBase (mAliveSupervision s)) e) (deadline_pc x))
      | pc =>
          '(pc, s) ← callback_step functionGroup (0 <? registered x)%nat pc s;
          Ok (mkThreads s (main x) (registered x) pc (deadline_pc x))
      end
  | DeadlineStep timeout now =>
      match deadline_pc x with
      | GlobalSupervision.Resting =>
          let d := DeadlineSupervision.deadlineWorker timeout now (mDeadlineSupervision s) in
          let e := DeadlineSupervision.mBase d in
          Ok (mkThreads (mk (mReportDelegates s) (mAliveSupervision s) d
                           (GlobalSupervision.set_supervisor 1 e (mGlobalSupervision s)) (mRecoveryAction s))
                (main x) (registered x) (alive_pc x) (reported_pc (DeadlineSupervision.mBase (mDeadlineSupervision s)) e))
      | pc =>
          '(pc, s) ← callback_step functionGroup (1 <? registered x)%nat pc s;
          Ok (mkThreads s (main x) (registered x) (alive_pc x) pc)
      end
  end.

Fixpoint run (functionGroup : string) (evs : list event) (x : Threads) : outcome Threads :=
  match evs with [] => Ok x | ev :: evs => x ← step functionGroup ev x; run functionGroup evs x end.

End PlatformHealthManagement.

(** ** Lemmas: the channel *)
Section Channel.
Import FifoCheckpointCommunicator.

Fixpoint send_all (sends : list (Z * bool)) : M t () :=
  match sends with
  | [] => mret ()
  | (c, locked) :: sends => ReportCheckpoint locked c;; send_all sends
  end.

(** What becomes of a checkpoint: the queue refuses it, another process than the manager takes
    its message out of the pipe, the manager reads it, or it is still in the queue or the pipe. *)
Inductive Fate := Refused | Swallowed | Got | OnItsWay.

(** The fates of a sequence of reports when its messages were read by [readers]. *)
Fixpoint fates (sends : list (Z * bool)) (readers : list CheckpointPipe.Reader) : list (Z * Fate) :=
  match sends with
  | [] => []
  | (c, true) :: sends => (c, Refused) :: fates sends readers
  | (c, false) :: sends =>
      match readers with
      | [] => (c, OnItsWay) :: fates sends []
      | CheckpointPipe.Reporter :: readers => (c, Swallowed) :: fates sends readers
      | CheckpointPipe.Manager :: readers => (c, Got) :: fates sends readers
      end
  end.

(** What the manager's reads bring: each checkpoint as it is, in order, but the first one that
    is read behind one that was lost may be ignored.  The flags say whether one was lost since
    the last read, before and after the sequence. *)
Inductive Heard : bool → list (Z * Fate) → list (option Z) → bool → Prop :=
  | heard_nil gap : Heard gap [] [] gap
  | heard_lost gap c f l outs gap' : f = Refused ∨ f = Swallowed → Heard true l outs gap' → Heard gap ((c, f) :: l) outs gap'
  | heard_got gap c l outs gap' : Heard false l outs gap' → Heard gap ((c, Got) :: l) (Some c :: outs) gap'
  | heard_ignored c l outs gap' : Heard false l outs gap' → Heard true ((c, Got) :: l) (None :: outs) gap'
  | heard_later gap c l gap' : Heard gap l [] gap' → Heard gap ((c, OnItsWay) :: l) [] gap'.

(** The checkpoints that were reported, and what the manager's reads brought. *)
Definition reports_of (evs : list CheckpointPipe.event) : list (Z * bool) :=
  omap (fun ev => match ev with CheckpointPipe.Report c locked => Some (c, locked) | _ => None end) evs.
Definition readers (x : CheckpointPipe.t) : list CheckpointPipe.Reader := fst <$> CheckpointPipe.mReads x.
Definition heard_by_manager (x : CheckpointPipe.t) : list (option Z) :=
  omap (fun '(who, out) => match who with CheckpointPipe.Manager => Some out | CheckpointPipe.Reporter => None end) (CheckpointPipe.mReads x).

(** How many of them the queue accepted. *)
Definition accepted (sends : list (Z * bool)) : nat := length (List.filter (fun r => negb r.2) sends).

(** The messages that a sequence of reports enqueues, from the counter on. *)
Fixpoint messages_from (c : Z) (sends : list (Z * bool)) : list bytes :=
  match sends with
  | [] => []
  | (checkpoint, locked) :: sends =>
      (if (locked : bool) then [] else [Profile11.frame c (integer_bytes checkpoint)]) ++
      messages_from (Profile11.next_counter c) sends
  end.

Fixpoint counter_after (c : Z) (sends : list (Z * bool)) : Z :=
  match sends with [] => c | _ :: sends => counter_after (Profile11.next_counter c) sends end.

Lemma send_all_messages sends s :
  Profile11.valid (mProfile11 s) →
  let p := mProfile11 s in
  send_all sends s =
    (Ok (), mk (Profile11.mk (counter_after (Profile11.mProtectingCounter p) sends) (Profile11.mCheckingCounter p))
              (mSendQueue s ++ messages_from (Profile11.mProtectingCounter p) sends) (Callback s)) ∧
  Profile11.valid (Profile11.mk (counter_after (Profile11.mProtectingCounter p) sends) (Profile11.mCheckingCounter p)).
Proof.
  revert s. induction sends as [|[c locked] sends IH]; intros s Hv.
  { destruct s as [[] ? ?]. cbn. by rewrite app_nil_r. }
  assert (Hv' : Profile11.valid (Profile11.mk (Profile11.next_counter (Profile11.mProtectingCounter (mProfile11 s)))
    (Profile11.mCheckingCounter (mProfile11 s)))).
  { split; [apply Profile11.next_counter_bound, Hv|apply Hv]. }
  cbn [send_all messages_from counter_after]. unfold ReportCheckpoint, TrySend, on_profile. run.
  rewrite InjectInteger_app, app_nil_l, Profile11.TryProtect_frame by (done || apply is_bytes_integer).
  destruct locked; cbv zeta;
    match goal with |- context [send_all sends ?s1] => destruct (IH s1 Hv') as [-> ?] end; cbn;
    (split; [|done]); [done|]. by rewrite <- app_assoc.
Qed.

(** What is enqueued fits the buffer, and is written as it is. *)
Lemma messages_fit uninit c sends : Forall (fun m => buffer_of uninit m = Some m) (messages_from c sends).
Proof.
  revert c. induction sends as [|[checkpoint locked] sends IH]; intros c; [constructor|].
  apply Forall_app. split; [|apply IH]. destruct locked; [constructor|]. apply Forall_singleton. unfold buffer_of.
  rewrite (proj2 (Nat.leb_le _ _)) by done. by rewrite take_app_le, take_ge by done.
Qed.

Lemma fitting_written uninit ms : Forall (fun m => buffer_of uninit m = Some m) ms → omap (buffer_of uninit) ms = ms.
Proof. induction 1 as [|m ms Hm _ IH]; [done|]. cbn [omap list_omap]. rewrite Hm. f_equal. exact IH. Qed.

Lemma messages_app c s1 s2 : messages_from c (s1 ++ s2) = messages_from c s1 ++ messages_from (counter_after c s1) s2.
Proof.
  revert c. induction s1 as [|[checkpoint locked] s1 IH]; intros c; [done|].
  cbn [messages_from app counter_after]. rewrite IH. by destruct locked.
Qed.

Lemma messages_count c sends : length (messages_from c sends) = accepted sends.
Proof.
  revert c. induction sends as [|[checkpoint []] sends IH]; intros c; [done|..]; cbn [messages_from]; rewrite length_app, IH; done.
Qed.

(** A message is taken or ignored; either way the receiver is in step again. *)
Lemma Check_frame c d p :
  d ≠ [] → is_bytes d → 0 <= c <= 14 →
  ∃ st, Profile11.Check Profile11.crc_table (Profile11.frame c d) p =
      (Ok st, Profile11.mk (Profile11.mProtectingCounter p) (Profile11.next_counter c)) ∧
    (c = Profile11.mCheckingCounter p → st = Profile11.kOk).
Proof.
  intros Hd Hb Hc. pose proof (Profile11.next_counter_bound c Hc) as Hn. unfold Profile11.frame.
  rewrite Profile11.Check_message by (try done; is_bytes_tac). rewrite Z.eqb_refl. cbv zeta.
  rewrite (proj2 (Profile11.mask_counter (Profile11.next_counter c) ltac:(lia))). eexists. split; [reflexivity|].
  intros <-. unfold Profile11.next_counter, Profile11.cCounterMax, i8 in *.
  repeat case_match; try done; exfalso; ulia.
Qed.

Lemma receive_frame uninit c checkpoint r :
  is_u32 checkpoint → 0 <= c <= 14 → Callback r = true →
  ∃ out, onCheckpointReceive uninit (Profile11.frame c (integer_bytes checkpoint)) r =
      (Ok out, mk (Profile11.mk (Profile11.mProtectingCounter (mProfile11 r)) (Profile11.next_counter c)) (mSendQueue r) true) ∧
    (out = None ∨ out = Some checkpoint) ∧
    (c = Profile11.mCheckingCounter (mProfile11 r) → out = Some checkpoint).
Proof.
  intros Hu Hc Hcb. destruct (Check_frame c (integer_bytes checkpoint) (mProfile11 r)) as (st & Hst & Hsync);
    [done|apply is_bytes_integer|done|].
  unfold onCheckpointReceive, on_profile. run. rewrite Hcb.
  replace (0 <? size (Profile11.frame c (integer_bytes checkpoint))) with true by done. cbn [andb].
  rewrite take_app_le, take_ge by done. cbv zeta. rewrite Hst.
  destruct (bool_decide (st = Profile11.kOk)) eqn:E.
  - assert (Hh : holds (Profile11.frame c (integer_bytes checkpoint)) cE2eHeaderSize (integer_bytes checkpoint)).
    { eexists [_; _], []. by rewrite app_nil_r. }
    rewrite (ExtractInteger_holds _ _ _ Hu Hh). cbn. rewrite Hcb. eexists. split; [reflexivity|]. split; [by right|done].
  - cbn. rewrite Hcb. eexists. split; [reflexivity|]. split; [by left|]. intros Heq. apply bool_decide_eq_false in E. by apply Hsync in Heq.
Qed.

(** Whoever reads a message: his counter for protecting and his queue stay. *)
Lemma receive_any uninit c checkpoint r :
  is_u32 checkpoint → 0 <= c <= 14 →
  ∃ out r', onCheckpointReceive uninit (Profile11.frame c (integer_bytes checkpoint)) r = (Ok out, r') ∧
    Profile11.mProtectingCounter (mProfile11 r') = Profile11.mProtectingCounter (mProfile11 r) ∧
    (Profile11.valid (mProfile11 r) → Profile11.valid (mProfile11 r')) ∧ mSendQueue r' = mSendQueue r.
Proof.
  intros Hu Hc. destruct (Callback r) eqn:Hcb.
  - destruct (receive_frame uninit c checkpoint r Hu Hc Hcb) as (out & -> & _). eexists _, _. split; [reflexivity|].
    split_and!; [done| |done]. intros Hv. pose proof (Profile11.next_counter_bound c Hc). split; [apply Hv|cbn; lia].
  - unfold onCheckpointReceive. run. rewrite Hcb, andb_false_r. by eexists _, _.
Qed.

(** The message at the head of a pipe is that of the next report that was not refused. *)
Lemma messages_head c sends m ms :
  messages_from c sends = m :: ms →
  ∃ refused checkpoint rest, sends = refused ++ (checkpoint, false) :: rest ∧ Forall (fun r => r.2 = true) refused ∧
    m = Profile11.frame (counter_after c refused) (integer_bytes checkpoint) ∧
    ms = messages_from (Profile11.next_counter (counter_after c refused)) rest.
Proof.
  revert c. induction sends as [|[checkpoint locked] sends IH]; intros c H; [done|]. destruct locked; cbn [messages_from app] in H.
  - destruct (IH _ H) as (refused & c' & rest & -> & Hr & -> & ->). exists ((checkpoint, true) :: refused), c', rest.
    split_and!; try done. by apply Forall_cons.
  - injection H as <- <-. by exists [], checkpoint, sends.
Qed.

Lemma counter_after_app c s1 s2 : counter_after c (s1 ++ s2) = counter_after (counter_after c s1) s2.
Proof. revert c. induction s1 as [|x s1 IH]; intros c; [done|]. apply IH. Qed.

Lemma counter_after_bound c sends : 0 <= c <= 14 → 0 <= counter_after c sends <= 14.
Proof. revert c. induction sends as [|x sends IH]; intros c Hc; [done|]. by apply IH, Profile11.next_counter_bound. Qed.

Lemma Heard_app g1 l1 o1 g2 l2 o2 g3 : Heard g1 l1 o1 g2 → Heard g2 l2 o2 g3 →
  Forall (fun x => x.2 ≠ OnItsWay) l1 → Heard g1 (l1 ++ l2) (o1 ++ o2) g3.
Proof.
  intros H H2. induction H; intros Hf; [done|..]; apply Forall_cons in Hf as [Hx Hf]; cbn [app];
    [by apply heard_lost; [|apply IHHeard]|by apply heard_got, IHHeard|by apply heard_ignored, IHHeard|done].
Qed.

(** Refused checkpoints leave a gap; those still on their way nothing. *)
Lemma Heard_refused gap refused : Forall (fun r => r.2 = true) refused →
  Heard gap (fates refused []) [] (gap || negb (bool_decide (refused = []))).
Proof.
  intros H. revert gap. induction H as [|[c locked] refused Hl _ IH]; intros gap; cbn in *; [rewrite orb_false_r; constructor|].
  subst locked. apply heard_lost; [by left|]. specialize (IH true). rewrite orb_true_r. exact IH.
Qed.

Lemma Heard_pending gap sends : ∃ gap', Heard gap (fates sends []) [] gap'.
Proof.
  revert gap. induction sends as [|[c []] sends IH]; intros gap; [by eexists; constructor|..]; cbn [fates].
  - destruct (IH true) as [g Hg]. exists g. by apply heard_lost; [left|].
  - destruct (IH gap) as [g Hg]. exists g. by apply heard_later.
Qed.

Lemma accepted_refused refused : Forall (fun r : Z * bool => r.2 = true) refused → accepted refused = 0%nat.
Proof. induction 1 as [|[c l] refused Hl _ IH]; cbn in *; [done|]. by subst. Qed.

Lemma accepted_app s1 s2 : accepted (s1 ++ s2) = (accepted s1 + accepted s2)%nat.
Proof. unfold accepted. by rewrite List.filter_app, length_app. Qed.

(** The fates of reports whose messages have all been read, and then of the others. *)
Lemma fates_app s1 s2 rs1 rs2 : length rs1 = accepted s1 →
  fates (s1 ++ s2) (rs1 ++ rs2) = fates s1 rs1 ++ fates s2 rs2 ∧ Forall (fun x => x.2 ≠ OnItsWay) (fates s1 rs1).
Proof.
  revert rs1. induction s1 as [|[c []] s1 IH]; intros rs1 Hl; cbn in Hl |- *.
  - apply nil_length_inv in Hl as ->. done.
  - destruct (IH rs1 Hl) as [-> H]. split; [done|]. by apply Forall_cons.
  - destruct rs1 as [|r rs1]; [done|]. injection Hl as Hl. destruct (IH rs1 Hl) as [IH1 IH2].
    destruct r; cbn [app]; rewrite IH1; (split; [done|by apply Forall_cons]).
Qed.

Lemma fates_refused refused : Forall (fun r => r.2 = true) refused → ∀ rs, fates refused rs = fates refused [].
Proof. induction 1 as [|[c l] refused Hl _ IH]; intros rs; cbn in *; [done|]. subst l. by rewrite IH. Qed.

Lemma Heard_all gap l outs gap' :
  Heard gap l outs gap' → gap = false → Forall (fun x => x.2 = Got) l → outs = map (fun x => Some x.1) l.
Proof.
  intros H. induction H as [|? ? ? ? ? ? [-> | ->] |gap c l outs gap' _ IH| |]; intros Hg Hf; try done;
    apply Forall_cons in Hf as [? Hf]; try done. cbn. f_equal. by apply IH.
Qed.

Lemma fates_all_got sends rs :
  Forall (fun r => r.2 = false) sends → Forall (eq CheckpointPipe.Manager) rs → length rs = accepted sends →
  fates sends rs = map (fun r => (r.1, Got)) sends.
Proof.
  intros H. revert rs. induction H as [|[c l] sends Hl _ IH]; intros rs Hrs Hlen; [done|]. cbn in Hl. subst l.
  destruct rs as [|r rs]; [done|]. apply Forall_cons in Hrs as [<- Hrs]. injection Hlen as Hlen. cbn. f_equal. by apply IH.
Qed.

(** ** Lemmas: the pipe *)

(** Reports [sends] have been made since the reporter's counter was [c0]: the messages of those
    that are not done are in the pipe and the queue, and of the others the manager heard what it
    could; when it has missed none since it last read, the next message is the one it expects. *)
Record in_step (c0 : Z) (sends : list (Z * bool)) (x : CheckpointPipe.t) : Prop := {
  reporter_valid : Profile11.valid (mProfile11 (CheckpointPipe.reporter x));
  reporter_counter : Profile11.mProtectingCounter (mProfile11 (CheckpointPipe.reporter x)) = counter_after c0 sends;
  manager_listens : Callback (CheckpointPipe.manager x) = true;
  read_so_far : ∃ past rest gap, sends = past ++ rest ∧
    messages_from (counter_after c0 past) rest = CheckpointPipe.pipe x ++ mSendQueue (CheckpointPipe.reporter x) ∧
    accepted past = length (readers x) ∧
    Heard false (fates past (readers x)) (heard_by_manager x) gap ∧
    (gap = false → counter_after c0 past = Profile11.mCheckingCounter (mProfile11 (CheckpointPipe.manager x)))
}.

Lemma report_in_step uninit c0 sends x checkpoint locked :
  in_step c0 sends x →
  ∃ x', CheckpointPipe.step uninit (CheckpointPipe.Report checkpoint locked) x = Ok x' ∧
    in_step c0 (sends ++ [(checkpoint, locked)]) x'.
Proof.
  intros [Hv Hc Hm (past & rest & gap & -> & Hms & Hacc & Hh & Hg)].
  destruct (send_all_messages [(checkpoint, locked)] (CheckpointPipe.reporter x) Hv) as [Hs Hv'].
  cbn [CheckpointPipe.step]. cbn [send_all] in Hs. unfold mbind, M_bind in Hs.
  destruct (ReportCheckpoint locked checkpoint (CheckpointPipe.reporter x)) as [[[]| | |] c]; try done.
  injection Hs as ->. rewrite Ok_bind. eexists. split; [reflexivity|]. split; cbn; [done| |done|].
  - by rewrite counter_after_app, Hc.
  - exists past, (rest ++ [(checkpoint, locked)]), gap. rewrite messages_app, app_assoc. split_and!; try done.
    rewrite Hms, Hc, counter_after_app, <- app_assoc. done.
Qed.

Lemma write_in_step uninit c0 sends x :
  in_step c0 sends x →
  ∃ x', CheckpointPipe.step uninit CheckpointPipe.Write x = Ok x' ∧ in_step c0 sends x'.
Proof.
  intros [Hv Hc Hm (past & rest & gap & -> & Hms & Hacc & Hh & Hg)]. cbn [CheckpointPipe.step onCheckpointSend].
  eexists. split; [reflexivity|]. split; cbn; try done. exists past, rest, gap. split_and!; try done.
  assert (Hfit := messages_fit uninit (counter_after c0 past) rest). rewrite Hms in Hfit. apply Forall_app in Hfit as [_ Hfit].
  by rewrite (fitting_written _ _ Hfit), app_nil_r.
Qed.

Lemma readers_snoc who out (l : list (CheckpointPipe.Reader * option Z)) :
  omap (fun '(who, out) => match who with CheckpointPipe.Manager => Some out | CheckpointPipe.Reporter => None end) (l ++ [(who, out)]) =
  omap (fun '(who, out) => match who with CheckpointPipe.Manager => Some out | CheckpointPipe.Reporter => None end) l ++
  match who with CheckpointPipe.Manager => [out] | CheckpointPipe.Reporter => [] end.
Proof. rewrite omap_app. by destruct who. Qed.

(** One message more is read: the reports before it were refused. *)
Lemma Heard_read gap0 past rs refused checkpoint who outs gap out :
  Heard gap0 (fates past rs) outs gap → length rs = accepted past → Forall (fun r => r.2 = true) refused →
  (who = CheckpointPipe.Manager → out = Some checkpoint ∨ (out = None ∧ gap || negb (bool_decide (refused = [])) = true)) →
  Heard gap0 (fates (past ++ refused ++ [(checkpoint, false)]) (rs ++ [who]))
    (outs ++ match who with CheckpointPipe.Manager => [out] | CheckpointPipe.Reporter => [] end)
    match who with CheckpointPipe.Manager => false | CheckpointPipe.Reporter => true end.
Proof.
  intros Hh Hlen Href Hout. destruct (fates_app past (refused ++ [(checkpoint, false)]) rs [who] Hlen) as [-> Hall].
  apply (Heard_app _ _ _ gap); [done| |done].
  pose proof (accepted_refused refused Href) as Hacc.
  destruct (fates_app refused [(checkpoint, false)] [] [who] (eq_sym Hacc)) as [Hf Hall']. cbn [app] in Hf. rewrite Hf.
  apply (Heard_app _ _ [] (gap || negb (bool_decide (refused = [])))); [by apply Heard_refused| |done].
  destruct who; cbn.
  - apply heard_lost; [by right|constructor].
  - destruct (Hout eq_refl) as [->|[-> ->]]; constructor; constructor.
Qed.

Lemma read_in_step uninit c0 sends x who :
  Forall (fun r => is_u32 r.1) sends → 0 <= c0 <= 14 → in_step c0 sends x →
  ∃ x', CheckpointPipe.step uninit (CheckpointPipe.Read who) x = Ok x' ∧ in_step c0 sends x'.
Proof.
  intros Hu Hc0 Hin. cbn [CheckpointPipe.step]. destruct (CheckpointPipe.pipe x) as [|m ms] eqn:Hp; [by exists x|].
  destruct Hin as [Hv Hc Hm (past & rest & gap & -> & Hms & Hacc & Hh & Hg)]. rewrite Hp in Hms. cbn [app] in Hms.
  destruct (messages_head _ _ _ _ Hms) as (refused & checkpoint & rest' & -> & Href & -> & Hrest).
  set (c1 := counter_after (counter_after c0 past) refused) in *.
  assert (Hc1 : 0 <= c1 <= 14) by (by apply counter_after_bound, counter_after_bound).
  assert (Hck : is_u32 checkpoint).
  { rewrite !Forall_app, Forall_cons in Hu. by destruct Hu as (_ & _ & ? & _). }
  assert (Hsplit : past ++ refused ++ (checkpoint, false) :: rest' = (past ++ refused ++ [(checkpoint, false)]) ++ rest')
    by by rewrite <- !app_assoc.
  assert (Hnext : counter_after c0 (past ++ refused ++ [(checkpoint, false)]) = Profile11.next_counter c1)
    by by rewrite !counter_after_app.
  assert (Hacc' : ∀ l : list CheckpointPipe.Reader, length l = S (length (readers x)) → accepted (past ++ refused ++ [(checkpoint, false)]) = length l).
  { intros l ->. rewrite !accepted_app, (accepted_refused refused Href), Hacc. cbn. lia. }
  destruct who.
  - destruct (receive_any uninit c1 checkpoint (CheckpointPipe.reporter x) Hck Hc1) as (out & c & -> & Hpc & Hpv & Hpq).
    rewrite Ok_bind. eexists. split; [reflexivity|].
    split; cbn; [by apply Hpv|by rewrite Hpc|done|]. exists (past ++ refused ++ [(checkpoint, false)]), rest', true.
    rewrite Hnext, Hpq. unfold readers, heard_by_manager. cbn. rewrite fmap_app, readers_snoc. split_and!; [done|done| | |done].
    + apply Hacc'. rewrite length_app. cbn. unfold readers. lia.
    + exact (Heard_read _ _ _ _ _ CheckpointPipe.Reporter _ _ out Hh (eq_sym Hacc) Href ltac:(done)).
  - destruct (receive_frame uninit c1 checkpoint (CheckpointPipe.manager x) Hck Hc1 Hm) as (out & -> & Hout & Hsync).
    rewrite Ok_bind. eexists. split; [reflexivity|]. split; cbn; [done|done|done|].
    exists (past ++ refused ++ [(checkpoint, false)]), rest', false.
    rewrite Hnext. unfold readers, heard_by_manager. cbn. rewrite fmap_app, readers_snoc. split_and!; [done|done| | |done].
    + apply Hacc'. rewrite length_app. cbn. unfold readers. lia.
    + refine (Heard_read _ _ _ _ _ CheckpointPipe.Manager _ _ out Hh (eq_sym Hacc) Href _). intros _.
      destruct Hout as [->| ->]; [right|by left]. split; [done|]. destruct gap; [done|]. case_bool_decide as Hr; [|done].
      subst refused. exfalso. by specialize (Hsync (Hg eq_refl)).
Qed.

Lemma run_in_step uninit c0 evs sends x :
  Forall (fun r => is_u32 r.1) (sends ++ reports_of evs) → 0 <= c0 <= 14 → in_step c0 sends x →
  ∃ x', CheckpointPipe.run uninit evs x = Ok x' ∧ in_step c0 (sends ++ reports_of evs) x'.
Proof.
  intros Hu Hc0. revert sends x Hu. induction evs as [|ev evs IH]; intros sends x Hu Hin.
  { exists x. by rewrite app_nil_r. }
  assert (Hstep : ∃ x', CheckpointPipe.step uninit ev x = Ok x' ∧ in_step c0 (sends ++ reports_of [ev]) x').
  { apply Forall_app in Hu as [Hu _]. destruct ev as [checkpoint locked| |who]; cbn [reports_of omap list_omap]; rewrite ?app_nil_r.
    - by apply report_in_step.
    - by apply write_in_step.
    - by apply read_in_step. }
  destruct Hstep as (x1 & H1 & Hin1). assert (Hall : (sends ++ reports_of [ev]) ++ reports_of evs = sends ++ reports_of (ev :: evs)).
  { rewrite <- app_assoc. f_equal. by destruct ev. }
  destruct (IH _ x1 ltac:(by rewrite Hall) Hin1) as (x' & H' & Hin'). exists x'. rewrite Hall in Hin'.
  cbn [CheckpointPipe.run]. by rewrite H1.
Qed.

End Channel.

(** ** Lemmas: the manager *)
Section Manager.
Import PlatformHealthManagement.

(** A base keeps its type, and once expired it stays so. *)
Definition later (e e' : ElementarySupervision.t) : Prop :=
  ElementarySupervision.cSupervisionType e' = ElementarySupervision.cSupervisionType e ∧
  (ElementarySupervision.mStatus e = kExpired → ElementarySupervision.mStatus e' = kExpired).

Lemma later_refl e : later e e.
Proof. done. Qed.

Lemma Report_later st e : st ≠ kDeactivated → later e (fst (ElementarySupervision.Report st e)).
Proof.
  intros Hst. unfold ElementarySupervision.Report. destruct (decide _) as [|Hne]; [done|].
  destruct st; try done; (destruct (decide _); [done|]); by split.
Qed.

Lemma cycle_later a : later (AliveSupervision.mBase a) (AliveSupervision.mBase (AliveSupervision.cycle a)).
Proof. unfold AliveSupervision.cycle. repeat case_match; cbn; by (apply Report_later || apply later_refl). Qed.

Lemma deadlineWorker_later timeout now d :
  later (DeadlineSupervision.mBase d) (DeadlineSupervision.mBase (DeadlineSupervision.deadlineWorker timeout now d)).
Proof. unfold DeadlineSupervision.deadlineWorker. repeat case_match; cbn; by (apply Report_later || apply later_refl). Qed.

Definition expired (e : ElementarySupervision.t) : Prop := ElementarySupervision.mStatus e = kExpired.

Definition text_of (t : TypeOfSupervision) (functionGroup : string) : string :=
  match t with
  | AliveSupervision_ => ("Alive supervision is expired on " +:+ functionGroup)%string
  | DeadlineSupervision_ => ("Deadline supervision is expired on " +:+ functionGroup)%string
  | LogicalSupervision_ => EmptyString
  end.

(** What matters of a manager for its recovery: the two supervisions, the global status, whether
    the global supervision has its callback and recovery is offered, the program counters, what
    was logged, whether the alive supervision still runs and the deadline's worker has ended. *)
Record View := mkView {
  v_alive : ElementarySupervision.t;
  v_deadline : ElementarySupervision.t;
  v_status : SupervisionStatus;
  v_callback : bool;
  v_offered : bool;
  v_main : MainPc;
  v_registered : nat;
  v_apc : GlobalSupervision.Pc;
  v_dpc : GlobalSupervision.Pc;
  v_log : list string;
  v_runs : bool;
  v_over : bool
}.

Definition view_of (x : Threads) : View :=
  let s := manager x in
  mkView (AliveSupervision.mBase (mAliveSupervision s)) (DeadlineSupervision.mBase (mDeadlineSupervision s))
    (GlobalSupervision.mStatus (mGlobalSupervision s)) (GlobalSupervision.mOnGlobalStatusChanged (mGlobalSupervision s))
    (LogRecoveryAction.mOffered (mRecoveryAction s)) (main x) (registered x) (alive_pc x) (deadline_pc x)
    (LogRecoveryAction.logged (mRecoveryAction s)) (AliveSupervision.mRunning (mAliveSupervision s))
    match DeadlineSupervision.mDeadlineThread (mDeadlineSupervision s) with DeadlineSupervision.Ended => true | _ => false end.

(** A thread's step in the callback: where it is then, the global status, and the update that it
    hands on, if it does. *)
Inductive advances (registered : bool) (a d : ElementarySupervision.t) :
    GlobalSupervision.Pc → SupervisionStatus → GlobalSupervision.Pc → SupervisionStatus → option GlobalSupervision.SupervisionUpdate → Prop :=
  | adv_notified st : advances registered a d GlobalSupervision.Notifying st
      (if registered then GlobalSupervision.Collecting 0 None else GlobalSupervision.Resting) st None
  | adv_first st : advances registered a d (GlobalSupervision.Collecting 0 None) st
      (GlobalSupervision.Collecting 1 (Some (GlobalSupervision.update_of a))) st None
  | adv_second u st : advances registered a d (GlobalSupervision.Collecting 1 (Some u)) st
      (GlobalSupervision.Comparing (GlobalSupervision.worse u d)) st None
  | adv_same u : advances registered a d (GlobalSupervision.Comparing u) (GlobalSupervision.status u)
      GlobalSupervision.Resting (GlobalSupervision.status u) None
  | adv_other u st : GlobalSupervision.status u ≠ st → advances registered a d (GlobalSupervision.Comparing u) st
      (GlobalSupervision.Writing u) st None
  | adv_written u st : advances registered a d (GlobalSupervision.Writing u) st
      (GlobalSupervision.Calling u) (GlobalSupervision.status u) None
  | adv_called u st : advances registered a d (GlobalSupervision.Calling u) st GlobalSupervision.Resting st (Some u).

Section Recovery.
Context (functionGroup : string).

(** What handing on an update adds to the log. *)
Definition logs (callback offered : bool) (c : option GlobalSupervision.SupervisionUpdate) : list string :=
  match c with
  | Some u => if callback && offered && bool_decide (GlobalSupervision.status u = kExpired)
              then match GlobalSupervision.type u with
                   | LogicalSupervision_ => []
                   | t => [text_of t functionGroup]
                   end
              else []
  | None => []
  end.

(** The steps, on what matters. *)
Inductive vstep : View → View → Prop :=
  | vs_stays v : vstep v v
  | vs_offers a d st cb off reg pa pd log runs over :
      vstep (mkView a d st cb off Configured reg pa pd log runs over) (mkView a d st cb true Offered reg pa pd log runs over)
  | vs_constructs a d st cb off reg pa pd log runs over :
      vstep (mkView a d st cb off Offered reg pa pd log runs over) (mkView a d st cb off (Reading 0 None) reg pa pd log runs over)
  | vs_reads_first a d st cb off reg pa pd log runs over :
      vstep (mkView a d st cb off (Reading 0 None) reg pa pd log runs over)
            (mkView a d st cb off (Reading 1 (Some (GlobalSupervision.update_of a))) reg pa pd log runs over)
  | vs_reads_second a d st cb off u reg pa pd log runs over :
      vstep (mkView a d st cb off (Reading 1 (Some u)) reg pa pd log runs over)
            (mkView a d (GlobalSupervision.status (GlobalSupervision.worse u d)) cb off (Registering 0) reg pa pd log runs over)
  | vs_registers a d st cb off n reg pa pd log runs over : (n < 2)%nat →
      vstep (mkView a d st cb off (Registering n) reg pa pd log runs over)
            (mkView a d st cb off (Registering (S n)) (S n) pa pd log runs over)
  | vs_constructed a d st cb off n reg pa pd log runs over : (2 <= n)%nat →
      vstep (mkView a d st cb off (Registering n) reg pa pd log runs over) (mkView a d st cb off Constructed reg pa pd log runs over)
  | vs_sets a d st cb off reg pa pd log runs over :
      vstep (mkView a d st cb off Constructed reg pa pd log runs over) (mkView a d st true off Running reg pa pd log runs over)
  | vs_cycle a e d st cb off m reg pd log runs over :
      ElementarySupervision.cSupervisionType e = ElementarySupervision.cSupervisionType a → (expired e → runs = false) →
      vstep (mkView a d st cb off m reg GlobalSupervision.Resting pd log true over)
            (mkView e d st cb off m reg (reported_pc a e) pd log runs over)
  | vs_verdict a d e st cb off m reg pa log runs :
      ElementarySupervision.cSupervisionType e = ElementarySupervision.cSupervisionType d →
      vstep (mkView a d st cb off m reg pa GlobalSupervision.Resting log runs false)
            (mkView a e st cb off m reg pa (reported_pc d e) log runs true)
  | vs_alive_calls a d st cb off m reg pa pd log runs over pa' st' c :
      advances (0 <? reg)%nat a d pa st pa' st' c →
      vstep (mkView a d st cb off m reg pa pd log runs over)
            (mkView a d st' cb off m reg pa' pd (log ++ logs cb off c) runs over)
  | vs_deadline_calls a d st cb off m reg pa pd log runs over pd' st' c :
      advances (1 <? reg)%nat a d pd st pd' st' c →
      vstep (mkView a d st cb off m reg pa pd log runs over)
            (mkView a d st' cb off m reg pa pd' (log ++ logs cb off c) runs over).

(** An update that says that a supervision has expired tells the truth. *)
Definition seen (a d : ElementarySupervision.t) (u : GlobalSupervision.SupervisionUpdate) : Prop :=
  GlobalSupervision.status u = kExpired →
  (GlobalSupervision.type u = AliveSupervision_ ∧ expired a) ∨ (GlobalSupervision.type u = DeadlineSupervision_ ∧ expired d).

(** A text names a supervision that has expired. *)
Definition names_expired (a d : ElementarySupervision.t) (text : string) : Prop :=
  (expired a ∧ text = text_of AliveSupervision_ functionGroup) ∨ (expired d ∧ text = text_of DeadlineSupervision_ functionGroup).

Definition shape (pc : GlobalSupervision.Pc) : Prop :=
  match pc with
  | GlobalSupervision.Collecting n r => (n = 0%nat ∧ r = None) ∨ (n = 1%nat ∧ ∃ u, r = Some u)
  | _ => True
  end.

(** What holds of the update that a thread has with it: collected so far, or decided. *)
Definition carries (P : GlobalSupervision.SupervisionUpdate → Prop) (pc : GlobalSupervision.Pc) : Prop :=
  match pc with
  | GlobalSupervision.Collecting _ (Some u) | GlobalSupervision.Comparing u | GlobalSupervision.Writing u
  | GlobalSupervision.Calling u => P u
  | _ => True
  end.
Definition decided (P : GlobalSupervision.SupervisionUpdate → Prop) (pc : GlobalSupervision.Pc) : Prop :=
  match pc with GlobalSupervision.Collecting _ _ => True | pc => carries P pc end.
Definition says_expired (u : GlobalSupervision.SupervisionUpdate) : Prop := GlobalSupervision.status u = kExpired.

(** Before the supervisions have their callbacks. *)
Definition early (v : View) : Prop :=
  v_registered v = 0%nat ∧ v_status v = kDeactivated ∧
  (v_apc v = GlobalSupervision.Resting ∨ v_apc v = GlobalSupervision.Notifying) ∧
  (v_dpc v = GlobalSupervision.Resting ∨ v_dpc v = GlobalSupervision.Notifying).

Definition phase (v : View) : Prop :=
  match v_main v with
  | Configured | Offered => early v
  | Reading n r => early v ∧ ((n = 0%nat ∧ r = None) ∨ (n = 1%nat ∧ ∃ u, r = Some u ∧ seen (v_alive v) (v_deadline v) u))
  | Registering n => v_registered v = n ∧ (n <= 2)%nat
  | Constructed => v_registered v = 2%nat
  | Running => v_registered v = 2%nat ∧ v_callback v = true
  end.

Definition some_expired (v : View) : Prop := expired (v_alive v) ∨ expired (v_deadline v).

Record sound (v : View) : Prop := {
  s_types : ElementarySupervision.cSupervisionType (v_alive v) = AliveSupervision_ ∧
            ElementarySupervision.cSupervisionType (v_deadline v) = DeadlineSupervision_;
  s_alive : expired (v_alive v) → v_runs v = false;
  s_over : v_dpc v ≠ GlobalSupervision.Resting ∨ expired (v_deadline v) → v_over v = true;
  s_shape : shape (v_apc v) ∧ shape (v_dpc v);
  s_phase : phase v;
  s_offered : v_main v ≠ Configured → v_offered v = true;
  s_callback : v_callback v = true → v_main v = Running;
  s_seen : carries (seen (v_alive v) (v_deadline v)) (v_apc v) ∧ carries (seen (v_alive v) (v_deadline v)) (v_dpc v);
  s_status : v_status v = kExpired → some_expired v;
  s_fresh : (expired (v_alive v) → carries says_expired (v_apc v)) ∧ (expired (v_deadline v) → decided says_expired (v_dpc v));
  s_calling : ∀ u, v_apc v = GlobalSupervision.Calling u → says_expired u →
    GlobalSupervision.type u = DeadlineSupervision_ → v_status v = kExpired;
  s_log : Forall (names_expired (v_alive v) (v_deadline v)) (v_log v)
}.

Lemma worse_seen a d u :
  ElementarySupervision.cSupervisionType d = DeadlineSupervision_ → seen a d u → seen a d (GlobalSupervision.worse u d).
Proof.
  intros Hd Hu. unfold GlobalSupervision.worse. destruct (_ <? _); [|done]. intros H. right. by split.
Qed.

Lemma worse_expired u d : says_expired u ∨ expired d → says_expired (GlobalSupervision.worse u d).
Proof. destruct u as [ty st], d as [ty' st']. unfold says_expired, expired, GlobalSupervision.worse. destruct st, st'; cbn; by intros [|]. Qed.

Lemma update_seen a d : ElementarySupervision.cSupervisionType a = AliveSupervision_ → seen a d (GlobalSupervision.update_of a).
Proof. intros Ha H. left. by split. Qed.

(** Expiry is for good, so what has been said of it stays true. *)
Definition lasting (a d a' d' : ElementarySupervision.t) : Prop := (expired a → expired a') ∧ (expired d → expired d').

Lemma carries_impl (P Q : GlobalSupervision.SupervisionUpdate → Prop) pc :
  (∀ u, P u → Q u) → carries P pc → carries Q pc.
Proof. intros H. destruct pc as [| |n [u|]|u|u|u]; cbn; auto. Qed.

Lemma seen_lasting a d a' d' u : lasting a d a' d' → seen a d u → seen a' d' u.
Proof. intros [Ha Hd] H Hu. destruct (H Hu) as [[? ?]|[? ?]]; [left|right]; auto. Qed.

Lemma names_lasting a d a' d' text : lasting a d a' d' → names_expired a d text → names_expired a' d' text.
Proof. intros [Ha Hd] [[? ?]|[? ?]]; [left|right]; auto. Qed.

(** What a step in the callback keeps. *)
Lemma advances_keeps reg a d pc st pc' st' c :
  advances reg a d pc st pc' st' c →
  ElementarySupervision.cSupervisionType a = AliveSupervision_ → ElementarySupervision.cSupervisionType d = DeadlineSupervision_ →
  shape pc' ∧ (carries (seen a d) pc → carries (seen a d) pc') ∧
  (expired a → carries says_expired pc → carries says_expired pc') ∧
  (expired d → decided says_expired pc → decided says_expired pc').
Proof.
  intros H Ha Hd. split; [destruct H; cbn; try done; [destruct reg; cbn; by auto|right; by eauto]|].
  destruct H; cbn.
  - by destruct reg.
  - split_and!; try done. intros _. by apply update_seen.
  - split_and!; [by apply worse_seen|..]; intros; apply worse_expired; auto.
  - done.
  - done.
  - done.
  - done.
Qed.

(** A supervision that reports is, for its own thread, a new beginning. *)
Lemma reported_cases a e : reported_pc a e = GlobalSupervision.Notifying ∨ (e = a ∧ reported_pc a e = GlobalSupervision.Resting).
Proof. unfold reported_pc. destruct (decide _); auto. Qed.

Lemma reported_carries P a e : carries P (reported_pc a e) ∧ decided P (reported_pc a e) ∧ shape (reported_pc a e).
Proof. by destruct (reported_cases a e) as [->|[_ ->]]. Qed.

Lemma logs_names cb off c a d :
  (∀ u, c = Some u → seen a d u) → Forall (names_expired a d) (logs cb off c).
Proof.
  intros H. unfold logs. destruct c as [u|]; [|constructor]. destruct (_ && _) eqn:E; [|constructor].
  apply andb_prop in E as [_ Hu]. apply bool_decide_eq_true in Hu.
  destruct (H u eq_refl Hu) as [[-> He]|[-> He]]; apply Forall_singleton; [left|right]; by split.
Qed.

Lemma advances_called reg a d pc st pc' st' c u :
  advances reg a d pc st pc' st' c → c = Some u → pc = GlobalSupervision.Calling u ∧ pc' = GlobalSupervision.Resting ∧ st' = st.
Proof. by intros [] [= ->]. Qed.

(** The status that a step in the callback leaves. *)
Lemma advances_status reg a d pc st pc' st' c :
  advances reg a d pc st pc' st' c → st' = st ∨ ∃ u, pc = GlobalSupervision.Writing u ∧ pc' = GlobalSupervision.Calling u ∧ st' = GlobalSupervision.status u.
Proof. intros []; auto. right. by eexists. Qed.

Lemma advances_calling reg a d pc st u st' c :
  advances reg a d pc st (GlobalSupervision.Calling u) st' c → pc = GlobalSupervision.Writing u ∧ st' = GlobalSupervision.status u.
Proof.
  intros H. inversion H; subst; try done.
  match goal with Hif : (if ?b then _ else _) = _ |- _ => by destruct b end.
Qed.

Lemma advances_early a d pc st pc' st' c :
  advances false a d pc st pc' st' c → pc = GlobalSupervision.Resting ∨ pc = GlobalSupervision.Notifying →
  st' = st ∧ pc' = GlobalSupervision.Resting.
Proof. intros [] [?|?]; done. Qed.

Ltac view := cbn [v_alive v_deadline v_status v_callback v_offered v_main v_registered v_apc v_dpc v_log v_runs v_over] in *.

(** Steps of Main. *)
Lemma main_sound v v' : vstep v v' → v_main v' ≠ v_main v → sound v → sound v'.
Proof.
  intros Hst Hne [Ht Ha Ho Hsh Hph Hof Hcb Hse Hex Hf Hca Hl].
  destruct Hst; unfold phase, early, some_expired in *; view; try done;
    (split; unfold phase, early, some_expired; view; try done;
     try (intros _; by apply Hof); try (intros Hc; by specialize (Hcb Hc))).
  - split; [done|]. by left.
  - destruct Hph as [Hph _]. split; [done|]. right. split; [done|]. eexists. split; [done|]. apply update_seen, Ht.
  - destruct Hph as [(-> & _) _]. split; [done|lia].
  - destruct Hph as [_ [[_ ?]|[_ (u' & [= <-] & Hu)]]]; [done|]. intros Hs.
    destruct (worse_seen _ _ _ (proj2 Ht) Hu Hs) as [[_ ?]|[_ ?]]; auto.
  - destruct Hph as [(_ & _ & [-> | ->] & _) _]; done.
  - destruct Hph as [-> Hn]. lia.
Qed.

(** A supervision's own step: it reports, or its thread goes on. *)
Lemma phase_reports v a d pa pd :
  phase v → lasting (v_alive v) (v_deadline v) a d →
  (pa = v_apc v ∨ pa = GlobalSupervision.Resting ∨ pa = GlobalSupervision.Notifying) →
  (pd = v_dpc v ∨ pd = GlobalSupervision.Resting ∨ pd = GlobalSupervision.Notifying) →
  ∀ log runs over, phase (mkView a d (v_status v) (v_callback v) (v_offered v) (v_main v) (v_registered v) pa pd log runs over).
Proof.
  intros Hph Hlast Hpa Hpd log runs over. unfold phase, early in *. destruct v as [a0 d0 st cb off m reg pa0 pd0 log0 runs0 over0]. view.
  assert (Hquiet : (reg = 0%nat ∧ st = kDeactivated ∧ (pa0 = GlobalSupervision.Resting ∨ pa0 = GlobalSupervision.Notifying) ∧
      (pd0 = GlobalSupervision.Resting ∨ pd0 = GlobalSupervision.Notifying)) →
    reg = 0%nat ∧ st = kDeactivated ∧ (pa = GlobalSupervision.Resting ∨ pa = GlobalSupervision.Notifying) ∧
      (pd = GlobalSupervision.Resting ∨ pd = GlobalSupervision.Notifying)).
  { intros (-> & -> & H1 & H2). split_and!; try done; [destruct Hpa as [->|?]|destruct Hpd as [->|?]]; done. }
  destruct m as [| |n r| | |]; try (by apply Hquiet); try done. destruct Hph as [Hq Hr]. split; [by apply Hquiet|].
  destruct Hr as [?|[-> (u & -> & Hu)]]; [by left|]. right. split; [done|]. exists u. split; [done|]. by apply (seen_lasting a0 d0).
Qed.

Lemma lasting_carries a d a' d' pc : lasting a d a' d' → carries (seen a d) pc → carries (seen a' d') pc.
Proof. intros H. apply carries_impl. intros u. by apply seen_lasting. Qed.

Lemma lasting_names a d a' d' log : lasting a d a' d' → Forall (names_expired a d) log → Forall (names_expired a' d') log.
Proof. intros H Hl. eapply Forall_impl; [exact Hl|]. intros t. by apply names_lasting. Qed.

Lemma report_sound v v' :
  vstep v v' → v_main v' = v_main v → (v_alive v' ≠ v_alive v ∨ v_deadline v' ≠ v_deadline v) → sound v → sound v'.
Proof.
  intros Hst _ Hne Hs. pose proof Hs as [Ht Ha Ho Hsh Hph Hof Hcb Hse Hex Hf Hca Hl].
  destruct Hst as [| | | | | | | |a e d st cb off m reg pd log runs over He Hr|a d e st cb off m reg pa log runs He| |];
    view; try (by destruct Hne).
  - assert (Hlast : lasting a d e d) by (split; [intros Hx; by specialize (Ha Hx)|done]).
    destruct (reported_carries (seen e d) a e) as (HP & _ & HS). destruct (reported_cases a e) as [Hc|[Hc _]]; [|by subst; destruct Hne].
    split; view; try done.
    + split; [|apply Ht]. rewrite He. apply Ht.
    + split; [exact HS|apply Hsh].
    + refine (phase_reports _ e d _ _ Hph Hlast _ _ _ _ _); view; rewrite ?Hc; auto.
    + split; [exact HP|]. eapply lasting_carries; [exact Hlast|apply Hse].
    + intros Hx. destruct (Hex Hx); [left; by apply Hlast|by right].
    + rewrite Hc. split; [done|apply Hf].
    + rewrite Hc. done.
    + by eapply lasting_names.
  - assert (Hlast : lasting a d a e) by (split; [done|]; intros Hx; by specialize (Ho (or_intror Hx))).
    destruct (reported_carries (seen a e) d e) as (HP & _ & HS). destruct (reported_cases d e) as [Hc|[Hc _]]; [|by subst; destruct Hne].
    split; view; try done.
    + split; [apply Ht|]. rewrite He. apply Ht.
    + split; [apply Hsh|exact HS].
    + refine (phase_reports _ a e _ _ Hph Hlast _ _ _ _ _); view; rewrite ?Hc; auto.
    + split; [|exact HP]. eapply lasting_carries; [exact Hlast|apply Hse].
    + intros Hx. destruct (Hex Hx); [by left|right; by apply Hlast].
    + rewrite Hc. split; [apply Hf|done].
    + by eapply lasting_names.
Qed.

(** A step of the alive supervision's thread in the callback. *)
Lemma alive_call_sound a d st cb off m reg pa pd log runs over pa' st' c :
  advances (0 <? reg)%nat a d pa st pa' st' c → sound (mkView a d st cb off m reg pa pd log runs over) →
  sound (mkView a d st' cb off m reg pa' pd (log ++ logs cb off c) runs over).
Proof.
  intros Hadv [[Hta Htd] Ha Ho [Hsa Hsd] Hph Hof Hcb [Hva Hvd] Hex [Hfa Hfd] Hca Hl]. view.
  destruct (advances_keeps _ _ _ _ _ _ _ _ Hadv Hta Htd) as (Hs & Hv & Hf & _).
  pose proof (advances_status _ _ _ _ _ _ _ _ Hadv) as Hst.
  assert (Hex' : st' = kExpired → expired a ∨ expired d).
  { destruct Hst as [->|(u & -> & _ & ->)]; [done|]. intros Hu. cbn in Hva. destruct (Hva Hu) as [[_ ?]|[_ ?]]; auto. }
  split; view; try done.
  - unfold phase, early in *. view. assert (Hearly : reg = 0%nat → (pa = GlobalSupervision.Resting ∨ pa = GlobalSupervision.Notifying) →
      st' = st ∧ pa' = GlobalSupervision.Resting).
    { intros -> Hq. exact (advances_early _ _ _ _ _ _ _ Hadv Hq). }
    destruct m as [| |n r| | |]; try done; [..|destruct Hph as [Hph Hr]; split; [|done]];
      destruct Hph as (-> & -> & H1 & H2); destruct (Hearly eq_refl H1) as [-> ->]; auto.
  - split; [by apply Hv|done].
  - split; [|done]. intros Hx. by apply Hf, Hfa.
  - intros u -> Hu Hty. destruct (advances_calling _ _ _ _ _ _ _ _ Hadv) as [_ ->]. exact Hu.
  - apply Forall_app. split; [done|]. apply logs_names. intros u Hc. destruct (advances_called _ _ _ _ _ _ _ _ u Hadv Hc) as (-> & _). exact Hva.
Qed.

(** And of the deadline's. *)
Lemma deadline_call_sound a d st cb off m reg pa pd log runs over pd' st' c :
  advances (1 <? reg)%nat a d pd st pd' st' c → sound (mkView a d st cb off m reg pa pd log runs over) →
  sound (mkView a d st' cb off m reg pa pd' (log ++ logs cb off c) runs over).
Proof.
  intros Hadv [[Hta Htd] Ha Ho [Hsa Hsd] Hph Hof Hcb [Hva Hvd] Hex [Hfa Hfd] Hca Hl]. view.
  destruct (advances_keeps _ _ _ _ _ _ _ _ Hadv Hta Htd) as (Hs & Hv & _ & Hf).
  pose proof (advances_status _ _ _ _ _ _ _ _ Hadv) as Hst.
  split; view; try done.
  - intros _. apply Ho. left. by intros ->; inversion Hadv.
  - unfold phase, early in *. view. assert (Hearly : reg = 0%nat → (pd = GlobalSupervision.Resting ∨ pd = GlobalSupervision.Notifying) →
      st' = st ∧ pd' = GlobalSupervision.Resting).
    { intros -> Hq. exact (advances_early _ _ _ _ _ _ _ Hadv Hq). }
    destruct m as [| |n r| | |]; try done; [..|destruct Hph as [Hph Hr]; split; [|done]];
      destruct Hph as (-> & -> & H1 & H2); destruct (Hearly eq_refl H2) as [-> ->]; auto.
  - split; [done|by apply Hv].
  - destruct Hst as [->|(u & -> & _ & ->)]; [done|]. intros Hu. cbn in Hvd. destruct (Hvd Hu) as [[_ ?]|[_ ?]]; [by left|by right].
  - split; [done|]. intros Hx. by apply Hf, Hfd.
  - intros u -> Hu Hty. destruct Hst as [->|(u' & -> & _ & ->)]; [by apply (Hca u)|].
    cbn in Hva. destruct (Hva Hu) as [[? _]|[_ Hx]]; [congruence|]. exact (Hfd Hx).
  - apply Forall_app. split; [done|]. apply logs_names. intros u Hc. destruct (advances_called _ _ _ _ _ _ _ _ u Hadv Hc) as (-> & _). exact Hvd.
Qed.

Lemma vstep_sound v v' : vstep v v' → sound v → sound v'.
Proof.
  intros Hst Hs. assert (Hm : v_main v' = v_main v ∨ v_main v' ≠ v_main v) by (destruct Hst; view; try (by left); right; try done; intros [=]; lia).
  destruct Hm as [Hm|Hm]; [|by apply (main_sound v)].
  destruct (decide (v_alive v' = v_alive v ∧ v_deadline v' = v_deadline v)) as [[Ha Hd]|Hne].
  2: { apply (report_sound v); [done|done| |done]. destruct (decide (v_alive v' = v_alive v)); [right|by left]. tauto. }
  destruct Hst; view; try done; try (by eapply alive_call_sound); try (by eapply deadline_call_sound).
  - injection Hm as Hm. lia.
  - subst e. destruct Hs as [Ht Halive Ho Hsh Hph Hof Hcb Hse Hex Hf Hca Hl]. unfold reported_pc. rewrite decide_True by done. by split.
  - subst e. destruct Hs as [Ht Halive Ho Hsh Hph Hof Hcb Hse Hex Hf Hca Hl]. unfold reported_pc. rewrite decide_True by done. by split.
Qed.

(** *** At most two texts *)

(** The alive supervision will log no more: it has expired, and its thread is done; or the
    deadline supervision has expired, the global status says so, and the thread is not about to
    change it. *)
Definition settled (pc : GlobalSupervision.Pc) : Prop :=
  match pc with
  | GlobalSupervision.Writing _ | GlobalSupervision.Calling _ => False
  | GlobalSupervision.Comparing u => says_expired u
  | _ => True
  end.
Definition alive_quiet (v : View) : Prop :=
  (expired (v_alive v) ∧ v_apc v = GlobalSupervision.Resting) ∨
  (expired (v_deadline v) ∧ v_status v = kExpired ∧ settled (v_apc v)).
Definition deadline_quiet (v : View) : Prop := v_over v = true ∧ v_dpc v = GlobalSupervision.Resting.

(** Each thread may still log one text, unless it has. *)
Definition counted (v : View) : Prop :=
  ∃ na nd : nat, (length (v_log v) + na + nd <= 2)%nat ∧ (na = 0%nat → alive_quiet v) ∧ (nd = 0%nat → deadline_quiet v).

Lemma logs_length cb off c :
  (length (logs cb off c) <= 1)%nat ∧ (logs cb off c ≠ [] → ∃ u, c = Some u ∧ says_expired u).
Proof.
  unfold logs. destruct c as [u|]; [|by split; [cbn; lia|]].
  destruct (cb && off && bool_decide (GlobalSupervision.status u = kExpired)) eqn:E; [|by split; [cbn; lia|]].
  apply andb_prop in E as [_ Hu]. apply bool_decide_eq_true in Hu.
  split; [destruct (GlobalSupervision.type u); cbn; lia|]. intros _. by exists u.
Qed.

(** Where a settled thread goes, the deadline supervision having expired. *)
Lemma settled_advances reg a d pc pc' st' c :
  advances reg a d pc kExpired pc' st' c → settled pc → expired d → settled pc' ∧ st' = kExpired.
Proof.
  intros H Hs Hd. inversion H; subst; cbn in *; try done.
  - by destruct reg.
  - split; [|done]. apply worse_expired. by right.
Qed.

Lemma counted_alive_calls a d st cb off m reg pa pd log runs over pa' st' c :
  advances (0 <? reg)%nat a d pa st pa' st' c → sound (mkView a d st cb off m reg pa pd log runs over) →
  counted (mkView a d st cb off m reg pa pd log runs over) →
  counted (mkView a d st' cb off m reg pa' pd (log ++ logs cb off c) runs over).
Proof.
  intros Hadv Hs (na & nd & Hn & Hna & Hnd). unfold alive_quiet, deadline_quiet in *. view.
  destruct (logs_length cb off c) as [Hlen Hlogs].
  destruct (decide (logs cb off c = [])) as [Hnil|Hsome].
  - exists na, nd. unfold alive_quiet, deadline_quiet. view. rewrite Hnil, app_nil_r. split_and!; [done| |done].
    intros Hz. destruct (Hna Hz) as [[_ ->]|(Hd & -> & Hset)]; [by inversion Hadv|]. right. split; [done|].
    destruct (settled_advances _ _ _ _ _ _ _ Hadv Hset Hd). by split.
  - destruct (Hlogs Hsome) as (u & -> & Hu). destruct (advances_called _ _ _ _ _ _ _ _ u Hadv eq_refl) as (-> & -> & ->).
    assert (na ≠ 0%nat) by (intros Hz; by destruct (Hna Hz) as [[_ ?]|(_ & _ & ?)]).
    exists (na - 1)%nat, nd. unfold alive_quiet, deadline_quiet. view. rewrite length_app. split_and!; [lia| |done]. intros _.
    destruct (s_seen _ Hs) as [Hseen _]. cbn in Hseen. destruct (Hseen Hu) as [[_ Ha]|[Hty Hd]]; [by left|]. right.
    split_and!; [done| |done]. by apply (s_calling _ Hs u).
Qed.

Lemma counted_deadline_calls a d st cb off m reg pa pd log runs over pd' st' c :
  advances (1 <? reg)%nat a d pd st pd' st' c → sound (mkView a d st cb off m reg pa pd log runs over) →
  counted (mkView a d st cb off m reg pa pd log runs over) →
  counted (mkView a d st' cb off m reg pa pd' (log ++ logs cb off c) runs over).
Proof.
  intros Hadv Hs (na & nd & Hn & Hna & Hnd). unfold alive_quiet, deadline_quiet in *. view.
  assert (Hpd : pd ≠ GlobalSupervision.Resting) by (intros ->; inversion Hadv).
  assert (nd ≠ 0%nat) by (intros Hz; by destruct (Hnd Hz)).
  assert (Hquiet : na = 0%nat → alive_quiet (mkView a d st' cb off m reg pa pd' (log ++ logs cb off c) runs over)).
  { unfold alive_quiet. view. intros Hz. destruct (Hna Hz) as [?|(Hd & -> & Hset)]; [by left|]. right. split_and!; [done| |done].
    destruct (advances_status _ _ _ _ _ _ _ _ Hadv) as [->|(u & -> & _ & ->)]; [done|]. exact (proj2 (s_fresh _ Hs) Hd). }
  destruct (logs_length cb off c) as [Hlen Hlogs]. destruct (decide (logs cb off c = [])) as [Hnil|Hsome].
  - exists na, nd. rewrite Hnil, app_nil_r in *. split_and!; [done|exact Hquiet|]. by intros ->.
  - destruct (Hlogs Hsome) as (u & -> & Hu). destruct (advances_called _ _ _ _ _ _ _ _ u Hadv eq_refl) as (-> & -> & ->).
    exists na, (nd - 1)%nat. view. rewrite length_app. split_and!; [lia|exact Hquiet|]. intros _. split; [|done].
    apply (s_over _ Hs). by left.
Qed.

Lemma vstep_counted v v' : vstep v v' → sound v → counted v → counted v'.
Proof.
  intros Hst Hs Hc. destruct Hst; try (by eapply counted_alive_calls); try (by eapply counted_deadline_calls); try done;
    destruct Hc as (na & nd & Hn & Hna & Hnd); exists na, nd; unfold alive_quiet, deadline_quiet in *; view;
    (split_and!; [done| |try done]).
  all: try (by intros Hz; exact (Hna Hz)).
  - intros Hz. destruct (Hna Hz) as [?|(_ & -> & _)]; [by left|]. pose proof (s_phase _ Hs) as Hph. by destruct Hph as [(_ & ? & _) _].
  - intros Hz. destruct (Hna Hz) as [[Ha _]|(Hd & -> & _)]; [by pose proof (s_alive _ Hs Ha)|]. right. split_and!; try done.
    unfold reported_pc. by destruct (decide _).
  - intros Hz. destruct (Hna Hz) as [?|(Hd & _)]; [by left|]. by pose proof (s_over _ Hs (or_intror Hd)).
  - intros Hz. by destruct (Hnd Hz).
Qed.

(** *** At least one text *)

(** A thread is about to hand on that a supervision has expired, or is on its way to finding out. *)
Definition pending (pc : GlobalSupervision.Pc) : Prop :=
  match pc with GlobalSupervision.Writing u | GlobalSupervision.Calling u => says_expired u | _ => False end.
Definition coming (pc : GlobalSupervision.Pc) : Prop :=
  match pc with
  | GlobalSupervision.Notifying | GlobalSupervision.Collecting _ _ | GlobalSupervision.Comparing _ => True
  | _ => False
  end.
Definition announced (v : View) : Prop := v_log v ≠ [] ∨ pending (v_apc v) ∨ pending (v_dpc v).

(** A manager that is set up lets no expiry pass. *)
Record attentive (v : View) : Prop := {
  at_running : v_main v = Running;
  at_status : v_status v = kExpired → announced v;
  at_alive : expired (v_alive v) → announced v ∨ coming (v_apc v);
  at_deadline : expired (v_deadline v) → announced v ∨ coming (v_dpc v)
}.

Lemma logs_expired cb off u a d :
  cb = true → off = true → seen a d u → says_expired u → logs cb off (Some u) ≠ [].
Proof.
  intros -> -> Hs Hu. unfold logs. cbn [andb]. rewrite bool_decide_eq_true_2 by done. by destruct (Hs Hu) as [[-> _]|[-> _]].
Qed.

(** A thread with its callback registered does not give up. *)
Lemma advances_on a d pc st pc' st' c :
  advances true a d pc st pc' st' c →
  (st' = kExpired → st = kExpired ∨ pending pc') ∧
  (pending pc → pending pc' ∨ ∃ u, c = Some u ∧ says_expired u) ∧
  (coming pc → decided says_expired pc → st = kExpired ∨ pending pc' ∨ coming pc').
Proof. intros []; unfold says_expired; cbn; split_and!; eauto; by intros []. Qed.

Lemma alive_calls_attentive a d st cb off m reg pa pd log runs over pa' st' c :
  advances (0 <? reg)%nat a d pa st pa' st' c →
  sound (mkView a d st cb off m reg pa pd log runs over) → attentive (mkView a d st cb off m reg pa pd log runs over) →
  attentive (mkView a d st' cb off m reg pa' pd (log ++ logs cb off c) runs over).
Proof.
  intros Hadv Hs [Hm Hst Ha Hd]. view. subst m.
  destruct (s_phase _ Hs) as [Hreg Hcb]. view. subst reg cb. pose proof (s_offered _ Hs ltac:(done)) as Hoff. view. subst off.
  destruct (s_seen _ Hs) as [Hseen _]. pose proof (proj1 (s_fresh _ Hs)) as Hfresh. view.
  change (0 <? 2)%nat with true in Hadv. destruct (advances_on _ _ _ _ _ _ _ Hadv) as (H1 & H2 & H3).
  unfold announced in *. view.
  assert (Hann : log ≠ [] ∨ pending pa ∨ pending pd → log ++ logs true true c ≠ [] ∨ pending pa' ∨ pending pd).
  { intros [Hl|[Hp|Hp]]; [left; by intros [? _]%app_eq_nil| |by auto]. destruct (H2 Hp) as [?|(u & -> & Hu)]; [by auto|].
    left. intros [_ Hnil]%app_eq_nil. destruct (advances_called _ _ _ _ _ _ _ _ u Hadv eq_refl) as (-> & _). cbn in Hseen.
    by eapply (logs_expired true true u a d). }
  split; unfold announced; view; [done|..].
  - intros Hx. destruct (H1 Hx); [by apply Hann, Hst|by auto].
  - intros Hx. destruct (Ha Hx) as [?|Hc]; [by left; apply Hann|].
    destruct (H3 Hc) as [Hy|[?|?]]; [|left; by apply Hann, Hst|by auto|by auto].
    specialize (Hfresh Hx). by destruct pa as [| |n [u|]|u|u|u].
  - intros Hx. destruct (Hd Hx) as [?|Hc]; [by left; apply Hann|by right].
Qed.

Lemma deadline_calls_attentive a d st cb off m reg pa pd log runs over pd' st' c :
  advances (1 <? reg)%nat a d pd st pd' st' c →
  sound (mkView a d st cb off m reg pa pd log runs over) → attentive (mkView a d st cb off m reg pa pd log runs over) →
  attentive (mkView a d st' cb off m reg pa pd' (log ++ logs cb off c) runs over).
Proof.
  intros Hadv Hs [Hm Hst Ha Hd]. view. subst m.
  destruct (s_phase _ Hs) as [Hreg Hcb]. view. subst reg cb. pose proof (s_offered _ Hs ltac:(done)) as Hoff. view. subst off.
  destruct (s_seen _ Hs) as [_ Hseen]. pose proof (proj2 (s_fresh _ Hs)) as Hfresh. view.
  change (1 <? 2)%nat with true in Hadv. destruct (advances_on _ _ _ _ _ _ _ Hadv) as (H1 & H2 & H3).
  unfold announced in *. view.
  assert (Hann : log ≠ [] ∨ pending pa ∨ pending pd → log ++ logs true true c ≠ [] ∨ pending pa ∨ pending pd').
  { intros [Hl|[Hp|Hp]]; [left; by intros [? _]%app_eq_nil|by auto|]. destruct (H2 Hp) as [?|(u & -> & Hu)]; [by auto|].
    left. intros [_ Hnil]%app_eq_nil. destruct (advances_called _ _ _ _ _ _ _ _ u Hadv eq_refl) as (-> & _). cbn in Hseen.
    by eapply (logs_expired true true u a d). }
  split; unfold announced; view; [done|..].
  - intros Hx. destruct (H1 Hx); [by apply Hann, Hst|by auto].
  - intros Hx. destruct (Ha Hx) as [?|Hc]; [by left; apply Hann|by right].
  - intros Hx. destruct (Hd Hx) as [?|Hc]; [by left; apply Hann|].
    destruct (H3 Hc (Hfresh Hx)) as [Hy|[?|?]]; [left; by apply Hann, Hst|by auto|by auto].
Qed.

Lemma vstep_attentive v v' : vstep v v' → sound v → attentive v → attentive v'.
Proof.
  intros Hst Hs Hat. destruct Hst; try (by eapply alive_calls_attentive); try (by eapply deadline_calls_attentive); try done;
    destruct Hat as [Hm Hx Ha Hd]; unfold announced in *; view; try done.
  - split; unfold announced; view; try done.
    + intros He. destruct (Hx He) as [?|[[]|?]]; auto.
    + intros He. destruct (reported_cases a e) as [->|[-> ->]]; [by right|]. by apply Ha.
    + intros He. destruct (Hd He) as [[?|[[]|?]]|?]; auto.
  - split; unfold announced; view; try done.
    + intros He. destruct (Hx He) as [?|[?|[]]]; auto.
    + intros He. destruct (Ha He) as [[?|[?|[]]]|?]; auto.
    + intros He. destruct (reported_cases d e) as [->|[-> ->]]; [by right|]. by apply Hd.
Qed.

(** *** Exactly one text, when the calls do not overlap *)

Definition calm (v : View) : Prop := v_apc v = GlobalSupervision.Resting ∨ v_dpc v = GlobalSupervision.Resting.

Record serial (v : View) : Prop := {
  se_one : (length (v_log v) <= 1)%nat;
  se_log : v_log v ≠ [] → v_status v = kExpired ∧ settled (v_apc v) ∧ settled (v_dpc v) ∧
    ∀ u, v_dpc v = GlobalSupervision.Collecting 1 (Some u) → expired (v_alive v) → says_expired u;
  se_alive : ∀ u, v_apc v = GlobalSupervision.Calling u → says_expired u → v_status v = kExpired;
  se_deadline : ∀ u, v_dpc v = GlobalSupervision.Calling u → says_expired u → v_status v = kExpired
}.

Lemma log_expired v : sound v → v_log v ≠ [] → some_expired v.
Proof.
  intros Hs Hl. pose proof (s_log _ Hs) as Hn. destruct (v_log v) as [|t l]; [done|].
  apply Forall_cons in Hn as [[[? _]|[? _]] _]; [by left|by right].
Qed.

(** Where a settled thread goes, what it has collected saying what there is to say. *)
Lemma settled_serial reg a d pc pc' st' c :
  advances reg a d pc kExpired pc' st' c → settled pc →
  (∀ u, pc = GlobalSupervision.Collecting 1 (Some u) → says_expired u ∨ expired d) → settled pc' ∧ st' = kExpired.
Proof.
  intros H Hs Hu. inversion H; subst; cbn in *; try done; [by destruct reg|]. split; [|done]. by apply worse_expired, Hu.
Qed.

(** A call that logs: nothing was logged before, and the status says what is logged. *)
Lemma serial_log cb off c pc log st :
  (log ≠ [] → settled pc) → (∀ u, c = Some u → pc = GlobalSupervision.Calling u) →
  (∀ u, pc = GlobalSupervision.Calling u → says_expired u → st = kExpired) → (length log <= 1)%nat →
  (length (log ++ logs cb off c) <= 1)%nat ∧ (log ++ logs cb off c ≠ [] → log ≠ [] ∨ st = kExpired ∧ c ≠ None).
Proof.
  intros Hset Hc Hst Hlen. destruct (logs_length cb off c) as [Hl Hlogs]. rewrite length_app.
  destruct (decide (logs cb off c = [])) as [->|Hne]; [rewrite app_nil_r; cbn; split; [lia|by left]|].
  destruct (Hlogs Hne) as (u & -> & Hu). destruct log as [|t log]; cbn in *; [split; [lia|]; right; split; [by apply (Hst u); [apply Hc|]|done]|].
  by rewrite (Hc u eq_refl) in Hset; specialize (Hset ltac:(done)).
Qed.

Lemma alive_calls_serial a d st cb off m reg pa pd log runs over pa' st' c :
  advances (0 <? reg)%nat a d pa st pa' st' c → calm (mkView a d st cb off m reg pa pd log runs over) →
  sound (mkView a d st cb off m reg pa pd log runs over) → serial (mkView a d st cb off m reg pa pd log runs over) →
  serial (mkView a d st' cb off m reg pa' pd (log ++ logs cb off c) runs over).
Proof.
  intros Hadv Hcalm Hs [Hone Hlog Ha Hd]. destruct Hcalm as [Hr|Hr]; view; [by subst; inversion Hadv|]. subst pd.
  destruct (serial_log cb off c pa log st) as [Hlen Hne];
    [intros H; by apply Hlog| |done|done|].
  { intros u Hc. by destruct (advances_called _ _ _ _ _ _ _ _ u Hadv Hc). }
  split; view; [done| |intros u -> Hu; by destruct (advances_calling _ _ _ _ _ _ _ _ Hadv) as [_ ->]|done].
  intros Hl. destruct (Hne Hl) as [H|[-> Hc]].
  - pose proof (log_expired _ Hs H) as Hx. destruct (Hlog H) as (-> & Hset & _). split_and!; try done;
      (destruct (settled_serial _ _ _ _ _ _ _ Hadv Hset) as [? ?]; [|done]);
      intros u ->; (destruct Hx as [Hx|Hx]; [left; exact (proj1 (s_fresh _ Hs) Hx)|by right]).
  - destruct c as [u|]; [|done]. destruct (advances_called _ _ _ _ _ _ _ _ u Hadv eq_refl) as (-> & -> & ->). done.
Qed.

Lemma deadline_calls_serial a d st cb off m reg pa pd log runs over pd' st' c :
  advances (1 <? reg)%nat a d pd st pd' st' c → calm (mkView a d st cb off m reg pa pd log runs over) →
  sound (mkView a d st cb off m reg pa pd log runs over) → serial (mkView a d st cb off m reg pa pd log runs over) →
  serial (mkView a d st' cb off m reg pa pd' (log ++ logs cb off c) runs over).
Proof.
  intros Hadv Hcalm Hs [Hone Hlog Ha Hd]. destruct Hcalm as [Hr|Hr]; view; [|by subst; inversion Hadv]. subst pa.
  destruct (serial_log cb off c pd log st) as [Hlen Hne];
    [intros H; by apply Hlog| |done|done|].
  { intros u Hc. by destruct (advances_called _ _ _ _ _ _ _ _ u Hadv Hc). }
  split; view; [done| |done|intros u -> Hu; by destruct (advances_calling _ _ _ _ _ _ _ _ Hadv) as [_ ->]].
  intros Hl. destruct (Hne Hl) as [H|[-> Hc]].
  - pose proof (log_expired _ Hs H) as Hx. destruct (Hlog H) as (-> & _ & Hset & Hcol).
    destruct (settled_serial _ _ _ _ _ _ _ Hadv Hset) as [Hset' Hst'].
    { intros u ->. destruct Hx as [Hx|Hx]; [left; by apply Hcol|by right]. }
    split_and!; try done. intros u -> Hxa. inversion Hadv; subst; try done.
    match goal with Hif : (if ?b then _ else _) = _ |- _ => by destruct b end.
  - destruct c as [u|]; [|done]. destruct (advances_called _ _ _ _ _ _ _ _ u Hadv eq_refl) as (-> & -> & ->). done.
Qed.

Lemma vstep_serial v v' : vstep v v' → calm v → calm v' → sound v → serial v → serial v'.
Proof.
  intros Hst Hcalm Hcalm' Hs Hse. destruct Hst; try (by eapply alive_calls_serial); try (by eapply deadline_calls_serial); try done;
    destruct Hse as [Hone Hlog Ha Hd]; unfold calm in *; view; split; view; try done.
  all: try (by destruct (reported_cases a e) as [->|[_ ->]]); try (by destruct (reported_cases d e) as [->|[_ ->]]).
  - intros Hl. destruct (Hlog Hl) as [-> _]. by destruct (s_phase _ Hs) as [(_ & ? & _) _].
  - intros u' ->. by destruct (s_phase _ Hs) as [(_ & _ & [?|?] & _) _].
  - intros u' ->. by destruct (s_phase _ Hs) as [(_ & _ & _ & [?|?]) _].
  - intros Hl. destruct (Hlog Hl) as (-> & _ & Hset & Hcol). destruct (reported_cases a e) as [Hc|[-> Hc]]; rewrite Hc; split_and!; try done.
    intros u ->. destruct Hcalm' as [Hx|Hx]; [by rewrite Hc in Hx|done].
  - intros Hl. destruct (Hlog Hl) as (-> & Hset & _). by destruct (reported_cases d e) as [->|[_ ->]].
Qed.

(** *** The manager takes these steps *)

(** The global supervision watches the two supervisions. *)
Definition watched (x : Threads) : Prop :=
  GlobalSupervision.mSupervisors (mGlobalSupervision (manager x)) =
    [AliveSupervision.mBase (mAliveSupervision (manager x)); DeadlineSupervision.mBase (mDeadlineSupervision (manager x))].

(** What a call of the manager does to its recovery action. *)
Definition recovers (callback : bool) (c : option GlobalSupervision.SupervisionUpdate) (r : LogRecoveryAction.t) : LogRecoveryAction.t :=
  match c with Some u => if callback then onGlobalStatusChanged functionGroup u r else r | None => r end.

Lemma recovers_logs cb c r :
  LogRecoveryAction.logged (recovers cb c r) = LogRecoveryAction.logged r ++ logs cb (LogRecoveryAction.mOffered r) c ∧
  LogRecoveryAction.mOffered (recovers cb c r) = LogRecoveryAction.mOffered r.
Proof.
  unfold recovers, logs. destruct c as [u|]; [|by rewrite app_nil_r]. destruct cb; [|by rewrite app_nil_r]. cbn [andb].
  unfold onGlobalStatusChanged, LogRecoveryAction.RecoveryHandler, LogRecoveryAction.IsOffered.
  destruct (bool_decide _); [|by rewrite andb_false_r, app_nil_r]. rewrite !andb_true_r.
  destruct (LogRecoveryAction.mOffered r) eqn:E; [|by rewrite app_nil_r]. by destruct (GlobalSupervision.type u); cbn; rewrite ?app_nil_r.
Qed.

Lemma callback_advances registered pc s a d :
  GlobalSupervision.mSupervisors (mGlobalSupervision s) = [a; d] → shape pc → pc ≠ GlobalSupervision.Resting →
  ∃ pc' g c,
    callback_step functionGroup registered pc s =
      Ok (pc', mk (mReportDelegates s) (mAliveSupervision s) (mDeadlineSupervision s) g
                 (recovers (GlobalSupervision.mOnGlobalStatusChanged (mGlobalSupervision s)) c (mRecoveryAction s))) ∧
    advances registered a d pc (GlobalSupervision.mStatus (mGlobalSupervision s)) pc' (GlobalSupervision.mStatus g) c ∧
    GlobalSupervision.mSupervisors g = [a; d] ∧
    GlobalSupervision.mOnGlobalStatusChanged g = GlobalSupervision.mOnGlobalStatusChanged (mGlobalSupervision s).
Proof.
  intros Hg Hsh Hne. unfold callback_step, GlobalSupervision.onElementaryStatusChanged. run.
  destruct pc as [| |n r|u|u|u]; [done|..].
  - exists (if registered then GlobalSupervision.Collecting 0 None else GlobalSupervision.Resting), (mGlobalSupervision s), None.
    split; [done|]. by split; [constructor|].
  - unfold GlobalSupervision.collect. destruct Hsh as [[-> ->]|[-> (u & ->)]]; rewrite Hg; eexists _, (mGlobalSupervision s), None;
      (split; [reflexivity|]); by split; [constructor|].
  - destruct (decide (GlobalSupervision.status u = GlobalSupervision.mStatus (mGlobalSupervision s))) as [Heq|Hneq];
      eexists _, (mGlobalSupervision s), None; (split; [reflexivity|]); (split; [|done]); [rewrite <- Heq|]; by constructor.
  - eexists _, _, None. split; [reflexivity|]. by split; [constructor|].
  - eexists _, _, (Some u). split; [reflexivity|]. by split; [constructor|].
Qed.

Lemma Report_expired st e : expired (fst (ElementarySupervision.Report st e)) → expired e ∨ st = kExpired.
Proof.
  unfold ElementarySupervision.Report, expired. destruct (decide _); [by left|].
  destruct st; cbn; auto; try done; destruct (decide _); cbn; auto; done.
Qed.

Lemma cycle_reports a :
  let a' := AliveSupervision.cycle a in
  ElementarySupervision.cSupervisionType (AliveSupervision.mBase a') = ElementarySupervision.cSupervisionType (AliveSupervision.mBase a) ∧
  (AliveSupervision.mRunning a = false → a' = a) ∧
  (AliveSupervision.mRunning a = true → ¬ expired (AliveSupervision.mBase a) → expired (AliveSupervision.mBase a') → AliveSupervision.mRunning a' = false).
Proof.
  cbv zeta. split; [apply cycle_later|]. unfold AliveSupervision.cycle, expired. destruct (AliveSupervision.mRunning a) eqn:Hr; [|by rewrite Hr].
  split; [done|]. intros _ Hne. repeat case_match; cbn; try done; intros He; by destruct (Report_expired _ _ He).
Qed.

Lemma main_step_view x :
  sound (view_of x) → watched x →
  ∃ x', main_step x = Ok x' ∧ vstep (view_of x) (view_of x') ∧ watched x' ∧
    mReportDelegates (manager x') = mReportDelegates (manager x) ∧ mDeadlineSupervision (manager x') = mDeadlineSupervision (manager x).
Proof.
  intros Hs Hw. pose proof (s_phase _ Hs) as Hph. destruct x as [[delegates a d g r] m reg pa pd]. unfold watched, phase, early in *.
  cbn [view_of v_main manager main registered mGlobalSupervision mAliveSupervision mDeadlineSupervision] in *.
  destruct m as [| |n result|n| |]; cbn [main_step manager main registered].
  - eexists. split; [reflexivity|]. split; [apply vs_offers|]. by split_and!.
  - eexists. split; [reflexivity|]. split; [apply vs_constructs|]. by split_and!.
  - unfold GlobalSupervision.collect. cbn [mGlobalSupervision]. destruct Hph as [_ [[-> ->]|[-> (u & -> & _)]]]; rewrite Hw; cbn [lookup list_lookup].
    + eexists. split; [reflexivity|]. split; [apply vs_reads_first|]. by split_and!.
    + eexists. split; [reflexivity|]. split; [apply vs_reads_second|]. by split_and!.
  - cbn [mGlobalSupervision]. rewrite Hw. change (length [AliveSupervision.mBase a; DeadlineSupervision.mBase d]) with 2%nat.
    destruct (n <? 2)%nat eqn:E; [apply Nat.ltb_lt in E|apply Nat.ltb_ge in E]; (eexists; split; [reflexivity|]).
    + split; [by apply vs_registers|]. by split_and!.
    + split; [by eapply vs_constructed|]. by split_and!.
  - eexists. split; [reflexivity|]. split; [apply vs_sets|]. by split_and!.
  - eexists. split; [reflexivity|]. split; [apply vs_stays|]. by split_and!.
Qed.

Lemma checkpoint_view now c s :
  let s' := onReportCheckpoint now c s in
  AliveSupervision.mBase (mAliveSupervision s') = AliveSupervision.mBase (mAliveSupervision s) ∧
  AliveSupervision.mRunning (mAliveSupervision s') = AliveSupervision.mRunning (mAliveSupervision s) ∧
  DeadlineSupervision.mBase (mDeadlineSupervision s') = DeadlineSupervision.mBase (mDeadlineSupervision s) ∧
  match DeadlineSupervision.mDeadlineThread (mDeadlineSupervision s') with DeadlineSupervision.Ended => true | _ => false end =
    match DeadlineSupervision.mDeadlineThread (mDeadlineSupervision s) with DeadlineSupervision.Ended => true | _ => false end ∧
  mGlobalSupervision s' = mGlobalSupervision s ∧ mRecoveryAction s' = mRecoveryAction s ∧ mReportDelegates s' = mReportDelegates s.
Proof.
  unfold onReportCheckpoint. cbv zeta. destruct (mReportDelegates s !! c) as [[]|]; cbn; try done.
  - unfold AliveSupervision.ReportAliveness. by destruct (_ <? _).
  - by destruct (DeadlineSupervision.mDeadlineThread (mDeadlineSupervision s)).
Qed.

Lemma pc_resting pc : pc = GlobalSupervision.Resting ∨ pc ≠ GlobalSupervision.Resting.
Proof. destruct pc; auto. Qed.

Lemma alive_step_calls x : alive_pc x ≠ GlobalSupervision.Resting →
  step functionGroup AliveStep x =
    '(pc, s) ← callback_step functionGroup (0 <? registered x)%nat (alive_pc x) (manager x);
    Ok (mkThreads s (main x) (registered x) pc (deadline_pc x)).
Proof. intros H. cbn [step]. by destruct (alive_pc x). Qed.

Lemma deadline_step_calls timeout now x : deadline_pc x ≠ GlobalSupervision.Resting →
  step functionGroup (DeadlineStep timeout now) x =
    '(pc, s) ← callback_step functionGroup (1 <? registered x)%nat (deadline_pc x) (manager x);
    Ok (mkThreads s (main x) (registered x) (alive_pc x) pc).
Proof. intros H. cbn [step]. by destruct (deadline_pc x). Qed.

Lemma alive_step_view x :
  sound (view_of x) → watched x →
  ∃ x', step functionGroup AliveStep x = Ok x' ∧ vstep (view_of x) (view_of x') ∧ watched x' ∧
    mReportDelegates (manager x') = mReportDelegates (manager x) ∧ mDeadlineSupervision (manager x') = mDeadlineSupervision (manager x).
Proof.
  intros Hs Hw. destruct (s_shape _ Hs) as [Hsh _]. pose proof (s_alive _ Hs) as Halive. destruct x as [[delegates a d g r] m reg pa pd].
  unfold watched, view_of in *.
  cbn [manager mGlobalSupervision mAliveSupervision mDeadlineSupervision mRecoveryAction main registered alive_pc deadline_pc] in *. view.
  destruct (pc_resting pa) as [->|Hne].
  - eexists. split; [reflexivity|]. cbn. destruct (cycle_reports a) as (Hty & Hoff & Hexp). split; [|by rewrite Hw].
    destruct (AliveSupervision.mRunning a) eqn:Hr.
    + apply vs_cycle; [done|]. intros He. apply Hexp; [done| |done]. intros Hx. by specialize (Halive Hx).
    + rewrite (Hoff eq_refl). unfold reported_pc. rewrite decide_True by done. rewrite Hr. destruct g as [es st cb us]. cbn in *. subst es. apply vs_stays.
  - destruct (callback_advances (0 <? reg)%nat pa (mk delegates a d g r) _ _ Hw Hsh Hne) as (pc' & g' & c & Hcall & Hadv & Hg' & Hcb).
    cbn [mReportDelegates mAliveSupervision mDeadlineSupervision mGlobalSupervision mRecoveryAction] in *.
    destruct (recovers_logs (GlobalSupervision.mOnGlobalStatusChanged g) c r) as [Hlog Hof].
    eexists. split; [rewrite alive_step_calls by done; cbn [alive_pc manager registered]; rewrite Hcall; reflexivity|]. cbn -[recovers]. rewrite Hcb, Hlog, Hof.
    split; [by apply vs_alive_calls|done].
Qed.

Lemma deadline_step_view timeout now x :
  sound (view_of x) → watched x →
  ∃ x', step functionGroup (DeadlineStep timeout now) x = Ok x' ∧ vstep (view_of x) (view_of x') ∧ watched x' ∧
    mReportDelegates (manager x') = mReportDelegates (manager x) ∧
    (DeadlineSupervision.mDeadlineThread (mDeadlineSupervision (manager x)) = DeadlineSupervision.NotStarted →
     mDeadlineSupervision (manager x') = mDeadlineSupervision (manager x)).
Proof.
  intros Hs Hw. destruct (s_shape _ Hs) as [_ Hsh]. destruct x as [[delegates a d g r] m reg pa pd].
  unfold watched, view_of in *.
  cbn [manager mGlobalSupervision mAliveSupervision mDeadlineSupervision mRecoveryAction main registered alive_pc deadline_pc] in *. view.
  destruct (pc_resting pd) as [->|Hne].
  - eexists. split; [reflexivity|]. cbn. destruct (deadlineWorker_later timeout now d) as [Hty _].
    assert (Hth : DeadlineSupervision.mDeadlineThread d ≠ DeadlineSupervision.Waiting → DeadlineSupervision.deadlineWorker timeout now d = d)
      by (unfold DeadlineSupervision.deadlineWorker; by destruct (DeadlineSupervision.mDeadlineThread d)).
    assert (Hend : DeadlineSupervision.mDeadlineThread d = DeadlineSupervision.Waiting →
      DeadlineSupervision.mDeadlineThread (DeadlineSupervision.deadlineWorker timeout now d) = DeadlineSupervision.Ended).
    { intros Hx. unfold DeadlineSupervision.deadlineWorker. rewrite Hx. by destruct (_ || _); [|destruct (_ <? _)]. }
    split; [|split; [by rewrite Hw|split; [done|intros Hx; apply Hth; by rewrite Hx]]].
    assert (DeadlineSupervision.mDeadlineThread d = DeadlineSupervision.Waiting ∨ DeadlineSupervision.mDeadlineThread d ≠ DeadlineSupervision.Waiting)
      as [Hx|Hx] by (destruct (DeadlineSupervision.mDeadlineThread d); auto).
    + rewrite (Hend Hx), Hx. by apply vs_verdict.
    + rewrite (Hth Hx). unfold reported_pc. rewrite decide_True by done. destruct g as [es st cb us]. cbn in *. subst es. apply vs_stays.
  - destruct (callback_advances (1 <? reg)%nat pd (mk delegates a d g r) _ _ Hw Hsh Hne) as (pc' & g' & c & Hcall & Hadv & Hg' & Hcb).
    cbn [mReportDelegates mAliveSupervision mDeadlineSupervision mGlobalSupervision mRecoveryAction] in *.
    destruct (recovers_logs (GlobalSupervision.mOnGlobalStatusChanged g) c r) as [Hlog Hof].
    eexists. split; [rewrite deadline_step_calls by done; cbn [deadline_pc manager registered]; rewrite Hcall; reflexivity|]. cbn -[recovers]. rewrite Hcb, Hlog, Hof.
    split; [by apply vs_deadline_calls|done].
Qed.

(** Every event is such a step, and none is undefined. *)
Lemma step_view ev x :
  sound (view_of x) → watched x →
  ∃ x', step functionGroup ev x = Ok x' ∧ vstep (view_of x) (view_of x') ∧ watched x' ∧
    mReportDelegates (manager x') = mReportDelegates (manager x).
Proof.
  intros Hs Hw. destruct ev as [|now c| |timeout now].
  - destruct (main_step_view x Hs Hw) as (x' & H & Hv & Hw' & Hd & _). by exists x'.
  - eexists. split; [reflexivity|]. destruct (checkpoint_view now c (manager x)) as (H1 & H2 & H3 & H4 & H5 & H6 & H7).
    unfold watched, view_of in *. cbn [manager main registered alive_pc deadline_pc]. rewrite H1, H2, H3, H4, H5, H6, H7.
    split; [apply vs_stays|done].
  - destruct (alive_step_view x Hs Hw) as (x' & H & Hv & Hw' & Hd & _). by exists x'.
  - destruct (deadline_step_view timeout now x Hs Hw) as (x' & H & Hv & Hw' & Hd & _). by exists x'.
Qed.

Lemma vstep_log v v' : vstep v v' → v_log v `prefix_of` v_log v'.
Proof. intros []; view; try done; by apply prefix_app_r. Qed.

(** A manager that is at work, as far as its recovery goes. *)
Record manages (x : Threads) : Prop := {
  m_sound : sound (view_of x);
  m_watched : watched x;
  m_counted : counted (view_of x)
}.

Lemma run_manages evs x :
  manages x →
  ∃ x', run functionGroup evs x = Ok x' ∧ manages x' ∧ v_log (view_of x) `prefix_of` v_log (view_of x') ∧
    mReportDelegates (manager x') = mReportDelegates (manager x) ∧ (attentive (view_of x) → attentive (view_of x')).
Proof.
  revert x. induction evs as [|ev evs IH]; intros x [Hs Hw Hc]; [by exists x|].
  destruct (step_view ev x Hs Hw) as (x1 & H1 & Hv & Hw1 & Hd1).
  destruct (IH x1) as (x' & H' & Hm & Hlog & Hd & Hat); [split; [by eapply vstep_sound|done|by eapply vstep_counted]|].
  exists x'. cbn [run]. rewrite H1, Ok_bind. split; [done|]. split; [done|].
  split; [transitivity (v_log (view_of x1)); [by apply vstep_log|done]|]. split; [congruence|].
  intros Ha. apply Hat. by eapply vstep_attentive.
Qed.

(** Runs in which the two supervisions are never both in the callback. *)
Definition calm_threads (x : Threads) : Prop :=
  alive_pc x = GlobalSupervision.Resting ∨ deadline_pc x = GlobalSupervision.Resting.

Fixpoint separate (evs : list event) (x : Threads) : Prop :=
  calm_threads x ∧
  match evs with
  | [] => True
  | ev :: evs => match step functionGroup ev x with Ok x => separate evs x | _ => True end
  end.

Lemma run_serial evs x x' :
  manages x → separate evs x → serial (view_of x) → run functionGroup evs x = Ok x' → serial (view_of x').
Proof.
  revert x. induction evs as [|ev evs IH]; intros x [Hs Hw Hc] Hsep Hser Hrun; [by injection Hrun as <-|].
  destruct (step_view ev x Hs Hw) as (x1 & H1 & Hv & Hw1 & _). destruct Hsep as [Hcalm Hsep]. cbn [run] in Hrun.
  rewrite H1 in Hsep, Hrun. rewrite Ok_bind in Hrun. assert (Hcalm' : calm (view_of x1)) by by destruct evs as [|? ?]; destruct Hsep.
  eapply (IH x1); [|done| |done].
  - split; [by eapply vstep_sound|done|by eapply vstep_counted].
  - by eapply vstep_serial.
Qed.

(** Where nothing has expired, nothing was logged. *)
Lemma nothing_expired x :
  manages x → main x = Running → ¬ some_expired (view_of x) → attentive (view_of x) ∧ serial (view_of x).
Proof.
  intros [Hs _ _] Hm Hno. assert (Hlog : v_log (view_of x) = []).
  { destruct (v_log (view_of x)) eqn:E; [done|]. exfalso. apply Hno, (log_expired _ Hs). by rewrite E. }
  unfold some_expired in Hno. pose proof (s_seen _ Hs) as [Hva Hvd]. split; split; try done.
  - intros Hx. exfalso. by apply Hno, (s_status _ Hs).
  - intros Hx. exfalso. by apply Hno; left.
  - intros Hx. exfalso. by apply Hno; right.
  - rewrite Hlog. cbn. lia.
  - intros u Hu Hx. exfalso. rewrite Hu in Hva. apply Hno. destruct (Hva Hx) as [[_ ?]|[_ ?]]; auto.
  - intros u Hu Hx. exfalso. rewrite Hu in Hvd. apply Hno. destruct (Hvd Hx) as [[_ ?]|[_ ?]]; auto.
Qed.

Lemma attentive_rest v :
  attentive v → v_apc v = GlobalSupervision.Resting → v_dpc v = GlobalSupervision.Resting → some_expired v → v_log v ≠ [].
Proof.
  intros [_ _ Ha Hd] Hra Hrd Hex. unfold announced in *. rewrite Hra, Hrd in *.
  destruct Hex as [Hx|Hx]; [destruct (Ha Hx) as [[?|[[]|[]]]|[]]|destruct (Hd Hx) as [[?|[[]|[]]]|[]]]; done.
Qed.

End Recovery.

(** A reference that is there and names a checkpoint. *)
Definition names (reference : option string) (checkpoints : gset Z) (id : Z) : Prop :=
  ∃ text n, reference = Some text ∧ stoul text = Ok n ∧ id = u32 n ∧ id ∈ checkpoints.

(** [std::map::insert] keeps what is there. *)
Definition kept (id : Z) (delegate : Delegate) (m : gmap Z Delegate) : gmap Z Delegate :=
  match m !! id with Some _ => m | None => <[id := delegate]> m end.

Lemma lookup_kept id delegate m c :
  kept id delegate m !! c =
    match m !! c with Some x => Some x | None => if bool_decide (c = id) then Some delegate else None end.
Proof.
  unfold kept. case_bool_decide; [subst c|].
  - destruct (m !! id) as [x|] eqn:E; [by rewrite E|apply lookup_insert_eq].
  - destruct (m !! id) eqn:E; [|rewrite lookup_insert_ne by done]; by destruct (m !! c).
Qed.

Lemma addReference_spec reference checkpoints delegate m m' :
  addReference reference checkpoints delegate m = (Ok (), m') →
  ∃ id, names reference checkpoints id ∧
    m' = kept id delegate m.
Proof.
  unfold addReference, tryAddReportDelegate. destruct reference as [text|]; [|done]. run.
  destruct (stoul text) as [n| | |] eqn:E; try done. destruct (bool_decide _) eqn:Hin; [|done].
  intros [= <-]. apply bool_decide_eq_true in Hin. exists (u32 n). split; [|done]. exists text, n. by split_and!.
Qed.

(** At the start nothing has expired. *)
Lemma start_manages functionGroup s :
  AliveSupervision.mBase (mAliveSupervision s) = ElementarySupervision.construct AliveSupervision_ →
  DeadlineSupervision.mDeadlineThread (mDeadlineSupervision s) = DeadlineSupervision.NotStarted ∧
    DeadlineSupervision.mBase (mDeadlineSupervision s) = ElementarySupervision.construct DeadlineSupervision_ →
  mGlobalSupervision s = GlobalSupervision.mk [AliveSupervision.mBase (mAliveSupervision s); DeadlineSupervision.mBase (mDeadlineSupervision s)]
    kDeactivated false [] →
  mRecoveryAction s = LogRecoveryAction.construct →
  manages functionGroup (start s).
Proof.
  intros Ha [Ht Hd] Hg Hr. split.
  - split; unfold phase, early, some_expired, expired, view_of; cbn; rewrite ?Ha, ?Hd, ?Hg, ?Hr, ?Ht; cbn; try done; auto.
    by intros [?|?].
  - unfold watched. cbn. by rewrite Hg.
  - exists 1%nat, 1%nat. cbn. by rewrite Hr.
Qed.

(** What a manager whose supervisions are configured looks like. *)
Lemma configured_spec cfg reached s functionGroup :
  configured cfg reached = Ok s →
  ∃ alive source target,
    let ids := fillCheckpoints (checkpoint_ids cfg) in
    (names (alive_ref cfg) ids alive ∧ names (source_ref cfg) ids source ∧ names (target_ref cfg) ids target) ∧
    (∀ c, mReportDelegates s !! c =
       if bool_decide (c = alive) then Some ReportAliveness
       else if bool_decide (c = source) then Some ReportSourceCheckpoint
       else if bool_decide (c = target) then Some ReportTargetCheckpoint else None) ∧
    manages functionGroup (start s) ∧
    DeadlineSupervision.mDeadlineThread (mDeadlineSupervision s) = DeadlineSupervision.NotStarted ∧
    DeadlineSupervision.mBase (mDeadlineSupervision s) = ElementarySupervision.construct DeadlineSupervision_.
Proof.
  unfold configured, configureAliveSupervision, configureDeadlineSupervision. set (ids := fillCheckpoints _). run.
  destruct (AliveSupervision.construct _ _ _ _ _) as [a| | |] eqn:Ea; try done.
  destruct (addReference (alive_ref cfg) _ _ _) as [[[]| | |] m1] eqn:E1; try done.
  destruct (DeadlineSupervision.construct _ _ _) as [d| | |] eqn:Ed; try done.
  destruct (addReference (source_ref cfg) _ _ _) as [[[]| | |] m2] eqn:E2; try done.
  destruct (addReference (target_ref cfg) _ _ _) as [[[]| | |] m3] eqn:E3; try done.
  apply addReference_spec in E1 as (alive & Hn1 & Hm1). apply addReference_spec in E2 as (source & Hn2 & Hm2).
  apply addReference_spec in E3 as (target & Hn3 & Hm3).
  assert (Ha : AliveSupervision.mBase a = ElementarySupervision.construct AliveSupervision_).
  { unfold AliveSupervision.construct in Ea. repeat (case_match; try done). by injection Ea as <-. }
  assert (Hd : DeadlineSupervision.mDeadlineThread d = DeadlineSupervision.NotStarted ∧
    DeadlineSupervision.mBase d = ElementarySupervision.construct DeadlineSupervision_).
  { unfold DeadlineSupervision.construct in Ed. repeat (case_match; try done). by injection Ed as <-. }
  cbn. intros [= <-]. exists alive, source, target. split; [done|]. split; [|split; [|exact Hd]].
  - intros c. cbn. rewrite Hm3, lookup_kept, Hm2, lookup_kept, Hm1, lookup_kept, lookup_empty. by repeat case_bool_decide.
  - by apply start_manages.
Qed.

Lemma names_unique reference checkpoints id id' :
  names reference checkpoints id → names reference checkpoints id' → id = id'.
Proof. intros (text & n & -> & Hn & -> & _) (text' & n' & [= <-] & Hn' & -> & _). congruence. Qed.

(** Undisturbed by other threads, Main comes to what [setup] says. *)
Lemma setup_undisturbed cfg reached functionGroup :
  setup cfg reached = s ← configured cfg reached; x ← run functionGroup (replicate 8 MainStep) (start s); Ok (manager x).
Proof.
  unfold setup, configured. set (both := _ ≫= _ : M (gmap Z Delegate) (AliveSupervision.t * DeadlineSupervision.t)).
  by destruct (both ∅) as [[[a d]| | |] delegates].
Qed.

(** Without a delegate for its source checkpoint the deadline supervision never starts. *)
Definition unsupervised (s : t) : Prop :=
  (∀ c, mReportDelegates s !! c ≠ Some ReportSourceCheckpoint) ∧
  DeadlineSupervision.mDeadlineThread (mDeadlineSupervision s) = DeadlineSupervision.NotStarted ∧
  ElementarySupervision.mStatus (DeadlineSupervision.mBase (mDeadlineSupervision s)) = kDeactivated.

Lemma step_unsupervised functionGroup ev x x' :
  manages functionGroup x → step functionGroup ev x = Ok x' → unsupervised (manager x) → unsupervised (manager x').
Proof.
  intros [Hs Hw _] Hst (Hc & Ht & Hb). unfold unsupervised. destruct ev as [|now c| |timeout now].
  - destruct (main_step_view functionGroup x Hs Hw) as (x1 & H1 & _ & _ & Hd1 & Hd2). cbn [step] in Hst. rewrite H1 in Hst. injection Hst as <-. by rewrite Hd1, Hd2.
  - injection Hst as <-. cbn [manager]. unfold onReportCheckpoint. specialize (Hc c) as Hc'. destruct (mReportDelegates _ !! c) as [[]|]; done.
  - destruct (alive_step_view functionGroup x Hs Hw) as (x1 & H1 & _ & _ & Hd1 & Hd2). rewrite H1 in Hst. injection Hst as <-. by rewrite Hd1, Hd2.
  - destruct (deadline_step_view functionGroup timeout now x Hs Hw) as (x1 & H1 & _ & _ & Hd1 & Hd2). rewrite H1 in Hst. injection Hst as <-.
    by rewrite Hd1, (Hd2 Ht).
Qed.

Lemma run_unsupervised functionGroup evs x x' :
  manages functionGroup x → run functionGroup evs x = Ok x' → unsupervised (manager x) → unsupervised (manager x').
Proof.
  revert x. induction evs as [|ev evs IH]; intros x Hm Hrun Hu; [by injection Hrun as <-|].
  destruct (run_manages functionGroup [ev] x Hm) as (x1 & H1 & Hm1 & _). cbn [run] in H1, Hrun.
  destruct (step functionGroup ev x) as [y| | |] eqn:Hst; try done. rewrite Ok_bind in *. injection H1 as ->.
  eapply (IH x1); [done|done|]. exact (step_unsupervised _ _ _ _ Hm Hst Hu).
Qed.

End Manager.

(** ** Properties *)

(** C20: checkpoints arrive.  A process reports checkpoints, its poller writes them to the
    pipe, and both its own communicator, which reads the pipe as every communicator does, and
    the health manager's read there, in any order of these steps.  What the manager's reads
    bring is every checkpoint whose message it reads, in order and as it is; one is lost
    without a word when the send queue refuses it, because another thread holds its lock, or
    when the reporting process takes its message out of the pipe itself; and at most the one
    that the manager reads next behind lost ones is ignored with them.  Nothing else is lost:
    each accepted report is read once or is still in the pipe or the queue; so that when none
    is refused, the manager alone reads and nothing is on its way, it has heard them all. *)
Theorem checkpoints_arrive uninit evs (s r : FifoCheckpointCommunicator.t) :
  Forall (fun '(checkpoint, _) => is_u32 checkpoint) (reports_of evs) →
  Profile11.valid (FifoCheckpointCommunicator.mProfile11 s) → FifoCheckpointCommunicator.mSendQueue s = [] →
  FifoCheckpointCommunicator.Callback r = true →
  Profile11.mProtectingCounter (FifoCheckpointCommunicator.mProfile11 s) =
    Profile11.mCheckingCounter (FifoCheckpointCommunicator.mProfile11 r) →
  ∃ x gap,
    CheckpointPipe.run uninit evs (CheckpointPipe.mk s r [] []) = Ok x ∧
    Heard false (fates (reports_of evs) (readers x)) (heard_by_manager x) gap ∧
    (length (readers x) + length (CheckpointPipe.pipe x ++ FifoCheckpointCommunicator.mSendQueue (CheckpointPipe.reporter x)) =
       accepted (reports_of evs))%nat ∧
    (Forall (fun '(_, locked) => locked = false) (reports_of evs) → Forall (eq CheckpointPipe.Manager) (readers x) →
     CheckpointPipe.pipe x = [] → FifoCheckpointCommunicator.mSendQueue (CheckpointPipe.reporter x) = [] →
     heard_by_manager x = map (fun '(c, _) => Some c) (reports_of evs)).
Proof.
  intros Hu Hv Hq Hcb Hsync.
  destruct (run_in_step uninit (Profile11.mProtectingCounter (FifoCheckpointCommunicator.mProfile11 s)) evs []
    (CheckpointPipe.mk s r [] [])) as (x & Hrun & [_ _ _ (past & rest & gap & Hsplit & Hms & Hacc & Hh & _)]).
  { eapply Forall_impl; [exact Hu|]. by intros [c l]. } { apply Hv. }
  { split; try done. exists [], [], false. split_and!; cbn; rewrite ?Hq; try done. constructor. }
  cbn [app] in Hsplit. destruct (fates_app past rest (readers x) [] (eq_sym Hacc)) as [Hf Hall].
  rewrite app_nil_r, <- Hsplit in Hf. destruct (Heard_pending gap rest) as [gap' Hp].
  pose proof (Heard_app _ _ _ _ _ _ _ Hh Hp Hall) as Hheard. rewrite <- Hf, app_nil_r in Hheard.
  assert (Hcount : (length (readers x) + length (CheckpointPipe.pipe x ++ FifoCheckpointCommunicator.mSendQueue (CheckpointPipe.reporter x)) =
    accepted (reports_of evs))%nat) by by rewrite Hsplit, accepted_app, Hacc, <- Hms, messages_count.
  exists x, gap'. split_and!; [exact Hrun|exact Hheard|exact Hcount|].
  intros Hun Hmine Hpe Hqe. rewrite Hpe, Hqe, Nat.add_0_r in Hcount.
  assert (Hun' : Forall (fun r => r.2 = false) (reports_of evs)) by (eapply Forall_impl; [exact Hun|]; by intros [c l]).
  rewrite (fates_all_got _ _ Hun' Hmine Hcount) in Hheard. rewrite (Heard_all _ _ _ _ Hheard eq_refl).
  - rewrite map_map. apply map_ext. by intros [c l].
  - apply Forall_fmap, Forall_true. by intros [c l].
Qed.

(** One refused checkpoint is a gap that the counter shows; with fourteen lost, thirteen of
    them refused and one read by the reporting process, the counter has come round, and the
    checkpoint behind them is taken for a repetition. *)
Definition demo_run : list CheckpointPipe.event :=
  [CheckpointPipe.Report 1 false; CheckpointPipe.Report 2 true; CheckpointPipe.Write; CheckpointPipe.Read CheckpointPipe.Manager;
   CheckpointPipe.Report 3 false; CheckpointPipe.Write; CheckpointPipe.Read CheckpointPipe.Manager] ++
  repeat (CheckpointPipe.Report 2 true) 13 ++
  [CheckpointPipe.Report 4 false; CheckpointPipe.Write; CheckpointPipe.Read CheckpointPipe.Reporter; CheckpointPipe.Report 5 false;
   CheckpointPipe.Report 4294967295 false; CheckpointPipe.Write; CheckpointPipe.Read CheckpointPipe.Manager;
   CheckpointPipe.Read CheckpointPipe.Manager; CheckpointPipe.Report 6 false].

Lemma checkpoints_arrive_witness :
  ∃ x gap,
    CheckpointPipe.run [] demo_run (CheckpointPipe.mk FifoCheckpointCommunicator.construct
      (FifoCheckpointCommunicator.SetCallback FifoCheckpointCommunicator.construct) [] []) = Ok x ∧
    heard_by_manager x = [Some 1; Some 3; None; Some 4294967295] ∧
    Heard false (fates (reports_of demo_run) (readers x)) (heard_by_manager x) gap.
Proof.
  destruct (checkpoints_arrive [] demo_run FifoCheckpointCommunicator.construct
    (FifoCheckpointCommunicator.SetCallback FifoCheckpointCommunicator.construct)) as (x & gap & Hrun & Hh & _).
  - repeat constructor; cbn; lia.
  - by split.
  - done.
  - done.
  - done.
  - exists x, gap. split; [exact Hrun|]. split; [|exact Hh]. vm_compute in Hrun. injection Hrun as <-. reflexivity.
Defined.

(** Checkpoints go to the supervision that referred to them first: a manager whose
    supervisions are configured reports the alive reference's checkpoint to the alive
    supervision, the source's and the target's to the deadline supervision unless an earlier
    reference names the same checkpoint, and any other to none; so, against the intent that one
    checkpoint serves both supervisions, a deadline supervision whose source is the alive
    checkpoint is never started and stays deactivated, whatever happens. *)
Theorem first_registration_wins cfg reached s functionGroup evs alive source target :
  PlatformHealthManagement.configured cfg reached = Ok s →
  let ids := PlatformHealthManagement.fillCheckpoints (PlatformHealthManagement.checkpoint_ids cfg) in
  names (PlatformHealthManagement.alive_ref cfg) ids alive →
  names (PlatformHealthManagement.source_ref cfg) ids source →
  names (PlatformHealthManagement.target_ref cfg) ids target →
  ∃ x, PlatformHealthManagement.run functionGroup evs (PlatformHealthManagement.start s) = Ok x ∧
    let s' := PlatformHealthManagement.manager x in
    (∀ c, PlatformHealthManagement.mReportDelegates s' !! c =
       if bool_decide (c = alive) then Some PlatformHealthManagement.ReportAliveness
       else if bool_decide (c = source) then Some PlatformHealthManagement.ReportSourceCheckpoint
       else if bool_decide (c = target) then Some PlatformHealthManagement.ReportTargetCheckpoint else None) ∧
    (source = alive →
       let d := PlatformHealthManagement.mDeadlineSupervision s' in
       DeadlineSupervision.mDeadlineThread d = DeadlineSupervision.NotStarted ∧
       ElementarySupervision.mStatus (DeadlineSupervision.mBase d) = kDeactivated).
Proof.
  intros Hs ids Ha Hso Ht.
  destruct (configured_spec cfg reached s functionGroup Hs) as (a & so & t & (Ha' & Hso' & Ht') & Hd & Hm & Hth & Hb).
  rewrite <- (names_unique _ _ _ _ Ha Ha'), <- (names_unique _ _ _ _ Hso Hso'), <- (names_unique _ _ _ _ Ht Ht') in Hd.
  destruct (run_manages functionGroup evs _ Hm) as (x & Hrun & _ & _ & Hx & _). exists x. split; [exact Hrun|].
  split; [intros c; rewrite Hx; apply Hd|]. intros ->. apply (run_unsupervised functionGroup evs _ x Hm Hrun).
  split; [|split; [exact Hth|cbn; by rewrite Hb]]. intros c. cbn. rewrite Hd. by repeat case_bool_decide.
Qed.

(** A manifest with the same reference for the alive supervision and the deadline's source. *)
Definition demo_config (source : string) : PlatformHealthManagement.Config :=
  PlatformHealthManagement.mkConfig [1; 2; 3] 5 1 1 1000 2 (Some "1"%string) 100 200 (Some source) (Some "3"%string).

Definition demo_manager (source : string) : PlatformHealthManagement.t :=
  match PlatformHealthManagement.configured (demo_config source) false with
  | Ok s => s
  | _ => PlatformHealthManagement.mk ∅ (AliveSupervision.mk 0 0 0 0 false 0 (ElementarySupervision.construct AliveSupervision_))
           (DeadlineSupervision.mk 0 0 0 false DeadlineSupervision.NotStarted (ElementarySupervision.construct DeadlineSupervision_))
           (GlobalSupervision.mk [] kDeactivated false []) LogRecoveryAction.construct
  end.

(** Its deadline is missed without notice. *)
Lemma first_registration_wins_witness :
  PlatformHealthManagement.configured (demo_config "1") false = Ok (demo_manager "1") ∧
  ∃ x, PlatformHealthManagement.run "g" [PlatformHealthManagement.Checkpoint 0 1; PlatformHealthManagement.DeadlineStep true 1000]
         (PlatformHealthManagement.start (demo_manager "1")) = Ok x ∧
    ElementarySupervision.mStatus (DeadlineSupervision.mBase (PlatformHealthManagement.mDeadlineSupervision
      (PlatformHealthManagement.manager x))) = kDeactivated.
Proof.
  assert (Hs : PlatformHealthManagement.configured (demo_config "1") false = Ok (demo_manager "1")) by by vm_compute.
  split; [exact Hs|].
  assert (Hn : ∀ text id, stoul text = Ok id → id ∈ [1; 2; 3] →
    names (Some text) (PlatformHealthManagement.fillCheckpoints [1; 2; 3]) id).
  { intros text id Ht Hid. exists text, id. split_and!; [done|done|..].
    - rewrite !list_elem_of_In in Hid. cbn in Hid. intuition subst; done.
    - by apply elem_of_list_to_set. }
  destruct (first_registration_wins (demo_config "1") false (demo_manager "1") "g"
    [PlatformHealthManagement.Checkpoint 0 1; PlatformHealthManagement.DeadlineStep true 1000] 1 1 3 Hs) as (x & Hrun & _ & Hd);
    [apply Hn; [by vm_compute|set_solver]..|].
  exists x. split; [exact Hrun|]. exact (proj2 (Hd eq_refl)).
Defined.

(** C22: how often recovery runs.  The supervisions' threads, the checkpoints and Main's own
    set-up interleave, from the time the supervisions are configured, step by step: a status is
    written, the statuses are collected one by one, the worst one compared, written and handed
    on, all without a lock.  In every such run the recovery action has logged at most two texts,
    each of them naming a supervision that has expired, so none before one expires.  When the
    callback was set before anything expired, no expiry goes unheard: once a supervision has
    expired and no thread is in the callback, something was logged; and if the two supervisions
    were never in the callback at the same time, exactly one text was, and as long as they are
    not, nothing that happens afterwards, the other supervision's expiry included, adds another
    or takes it back. *)
Theorem expiry_recovers_once cfg reached s functionGroup evs :
  PlatformHealthManagement.configured cfg reached = Ok s →
  let log x := LogRecoveryAction.logged (PlatformHealthManagement.mRecoveryAction (PlatformHealthManagement.manager x)) in
  let alive x := AliveSupervision.mBase (PlatformHealthManagement.mAliveSupervision (PlatformHealthManagement.manager x)) in
  let deadline x := DeadlineSupervision.mBase (PlatformHealthManagement.mDeadlineSupervision (PlatformHealthManagement.manager x)) in
  let at_rest x := PlatformHealthManagement.alive_pc x = GlobalSupervision.Resting ∧
                   PlatformHealthManagement.deadline_pc x = GlobalSupervision.Resting in
  ∃ x, PlatformHealthManagement.run functionGroup evs (PlatformHealthManagement.start s) = Ok x ∧
    Forall (fun text => (expired (alive x) ∧ text = ("Alive supervision is expired on " +:+ functionGroup)%string) ∨
                        (expired (deadline x) ∧ text = ("Deadline supervision is expired on " +:+ functionGroup)%string)) (log x) ∧
    (length (log x) <= 2)%nat ∧
    (PlatformHealthManagement.main x = PlatformHealthManagement.Running → ¬ expired (alive x) → ¬ expired (deadline x) →
     ∀ more, ∃ y, PlatformHealthManagement.run functionGroup more x = Ok y ∧
       (at_rest y → expired (alive y) ∨ expired (deadline y) →
          log y ≠ [] ∧
          (separate functionGroup more x →
             length (log y) = 1%nat ∧
             ∀ later, ∃ z, PlatformHealthManagement.run functionGroup later y = Ok z ∧
               (separate functionGroup later y → log z = log y)))).
Proof.
  intros Hs log alive deadline at_rest. destruct (configured_spec cfg reached s functionGroup Hs) as (_ & _ & _ & _ & _ & Hm & _).
  destruct (run_manages functionGroup evs _ Hm) as (x & Hrun & Hmx & _). exists x. split; [exact Hrun|].
  split; [exact (s_log _ _ (m_sound _ _ Hmx))|]. split.
  { destruct (m_counted _ _ Hmx) as (na & nd & Hn & _). change (log x) with (v_log (view_of x)). lia. }
  intros Hmain Ha Hd more. destruct (nothing_expired functionGroup x Hmx Hmain ltac:(by intros [?|?])) as [Hat Hser].
  destruct (run_manages functionGroup more x Hmx) as (y & Hy & Hmy & _ & _ & Haty). exists y. split; [exact Hy|].
  intros [Hr1 Hr2] Hex. assert (Hne : log y ≠ []) by exact (attentive_rest _ (Haty Hat) Hr1 Hr2 Hex). split; [exact Hne|].
  intros Hsep. pose proof (run_serial functionGroup more x y Hmx Hsep Hser Hy) as Hsy. pose proof (se_one _ Hsy) as Hone.
  change (v_log (view_of y)) with (log y) in Hone. split; [destruct (log y); [done|cbn in *; lia]|].
  intros later. destruct (run_manages functionGroup later y Hmy) as (z & Hz & _ & Hpre & _). exists z. split; [exact Hz|].
  intros Hsepz. pose proof (se_one _ (run_serial functionGroup later y z Hmy Hsepz Hsy Hz)) as Honez.
  destruct Hpre as [tail Htail]. change (log z = log y ++ tail) in Htail. change (v_log (view_of z)) with (log z) in Honez.
  rewrite Htail in Honez |- *. destruct (log y) as [|text l]; [done|]. rewrite length_app in Honez. cbn in Honez.
  destruct tail; [by rewrite app_nil_r|cbn in Honez; lia].
Qed.

(** A set-up that nothing disturbs, and a source checkpoint. *)
Definition demo_setup : list PlatformHealthManagement.event :=
  replicate 8 PlatformHealthManagement.MainStep ++ [PlatformHealthManagement.Checkpoint 0 2].

(** The alive supervision fails once, and at the end of the next cycle both expire; both threads
    compare the worst status with the global one before either has written it. *)
Definition demo_overlap : list PlatformHealthManagement.event :=
  replicate 7 PlatformHealthManagement.AliveStep ++ [PlatformHealthManagement.AliveStep] ++
  replicate 5 (PlatformHealthManagement.DeadlineStep true 1000) ++ replicate 6 PlatformHealthManagement.AliveStep ++
  replicate 2 (PlatformHealthManagement.DeadlineStep true 1000).

Lemma expiry_recovers_once_witness :
  ∃ x y, PlatformHealthManagement.run "g" demo_setup (PlatformHealthManagement.start (demo_manager "2")) = Ok x ∧
    PlatformHealthManagement.run "g" demo_overlap x = Ok y ∧
    LogRecoveryAction.logged (PlatformHealthManagement.mRecoveryAction (PlatformHealthManagement.manager y)) ≠ [] ∧
    LogRecoveryAction.logged (PlatformHealthManagement.mRecoveryAction (PlatformHealthManagement.manager y)) =
      ["Alive supervision is expired on g"; "Alive supervision is expired on g"]%string.
Proof.
  assert (Hs : PlatformHealthManagement.configured (demo_config "2") false = Ok (demo_manager "2")) by by vm_compute.
  destruct (expiry_recovers_once (demo_config "2") false (demo_manager "2") "g" demo_setup Hs) as (x & Hx & _ & _ & H).
  assert (Hf : PlatformHealthManagement.main x = PlatformHealthManagement.Running ∧
    ¬ expired (AliveSupervision.mBase (PlatformHealthManagement.mAliveSupervision (PlatformHealthManagement.manager x))) ∧
    ¬ expired (DeadlineSupervision.mBase (PlatformHealthManagement.mDeadlineSupervision (PlatformHealthManagement.manager x)))).
  { clear H. vm_compute in Hx. injection Hx as <-. by split_and!. }
  destruct Hf as (Hf1 & Hf2 & Hf3). destruct (H Hf1 Hf2 Hf3 demo_overlap) as (y & Hy & Hlog). exists x, y.
  assert (Hall : (x ← PlatformHealthManagement.run "g" demo_setup (PlatformHealthManagement.start (demo_manager "2"));
                  PlatformHealthManagement.run "g" demo_overlap x) = Ok y) by (rewrite Hx; exact Hy).
  vm_compute in Hall. injection Hall as Hall. rewrite <- Hall in Hlog |- *.
  split; [exact Hx|]. split; [rewrite Hy; by rewrite <- Hall|].
  split; [|reflexivity]. exact (proj1 (Hlog ltac:(by split) ltac:(by left))).
Defined.

(** An expiry that is reported before the global supervision has its callback is never
    recovered from: the constructor finds it, so that there is no change left to hear of, not
    even when the deadline is missed as well. *)
Theorem early_expiry_is_lost :
  ∃ evs x, PlatformHealthManagement.run "g" evs (PlatformHealthManagement.start (demo_manager "2")) = Ok x ∧
    PlatformHealthManagement.main x = PlatformHealthManagement.Running ∧
    expired (AliveSupervision.mBase (PlatformHealthManagement.mAliveSupervision (PlatformHealthManagement.manager x))) ∧
    expired (DeadlineSupervision.mBase (PlatformHealthManagement.mDeadlineSupervision (PlatformHealthManagement.manager x))) ∧
    PlatformHealthManagement.alive_pc x = GlobalSupervision.Resting ∧
    PlatformHealthManagement.deadline_pc x = GlobalSupervision.Resting ∧
    LogRecoveryAction.logged (PlatformHealthManagement.mRecoveryAction (PlatformHealthManagement.manager x)) = [].
Proof.
  exists (replicate 4 PlatformHealthManagement.AliveStep ++ demo_setup ++ replicate 5 (PlatformHealthManagement.DeadlineStep true 1000)).
  eexists. split; [vm_compute; reflexivity|]. by split_and!.
Qed.
