(* ===== verification/HealthManifest.v ===== *)
(** * The health manifest: application/platform/platform_health_management.cpp

    What platform health management reads in its manifest - the checkpoints, and both
    supervisions with the checkpoints they refer to - and the manager it sets up from a
    file, which is that of Health.v. *)

From stdpp Require Import strings gmap.
From S2P Require Import Prelude Texts Arxml Phm Health.
From Stdlib Require Import Ascii.
#[local] Open Scope Z_scope.

Module HealthManifest.
Import PlatformHealthManagement.
Section HealthManifest.
Context `{XmlText}.

(** The path of the global supervision. *)
Definition global : list string := ["AUTOSAR"; "AR-PACKAGES"; "AR-PACKAGE"; "ELEMENTS"; "GLOBAL-SUPERVISION"]%string.

(** [arxml/arxml_node.cpp:51-58] GetContent, of a node that need not be there *)
Definition GetContent (h : handle) : string := match h with Some n => print n | None => EmptyString end.

(** [application/platform/platform_health_management.cpp:39-50] getCheckpointId *)
Definition getCheckpointId (content : string) : outcome Z :=
  cCheckpointReader ← ArxmlReader.construct content;
  Ok (ArxmlNode.GetValue u32 (ArxmlReader.GetRootNode ["SUPERVISION-CHECKPOINT"; "CHECKPOINT-ID"]%string cCheckpointReader)).

(** The loop over the checkpoints. *)
Fixpoint checkpoint_loop (cCheckpointNodes : list node) : outcome (list Z) :=
  match cCheckpointNodes with
  | [] => Ok []
  | n :: nodes =>
      cCheckpointId ← getCheckpointId (GetContent (Some n)); ids ← checkpoint_loop nodes; Ok (cCheckpointId :: ids)
  end.

(** [application/platform/platform_health_management.cpp:52-71] fillCheckpoints: the identifiers that
    go into the set *)
Definition readCheckpoints (reader : list node) : outcome (list Z) :=
  checkpoint_loop (ArxmlReader.GetNodes (global ++ ["CHECKPOINTS"]%string) reader).

(** [application/platform/platform_health_management.cpp:95-177] configureAliveSupervision: what it
    reads, and the supervision with its delegate; the rest of the configuration is not used *)
Definition configureAliveSupervision (reader : list node) (checkpoints : gset Z) : M (gmap Z Delegate) AliveSupervision.t :=
  let cAliveSupervisionNode := ArxmlReader.GetRootNode (global ++ ["ALIVE-SUPERVISION"]%string) reader in
  cAliveSupervisionReader ← lift (ArxmlReader.construct (GetContent cAliveSupervisionNode));
  let number cast name := ArxmlNode.GetValue cast (ArxmlReader.GetRootNode ["ALIVE-SUPERVISION"; name]%string cAliveSupervisionReader) in
  PlatformHealthManagement.configureAliveSupervision
    (mkConfig []
       (number u16 "EXPECTED-ALIVE-INDICATIONS"%string) (number u16 "MIN-MARGIN"%string) (number u16 "MAX-MARGIN"%string)
       (number u32 "ALIVE-REFERENCE-CYCLE"%string) (number u8 "FAILED-REFERENCE-CYCLES-TOLERANCE"%string)
       (ArxmlNode.TryGetReference "CHECKPOINT-REF" "SUPERVISION-CHECKPOINT" cAliveSupervisionNode) 0 0 None None)
    checkpoints.

(** [application/platform/platform_health_management.cpp:179-275] configureDeadlineSupervision: what
    it reads, and the supervision with its delegates *)
Definition configureDeadlineSupervision (reader : list node) (checkpoints : gset Z) (reached : bool) :
    M (gmap Z Delegate) DeadlineSupervision.t :=
  let cDeadlineSupervisionNode := ArxmlReader.GetRootNode (global ++ ["DEADLINE-SUPERVISION"]%string) reader in
  cDeadlineSupervisionReader ← lift (ArxmlReader.construct (GetContent cDeadlineSupervisionNode));
  let number name := ArxmlNode.GetValue u32 (ArxmlReader.GetRootNode ["DEADLINE-SUPERVISION"; name]%string cDeadlineSupervisionReader) in
  let cCheckpointTransition :=
    ArxmlReader.GetRootNode ["DEADLINE-SUPERVISION"; "TRANSITION"; "CHECKPOINT-TRANSITION"]%string cDeadlineSupervisionReader in
  PlatformHealthManagement.configureDeadlineSupervision
    (mkConfig [] 0 0 0 0 0 None (number "MIN-DEADLINE"%string) (number "MAX-DEADLINE"%string)
       (ArxmlNode.TryGetReference "SOURCE-REF" "SUPERVISION-CHECKPOINT" cCheckpointTransition)
       (ArxmlNode.TryGetReference "TARGET-REF" "SUPERVISION-CHECKPOINT" cCheckpointTransition))
    checkpoints reached.

(** [application/platform/platform_health_management.cpp:301-324] Main, up to its loop, when no
    other thread of the manager runs meanwhile (from the configured supervisions on, its steps
    among those of the others are [PlatformHealthManagement.main_step]) *)
Definition start (file : option string) (reached : bool) : outcome t :=
  cArxmlReader ← ArxmlReader.construct_file file;
  ids ← readCheckpoints cArxmlReader;
  let checkpoints := fillCheckpoints ids in
  let '(r, delegates) :=
    (a ← configureAliveSupervision cArxmlReader checkpoints;
     d ← configureDeadlineSupervision cArxmlReader checkpoints reached;
     mret (a, d)) ∅ in
  '(a, d) ← r;
  g ← GlobalSupervision.construct [AliveSupervision.mBase a; DeadlineSupervision.mBase d];
  Ok (mk delegates a d (GlobalSupervision.SetCallback g) (LogRecoveryAction.Offer LogRecoveryAction.construct)).

End HealthManifest.
End HealthManifest.

(** ** Lemmas: declared supervisions *)
Module HealthManifest_facts.
Import Arxml_facts PlatformHealthManagement HealthManifest.

(** What a manifest declares, its numbers as decimal digits. *)
Record Declared := mkDeclared {
  d_ids : list (list Z);
  d_expected : list Z; d_min_margin : list Z; d_max_margin : list Z; d_cycle : list Z; d_tolerance : list Z; d_alive : list Z;
  d_min_deadline : list Z; d_max_deadline : list Z; d_source : list Z; d_target : list Z
}.

Definition number_node (name : string) (ds : list Z) : node := Element name [] [CharacterData (decimal ds)].
Definition reference_node (name : string) (ds : list Z) : node :=
  Element name [("DEST", "SUPERVISION-CHECKPOINT")]%string [CharacterData (decimal ds)].

Definition checkpoint_node (ds : list Z) : node := Element "SUPERVISION-CHECKPOINT" [] [number_node "CHECKPOINT-ID" ds].
Definition alive_node (d : Declared) : node :=
  Element "ALIVE-SUPERVISION" []
    [ number_node "ALIVE-REFERENCE-CYCLE" (d_cycle d); reference_node "CHECKPOINT-REF" (d_alive d);
      number_node "EXPECTED-ALIVE-INDICATIONS" (d_expected d); number_node "FAILED-REFERENCE-CYCLES-TOLERANCE" (d_tolerance d);
      number_node "MIN-MARGIN" (d_min_margin d); number_node "MAX-MARGIN" (d_max_margin d) ].
Definition deadline_node (d : Declared) : node :=
  Element "DEADLINE-SUPERVISION" []
    [ number_node "MIN-DEADLINE" (d_min_deadline d); number_node "MAX-DEADLINE" (d_max_deadline d);
      Element "TRANSITION" [] [Element "CHECKPOINT-TRANSITION" []
        [reference_node "SOURCE-REF" (d_source d); reference_node "TARGET-REF" (d_target d)]] ].

Definition health_manifest (d : Declared) : list node :=
  nest global [Element "CHECKPOINTS" [] (map checkpoint_node (d_ids d)); alive_node d; deadline_node d].

Definition digits_of (d : Declared) : list (list Z) :=
  d_ids d ++ [d_expected d; d_min_margin d; d_max_margin d; d_cycle d; d_tolerance d; d_alive d;
              d_min_deadline d; d_max_deadline d; d_source d; d_target d].

(** What is made of it: numbers saturate at the largest unsigned int and are cut to their
    width, references stay texts. *)
Definition saturated (ds : list Z) : Z := Z.min (value_of ds) 4294967295.
Definition config_of (d : Declared) : Config :=
  mkConfig (map saturated (d_ids d)) (u16 (saturated (d_expected d))) (u16 (saturated (d_min_margin d)))
    (u16 (saturated (d_max_margin d))) (saturated (d_cycle d)) (u8 (saturated (d_tolerance d)))
    (Some (decimal (d_alive d))) (saturated (d_min_deadline d)) (saturated (d_max_deadline d))
    (Some (decimal (d_source d))) (Some (decimal (d_target d))).

(** ** Lemmas: digits for std::stoul *)

Lemma digits_decimal ds acc :
  Forall is_digit ds → digits (decimal ds) (Some acc) = Some (foldl (fun a d => 10 * a + d) acc ds).
Proof.
  intros Hds. revert acc. induction Hds as [|d ds Hd _ IH]; intros acc; [done|].
  unfold decimal. cbn [map String.string_of_list_ascii digits]. rewrite digit_of_char by done.
  change (String.string_of_list_ascii (map digit_char ds)) with (decimal ds). rewrite IH. cbn [foldl default from_option id].
  do 2 f_equal. lia.
Qed.

Lemma value_nonneg ds : Forall is_digit ds → 0 <= value_of ds.
Proof.
  intros Hds. unfold value_of. enough (H0 : ∀ acc, 0 <= acc → 0 <= foldl (fun a d => 10 * a + d) acc ds) by by apply H0.
  induction Hds as [|d ds Hd _ IH]; intros acc Ha; [done|]. cbn [foldl]. apply IH. unfold is_digit in Hd. lia.
Qed.

Lemma plain_digit d : is_digit d →
  is_space (digit_char d) = false ∧ bool_decide (digit_char d = "-"%char) = false ∧ bool_decide (digit_char d = "+"%char) = false.
Proof. intros Hd. pattern d. apply all_digits; [|exact Hd]. repeat (apply Forall_cons; split; [by vm_compute|]). apply Forall_nil_2. Qed.

Lemma stoul_decimal ds : Forall is_digit ds → ds ≠ [] → value_of ds < 18446744073709551616 → stoul (decimal ds) = Ok (value_of ds).
Proof.
  intros Hds Hne Hlt. pose proof (value_nonneg ds Hds) as Hpos. unfold stoul, signed.
  destruct Hds as [|d ds Hd Hds]; [done|]. destruct (plain_digit d Hd) as (H1 & H2 & H3).
  unfold decimal at 1. cbn [map String.string_of_list_ascii skip_space]. rewrite H1, H2, H3.
  change (String (digit_char d) (String.string_of_list_ascii (map digit_char ds))) with (decimal (d :: ds)).
  unfold decimal. cbn [map String.string_of_list_ascii digits]. rewrite digit_of_char by done.
  change (String.string_of_list_ascii (map digit_char ds)) with (decimal ds). rewrite digits_decimal by done.
  change (foldl _ _ ds) with (value_of (d :: ds)) at 1. rewrite (proj2 (Z.ltb_lt _ _)) by exact Hlt.
  f_equal. change (foldl _ _ ds) with (value_of (d :: ds)). ulia.
Qed.

(** ** Lemmas: the set-up *)

(** The numbers of a declaration are digits. *)
Ltac declared_digits Hd :=
  apply (proj1 (Forall_forall _ _) Hd); unfold digits_of; set_solver.

Section Declared.
Context `{XmlText}.

Definition printable_health (d : Declared) : Prop :=
  Forall (fun ds => printable (checkpoint_node ds)) (d_ids d) ∧ printable (alive_node d) ∧ printable (deadline_node d).

Lemma checkpoints_declared ids :
  Forall (Forall is_digit) ids → Forall (fun ds => printable (checkpoint_node ds)) ids →
  checkpoint_loop (map checkpoint_node ids) = Ok (map saturated ids).
Proof.
  intros Hd. induction Hd as [|ds ids Hds _ IH]; intros Hp; [done|]. inversion Hp as [|? ? Hp1 Hp2]; subst.
  cbn [map checkpoint_loop]. unfold getCheckpointId.
  assert (Hc : ArxmlReader.construct (GetContent (Some (checkpoint_node ds))) = Ok [checkpoint_node ds]) by by apply construct_print.
  rewrite Hc, Ok_bind. change (ArxmlNode.GetValue _ _) with (u32 (pugi.get_value_uint (decimal ds))).
  rewrite get_value_decimal, Ok_bind, IH, Ok_bind by done. fold (saturated ds). do 2 f_equal.
  pose proof (value_nonneg ds Hds). unfold saturated. ulia.
Qed.

Lemma number_read cast name ds path document :
  Forall is_digit ds → ArxmlReader.GetRootNode path document = Some (number_node name ds) →
  ArxmlNode.GetValue cast (ArxmlReader.GetRootNode path document) = cast (saturated ds).
Proof.
  intros Hds ->. unfold ArxmlNode.GetValue, pugi.as_uint. change (pugi.data _) with (Some (decimal ds)). cbv iota.
  by rewrite get_value_decimal.
Qed.

Lemma saturated_u32 ds : Forall is_digit ds → u32 (saturated ds) = saturated ds.
Proof. intros Hds. pose proof (value_nonneg ds Hds). unfold saturated. ulia. Qed.

Lemma configure_alive d ids m :
  Forall (Forall is_digit) (digits_of d) → printable_health d →
  configureAliveSupervision (health_manifest d) ids m = PlatformHealthManagement.configureAliveSupervision (config_of d) ids m.
Proof.
  intros Hd (_ & Hp & _). unfold configureAliveSupervision.
  change (ArxmlReader.GetRootNode _ (health_manifest d)) with (Some (alive_node d)).
  assert (Hc : ArxmlReader.construct (GetContent (Some (alive_node d))) = Ok [alive_node d]) by by apply construct_print.
  run. rewrite Hc.
  rewrite (number_read u16 "EXPECTED-ALIVE-INDICATIONS" (d_expected d)), (number_read u16 "MIN-MARGIN" (d_min_margin d)),
    (number_read u16 "MAX-MARGIN" (d_max_margin d)), (number_read u32 "ALIVE-REFERENCE-CYCLE" (d_cycle d)),
    (number_read u8 "FAILED-REFERENCE-CYCLES-TOLERANCE" (d_tolerance d)) by (reflexivity || declared_digits Hd).
  change (ArxmlNode.TryGetReference _ _ _) with (Some (decimal (d_alive d))).
  rewrite saturated_u32 by declared_digits Hd. reflexivity.
Qed.

Lemma configure_deadline d ids reached m :
  Forall (Forall is_digit) (digits_of d) → printable_health d →
  configureDeadlineSupervision (health_manifest d) ids reached m =
    PlatformHealthManagement.configureDeadlineSupervision (config_of d) ids reached m.
Proof.
  intros Hd (_ & _ & Hp). unfold configureDeadlineSupervision.
  change (ArxmlReader.GetRootNode _ (health_manifest d)) with (Some (deadline_node d)).
  assert (Hc : ArxmlReader.construct (GetContent (Some (deadline_node d))) = Ok [deadline_node d]) by by apply construct_print.
  run. rewrite Hc.
  rewrite (number_read u32 "MIN-DEADLINE" (d_min_deadline d)), (number_read u32 "MAX-DEADLINE" (d_max_deadline d))
    by (reflexivity || declared_digits Hd).
  change (ArxmlNode.TryGetReference "SOURCE-REF" _ _) with (Some (decimal (d_source d))).
  change (ArxmlNode.TryGetReference "TARGET-REF" _ _) with (Some (decimal (d_target d))).
  rewrite !saturated_u32 by declared_digits Hd. reflexivity.
Qed.

(** From a file, the manager is set up as declared. *)
Lemma start_setup content d reached :
  load content = (true, true, health_manifest d) → Forall (Forall is_digit) (digits_of d) → printable_health d →
  start (Some content) reached = setup (config_of d) reached.
Proof.
  intros Hl Hd Hp. unfold start, ArxmlReader.construct_file, ArxmlReader.construct. rewrite Hl.
  change (ArxmlReader.validate true true _) with true. cbv iota. rewrite Ok_bind. unfold readCheckpoints.
  change (ArxmlReader.GetNodes _ (health_manifest d)) with (map checkpoint_node (d_ids d)).
  rewrite checkpoints_declared, Ok_bind by (apply Hp || (apply Forall_app in Hd; apply Hd)).
  unfold setup. run. rewrite configure_alive by done.
  change (checkpoint_ids (config_of d)) with (map saturated (d_ids d)).
  destruct (PlatformHealthManagement.configureAliveSupervision _ _ _) as [[a| | |] m]; try reflexivity.
  by rewrite configure_deadline.
Qed.

End Declared.

(** A reference by digits finds the checkpoint of that number. *)
Definition small (ds : list Z) : bool := bool_decide (ds ≠ []) && (value_of ds <? 4294967296).

Lemma reference_found ds ids delegate m :
  Forall is_digit ds → small ds = true →
  addReference (Some (decimal ds)) ids delegate m =
    if bool_decide (value_of ds ∈ ids) then (Ok (), kept (value_of ds) delegate m) else (Throw std_runtime_error, m).
Proof.
  intros Hds [Hne%bool_decide_eq_true Hlt%Z.ltb_lt]%andb_prop. pose proof (value_nonneg ds Hds).
  unfold addReference, tryAddReportDelegate. run. rewrite stoul_decimal by (done || lia). rewrite u32_id by ulia.
  by case_bool_decide.
Qed.

(** The numbers that a supervision accepts. *)
Definition alive_accepted (cfg : Config) : bool :=
  (0 <? minMargin cfg) && (minMargin cfg <? expectedAliveIndications cfg) && (0 <? maxMargin cfg) &&
  (0 <? failedReferenceCyclesTolerance cfg) && (0 <? aliveReferenceCycle cfg).
Definition deadline_accepted (cfg : Config) : bool := (minDeadline cfg <? maxDeadline cfg) && (0 <? maxDeadline cfg).

Definition manager (cfg : Config) (alive source target : Z) (reached : bool) : t :=
  let a := ElementarySupervision.construct AliveSupervision_ in
  let d := ElementarySupervision.construct DeadlineSupervision_ in
  mk (kept target ReportTargetCheckpoint (kept source ReportSourceCheckpoint {[alive := ReportAliveness]}))
     (AliveSupervision.mk (u16 (expectedAliveIndications cfg - minMargin cfg)) (u16 (expectedAliveIndications cfg + maxMargin cfg))
        (failedReferenceCyclesTolerance cfg) 0 true 0 a)
     (DeadlineSupervision.mk (minDeadline cfg) (maxDeadline cfg) 0 reached DeadlineSupervision.NotStarted d)
     (GlobalSupervision.mk [a; d] kDeactivated true [])
     (LogRecoveryAction.Offer LogRecoveryAction.construct).

Lemma alive_construct cfg :
  AliveSupervision.construct (expectedAliveIndications cfg) (minMargin cfg) (maxMargin cfg) (aliveReferenceCycle cfg) (failedReferenceCyclesTolerance cfg) =
    if alive_accepted cfg then
      Ok (AliveSupervision.mk (u16 (expectedAliveIndications cfg - minMargin cfg)) (u16 (expectedAliveIndications cfg + maxMargin cfg))
            (failedReferenceCyclesTolerance cfg) 0 true 0 (ElementarySupervision.construct AliveSupervision_))
    else Throw std_invalid_argument.
Proof. unfold AliveSupervision.construct, alive_accepted. by repeat destruct (_ <? _). Qed.

Lemma deadline_construct cfg reached :
  DeadlineSupervision.construct (minDeadline cfg) (maxDeadline cfg) reached =
    if deadline_accepted cfg then
      Ok (DeadlineSupervision.mk (minDeadline cfg) (maxDeadline cfg) 0 reached DeadlineSupervision.NotStarted
            (ElementarySupervision.construct DeadlineSupervision_))
    else Throw std_invalid_argument.
Proof. unfold DeadlineSupervision.construct, deadline_accepted. by repeat destruct (_ <? _). Qed.

End HealthManifest_facts.

(** ** Properties *)

Section Properties.
Context `{XmlText}.
Import Arxml_facts PlatformHealthManagement HealthManifest HealthManifest_facts.

(** C19: what health management makes of its manifest, completely, when all numbers are
    decimal digits and references are below 2^32: numbers that the alive supervision does
    not accept end the start with invalid_argument, which [Main] does not catch; then a
    reference to a checkpoint that is not declared ends it with runtime_error; then the same
    for the deadline supervision; otherwise the manager supervises as declared: both
    supervisions have the declared numbers within their width, checkpoints that are reported
    go to the supervisions that refer to them (to the first one, if several do), nothing is
    expired and the recovery action is offered. *)
Theorem supervisions_as_declared content d reached :
  load content = (true, true, health_manifest d) → Forall (Forall is_digit) (digits_of d) → printable_health d →
  small (d_alive d) && small (d_source d) && small (d_target d) = true →
  let ids : gset Z := list_to_set (map saturated (d_ids d)) in
  start (Some content) reached =
    if negb (alive_accepted (config_of d)) then Throw std_invalid_argument
    else if negb (bool_decide (value_of (d_alive d) ∈ ids)) then Throw std_runtime_error
    else if negb (deadline_accepted (config_of d)) then Throw std_invalid_argument
    else if negb (bool_decide (value_of (d_source d) ∈ ids)) then Throw std_runtime_error
    else if negb (bool_decide (value_of (d_target d) ∈ ids)) then Throw std_runtime_error
    else Ok (manager (config_of d) (value_of (d_alive d)) (value_of (d_source d)) (value_of (d_target d)) reached).
Proof.
  intros Hl Hd Hp [[Ha Hs]%andb_prop Ht]%andb_prop ids. rewrite start_setup with (d := d) by done. unfold setup.
  change (fillCheckpoints (checkpoint_ids (config_of d))) with ids.
  unfold PlatformHealthManagement.configureAliveSupervision, PlatformHealthManagement.configureDeadlineSupervision. run.
  rewrite alive_construct, deadline_construct. destruct (alive_accepted _); [cbn [negb]|done].
  change (alive_ref (config_of d)) with (Some (decimal (d_alive d))).
  change (source_ref (config_of d)) with (Some (decimal (d_source d))).
  change (target_ref (config_of d)) with (Some (decimal (d_target d))).
  rewrite reference_found by (done || declared_digits Hd). destruct (bool_decide _); [cbn [negb]|done].
  destruct (deadline_accepted _); [cbn [negb]|done].
  rewrite reference_found by (done || declared_digits Hd). destruct (bool_decide _); [cbn [negb]|done].
  rewrite reference_found by (done || declared_digits Hd). destruct (bool_decide _); [cbn [negb]|done].
  unfold kept at 3. by rewrite lookup_empty.
Qed.

End Properties.

(** ** Witness *)

(** The shipped manifest. *)
Definition example_declared : HealthManifest_facts.Declared :=
  HealthManifest_facts.mkDeclared [[0]; [1]; [2]] [1; 0] [5] [5] [1; 0; 0] [1; 0; 0] [0] [5] [1; 5] [1] [2].

Definition example_health_nodes : list node :=
  map HealthManifest_facts.checkpoint_node (HealthManifest_facts.d_ids example_declared) ++
  [HealthManifest_facts.alive_node example_declared; HealthManifest_facts.deadline_node example_declared].

(** A printer that numbers these nodes, and its parser. *)
Definition health_tag (n : node) : string :=
  match pugi.name_of n with
  | Some "ALIVE-SUPERVISION"%string => "a"
  | Some "DEADLINE-SUPERVISION"%string => "d"
  | _ => ArxmlNode.GetText (pugi.child "CHECKPOINT-ID" (Some n))
  end.

Definition example_health_text : XmlText.
Proof.
  refine {| load := fun s => if (s =? "m")%string then (true, true, HealthManifest_facts.health_manifest example_declared)
                             else match List.find (fun n => (health_tag n =? s)%string) example_health_nodes with
                                  | Some n => (true, true, [n]) | None => (false, true, []) end;
            print := health_tag;
            version_is_one := fun s => (s =? "1.0")%string;
            printable := fun n => In n example_health_nodes |}.
  intros name attributes children Hin.
  repeat destruct Hin as [Hin|Hin]; try (rewrite <- Hin; reflexivity); destruct Hin.
Defined.

Lemma supervisions_as_declared_witness :
  ∃ s, @HealthManifest.start example_health_text (Some "m"%string) false = Ok s ∧
    map (fun c => PlatformHealthManagement.mReportDelegates s !! c) [0; 1; 2; 3] =
      [Some PlatformHealthManagement.ReportAliveness; Some PlatformHealthManagement.ReportSourceCheckpoint;
       Some PlatformHealthManagement.ReportTargetCheckpoint; None].
Proof.
  pose proof (@supervisions_as_declared example_health_text "m" example_declared false) as H.
  specialize (H ltac:(reflexivity) ltac:(repeat (apply Forall_cons; split; [unfold Arxml_facts.is_digit; repeat constructor; lia|]); apply Forall_nil_2)).
  specialize (H ltac:(split; [|split]; cbn; repeat (apply Forall_cons; split; [cbn; tauto|]); try apply Forall_nil_2; cbn; tauto)).
  specialize (H ltac:(reflexivity)). eexists. split; [exact H|]. vm_compute. reflexivity.
Defined.
