(* ===== verification/Exec.v ===== *)
(** * Execution management: ara/exec, ara/sm/trigger.h, ara/core/instance_specifier.cpp

    The state server and the execution server that execution management offers, and the
    state client and the execution client that talk to them, on top of the RPC layer of
    Rpc.v.  Futures are a store of shared states that promises write and futures read.
    Theorems: a request of the state client ends as the abstract table of states says,
    through both RPC layers; every state the server holds is a declared one; a refusal of
    the RPC layer is taken for success; answers are not matched with requests; a report
    that timed out blocks all later ones. *)

From S2P Require Import Prelude Payload SomeIp Rpc.
#[local] Open Scope Z_scope.

(** [std::string]s are their bytes. *)
Abbreviation name := bytes.

(** ** exec_error_domain.h *)

(** [ara/exec/exec_error_domain.h:14-14] kGeneralError *)
Definition kGeneralError : Z := 1.
(** [ara/exec/exec_error_domain.h:15-15] kInvalidArguments *)
Definition kInvalidArguments : Z := 2.
(** [ara/exec/exec_error_domain.h:16-16] kCommunicationError *)
Definition kCommunicationError : Z := 3.
(** [ara/exec/exec_error_domain.h:18-18] kCancelled *)
Definition kCancelled : Z := 5.
(** [ara/exec/exec_error_domain.h:19-19] kFailed *)
Definition kFailed : Z := 6.
(** [ara/exec/exec_error_domain.h:22-22] kInvalidTransition *)
Definition kInvalidTransition : Z := 9.
(** [ara/exec/exec_error_domain.h:23-23] kAlreadyInState *)
Definition kAlreadyInState : Z := 10.

(** ** Texts in payloads *)

Module InstanceSpecifier.

(** [ara/core/instance_specifier.cpp:41-68] Serialize *)
Definition Serialize (mMetaModelIdentifier : name) (serializedObject : bytes) : bytes :=
  let metaModelIdLength := u32 (size mMetaModelIdentifier) in
  let v := push_back serializedObject (u8 (metaModelIdLength ≫ 24)) in
  let v := push_back v (u8 (metaModelIdLength ≫ 16)) in
  let v := push_back v (u8 (metaModelIdLength ≫ 8)) in
  let v := push_back v (u8 metaModelIdLength) in
  v ++ mMetaModelIdentifier.

End InstanceSpecifier.

Module FunctionGroupState.

(** [ara/exec/function_group_state.h:16-17] FunctionGroupState, with the group's identifier *)
Record t := mk { mFunctionGroup : name; mStateMetaModel : name }.

(** [ara/exec/function_group_state.cpp:52-74] Serialize *)
Definition Serialize (s : t) (serializedObject : bytes) : bytes :=
  let functionGroupLength := u32 (size (mFunctionGroup s)) in
  let v := InjectInteger serializedObject functionGroupLength in
  let v := v ++ mFunctionGroup s in
  let stateLength := u32 (size (mStateMetaModel s)) in
  InjectInteger v stateLength ++ mStateMetaModel s.

End FunctionGroupState.

(** ** ara/sm/trigger.h *)

(** A [std::function<void()>]: empty, or a callback named by a number. *)
Abbreviation callback := (option nat).

(** Calling it: the callbacks that ran are recorded. *)
Definition call_back (c : callback) : M (list nat) () := fun ran =>
  match c with
  | Some n => (Ok (), ran ++ [n])
  | None => (Throw std_bad_function_call, ran)
  end.

Module Trigger.

(** [ara/sm/trigger.h:40-44] Write: the state the trigger refers to, and the callbacks
    that ran *)
Definition Write {T} (mHandler : callback) (state : T) : M (T * list nat) () := fun '(_, ran) =>
  let '(r, ran) := call_back mHandler ran in (r, (state, ran)).

End Trigger.

(** ** The state server *)
Module StateServer.

(** [ara/exec/state_server.h:28-33] StateServer: [mMutex] is whether another thread holds
    it now *)
Record State := mk {
  mFunctionGroupStates : gset (name * name);
  mNotifiers : gmap name callback;
  mCurrentStates : gmap name name;
  mInitialized : bool;
  mMutex : bool;
  ran : list nat
}.

Definition set_current (m : gmap name name) (s : State) : State :=
  mk (mFunctionGroupStates s) (mNotifiers s) m (mInitialized s) (mMutex s) (ran s).
Definition set_ran (r : list nat) (s : State) : State :=
  mk (mFunctionGroupStates s) (mNotifiers s) (mCurrentStates s) (mInitialized s) (mMutex s) r.
Definition set_mutex (b : bool) (s : State) : State :=
  mk (mFunctionGroupStates s) (mNotifiers s) (mCurrentStates s) (mInitialized s) b (ran s).

(** [ara/exec/state_server.cpp:9-42] StateServer: the two checks of the configuration *)
Definition construct (functionGroupStates : gset (name * name)) (initialStates : gmap name name) : outcome State :=
  if negb (forallb (fun p => bool_decide (p ∈ functionGroupStates)) (map_to_list initialStates))
  then Throw std_invalid_argument
  else if negb (forallb (fun p => bool_decide (is_Some (initialStates !! p.1))) (elements functionGroupStates))
  then Throw std_logic_error
  else Ok (mk functionGroupStates ∅ initialStates false false []).

(** [ara/exec/state_server.cpp:59-64] injectErrorCode *)
Definition injectErrorCode (payload : bytes) (errorCode : Z) : bytes := InjectInteger payload (u32 errorCode).

(** [ara/exec/state_server.cpp:66-74] notify: the trigger writes the current state again,
    without the lock *)
Definition notify (functionGroup state : name) : M State () := fun s =>
  match mNotifiers s !! functionGroup with
  | Some handler =>
      let '(r, (st, ran)) := Trigger.Write handler state (state, ran s) in
      (r, set_ran ran (set_current (<[functionGroup := st]> (mCurrentStates s)) s))
  | None => (Ok (), s)
  end.

Definition refuse (errorCode : Z) : M State (bool * bytes) := mret (false, injectErrorCode [] errorCode).

(** [ara/exec/state_server.cpp:127-163] handleSetState, when the names are known *)
Definition setState (functionGroup state : name) : M State (bool * bytes) :=
  s ← get;
  if negb (bool_decide ((functionGroup, state) ∈ mFunctionGroupStates s)) then refuse kInvalidTransition
  else if mMutex s then refuse kGeneralError
  else
    match mCurrentStates s !! functionGroup with
    | None => refuse kInvalidTransition
    | Some current =>
        if bool_decide (current = state) then refuse kAlreadyInState
        else
          modify (set_current (<[functionGroup := state]> (mCurrentStates s)));;
          notify functionGroup state;;
          mret (true, [])
    end.

(** [ara/exec/state_server.cpp:76-164] handleSetState *)
Definition handleSetState (rpcRequestPayload : bytes) : M State (bool * bytes) :=
  if size rpcRequestPayload <? 8 then refuse kInvalidArguments
  else
    '(functionGroupLength, beginOffset) ← lift (ExtractInteger rpcRequestPayload 0);
    let endOffset := u64 (beginOffset + functionGroupLength) in
    if size rpcRequestPayload <? u64 (endOffset + 4) then refuse kInvalidArguments
    else
      functionGroup ← lift (range_ rpcRequestPayload beginOffset endOffset);
      '(stateLength, beginOffset) ← lift (ExtractInteger rpcRequestPayload endOffset);
      let endOffset := u64 (beginOffset + stateLength) in
      if size rpcRequestPayload <? endOffset then refuse kInvalidArguments
      else
        state ← lift (range_ rpcRequestPayload beginOffset endOffset);
        setState functionGroup state.

(** [ara/exec/state_server.cpp:166-189] handleStateTransition *)
Definition handleStateTransition (rpcRequestPayload : bytes) : M State (bool * bytes) :=
  s ← get;
  if negb (bool_decide (rpcRequestPayload = [])) then refuse kInvalidArguments
  else if mInitialized s then refuse kFailed
  else
    modify (fun s => mk (mFunctionGroupStates s) (mNotifiers s) (mCurrentStates s) true (mMutex s) (ran s));;
    mret (true, []).

(** [ara/exec/state_server.h:24-24] cServiceId *)
Definition cServiceId : Z := 3.
(** [ara/exec/state_server.h:25-25] cSetStateId *)
Definition cSetStateId : Z := 1.
(** [ara/exec/state_server.h:26-26] cStateTransitionId *)
Definition cStateTransitionId : Z := 2.

(** [ara/exec/state_server.cpp:44-56] StateServer: the handlers it registers *)
Definition register (srv : RpcServer.t State) : RpcServer.t State :=
  RpcServer.SetHandler (RpcServer.SetHandler srv cServiceId cSetStateId handleSetState)
    cServiceId cStateTransitionId handleStateTransition.

(** [ara/exec/state_server.cpp:191-212] TryGetState *)
Definition TryGetState (functionGroup : name) (s : State) : option name :=
  if mMutex s then None else mCurrentStates s !! functionGroup.

(** [ara/exec/state_server.cpp:214-231] SetNotifier *)
Definition SetNotifier (functionGroup : name) (c : callback) : M State () := fun s =>
  match mCurrentStates s !! functionGroup with
  | None => (Throw std_out_of_range, s)
  | Some _ =>
      (Ok (), mk (mFunctionGroupStates s) (<[functionGroup := c]> (mNotifiers s)) (mCurrentStates s)
                 (mInitialized s) (mMutex s) (ran s))
  end.

(** [ara/exec/state_server.cpp:233-236] Initialized *)
Definition Initialized (s : State) : bool := mInitialized s.

End StateServer.

(** ** The execution server *)
Module ExecutionServer.

(** [ara/exec/execution_server.h:26-26] ExecutionServer: the states as the bytes of their
    enumeration; the mutex is waited for *)
Record State := mk { mExecutionStates : gmap name Z }.

(** [ara/exec/execution_client.h:17-20] ExecutionState::kRunning *)
Definition kRunning : Z := 0.

Definition refuse (errorCode : Z) : M State (bool * bytes) :=
  mret (false, StateServer.injectErrorCode [] errorCode).

(** [ara/exec/execution_server.cpp:24-85] handleExecutionStateReport *)
Definition handleExecutionStateReport (rpcRequestPayload : bytes) : M State (bool * bytes) :=
  if size rpcRequestPayload <? 5 then refuse kInvalidArguments
  else
    '(length, beginOffset) ← lift (ExtractInteger rpcRequestPayload 0);
    let endOffset := u64 (beginOffset + length) in
    if size rpcRequestPayload <=? endOffset then refuse kInvalidArguments
    else
      executionStateByte ← lift (at_ rpcRequestPayload endOffset);
      if negb (executionStateByte =? kRunning) then refuse kInvalidArguments
      else
        id ← lift (range_ rpcRequestPayload beginOffset endOffset);
        s ← get;
        if negb (bool_decide (mExecutionStates s !! id = Some executionStateByte)) then
          modify (fun s => mk (<[id := executionStateByte]> (mExecutionStates s)));;
          mret (true, [])
        else refuse kAlreadyInState.

(** [ara/exec/execution_server.cpp:8-15] ExecutionServer: the handler it registers *)
Definition register (srv : RpcServer.t State) : RpcServer.t State :=
  RpcServer.SetHandler srv 1 1 handleExecutionStateReport.

(** [ara/exec/execution_server.cpp:87-101] TryGetExecutionState *)
Definition TryGetExecutionState (id : name) (s : State) : option Z := mExecutionStates s !! id.

End ExecutionServer.

(** ** Futures and promises *)
Module Future.

(** What a shared state holds: nothing yet, the void value, or the error code of an
    exception. *)
Inductive content := Pending | Value | Failure (errorCode : Z).

#[export] Instance content_eq_dec : EqDecision content.
Proof. solve_decision. Defined.

(** All shared states, by number. *)
Abbreviation store := (list content).

(** A promise: its shared state, and whether its future was taken. *)
Record promise := mkPromise { shared : nat; retrieved : bool }.

(** [std::promise<void>()]. *)
Definition fresh (st : store) : promise * store := (mkPromise (length st) false, st ++ [Pending]).

(** [set_value] and [set_exception]. *)
Definition satisfy (p : promise) (c : content) (st : store) : outcome store :=
  match st !! shared p with
  | Some Pending => Ok (<[shared p := c]> st)
  | Some _ => Throw std_future_error
  | None => Undefined
  end.

End Future.
Import Future (content, Pending, Value, Failure).

(** ** The state client *)
Module StateClient.

(** [ara/exec/state_client.h:23-30] StateClient: the undefined-state callback is stored and
    never called *)
Record State := mk {
  futures : Future.store;
  mSetStatePromise : Future.promise;
  mSetStateFuture : option nat;
  mStateTransitionPromise : Future.promise;
  mStateTransitionFuture : option nat
}.

Definition set_futures (st : Future.store) (c : State) : State :=
  mk st (mSetStatePromise c) (mSetStateFuture c) (mStateTransitionPromise c) (mStateTransitionFuture c).

(** [ara/exec/state_client.cpp:31-39] setPromiseException *)
Definition setPromiseException (p : Future.promise) (executionErrorCode : Z) : M State () := fun c =>
  match Future.satisfy p (Failure executionErrorCode) (futures c) with
  | Ok st => (Ok (), set_futures st c)
  | Throw e => (Throw e, c)
  | Undefined => (Undefined, c)
  | OutOfFuel => (OutOfFuel, c)
  end.

(** [ara/exec/state_client.cpp:41-71] genericHandler *)
Definition genericHandler (p : Future.promise) (message : SomeIpRpcMessage.t) : M State () :=
  let cRpcPayload := SomeIpRpcMessage.mRpcPayload message in
  if bool_decide (cRpcPayload = []) then
    fun c => match Future.satisfy p Value (futures c) with
             | Ok st => (Ok (), set_futures st c)
             | Throw e => (Throw e, c)
             | Undefined => (Undefined, c)
             | OutOfFuel => (OutOfFuel, c)
             end
  else
    catch_out_of_range
      ('(code, _) ← lift (ExtractInteger cRpcPayload 0); setPromiseException p code)
      (setPromiseException p kCommunicationError).

(** [ara/exec/state_client.cpp:73-77] setStateHandler *)
Definition setStateHandler (message : SomeIpRpcMessage.t) : M State () := fun c =>
  genericHandler (mSetStatePromise c) message c.

(** [ara/exec/state_client.cpp:79-83] stateTransitionHandler *)
Definition stateTransitionHandler (message : SomeIpRpcMessage.t) : M State () := fun c =>
  genericHandler (mStateTransitionPromise c) message c.

(** [ara/exec/state_client.cpp:11-29] StateClient: the client, and the handlers it registers *)
Definition construct : State :=
  mk [Pending; Pending] (Future.mkPromise 0 false) None (Future.mkPromise 1 false) None.
Definition register (cl : RpcClient.t State) : RpcClient.t State :=
  RpcClient.SetHandler (RpcClient.SetHandler cl 3 1 setStateHandler) 3 2 stateTransitionHandler.

(** The future of a promise that already failed with [executionErrorCode]. *)
Definition failed_future (executionErrorCode : Z) (st : Future.store) : nat * Future.store :=
  (length st, st ++ [Failure executionErrorCode]).

(** [ara/exec/state_client.cpp:85-106] getFuture: the future, the promise with its future
    taken, and the request that was sent *)
Definition getFuture (p : Future.promise) (methodId : Z) (rpcPayload : bytes) :
    M (RpcClient.t State * Future.store) (nat * Future.promise * list bytes) := fun '(cl, st) =>
  if Future.retrieved p then
    let (future, st) := failed_future kFailed st in (Ok (future, p, []), (cl, st))
  else
    let p := Future.mkPromise (Future.shared p) true in
    let '(r, cl) := RpcClient.Send 3 methodId 4 rpcPayload cl in
    (request ← r; mret (Future.shared p, p, [request]), (cl, st)).

(** The first lines of a request: an earlier one is cancelled and gets a new promise. *)
Definition cancel (future : option nat) (p : Future.promise) (st : Future.store) :
    outcome (Future.promise * Future.store) :=
  match future with
  | None => Ok (p, st)
  | Some _ =>
      match Future.satisfy p (Failure kCancelled) st with
      | Ok st => Ok (Future.fresh st)
      | Throw std_future_error => Ok (Future.fresh st)
      | Throw e => Throw e
      | Undefined => Undefined
      | OutOfFuel => OutOfFuel
      end
  end.

(** [ara/exec/state_client.cpp:108-132] SetState: the future and the requests sent *)
Definition SetState (state : FunctionGroupState.t) : M (RpcClient.t State * State) (nat * list bytes) := fun '(cl, c) =>
  match cancel (mSetStateFuture c) (mSetStatePromise c) (futures c) with
  | Ok (p, st) =>
      match getFuture p 1 (FunctionGroupState.Serialize state []) (cl, st) with
      | (Ok (future, p, sent), (cl, st)) =>
          (Ok (future, sent), (cl, mk st p (Some future) (mStateTransitionPromise c) (mStateTransitionFuture c)))
      | (Throw e, (cl, st)) =>
          (Throw e, (cl, mk st (Future.mkPromise (Future.shared p) true) (mSetStateFuture c)
                            (mStateTransitionPromise c) (mStateTransitionFuture c)))
      | (Undefined, (cl, _)) => (Undefined, (cl, c))
      | (OutOfFuel, (cl, _)) => (OutOfFuel, (cl, c))
      end
  | Throw e => (Throw e, (cl, c))
  | Undefined => (Undefined, (cl, c))
  | OutOfFuel => (OutOfFuel, (cl, c))
  end.

(** [ara/exec/state_client.cpp:134-156] GetInitialMachineStateTransitionResult *)
Definition GetInitialMachineStateTransitionResult : M (RpcClient.t State * State) (nat * list bytes) := fun '(cl, c) =>
  match cancel (mStateTransitionFuture c) (mStateTransitionPromise c) (futures c) with
  | Ok (p, st) =>
      match getFuture p 2 [] (cl, st) with
      | (Ok (future, p, sent), (cl, st)) =>
          (Ok (future, sent), (cl, mk st (mSetStatePromise c) (mSetStateFuture c) p (Some future)))
      | (Throw e, (cl, st)) =>
          (Throw e, (cl, mk st (mSetStatePromise c) (mSetStateFuture c)
                            (Future.mkPromise (Future.shared p) true) (mStateTransitionFuture c)))
      | (Undefined, (cl, _)) => (Undefined, (cl, c))
      | (OutOfFuel, (cl, _)) => (OutOfFuel, (cl, c))
      end
  | Throw e => (Throw e, (cl, c))
  | Undefined => (Undefined, (cl, c))
  | OutOfFuel => (OutOfFuel, (cl, c))
  end.

(** [ara/exec/state_client.cpp:158-167] GetExecutionError: always an error *)
Definition GetExecutionError (functionGroup : name) : Z := kFailed.

End StateClient.

(** ** The execution client *)
Module ExecutionClient.

(** [ara/exec/execution_client.h:31-36] ExecutionClient: [mFuture] is whether it is valid;
    it belongs to [mPromise] then *)
Record State := mk {
  mInstanceSpecifier : name;
  futures : Future.store;
  mPromise : Future.promise;
  mFuture : bool
}.

(** [ara/exec/execution_client.cpp:12-24] ExecutionClient *)
Definition construct (instanceSpecifier : name) (timeout : Z) : outcome State :=
  if 0 <? timeout then Ok (mk instanceSpecifier [Pending] (Future.mkPromise 0 false) false)
  else Throw std_invalid_argument.

Definition set_content (content : content) : M State () := fun c =>
  match Future.satisfy (mPromise c) content (futures c) with
  | Ok st => (Ok (), mk (mInstanceSpecifier c) st (mPromise c) (mFuture c))
  | Throw e => (Throw e, c)
  | Undefined => (Undefined, c)
  | OutOfFuel => (OutOfFuel, c)
  end.

(** [ara/exec/execution_client.cpp:36-70] reportExecutionStateHandler *)
Definition reportExecutionStateHandler (message : SomeIpRpcMessage.t) : M State () :=
  let cRpcPayload := SomeIpRpcMessage.mRpcPayload message in
  if bool_decide (cRpcPayload = []) then set_content Value
  else
    catch_out_of_range
      ('(code, _) ← lift (ExtractInteger cRpcPayload 0); set_content (Failure code))
      (set_content (Failure kCommunicationError)).

Definition register (cl : RpcClient.t State) : RpcClient.t State :=
  RpcClient.SetHandler cl 1 1 reportExecutionStateHandler.

(** [ara/exec/execution_client.cpp:77-94] ReportExecutionState, until it waits: the request
    it sent, or the error it returns at once.  A promise that is replaced has no future
    any more, so nobody sees that it was broken. *)
Definition report (state : Z) : M (RpcClient.t State * State) (Z + bytes) := fun '(cl, c) =>
  if mFuture c then (Ok (inl kFailed), (cl, c))
  else
    let rpcPayload := push_back (InstanceSpecifier.Serialize (mInstanceSpecifier c) []) (u8 state) in
    let (p, st) := Future.fresh (futures c) in
    let c := mk (mInstanceSpecifier c) st (Future.mkPromise (Future.shared p) true) true in
    let '(r, cl) := RpcClient.Send 1 1 2 rpcPayload cl in
    (request ← r; mret (inr request), (cl, c)).

(** [ara/exec/execution_client.cpp:95-117] ReportExecutionState, when the wait is over: a
    ready future is read, which makes it invalid; otherwise the time is up *)
Definition awake (c : State) : option Z * State :=
  match futures c !! Future.shared (mPromise c) with
  | Some Value => (None, mk (mInstanceSpecifier c) (futures c) (mPromise c) false)
  | Some (Failure e) => (Some e, mk (mInstanceSpecifier c) (futures c) (mPromise c) false)
  | _ => (Some kCommunicationError, c)
  end.

End ExecutionClient.

(** ** Lemmas *)

Lemma Serialize_specifier id v :
  InstanceSpecifier.Serialize id v = v ++ integer_bytes (u32 (size id)) ++ id.
Proof. unfold InstanceSpecifier.Serialize, push_back, integer_bytes. by rewrite <- !app_assoc. Qed.

Lemma Serialize_state s v :
  FunctionGroupState.Serialize s v =
    v ++ integer_bytes (u32 (size (FunctionGroupState.mFunctionGroup s))) ++ FunctionGroupState.mFunctionGroup s ++
    integer_bytes (u32 (size (FunctionGroupState.mStateMetaModel s))) ++ FunctionGroupState.mStateMetaModel s.
Proof. unfold FunctionGroupState.Serialize. autorewrite with inject. by rewrite <- !app_assoc. Qed.

Lemma u64_id z : 0 <= z < 18446744073709551616 → u64 z = z.
Proof. ulia. Qed.

(** A serialised function group state is taken apart again. *)
Lemma handleSetState_serialized fg st s :
  8 + size fg + size st < 4294967296 →
  StateServer.handleSetState (FunctionGroupState.Serialize (FunctionGroupState.mk fg st) []) s =
    StateServer.setState fg st s.
Proof.
  intros Hs. pose proof (size_nonneg fg). pose proof (size_nonneg st).
  rewrite Serialize_state. cbn [FunctionGroupState.mFunctionGroup FunctionGroupState.mStateMetaModel app].
  rewrite (u32_id (size fg)), (u32_id (size st)) by ulia.
  set (v := integer_bytes _ ++ _).
  assert (Hv : holds v 0 v) by apply holds_self. unfold v in Hv at 2.
  apply holds_app in Hv as [H1 Hv]. apply holds_app in Hv as [H2 Hv]. apply holds_app in Hv as [H3 H4].
  rewrite size_integer_bytes in H2, H3. rewrite !size_integer_bytes in H4.
  assert (Hsz : size v = 8 + size fg + size st) by (unfold v; autorewrite with size; lia).
  unfold StateServer.handleSetState. rewrite (proj2 (Z.ltb_ge _ _)) by lia.
  run. rewrite (ExtractInteger_holds v 0 (size fg) ltac:(ulia) H1).
  rewrite (u64_id (0 + 4 + size fg)), (u64_id (0 + 4 + size fg + 4)) by lia. rewrite (proj2 (Z.ltb_ge _ _)) by lia.
  rewrite (range_holds _ (0 + 4) fg) by (try done; lia).
  rewrite (ExtractInteger_holds v (0 + 4 + size fg) (size st) ltac:(ulia) H3).
  rewrite (u64_id (0 + 4 + size fg + 4 + size st)) by lia. rewrite (proj2 (Z.ltb_ge _ _)) by lia.
  rewrite (range_holds v _ st (0 + 4 + size fg + 4 + size st) H4) by lia. done.
Qed.

(** The table of states that the server implements: what a request for a state answers
    and the table it leaves. *)
Definition set_spec (s : StateServer.State) (fg st : name) : content * gmap name name :=
  let current := StateServer.mCurrentStates s in
  if negb (bool_decide ((fg, st) ∈ StateServer.mFunctionGroupStates s)) then (Failure kInvalidTransition, current)
  else if StateServer.mMutex s then (Failure kGeneralError, current)
  else
    match current !! fg with
    | None => (Failure kInvalidTransition, current)
    | Some x => if bool_decide (x = st) then (Failure kAlreadyInState, current) else (Value, <[fg := st]> current)
    end.

(** The callbacks that run when the state of a group changes. *)
Definition notified (s : StateServer.State) (fg : name) (c : content) : list nat :=
  match c, StateServer.mNotifiers s !! fg with
  | Value, Some (Some n) => [n]
  | _, _ => []
  end.

Definition answer_of (c : content) : bool * bytes :=
  match c with
  | Failure e => (false, StateServer.injectErrorCode [] e)
  | _ => (true, [])
  end.

Definition callbacks_set (s : StateServer.State) : Prop :=
  map_Forall (fun _ c => is_Some c) (StateServer.mNotifiers s).

Lemma setState_spec s fg st :
  callbacks_set s →
  let (c, table) := set_spec s fg st in
  StateServer.setState fg st s =
    (Ok (answer_of c), StateServer.set_ran (StateServer.ran s ++ notified s fg c) (StateServer.set_current table s)).
Proof.
  intros Hcb. unfold set_spec, StateServer.setState, StateServer.refuse. run.
  assert (Hsame : ∀ e, (Ok (false, StateServer.injectErrorCode [] e), s) =
    (Ok (answer_of (Failure e)), StateServer.set_ran (StateServer.ran s ++ notified s fg (Failure e))
      (StateServer.set_current (StateServer.mCurrentStates s) s))).
  { intros e. unfold notified. rewrite app_nil_r. by destruct s. }
  destruct (negb _); [apply Hsame|]. destruct (StateServer.mMutex s); [apply Hsame|].
  destruct (_ !! fg) as [x|] eqn:Hx; [|apply Hsame]. destruct (bool_decide _); [apply Hsame|].
  unfold StateServer.notify, notified. cbn.
  destruct (StateServer.mNotifiers s !! fg) as [c|] eqn:Hc; cbn; [|by rewrite app_nil_r].
  destruct (Hcb _ _ Hc) as [n ->]. cbn. by rewrite insert_insert_eq.
Qed.

(** ** Lemmas: the state client *)

(** A promise and the future a client holds of it: unused, or used and known. *)
Definition slot_ok (future : option nat) (p : Future.promise) (st : Future.store) : Prop :=
  match future with
  | None => Future.retrieved p = false ∧ st !! Future.shared p = Some Pending
  | Some _ => is_Some (st !! Future.shared p)
  end.

Definition client_ok (c : StateClient.State) : Prop :=
  slot_ok (StateClient.mSetStateFuture c) (StateClient.mSetStatePromise c) (StateClient.futures c) ∧
  slot_ok (StateClient.mStateTransitionFuture c) (StateClient.mStateTransitionPromise c) (StateClient.futures c).

(** Cancelling gives an unused promise, and marks the one it replaces when it was
    pending. *)
Definition cancelled (c : content) : content := match c with Pending => Failure kCancelled | c => c end.

Lemma cancel_spec future p st :
  slot_ok future p st →
  ∃ p' st', StateClient.cancel future p st = Ok (p', st') ∧ Future.retrieved p' = false ∧
    st' !! Future.shared p' = Some Pending ∧
    match future with
    | None => p' = p ∧ st' = st
    | Some _ =>
        Future.shared p' = length st ∧
        ∃ x, st !! Future.shared p = Some x ∧ st' = <[Future.shared p := cancelled x]> st ++ [Pending]
    end.
Proof.
  unfold slot_ok, StateClient.cancel, Future.satisfy, Future.fresh.
  destruct future as [i|]; [intros [x Hx]|intros [Hr Hp]; by exists p, st].
  rewrite Hx. destruct x; cbn.
  - eexists _, _. split; [done|]. cbn. rewrite length_insert. split; [done|]. split; [|split; [done|by exists Pending]].
    rewrite lookup_app_r by (rewrite length_insert; lia). by rewrite length_insert, Nat.sub_diag.
  - eexists _, _. split; [done|]. cbn. split; [done|]. split.
    + rewrite lookup_app_r by lia. by rewrite Nat.sub_diag.
    + split; [done|]. exists Value. by rewrite list_insert_id.
  - eexists _, _. split; [done|]. cbn. split; [done|]. split.
    + rewrite lookup_app_r by lia. by rewrite Nat.sub_diag.
    + split; [done|]. exists (Failure errorCode). by rewrite list_insert_id.
Qed.

Lemma SetState_spec s cl c :
  slot_ok (StateClient.mSetStateFuture c) (StateClient.mSetStatePromise c) (StateClient.futures c) →
  let request := sent_request cl 3 1 4 (FunctionGroupState.Serialize s []) in
  ∃ id cl' c',
    StateClient.SetState s (cl, c) = (Ok (id, [SomeIpRpcMessage.Payload request]), (cl', c')) ∧
    RpcClient.mHandlers cl' = RpcClient.mHandlers cl ∧
    StateClient.mSetStatePromise c' = Future.mkPromise id true ∧
    StateClient.mSetStateFuture c' = Some id ∧
    StateClient.futures c' !! id = Some Pending ∧
    (∀ old, StateClient.mSetStateFuture c = Some old → Future.shared (StateClient.mSetStatePromise c) = old →
       id ≠ old ∧ ∃ x, StateClient.futures c !! old = Some x ∧ StateClient.futures c' !! old = Some (cancelled x)).
Proof.
  intros Hslot request. unfold StateClient.SetState.
  destruct (cancel_spec _ _ _ Hslot) as (p' & st' & -> & Hret & Hpend & Hold).
  unfold StateClient.getFuture. rewrite Hret.
  destruct (Send_sent 3 1 4 (FunctionGroupState.Serialize s []) cl) as (cl' & -> & Hh & _).
  cbn. eexists _, cl', _. split; [done|]. cbn. split; [done|]. split; [done|]. split; [done|]. split; [done|].
  intros old Hf Hsh. rewrite Hf in Hold. destruct Hold as (Hid & x & Hx & ->). subst old.
  assert (Hlt : (Future.shared (StateClient.mSetStatePromise c) < length (StateClient.futures c))%nat)
    by (by eapply lookup_lt_Some). split; [lia|]. exists x. split; [done|].
  rewrite lookup_app_l by (rewrite length_insert; lia). by apply list_lookup_insert_eq.
Qed.

Lemma ExtractInteger_outcome v off :
  is_bytes v → 0 <= off →
  (∃ z o, ExtractInteger v off = Ok (z, o)) ∨ ExtractInteger v off = Throw std_out_of_range.
Proof.
  intros Hv Ho. pose proof (ExtractInteger_spec v off Hv Ho) as H.
  destruct (_ <=? _); [destruct H as (z & -> & _); left; eauto|by right].
Qed.

(** What an answer's payload means to a client. *)
Definition meaning (payload : bytes) : content :=
  if bool_decide (payload = []) then Value
  else match ExtractInteger payload 0 with Ok (code, _) => Failure code | _ => Failure kCommunicationError end.

Lemma genericHandler_spec p m c :
  is_bytes (SomeIpRpcMessage.mRpcPayload m) →
  StateClient.genericHandler p m c =
    match StateClient.futures c !! Future.shared p with
    | Some Pending =>
        (Ok (), StateClient.set_futures
          (<[Future.shared p := meaning (SomeIpRpcMessage.mRpcPayload m)]> (StateClient.futures c)) c)
    | Some _ => (Throw std_future_error, c)
    | None => (Undefined, c)
    end.
Proof.
  intros Hb. unfold StateClient.genericHandler, meaning.
  destruct (bool_decide _).
  { unfold Future.satisfy. by destruct (_ !! _) as [[]|]. }
  unfold catch_out_of_range, StateClient.setPromiseException, Future.satisfy. run.
  destruct (ExtractInteger_outcome _ 0 Hb ltac:(lia)) as [(code & off & ->)| ->]; by destruct (_ !! _) as [[]|].
Qed.

Lemma is_bytes_state fg st :
  is_bytes fg → is_bytes st → is_bytes (FunctionGroupState.Serialize (FunctionGroupState.mk fg st) []).
Proof. intros. rewrite Serialize_state. cbn. is_bytes_tac. Qed.

Lemma size_state fg st : size (FunctionGroupState.Serialize (FunctionGroupState.mk fg st) []) = 8 + size fg + size st.
Proof. rewrite Serialize_state. cbn [FunctionGroupState.mFunctionGroup FunctionGroupState.mStateMetaModel]. autorewrite with size. lia. Qed.

Lemma meaning_answer c :
  c ≠ Pending → (∀ e, c = Failure e → is_u32 e) → meaning (snd (answer_of c)) = c ∧
  is_bytes (snd (answer_of c)) ∧ size (snd (answer_of c)) <= 4.
Proof.
  destruct c as [| |e]; intros H He; [done|by split_and!; [|apply is_bytes_nil|]|].
  specialize (He e eq_refl). unfold answer_of, StateServer.injectErrorCode. cbn [snd]. rewrite u32_id by done.
  autorewrite with inject. cbn [app]. split; [|split; [eauto with word|by rewrite size_integer_bytes]].
  unfold meaning. rewrite bool_decide_eq_false_2 by done.
  by rewrite (ExtractInteger_holds _ 0 e He (holds_self _)).
Qed.

Lemma set_spec_code s fg st e : fst (set_spec s fg st) = Failure e → is_u32 e.
Proof. unfold set_spec, is_u32. repeat case_match; cbn; intros; simplify_eq; unfold kInvalidTransition, kGeneralError, kAlreadyInState; lia. Qed.

Lemma set_spec_done s fg st : fst (set_spec s fg st) ≠ Pending.
Proof. unfold set_spec. by repeat case_match. Qed.

(** What the server makes of any vector of bytes: a refusal, or a request for a state. *)
Lemma handleSetState_cases req s :
  is_bytes req →
  (∃ e, StateServer.handleSetState req s = (Ok (false, StateServer.injectErrorCode [] e), s)) ∨
  (∃ fg st, StateServer.handleSetState req s = StateServer.setState fg st s).
Proof.
  intros Hb. unfold StateServer.handleSetState, StateServer.refuse.
  destruct (size req <? 8) eqn:H8; [left; by eexists|]. run.
  pose proof (ExtractInteger_spec req 0 Hb ltac:(lia)) as H. rewrite (proj2 (Z.leb_le _ _)) in H by lia.
  destruct H as (n & -> & Hn & _). rewrite !(u64_id (0 + 4 + n)), !(u64_id (0 + 4 + n + 4)) by ulia.
  destruct (size req <? 0 + 4 + n + 4) eqn:H2; [left; by eexists|].
  rewrite range_cases by ulia. rewrite !(proj2 (Z.leb_le _ _)) by ulia.
  pose proof (ExtractInteger_spec req (0 + 4 + n) Hb ltac:(ulia)) as H. rewrite (proj2 (Z.leb_le _ _)) in H by lia.
  destruct H as (k & -> & Hk & _). rewrite !(u64_id (0 + 4 + n + 4 + k)) by ulia.
  destruct (size req <? 0 + 4 + n + 4 + k) eqn:H3; [left; by eexists|].
  rewrite range_cases by ulia. rewrite !(proj2 (Z.leb_le _ _)) by ulia. right. by eexists _, _.
Qed.

(** A request of the state client that a server's handler answers makes the client's future
    ready with what was answered. *)
Lemma set_state_round {W} (srv : RpcServer.t W) (cl : RpcClient.t StateClient.State) (c : StateClient.State)
    (h : RpcServer.HandlerType W) (fg st : name) w w' res :
  rpc_client_ok cl → client_ok c →
  RpcServer.mProtocolVersion srv = RpcClient.mProtocolVersion cl →
  RpcServer.mInterfaceVersion srv = RpcClient.mInterfaceVersion cl →
  StateServer.cServiceId ∈ RpcServer.mServices srv →
  RpcServer.mHandlers srv !! message_id 3 1 = Some h →
  RpcClient.mHandlers cl !! message_id 3 1 = Some StateClient.setStateHandler →
  is_bytes fg → is_bytes st → 16 + size fg + size st < 4294967296 →
  h (FunctionGroupState.Serialize (FunctionGroupState.mk fg st) []) w = (Ok (fst (answer_of res), snd (answer_of res)), w') →
  res ≠ Pending → (∀ e, res = Failure e → is_u32 e) →
  ∃ id request response cl' c1 c2,
    StateClient.SetState (FunctionGroupState.mk fg st) (cl, c) = (Ok (id, [request]), (cl', c1)) ∧
    RpcServer.TryInvokeHandler srv request w = (Ok (Some response), w') ∧
    RpcClient.InvokeHandler cl' response c1 = (Ok (), c2) ∧
    StateClient.mSetStateFuture c2 = Some id ∧
    StateClient.futures c2 !! id = Some res.
Proof.
  intros Hcl Hc Hpv Hiv Hin Hsrv Hclh Hfg Hst Hsz Hreq Hdone Hcode.
  destruct (SetState_spec (FunctionGroupState.mk fg st) cl c (proj1 Hc)) as (id & cl' & c1 & HS & Hh & Hp & Hf & Hpend & _).
  pose proof (size_state fg st) as Hss. destruct (meaning_answer res Hdone Hcode) as (Hmean & Hpb & Hps).
  set (p := FunctionGroupState.Serialize (FunctionGroupState.mk fg st) []) in *.
  assert (Hpbytes : is_bytes p) by by apply is_bytes_state.
  eapply (request_answered srv cl 3 1 4 p) in Hreq; try done; [|lia].
  set (m := reply srv _ _ _) in Hreq.
  assert (Hwf : SomeIpRpcMessage.wf m).
  { destruct Hcl as (H1 & H2 & H3). apply reply_ok; try done; try lia; rewrite ?Hpv, ?Hiv; try done.
    by destruct (fst (answer_of res)). }
  eexists id, _, _, cl', c1, _. split; [exact HS|]. split; [exact Hreq|]. split; [|split].
  - rewrite (InvokeHandler_registered _ m StateClient.setStateHandler) by (try done; by rewrite Hh).
    unfold StateClient.setStateHandler. rewrite genericHandler_spec by apply Hpb.
    rewrite Hp. cbn [Future.shared]. rewrite Hpend. reflexivity.
  - done.
  - cbn. rewrite Hmean. apply list_lookup_insert_eq. by eapply lookup_lt_Some.
Qed.

(** What the state server's handler does with such a request. *)
Lemma handleSetState_request s fg st :
  callbacks_set s → is_bytes fg → is_bytes st → 16 + size fg + size st < 4294967296 →
  let (res, table) := set_spec s fg st in
  StateServer.handleSetState (FunctionGroupState.Serialize (FunctionGroupState.mk fg st) []) s =
    (Ok (fst (answer_of res), snd (answer_of res)),
     StateServer.set_ran (StateServer.ran s ++ notified s fg res) (StateServer.set_current table s)).
Proof.
  intros Hcb Hfg Hst Hsz. pose proof (setState_spec s fg st Hcb) as Hset. destruct (set_spec s fg st) as [res table].
  rewrite handleSetState_serialized, Hset by lia. by destruct (answer_of res).
Qed.

(** ** Properties *)

(** C9: a request of the state client ends as the server's table of states says: from any
    state of both, the request reaches the server over the RPC layers, the server's table
    changes as the table's specification says and its notifier runs exactly on a change,
    and the answer makes the client's future ready with the specified result. *)
Theorem set_state_end_to_end (srv : RpcServer.t StateServer.State) (cl : RpcClient.t StateClient.State)
    (s : StateServer.State) (c : StateClient.State) (fg st : name) :
  rpc_client_ok cl → client_ok c → callbacks_set s →
  RpcServer.mProtocolVersion srv = RpcClient.mProtocolVersion cl →
  RpcServer.mInterfaceVersion srv = RpcClient.mInterfaceVersion cl →
  StateServer.cServiceId ∈ RpcServer.mServices srv →
  RpcServer.mHandlers srv !! message_id 3 1 = Some StateServer.handleSetState →
  RpcClient.mHandlers cl !! message_id 3 1 = Some StateClient.setStateHandler →
  is_bytes fg → is_bytes st → 16 + size fg + size st < 4294967296 →
  ∃ id request response cl' c1 c2,
    StateClient.SetState (FunctionGroupState.mk fg st) (cl, c) = (Ok (id, [request]), (cl', c1)) ∧
    RpcServer.TryInvokeHandler srv request s =
      (Ok (Some response),
       StateServer.set_ran (StateServer.ran s ++ notified s fg (fst (set_spec s fg st)))
         (StateServer.set_current (snd (set_spec s fg st)) s)) ∧
    RpcClient.InvokeHandler cl' response c1 = (Ok (), c2) ∧
    StateClient.mSetStateFuture c2 = Some id ∧
    StateClient.futures c2 !! id = Some (fst (set_spec s fg st)).
Proof.
  intros Hcl Hc Hcb Hpv Hiv Hin Hsrv Hclh Hfg Hst Hsz.
  pose proof (handleSetState_request s fg st Hcb Hfg Hst Hsz) as Hreq.
  pose proof (set_spec_done s fg st) as Hdone. pose proof (set_spec_code s fg st) as Hcode.
  destruct (set_spec s fg st) as [res table]. by apply (set_state_round srv cl c StateServer.handleSetState fg st).
Qed.

(** What happens to a state server, with arbitrary requests. *)
Inductive server_event :=
  | SetStateRequest (payload : bytes)
  | TransitionRequest (payload : bytes)
  | NotifierSet (functionGroup : name) (c : callback)
  | MutexTaken (b : bool).

Definition server_step (e : server_event) : M StateServer.State () :=
  match e with
  | SetStateRequest p => _ ← StateServer.handleSetState p; mret ()
  | TransitionRequest p => _ ← StateServer.handleStateTransition p; mret ()
  | NotifierSet fg c => StateServer.SetNotifier fg c
  | MutexTaken b => modify (StateServer.set_mutex b)
  end.

(** Events whose payloads are bytes, each result defined, exceptions survived. *)
Definition event_bytes (e : server_event) : Prop :=
  match e with SetStateRequest p => is_bytes p | TransitionRequest p => is_bytes p | _ => True end.

Definition server_run (es : list server_event) (s : StateServer.State) : StateServer.State :=
  foldl (fun s e => snd (server_step e s)) s es.

(** Every group has a state, and every state is one declared for its group. *)
Definition states_declared (s : StateServer.State) : Prop :=
  (∀ fg st, StateServer.mCurrentStates s !! fg = Some st → (fg, st) ∈ StateServer.mFunctionGroupStates s) ∧
  (∀ fg st, (fg, st) ∈ StateServer.mFunctionGroupStates s → is_Some (StateServer.mCurrentStates s !! fg)).

Lemma setState_declared fg st s :
  states_declared s → states_declared (snd (StateServer.setState fg st s)).
Proof.
  intros [Hd Hs]. unfold StateServer.setState, StateServer.refuse. run.
  destruct (negb (bool_decide _)) eqn:Hin; [done|]. apply negb_false_iff, bool_decide_eq_true in Hin.
  destruct (StateServer.mMutex s); [done|]. destruct (_ !! fg); [|done]. destruct (bool_decide _); [done|].
  assert (Hnew : states_declared (StateServer.set_current (<[fg := st]> (StateServer.mCurrentStates s)) s)).
  { split; cbn; intros g x Hx.
    - apply lookup_insert_Some in Hx as [[<- <-]|[_ Hx]]; auto.
    - destruct (decide (fg = g)) as [<-|Hne]; [rewrite lookup_insert_eq; eauto|rewrite lookup_insert_ne; eauto]. }
  unfold StateServer.notify. destruct (_ !! fg) as [h|]; [|done].
  unfold Trigger.Write, call_back. destruct h; cbn; rewrite insert_insert_eq; exact Hnew.
Qed.

Lemma setState_defined fg st s : defined (fst (StateServer.setState fg st s)).
Proof.
  unfold StateServer.setState, StateServer.refuse. run. do 4 (case_match; [try done|try done]).
  unfold StateServer.notify, Trigger.Write, call_back. repeat case_match; simplify_eq/=; done.
Qed.

Lemma server_step_ok e s :
  event_bytes e → states_declared s →
  defined (fst (server_step e s)) ∧ states_declared (snd (server_step e s)).
Proof.
  intros He Hs. destruct e as [p|p|fg c|b]; cbn in He; unfold server_step.
  - run. destruct (handleSetState_cases p s He) as [(e & ->)|(fg & st & ->)]; [done|].
    pose proof (setState_declared fg st s Hs) as Hd. pose proof (setState_defined fg st s) as Hu.
    destruct (StateServer.setState fg st s) as [[] s']; done.
  - unfold StateServer.handleStateTransition, StateServer.refuse. run.
    destruct (negb _); [done|]. destruct (StateServer.mInitialized s); (split; [done|exact Hs]).
  - unfold StateServer.SetNotifier. destruct (_ !! fg); (split; [done|exact Hs]).
  - by split; [|exact Hs].
Qed.

(** C39: the state server is well typed for ever: a server whose configuration was accepted
    holds, after any sequence of requests - of any bytes -, notifiers and lock changes, a
    state for every function group, and only states declared for their group; and no
    request makes it read outside its payload. *)
Theorem states_stay_declared (functionGroupStates : gset (name * name)) (initialStates : gmap name name)
    (s : StateServer.State) (es : list server_event) :
  StateServer.construct functionGroupStates initialStates = Ok s → Forall event_bytes es →
  states_declared (server_run es s) ∧
  ∀ e, event_bytes e → defined (fst (server_step e (server_run es s))).
Proof.
  intros Hc Hes. assert (Hs : states_declared s).
  { revert Hc. unfold StateServer.construct. repeat case_match; intros; simplify_eq.
    repeat match goal with H : negb _ = false |- _ => apply negb_false_iff in H; rewrite forallb_forall in H end.
    split; cbn; intros fg st Hx.
    - apply elem_of_map_to_list, list_elem_of_In in Hx. apply H in Hx. by apply bool_decide_eq_true in Hx.
    - apply elem_of_elements, list_elem_of_In in Hx. apply H0 in Hx. by apply bool_decide_eq_true in Hx. }
  assert (Hrun : states_declared (server_run es s)).
  { clear Hc. revert s Hs. induction Hes as [|e es He _ IH]; intros s Hs; [done|]. cbn. apply IH. by apply server_step_ok. }
  split; [done|]. intros e He. by apply server_step_ok.
Qed.

(** A refusal of the RPC layer is taken for success: when the server rejects the
    request's versions, does not know the service or has no handler for the method, it
    answers with an error code and no payload, and the client's future becomes ready with
    the value of a successful transition, while no state has changed. *)
Theorem rpc_refusal_taken_for_success (srv : RpcServer.t StateServer.State) (cl : RpcClient.t StateClient.State)
    (s : StateServer.State) (c : StateClient.State) (fg st : name) :
  rpc_client_ok cl → client_ok c →
  is_u8 (RpcServer.mProtocolVersion srv) → is_u8 (RpcServer.mInterfaceVersion srv) →
  RpcClient.mHandlers cl !! message_id 3 1 = Some StateClient.setStateHandler →
  is_bytes fg → is_bytes st → 16 + size fg + size st < 4294967296 →
  (RpcServer.validate srv (sent_request cl 3 1 4 (FunctionGroupState.Serialize (FunctionGroupState.mk fg st) [])) ≠ eOK ∨
   RpcServer.mHandlers srv !! message_id 3 1 = None) →
  ∃ id request response cl' c1 c2,
    StateClient.SetState (FunctionGroupState.mk fg st) (cl, c) = (Ok (id, [request]), (cl', c1)) ∧
    RpcServer.TryInvokeHandler srv request s = (Ok (Some (SomeIpRpcMessage.Payload response)), s) ∧
    SomeIpMessage.mReturnCode (SomeIpRpcMessage.header response) ≠ eOK ∧
    RpcClient.InvokeHandler cl' (SomeIpRpcMessage.Payload response) c1 = (Ok (), c2) ∧
    StateClient.futures c2 !! id = Some Value.
Proof.
  intros Hcl Hc Hpv Hiv Hclh Hfg Hst Hsz Hbad.
  destruct (SetState_spec (FunctionGroupState.mk fg st) cl c (proj1 Hc)) as (id & cl' & c1 & HS & Hh & Hp & Hf & Hpend & _).
  pose proof (size_state fg st) as Hss.
  set (p := FunctionGroupState.Serialize (FunctionGroupState.mk fg st) []) in *.
  assert (Hpbytes : is_bytes p) by by apply is_bytes_state.
  set (m := sent_request cl 3 1 4 p) in *.
  assert (Hm : SomeIpRpcMessage.wf m) by (apply sent_request_wf; try done; lia).
  assert (Hans : ∃ rc, rc ≠ eOK ∧ is_u8 rc ∧
    RpcServer.TryInvokeHandler srv (SomeIpRpcMessage.Payload m) s = (Ok (Some (SomeIpRpcMessage.Payload (reply srv m rc []))), s)).
  { rewrite <- (app_nil_r (SomeIpRpcMessage.Payload m)), TryInvokeHandler_eq by done. cbv zeta.
    destruct (Z.eqb_spec (RpcServer.validate srv m) eOK) as [E|E]; cbn [negb].
    - destruct Hbad as [Hbad|Hbad]; [done|]. exists eUnknownMethod. split; [done|]. split; [by split|].
      change (SomeIpMessage.mMessageId (SomeIpRpcMessage.header m)) with (message_id 3 1).
      match goal with |- context [match ?o with Some _ => _ | None => _ end] => replace o with (@None (RpcServer.HandlerType StateServer.State)) by done end.
      done.
    - exists (RpcServer.validate srv m). split; [done|]. split; [apply validate_u8|]. done. }
  destruct Hans as (rc & Hrc & Hrcb & Hans).
  eexists id, _, (reply srv m rc []), cl', c1, _. split; [exact HS|]. split; [exact Hans|]. split; [done|].
  rewrite (InvokeHandler_registered _ _ StateClient.setStateHandler);
    [|apply reply_ok; try done; try lia; apply is_bytes_nil|by rewrite Hh].
  unfold StateClient.setStateHandler. rewrite genericHandler_spec by apply is_bytes_nil.
  rewrite Hp. cbn [Future.shared]. rewrite Hpend. split; [reflexivity|].
  cbn. apply list_lookup_insert_eq. by eapply lookup_lt_Some.
Qed.

(** Answers are not matched with requests: when a second state is requested while the
    first request is under way, the first future is cancelled, but the next answer that
    arrives - whatever session it answers - decides the second future, and the answer after
    it throws [std::future_error] out of the receiving thread. *)
Theorem answers_are_not_matched (cl : RpcClient.t StateClient.State) (c : StateClient.State)
    (a b : FunctionGroupState.t) (m1 m2 : SomeIpRpcMessage.t) :
  client_ok c → RpcClient.mHandlers cl !! message_id 3 1 = Some StateClient.setStateHandler →
  SomeIpRpcMessage.wf m1 → SomeIpRpcMessage.wf m2 →
  SomeIpMessage.mMessageId (SomeIpRpcMessage.header m1) = message_id 3 1 →
  SomeIpMessage.mMessageId (SomeIpRpcMessage.header m2) = message_id 3 1 →
  ∃ ida idb ra rb cl1 cl2 c1 c2 c3,
    StateClient.SetState a (cl, c) = (Ok (ida, ra), (cl1, c1)) ∧
    StateClient.SetState b (cl1, c1) = (Ok (idb, rb), (cl2, c2)) ∧
    StateClient.futures c2 !! ida = Some (Failure kCancelled) ∧
    RpcClient.InvokeHandler cl2 (SomeIpRpcMessage.Payload m1) c2 = (Ok (), c3) ∧
    StateClient.futures c3 !! idb = Some (meaning (SomeIpRpcMessage.mRpcPayload m1)) ∧
    RpcClient.InvokeHandler cl2 (SomeIpRpcMessage.Payload m2) c3 = (Throw std_future_error, c3).
Proof.
  intros Hc Hh Hm1 Hm2 Hi1 Hi2.
  destruct (SetState_spec a cl c (proj1 Hc)) as (ida & cl1 & c1 & HS1 & Hh1 & Hp1 & Hf1 & Hpend1 & _).
  assert (Hc1 : slot_ok (StateClient.mSetStateFuture c1) (StateClient.mSetStatePromise c1) (StateClient.futures c1))
    by (rewrite Hf1, Hp1; by eexists).
  destruct (SetState_spec b cl1 c1 Hc1) as (idb & cl2 & c2 & HS2 & Hh2 & Hp2 & Hf2 & Hpend2 & Hold).
  destruct (Hold ida Hf1) as (Hne & x & Hx & Hx2); [by rewrite Hp1|]. simplify_eq.
  assert (Hinv : ∀ m w, SomeIpRpcMessage.wf m → SomeIpMessage.mMessageId (SomeIpRpcMessage.header m) = message_id 3 1 →
    RpcClient.InvokeHandler cl2 (SomeIpRpcMessage.Payload m) w =
      match StateClient.setStateHandler m w with (Throw std_out_of_range, w') => (Ok (), w') | r => r end).
  { intros m w Hm Hi. apply InvokeHandler_registered; [done|]. by rewrite Hi, Hh2, Hh1. }
  eexists ida, idb, _, _, cl1, cl2, c1, c2, _. split; [exact HS1|]. split; [exact HS2|]. split; [exact Hx2|].
  rewrite !Hinv by done. unfold StateClient.setStateHandler.
  rewrite genericHandler_spec by apply Hm1. rewrite Hp2. cbn [Future.shared]. rewrite Hpend2.
  split; [reflexivity|].
  assert (Hnew : StateClient.futures (StateClient.set_futures
      (<[idb := meaning (SomeIpRpcMessage.mRpcPayload m1)]> (StateClient.futures c2)) c2) !! idb
    = Some (meaning (SomeIpRpcMessage.mRpcPayload m1)))
    by (cbn; apply list_lookup_insert_eq; by eapply lookup_lt_Some).
  split; [exact Hnew|]. rewrite genericHandler_spec by apply Hm2.
  unfold StateClient.set_futures at 1 in |- *. cbn [StateClient.mSetStatePromise]. rewrite Hp2. cbn [Future.shared].
  rewrite Hnew. unfold meaning. by repeat case_match.
Qed.

(** ** Reports of the execution state *)

Definition report_payload (id : name) : bytes := InstanceSpecifier.Serialize id [] ++ [ExecutionServer.kRunning].

(** A report is taken down once. *)
Definition report_spec (s : ExecutionServer.State) (id : name) : content * ExecutionServer.State :=
  if bool_decide (ExecutionServer.mExecutionStates s !! id = Some ExecutionServer.kRunning)
  then (Failure kAlreadyInState, s)
  else (Value, ExecutionServer.mk (<[id := ExecutionServer.kRunning]> (ExecutionServer.mExecutionStates s))).

Lemma size_report id : size (report_payload id) = 5 + size id.
Proof. unfold report_payload. rewrite Serialize_specifier. autorewrite with size. cbn. lia. Qed.

Lemma is_bytes_report id : is_bytes id → is_bytes (report_payload id).
Proof.
  intros. unfold report_payload. rewrite Serialize_specifier. cbn [app].
  is_bytes_tac.
Qed.

Lemma handleReport_serialized id s :
  size id < 4294967296 →
  ExecutionServer.handleExecutionStateReport (report_payload id) s =
    (Ok (answer_of (fst (report_spec s id))), snd (report_spec s id)).
Proof.
  intros Hs. pose proof (size_nonneg id). pose proof (size_report id) as Hsz.
  unfold ExecutionServer.handleExecutionStateReport, ExecutionServer.refuse. rewrite (proj2 (Z.ltb_ge _ _)) by lia.
  unfold report_payload in *. rewrite Serialize_specifier in *. cbn [app] in *.
  rewrite (u32_id (size id)) in * by ulia. rewrite <- app_assoc in *. set (v := integer_bytes _ ++ _) in *.
  assert (Hv : holds v 0 v) by apply holds_self. unfold v in Hv at 2.
  apply holds_app in Hv as [H1 Hv]. apply holds_app in Hv as [H2 H3]. rewrite size_integer_bytes in H2, H3.
  run. rewrite (ExtractInteger_holds v 0 (size id) ltac:(ulia) H1). rewrite !(u64_id (0 + 4 + size id)) by lia.
  rewrite (proj2 (Z.leb_gt _ _)) by lia. rewrite (at_holds _ _ _ H3). cbn [negb Z.eqb ExecutionServer.kRunning].
  rewrite (range_holds v _ id (0 + 4 + size id) H2) by lia. unfold report_spec.
  destruct (bool_decide _); [done|]. by destruct s.
Qed.

Lemma reportHandler_spec m c :
  is_bytes (SomeIpRpcMessage.mRpcPayload m) →
  ExecutionClient.reportExecutionStateHandler m c =
    match ExecutionClient.futures c !! Future.shared (ExecutionClient.mPromise c) with
    | Some Pending =>
        (Ok (), ExecutionClient.mk (ExecutionClient.mInstanceSpecifier c)
          (<[Future.shared (ExecutionClient.mPromise c) := meaning (SomeIpRpcMessage.mRpcPayload m)]> (ExecutionClient.futures c))
          (ExecutionClient.mPromise c) (ExecutionClient.mFuture c))
    | Some _ => (Throw std_future_error, c)
    | None => (Undefined, c)
    end.
Proof.
  intros Hb. unfold ExecutionClient.reportExecutionStateHandler, meaning.
  destruct (bool_decide _).
  { unfold ExecutionClient.set_content, Future.satisfy. by destruct (_ !! _) as [[]|]. }
  unfold catch_out_of_range, ExecutionClient.set_content, Future.satisfy. run.
  destruct (ExtractInteger_outcome _ 0 Hb ltac:(lia)) as [(code & off & ->)| ->]; by destruct (_ !! _) as [[]|].
Qed.

Lemma report_sends st cl c :
  ExecutionClient.mFuture c = false →
  let request := sent_request cl 1 1 2 (push_back (InstanceSpecifier.Serialize (ExecutionClient.mInstanceSpecifier c) []) (u8 st)) in
  ∃ cl1 c1,
    ExecutionClient.report st (cl, c) = (Ok (inr (SomeIpRpcMessage.Payload request)), (cl1, c1)) ∧
    RpcClient.mHandlers cl1 = RpcClient.mHandlers cl ∧ ExecutionClient.mFuture c1 = true ∧
    ExecutionClient.futures c1 !! Future.shared (ExecutionClient.mPromise c1) = Some Pending.
Proof.
  intros Hf request. unfold ExecutionClient.report. rewrite Hf. unfold Future.fresh.
  destruct (Send_sent 1 1 2 (push_back (InstanceSpecifier.Serialize (ExecutionClient.mInstanceSpecifier c) []) (u8 st)) cl)
    as (cl1 & -> & Hh & _).
  eexists _, _. split; [reflexivity|]. split; [done|]. split; [done|]. cbn.
  rewrite lookup_app_r by lia. by rewrite Nat.sub_diag.
Qed.

(** What a report returns for a result: no error, or its code. *)
Definition error_of (c : content) : option Z := match c with Failure e => Some e | _ => None end.

(** Answers that arrive while nobody waits; one that throws leaves the client as it is. *)
Definition deliver (ms : list SomeIpRpcMessage.t) (c : ExecutionClient.State) : ExecutionClient.State :=
  foldl (fun c m => snd (ExecutionClient.reportExecutionStateHandler m c)) c ms.

Lemma deliver_waits ms c :
  Forall (fun m => is_bytes (SomeIpRpcMessage.mRpcPayload m)) ms →
  ExecutionClient.mFuture (deliver ms c) = ExecutionClient.mFuture c.
Proof.
  intros H. revert c. induction H as [|m ms Hm _ IH]; intros c; [done|].
  change (deliver (m :: ms) c) with (deliver ms (snd (ExecutionClient.reportExecutionStateHandler m c))). rewrite IH.
  rewrite reportHandler_spec by done. by destruct (_ !! _) as [[]|].
Qed.

(** An application's report reaches execution management once: the report travels over
    both RPC layers, the server takes the state down if it did not know it already, and the
    client gets success or [kAlreadyInState] accordingly, after which it can report again. *)
Theorem report_end_to_end (srv : RpcServer.t ExecutionServer.State) (cl : RpcClient.t ExecutionClient.State)
    (s : ExecutionServer.State) (c : ExecutionClient.State) :
  let id := ExecutionClient.mInstanceSpecifier c in
  rpc_client_ok cl → ExecutionClient.mFuture c = false →
  RpcServer.mProtocolVersion srv = RpcClient.mProtocolVersion cl →
  RpcServer.mInterfaceVersion srv = RpcClient.mInterfaceVersion cl →
  1 ∈ RpcServer.mServices srv →
  RpcServer.mHandlers srv !! message_id 1 1 = Some ExecutionServer.handleExecutionStateReport →
  RpcClient.mHandlers cl !! message_id 1 1 = Some ExecutionClient.reportExecutionStateHandler →
  is_bytes id → 13 + size id < 4294967296 →
  ∃ request response cl' c1 c2 c3,
    ExecutionClient.report ExecutionServer.kRunning (cl, c) = (Ok (inr request), (cl', c1)) ∧
    RpcServer.TryInvokeHandler srv request s = (Ok (Some response), snd (report_spec s id)) ∧
    RpcClient.InvokeHandler cl' response c1 = (Ok (), c2) ∧
    ExecutionClient.awake c2 = (error_of (fst (report_spec s id)), c3) ∧
    ExecutionClient.mFuture c3 = false.
Proof.
  intros id Hcl Hfut Hpv Hiv Hin Hsrv Hclh Hid Hsz. pose proof (size_nonneg id).
  destruct (report_sends ExecutionServer.kRunning cl c Hfut) as (cl' & c1 & HS & Hh & Hf1 & Hpend).
  pose proof (handleReport_serialized id s ltac:(lia)) as Hrun. pose proof (size_report id) as Hss.
  assert (Hdone : fst (report_spec s id) ≠ Pending ∧ ∀ e, fst (report_spec s id) = Failure e → is_u32 e).
  { unfold report_spec. case_bool_decide; split; try done. intros e [= <-]. by split. }
  destruct (report_spec s id) as [res s']. cbn [fst snd] in *. destruct Hdone as [Hdone Hcode].
  destruct (meaning_answer res Hdone Hcode) as (Hmean & Hpb & Hps).
  fold id in HS. change (push_back (InstanceSpecifier.Serialize id []) (u8 ExecutionServer.kRunning)) with (report_payload id) in HS.
  assert (Hpbytes : is_bytes (report_payload id)) by by apply is_bytes_report.
  assert (Hreq : ExecutionServer.handleExecutionStateReport (report_payload id) s =
    (Ok (fst (answer_of res), snd (answer_of res)), s')) by (rewrite Hrun; by destruct (answer_of res)).
  eapply (request_answered srv cl 1 1 2) in Hreq; try done; [|lia].
  set (m := reply srv _ _ _) in Hreq.
  assert (Hwf : SomeIpRpcMessage.wf m).
  { destruct Hcl as (H1 & H2 & H3). apply reply_ok; try done; try lia; rewrite ?Hpv, ?Hiv; try done.
    by destruct (fst (answer_of res)). }
  eexists _, _, cl', c1, _, _. split; [exact HS|]. split; [exact Hreq|].
  rewrite (InvokeHandler_registered _ m ExecutionClient.reportExecutionStateHandler) by (try done; by rewrite Hh).
  rewrite reportHandler_spec by apply Hpb. rewrite Hpend. split; [reflexivity|].
  unfold ExecutionClient.awake. cbn [ExecutionClient.futures ExecutionClient.mPromise].
  rewrite list_lookup_insert_eq by (by eapply lookup_lt_Some).
  change (SomeIpRpcMessage.mRpcPayload m) with (snd (answer_of res)). rewrite Hmean.
  destruct res; [done| |]; (split; [reflexivity|done]).
Qed.

(** A report that times out is the last one: while no answer arrives the waiting report
    returns [kCommunicationError] and keeps its future, so that every later report returns
    [kFailed] at once, whatever answers come in afterwards; a report that is answered in
    time returns the answer's meaning and allows another one. *)
Theorem timed_out_report_is_the_last (cl : RpcClient.t ExecutionClient.State) (c : ExecutionClient.State) (st : Z) :
  ExecutionClient.mFuture c = false →
  ∃ request cl1 c1,
    ExecutionClient.report st (cl, c) = (Ok (inr request), (cl1, c1)) ∧
    ExecutionClient.awake c1 = (Some kCommunicationError, c1) ∧
    (∀ ms st' cl2, Forall (fun m => is_bytes (SomeIpRpcMessage.mRpcPayload m)) ms →
       ExecutionClient.report st' (cl2, deliver ms c1) = (Ok (inl kFailed), (cl2, deliver ms c1))) ∧
    (∀ m, is_bytes (SomeIpRpcMessage.mRpcPayload m) → ∃ c2,
       ExecutionClient.awake (deliver [m] c1) = (error_of (meaning (SomeIpRpcMessage.mRpcPayload m)), c2) ∧
       ExecutionClient.mFuture c2 = false).
Proof.
  intros Hf. destruct (report_sends st cl c Hf) as (cl1 & c1 & HS & _ & Hf1 & Hpend).
  eexists _, cl1, c1. split; [exact HS|]. split; [unfold ExecutionClient.awake; by rewrite Hpend|]. split.
  - intros ms st' cl2 Hms. unfold ExecutionClient.report. by rewrite deliver_waits, Hf1.
  - intros m Hm. cbn. rewrite reportHandler_spec, Hpend by done. unfold ExecutionClient.awake. cbn.
    rewrite list_lookup_insert_eq by (by eapply lookup_lt_Some).
    unfold meaning. repeat case_match; simplify_eq; by eexists.
Qed.

(** ** Witnesses *)

Definition demo_states : gset (name * name) := {[([77], [1]); ([77], [2])]}.
Definition demo_server : StateServer.State :=
  StateServer.mk demo_states {[[77] := Some 5%nat]} {[[77] := [1]]} false false [].
Definition demo_rpc_server : RpcServer.t StateServer.State := StateServer.register (RpcServer.construct 1 1).
Definition demo_rpc_client : RpcClient.t StateClient.State := StateClient.register (RpcClient.construct 1 1).

Lemma demo_rpc_client_ok : rpc_client_ok demo_rpc_client.
Proof. split; [by_eval|]. split; [by_eval|]. apply map_Forall_empty. Qed.

Lemma demo_client_ok : client_ok StateClient.construct.
Proof. by split. Qed.

Lemma demo_callbacks : callbacks_set demo_server.
Proof. apply map_Forall_singleton. by eexists. Qed.

Lemma set_state_end_to_end_witness :
  ∃ request response id c2, RpcServer.TryInvokeHandler demo_rpc_server request demo_server =
    (Ok (Some response), StateServer.mk demo_states {[[77] := Some 5%nat]} {[[77] := [2]]} false false [5%nat]) ∧
    StateClient.futures c2 !! id = Some Value.
Proof.
  destruct (set_state_end_to_end demo_rpc_server demo_rpc_client demo_server StateClient.construct [77] [2]
    demo_rpc_client_ok demo_client_ok demo_callbacks) as (id & request & response & cl' & c1 & c2 & _ & Hrun & _ & _ & Hf);
    try done; try by_eval.
  by exists request, response, id, c2.
Defined.

Lemma states_stay_declared_witness :
  states_declared (server_run [SetStateRequest [0; 0; 0; 1; 77; 0; 0; 0; 1; 2]; SetStateRequest [0; 0; 0; 9]]
    (StateServer.mk demo_states ∅ {[[77] := [1]]} false false [])).
Proof.
  apply (states_stay_declared demo_states {[[77] := [1]]} _
    [SetStateRequest [0; 0; 0; 1; 77; 0; 0; 0; 1; 2]; SetStateRequest [0; 0; 0; 9]]); [by vm_compute|].
  repeat (apply Forall_cons; split; [by_eval|]). apply Forall_nil_2.
Defined.

(** A server with another interface version. *)
Lemma rpc_refusal_taken_for_success_witness :
  ∃ request response id c2,
    RpcServer.TryInvokeHandler (StateServer.register (RpcServer.construct 1 2)) request demo_server =
      (Ok (Some (SomeIpRpcMessage.Payload response)), demo_server) ∧
    StateClient.futures c2 !! id = Some Value.
Proof.
  destruct (rpc_refusal_taken_for_success (StateServer.register (RpcServer.construct 1 2)) demo_rpc_client demo_server
    StateClient.construct [77] [2] demo_rpc_client_ok demo_client_ok)
    as (id & request & response & cl' & c1 & c2 & _ & Hrun & _ & _ & Hf); try done; try by_eval.
  by exists request, response, id, c2.
Defined.

Definition demo_answer (session : Z) : SomeIpRpcMessage.t :=
  SomeIpRpcMessage.mk (SomeIpMessage.mk (message_id 3 1) 4 session 1 1 Response eOK) [].

Lemma answers_are_not_matched_witness :
  ∃ (cl2 : RpcClient.t StateClient.State) c3, RpcClient.InvokeHandler cl2 (SomeIpRpcMessage.Payload (demo_answer 2)) c3 =
    (@Throw () std_future_error, c3).
Proof.
  destruct (answers_are_not_matched demo_rpc_client StateClient.construct (FunctionGroupState.mk [77] [1])
    (FunctionGroupState.mk [77] [2]) (demo_answer 1) (demo_answer 2) demo_client_ok)
    as (ida & idb & ra & rb & cl1 & cl2 & c1 & c2 & c3 & _ & _ & _ & _ & _ & H); try done; try by_eval.
  by exists cl2, c3.
Defined.

Definition demo_reporter : ExecutionClient.State :=
  ExecutionClient.mk [65; 66] [Pending] (Future.mkPromise 0 false) false.

Lemma report_end_to_end_witness :
  ∃ request response, RpcServer.TryInvokeHandler (ExecutionServer.register (RpcServer.construct 1 1)) request
      (ExecutionServer.mk ∅) = (Ok (Some response), ExecutionServer.mk {[[65; 66] := 0]}).
Proof.
  destruct (report_end_to_end (ExecutionServer.register (RpcServer.construct 1 1))
    (ExecutionClient.register (RpcClient.construct 1 1)) (ExecutionServer.mk ∅) demo_reporter)
    as (request & response & cl' & c1 & c2 & c3 & _ & H & _); try done; try by_eval.
  exists request, response. exact H.
Defined.

Lemma timed_out_report_is_the_last_witness :
  ∃ c1, ExecutionClient.report 0 (RpcClient.construct 1 1, deliver [] c1) =
    (Ok (inl kFailed), (RpcClient.construct 1 1, deliver [] c1)).
Proof.
  destruct (timed_out_report_is_the_last (RpcClient.construct 1 1) demo_reporter 0 eq_refl)
    as (request & cl1 & c1 & _ & _ & H & _).
  exists c1. apply H. apply Forall_nil_2.
Defined.
