(* ===== verification/Triggers.v ===== *)
(** * State triggers and communication groups: ara/sm, ara/com/cg

    A trigger writes into a state that it refers to and calls its handler; a notifier
    tells the same state to its subscribers.  [TriggerInOut] holds both for one state, and
    the usual handler of its trigger notifies (trigger_inout_test.cpp).  Handlers are any
    code: here they are programs of [command]s on the same object, so that a subscriber can
    write, notify and subscribe again while it is being notified.  The fuel of
    [TriggerInOut.perform] is the depth of the call stack.

    The theorems: in which order subscribers hear the states when one of them corrects what
    was written, that corrections without an end overflow the stack, and that subscribing
    from a notification is undefined.  The communication group pair is at the end; the
    functions that the headers only declare are not modelled. *)
From stdpp Require Import base list.
From S2P Require Import Prelude.
#[local] Open Scope Z_scope.

(** What a handler does with the object: [CWrite] through GetTrigger(), [CNotify] and
    [CSubscribe] through GetNotifier().  A subscriber has a number, under which what it hears
    is recorded; [None] is an empty std::function. *)
Inductive command (T : Type) : Type :=
  | CWrite (state : T)
  | CNotify
  | CSubscribe (handler : option (nat * (T → list (command T)))).
Arguments CWrite {T} state.
Arguments CNotify {T}.
Arguments CSubscribe {T} handler.

(** [ara/sm/notifier.h:12-14] NotificationHandler *)
Definition NotificationHandler (T : Type) : Type := option (nat * (T → list (command T))).

(** [ara/sm/trigger.h:10-11] TriggerHandler *)
Definition TriggerHandler (T : Type) : Type := option (list (command T)).

Section object.
Context {T : Type}.

(** [ara/sm/notifier.h:19-23] Notifier: the state it refers to (the trigger refers to the
    same one), its subscribers, and what they heard so far *)
Record State := mk {
  mState : T;
  mSubsribers : list (NotificationHandler T);
  heard : list (nat * T)
}.

Definition set_state (v : T) (s : State) : State := mk v (mSubsribers s) (heard s).
Definition set_subscribers l (s : State) : State := mk (mState s) l (heard s).
Definition hear (n : nat) (v : T) (s : State) : State := mk (mState s) (mSubsribers s) (heard s ++ [(n, v)]).

End object.
Arguments State T : clear implicits.

(** ** ara/sm/notifier.h *)
Module Notifier.
Section notifier.
Context {T : Type}.

(** [ara/sm/notifier.h:26-30] Notifier *)
Definition construct (state : T) : State T := mk state [] [].

(** [ara/sm/notifier.h:39-44] Read *)
Definition Read : M (State T) T := s ← get; mret (mState s).

(** [ara/sm/notifier.h:46-51] Subscribe *)
Definition Subscribe (handler : NotificationHandler T) : M (State T) () :=
  modify (fun s => set_subscribers (mSubsribers s ++ [handler]) s).

(** [ara/sm/notifier.h:57-60] Notify: the loop, with [last] subscribers when it began.  The
    iterators of a vector that has grown since may not be compared. *)
Fixpoint notify_loop (call : NotificationHandler T → T → M (State T) ()) (last i rest : nat) : M (State T) () :=
  s ← get;
  if negb (length (mSubsribers s) =? last)%nat then lift Undefined
  else match rest with
       | O => mret ()
       | S rest =>
           match mSubsribers s !! i with
           | Some subscriber => call subscriber (mState s) ;; notify_loop call last (S i) rest
           | None => lift Undefined
           end
       end.

(** [ara/sm/notifier.h:53-61] Notify *)
Definition Notify (call : NotificationHandler T → T → M (State T) ()) : M (State T) () :=
  s ← get; notify_loop call (length (mSubsribers s)) 0 (length (mSubsribers s)).

End notifier.
End Notifier.

(** ** ara/sm/trigger_in.h, trigger_out.h, trigger_inout.h *)
Module TriggerInOut.
Section trigger.
Context {T : Type}.
(** mTrigger's handler (trigger_inout.h); its state is the notifier's. *)
Variable mHandler : TriggerHandler T.

(** [ara/sm/trigger.h:40-44] Write, with the call of mHandler as [call] *)
Definition Write (call : list (command T) → M (State T) ()) (state : T) : M (State T) () :=
  modify (set_state state) ;;
  match mHandler with
  | Some program => call program
  | None => raise std_bad_function_call
  end.

(** The call of a subscriber with the state. *)
Definition tell (call : list (command T) → M (State T) ()) (subscriber : NotificationHandler T) (state : T) :
    M (State T) () :=
  match subscriber with
  | Some (n, react) => modify (hear n state) ;; call (react state)
  | None => raise std_bad_function_call
  end.

(** [ara/sm/trigger_inout.h:36-48] GetTrigger and GetNotifier, with the method that is called
    on the result *)
Definition step (call : list (command T) → M (State T) ()) (c : command T) : M (State T) () :=
  match c with
  | CWrite state => Write call state
  | CNotify => Notifier.Notify (tell call)
  | CSubscribe handler => Notifier.Subscribe handler
  end.

Fixpoint sequence (f : command T → M (State T) ()) (program : list (command T)) : M (State T) () :=
  match program with
  | [] => mret ()
  | c :: program => f c ;; sequence f program
  end.

(** A program, calls nested at most [depth] deep. *)
Fixpoint perform (depth : nat) (program : list (command T)) : M (State T) () :=
  match depth with
  | O => lift OutOfFuel
  | S depth => sequence (step (perform depth)) program
  end.

End trigger.
End TriggerInOut.

(** ** Facts *)
Section facts.
Context {T : Type}.
Implicit Types (s : State T) (v : T) (vs : list T) (f : T → option T).

(** A subscriber that only listens. *)
Definition listener (n : nat) : NotificationHandler T := Some (n, fun _ => []).

(** A subscriber that writes another state when it hears one that it does not accept. *)
Definition corrector (n : nat) (f : T → option T) : NotificationHandler T :=
  Some (n, fun v => match f v with Some v' => [CWrite v'] | None => [] end).

(** Every write is told to the subscribers. *)
Definition notifying : TriggerHandler T := Some [CNotify].

(** [vs] are the states written from [v] on, until the corrector accepts one. *)
Fixpoint settles (f : T → option T) (v : T) (vs : list T) : Prop :=
  match vs with
  | [] => f v = None
  | v' :: vs => f v = Some v' ∧ settles f v' vs
  end.

Definition hear_all (ns : list nat) (v : T) : list (nat * T) := map (fun n => (n, v)) ns.

(** One round of the loop, while no one has subscribed. *)
Lemma notify_loop_S (call : NotificationHandler T → T → M (State T) ()) i rest s h :
  mSubsribers s !! i = Some h →
  Notifier.notify_loop call (length (mSubsribers s)) i (S rest) s =
  (call h (mState s) ;; Notifier.notify_loop call (length (mSubsribers s)) (S i) rest) s.
Proof. intros Hi. cbn. run. rewrite Nat.eqb_refl, Hi. done. Qed.

Lemma notify_loop_O (call : NotificationHandler T → T → M (State T) ()) i s :
  Notifier.notify_loop call (length (mSubsribers s)) i 0 s = (Ok (), s).
Proof. cbn. run. rewrite Nat.eqb_refl. done. Qed.

Lemma listener_told mHandler depth n v s :
  TriggerInOut.tell (TriggerInOut.perform mHandler (S depth)) (listener n) v s = (Ok (), hear n v s).
Proof. done. Qed.

Lemma perform_nil mHandler depth s : TriggerInOut.perform mHandler (S depth) [] s = (Ok (), s).
Proof. done. Qed.

Lemma corrector_told mHandler depth n f v s :
  TriggerInOut.tell (TriggerInOut.perform mHandler depth) (corrector n f) v s =
  TriggerInOut.perform mHandler depth (match f v with Some v' => [CWrite v'] | None => [] end) (hear n v s).
Proof. done. Qed.

(** Listeners, wherever they stand among the subscribers, hear the state in their order. *)
Lemma listeners_told mHandler depth ns pre post rest s :
  mSubsribers s = pre ++ map listener ns ++ post →
  Notifier.notify_loop (TriggerInOut.tell (TriggerInOut.perform mHandler (S depth)))
    (length (mSubsribers s)) (length pre) (length ns + rest) s =
  Notifier.notify_loop (TriggerInOut.tell (TriggerInOut.perform mHandler (S depth)))
    (length (mSubsribers s)) (length (pre ++ map listener ns)) rest
    (mk (mState s) (mSubsribers s) (heard s ++ hear_all ns (mState s))).
Proof.
  revert pre s. induction ns as [|n ns IH]; intros pre s Hs; cbn [map length Nat.add app hear_all].
  - rewrite !app_nil_r. destruct s; done.
  - rewrite (notify_loop_S _ _ _ _ (listener n)) by (rewrite Hs; by apply list_lookup_middle).
    unfold mbind, M_bind at 1. rewrite listener_told.
    specialize (IH (pre ++ [listener n]) (hear n (mState s) s)).
    cbn [mSubsribers hear mState heard] in IH. rewrite length_app in IH. cbn [length] in IH.
    rewrite Nat.add_1_r in IH. rewrite IH by (rewrite Hs, <- !app_assoc; done).
    rewrite <- !app_assoc. done.
Qed.

(** A notification of listeners. *)
Lemma Notify_listeners mHandler depth ns s :
  mSubsribers s = map listener ns →
  Notifier.Notify (TriggerInOut.tell (TriggerInOut.perform mHandler (S depth))) s =
  (Ok (), mk (mState s) (mSubsribers s) (heard s ++ hear_all ns (mState s))).
Proof.
  intros Hs. unfold Notifier.Notify. run.
  pose proof (listeners_told mHandler depth ns [] [] 0 s) as H.
  rewrite app_nil_r, Nat.add_0_r in H. cbn [app length] in H.
  replace (length (mSubsribers s)) with (length ns) at 2 by (rewrite Hs, length_map; done).
  rewrite H by done. rewrite (notify_loop_O _ _ (mk _ (mSubsribers s) _)). done.
Qed.

(** What is heard while the states [v :: vs] are written one inside the other, with
    listeners [pre] before and [post] behind the corrector [n]. *)
Definition corrections (pre : list nat) (n : nat) (post : list nat) (v : T) (vs : list T) : list (nat * T) :=
  flat_map (fun v => hear_all pre v ++ [(n, v)]) (v :: vs)
  ++ concat (repeat (hear_all post (List.last vs v)) (S (length vs))).

Lemma last_cons v v' vs : List.last (v' :: vs) v = List.last vs v'.
Proof. revert v v'. induction vs as [|w vs IH]; intros v v'; [done|]. change (List.last (w :: vs) v = List.last (w :: vs) v'). by rewrite !IH. Qed.

Lemma corrections_cons pre n post v v' vs :
  corrections pre n post v (v' :: vs) =
  hear_all pre v ++ [(n, v)] ++ corrections pre n post v' vs ++ hear_all post (List.last vs v').
Proof.
  unfold corrections. rewrite last_cons. cbn [flat_map length].
  set (last := hear_all post _).
  replace (repeat last (S (S (length vs)))) with (repeat last (S (length vs)) ++ [last])
    by (symmetry; apply repeat_cons).
  rewrite concat_app. cbn [concat]. rewrite app_nil_r.
  rewrite <- !app_assoc. done.
Qed.

(** A write from outside or from a handler, up to the subscribers' loop. *)
Lemma perform_write depth v s :
  TriggerInOut.perform notifying (S (S depth)) [CWrite v] s =
  Notifier.notify_loop (TriggerInOut.tell (TriggerInOut.perform notifying depth))
    (length (mSubsribers s)) 0 (length (mSubsribers s)) (set_state v s).
Proof.
  cbn [TriggerInOut.perform TriggerInOut.sequence TriggerInOut.step]. unfold TriggerInOut.Write. run.
  cbn [notifying TriggerInOut.sequence TriggerInOut.step]. unfold Notifier.Notify. run.
  cbn [mSubsribers set_state].
  set (r := Notifier.notify_loop _ _ _ _ _). destruct r as [[[]| | |] ?]; done.
Qed.

(** Listeners in front of another subscriber [h], from the beginning of the loop. *)
Lemma before_it mHandler depth ns h post s :
  mSubsribers s = map listener ns ++ h :: post →
  Notifier.notify_loop (TriggerInOut.tell (TriggerInOut.perform mHandler (S depth)))
    (length (mSubsribers s)) 0 (length (mSubsribers s)) s =
  (TriggerInOut.tell (TriggerInOut.perform mHandler (S depth)) h (mState s) ;;
   Notifier.notify_loop (TriggerInOut.tell (TriggerInOut.perform mHandler (S depth)))
     (length (mSubsribers s)) (S (length ns)) (length post))
    (mk (mState s) (mSubsribers s) (heard s ++ hear_all ns (mState s))).
Proof.
  intros Hs. pose proof (listeners_told mHandler depth ns [] (h :: post) (S (length post)) s Hs) as H.
  cbn [app length] in H. rewrite length_map in H.
  replace (length ns + S (length post))%nat with (length (mSubsribers s)) in H
    by (rewrite Hs, length_app, length_map; done).
  rewrite H. apply (notify_loop_S _ _ _ (mk (mState s) (mSubsribers s) (heard s ++ _))).
  cbn [mSubsribers]. rewrite Hs. apply list_lookup_middle. by rewrite length_map.
Qed.

(** Listeners at the end. *)
Lemma behind_it mHandler depth pre h ns v subscribers l :
  subscribers = map listener pre ++ h :: map listener ns →
  Notifier.notify_loop (TriggerInOut.tell (TriggerInOut.perform mHandler (S depth)))
    (length subscribers) (S (length pre)) (length ns) (mk v subscribers l) =
  (Ok (), mk v subscribers (l ++ hear_all ns v)).
Proof.
  intros Hs.
  pose proof (listeners_told mHandler depth ns (map listener pre ++ [h]) [] 0 (mk v subscribers l)) as H.
  cbn [mState mSubsribers heard] in H.
  rewrite app_nil_r, Nat.add_0_r, length_app, length_map, Nat.add_comm in H. cbn [length Nat.add] in H.
  rewrite H by (rewrite Hs, <- app_assoc; done).
  apply (notify_loop_O _ _ (mk _ subscribers _)).
Qed.

(** A subscriber that corrects the state that it hears, by writing through the trigger
    while it is being notified, decides the state in the end; the call returns as soon as
    the stack holds two frames per correction; the listeners before it hear every state
    that was written, in order, and the listeners behind it hear only the final one, once
    for each write. *)
Theorem corrections_reach_everyone f pre n post v vs depth s :
  mSubsribers s = map listener pre ++ corrector n f :: map listener post →
  settles f v vs → (2 * length vs + 3 <= depth)%nat →
  TriggerInOut.perform notifying depth [CWrite v] s =
  (Ok (), mk (List.last vs v) (mSubsribers s) (heard s ++ corrections pre n post v vs)).
Proof.
  revert v depth s. induction vs as [|v' vs IH]; intros v depth s Hs Hf Hd;
    destruct depth as [|[|[|depth]]]; cbn [length] in Hd; try lia.
  - rewrite perform_write, (before_it _ _ _ (corrector n f) (map listener post) (set_state v s)) by done.
    cbn [set_state mState mSubsribers heard]. cbn in Hf.
    run. rewrite corrector_told, Hf, perform_nil. run. rewrite length_map.
    unfold hear. cbn [mState mSubsribers heard]. rewrite (behind_it _ _ _ (corrector n f) post) by done.
    unfold corrections.
    cbn [flat_map length repeat concat List.last]. rewrite <- !app_assoc. cbn [app]. rewrite app_nil_r. done.
  - destruct Hf as [Hv Hf].
    rewrite perform_write, (before_it _ _ _ (corrector n f) (map listener post) (set_state v s)) by done.
    cbn [set_state mState mSubsribers heard].
    run. rewrite corrector_told, Hv.
    rewrite (IH v' (S depth) (hear n v (mk v (mSubsribers s) (heard s ++ hear_all pre v)))) by (done || lia).
    rewrite length_map. cbn [hear mState mSubsribers heard].
    rewrite (behind_it _ _ _ (corrector n f) post) by done.
    rewrite last_cons, corrections_cons, <- !app_assoc. done.
Qed.

(** A subscriber that never accepts: the nested calls have no end, whatever the stack. *)
Theorem endless_corrections f pre n post v depth s :
  mSubsribers s = map listener pre ++ corrector n f :: map listener post →
  (∀ v, is_Some (f v)) →
  fst (TriggerInOut.perform notifying depth [CWrite v] s) = OutOfFuel.
Proof.
  revert v s. induction depth as [depth IH] using lt_wf_ind. intros v s Hs Hf.
  destruct depth as [|[|[|depth]]]; [done|done| |].
  - rewrite perform_write, Hs. destruct pre as [|p pre]; [destruct (Hf v) as [? Hv]|];
      cbn [map app length Notifier.notify_loop]; run; cbn [set_state mSubsribers]; rewrite Hs;
      cbn [map app length list_lookup lookup mState]; rewrite Nat.eqb_refl; done.
  - rewrite perform_write, (before_it _ _ _ (corrector n f) (map listener post) (set_state v s)) by done.
    cbn [set_state mState mSubsribers heard]. destruct (Hf v) as [v' Hv]. run. rewrite corrector_told, Hv.
    specialize (IH (S depth) ltac:(lia) v' (hear n v (mk v (mSubsribers s) (heard s ++ hear_all pre v))) Hs Hf).
    destruct (TriggerInOut.perform _ _ _ _) as [[]?]; done.
Qed.

(** A subscriber that subscribes another one while it is being notified: the vector that
    the loop iterates over has grown. *)
Theorem subscribing_while_notified pre n h post v depth s :
  mSubsribers s = map listener pre ++ Some (n, fun _ => [CSubscribe h]) :: post →
  fst (TriggerInOut.perform notifying (S (S (S depth))) [CWrite v] s) = Undefined.
Proof.
  intros Hs. rewrite perform_write, (before_it _ _ _ (Some (n, fun _ => [CSubscribe h])) post (set_state v s)) by done.
  cbn [set_state mState mSubsribers heard TriggerInOut.tell]. run.
  cbn [TriggerInOut.perform TriggerInOut.sequence TriggerInOut.step].
  unfold Notifier.Subscribe. run. unfold hear, set_subscribers. cbn [mState mSubsribers heard].
  assert (Hn : ∀ rest i, Notifier.notify_loop
    (TriggerInOut.tell (TriggerInOut.perform notifying (S depth))) (length (mSubsribers s)) i rest
    (mk v (mSubsribers s ++ [h]) ((heard s ++ hear_all pre v) ++ [(n, v)])) =
    (Undefined, mk v (mSubsribers s ++ [h]) ((heard s ++ hear_all pre v) ++ [(n, v)]))).
  { intros rest i. destruct rest; cbn [Notifier.notify_loop]; run; cbn [mSubsribers];
      rewrite length_app, (proj2 (Nat.eqb_neq _ _)) by (cbn; lia); done. }
  exact (f_equal fst (Hn _ _)).
Qed.

(** Without a handler the state is written all the same. *)
Theorem write_without_handler v depth s :
  TriggerInOut.perform None (S depth) [CWrite v] s = (Throw std_bad_function_call, set_state v s).
Proof. done. Qed.

End facts.

(** A door that does not accept state 3 before 2 was set, heard by a listener on each side. *)
Lemma corrections_reach_everyone_witness :
  fst (TriggerInOut.perform notifying 5 [CWrite 3%Z] (mk 0%Z [listener 1; corrector 2 (fun v => if v =? 3 then Some 2 else None); listener 4] []))
  = Ok () ∧
  heard (snd (TriggerInOut.perform notifying 5 [CWrite 3%Z] (mk 0%Z [listener 1; corrector 2 (fun v => if v =? 3 then Some 2 else None); listener 4] [])))
  = [(1%nat, 3); (2%nat, 3); (1%nat, 2); (2%nat, 2); (4%nat, 2); (4%nat, 2)].
Proof.
  rewrite (corrections_reach_everyone (fun v => if v =? 3 then Some 2 else None) [1%nat] 2 [4%nat] 3 [2] 5
    (mk 0%Z [listener 1; corrector 2 (fun v => if v =? 3 then Some 2 else None); listener 4] [])
    eq_refl (conj eq_refl eq_refl) (le_n 5)).
  done.
Defined.

(** ** Communication groups *)

(** [ara/sm/power_mode.h:8-14] PowerModeMsg *)
Inductive PowerModeMsg := kOn | kOff | kSuspend.

(** [ara/sm/power_mode.h:16-23] PowerModeRespMsg *)
Inductive PowerModeRespMsg := kDone | kFailed | kBusy | kNotSupported.

Module CommunicationGroupServer.
(** [ara/com/cg/communication_group_server.h:51-57] Response: [handler] is mResponseHandler *)
Definition Response {R S : Type} (handler : option (Z → R → M S ())) (clientID : Z) (responseMsg : R) : M S () :=
  match handler with
  | Some handle => handle clientID responseMsg
  | None => raise std_bad_function_call
  end.
End CommunicationGroupServer.

Module CommunicationGroupClient.
(** [ara/com/cg/communication_group_client.h:37-42] Message: [handler] is mRequestHandler *)
Definition Message {T S : Type} (handler : option (T → M S ())) (msg : T) : M S () :=
  match handler with
  | Some handle => handle msg
  | None => raise std_bad_function_call
  end.
End CommunicationGroupClient.

(** The pair with handlers that call each other directly: each request of the power mode is
    answered once, under the client's identifier. *)
Lemma request_response_chain (decide : PowerModeMsg → PowerModeRespMsg) clientID requests answers :
  foldr (fun msg rest => CommunicationGroupClient.Message
           (Some (fun msg => CommunicationGroupServer.Response
              (Some (fun id response => modify (fun l => l ++ [(id, response)]))) clientID (decide msg))) msg ;; rest)
    (mret ()) requests answers = (Ok (), answers ++ map (fun msg => (clientID, decide msg)) requests).
Proof.
  revert answers. induction requests as [|msg requests IH]; intros answers; cbn [foldr map].
  - by rewrite app_nil_r.
  - cbn [CommunicationGroupClient.Message CommunicationGroupServer.Response]. run. rewrite IH, <- app_assoc. done.
Qed.
