(* ===== verification/Platform.v ===== *)
(** * Execution and state management: application/platform, ara/exec/helper/modelled_process.cpp

    Execution management keeps the machine's processes: it starts what the manifest asks for
    when the machine's state changes, reaps children that ended and terminates all of them at
    the end.  State management asks it for the start-up state.  The operating system is the
    table of this process's children: which run, which ended and wait to be reaped.  The
    theorems: a start-up request, through both RPC layers, ends with exactly the processes
    running that the manifest lists for the state; terminating ends, and leaves no child
    behind; a child that is reaped while it is being recorded is signalled for ever after. *)

From S2P Require Import Prelude Texts Payload SomeIp Rpc Exec.
#[local] Open Scope Z_scope.
#[local] Existing Instance Future.content_eq_dec.

(** ** The operating system *)

(** How a child ended. *)
Inductive Wait := Exited (code : Z) | Signaled (signal : Z).

(** The children of this process: the running ones with their argument vectors, the ended
    ones that are still to be waited for, in the order in which they ended; and the signals
    that were sent. *)
Record Os := mkOs {
  running : gmap Z (list name);
  zombies : list (Z * Wait);
  signals : list (Z * Z)
}.

Definition is_child (os : Os) (pid : Z) : Prop := is_Some (running os !! pid) ∨ pid ∈ (zombies os).*1.

(** A child ends by itself, or by a signal it does not ignore. *)
Definition ends (pid : Z) (how : Wait) (os : Os) : Os :=
  match running os !! pid with
  | Some _ => mkOs (delete pid (running os)) (zombies os ++ [(pid, how)]) (signals os)
  | None => os
  end.

Definition end_all (ended : list (Z * Wait)) (os : Os) : Os := foldl (fun os '(pid, how) => ends pid how os) os ended.

(** [kill]: what SIGTERM leads to is up to the process; SIGKILL cannot be ignored. *)
Definition SIGTERM : Z := 15.
Definition SIGKILL : Z := 9.
Definition kill (pid signal : Z) (os : Os) : Os :=
  let os := mkOs (running os) (zombies os) (signals os ++ [(pid, signal)]) in
  if signal =? SIGKILL then ends pid (Signaled SIGKILL) os else os.

(** [waitpid] for one child that has ended, or that is no child. *)
Definition wait_for (pid : Z) (os : Os) : Os :=
  mkOs (running os) (filter (fun z => z.1 ≠ pid) (zombies os)) (signals os).

(** [fork]: none on failure, else the identifier of no child that is there. *)
Class Kernel := {
  fork : Os → option Z;
  fork_fresh os pid : fork os = Some pid → 0 < pid ∧ ¬ is_child os pid
}.

(** ** The process manager *)
Module ProcessManager.

(** [application/platform/process_manager.h:38-38] mChildren, and the system *)
Record State := mk { mChildren : gmap Z name; os : Os }.

Section Operations.
Context `{K : Kernel}.

(** [application/platform/process_manager.cpp:25-42] Spawn, up to the child's entry in the map:
    a child whose [execv] fails ends with status 1 *)
Definition spawn_fork (argv : list name) : M State (option Z) := fun s =>
  match fork (os s) with
  | Some pid =>
      (Ok (Some pid), mk (mChildren s) (mkOs (<[pid := argv]> (running (os s))) (zombies (os s)) (signals (os s))))
  | None => (Ok None, s)
  end.

(** [application/platform/process_manager.cpp:43-46] Spawn: the entry *)
Definition record_child (pid : Z) (executablePath : name) : M State () :=
  modify (fun s => mk (<[pid := executablePath]> (mChildren s)) (os s)).

(** [application/platform/process_manager.cpp:21-54] Spawn: the pid, or -1 *)
Definition Spawn (executablePath : name) (argv : list name) : M State Z :=
  p ← spawn_fork argv;
  match p with
  | Some pid => record_child pid executablePath;; mret pid
  | None => mret (-1)
  end.

(** [application/platform/process_manager.cpp:56-70] ReapFinished: the children that ended, with
    their exit codes *)
Definition ReapFinished : M State (list (Z * Z)) := fun s =>
  (Ok (map (fun '(pid, how) => (pid, match how with Exited code => code | Signaled _ => 1 end)) (zombies (os s))),
   mk (foldl (fun m '(pid, _) => delete pid m) (mChildren s) (zombies (os s)))
      (mkOs (running (os s)) [] (signals (os s)))).

(** [application/platform/process_manager.cpp:77-77] cPollIntervalMs *)
Definition cPollIntervalMs : Z := 50.

(** [application/platform/process_manager.cpp:80-89] TerminateAll: the waiting loop, and the
    milliseconds it slept; [ended n] are the children that end during the n-th round *)
Fixpoint await_children (fuel : nat) (ended : nat → list (Z * Wait)) (n : nat) (elapsed timeoutMs : Z) : M State Z :=
  match fuel with
  | O => lift OutOfFuel
  | S fuel => fun s =>
      if negb (bool_decide (mChildren s = ∅)) && (elapsed <? timeoutMs) then
        let s := mk (mChildren s) (end_all (ended n) (os s)) in
        let '(_, s) := ReapFinished s in
        await_children fuel ended (S n)
          (if negb (bool_decide (mChildren s = ∅)) then elapsed + cPollIntervalMs else elapsed) timeoutMs s
      else (Ok elapsed, s)
  end.

(** [application/platform/process_manager.cpp:72-100] TerminateAll, and the milliseconds it slept *)
Definition TerminateAll (fuel : nat) (ended : nat → list (Z * Wait)) (timeoutMs : Z) : M State Z :=
  modify (fun s => mk (mChildren s) (foldl (fun o pid => kill pid SIGTERM o) (os s) (map_to_list (mChildren s)).*1));;
  elapsed ← await_children fuel ended 0 0 timeoutMs;
  modify (fun s => mk (mChildren s) (foldl (fun o pid => kill pid SIGKILL o) (os s) (map_to_list (mChildren s)).*1));;
  modify (fun s => mk ∅ (foldl (fun o pid => wait_for pid o) (os s) (map_to_list (mChildren s)).*1));;
  mret elapsed.

End Operations.
End ProcessManager.

(** ** Modelled processes *)
Module ModelledProcess.

(** [ara/exec/helper/modelled_process.h:29-30] ModelledProcess: the token, and whether the
    future of the exit code is valid *)
Record t := mk { mCancellationToken : bool; mExitCode : bool }.

(** [ara/exec/helper/modelled_process.cpp:15-21] ModelledProcess *)
Definition construct : t := mk false false.

(** [ara/exec/helper/modelled_process.cpp:39-51] Initialize *)
Definition Initialize (p : t) : t := if mExitCode p then p else mk (mCancellationToken p) true.

(** [ara/exec/helper/modelled_process.cpp:53-72] Terminate: the exit code, [Main] returning
    [exitCode] *)
Definition Terminate (exitCode : Z) (p : t) : Z * t :=
  if mExitCode p then (exitCode, mk true false) else (0, p).

End ModelledProcess.

(** ** Execution management *)
Module ExecutionManagement.

(** [application/platform/execution_management.h:20-28] ProcessDescriptor *)
Record ProcessDescriptor := mkDescriptor {
  shortName : name;
  executablePath : name;
  arguments : list name;
  fifoPath : name;
  isBootstrap : bool;
  activatingStates : gset (name * name)
}.

(** [application/platform/execution_management.cpp:13-13] cMachineFunctionGroup *)
Definition cMachineFunctionGroup : name := bytes_of_string "MachineFG".
Definition cStartUpState : name := bytes_of_string "StartUp".

(** [application/platform/execution_management.h:36-39] ExecutionManagement *)
Record World := mk {
  mProcessManager : ProcessManager.State;
  mApplicationProcesses : list ModelledProcess.t;
  mProcessDescriptors : list ProcessDescriptor;
  mStateServer : StateServer.State
}.

(** The callback's number. *)
Definition on_state_change : nat := 0.

Definition set_manager (m : ProcessManager.State) (w : World) : World :=
  mk m (mApplicationProcesses w) (mProcessDescriptors w) (mStateServer w).
Definition set_processes (ps : list ModelledProcess.t) (w : World) : World :=
  mk (mProcessManager w) ps (mProcessDescriptors w) (mStateServer w).
Definition set_server (s : StateServer.State) (w : World) : World :=
  mk (mProcessManager w) (mApplicationProcesses w) (mProcessDescriptors w) s.

Definition on_manager {A} (m : M ProcessManager.State A) : M World A := fun w =>
  let '(r, p) := m (mProcessManager w) in (r, set_manager p w).

Section Operations.
Context `{K : Kernel}.

(** [application/platform/execution_management.cpp:217-223] the argument vector *)
Definition argv_of (d : ProcessDescriptor) : list name :=
  executablePath d :: arguments d ++ (if bool_decide (fifoPath d = []) then [] else [fifoPath d]).

(** [application/platform/execution_management.cpp:213-215] whether a state starts a process *)
Definition activated (state : name) (d : ProcessDescriptor) : bool :=
  negb (isBootstrap d) && bool_decide ((cMachineFunctionGroup, state) ∈ activatingStates d).

(** The loops over the descriptors. *)
Fixpoint spawn_all (chosen : ProcessDescriptor → bool) (ds : list ProcessDescriptor) : M ProcessManager.State () :=
  match ds with
  | [] => mret ()
  | d :: ds =>
      (if chosen d then _ ← ProcessManager.Spawn (executablePath d) (argv_of d); mret () else mret ());;
      spawn_all chosen ds
  end.

(** [application/platform/execution_management.cpp:196-227] onStateChange: [locked] is whether
    another thread holds the state server's mutex now *)
Definition onStateChange (locked : bool) : M World () :=
  w ← get;
  match StateServer.TryGetState cMachineFunctionGroup (StateServer.set_mutex locked (mStateServer w)) with
  | None => mret ()
  | Some currentState =>
      (if bool_decide (currentState = cStartUpState)
       then modify (fun w => set_processes (map ModelledProcess.Initialize (mApplicationProcesses w)) w)
       else mret ());;
      on_manager (spawn_all (activated currentState) (mProcessDescriptors w))
  end.

(** The state server's handler, whose notifier is bound to [onStateChange]. *)
Definition handleSetState (locked : bool) (payload : bytes) : M World (bool * bytes) := fun w =>
  let '(r, s) := StateServer.handleSetState payload (mStateServer w) in
  let w' := set_server s w in
  if bool_decide (on_state_change ∈ drop (length (StateServer.ran (mStateServer w))) (StateServer.ran s)) then
    let '(u, w'') := onStateChange locked w' in
    (u;; r, w'')
  else (r, w').

(** [application/platform/execution_management.cpp:255-278] Main, up to its loop, with what it
    read in the manifest *)
Definition setup (descriptors : list ProcessDescriptor) (functionGroupStates : gset (name * name))
    (initialStates : gmap name name) (processes : list ModelledProcess.t) (o : Os) : outcome World :=
  s ← StateServer.construct functionGroupStates initialStates;
  let '(r, s) := StateServer.SetNotifier cMachineFunctionGroup (Some on_state_change) s in
  r;;
  let '(r, m) := spawn_all isBootstrap descriptors (ProcessManager.mk ∅ o) in
  r;;
  Ok (mk m processes descriptors s).

(** [application/platform/execution_management.cpp:291-301] Main, after its loop: the sum of the
    exit codes *)
Definition shutdown (fuel : nat) (ended : nat → list (Z * Wait)) (exitCodes : list Z) : M World Z :=
  _ ← on_manager (ProcessManager.TerminateAll fuel ended 2000);
  w ← get;
  let results := zip_with ModelledProcess.Terminate exitCodes (mApplicationProcesses w) in
  modify (set_processes results.*2);;
  mret (foldr Z.add 0 results.*1).

End Operations.
End ExecutionManagement.

(** ** State management *)
Module StateManagement.

(** [application/platform/state_management.cpp:123-141] transitToStartUpState: the future and the
    requests sent *)
Fixpoint transitToStartUpState (mFunctionGroupStates : list FunctionGroupState.t) :
    M (RpcClient.t StateClient.State * StateClient.State) (nat * list bytes) :=
  match mFunctionGroupStates with
  | [] => raise std_runtime_error
  | s :: states =>
      if bool_decide (FunctionGroupState.mFunctionGroup s = ExecutionManagement.cMachineFunctionGroup) &&
         bool_decide (FunctionGroupState.mStateMetaModel s = ExecutionManagement.cStartUpState)
      then StateClient.SetState s
      else transitToStartUpState states
  end.

End StateManagement.

(** ** Lemmas: children *)
Section Children.
Context `{K : Kernel}.
Import ProcessManager.

(** The map holds the children, each of which either runs or has ended once. *)
Record tracks (s : State) : Prop := {
  t_children : ∀ pid, is_Some (mChildren s !! pid) ↔ is_child (os s) pid;
  t_once : NoDup (zombies (os s)).*1;
  t_apart : ∀ pid, is_Some (running (os s) !! pid) → pid ∉ (zombies (os s)).*1
}.

Lemma ends_child pid how o p : is_child (ends pid how o) p ↔ is_child o p.
Proof.
  unfold ends. destruct (running o !! pid) as [argv|] eqn:E; [|done]. unfold is_child. cbn [running zombies].
  rewrite fmap_app, elem_of_app, lookup_delete_is_Some. cbn. rewrite list_elem_of_singleton.
  destruct (decide (p = pid)) as [->|Hne]; [|assert (pid ≠ p) by done; tauto]. rewrite E. split; [by left|]. intros _. right. by right.
Qed.

Lemma ends_signals pid how o : signals (ends pid how o) = signals o.
Proof. unfold ends. by destruct (_ !! _). Qed.

Lemma ends_tracks pid how m o : tracks (mk m o) → tracks (mk m (ends pid how o)).
Proof.
  intros [Hc Ho Ha]. split; cbn [mChildren os] in *.
  - intros p. by rewrite ends_child.
  - unfold ends. destruct (running o !! pid) eqn:E; [|done]. cbn. rewrite fmap_app. cbn.
    apply NoDup_app. split; [done|]. split; [|apply NoDup_singleton].
    intros x Hx ->%list_elem_of_singleton. by apply (Ha pid); [rewrite E|].
  - unfold ends. destruct (running o !! pid) eqn:E; [|done]. cbn. intros p [Hne Hp]%lookup_delete_is_Some.
    rewrite fmap_app, elem_of_app. cbn. rewrite list_elem_of_singleton. intros [Hz|Hz]; [by apply (Ha p)|by subst].
Qed.

Lemma end_all_tracks l m o :
  tracks (mk m o) → tracks (mk m (end_all l o)) ∧ signals (end_all l o) = signals o ∧ ∀ p, is_child (end_all l o) p ↔ is_child o p.
Proof.
  revert o. induction l as [|[pid how] l IH]; intros o Ht; [done|]. unfold end_all. cbn [foldl]. fold (end_all l (ends pid how o)).
  destruct (IH (ends pid how o)) as (H1 & H2 & H3); [by apply ends_tracks|]. split; [done|].
  split; [by rewrite H2, ends_signals|]. intros p. by rewrite H3, ends_child.
Qed.

Lemma Spawn_tracks path argv s : tracks s → tracks (snd (Spawn path argv s)).
Proof.
  intros [Hc Ho Ha]. unfold Spawn, spawn_fork, record_child. run. destruct (fork (os s)) as [pid|] eqn:E; [|done].
  apply fork_fresh in E as [_ Hn]. split; cbn.
  - intros p. unfold is_child. cbn. rewrite !lookup_insert_is_Some'. rewrite Hc. unfold is_child. tauto.
  - done.
  - intros p Hp. apply lookup_insert_is_Some' in Hp as [<-|Hp]; [|by apply Ha]. intros Hz. apply Hn. by right.
Qed.

Lemma spawn_all_tracks chosen ds s : tracks s → tracks (snd (ExecutionManagement.spawn_all chosen ds s)).
Proof.
  revert s. induction ds as [|d ds IH]; intros s Hs; [done|]. cbn [ExecutionManagement.spawn_all].
  cbv [mbind M_bind mret M_ret]. destruct (chosen d); [|by apply IH].
  pose proof (Spawn_tracks (ExecutionManagement.executablePath d) (ExecutionManagement.argv_of d) s Hs) as Ht.
  destruct (Spawn _ _ s) as [[] s']; try done. by apply IH.
Qed.

Lemma deleted_children l m pid :
  foldl (fun (m : gmap Z name) '(pid, _) => delete pid m) m (l : list (Z * Wait)) !! pid =
    if bool_decide (pid ∈ l.*1) then None else m !! pid.
Proof.
  revert m. induction l as [|[p how] l IH]; intros m; [done|]. cbn. rewrite IH.
  destruct (decide (pid = p)) as [->|Hne].
  - rewrite (bool_decide_eq_true_2 (p ∈ p :: l.*1)) by by left. case_bool_decide; [done|apply lookup_delete_eq].
  - rewrite lookup_delete_ne by done. by rewrite (bool_decide_ext (pid ∈ p :: l.*1) (pid ∈ l.*1)) by (rewrite elem_of_cons; tauto).
Qed.

(** After reaping, the children are those that run. *)
Lemma Reap_tracks s :
  tracks s → let s' := snd (ReapFinished s) in
  tracks s' ∧ (∀ pid, is_Some (mChildren s' !! pid) → is_Some (mChildren s !! pid)) ∧
  zombies (os s') = [] ∧ running (os s') = running (os s) ∧ signals (os s') = signals (os s).
Proof.
  intros [Hc Ho Ha]. cbn. split_and!; try done; [split; cbn|].
  - intros pid. rewrite deleted_children. unfold is_child. cbn. specialize (Hc pid). specialize (Ha pid). unfold is_child in Hc.
    case_bool_decide as Hz; [|rewrite Hc, elem_of_nil; tauto].
    split; [by intros [? ?]|]. intros [Hr|Hr]; [by apply Ha in Hr|by apply elem_of_nil in Hr].
  - constructor.
  - intros pid _. apply not_elem_of_nil.
  - intros pid. rewrite deleted_children. by case_bool_decide; [intros [? ?]|].
Qed.

Lemma await_empty fuel ended n elapsed timeoutMs s :
  (0 < fuel)%nat → mChildren s = ∅ → await_children fuel ended n elapsed timeoutMs s = (Ok elapsed, s).
Proof. intros Hf He. destruct fuel; [lia|]. cbn. by rewrite bool_decide_eq_true_2. Qed.

Lemma await_tracks fuel ended n elapsed timeoutMs s :
  tracks s → (0 < fuel)%nat → timeoutMs - elapsed <= 50 * (Z.of_nat fuel - 1) →
  ∃ e s', await_children fuel ended n elapsed timeoutMs s = (Ok e, s') ∧
    e <= Z.max elapsed (timeoutMs + 49) ∧ tracks s' ∧ signals (os s') = signals (os s) ∧
    ∀ p, is_child (os s') p → is_child (os s) p.
Proof.
  revert n elapsed s. induction fuel as [|fuel IH]; intros n elapsed s Ht Hf Hfuel; [lia|].
  destruct (bool_decide (mChildren s = ∅)) eqn:Eb.
  { apply bool_decide_eq_true in Eb. exists elapsed, s. rewrite await_empty by done. split_and!; try done. lia. }
  cbn [await_children]. rewrite Eb. cbn [negb andb]. destruct (elapsed <? timeoutMs) eqn:El.
  2:{ exists elapsed, s. split_and!; try done. lia. }
  destruct s as [m o]. cbn [mChildren os]. destruct (end_all_tracks (ended n) m o Ht) as (Ht1 & Hs1 & Hc1).
  destruct (Reap_tracks _ Ht1) as (Ht2 & _ & Hz2 & Hr2 & Hs2).
  destruct (ReapFinished (mk m (end_all (ended n) o))) as [r s2]. cbn [snd] in *.
  assert (Hc2 : ∀ p, is_child (os s2) p → is_child o p).
  { intros p [Hp|Hp]; [|rewrite Hz2 in Hp; by apply elem_of_nil in Hp]. apply Hc1. left. by rewrite Hr2 in Hp. }
  apply Z.ltb_lt in El. destruct (bool_decide (mChildren s2 = ∅)) eqn:E2; cbn [negb].
  - apply bool_decide_eq_true in E2. exists elapsed, s2. rewrite await_empty by (done || lia).
    split_and!; try done; [lia|]. exact (eq_trans Hs2 Hs1).
  - destruct (IH (S n) (elapsed + cPollIntervalMs) s2 Ht2) as (e & s' & He & Hle & Ht' & Hs' & Hc').
    { unfold cPollIntervalMs in *. lia. }
    { unfold cPollIntervalMs in *. lia. }
    exists e, s'. split_and!; try done; [unfold cPollIntervalMs in *; lia|exact (eq_trans Hs' (eq_trans Hs2 Hs1))|]. intros p Hp. by apply Hc2, Hc'.
Qed.

(** A pid that is recorded but is no child is never taken out by waiting. *)
Lemma await_stale fuel ended n elapsed timeoutMs s pid :
  is_Some (mChildren s !! pid) → ¬ is_child (os s) pid →
  (0 < fuel)%nat → timeoutMs - elapsed <= 50 * (Z.of_nat fuel - 1) →
  ∃ e s', await_children fuel ended n elapsed timeoutMs s = (Ok e, s') ∧
    timeoutMs <= e ∧ signals (os s') = signals (os s) ∧ is_Some (mChildren s' !! pid) ∧ ¬ is_child (os s') pid.
Proof.
  revert n elapsed s. induction fuel as [|fuel IH]; intros n elapsed s Hm Hn Hf Hfuel; [lia|].
  assert (Hne : ∀ m : gmap Z name, is_Some (m !! pid) → m ≠ ∅) by (intros m [x Hx] ->; by rewrite lookup_empty in Hx).
  cbn [await_children]. rewrite bool_decide_eq_false_2 by by apply Hne. cbn [negb andb].
  destruct (elapsed <? timeoutMs) eqn:El; [|exists elapsed, s; split_and!; try done; lia].
  apply Z.ltb_lt in El. set (o := end_all (ended n) (os s)).
  assert (Hno : ¬ is_child o pid ∧ signals o = signals (os s)).
  { unfold o, end_all. clear -Hn. revert Hn. generalize (os s) as o. induction (ended n) as [|[p how] l IH]; intros o Hn; [done|]. cbn.
    rewrite <- (ends_signals p how o). apply IH. by rewrite ends_child. }
  cbn [ReapFinished os mChildren]. set (m := foldl _ _ _).
  assert (Hm' : is_Some (m !! pid)).
  { unfold m. rewrite deleted_children, bool_decide_eq_false_2; [done|]. intros Hz. apply (proj1 Hno). by right. }
  rewrite bool_decide_eq_false_2 by by apply Hne. cbn [negb].
  destruct (IH (S n) (elapsed + cPollIntervalMs) (mk m (mkOs (running o) [] (signals o)))) as (e & s' & He & Hle & Hs' & Hp & Hq).
  - done.
  - cbn. intros [Hr|Hr]; [|by apply elem_of_nil in Hr]. apply (proj1 Hno). by left.
  - unfold cPollIntervalMs in *. lia.
  - unfold cPollIntervalMs in *. lia.
  - exists e, s'. split_and!; try done. rewrite Hs'. apply Hno.
Qed.

Lemma term_all pids o :
  foldl (fun o pid => kill pid SIGTERM o) o pids = mkOs (running o) (zombies o) (signals o ++ map (fun p => (p, SIGTERM)) pids).
Proof.
  revert o. induction pids as [|p pids IH]; intros o; cbn; [by rewrite app_nil_r; destruct o|].
  rewrite IH. cbn. by rewrite <- app_assoc.
Qed.

Lemma kill_all m pids o :
  tracks (mk m o) →
  let o' := foldl (fun o pid => kill pid SIGKILL o) o pids in
  tracks (mk m o') ∧ signals o' = signals o ++ map (fun p => (p, SIGKILL)) pids ∧
  (∀ p, is_child o' p ↔ is_child o p) ∧ (∀ p, is_Some (running o' !! p) → is_Some (running o !! p) ∧ p ∉ pids).
Proof.
  revert o. induction pids as [|p pids IH]; intros o Ht; cbv zeta; cbn [foldl map].
  { split_and!; try done; [by rewrite app_nil_r|]. intros p Hp. split; [done|apply not_elem_of_nil]. }
  set (o1 := mkOs (running o) (zombies o) (signals o ++ [(p, SIGKILL)])).
  assert (Ht1 : tracks (mk m o1)) by (by destruct Ht; split).
  destruct (IH (ends p (Signaled SIGKILL) o1)) as (H1 & H2 & H3 & H4); [by apply ends_tracks|].
  change (kill p SIGKILL o) with (ends p (Signaled SIGKILL) o1). split_and!; [done|..].
  - rewrite H2, ends_signals. cbn. by rewrite <- app_assoc.
  - intros q. by rewrite H3, ends_child.
  - intros q Hq. destruct (H4 q Hq) as [H5 H6]. unfold ends in H5. cbn in H5.
    destruct (running o !! p) as [argv|] eqn:E; cbn in H5.
    + apply lookup_delete_is_Some in H5 as [Hne H5]. split; [done|]. rewrite elem_of_cons. intros [->|?]; done.
    + split; [done|]. rewrite elem_of_cons. intros [->|?]; [|done]. rewrite E in H5. by destruct H5.
Qed.

Lemma kill_signals pids o :
  signals (foldl (fun o pid => kill pid SIGKILL o) o pids) = signals o ++ map (fun p => (p, SIGKILL)) pids.
Proof.
  revert o. induction pids as [|p pids IH]; intros o; [by rewrite app_nil_r|]. cbn [foldl map].
  rewrite IH. unfold kill. cbn. rewrite ends_signals. cbn. by rewrite <- app_assoc.
Qed.

Lemma filter_every {A} (P : A → Prop) `{∀ x, Decision (P x)} (l : list A) : (∀ x, x ∈ l → P x) → filter P l = l.
Proof.
  induction l as [|x l IH]; intros Hl; [done|]. rewrite filter_cons_True by (apply Hl; by left).
  f_equal. apply IH. intros y Hy. apply Hl. by right.
Qed.

Lemma filter_none {A} (P : A → Prop) `{∀ x, Decision (P x)} (l : list A) : (∀ x, x ∈ l → ¬ P x) → filter P l = [].
Proof.
  induction l as [|x l IH]; intros Hl; [done|]. rewrite filter_cons_False by (apply Hl; by left).
  apply IH. intros y Hy. apply Hl. by right.
Qed.

Lemma wait_all pids o :
  foldl (fun o pid => wait_for pid o) o pids =
    mkOs (running o) (filter (fun z => z.1 ∉ pids) (zombies o)) (signals o).
Proof.
  revert o. induction pids as [|p pids IH]; intros o; cbn.
  - rewrite filter_every; [by destruct o|]. intros z _. apply not_elem_of_nil.
  - rewrite IH. unfold wait_for. cbn. f_equal. rewrite list_filter_filter. apply list_filter_iff.
    intros z. rewrite not_elem_of_cons. tauto.
Qed.

Lemma elem_of_pids (m : gmap Z name) pid : pid ∈ (map_to_list m).*1 ↔ is_Some (m !! pid).
Proof.
  rewrite list_elem_of_fmap. split.
  - intros ([p x] & -> & Hp). apply elem_of_map_to_list in Hp. eauto.
  - intros [x Hx]. exists (pid, x). split; [done|]. by apply elem_of_map_to_list.
Qed.

(** Terminating ends in time, leaves no child, and signals only children. *)
Lemma TerminateAll_spec fuel ended timeoutMs s :
  tracks s → (0 < fuel)%nat → timeoutMs <= 50 * (Z.of_nat fuel - 1) → 0 <= timeoutMs →
  ∃ e s', TerminateAll fuel ended timeoutMs s = (Ok e, s') ∧ e <= timeoutMs + 49 ∧
    mChildren s' = ∅ ∧ running (os s') = ∅ ∧ zombies (os s') = [] ∧
    ∃ sent, signals (os s') = signals (os s) ++ sent ∧ Forall (fun p => is_child (os s) p.1) sent.
Proof.
  intros Ht Hf Hfuel Hpos. destruct s as [m o]. unfold TerminateAll. cbv [modify mbind M_bind mret M_ret]. cbn [mChildren os].
  rewrite term_all. set (o1 := mkOs _ _ _). assert (Ht1 : tracks (mk m o1)) by (by destruct Ht; split).
  destruct (await_tracks fuel ended 0 0 timeoutMs (mk m o1) Ht1 Hf ltac:(lia)) as (e & [m2 o2] & -> & He & Ht2 & Hs2 & Hc2).
  cbn [mChildren os] in *. destruct (kill_all m2 (map_to_list m2).*1 o2 Ht2) as (Ht3 & Hs3 & Hc3 & Hr3).
  set (o3 := foldl (fun o pid => kill pid SIGKILL o) o2 (map_to_list m2).*1) in *. rewrite wait_all.
  assert (Hall : ∀ p, is_child o3 p → p ∈ (map_to_list m2).*1).
  { intros p Hp. apply elem_of_pids. by apply (t_children _ Ht2), Hc3. }
  exists e. eexists. split; [reflexivity|]. cbn [mChildren os running zombies signals]. split; [lia|]. split; [done|].
  split; [|split].
  - apply map_empty. intros p. destruct (running o3 !! p) eqn:E; [|done]. exfalso.
    apply (Hr3 p ltac:(by rewrite E)). apply Hall. left. by rewrite E.
  - apply filter_none. intros z Hz Hn. apply Hn, Hall. right. apply list_elem_of_fmap. eauto.
  - eexists. split; [by rewrite Hs3, Hs2; cbn; rewrite <- app_assoc|]. apply Forall_app. split; apply Forall_fmap, Forall_forall; cbn.
    + intros p Hp. by apply (t_children _ Ht), elem_of_pids.
    + intros p Hp. apply elem_of_pids in Hp. apply (t_children _ Ht2) in Hp. by apply Hc2 in Hp.
Qed.

End Children.

(** ** Lemmas: starting processes *)
Section Starting.
Context `{K : Kernel}.
Import ProcessManager ExecutionManagement.
Import Future (Value).

(** The processes of [started], on top of the children that were there: some of the chosen
    descriptors in order, all of them when no [fork] fails, each under an identifier of its
    own. *)
Record launched (chosen : ProcessDescriptor → bool) (ds : list ProcessDescriptor) (started : list (Z * ProcessDescriptor))
    (o o' : Os) : Prop := {
  l_chosen : sublist started.*2 (List.filter chosen ds);
  l_all : (∀ o, is_Some (fork o)) → started.*2 = List.filter chosen ds;
  l_distinct : NoDup started.*1;
  l_new : Forall (fun p => ¬ is_child o p.1) started;
  l_running : running o' = list_to_map (prod_map id argv_of <$> started) ∪ running o;
  l_zombies : zombies o' = zombies o;
  l_signals : signals o' = signals o
}.

Lemma launched_nil chosen o : launched chosen [] [] o o.
Proof. split; cbn; try done; [constructor|by rewrite map_empty_union]. Qed.

Lemma launched_cons chosen d ds started pid o o' :
  chosen d = true → ¬ is_child o pid →
  launched chosen ds started (mkOs (<[pid := argv_of d]> (running o)) (zombies o) (signals o)) o' →
  launched chosen (d :: ds) ((pid, d) :: started) o o'.
Proof.
  intros Hd Hn [Hc Ha Hnd Hnew Hr Hz Hs]. cbn in Hz, Hs, Hr. rewrite Forall_forall in Hnew.
  assert (Hpid : pid ∉ started.*1).
  { intros Hin. apply list_elem_of_fmap in Hin as (p & -> & Hp). apply (Hnew p Hp). left. cbn. by rewrite lookup_insert_eq. }
  split; cbn; rewrite ?Hd; [by constructor|intros Hf; by rewrite Ha|by constructor|..|done|done].
  - apply Forall_cons. split; [done|]. apply Forall_forall. intros p Hp Hc'. apply (Hnew p Hp). destruct Hc' as [Hc'|Hc'].
    + left. cbn. rewrite lookup_insert_is_Some'. by right.
    + by right.
  - rewrite Hr. rewrite <- insert_union_r; [by rewrite insert_union_l|]. apply not_elem_of_list_to_map_1.
    by rewrite <- list_fmap_compose.
Qed.

Lemma spawn_all_spec chosen ds s :
  ∃ started, fst (spawn_all chosen ds s) = Ok () ∧ launched chosen ds started (os s) (os (snd (spawn_all chosen ds s))).
Proof.
  revert s. induction ds as [|d ds IH]; intros s; [exists []; split; [done|apply launched_nil]|].
  cbn [spawn_all]. cbv [mbind M_bind mret M_ret]. destruct (chosen d) eqn:Hd.
  - unfold Spawn, spawn_fork, record_child. run. destruct (fork (os s)) as [pid|] eqn:Hf; cbn.
    + destruct (IH (ProcessManager.mk (<[pid := executablePath d]> (mChildren s)) (mkOs (<[pid:=argv_of d]> (running (os s))) (zombies (os s)) (signals (os s)))))
        as (started & H1 & H2). exists ((pid, d) :: started). split; [exact H1|].
      eapply launched_cons; [done|by apply (fork_fresh _ _ Hf)|exact H2].
    + destruct (IH s) as (started & H1 & [Hc Ha Hnd Hnew Hr Hz Hs]). exists started. split; [exact H1|]. split; cbn; rewrite ?Hd; try done.
      * by constructor.
      * intros Hall. destruct (Hall (os s)) as [x Hx]. congruence.
  - destruct (IH s) as (started & H1 & [Hc Ha Hnd Hnew Hr Hz Hs]). exists started. split; [exact H1|]. split; cbn; rewrite ?Hd; done.
Qed.

(** What a change of the machine's state starts. *)
Definition on_entry (state : name) (w w' : World) : Prop :=
  mApplicationProcesses w' =
    (if bool_decide (state = cStartUpState) then map ModelledProcess.Initialize (mApplicationProcesses w) else mApplicationProcesses w) ∧
  ∃ started, launched (activated state) (mProcessDescriptors w) started (os (mProcessManager w)) (os (mProcessManager w')).

Lemma onStateChange_locked w : onStateChange true w = (Ok (), w).
Proof. done. Qed.

Lemma onStateChange_entry w state :
  StateServer.mCurrentStates (mStateServer w) !! cMachineFunctionGroup = Some state →
  fst (onStateChange false w) = Ok () ∧ on_entry state w (snd (onStateChange false w)) ∧
  mStateServer (snd (onStateChange false w)) = mStateServer w ∧
  mProcessDescriptors (snd (onStateChange false w)) = mProcessDescriptors w.
Proof.
  intros Hst. unfold onStateChange, StateServer.TryGetState. run. cbn [StateServer.set_mutex StateServer.mMutex StateServer.mCurrentStates].
  rewrite Hst. unfold on_entry. destruct (spawn_all_spec (activated state) (mProcessDescriptors w) (mProcessManager w)) as (started & H1 & H2).
  case_bool_decide; cbn; unfold on_manager; cbn [set_processes mProcessManager];
    destruct (spawn_all (activated state) (mProcessDescriptors w) (mProcessManager w)) as [r m]; cbn in *; subst r; split_and!; eauto.
Qed.

(** The notifier is the one that [setup] installs. *)
Definition notifies (w : World) : Prop :=
  StateServer.mNotifiers (mStateServer w) = {[ cMachineFunctionGroup := Some on_state_change ]}.

Lemma is_bytes_machine : is_bytes cMachineFunctionGroup ∧ is_bytes cStartUpState.
Proof. split; apply is_bytes_of_string. Qed.

Lemma handleSetState_machine locked w st :
  notifies w → is_bytes st → 64 + size st < 4294967296 →
  let (res, table) := set_spec (mStateServer w) cMachineFunctionGroup st in
  ∃ w', handleSetState locked (FunctionGroupState.Serialize (FunctionGroupState.mk cMachineFunctionGroup st) []) w =
      (Ok (fst (answer_of res), snd (answer_of res)), w') ∧
    StateServer.mCurrentStates (mStateServer w') = table ∧
    (if bool_decide (res = Value) && negb locked then on_entry st w w'
     else mProcessManager w' = mProcessManager w ∧ mApplicationProcesses w' = mApplicationProcesses w).
Proof.
  intros Hn Hst Hsz. assert (Hcb : callbacks_set (mStateServer w)).
  { unfold callbacks_set. rewrite Hn. apply map_Forall_singleton. eauto. }
  pose proof (handleSetState_request (mStateServer w) cMachineFunctionGroup st Hcb (proj1 is_bytes_machine) Hst) as Hreq.
  assert (Htab : ∀ table, set_spec (mStateServer w) cMachineFunctionGroup st = (Value, table) → table !! cMachineFunctionGroup = Some st).
  { unfold set_spec. intros table. repeat case_match; intros [= <-]. apply lookup_insert_eq. }
  destruct (set_spec (mStateServer w) cMachineFunctionGroup st) as [res table] eqn:Eset.
  assert (Hg : size cMachineFunctionGroup = 9) by reflexivity. specialize (Hreq ltac:(lia)). unfold handleSetState. rewrite Hreq. cbv zeta.
  cbn [StateServer.ran StateServer.set_ran]. rewrite drop_app_length. unfold notified. rewrite Hn, lookup_singleton_eq.
  destruct (decide (res = Value)) as [->|Hres].
  - rewrite (bool_decide_eq_true_2 (Value = Value)) by done. rewrite bool_decide_eq_true_2 by by left.
    destruct locked; cbn [andb negb].
    + rewrite onStateChange_locked. eexists. split; [reflexivity|]. done.
    + set (w1 := set_server _ w). destruct (onStateChange_entry w1 st) as (H1 & H2 & H3 & H4); [by apply Htab|].
      destruct (onStateChange false w1) as [u w']. cbn in H1, H2, H3. subst u. exists w'. split; [done|]. split; [by rewrite H3|exact H2].
  - rewrite (bool_decide_eq_false_2 (res = Value)) by done. cbn [andb].
    replace (match res with Value => [on_state_change] | _ => [] end) with (@nil nat) by by destruct res.
    rewrite bool_decide_eq_false_2 by apply not_elem_of_nil. eexists. split; [reflexivity|]. done.
Qed.

Lemma transit_first states c :
  FunctionGroupState.mk cMachineFunctionGroup cStartUpState ∈ states →
  StateManagement.transitToStartUpState states c = StateClient.SetState (FunctionGroupState.mk cMachineFunctionGroup cStartUpState) c.
Proof.
  induction states as [|[g st] states IH]; intros Hin; [by apply elem_of_nil in Hin|].
  cbn [StateManagement.transitToStartUpState FunctionGroupState.mFunctionGroup FunctionGroupState.mStateMetaModel].
  destruct (decide (g = cMachineFunctionGroup ∧ st = cStartUpState)) as [[-> ->]|Hne].
  - by rewrite !bool_decide_eq_true_2.
  - apply elem_of_cons in Hin as [[= <- <-]|Hin]; [by destruct Hne|]. rewrite <- (IH Hin).
    destruct (bool_decide (g = _)) eqn:E1, (bool_decide (st = _)) eqn:E2; try done.
    apply bool_decide_eq_true in E1, E2. by destruct Hne.
Qed.

(** ** Lemmas: a machine that runs *)

(** What happens to execution management while it runs. *)
Inductive event :=
  | Request (payload : bytes) (locked : bool)
  | ChildEnds (pid : Z) (how : Wait)
  | Activation.

Definition machine_step (e : event) (w : World) : World :=
  match e with
  | Request payload locked => snd (handleSetState locked payload w)
  | ChildEnds pid how =>
      set_manager (ProcessManager.mk (mChildren (mProcessManager w)) (ends pid how (os (mProcessManager w)))) w
  | Activation => snd (on_manager ReapFinished w)
  end.

Definition machine_run (es : list event) (w : World) : World := foldl (fun w e => machine_step e w) w es.

Lemma onStateChange_tracks locked w :
  tracks (mProcessManager w) → tracks (mProcessManager (snd (onStateChange locked w))).
Proof.
  intros Ht. unfold onStateChange. run. destruct (StateServer.TryGetState _ _) as [st|]; [|done].
  pose proof (spawn_all_tracks (activated st) (mProcessDescriptors w) (mProcessManager w) Ht) as Hs.
  case_bool_decide; unfold on_manager; cbn [set_processes mProcessManager];
    by destruct (spawn_all (activated st) (mProcessDescriptors w) (mProcessManager w)) as [r m].
Qed.

Lemma machine_step_tracks e w : tracks (mProcessManager w) → tracks (mProcessManager (machine_step e w)).
Proof.
  intros Ht. destruct e as [payload locked|pid how|]; cbn [machine_step].
  - unfold handleSetState. destruct (StateServer.handleSetState _ _) as [r s]. cbv zeta. case_bool_decide; [|done].
    pose proof (onStateChange_tracks locked (set_server s w) Ht) as Hs. by destruct (onStateChange locked (set_server s w)).
  - apply ends_tracks. by destruct (mProcessManager w).
  - exact (proj1 (Reap_tracks _ Ht)).
Qed.

Lemma machine_run_tracks es w : tracks (mProcessManager w) → tracks (mProcessManager (machine_run es w)).
Proof. revert w. induction es as [|e es IH]; intros w Ht; [done|]. by apply IH, machine_step_tracks. Qed.

Lemma setup_ok descriptors fgs initial processes o w :
  setup descriptors fgs initial processes o = Ok w → running o = ∅ → zombies o = [] →
  tracks (mProcessManager w) ∧ notifies w.
Proof.
  intros Hs Hr Hz. unfold setup, StateServer.construct, StateServer.SetNotifier in Hs. run.
  destruct (negb _) in Hs; [done|]. destruct (negb _) in Hs; [done|]. cbn in Hs.
  destruct (initial !! _); [|done]. cbn in Hs.
  assert (Ht : tracks (ProcessManager.mk ∅ o)).
  { split; cbn; [|by rewrite Hz; constructor|by rewrite Hz; intros; apply not_elem_of_nil].
    intros pid. unfold is_child. rewrite Hr, Hz, !lookup_empty. split; [by intros [? ?]|].
    intros [[? ?]|Hp]; [done|by apply elem_of_nil in Hp]. }
  pose proof (spawn_all_tracks isBootstrap descriptors (ProcessManager.mk ∅ o) Ht) as Ht'.
  destruct (spawn_all isBootstrap descriptors (ProcessManager.mk ∅ o)) as [[[]| | |] m]; try done. injection Hs as <-. by split.
Qed.

End Starting.

(** ** Properties *)
Import ExecutionManagement.

(** The machine starts up: state management's request for the start-up state reaches
    execution management through both RPC layers and its future becomes ready with what the
    table of states says; when the state is entered, the modelled applications run and the
    children are the ones there were and, under identifiers of their own, the processes
    that the manifest lists for the state and that are not bootstrap processes (all of them
    when no [fork] fails), with their arguments; nothing is started on a refusal - nor,
    though the client is told that it succeeded, when another thread holds the state
    server's lock while the notifier runs. *)
Theorem machine_starts_up `{K : Kernel} (srv : RpcServer.t World) (cl : RpcClient.t StateClient.State)
    (c : StateClient.State) (w : World) (states : list FunctionGroupState.t) (locked : bool) :
  rpc_client_ok cl → client_ok c → notifies w →
  RpcServer.mProtocolVersion srv = RpcClient.mProtocolVersion cl →
  RpcServer.mInterfaceVersion srv = RpcClient.mInterfaceVersion cl →
  StateServer.cServiceId ∈ RpcServer.mServices srv →
  RpcServer.mHandlers srv !! message_id 3 1 = Some (handleSetState locked) →
  RpcClient.mHandlers cl !! message_id 3 1 = Some StateClient.setStateHandler →
  FunctionGroupState.mk cMachineFunctionGroup cStartUpState ∈ states →
  let (res, table) := set_spec (mStateServer w) cMachineFunctionGroup cStartUpState in
  ∃ id request response cl' c1 c2 w',
    StateManagement.transitToStartUpState states (cl, c) = (Ok (id, [request]), (cl', c1)) ∧
    RpcServer.TryInvokeHandler srv request w = (Ok (Some response), w') ∧
    RpcClient.InvokeHandler cl' response c1 = (Ok (), c2) ∧
    StateClient.futures c2 !! id = Some res ∧
    StateServer.mCurrentStates (mStateServer w') = table ∧
    (if bool_decide (res = Future.Value) && negb locked
     then mApplicationProcesses w' = map ModelledProcess.Initialize (mApplicationProcesses w) ∧
          ∃ started,
            launched (fun d => negb (isBootstrap d) && bool_decide ((cMachineFunctionGroup, cStartUpState) ∈ activatingStates d))
              (mProcessDescriptors w) started (ProcessManager.os (mProcessManager w)) (ProcessManager.os (mProcessManager w'))
     else mProcessManager w' = mProcessManager w ∧ mApplicationProcesses w' = mApplicationProcesses w).
Proof.
  intros Hcl Hc Hn Hpv Hiv Hin Hsrv Hclh Hst.
  pose proof (set_spec_done (mStateServer w) cMachineFunctionGroup cStartUpState) as Hdone.
  pose proof (set_spec_code (mStateServer w) cMachineFunctionGroup cStartUpState) as Hcode.
  pose proof (handleSetState_machine locked w cStartUpState Hn (proj2 is_bytes_machine) ltac:(by vm_compute)) as Hreq.
  destruct (set_spec _ _ _) as [res table]. destruct Hreq as (w' & Hrun & Htab & Hend).
  destruct (set_state_round srv cl c (handleSetState locked) cMachineFunctionGroup cStartUpState w w' res)
    as (id & request & response & cl' & c1 & c2 & H1 & H2 & H3 & _ & H4); try done; [apply is_bytes_machine..|].
  exists id, request, response, cl', c1, c2, w'. split; [by rewrite transit_first|]. by destruct (_ && _).
Qed.

(** C17: terminating leaves nothing behind: whatever requests an execution management that was
    set up has served and whichever of its children have ended, it knows exactly its
    children; whatever they do when they are asked to end, terminating them ends after at
    most 2049 milliseconds of sleep, no child runs or waits to be reaped then, and every
    signal went to a process that was a child. *)
Theorem shutdown_leaves_no_child `{K : Kernel} descriptors functionGroupStates initialStates processes o w
    (es : list event) ended exitCodes :
  setup descriptors functionGroupStates initialStates processes o = Ok w → running o = ∅ → zombies o = [] →
  let s := mProcessManager (machine_run es w) in
  (∀ pid, is_Some (ProcessManager.mChildren s !! pid) ↔ is_child (ProcessManager.os s) pid) ∧
  (∃ ms s', ProcessManager.TerminateAll 42 ended 2000 s = (Ok ms, s') ∧ ms <= 2049) ∧
  ∃ total w' sent, shutdown 42 ended exitCodes (machine_run es w) = (Ok total, w') ∧
    let s' := mProcessManager w' in
    ProcessManager.mChildren s' = ∅ ∧ running (ProcessManager.os s') = ∅ ∧ zombies (ProcessManager.os s') = [] ∧
    signals (ProcessManager.os s') = signals (ProcessManager.os s) ++ sent ∧
    Forall (fun p => is_child (ProcessManager.os s) p.1) sent.
Proof.
  intros Hs Hr Hz s. destruct (setup_ok _ _ _ _ _ _ Hs Hr Hz) as [Ht _].
  pose proof (machine_run_tracks es w Ht : tracks s) as Hts.
  destruct (TerminateAll_spec 42 ended 2000 s Hts ltac:(lia) ltac:(lia) ltac:(lia)) as (ms & s' & Hrun & Hms & H1 & H2 & H3 & sent & H4 & H5).
  split; [apply (t_children _ Hts)|]. split; [exists ms, s'; split; [done|lia]|].
  unfold shutdown, on_manager. cbv [mbind M_bind]. fold s. rewrite Hrun. do 2 eexists. exists sent. split; [reflexivity|].
  cbn. by split_and!.
Qed.

(** A child that is reaped before it is recorded is never forgotten: [Spawn] records the
    child it forked without a lock; if the child ends, and the loop of [Main] reaps it before
    the entry is made, the entry stays although there is no such child, so terminating waits
    for its whole two seconds and signals that process identifier twice, whatever process
    has it by then. *)
Theorem reaped_before_recorded `{K : Kernel} s path argv pid how ended :
  tracks s → fork (ProcessManager.os s) = Some pid →
  let s1 := snd (ProcessManager.spawn_fork argv s) in
  let s2 := ProcessManager.mk (ProcessManager.mChildren s1) (ends pid how (ProcessManager.os s1)) in
  let s3 := snd (ProcessManager.ReapFinished s2) in
  let s4 := snd (ProcessManager.record_child pid path s3) in
  is_Some (ProcessManager.mChildren s4 !! pid) ∧ ¬ is_child (ProcessManager.os s4) pid ∧
  ∃ ms s5, ProcessManager.TerminateAll 42 ended 2000 s4 = (Ok ms, s5) ∧ 2000 <= ms ∧
    (pid, SIGTERM) ∈ signals (ProcessManager.os s5) ∧ (pid, SIGKILL) ∈ signals (ProcessManager.os s5).
Proof.
  intros Ht Hf s1 s2 s3 s4.
  assert (Hm : is_Some (ProcessManager.mChildren s4 !! pid)) by (cbn; by rewrite lookup_insert_eq).
  assert (Hn : ¬ is_child (ProcessManager.os s4) pid).
  { intros [Hr|Hr]; [|cbn in Hr; by apply elem_of_nil in Hr]. revert Hr.
    cbn [s4 s3 s2 ProcessManager.record_child ProcessManager.ReapFinished modify snd ProcessManager.os running].
    subst s1. unfold ProcessManager.spawn_fork, ends. rewrite Hf. cbn. rewrite lookup_insert_eq. cbn.
    rewrite lookup_delete_is_Some. by intros [? _]. }
  split; [done|]. split; [done|]. generalize dependent s4. intros s4 Hm Hn. clear -Hm Hn. destruct s4 as [m o].
  unfold ProcessManager.TerminateAll. cbv [modify mbind M_bind mret M_ret]. cbn [ProcessManager.mChildren ProcessManager.os].
  rewrite term_all. set (o1 := mkOs _ _ _).
  destruct (await_stale 42 ended 0 0 2000 (ProcessManager.mk m o1) pid Hm Hn ltac:(lia) ltac:(lia)) as (ms & [m2 o2] & -> & Hms & Hs & Hm2 & Hn2).
  cbn [ProcessManager.mChildren ProcessManager.os] in *. do 2 eexists. split; [reflexivity|]. split; [done|].
  rewrite wait_all. cbn [ProcessManager.os signals]. rewrite kill_signals, Hs. unfold o1. cbn [signals].
  rewrite !elem_of_app, !list_elem_of_fmap. split; [left; right|right]; exists pid; (split; [done|by apply elem_of_pids]).
Qed.

(** ** Witnesses *)

(** A system that numbers its processes upwards. *)
Definition pids_of (o : Os) : list Z := (map_to_list (running o)).*1 ++ (zombies o).*1.

Lemma pid_bound l p : p ∈ l → p <= foldr Z.max 0 l.
Proof. induction l as [|q l IH]; intros Hp; [by apply elem_of_nil in Hp|]. apply elem_of_cons in Hp as [->|Hp]; cbn; [lia|]. apply IH in Hp. lia. Qed.

Lemma pids_nonneg l : 0 <= foldr Z.max 0 l.
Proof. induction l; cbn; lia. Qed.

#[program] Definition demo_kernel : Kernel := {| fork o := Some (1 + foldr Z.max 0 (pids_of o)) |}.
Next Obligation.
  intros o pid [= <-]. split; [pose proof (pids_nonneg (pids_of o)); lia|]. intros Hc.
  assert (Hin : 1 + foldr Z.max 0 (pids_of o) ∈ pids_of o).
  { apply elem_of_app. destruct Hc as [[a Ha]|Hz]; [left|by right].
    apply list_elem_of_fmap. exists (1 + foldr Z.max 0 (pids_of o), a). split; [done|]. by apply elem_of_map_to_list. }
  apply pid_bound in Hin. lia.
Qed.

Definition Off : name := bytes_of_string "Off".
Definition demo_descriptor (path : name) (bootstrap : bool) (state : name) : ProcessDescriptor :=
  mkDescriptor path path [[45]] [] bootstrap {[ (cMachineFunctionGroup, state) ]}.

(** A bootstrap process, one for the start-up state, one for the other. *)
Definition demo_descriptors : list ProcessDescriptor :=
  [demo_descriptor [97] true cStartUpState; demo_descriptor [98] false cStartUpState; demo_descriptor [99] false Off].
Definition demo_fg_states : gset (name * name) := {[ (cMachineFunctionGroup, Off); (cMachineFunctionGroup, cStartUpState) ]}.
Definition demo_world : World :=
  mk (ProcessManager.mk {[ 1 := [97] ]} (mkOs {[ 1 := [[97]; [45]] ]} [] [])) [ModelledProcess.construct] demo_descriptors
    (StateServer.mk demo_fg_states {[ cMachineFunctionGroup := Some on_state_change ]} {[ cMachineFunctionGroup := Off ]} false false []).

Lemma demo_setup :
  setup (K := demo_kernel) demo_descriptors demo_fg_states {[ cMachineFunctionGroup := Off ]} [ModelledProcess.construct] (mkOs ∅ [] []) =
    Ok demo_world.
Proof. vm_compute. reflexivity. Qed.

Definition demo_em_server : RpcServer.t World :=
  RpcServer.SetHandler (RpcServer.construct 1 1) 3 1 (handleSetState (K := demo_kernel) false).

Lemma machine_starts_up_witness :
  ∃ w' id c2 started,
    StateClient.futures c2 !! id = Some Future.Value ∧
    launched (K := demo_kernel) (activated cStartUpState) demo_descriptors started
      (ProcessManager.os (mProcessManager demo_world)) (ProcessManager.os (mProcessManager w')) ∧
    started.*2 = [demo_descriptor [98] false cStartUpState].
Proof.
  pose proof (machine_starts_up (K := demo_kernel) demo_em_server demo_rpc_client StateClient.construct demo_world
    [FunctionGroupState.mk cMachineFunctionGroup cStartUpState] false demo_rpc_client_ok demo_client_ok eq_refl eq_refl eq_refl) as H.
  assert (Hset : set_spec (mStateServer demo_world) cMachineFunctionGroup cStartUpState =
    (Future.Value, {[ cMachineFunctionGroup := cStartUpState ]})) by (vm_compute; reflexivity).
  rewrite Hset in H. destruct H as (id & request & response & cl' & c1 & c2 & w' & _ & _ & _ & Hf & _ & _ & started & Hl).
  - set_solver.
  - reflexivity.
  - reflexivity.
  - by left.
  - exists w', id, c2, started. split; [done|]. split; [done|].
    rewrite (l_all _ _ _ _ _ Hl) by by eexists. vm_compute. reflexivity.
Defined.

(** The children end when they are asked to, or never. *)
Lemma shutdown_leaves_no_child_witness :
  ∃ total w', shutdown 42 (fun _ => []) [7] (machine_run (K := demo_kernel) [ChildEnds 1 (Exited 0); Activation] demo_world) = (Ok total, w') ∧
    running (ProcessManager.os (mProcessManager w')) = ∅.
Proof.
  destruct (shutdown_leaves_no_child (K := demo_kernel) _ _ _ _ _ _ [ChildEnds 1 (Exited 0); Activation] (fun _ => []) [7]
    demo_setup eq_refl eq_refl) as (_ & _ & total & w' & sent & Hrun & _ & Hr & _). by exists total, w'.
Defined.

Lemma reaped_before_recorded_witness :
  ∃ ms s5, ProcessManager.TerminateAll 42 (fun _ => []) 2000
      (ProcessManager.mk {[ 1 := [97]; 2 := [98] ]} (mkOs {[ 1 := [[97]; [45]] ]} [] [])) = (Ok ms, s5) ∧
    2000 <= ms ∧ (2, SIGKILL) ∈ signals (ProcessManager.os s5).
Proof.
  assert (Ht : tracks (mProcessManager demo_world)).
  { exact (proj1 (setup_ok (K := demo_kernel) _ _ _ _ _ _ demo_setup eq_refl eq_refl)). }
  destruct (reaped_before_recorded (K := demo_kernel) (mProcessManager demo_world) [98] [[98]] 2 (Exited 1) (fun _ => []) Ht eq_refl)
    as (_ & _ & ms & s5 & Hrun & Hms & _ & Hk).
  exists ms, s5. split; [|by split]. rewrite <- Hrun. vm_compute. reflexivity.
Defined.
