(* ===== verification/ExecManifest.v ===== *)
(** * The execution manifest: application/platform/execution_management.cpp

    What execution management reads in its manifest: the address of its RPC server, the
    function groups with their states, and the processes; and its start from a file, which
    hands all of it to the set-up of Platform.v. *)

From stdpp Require Import strings gmap.
From S2P Require Import Prelude Texts Arxml Exec Platform.
#[local] Open Scope Z_scope.

Module ExecutionManifest.
Import ExecutionManagement.
Section ExecutionManifest.
Context `{XmlText}.

(** [application/platform/execution_management.cpp:27-49] getRpcConfiguration: [old] is what the
    variable holds that is to be filled *)
Definition getRpcConfiguration (file : option string) (old : NetworkConfiguration.t * Z) : outcome (NetworkConfiguration.t * Z) :=
  '(successful, result, version) ←
    NetworkConfiguration.TryGetRpcConfiguration file "RpcServerEP" "ServerUnicastTcp" old.1 old.2;
  if (successful : bool) then Ok (result, version) else Throw std_runtime_error.

(** [application/platform/execution_management.cpp:51-68] fillFunctionGroupStates *)
Definition fillFunctionGroupStates (functionGroupShortName functionGroupContent : string) (functionGroupStates : gset (name * name)) :
    outcome (gset (name * name)) :=
  cArxmlReader ← ArxmlReader.construct functionGroupContent;
  let cFunctionGroupStateNodes :=
    ArxmlReader.GetNodes ["FUNCTION-GROUP"; "MODE-DECLARATION-GROUP"; "MODE-DECLARATIONS"]%string cArxmlReader in
  Ok (foldl (fun states n =>
               {[(bytes_of_string functionGroupShortName, bytes_of_string (ArxmlNode.GetShortName (Some n)))]} ∪ states)
            functionGroupStates cFunctionGroupStateNodes).

(** [application/platform/execution_management.cpp:70-99] fillInitialStates *)
Definition fillInitialStates (functionGroupShortName functionGroupContent : string) (initialStates : gmap name name) :
    outcome (gmap name name) :=
  cArxmlReader ← ArxmlReader.construct functionGroupContent;
  let cModeDeclarationGroupNode := ArxmlReader.GetRootNode ["FUNCTION-GROUP"; "MODE-DECLARATION-GROUP"]%string cArxmlReader in
  match ArxmlNode.TryGetReference "INITIAL-MODE-REF" "MODE-DECLARATION" cModeDeclarationGroupNode with
  | Some initialStateShortName =>
      Ok (<[bytes_of_string functionGroupShortName := bytes_of_string initialStateShortName]> initialStates)
  | None => Throw std_runtime_error
  end.

(** The loop over the function groups. *)
Fixpoint fill_all (cFunctionGroupNodes : list node) (functionGroupStates : gset (name * name)) (initialStates : gmap name name) :
    outcome (gset (name * name) * gmap name name) :=
  match cFunctionGroupNodes with
  | [] => Ok (functionGroupStates, initialStates)
  | n :: cFunctionGroupNodes =>
      let cShortName := ArxmlNode.GetShortName (Some n) in
      let cNodeContent := print n in
      initialStates ← fillInitialStates cShortName cNodeContent initialStates;
      functionGroupStates ← fillFunctionGroupStates cShortName cNodeContent functionGroupStates;
      fill_all cFunctionGroupNodes functionGroupStates initialStates
  end.

(** [application/platform/execution_management.cpp:101-122] fillStates, from nothing *)
Definition fillStates (file : option string) : outcome (gset (name * name) * gmap name name) :=
  cArxmlReader ← ArxmlReader.construct_file file;
  fill_all (ArxmlReader.GetNodes ["AUTOSAR"; "AR-PACKAGES"; "AR-PACKAGE"; "ELEMENTS"; "FUNCTION-GROUPS"]%string cArxmlReader) ∅ ∅.

(** The text below a path, as a name. *)
Definition text_at (path : list string) (reader : list node) : name :=
  bytes_of_string (ArxmlNode.GetText (ArxmlReader.GetRootNode path reader)).

(** [application/platform/execution_management.cpp:171-188] parseProcessDescriptors: the loop over
    the states that activate a process *)
Fixpoint parseIrefs (cIrefNodes : list node) (activatingStates : gset (name * name)) : outcome (gset (name * name)) :=
  match cIrefNodes with
  | [] => Ok activatingStates
  | n :: cIrefNodes =>
      cIrefReader ← ArxmlReader.construct (print n);
      let fg := text_at ["FUNCTION-GROUP-STATE-IREF"; "FUNCTION-GROUP-REF"]%string cIrefReader in
      let state := text_at ["FUNCTION-GROUP-STATE-IREF"; "FUNCTION-GROUP-STATE-REF"]%string cIrefReader in
      parseIrefs cIrefNodes ({[(fg, state)]} ∪ activatingStates)
  end.

(** [application/platform/execution_management.cpp:137-190] parseProcessDescriptors: one process *)
Definition parseProcess (cProcessNode : node) : outcome ProcessDescriptor :=
  cProcessReader ← ArxmlReader.construct (print cProcessNode);
  activatingStates ← parseIrefs (ArxmlReader.GetNodes ["PROCESS"; "FUNCTION-GROUP-STATE-IREFS"]%string cProcessReader) ∅;
  Ok (mkDescriptor
        (bytes_of_string (ArxmlNode.GetShortName (Some cProcessNode)))
        (text_at ["PROCESS"; "EXECUTABLE-PATH"]%string cProcessReader)
        (map (fun n => bytes_of_string (ArxmlNode.GetText (Some n)))
             (ArxmlReader.GetNodes ["PROCESS"; "PROCESS-ARGUMENTS"]%string cProcessReader))
        (text_at ["PROCESS"; "FIFO-PATH"]%string cProcessReader)
        (bool_decide (ArxmlNode.GetText (ArxmlReader.GetRootNode ["PROCESS"; "BOOTSTRAP"]%string cProcessReader) = "true"%string))
        activatingStates).

Fixpoint parseProcesses (cProcessNodes : list node) : outcome (list ProcessDescriptor) :=
  match cProcessNodes with
  | [] => Ok []
  | n :: cProcessNodes => d ← parseProcess n; ds ← parseProcesses cProcessNodes; Ok (d :: ds)
  end.

(** [application/platform/execution_management.cpp:124-194] parseProcessDescriptors *)
Definition parseProcessDescriptors (file : option string) : outcome (list ProcessDescriptor) :=
  cArxmlReader ← ArxmlReader.construct_file file;
  parseProcesses (ArxmlReader.GetNodes ["AUTOSAR"; "AR-PACKAGES"; "AR-PACKAGE"; "ELEMENTS"; "PROCESSES"]%string cArxmlReader).

(** [application/platform/execution_management.cpp:237-278] Main, up to its loop: the address of
    its server, and the machine that is set up *)
Definition start `{Kernel} (file : option string) (old : NetworkConfiguration.t * Z) (processes : list ModelledProcess.t) (o : Os) :
    outcome (NetworkConfiguration.t * Z * World) :=
  cRpcConfiguration ← getRpcConfiguration file old;
  descriptors ← parseProcessDescriptors file;
  '(functionGroupStates, initialState) ← fillStates file;
  w ← setup descriptors functionGroupStates initialState processes o;
  Ok (cRpcConfiguration, w).

End ExecutionManifest.
End ExecutionManifest.

(** ** Lemmas: declared machines *)
Module ExecManifest_facts.
Import Arxml_facts ExecutionManagement ExecutionManifest.

(** A function group and a process as a manifest declares them. *)
Record Group := mkGroup { g_name : string; g_initial : option string; g_states : list string }.
Record Process := mkProcess {
  p_name : string; p_path : string; p_bootstrap : bool; p_fifo : option string;
  p_arguments : list string; p_states : list (string * string)
}.

Definition leaf (name : string) (text : string) : node := Element name [] [CharacterData text].

Definition group_node (g : Group) : node :=
  Element "FUNCTION-GROUP" []
    [ short_name (g_name g);
      Element "MODE-DECLARATION-GROUP" []
        (match g_initial g with
         | Some i => [Element "INITIAL-MODE-REF" [("DEST", "MODE-DECLARATION")]%string [CharacterData i]]
         | None => []
         end ++ [Element "MODE-DECLARATIONS" [] (map (fun s => Element "MODE-DECLARATION" [] [short_name s]) (g_states g))]) ].

Definition state_node (s : string * string) : node :=
  Element "FUNCTION-GROUP-STATE-IREF" [] [leaf "FUNCTION-GROUP-REF" s.1; leaf "FUNCTION-GROUP-STATE-REF" s.2].

Definition process_node (p : Process) : node :=
  Element "PROCESS" []
    ([ short_name (p_name p); leaf "EXECUTABLE-PATH" (p_path p); leaf "BOOTSTRAP" (if p_bootstrap p then "true" else "false") ] ++
     match p_fifo p with Some f => [leaf "FIFO-PATH" f] | None => [] end ++
     [ Element "PROCESS-ARGUMENTS" [] (map (leaf "PROCESS-ARGUMENT") (p_arguments p));
       Element "FUNCTION-GROUP-STATE-IREFS" [] (map state_node (p_states p)) ]).

Definition machine_elements (groups : list Group) (processes : list Process) : list node :=
  [Element "FUNCTION-GROUPS" [] (map group_node groups); Element "PROCESSES" [] (map process_node processes)].

(** What is declared, as the state server and the process manager take it. *)
Definition pair_of (s : string * string) : name * name := (bytes_of_string s.1, bytes_of_string s.2).
Definition declared_states (groups : list Group) : gset (name * name) :=
  list_to_set (concat (map (fun g => map (fun s => pair_of (g_name g, s)) (g_states g)) groups)).
Definition declared_initials (groups : list Group) (m : gmap name name) : gmap name name :=
  foldl (fun m g => match g_initial g with Some i => <[bytes_of_string (g_name g) := bytes_of_string i]> m | None => m end) m groups.
Definition descriptor_of (p : Process) : ProcessDescriptor :=
  mkDescriptor (bytes_of_string (p_name p)) (bytes_of_string (p_path p)) (map bytes_of_string (p_arguments p))
    (bytes_of_string (default EmptyString (p_fifo p))) (p_bootstrap p) (list_to_set (map pair_of (p_states p))).

Definition has_initial (g : Group) : bool := match g_initial g with Some _ => true | None => false end.

Section Declared.
Context `{XmlText}.

Definition printable_machine (groups : list Group) (processes : list Process) : Prop :=
  Forall (fun g => printable (group_node g)) groups ∧
  Forall (fun p => printable (process_node p) ∧ Forall (fun s => printable (state_node s)) (p_states p)) processes.

Lemma fold_states (fg : string) (states : list string) (acc : gset (name * name)) :
  foldl (fun acc n => {[(bytes_of_string fg, bytes_of_string (ArxmlNode.GetShortName (Some n)))]} ∪ acc) acc
    (map (fun s => Element "MODE-DECLARATION" [] [short_name s]) states) =
  acc ∪ list_to_set (map (fun s => pair_of (fg, s)) states).
Proof.
  revert acc. induction states as [|s states IH]; intros acc; cbn [map foldl list_to_set]; [by rewrite union_empty_r_L|].
  rewrite IH. change (ArxmlNode.GetShortName _) with s. unfold pair_of. cbn [fst snd]. by rewrite (union_comm_L _ acc), union_assoc_L.
Qed.

Lemma fill_declared groups acc initials :
  Forall (fun g => printable (group_node g)) groups →
  fill_all (map group_node groups) acc initials =
    if forallb has_initial groups then Ok (acc ∪ declared_states groups, declared_initials groups initials)
    else Throw std_runtime_error.
Proof.
  intros Hg. revert acc initials. induction Hg as [|g groups Hg _ IH]; intros acc initials.
  { cbn. unfold declared_states. cbn. by rewrite union_empty_r_L. }
  cbn [map fill_all forallb]. unfold fillInitialStates, fillFunctionGroupStates.
  assert (Hc : ArxmlReader.construct (print (group_node g)) = Ok [group_node g]) by by apply construct_print.
  rewrite Hc, !Ok_bind. clear Hc.
  destruct g as [fg [i|] states]; cbn [has_initial g_initial]; [|done].
  change (ArxmlNode.TryGetReference _ _ _) with (Some i). cbv iota. rewrite Ok_bind.
  change (ArxmlReader.GetNodes _ [group_node (mkGroup fg (Some i) states)])
    with (map (fun s => Element "MODE-DECLARATION" [] [short_name s]) states).
  change (ArxmlNode.GetShortName (Some (group_node _))) with fg. rewrite fold_states, Ok_bind, IH. cbn [andb].
  destruct (forallb has_initial groups); [|done]. do 2 f_equal.
  unfold declared_states. cbn [map concat g_states g_name]. by rewrite list_to_set_app_L, union_assoc_L.
Qed.

Lemma irefs_declared states acc :
  Forall (fun s => printable (state_node s)) states →
  parseIrefs (map state_node states) acc = Ok (acc ∪ list_to_set (map pair_of states)).
Proof.
  intros Hs. revert acc. induction Hs as [|s states Hs _ IH]; intros acc; cbn [map parseIrefs list_to_set].
  { by rewrite union_empty_r_L. }
  assert (Hc : ArxmlReader.construct (print (state_node s)) = Ok [state_node s]) by by apply construct_print.
  rewrite Hc, Ok_bind. clear Hc.
  change (text_at ["FUNCTION-GROUP-STATE-IREF"; "FUNCTION-GROUP-REF"]%string _) with (bytes_of_string s.1).
  change (text_at ["FUNCTION-GROUP-STATE-IREF"; "FUNCTION-GROUP-STATE-REF"]%string _) with (bytes_of_string s.2).
  rewrite IH. unfold pair_of. by rewrite (union_comm_L _ acc), union_assoc_L.
Qed.

Lemma processes_declared ps :
  Forall (fun p => printable (process_node p) ∧ Forall (fun s => printable (state_node s)) (p_states p)) ps →
  parseProcesses (map process_node ps) = Ok (map descriptor_of ps).
Proof.
  intros Hps. induction Hps as [|p ps [Hp Hs] _ IH]; [done|]. cbn [map parseProcesses]. unfold parseProcess.
  assert (Hc : ArxmlReader.construct (print (process_node p)) = Ok [process_node p]) by by apply construct_print.
  rewrite Hc, Ok_bind. clear Hc.
  assert (Hn : ArxmlReader.GetNodes ["PROCESS"; "FUNCTION-GROUP-STATE-IREFS"]%string [process_node p] = map state_node (p_states p))
    by (unfold process_node; by destruct (p_fifo p)).
  rewrite Hn, irefs_declared, !Ok_bind, IH, Ok_bind by done.
  unfold descriptor_of. rewrite union_empty_l_L. do 2 f_equal.
  assert (Ha : ArxmlReader.GetNodes ["PROCESS"; "PROCESS-ARGUMENTS"]%string [process_node p] =
               map (leaf "PROCESS-ARGUMENT") (p_arguments p)) by (unfold process_node; by destruct (p_fifo p)).
  rewrite Ha, map_map. destruct p as [a b [] [f|] d e]; done.
Qed.

End Declared.
(** *** The state server's table *)

Lemma initials_declared groups m fg i :
  declared_initials groups m !! fg = Some i →
  m !! fg = Some i ∨ ∃ g st, g ∈ groups ∧ g_initial g = Some st ∧ fg = bytes_of_string (g_name g) ∧ i = bytes_of_string st.
Proof.
  revert m. induction groups as [|g groups IH]; intros m Hi; [by left|].
  destruct (IH _ Hi) as [Hm|(g' & st & Hg & H)]; [|right; exists g', st; split; [by right|done]].
  destruct (g_initial g) as [st|] eqn:E; [|by left].
  destruct (decide (bytes_of_string (g_name g) = fg)) as [<-|Hne].
  - rewrite lookup_insert_eq in Hm. injection Hm as <-. right. exists g, st. by split; [left|].
  - rewrite lookup_insert_ne in Hm by done. by left.
Qed.

Lemma initials_keep groups m fg : is_Some (m !! fg) → is_Some (declared_initials groups m !! fg).
Proof.
  revert m. induction groups as [|g groups IH]; intros m Hm; [done|]. apply IH. destruct (g_initial g); [|done].
  destruct (decide (bytes_of_string (g_name g) = fg)) as [<-|Hne]; [by rewrite lookup_insert_eq|by rewrite lookup_insert_ne].
Qed.

Lemma initials_present groups m g :
  g ∈ groups → has_initial g = true → is_Some (declared_initials groups m !! bytes_of_string (g_name g)).
Proof.
  intros Hg Hi. revert m. induction groups as [|g' groups IH]; intros m; [by apply not_elem_of_nil in Hg|].
  apply elem_of_cons in Hg as [<-|Hg]; [|by apply IH]. cbn. apply initials_keep. unfold has_initial in Hi. destruct (g_initial g); [|done]. by rewrite lookup_insert_eq.
Qed.

Lemma declared_state g groups st :
  g ∈ groups → st ∈ g_states g → (bytes_of_string (g_name g), bytes_of_string st) ∈ declared_states groups.
Proof.
  intros Hg Hst. apply elem_of_list_to_set, list_elem_of_In, in_concat. eexists. split.
  - apply in_map_iff. exists g. split; [reflexivity|by apply list_elem_of_In].
  - apply in_map_iff. exists st. split; [done|by apply list_elem_of_In].
Qed.

Lemma state_declared fg st groups :
  (fg, st) ∈ declared_states groups → ∃ g, g ∈ groups ∧ fg = bytes_of_string (g_name g).
Proof.
  unfold declared_states. intros H%elem_of_list_to_set%list_elem_of_In%in_concat. destruct H as (l & Hl & Hin).
  apply in_map_iff in Hl as (g & <- & Hg). apply in_map_iff in Hin as (s & [= <- <-] & _). exists g. by split; [apply list_elem_of_In|].
Qed.

(** Every group names one of its states as the initial one. *)
Definition well_declared (g : Group) : Prop := ∃ i, g_initial g = Some i ∧ i ∈ g_states g.

Lemma well_has_initial groups : Forall well_declared groups → forallb has_initial groups = true.
Proof.
  intros H. induction H as [|g groups (i & Hi & _) _ IH]; [done|]. cbn. unfold has_initial at 1. by rewrite Hi, IH.
Qed.

Lemma state_server groups :
  Forall well_declared groups →
  StateServer.construct (declared_states groups) (declared_initials groups ∅) =
    Ok (StateServer.mk (declared_states groups) ∅ (declared_initials groups ∅) false false []).
Proof.
  intros Hw. rewrite Forall_forall in Hw. unfold StateServer.construct.
  rewrite (proj2 (forallb_forall _ _)).
  2: { intros [fg i] Hin%list_elem_of_In. apply elem_of_map_to_list in Hin. apply bool_decide_eq_true.
       destruct (initials_declared _ _ _ _ Hin) as [Hm|(g & st & Hg & Hst & -> & ->)]; [by rewrite lookup_empty in Hm|].
       destruct (Hw g Hg) as (i & Hi & Hs). apply (declared_state g); [done|]. congruence. }
  cbn [negb]. rewrite (proj2 (forallb_forall _ _)); [done|].
  intros [fg st] Hin%list_elem_of_In. apply elem_of_elements, state_declared in Hin as (g & Hg & ->).
  apply bool_decide_eq_true. cbn [fst]. apply initials_present; [done|].
  destruct (Hw g Hg) as (i & Hi & _). unfold has_initial. by rewrite Hi.
Qed.

(** ** Lemmas: the start *)
Section Start.
Context `{XmlText} `{K : Kernel}.
Context (content : string) (endpoints : list (string * string)) (applications : list Application) (version : string)
  (groups : list Group) (ps : list Process) (e : string * string) (a : Application).
Hypotheses (Hl : load content = (true, true, manifest endpoints applications (Some version) (machine_elements groups ps)))
  (Hp : printable_manifest endpoints applications) (Hm : printable_machine groups ps)
  (He : List.find (named_endpoint "RpcServerEP") endpoints = Some e)
  (Ha : List.find (named_application "ServerUnicastTcp") applications = Some a).

(** The address that both managers read. *)
Definition address : NetworkConfiguration.t * Z :=
  (NetworkConfiguration.mk e.2 (port_for NetworkConfiguration.Tcp a), u8 (pugi.get_value_uint version)).

Lemma document_read : ArxmlReader.construct_file (Some content) = Ok (manifest endpoints applications (Some version) (machine_elements groups ps)).
Proof. unfold ArxmlReader.construct_file, ArxmlReader.construct. by rewrite Hl. Qed.

Lemma rpc_declared old : getRpcConfiguration (Some content) old = Ok address.
Proof using Ha He Hl Hp.
  unfold getRpcConfiguration, NetworkConfiguration.TryGetRpcConfiguration. rewrite document_read, Ok_bind.
  by rewrite find_configuration, He, Ha, Ok_bind.
Qed.

Lemma descriptors_declared : parseProcessDescriptors (Some content) = Ok (map descriptor_of ps).
Proof using Hl Hm. unfold parseProcessDescriptors. rewrite document_read, Ok_bind. apply processes_declared, Hm. Qed.

Lemma states_read :
  fillStates (Some content) =
    if forallb has_initial groups then Ok (declared_states groups, declared_initials groups ∅) else Throw std_runtime_error.
Proof using Hl Hm.
  unfold fillStates. rewrite document_read, Ok_bind, <- (union_empty_l_L (declared_states groups)). apply fill_declared, Hm.
Qed.

(** The machine that is set up: the declared one, its bootstrap processes started. *)
Lemma start_declared old modelled o :
  Forall well_declared groups → (∃ g, g ∈ groups ∧ bytes_of_string (g_name g) = cMachineFunctionGroup) →
  ∃ w started,
    start (Some content) old modelled o = Ok (address, w) ∧
    notifies w ∧ StateServer.mMutex (mStateServer w) = false ∧ StateServer.mInitialized (mStateServer w) = false ∧
    StateServer.mFunctionGroupStates (mStateServer w) = declared_states groups ∧
    StateServer.mCurrentStates (mStateServer w) = declared_initials groups ∅ ∧
    mApplicationProcesses w = modelled ∧ mProcessDescriptors w = map descriptor_of ps ∧
    launched isBootstrap (map descriptor_of ps) started o (ProcessManager.os (mProcessManager w)).
Proof using Ha He Hl Hm Hp.
  intros Hw (g & Hg & HM). unfold start.
  rewrite rpc_declared, Ok_bind, descriptors_declared, Ok_bind, states_read, well_has_initial, Ok_bind by done.
  unfold setup. rewrite state_server, Ok_bind by done.
  destruct (spawn_all_spec isBootstrap (map descriptor_of ps) (ProcessManager.mk ∅ o)) as (started & H1 & H2).
  unfold StateServer.SetNotifier. cbn [StateServer.mCurrentStates].
  assert (Hi : is_Some (declared_initials groups ∅ !! cMachineFunctionGroup)).
  { rewrite <- HM. apply initials_present; [done|]. rewrite Forall_forall in Hw. destruct (Hw g Hg) as (i & Hi & _).
    unfold has_initial. by rewrite Hi. }
  destruct Hi as [i Hi]. rewrite Hi, Ok_bind.
  destruct (spawn_all isBootstrap (map descriptor_of ps) (ProcessManager.mk ∅ o)) as [r m]. cbn [fst snd] in H1, H2. subst r.
  rewrite !Ok_bind. eexists _, started. split; [reflexivity|]. by repeat split; try apply H2.
Qed.

End Start.
End ExecManifest_facts.

(** ** Properties *)

Section Properties.
Context `{XmlText} `{K : Kernel}.
Import Arxml_facts ExecManifest_facts ExecutionManagement ExecutionManifest.

(** Execution management brings up the machine that is declared.  From a manifest with
    the address of its server and any function groups and processes, each group with an
    initial state of its own and the machine's among them: it reads that address, sets up a
    state server with exactly the declared states and the initial ones, registers for the
    machine's state, keeps all processes as they are declared, and has started the bootstrap
    processes with their arguments and nothing else.  A group without an initial state makes
    it fail before anything is started. *)
Theorem declared_machine_starts content endpoints applications version groups ps old modelled o e a :
  load content = (true, true, manifest endpoints applications (Some version) (machine_elements groups ps)) →
  printable_manifest endpoints applications → printable_machine groups ps →
  List.find (named_endpoint "RpcServerEP") endpoints = Some e →
  List.find (named_application "ServerUnicastTcp") applications = Some a →
  (forallb has_initial groups = false → start (Some content) old modelled o = Throw std_runtime_error) ∧
  (Forall well_declared groups → (∃ g, g ∈ groups ∧ bytes_of_string (g_name g) = cMachineFunctionGroup) →
   ∃ w started,
     start (Some content) old modelled o =
       Ok (NetworkConfiguration.mk e.2 (port_for NetworkConfiguration.Tcp a), u8 (pugi.get_value_uint version), w) ∧
     notifies w ∧
     StateServer.mFunctionGroupStates (mStateServer w) = declared_states groups ∧
     StateServer.mCurrentStates (mStateServer w) = declared_initials groups ∅ ∧
     mApplicationProcesses w = modelled ∧ mProcessDescriptors w = map descriptor_of ps ∧
     launched isBootstrap (map descriptor_of ps) started o (ProcessManager.os (mProcessManager w))).
Proof.
  intros Hl Hp Hm He Ha. split.
  - intros Hi. unfold start. erewrite rpc_declared, Ok_bind, descriptors_declared, Ok_bind, states_read by done. by rewrite Hi.
  - intros Hw Hg. destruct (start_declared content endpoints applications version groups ps e a Hl Hp Hm He Ha old modelled o Hw Hg)
      as (w & started & H1 & H2 & _ & _ & H3). by exists w, started.
Qed.

End Properties.

(** ** Witness *)

(** The start-up of a machine with one bootstrap process and one for the start-up state. *)
Definition example_group : ExecManifest_facts.Group := ExecManifest_facts.mkGroup "MachineFG" (Some "Off") ["Off"; "StartUp"]%string.
Definition example_processes : list ExecManifest_facts.Process :=
  [ ExecManifest_facts.mkProcess "StateManagement" "bin/sm" true None ["exec.arxml"]%string [];
    ExecManifest_facts.mkProcess "ExtendedVehicle" "bin/ev" false (Some "/tmp/fifo"%string) [] [("MachineFG", "StartUp")]%string ].

Definition example_nodes : list node :=
  [ Arxml_facts.network_endpoint ("RpcServerEP", "127.0.0.1")%string; Arxml_facts.application_endpoint example_application;
    ExecManifest_facts.group_node example_group ] ++ map ExecManifest_facts.process_node example_processes ++
  [ ExecManifest_facts.state_node ("MachineFG", "StartUp")%string ].

Definition example_execution_manifest : list node :=
  Arxml_facts.manifest [("RpcServerEP", "127.0.0.1")%string] [example_application] (Some "1"%string)
    (ExecManifest_facts.machine_elements [example_group] example_processes).

(** A printer that numbers the nodes above by a text of their own, and its parser. *)
Definition tag (n : node) : string :=
  match pugi.name_of n with
  | Some "NETWORK-ENDPOINT"%string => "1"
  | Some "AP-APPLICATION-ENDPOINT"%string => "2"
  | Some "FUNCTION-GROUP"%string => "3"
  | Some "PROCESS"%string => (if (ArxmlNode.GetShortName (Some n) =? "StateManagement")%string then "4" else "5")%string
  | _ => "6"
  end.

Definition example_execution_text : XmlText.
Proof.
  refine {| load := fun s => if (s =? "0")%string then (true, true, example_execution_manifest)
                             else match List.find (fun n => (tag n =? s)%string) example_nodes with
                                  | Some n => (true, true, [n]) | None => (false, true, []) end;
            print := tag;
            version_is_one := fun s => (s =? "1.0")%string;
            printable := fun n => In n example_nodes |}.
  intros name attributes children Hin.
  repeat destruct Hin as [Hin|Hin]; try (rewrite <- Hin; reflexivity); destruct Hin.
Defined.

Lemma declared_machine_starts_witness :
  ∃ w, @ExecutionManifest.start example_execution_text demo_kernel (Some "0"%string) (NetworkConfiguration.mk EmptyString 0, 0) [] (mkOs ∅ [] []) =
    Ok (NetworkConfiguration.mk "127.0.0.1" 8080, 1, w) ∧
    ExecutionManagement.mProcessDescriptors w = map ExecManifest_facts.descriptor_of example_processes.
Proof.
  destruct (@declared_machine_starts example_execution_text demo_kernel "0" [("RpcServerEP", "127.0.0.1")%string] [example_application] "1"
    [example_group] example_processes (NetworkConfiguration.mk EmptyString 0, 0) [] (mkOs ∅ [] []) ("RpcServerEP", "127.0.0.1")%string
    example_application) as [_ H].
  - reflexivity.
  - split; (apply Forall_cons; split; [|apply Forall_nil_2]); cbn; tauto.
  - split; repeat (apply Forall_cons; split; [cbn; try split; try tauto|]); repeat constructor; cbn; tauto.
  - reflexivity.
  - reflexivity.
  - destruct H as (w & started & H1 & _ & _ & _ & _ & H6 & _).
    + apply Forall_singleton. exists "Off"%string. split; [reflexivity|]. left.
    + exists example_group. split; [left|reflexivity].
    + exists w. split; [exact H1|exact H6].
Defined.
