(* ===== verification/StateManager.v ===== *)
(** * State management as a process: application/platform/state_management.cpp

    What state management reads in the manifest, its requests to execution management, and
    its loop over the futures.  Its states point to the function groups they belong to, and
    the groups live in a vector: the vector is modelled with the number of its memory block
    and its capacity, so that a pointer dangles once the vector has moved.  The execution
    report, which another thread sends, is that of Exec.v. *)

From stdpp Require Import strings gmap.
From S2P Require Import Prelude Texts Arxml Payload Fsm SomeIp Rpc Exec Platform ExecManifest.
#[local] Open Scope Z_scope.

Module StateManager.
Import ExecutionManagement.

(** A pointer into the vector of function groups: a block and an index. *)
Definition pointer : Type := nat * nat.

(** What is logged. *)
Inductive Log :=
  | GroupConfigured (group : name) | StateConfigured (state group : name)
  | Initialized | Reported | TransitionFetched | StartedUp | Terminated | Failed.

(** [application/platform/state_management.h:21-22] StateManagement: the vector of groups with its
    storage, and the vector of states *)
Record t := mk {
  block : nat;
  capacity : nat;
  mFunctionGroups : list name;
  mFunctionGroupStates : list (pointer * name);
  logged : list Log
}.

(** [application/platform/state_management.cpp:13-16] StateManagement *)
Definition construct : t := mk 0 0 [] [] [].

Definition log (x : Log) : M t () :=
  modify (fun s => mk (block s) (capacity s) (mFunctionGroups s) (mFunctionGroupStates s) (logged s ++ [x])).

(** The function group behind a pointer. *)
Definition target (p : pointer) (s : t) : outcome name :=
  if decide (p.1 = block s) then
    match mFunctionGroups s !! p.2 with Some g => Ok g | None => Undefined end
  else Undefined.

Section Configuration.
Context `{XmlText}.
(** The capacity a full vector takes. *)
Variable grow : nat → nat.

(** [application/platform/state_management.cpp:18-38] getRpcConfiguration *)
Definition getRpcConfiguration (file : option string) (old : NetworkConfiguration.t * Z) : outcome (NetworkConfiguration.t * Z) :=
  '(successful, result, version) ←
    NetworkConfiguration.TryGetRpcConfiguration file "RpcServerEP" "ServerUnicastTcp" old.1 old.2;
  if (successful : bool) then Ok (result, version) else Throw std_runtime_error.

(** [application/platform/state_management.cpp:52-66] configureStates: the loop over the states *)
Fixpoint add_states (functionGroup : pointer) (cFunctionGroupStateNodes : list node) : M t () :=
  match cFunctionGroupStateNodes with
  | [] => mret ()
  | n :: nodes =>
      let shortName := bytes_of_string (ArxmlNode.GetShortName (Some n)) in
      modify (fun s => mk (block s) (capacity s) (mFunctionGroups s) (mFunctionGroupStates s ++ [(functionGroup, shortName)]) (logged s));;
      s ← get;
      functionGroupInstance ← lift (target functionGroup s);
      log (StateConfigured shortName functionGroupInstance);;
      add_states functionGroup nodes
  end.

(** [application/platform/state_management.cpp:40-67] configureStates *)
Definition configureStates (functionGroup : pointer) (functionGroupContent : string) : M t () :=
  cArxmlReader ← lift (ArxmlReader.construct functionGroupContent);
  add_states functionGroup
    (ArxmlReader.GetNodes ["FUNCTION-GROUP"; "MODE-DECLARATION-GROUP"; "MODE-DECLARATIONS"]%string cArxmlReader).

(** [mFunctionGroups.push_back]: a full vector moves to a new block. *)
Definition push_back (g : name) : M t () := fun s =>
  if (length (mFunctionGroups s) <? capacity s)%nat
  then (Ok (), mk (block s) (capacity s) (mFunctionGroups s ++ [g]) (mFunctionGroupStates s) (logged s))
  else (Ok (), mk (S (block s)) (grow (capacity s)) (mFunctionGroups s ++ [g]) (mFunctionGroupStates s) (logged s)).

(** [application/platform/state_management.cpp:77-90] configureFunctionGroups: the loop over the
    groups *)
Fixpoint add_groups (cFunctionGroupNodes : list node) : M t () :=
  match cFunctionGroupNodes with
  | [] => mret ()
  | n :: nodes =>
      let shortName := bytes_of_string (ArxmlNode.GetShortName (Some n)) in
      push_back shortName;;
      log (GroupConfigured shortName);;
      s ← get;
      configureStates (block s, (length (mFunctionGroups s) - 1)%nat) (print n);;
      add_groups nodes
  end.

(** [application/platform/state_management.cpp:69-91] configureFunctionGroups *)
Definition configureFunctionGroups (file : option string) : M t () :=
  cArxmlReader ← lift (ArxmlReader.construct_file file);
  add_groups (ArxmlReader.GetNodes ["AUTOSAR"; "AR-PACKAGES"; "AR-PACKAGE"; "ELEMENTS"; "FUNCTION-GROUPS"]%string cArxmlReader).

Abbreviation Client := (RpcClient.t StateClient.State * StateClient.State)%type.

(** [application/platform/state_management.cpp:123-141] transitToStartUpState: the group of each
    state is looked at through its pointer *)
Fixpoint transit (states : list (pointer * name)) (s : t) : M Client (nat * list bytes) :=
  match states with
  | [] => raise std_runtime_error
  | (functionGroup, state) :: states =>
      g ← lift (target functionGroup s);
      if bool_decide (g = cMachineFunctionGroup) && bool_decide (state = cStartUpState)
      then StateClient.SetState (FunctionGroupState.mk g state)
      else transit states s
  end.
Definition transitToStartUpState (s : t) : M Client (nat * list bytes) := transit (mFunctionGroupStates s) s.

(** What runs when the loop is reached: the address used, both futures, the requests that
    were sent, and the clients. *)
Record Running := mkRunning {
  configuration : NetworkConfiguration.t * Z;
  initialMachineStateTransition : nat;
  startUpStateTransition : nat;
  sent : list bytes;
  clients : Client
}.

(** [application/platform/state_management.cpp:155-187] Main, up to its loop *)
Definition start (file : option string) (old : NetworkConfiguration.t * Z) : M t Running :=
  cRpcConfiguration ← lift (getRpcConfiguration file old);
  let rpcClient := StateClient.register (RpcClient.construct cRpcConfiguration.2 1) in
  configureFunctionGroups file;;
  s ← get;
  let '(r, cs) :=
    (initial ← StateClient.GetInitialMachineStateTransitionResult;
     startUp ← transitToStartUpState s;
     mret (initial, startUp)) (rpcClient, StateClient.construct) in
  '(initial, startUp) ← lift r;
  log Initialized;;
  mret (mkRunning cRpcConfiguration initial.1 startUp.1 (initial.2 ++ startUp.2) cs).

(** [application/platform/state_management.h:42-68] checkFuture: whether the future is valid
    afterwards; an exception in it becomes, or is, a runtime_error *)
Definition checkFuture (valid : bool) (future : Future.content) (message : Log) : M t bool :=
  if valid then
    match future with
    | Future.Pending => mret true
    | Future.Value => log message;; mret false
    | Future.Failure _ => raise std_runtime_error
    end
  else mret false.

(** What the three futures hold when a round looks at them. *)
Record Round := mkRound { report : Future.content; initial : Future.content; startUp : Future.content }.

(** [application/platform/state_management.cpp:189-202] Main: the rounds of its loop *)
Fixpoint loop (rounds : list Round) (reportValid initialValid startUpValid : bool) : M t () :=
  match rounds with
  | [] => mret ()
  | r :: rounds =>
      reportValid ← checkFuture reportValid (report r) Reported;
      initialValid ← checkFuture initialValid (initial r) TransitionFetched;
      startUpValid ← checkFuture startUpValid (startUp r) StartedUp;
      loop rounds reportValid initialValid startUpValid
  end.

(** [application/platform/state_management.cpp:143-218] Main: until it is cancelled after the
    rounds, with its exit code *)
Definition Main (file : option string) (old : NetworkConfiguration.t * Z) (rounds : list Round) : M t Z := fun s =>
  match (_ ← start file old; loop rounds true true true;; log Terminated;; mret 0) s with
  | (Throw std_runtime_error, s) => (log Failed;; mret 1) s
  | r => r
  end.

End Configuration.
End StateManager.

(** ** The machine's RPC server *)
Module MachineServer.
Import ExecutionManagement.
Section MachineServer.
Context `{K : Kernel}.

(** The state server's second handler, on the machine. *)
Definition handleStateTransition (payload : bytes) : M World (bool * bytes) := fun w =>
  let '(r, s) := StateServer.handleStateTransition payload (mStateServer w) in (r, set_server s w).

(** [application/platform/execution_management.cpp:242-263] Main: the RPC server with the state
    server's handlers; the execution server's belong to another service *)
Definition server (protocolVersion : Z) : RpcServer.t World :=
  RpcServer.SetHandler (RpcServer.SetHandler (RpcServer.construct protocolVersion 1)
    StateServer.cServiceId StateServer.cSetStateId (handleSetState false))
    StateServer.cServiceId StateServer.cStateTransitionId handleStateTransition.

End MachineServer.
End MachineServer.

(** ** Lemmas: what is configured *)
Module StateManager_facts.
Import Arxml_facts ExecManifest_facts ExecutionManagement StateManager MachineServer.

(** The states that a manifest declares, in its order. *)
Definition all_states (groups : list Group) : list FunctionGroupState.t :=
  concat (map (fun g => map (fun s => FunctionGroupState.mk (bytes_of_string (g_name g)) (bytes_of_string s)) (g_states g)) groups).

Lemma all_states_declared groups fg st : FunctionGroupState.mk fg st ∈ all_states groups ↔ (fg, st) ∈ declared_states groups.
Proof.
  unfold declared_states. rewrite elem_of_list_to_set. unfold all_states.
  rewrite !list_elem_of_In, !in_concat. split; intros (l & Hl & Hin); apply in_map_iff in Hl as (g & <- & Hg);
    apply in_map_iff in Hin as (s & E & Hs); injection E as <- <-; eexists;
    (split; [by apply in_map|]); apply in_map_iff; by exists s.
Qed.

Section Facts.
Context `{XmlText} (grow : nat → nat).

(** One group with its states. *)
Definition declare (s : t) (g : Group) : t :=
  let fg := bytes_of_string (g_name g) in
  let s' := snd (push_back grow fg s) in
  mk (block s') (capacity s') (mFunctionGroups s')
    (mFunctionGroupStates s' ++ map (fun st => ((block s', length (mFunctionGroups s)), bytes_of_string st)) (g_states g))
    (logged s' ++ GroupConfigured fg :: map (fun st => StateConfigured (bytes_of_string st) fg) (g_states g)).

Lemma add_states_declared p fg states s :
  target p s = Ok fg →
  add_states p (map (fun st => Element "MODE-DECLARATION" [] [short_name st]) states) s =
    (Ok (), mk (block s) (capacity s) (mFunctionGroups s) (mFunctionGroupStates s ++ map (fun st => (p, bytes_of_string st)) states)
              (logged s ++ map (fun st => StateConfigured (bytes_of_string st) fg) states)).
Proof.
  revert s. induction states as [|st states IH]; intros s Hp; [destruct s; cbn; by rewrite !app_nil_r|].
  cbn [map add_states]. change (ArxmlNode.GetShortName _) with st. run. unfold target in Hp |- *. cbn [block mFunctionGroups].
  rewrite Hp. unfold log. run. rewrite IH by done. cbn [block capacity mFunctionGroups mFunctionGroupStates logged].
  by rewrite <- !app_assoc.
Qed.

Lemma add_groups_declared groups s :
  Forall (fun g => printable (group_node g)) groups →
  add_groups grow (map group_node groups) s = (Ok (), foldl declare s groups).
Proof.
  intros Hg. revert s. induction Hg as [|g groups Hg _ IH]; intros s; [done|]. cbn [map add_groups foldl].
  change (ArxmlNode.GetShortName (Some (group_node g))) with (g_name g).
  assert (Hc : ArxmlReader.construct (print (group_node g)) = Ok [group_node g]) by by apply construct_print.
  unfold declare, push_back, log. run. unfold configureStates. run.
  destruct (length (mFunctionGroups s) <? capacity s)%nat; cbn [block capacity mFunctionGroups mFunctionGroupStates logged snd];
    rewrite Hc, length_app; (replace (length (mFunctionGroups s) + length [bytes_of_string (g_name g)] - 1)%nat
      with (length (mFunctionGroups s)) by (cbn; lia));
    (replace (ArxmlReader.GetNodes _ [group_node g]) with (map (fun s => Element "MODE-DECLARATION" [] [short_name s]) (g_states g))
      by by destruct g as [? [?|] ?]);
    (rewrite (add_states_declared _ (bytes_of_string (g_name g)));
     [|unfold target; cbn [fst snd block mFunctionGroups]; by rewrite decide_True, list_lookup_middle by done]);
    cbn [block capacity mFunctionGroups mFunctionGroupStates logged]; rewrite <- app_assoc; cbn [app]; apply IH.
Qed.

(** The states' pointers lead to their groups. *)
Definition resolves (s : t) (states : list FunctionGroupState.t) : Prop :=
  Forall2 (fun x f => target x.1 s = Ok (FunctionGroupState.mFunctionGroup f) ∧ x.2 = FunctionGroupState.mStateMetaModel f)
    (mFunctionGroupStates s) states.

Lemma target_kept p s s' fg l :
  block s' = block s → mFunctionGroups s' = mFunctionGroups s ++ l → target p s = Ok fg → target p s' = Ok fg.
Proof.
  unfold target. intros -> ->. case_decide; [|done]. destruct (mFunctionGroups s !! p.2) eqn:E; [|done].
  by rewrite (lookup_app_l_Some _ _ _ _ E).
Qed.

Lemma declare_resolves s g states :
  resolves s states → (mFunctionGroupStates s = [] ∨ (length (mFunctionGroups s) < capacity s)%nat) →
  resolves (declare s g) (states ++ all_states [g]).
Proof.
  intros Hs Hroom. unfold resolves. set (s' := declare s g).
  assert (Hg : mFunctionGroups s' = mFunctionGroups s ++ [bytes_of_string (g_name g)]).
  { unfold s', declare, push_back. by destruct (_ <? _)%nat. }
  assert (Hst : mFunctionGroupStates s' = mFunctionGroupStates s ++
    map (fun st => ((block s', length (mFunctionGroups s)), bytes_of_string st)) (g_states g)).
  { unfold s', declare, push_back. by destruct (_ <? _)%nat. }
  rewrite Hst. apply Forall2_app.
  - destruct Hroom as [Hn|Hroom].
    + unfold resolves in Hs. rewrite Hn in Hs |- *. by inversion Hs.
    + apply (Forall2_impl _ _ _ _ Hs). intros x f [H1 H2]. split; [|done]. apply (target_kept _ s _ _ _) with (2 := Hg); [|done].
      unfold s', declare, push_back. by rewrite (proj2 (Nat.ltb_lt _ _) Hroom).
  - unfold all_states. cbn [map concat]. rewrite app_nil_r. apply Forall2_fmap, Forall_Forall2_diag, Forall_true.
    intros st. split; [|done]. unfold target. cbn [fst snd]. rewrite decide_True, Hg by done. by rewrite list_lookup_middle.
Qed.

Lemma all_resolve groups s states :
  resolves s states → (length (mFunctionGroups s) + length groups <= capacity s)%nat →
  resolves (foldl declare s groups) (states ++ all_states groups).
Proof.
  revert s states. induction groups as [|g groups IH]; intros s states Hs Hroom; [by rewrite app_nil_r|].
  change (all_states (g :: groups)) with (map (fun s => FunctionGroupState.mk (bytes_of_string (g_name g)) (bytes_of_string s)) (g_states g) ++ all_states groups).
  cbn [length foldl] in *. rewrite <- (app_nil_r (map _ (g_states g))), app_assoc.
  apply IH; [apply declare_resolves; [done|right; lia]|].
  unfold declare, push_back. rewrite (proj2 (Nat.ltb_lt _ _)) by lia. cbn. rewrite length_app. cbn. lia.
Qed.

(** A vector that has to grow leaves its block, and earlier pointers dangle. *)
Lemma blocks_grow groups s :
  (block s <= block (foldl declare s groups))%nat ∧
  ∃ more, mFunctionGroupStates (foldl declare s groups) = mFunctionGroupStates s ++ more.
Proof.
  revert s. induction groups as [|g groups IH]; intros s; [split; [done|exists []; by rewrite app_nil_r]|]. cbn [foldl].
  destruct (IH (declare s g)) as [H1 [more H2]]. split.
  - etrans; [|exact H1]. unfold declare, push_back. destruct (_ <? _)%nat; cbn; lia.
  - rewrite H2. unfold declare, push_back. destruct (_ <? _)%nat; cbn; rewrite <- app_assoc; eauto.
Qed.

Lemma vector_moves groups s :
  (capacity s < length (mFunctionGroups s) + length groups)%nat → (length (mFunctionGroups s) <= capacity s)%nat →
  (block s < block (foldl declare s groups))%nat.
Proof.
  revert s. induction groups as [|g groups IH]; intros s Hfull Hle; cbn [length foldl] in *; [lia|].
  destruct (Nat.ltb_spec (length (mFunctionGroups s)) (capacity s)) as [Hlt|Hge].
  - replace (block s) with (block (declare s g)) by (unfold declare, push_back; by rewrite (proj2 (Nat.ltb_lt _ _) Hlt)).
    apply IH; unfold declare, push_back; rewrite (proj2 (Nat.ltb_lt _ _) Hlt); cbn; rewrite length_app; cbn; lia.
  - destruct (blocks_grow groups (declare s g)) as [H1 _]. revert H1. generalize (block (foldl declare (declare s g) groups)).
    intros b. unfold declare, push_back. rewrite (proj2 (Nat.ltb_ge _ _) Hge). cbn. lia.
Qed.

Lemma transit_resolves s ps states c :
  Forall2 (fun x f => target x.1 s = Ok (FunctionGroupState.mFunctionGroup f) ∧ x.2 = FunctionGroupState.mStateMetaModel f) ps states →
  transit ps s c = StateManagement.transitToStartUpState states c.
Proof.
  intros Hs. induction Hs as [|[p st] [fg st'] ps states [H1 H2] _ IH]; [done|]. cbn [fst snd] in H1, H2. cbn in H2. subst st'.
  cbn [transit StateManagement.transitToStartUpState]. run. rewrite H1. cbn. by destruct (_ && _).
Qed.

End Facts.

(** ** Lemmas: the two requests *)

(** The clients after the first request, and after the second. *)
Definition fresh_client (version : Z) : RpcClient.t StateClient.State := StateClient.register (RpcClient.construct version 1).
Definition first_sent (version : Z) : RpcClient.t StateClient.State := snd (RpcClient.Send 3 2 4 [] (fresh_client version)).
Definition machine_state : bytes := FunctionGroupState.Serialize (FunctionGroupState.mk cMachineFunctionGroup cStartUpState) [].
Definition both_sent (version : Z) : RpcClient.t StateClient.State := snd (RpcClient.Send 3 1 4 machine_state (first_sent version)).
Definition waiting : StateClient.State :=
  StateClient.mk [Future.Pending; Future.Pending] (Future.mkPromise 0 true) (Some 0%nat) (Future.mkPromise 1 true) (Some 1%nat).

Lemma transition_requested version :
  StateClient.GetInitialMachineStateTransitionResult (fresh_client version, StateClient.construct) =
    (Ok (1%nat, [SomeIpRpcMessage.Payload (sent_request (fresh_client version) 3 2 4 [])]),
     (first_sent version, StateClient.mk [Future.Pending; Future.Pending] (Future.mkPromise 0 false) None (Future.mkPromise 1 true) (Some 1%nat))).
Proof.
  unfold first_sent. destruct (Send_sent 3 2 4 [] (fresh_client version)) as (cl & Hs & _).
  unfold StateClient.GetInitialMachineStateTransitionResult. cbn [StateClient.cancel StateClient.mStateTransitionFuture StateClient.construct].
  unfold StateClient.getFuture. cbn [Future.retrieved StateClient.mStateTransitionPromise StateClient.futures]. by rewrite Hs.
Qed.

Lemma state_requested version :
  StateClient.SetState (FunctionGroupState.mk cMachineFunctionGroup cStartUpState)
    (first_sent version, StateClient.mk [Future.Pending; Future.Pending] (Future.mkPromise 0 false) None (Future.mkPromise 1 true) (Some 1%nat)) =
    (Ok (0%nat, [SomeIpRpcMessage.Payload (sent_request (first_sent version) 3 1 4 machine_state)]), (both_sent version, waiting)).
Proof.
  unfold both_sent. destruct (Send_sent 3 1 4 machine_state (first_sent version)) as (cl & Hs & _).
  unfold StateClient.SetState. cbn [StateClient.cancel StateClient.mSetStateFuture].
  unfold StateClient.getFuture. cbn [Future.retrieved StateClient.mSetStatePromise StateClient.futures]. fold machine_state. by rewrite Hs.
Qed.

Lemma fresh_ok version : is_u8 version → rpc_client_ok (fresh_client version).
Proof. intros Hv. split; [done|]. split; [done|]. apply map_Forall_empty. Qed.

Lemma versions_kept version :
  RpcClient.mProtocolVersion (first_sent version) = version ∧ RpcClient.mInterfaceVersion (first_sent version) = 1.
Proof. unfold first_sent. by rewrite Send_eq. Qed.

Lemma handlers_kept version :
  RpcClient.mHandlers (both_sent version) !! message_id 3 1 = Some StateClient.setStateHandler ∧
  RpcClient.mHandlers (both_sent version) !! message_id 3 2 = Some StateClient.stateTransitionHandler.
Proof. unfold both_sent, first_sent. by rewrite !Send_eq. Qed.

(** A request to the machine is answered with a message that its client reads. *)
Lemma machine_answers `{K : Kernel} version (cl : RpcClient.t StateClient.State) mid p h w w' :
  is_u8 version → rpc_client_ok cl → RpcClient.mProtocolVersion cl = version → RpcClient.mInterfaceVersion cl = 1 →
  mid = 1 ∨ mid = 2 → is_bytes p → 8 + size p < 4294967296 →
  RpcServer.mHandlers (server version) !! message_id 3 mid = Some h →
  h p w = (Ok (true, []), w') →
  ∃ m, RpcServer.TryInvokeHandler (server version) (SomeIpRpcMessage.Payload (sent_request cl 3 mid 4 p)) w =
         (Ok (Some (SomeIpRpcMessage.Payload m)), w') ∧
    SomeIpRpcMessage.wf m ∧ SomeIpMessage.mMessageId (SomeIpRpcMessage.header m) = message_id 3 mid ∧
    SomeIpRpcMessage.mRpcPayload m = [].
Proof.
  intros Hv Hcl Hpv Hiv Hmid Hp Hsz Hh Hrun. eexists.
  assert (Hid : is_u32 (message_id 3 mid) ∧ u16 (message_id 3 mid ≫ 16) = 3) by (by destruct Hmid as [-> | ->]).
  destruct Hid as [Hid Hsid]. split; [|split].
  - apply (request_answered (server version) cl 3 mid 4 p h w true [] w'); try done; cbn; set_solver.
  - apply reply_ok; (done || apply is_bytes_nil || lia || by split).
  - split; reflexivity.
Qed.

Lemma promise_kept `{K : Kernel} version m h p c i :
  RpcClient.mHandlers (both_sent version) !! SomeIpMessage.mMessageId (SomeIpRpcMessage.header m) = Some h →
  SomeIpRpcMessage.wf m → SomeIpRpcMessage.mRpcPayload m = [] →
  h m c = StateClient.genericHandler p m c → Future.shared p = i → StateClient.futures c !! i = Some Future.Pending →
  RpcClient.InvokeHandler (both_sent version) (SomeIpRpcMessage.Payload m) c =
    (Ok (), StateClient.set_futures (<[i := Future.Value]> (StateClient.futures c)) c).
Proof.
  intros Hh Hwf Hp Hgen Hi Hf. rewrite (InvokeHandler_registered _ m h) by done.
  rewrite Hgen, genericHandler_spec by (rewrite Hp; apply is_bytes_nil). by rewrite Hi, Hf, Hp.
Qed.

(** From a new manager: all pointers hold when the groups fit into the first block, and the
    first one dangles when they do not. *)
Lemma groups_fit `{XmlText} grow groups :
  (length groups <= grow 0)%nat → resolves (foldl (declare grow) StateManager.construct groups) (all_states groups).
Proof.
  intros Hfit. destruct groups as [|g rest]; [by constructor|]. cbn [foldl].
  change (all_states (g :: rest)) with (map (fun s => FunctionGroupState.mk (bytes_of_string (g_name g)) (bytes_of_string s)) (g_states g) ++ all_states rest).
  rewrite <- (app_nil_r (map _ (g_states g))). apply all_resolve; [|exact Hfit].
  apply (declare_resolves grow StateManager.construct g []); [constructor|by left].
Qed.

Lemma first_dangles `{XmlText} grow g rest :
  g_states g ≠ [] → (0 < grow 0 <= length rest)%nat →
  let s := foldl (declare grow) StateManager.construct (g :: rest) in
  ∃ p st more, mFunctionGroupStates s = (p, st) :: more ∧ target p s = Undefined.
Proof.
  intros Hst [Hpos Hfull]. cbn [foldl]. destruct (blocks_grow grow rest (declare grow StateManager.construct g)) as [_ [more Hmore]].
  pose proof (vector_moves grow rest (declare grow StateManager.construct g)) as Hmv. cbn in Hmv.
  specialize (Hmv ltac:(lia) ltac:(lia)). destruct (g_states g) as [|st states] eqn:E; [done|].
  eexists _, _, _. split; [rewrite Hmore; unfold declare at 1; rewrite E; reflexivity|].
  unfold target. cbn [fst snd]. rewrite decide_False; [done|]. cbn. lia.
Qed.

(** Both requests at the machine that waits for them. *)
Lemma transition_granted `{K : Kernel} w :
  StateServer.mInitialized (mStateServer w) = false →
  handleStateTransition [] w =
    (Ok (true, []), set_server (StateServer.mk (StateServer.mFunctionGroupStates (mStateServer w)) (StateServer.mNotifiers (mStateServer w))
       (StateServer.mCurrentStates (mStateServer w)) true (StateServer.mMutex (mStateServer w)) (StateServer.ran (mStateServer w))) w).
Proof. intros Hi. unfold handleStateTransition, StateServer.handleStateTransition. run. by rewrite Hi. Qed.

Lemma start_up_granted `{K : Kernel} w i :
  notifies w → StateServer.mMutex (mStateServer w) = false →
  (cMachineFunctionGroup, cStartUpState) ∈ StateServer.mFunctionGroupStates (mStateServer w) →
  StateServer.mCurrentStates (mStateServer w) !! cMachineFunctionGroup = Some i → i ≠ cStartUpState →
  ∃ w' started,
    handleSetState false machine_state w = (Ok (true, []), w') ∧
    StateServer.mCurrentStates (mStateServer w') = <[cMachineFunctionGroup := cStartUpState]> (StateServer.mCurrentStates (mStateServer w)) ∧
    mApplicationProcesses w' = map ModelledProcess.Initialize (mApplicationProcesses w) ∧
    launched (activated cStartUpState) (mProcessDescriptors w) started
      (ProcessManager.os (mProcessManager w)) (ProcessManager.os (mProcessManager w')).
Proof.
  intros Hn Hfree Hd Hi Hne.
  pose proof (handleSetState_machine false w cStartUpState Hn (proj2 is_bytes_machine) ltac:(by vm_compute)) as Hreq.
  assert (Hspec : set_spec (mStateServer w) cMachineFunctionGroup cStartUpState =
    (Future.Value, <[cMachineFunctionGroup := cStartUpState]> (StateServer.mCurrentStates (mStateServer w)))).
  { unfold set_spec. rewrite bool_decide_eq_true_2 by done. cbn [negb]. rewrite Hfree, Hi.
    by rewrite bool_decide_eq_false_2. }
  rewrite Hspec in Hreq. destruct Hreq as (w' & Hrun & Htab & Happ & started & Hst).
  by exists w', started.
Qed.

(** ** Lemmas: the start *)
Section Start.
Context `{XmlText} `{K : Kernel}.
Context (content : string) (endpoints : list (string * string)) (applications : list Application) (version : string)
  (groups : list Group) (ps : list Process) (e : string * string) (a : Application) (grow : nat → nat).
Hypotheses (Hl : load content = (true, true, manifest endpoints applications (Some version) (machine_elements groups ps)))
  (Hp : printable_manifest endpoints applications) (Hm : printable_machine groups ps)
  (He : List.find (named_endpoint "RpcServerEP") endpoints = Some e)
  (Ha : List.find (named_application "ServerUnicastTcp") applications = Some a).

Let v : Z := (address version e a).2.
Let configured : t := foldl (declare grow) StateManager.construct groups.

(** State management has read the manifest; what follows is the look for the start-up state. *)
Lemma start_eq old :
  StateManager.start grow (Some content) old StateManager.construct =
    match transit (mFunctionGroupStates configured) configured
      (first_sent v, StateClient.mk [Future.Pending; Future.Pending] (Future.mkPromise 0 false) None (Future.mkPromise 1 true) (Some 1%nat)) with
    | (Ok (id, requests), cs) =>
        (Ok (mkRunning (address version e a) 1 id (SomeIpRpcMessage.Payload (sent_request (fresh_client v) 3 2 4 []) :: requests) cs),
         snd (log Initialized configured))
    | (Throw x, _) => (Throw x, configured)
    | (Undefined, _) => (Undefined, configured)
    | (OutOfFuel, _) => (OutOfFuel, configured)
    end.
Proof using Ha He Hl Hm Hp.
  unfold StateManager.start. run. change (getRpcConfiguration (Some content) old) with (ExecutionManifest.getRpcConfiguration (Some content) old).
  rewrite (rpc_declared content endpoints applications version groups ps e a Hl Hp He Ha old).
  unfold configureFunctionGroups. run. rewrite (document_read content endpoints applications version groups ps Hl).
  change (ArxmlReader.GetNodes _ _) with (map group_node groups). rewrite add_groups_declared by apply Hm.
  fold configured. fold v. fold (fresh_client v). rewrite transition_requested. unfold transitToStartUpState.
  destruct (transit _ _ _) as [[[id requests]|x| |] cs]; reflexivity.
Qed.


Lemma no_start_up_state old :
  (length groups <= grow 0)%nat → (cMachineFunctionGroup, cStartUpState) ∉ declared_states groups →
  fst (StateManager.start grow (Some content) old StateManager.construct) = Throw std_runtime_error.
Proof using Ha He Hl Hm Hp.
  intros Hfit Hno. rewrite start_eq, (transit_resolves _ _ (all_states groups)) by by apply groups_fit.
  rewrite <- all_states_declared in Hno. generalize (first_sent v, StateClient.mk [Future.Pending; Future.Pending] (Future.mkPromise 0 false) None
    (Future.mkPromise 1 true) (Some 1%nat)) as cs. intros cs.
  induction (all_states groups) as [|[fg st] states IH]; [done|]. cbn [StateManagement.transitToStartUpState].
  rewrite not_elem_of_cons in Hno. destruct Hno as [Hne Hno].
  destruct (bool_decide (_ = cMachineFunctionGroup)) eqn:E1, (bool_decide (_ = cStartUpState)) eqn:E2; try by apply IH.
  apply bool_decide_eq_true in E1, E2. cbn in E1, E2. by subst.
Qed.

Lemma dangling_look old g rest :
  groups = g :: rest → g_states g ≠ [] → (0 < grow 0 <= length rest)%nat →
  fst (StateManager.start grow (Some content) old StateManager.construct) = Undefined.
Proof using Ha He Hl Hm Hp.
  intros Hg Hst Hfull. rewrite start_eq. unfold configured. rewrite Hg.
  destruct (first_dangles grow g rest Hst Hfull) as (p & st & more & -> & Ht). cbn [transit]. run. by rewrite Ht.
Qed.

(** What state management sends when the start-up state is declared. *)
Lemma start_up_sent old :
  (length groups <= grow 0)%nat → (cMachineFunctionGroup, cStartUpState) ∈ declared_states groups →
  StateManager.start grow (Some content) old StateManager.construct =
    (Ok (mkRunning (address version e a) 1 0
           [SomeIpRpcMessage.Payload (sent_request (fresh_client v) 3 2 4 []);
            SomeIpRpcMessage.Payload (sent_request (first_sent v) 3 1 4 machine_state)] (both_sent v, waiting)),
     snd (log Initialized configured)).
Proof using Ha He Hl Hm Hp.
  intros Hfit Hin. rewrite start_eq, (transit_resolves _ _ (all_states groups)) by by apply groups_fit.
  rewrite Platform.transit_first by by apply all_states_declared. by rewrite state_requested.
Qed.

End Start.
End StateManager_facts.

(** ** Properties *)

Section Properties.
Context `{XmlText} `{K : Kernel}.
Import Arxml_facts ExecManifest_facts ExecutionManagement MachineServer StateManager_facts.

(** C12: a declared machine reaches its start-up state.  Execution and state management start
    from the same manifest, whose groups each have an initial state and whose machine group
    starts in another state than the start-up one.  When all groups fit into the vector's
    first block, state management asks for the initial transition and for the start-up
    state; the machine's server grants both, the machine enters the state and starts the
    processes declared for it, and both of state management's futures become ready.  If the
    start-up state is not declared, state management fails.  When the vector of groups has
    to grow, the states of the first group point to the storage that was given up, and
    looking for the start-up state reads it. *)
Theorem declared_machine_reaches_start_up content endpoints applications version groups ps old old' modelled o e a grow :
  load content = (true, true, manifest endpoints applications (Some version) (machine_elements groups ps)) →
  printable_manifest endpoints applications → printable_machine groups ps →
  List.find (named_endpoint "RpcServerEP") endpoints = Some e →
  List.find (named_application "ServerUnicastTcp") applications = Some a →
  let manager := StateManager.start grow (Some content) old' StateManager.construct in
  ((length groups <= grow 0)%nat → Forall well_declared groups →
   (∀ i, declared_initials groups ∅ !! cMachineFunctionGroup = Some i → i ≠ cStartUpState) →
   if bool_decide ((cMachineFunctionGroup, cStartUpState) ∈ declared_states groups) then
     ∃ configuration w m s r1 r2 a1 a2 w1 w2 c1 c2 started,
       ExecutionManifest.start (Some content) old modelled o = Ok (configuration, w) ∧
       manager = (Ok m, s) ∧ StateManager.configuration m = configuration ∧ StateManager.sent m = [r1; r2] ∧
       RpcServer.TryInvokeHandler (server configuration.2) r1 w = (Ok (Some a1), w1) ∧
       RpcServer.TryInvokeHandler (server configuration.2) r2 w1 = (Ok (Some a2), w2) ∧
       StateServer.mInitialized (mStateServer w1) = true ∧
       StateServer.mCurrentStates (mStateServer w2) = <[cMachineFunctionGroup := cStartUpState]> (declared_initials groups ∅) ∧
       mApplicationProcesses w2 = map ModelledProcess.Initialize modelled ∧
       launched (activated cStartUpState) (map descriptor_of ps) started
         (ProcessManager.os (mProcessManager w)) (ProcessManager.os (mProcessManager w2)) ∧
       RpcClient.InvokeHandler (StateManager.clients m).1 a1 (StateManager.clients m).2 = (Ok (), c1) ∧
       RpcClient.InvokeHandler (StateManager.clients m).1 a2 c1 = (Ok (), c2) ∧
       StateClient.futures c2 !! StateManager.initialMachineStateTransition m = Some Future.Value ∧
       StateClient.futures c2 !! StateManager.startUpStateTransition m = Some Future.Value
   else fst manager = Throw std_runtime_error) ∧
  ((0 < grow 0 < length groups)%nat → (∃ g rest, groups = g :: rest ∧ g_states g ≠ []) → fst manager = Undefined).
Proof.
  intros Hl Hp Hm He Ha manager. split.
  2: { intros Hfull (g & rest & -> & Hst). apply (dangling_look content endpoints applications version (g :: rest) ps e a grow Hl Hp Hm He Ha old' g rest); [done..|].
       cbn in Hfull. lia. }
  intros Hfit Hw Hother. case_bool_decide as Hin.
  2: by apply (no_start_up_state content endpoints applications version groups ps e a).
  destruct (state_declared _ _ _ Hin) as (g & Hg & Hname).
  destruct (start_declared content endpoints applications version groups ps e a Hl Hp Hm He Ha old modelled o Hw ltac:(by exists g))
    as (w & booted & Hstart & Hn & Hfree & Hfresh & Hst & Hcur & Happ & Hdesc & _).
  assert (Hi : is_Some (declared_initials groups ∅ !! cMachineFunctionGroup)).
  { rewrite Hname. apply initials_present; [done|]. rewrite Forall_forall in Hw. destruct (Hw g Hg) as (i & Hi & _). unfold has_initial. by rewrite Hi. }
  destruct Hi as [i Hi]. set (v := (address version e a).2). assert (Hv : is_u8 v) by apply u8_is.
  destruct (versions_kept v) as [Hpv Hiv]. destruct (handlers_kept v) as [Hh1 Hh2].
  destruct (machine_answers v (fresh_client v) 2 [] handleStateTransition w _ Hv (fresh_ok v Hv) eq_refl eq_refl (or_intror eq_refl)
    is_bytes_nil ltac:(done) eq_refl (transition_granted w Hfresh)) as (m1 & Hr1 & Hwf1 & Hid1 & Hp1).
  set (w1 := set_server _ w) in Hr1.
  destruct (start_up_granted w1 i) as (w2 & started & Hrun & Hcur2 & Happ2 & Hla); [done..| | |by apply Hother|].
  { by rewrite <- Hst in Hin. }
  { change (StateServer.mCurrentStates (mStateServer w1)) with (StateServer.mCurrentStates (mStateServer w)). by rewrite Hcur. }
  destruct (machine_answers v (first_sent v) 1 machine_state (handleSetState false) w1 w2 Hv) as (m2 & Hr2 & Hwf2 & Hid2 & Hp2);
    [by apply Send_ok, fresh_ok|done|done|by left|apply is_bytes_state; apply is_bytes_machine|by vm_compute|done|done|].
  eexists _, w, _, _, _, _, _, _, w1, w2, _, _, started. split; [exact Hstart|]. split; [by apply (start_up_sent content endpoints applications version groups ps e a grow)|].
  split; [reflexivity|]. split; [reflexivity|]. split; [exact Hr1|]. split; [exact Hr2|]. split; [done|].
  split; [by rewrite Hcur2, <- Hcur|]. split; [by rewrite Happ2, <- Happ|].
  split; [by rewrite <- Hdesc|]. cbn [StateManager.clients fst snd].
  split; [|split; [|split]].
  - by apply (promise_kept v m1 StateClient.stateTransitionHandler (Future.mkPromise 1 true) waiting 1); [rewrite Hid1|..].
  - by apply (promise_kept v m2 StateClient.setStateHandler (Future.mkPromise 0 true) _ 0); [rewrite Hid2|..].
  - reflexivity.
  - reflexivity.
Qed.

End Properties.

(** ** Witness *)

(** The start-up of the machine of ExecManifest.v, with the vector of libstdc++. *)
Definition doubling (n : nat) : nat := Nat.max 1 (2 * n).

Lemma declared_machine_reaches_start_up_witness :
  ∃ m s, @StateManager.start example_execution_text doubling (Some "0"%string) (NetworkConfiguration.mk EmptyString 0, 0) StateManager.construct = (Ok m, s) ∧
    length (StateManager.sent m) = 2%nat.
Proof.
  destruct (@declared_machine_reaches_start_up example_execution_text demo_kernel "0" [("RpcServerEP", "127.0.0.1")%string] [example_application] "1"
    [example_group] example_processes (NetworkConfiguration.mk EmptyString 0, 0) (NetworkConfiguration.mk EmptyString 0, 0) [] (mkOs ∅ [] [])
    ("RpcServerEP", "127.0.0.1")%string example_application doubling) as [H _].
  - reflexivity.
  - split; (apply Forall_cons; split; [|apply Forall_nil_2]); cbn; tauto.
  - split; repeat (apply Forall_cons; split; [cbn; try split; try tauto|]); repeat constructor; cbn; tauto.
  - reflexivity.
  - reflexivity.
  - specialize (H ltac:(cbn; lia)).
    assert (Hw : Forall ExecManifest_facts.well_declared [example_group]).
    { apply Forall_singleton. exists "Off"%string. split; [reflexivity|]. left. }
    specialize (H Hw).
    assert (Hi : ∀ i, ExecManifest_facts.declared_initials [example_group] ∅ !! ExecutionManagement.cMachineFunctionGroup = Some i →
      i ≠ ExecutionManagement.cStartUpState) by (intros i E; vm_compute in E; injection E as <-; by vm_compute).
    specialize (H Hi). rewrite bool_decide_eq_true_2 in H by (vm_compute; tauto || by apply (bool_decide_unpack _); vm_compute).
    destruct H as (configuration & w & m & s & r1 & r2 & a1 & a2 & w1 & w2 & c1 & c2 & started & _ & H & _ & Hs & _).
    exists m, s. split; [exact H|]. by rewrite Hs.
Defined.
