(* ===== verification/Queue.v ===== *)
(** * The concurrent queue: ara/com/helper/concurrent_queue.h

    The queue between the application's threads and the pollers, as an interleaving of
    the atomic steps of its operations: taking the mutex, changing the [std::queue],
    changing the atomic size, and releasing the mutex.  Ghost lists record what was put
    in and taken out.  The theorem: one consumer that asks [Empty] first is safe and the
    queue is first in, first out; a second consumer makes it undefined. *)

From S2P Require Import Prelude.
From stdpp Require Import functions.
#[local] Open Scope Z_scope.

Module ConcurrentQueue.
Section ConcurrentQueue.
Context {T : Type}.

(** Where a thread is: outside, in TryEnqueue before and after [emplace] and after
    [++mSize], between its [Empty] and its TryDequeue, and in TryDequeue before and
    after [pop] and after [--mSize]. *)
Inductive pc :=
  | Outside
  | Emplacing (element : T)
  | Emplaced
  | EnqueueUnlocking
  | SawElement
  | Popping
  | Popped
  | DequeueUnlocking.

(** [ara/com/helper/concurrent_queue.h:17-27] ConcurrentQueue; a queue of [2^64] elements
    is not possible, so the size is a number *)
Record State := mk {
  mMutex : option nat;
  mQueue : list T;
  mSize : Z;
  pcs : nat → pc;
  enqueued : list T;
  dequeued : list T
}.

Definition construct : State := mk None [] 0 (fun _ => Outside) [] [].

Definition goto (i : nat) (p : pc) (s : State) : State :=
  mk (mMutex s) (mQueue s) (mSize s) (<[i := p]> (pcs s)) (enqueued s) (dequeued s).
Definition set_mutex (o : option nat) (s : State) : State :=
  mk o (mQueue s) (mSize s) (pcs s) (enqueued s) (dequeued s).

(** [ara/com/helper/concurrent_queue.h:33-36] Empty *)
Definition Empty (s : State) : bool := mSize s =? 0.

(** [std::unique_lock::try_lock], then [p]; a thread that does not get the mutex returns
    false. *)
Definition try_lock (i : nat) (p : pc) (s : State) : State :=
  match mMutex s with
  | None => goto i p (set_mutex (Some i) s)
  | Some _ => goto i Outside s
  end.

(** [ara/com/helper/concurrent_queue.h:42-76] TryEnqueue, step by step *)
Definition TryEnqueue_step (i : nat) (p : pc) (s : State) : State :=
  match p with
  | Emplacing e => goto i Emplaced (mk (mMutex s) (mQueue s ++ [e]) (mSize s) (pcs s) (enqueued s ++ [e]) (dequeued s))
  | Emplaced => goto i EnqueueUnlocking (mk (mMutex s) (mQueue s) (mSize s + 1) (pcs s) (enqueued s) (dequeued s))
  | EnqueueUnlocking => goto i Outside (set_mutex None s)
  | _ => s
  end.

(** [ara/com/helper/concurrent_queue.h:81-96] TryDequeue, step by step: [front] and [pop]
    of an empty queue are undefined *)
Definition TryDequeue_step (i : nat) (p : pc) (s : State) : outcome State :=
  match p with
  | SawElement => Ok (try_lock i Popping s)
  | Popping =>
      match mQueue s with
      | [] => Undefined
      | e :: q => Ok (goto i Popped (mk (mMutex s) q (mSize s) (pcs s) (enqueued s) (dequeued s ++ [e])))
      end
  | Popped => Ok (goto i DequeueUnlocking (mk (mMutex s) (mQueue s) (mSize s - 1) (pcs s) (enqueued s) (dequeued s)))
  | DequeueUnlocking => Ok (goto i Outside (set_mutex None s))
  | _ => Ok s
  end.

(** A thread outside starts an operation, or a thread goes on with the one it is in. *)
Inductive action := StartEnqueue (element : T) | StartDequeue | Continue.

Definition step (i : nat) (a : action) (s : State) : outcome State :=
  match a, pcs s i with
  | StartEnqueue e, Outside => Ok (try_lock i (Emplacing e) s)
  | StartDequeue, Outside => Ok (if Empty s then s else goto i SawElement s)
  | Continue, (Emplacing _ | Emplaced | EnqueueUnlocking) as p => Ok (TryEnqueue_step i p s)
  | Continue, p => TryDequeue_step i p s
  | _, _ => Ok s
  end.

Fixpoint run_steps (xs : list (nat * action)) (s : State) : outcome State :=
  match xs with
  | [] => Ok s
  | (i, a) :: xs => s ← step i a s; run_steps xs s
  end.

(** ** The invariant of a queue with one consumer *)
Section Invariant.
Variable consumer : nat.

Definition consuming (p : pc) : bool :=
  match p with SawElement | Popping | Popped | DequeueUnlocking => true | _ => false end.
Definition holds_lock (p : pc) : bool := match p with Outside | SawElement => false | _ => true end.

(** How far the size lags behind the queue while a thread holds the mutex. *)
Definition lag (p : pc) : Z := match p with Emplaced => -1 | Popped => 1 | _ => 0 end.

Record inv (s : State) : Prop := {
  inv_consumer i : consuming (pcs s i) = true → i = consumer;
  inv_lock i : holds_lock (pcs s i) = true ↔ mMutex s = Some i;
  inv_size : mSize s = Z.of_nat (length (mQueue s)) + match mMutex s with Some i => lag (pcs s i) | None => 0 end;
  inv_seen : pcs s consumer = SawElement ∨ pcs s consumer = Popping → 0 < mSize s;
  inv_nonneg : 0 <= mSize s;
  inv_fifo : enqueued s = dequeued s ++ mQueue s
}.

Lemma construct_inv : inv construct.
Proof. split; try done. by intros [?|?]. Qed.

Lemma free_lag s : inv s → ∀ i, holds_lock (pcs s i) = false → match mMutex s with Some j => i ≠ j | None => True end.
Proof.
  intros H i Hi. destruct (mMutex s) as [j|] eqn:Hm; [|done]. intros ->.
  apply (inv_lock _ H) in Hm. congruence.
Qed.

Ltac at_pc j :=
  match goal with
  | |- context [<[?i := ?p]> ?f j] =>
      destruct (decide (i = j)) as [<-|];
      [rewrite ?fn_lookup_insert in *|rewrite ?fn_lookup_insert_ne in * by done]
  end.

(** Threads other than the one that moves keep what they had. *)
Lemma goto_inv i p s m q n e d :
  inv s → (consuming p = true → i = consumer) →
  (holds_lock p = true ↔ m = Some i) →
  (∀ j, j ≠ i → holds_lock (pcs s j) = true ↔ m = Some j) →
  n = Z.of_nat (length q) + match m with Some j => lag (<[i := p]> (pcs s) j) | None => 0 end →
  (consumer = i → p = SawElement ∨ p = Popping → 0 < n) → (consumer ≠ i → mSize s <= n) →
  0 <= n → e = d ++ q →
  inv (mk m q n (<[i := p]> (pcs s)) e d).
Proof.
  intros H Hc Hl Hl' Hn Hs Hs' Hpos He. split; cbn.
  - intros j. destruct (decide (i = j)) as [<-|Hne]; [by rewrite fn_lookup_insert|].
    rewrite fn_lookup_insert_ne by done. apply (inv_consumer _ H).
  - intros j. destruct (decide (i = j)) as [<-|Hne]; [by rewrite fn_lookup_insert|].
    rewrite fn_lookup_insert_ne by done. by apply Hl'.
  - done.
  - destruct (decide (i = consumer)) as [<-|Hne]; [rewrite fn_lookup_insert; by apply Hs|].
    rewrite fn_lookup_insert_ne by done. intros Hp. pose proof (inv_seen _ H Hp). specialize (Hs' ltac:(done)). lia.
  - done.
  - done.
Qed.

(** A thread that holds the mutex is the only one. *)
Lemma others i s : inv s → holds_lock (pcs s i) = true →
  mMutex s = Some i ∧ ∀ j, j ≠ i → holds_lock (pcs s j) = false.
Proof.
  intros H Hi. apply (inv_lock _ H) in Hi. split; [done|]. intros j Hj.
  destruct (holds_lock (pcs s j)) eqn:E; [|done]. apply (inv_lock _ H) in E. congruence.
Qed.

Lemma try_lock_inv i p s :
  inv s → holds_lock p = true → lag p = 0 → (consuming p = true → i = consumer) →
  (p = Popping → 0 < mSize s) → holds_lock (pcs s i) = false → inv (try_lock i p s).
Proof.
  intros H Hp Hlag Hc Hpop Hi. unfold try_lock. destruct (mMutex s) as [j|] eqn:Hm.
  - assert (Hj : j ≠ i) by (intros ->; apply (inv_lock _ H) in Hm; congruence).
    apply goto_inv; try done; try apply H; try lia.
    + rewrite Hm. split; [done|]. by intros [= ->].
    + intros k Hk. apply (inv_lock _ H).
    + rewrite Hm, fn_lookup_insert_ne by done. rewrite (inv_size _ H), Hm. done.
    + intros _ [?|?]; done.
  - apply (goto_inv i p s (Some i) (mQueue s) (mSize s) (enqueued s) (dequeued s)); try done; cbn; try apply H; try lia.
    + intros k Hk. split; [|by intros [= ->]]. intros E. apply (inv_lock _ H) in E. congruence.
    + rewrite fn_lookup_insert, Hlag. rewrite (inv_size _ H), Hm. done.
    + intros _ [->|?]; [done|]. by apply Hpop.
Qed.

(** The step of a thread that holds the mutex and goes on holding it. *)
Lemma holding_inv i p s q n e d :
  inv s → holds_lock (pcs s i) = true → holds_lock p = true → (consuming p = true → i = consumer) →
  n = Z.of_nat (length q) + lag p → (consumer = i → p = SawElement ∨ p = Popping → 0 < n) →
  (consumer ≠ i → mSize s <= n) → 0 <= n → e = d ++ q →
  inv (mk (mMutex s) q n (<[i := p]> (pcs s)) e d).
Proof.
  intros H Hi Hp Hc Hn Hs Hs' Hpos He. destruct (others i s H Hi) as [Hm Ho].
  apply goto_inv; try done.
  - intros j Hj. rewrite (Ho j Hj), Hm. split; [done|]. congruence.
  - by rewrite Hm, fn_lookup_insert.
Qed.

(** The last step of an operation: it releases the mutex. *)
Lemma release_inv i s :
  inv s → holds_lock (pcs s i) = true → lag (pcs s i) = 0 → inv (goto i Outside (set_mutex None s)).
Proof.
  intros H Hi Hlag. destruct (others i s H Hi) as [Hm Ho].
  apply (goto_inv i Outside s None (mQueue s) (mSize s) (enqueued s) (dequeued s)); try done; try apply H.
  - intros j Hj. rewrite (Ho j Hj). done.
  - rewrite (inv_size _ H), Hm, Hlag. done.
  - by intros _ [?|?].
Qed.

Lemma step_inv i a s :
  inv s → (a = StartDequeue → i = consumer) → ∃ s', step i a s = Ok s' ∧ inv s'.
Proof.
  intros H Ha. pose proof (inv_size _ H) as Hsz. pose proof (inv_nonneg _ H) as Hpos. pose proof (inv_fifo _ H) as Hf.
  pose proof (inv_consumer _ H i) as Hcon.
  assert (Hlocked : holds_lock (pcs s i) = true → mSize s = Z.of_nat (length (mQueue s)) + lag (pcs s i)).
  { intros Hi. by rewrite (proj1 (others i s H Hi)) in Hsz. }
  unfold step. destruct (pcs s i) as [|e| | | | | |] eqn:Hi; cbn in Hcon, Hlocked;
    assert (Hh : holds_lock (pcs s i) = holds_lock (pcs s i)) by done; rewrite Hi in Hh at 2; cbn in Hh.
  - destruct a as [e| |]; (eexists; split; [done|]).
    + by apply try_lock_inv.
    + unfold Empty. destruct (mSize s =? 0) eqn:E; [done|]. rewrite Z.eqb_neq in E.
      assert (Hnl : ∀ j, holds_lock (pcs s j) = true ↔ mMutex s = Some j) by apply (inv_lock _ H).
      apply goto_inv; try done; try lia.
      * intros _. by apply Ha.
      * rewrite <- Hnl. by rewrite Hi.
      * rewrite Hsz. f_equal. destruct (mMutex s) as [j|] eqn:Hm; [|done].
        rewrite fn_lookup_insert_ne; [done|]. intros ->. apply (inv_lock _ H) in Hm. congruence.
    + done.
  - destruct a; (eexists; split; [done|]); try done. specialize (Hlocked eq_refl).
    apply (holding_inv i _ s); rewrite ?Hi; try done; cbn; rewrite ?length_app; cbn; try lia; [by intros _ [?|?]|by rewrite Hf, app_assoc].
  - destruct a; (eexists; split; [done|]); try done. specialize (Hlocked eq_refl).
    apply (holding_inv i _ s); rewrite ?Hi; try done; cbn; try lia; by intros _ [?|?].
  - destruct a; (eexists; split; [done|]); try done. apply release_inv; by rewrite ?Hi.
  - destruct a; (eexists; split; [done|]); try done. apply try_lock_inv; try done.
    intros _. apply (inv_seen _ H). left. by rewrite <- (Hcon eq_refl).
  - specialize (Hcon eq_refl). specialize (Hlocked eq_refl). pose proof (inv_seen _ H) as Hs. rewrite <- Hcon, Hi in Hs.
    specialize (Hs (or_intror eq_refl)). destruct a; cbn; [by eexists|by eexists|].
    destruct (mQueue s) as [|e q] eqn:Hq; [cbn in Hlocked; lia|]. eexists; split; [done|].
    cbn [length] in Hlocked. apply (holding_inv i _ s); rewrite ?Hi; try done; cbn; try lia. by rewrite Hf, <- app_assoc.
  - specialize (Hcon eq_refl). specialize (Hlocked eq_refl). destruct a; (eexists; split; [done|]); try done.
    apply (holding_inv i _ s); rewrite ?Hi; try done; cbn; try lia; by intros _ [?|?].
  - destruct a; (eexists; split; [done|]); try done. apply release_inv; by rewrite ?Hi.
Qed.

Lemma run_inv xs s :
  inv s → (∀ i, (i, StartDequeue) ∈ xs → i = consumer) → ∃ s', run_steps xs s = Ok s' ∧ inv s'.
Proof.
  revert s. induction xs as [|[i a] xs IH]; intros s H Hx; [by exists s|]. cbn [run_steps].
  destruct (step_inv i a s H) as (s1 & -> & H1).
  { intros ->. apply Hx. apply elem_of_cons. by left. }
  rewrite Ok_bind. apply IH; [done|]. intros j Hj. apply Hx. apply elem_of_cons. by right.
Qed.

End Invariant.
End ConcurrentQueue.
Arguments State T : clear implicits.
Arguments action T : clear implicits.
End ConcurrentQueue.

(** ** Properties *)

(** C34: while one thread alone dequeues, every interleaving of its steps with those of
    any number of enqueuing threads is defined; what was taken out followed by what is
    in the queue is what was put in, in order, and when nobody holds the mutex the size
    is the number of elements, so [Empty] is true of the empty queue only.  Two threads
    that dequeue can both see one element, and the second [pop] is undefined. *)
Theorem one_consumer_is_safe {T} (consumer : nat) (xs : list (nat * ConcurrentQueue.action T)) (e : T) :
  (∀ i, (i, ConcurrentQueue.StartDequeue) ∈ xs → i = consumer) →
  (∃ s, ConcurrentQueue.run_steps xs ConcurrentQueue.construct = Ok s ∧
     ConcurrentQueue.enqueued s = ConcurrentQueue.dequeued s ++ ConcurrentQueue.mQueue s ∧
     (ConcurrentQueue.mMutex s = None → (ConcurrentQueue.Empty s = true ↔ ConcurrentQueue.mQueue s = []))) ∧
  ∃ xs' : list (nat * ConcurrentQueue.action T),
    ConcurrentQueue.run_steps xs' ConcurrentQueue.construct = Undefined ∧
    ∀ i, (i, ConcurrentQueue.StartDequeue) ∈ xs' → i = 1%nat ∨ i = 2%nat.
Proof.
  intros Hx. split.
  - destruct (ConcurrentQueue.run_inv consumer xs _ (ConcurrentQueue.construct_inv consumer) Hx) as (s & Hs & Hinv).
    exists s. split; [done|]. split; [by apply Hinv|]. intros Hm.
    pose proof (ConcurrentQueue.inv_size _ _ Hinv) as Hsz. rewrite Hm in Hsz. unfold ConcurrentQueue.Empty.
    rewrite Z.eqb_eq, Hsz. destruct (ConcurrentQueue.mQueue s); cbn; split; intros; try done; lia.
  - exists ([(0%nat, ConcurrentQueue.StartEnqueue e); (0%nat, ConcurrentQueue.Continue); (0%nat, ConcurrentQueue.Continue);
             (0%nat, ConcurrentQueue.Continue); (1%nat, ConcurrentQueue.StartDequeue); (2%nat, ConcurrentQueue.StartDequeue)] ++
            repeat (1%nat, ConcurrentQueue.Continue) 4 ++ repeat (2%nat, ConcurrentQueue.Continue) 2).
    split; [by vm_compute|]. cbn [app repeat]. intros i Hi. apply list_elem_of_In in Hi. cbn [In] in Hi.
    intuition (simplify_eq; auto).
Qed.

Lemma one_consumer_is_safe_witness :
  ∃ s, ConcurrentQueue.run_steps [(0%nat, ConcurrentQueue.StartEnqueue 5); (1%nat, ConcurrentQueue.StartEnqueue 6);
    (0%nat, ConcurrentQueue.Continue); (2%nat, ConcurrentQueue.StartDequeue); (0%nat, ConcurrentQueue.Continue);
    (0%nat, ConcurrentQueue.Continue); (2%nat, ConcurrentQueue.StartDequeue); (2%nat, ConcurrentQueue.Continue);
    (2%nat, ConcurrentQueue.Continue)] ConcurrentQueue.construct = Ok s ∧
    ConcurrentQueue.enqueued s = ConcurrentQueue.dequeued s ++ ConcurrentQueue.mQueue s.
Proof.
  destruct (proj1 (one_consumer_is_safe 2 [(0%nat, ConcurrentQueue.StartEnqueue 5); (1%nat, ConcurrentQueue.StartEnqueue 6);
    (0%nat, ConcurrentQueue.Continue); (2%nat, ConcurrentQueue.StartDequeue); (0%nat, ConcurrentQueue.Continue);
    (0%nat, ConcurrentQueue.Continue); (2%nat, ConcurrentQueue.StartDequeue); (2%nat, ConcurrentQueue.Continue);
    (2%nat, ConcurrentQueue.Continue)] 5
    ltac:(intros i Hi; apply list_elem_of_In in Hi; cbn [In] in Hi; intuition (simplify_eq; auto)))) as (s & Hs & Hf & _).
  exists s. split; [exact Hs|exact Hf].
Defined.
