(* ===== verification/DiagManifest.v ===== *)
(** * The diagnostic manager's manifest: application/platform/diagnostic_manager.cpp

    What the diagnostic manager reads in its manifest and the objects that it makes of it:
    the network layer, the discovery client, the event and the monitor.  Its loop over them
    is in DiagManager.v. *)

From stdpp Require Import strings gmap.
From S2P Require Import Prelude Texts Arxml Phm Health HealthManifest SdNetwork SdServer SdClient Monitor DiagManager.
#[local] Open Scope Z_scope.

Module DiagnosticManifest.
Section DiagnosticManifest.
Context `{XmlText}.

(** A node below the elements. *)
Definition element (path : list string) (reader : list node) : handle :=
  ArxmlReader.GetRootNode (["AUTOSAR"; "AR-PACKAGES"; "AR-PACKAGE"; "ELEMENTS"]%string ++ path) reader.

(** What the poller and the sockets accept. *)
Record Sockets := mkSockets { set_up : bool; receiver : bool; sender : bool }.

(** [application/platform/diagnostic_manager.cpp:30-56] configureNetworkLayer *)
Definition configureNetworkLayer (up : Sockets) (old : NetworkConfiguration.t) (reader : list node) : outcome SdNetworkLayer.t :=
  '(successful, networkConfiguration) ←
    NetworkConfiguration.TryGetNetworkConfiguration reader "DiagnosticManagerEP" "MulticastUdp" NetworkConfiguration.Udp old;
  if (successful : bool) then
    SdNetworkLayer.construct (set_up up) (receiver up) (sender up)
      (NetworkConfiguration.ipAddress networkConfiguration) (NetworkConfiguration.portNumber networkConfiguration) []
  else Throw std_runtime_error.

(** [application/platform/diagnostic_manager.cpp:58-99] configureSdClient: the client with the
    default number of repetitions *)
Definition configureSdClient (signal : bool) (reader : list node) : outcome SomeIpSdClient.State :=
  let client := "REQUIRED-SOMEIP-SERVICE-INSTANCE"%string in
  let behavior := [client; "SD-CLIENT-CONFIG"; "INITIAL-FIND-BEHAVIOR"]%string in
  let cServiceId := ArxmlNode.GetValue u16 (element [client; "SERVICE-INTERFACE-DEPLOYMENT"; "SERVICE-INTERFACE-ID"]%string reader) in
  let cInitialDelayMin := ArxmlNode.GetValue i32 (element (behavior ++ ["INITIAL-DELAY-MIN-VALUE"]%string) reader) in
  let cInitialDelayMax := ArxmlNode.GetValue i32 (element (behavior ++ ["INITIAL-DELAY-MAX-VALUE"]%string) reader) in
  if delays_accepted cInitialDelayMin cInitialDelayMax
  then SomeIpSdClient.construct (SomeIpSdClient.mkConfig cServiceId 3) signal
  else Throw std_invalid_argument.

(** [application/platform/diagnostic_manager.cpp:168-198] configureEvent: the event's name and the
    event *)
Definition configureEvent (reader : list node) : string * Event.t :=
  (ArxmlNode.GetShortName (element ["DIAGNOSTIC-EVENT-INTERFACE"]%string reader),
   DiagnosticManager.configureEvent (ArxmlNode.GetValue u32 (element ["DIAGNOSTIC-EVENT-INTERFACE"; "DTC-NUMBER"]%string reader))).

(** [application/platform/diagnostic_manager.cpp:224-268] configureMonitor: the monitor's name, the
    times of its debouncer, and the monitor *)
Definition configureMonitor (isPassing : bool) (event : Event.t) (reader : list node) :
    string * TimerBasedDebouncer.TimeBased * Monitor.t TimerBasedDebouncer.t :=
  let monitor := "DIAGNOSTIC-MONITOR-INTERFACE"%string in
  let debounce := "DIAG-EVENT-DEBOUNCE-TIME-BASED"%string in
  let timeBased := TimerBasedDebouncer.mkConfig
    (ArxmlNode.GetValue u32 (element [monitor; debounce; "TIME-PASSED-THRESHOLD"]%string reader))
    (ArxmlNode.GetValue u32 (element [monitor; debounce; "TIME-FAILED-THRESHOLD"]%string reader)) in
  (ArxmlNode.GetShortName (element [monitor] reader), timeBased, DiagnosticManager.configureMonitor isPassing event).

(** What the manager's loop works on. *)
Record Configured := mkConfigured {
  network : SdNetworkLayer.t;
  client : SomeIpSdClient.State;
  eventName : string;
  monitorName : string;
  timeBased : TimerBasedDebouncer.TimeBased;
  manager : DiagnosticManager.t
}.

(** [application/platform/diagnostic_manager.cpp:316-330] Main, up to its loop; the exceptions of
    the first line and of the client's delays are not caught *)
Definition start (up : Sockets) (old : NetworkConfiguration.t) (signal isPassing : bool) (file : option string) : outcome Configured :=
  cReader ← ArxmlReader.construct_file file;
  layer ← configureNetworkLayer up old cReader;
  sdClient ← configureSdClient signal cReader;
  let '(eventName, event) := configureEvent cReader in
  let '(monitorName, timeBased, monitor) := configureMonitor isPassing event cReader in
  Ok (mkConfigured layer sdClient eventName monitorName timeBased (DiagnosticManager.construct monitor)).

End DiagnosticManifest.
End DiagnosticManifest.

(** ** Lemmas: declared managers *)
Module DiagManifest_facts.
Import Arxml_facts HealthManifest_facts DiagnosticManifest.

(** What a manifest declares besides the network, its numbers as decimal digits. *)
Record Declared := mkDeclared {
  d_service : list Z; d_delay_min : list Z; d_delay_max : list Z;
  d_monitor : string; d_passed : list Z; d_failed : list Z;
  d_event : string; d_dtc : list Z
}.

Definition digits_of (d : Declared) : list (list Z) :=
  [d_service d; d_delay_min d; d_delay_max d; d_passed d; d_failed d; d_dtc d].

Definition diagnostic_elements (d : Declared) : list node :=
  [ Element "REQUIRED-SOMEIP-SERVICE-INSTANCE" []
      [ Element "SERVICE-INTERFACE-DEPLOYMENT" [] [number_node "SERVICE-INTERFACE-ID" (d_service d)];
        Element "SD-CLIENT-CONFIG" [] [Element "INITIAL-FIND-BEHAVIOR" []
          [number_node "INITIAL-DELAY-MIN-VALUE" (d_delay_min d); number_node "INITIAL-DELAY-MAX-VALUE" (d_delay_max d)]] ];
    Element "DIAGNOSTIC-MONITOR-INTERFACE" []
      [ short_name (d_monitor d);
        Element "DIAG-EVENT-DEBOUNCE-TIME-BASED" []
          [number_node "TIME-PASSED-THRESHOLD" (d_passed d); number_node "TIME-FAILED-THRESHOLD" (d_failed d)] ];
    Element "DIAGNOSTIC-EVENT-INTERFACE" [] [short_name (d_event d); number_node "DTC-NUMBER" (d_dtc d)] ].

Section Facts.
Context `{XmlText}.

Lemma element_read cast name ds path endpoints applications d :
  Forall is_digit ds →
  element path (manifest endpoints applications None (diagnostic_elements d)) = Some (number_node name ds) →
  ArxmlNode.GetValue cast (element path (manifest endpoints applications None (diagnostic_elements d))) = cast (saturated ds).
Proof. apply number_read. Qed.

End Facts.
End DiagManifest_facts.

(** ** The manager as declared *)

Section Properties.
Context `{XmlText}.
Import Arxml_facts HealthManifest_facts DiagManifest_facts DiagnosticManifest.

(** What the diagnostic manager makes of its manifest, completely, when its numbers are
    decimal digits: without the network's address it fails with runtime_error, which [Main]
    catches, as it does when a socket cannot be set up; with delays that are negative as int
    (2147483648 and more) or the wrong way round it fails with invalid_argument, which
    nothing catches; otherwise the client looks for the declared service, and the monitor
    debounces with the declared times into an event with the declared number, both offered
    and connected. *)
Theorem diagnostic_manager_as_declared content endpoints applications d up old signal isPassing :
  load content = (true, true, manifest endpoints applications None (diagnostic_elements d)) →
  printable_manifest endpoints applications → Forall (Forall is_digit) (digits_of d) →
  start up old signal isPassing (Some content) =
    match List.find (named_endpoint "DiagnosticManagerEP") endpoints, List.find (named_application "MulticastUdp") applications with
    | Some e, Some a =>
        if set_up up && receiver up && sender up then
          if delays_accepted (i32 (saturated (d_delay_min d))) (i32 (saturated (d_delay_max d))) then
            sdClient ← SomeIpSdClient.construct (SomeIpSdClient.mkConfig (u16 (saturated (d_service d))) 3) signal;
            let times := TimerBasedDebouncer.mkConfig (saturated (d_passed d)) (saturated (d_failed d)) in
            Ok (mkConfigured (SdNetworkLayer.mk e.2 (port_for NetworkConfiguration.Udp a) [] [] []) sdClient (d_event d) (d_monitor d) times
                  (DiagnosticManager.construct (DiagnosticManager.configureMonitor isPassing
                     (DiagnosticManager.configureEvent (saturated (d_dtc d))))))
          else Throw std_invalid_argument
        else Throw std_runtime_error
    | _, _ => Throw std_runtime_error
    end.
Proof.
  intros Hl Hp Hd. unfold start, ArxmlReader.construct_file, ArxmlReader.construct. rewrite Hl.
  change (ArxmlReader.validate true true _) with true. cbv iota. rewrite Ok_bind. unfold configureNetworkLayer.
  rewrite find_configuration, Ok_bind by done.
  destruct (List.find (named_endpoint _) endpoints) as [e|]; [|done].
  destruct (List.find (named_application _) applications) as [a|]; [|done].
  unfold SdNetworkLayer.construct. destruct (set_up up); [|done]. destruct (receiver up); [|done]. destruct (sender up); [|done].
  cbn [negb andb NetworkConfiguration.ipAddress NetworkConfiguration.portNumber]. rewrite Ok_bind.
  unfold configureSdClient, configureEvent, configureMonitor.
  unfold digits_of in Hd. rewrite !Forall_cons in Hd. destruct Hd as (D1 & D2 & D3 & D4 & D5 & D6 & _).
  rewrite (element_read u16 "SERVICE-INTERFACE-ID" (d_service d)), (element_read i32 "INITIAL-DELAY-MIN-VALUE" (d_delay_min d)),
    (element_read i32 "INITIAL-DELAY-MAX-VALUE" (d_delay_max d)), (element_read u32 "TIME-PASSED-THRESHOLD" (d_passed d)),
    (element_read u32 "TIME-FAILED-THRESHOLD" (d_failed d)), (element_read u32 "DTC-NUMBER" (d_dtc d)) by (reflexivity || done).
  rewrite !saturated_u32 by done. by destruct (delays_accepted _ _).
Qed.

End Properties.

(** The shipped manifest. *)
Definition example_diagnostics : DiagManifest_facts.Declared :=
  DiagManifest_facts.mkDeclared [5] [1; 0; 0] [2; 0; 0] "TelematicControlModuleMonitor" [6; 0; 0; 0] [6; 0; 0; 0]
    "TelematicControlModuleEvent" [4; 9; 5; 6; 0].
Definition example_multicast : Arxml_facts.Application := Arxml_facts.mkApplication "MulticastUdp" NetworkConfiguration.Udp "5555".

Definition example_diagnostic_nodes : list node :=
  [Arxml_facts.network_endpoint ("DiagnosticManagerEP", "239.0.0.1")%string; Arxml_facts.application_endpoint example_multicast].

Definition example_diagnostic_text : XmlText.
Proof.
  refine {| load := fun s => if (s =? "m")%string
                             then (true, true, Arxml_facts.manifest [("DiagnosticManagerEP", "239.0.0.1")%string] [example_multicast] None
                                                 (DiagManifest_facts.diagnostic_elements example_diagnostics))
                             else match List.find (fun n => (ArxmlNode.GetShortName (Some n) =? s)%string) example_diagnostic_nodes with
                                  | Some n => (true, true, [n]) | None => (false, true, []) end;
            print := fun n => ArxmlNode.GetShortName (Some n);
            version_is_one := fun s => (s =? "1.0")%string;
            printable := fun n => In n example_diagnostic_nodes |}.
  intros name attributes children Hin.
  repeat destruct Hin as [Hin|Hin]; try (rewrite <- Hin; reflexivity); destruct Hin.
Defined.

Lemma diagnostic_manager_as_declared_witness :
  ∃ s, @DiagnosticManifest.start example_diagnostic_text (DiagnosticManifest.mkSockets true true true) (NetworkConfiguration.mk EmptyString 0)
         false false (Some "m"%string) = Ok s ∧
    SdNetworkLayer.cPort (DiagnosticManifest.network s) = 5555.
Proof.
  pose proof (@diagnostic_manager_as_declared example_diagnostic_text "m" [("DiagnosticManagerEP", "239.0.0.1")%string] [example_multicast]
    example_diagnostics (DiagnosticManifest.mkSockets true true true) (NetworkConfiguration.mk EmptyString 0) false false) as H.
  specialize (H ltac:(reflexivity) ltac:(split; (apply Forall_cons; split; [|apply Forall_nil_2]); cbn; tauto)).
  specialize (H ltac:(repeat (apply Forall_cons; split; [unfold Arxml_facts.is_digit; repeat constructor; lia|]); apply Forall_nil_2)).
  eexists. split; [exact H|]. vm_compute. reflexivity.
Defined.
