(* ===== verification/Storage.v ===== *)
(** * Persistency: ara/per/key_value_storage.cpp, ara/per/file_storage.cpp

    Files and the key/value storage on a file system of named byte sequences whose
    calls may fail.  The writing operations return every state of the file system they
    pass through, so that what a crash leaves behind can be stated.  JSON is jsoncpp's:
    its reader and writer are parameters of the key/value storage. *)

From stdpp Require Import sorting.
From S2P Require Import Prelude Texts.

(** [ara/per/per_error_domain.h:12-24] PerErrc *)
Inductive PerErrc :=
  | kStorageNotFound
  | kKeyNotFound
  | kIllegalWriteAccess
  | kPhysicalStorageFailure
  | kIntegrityCorrupted
  | kOutOfStorageSpace
  | kInitValueNotAvailable
  | kResourceBusy
  | kFileNotFound.

#[export] Instance PerErrc_eq_dec : EqDecision PerErrc.
Proof. solve_decision. Defined.

(** The regular files by path. *)
Abbreviation Fs := (gmap string bytes).

(** Which calls of a write fail: opening the temporary file, writing or closing it
    (after some bytes), renaming it. *)
Record Faults := mkFaults {
  open_fails : bool;
  write_fails : option nat;
  rename_fails : bool
}.

Definition no_faults : Faults := mkFaults false None false.

(** The states of the file system a write passes through after the first one, the last
    one being where it ends, and its error.  A process may stop in any of them; what a
    power failure makes of data the operating system still buffers is not modelled. *)
Definition Write : Type := list Fs * option PerErrc.

Definition final (w : Write) (fs : Fs) : Fs := default fs (last (fst w)).

Definition tmp_of (dest : string) : string := (dest +:+ ".tmp")%string.

(** The temporary file while its first [n] bytes are written. *)
Definition writing (tmp : string) (data : bytes) (n : nat) (fs : Fs) : list Fs :=
  map (fun k => <[tmp := take k data]> fs) (seq 0 (S n)).

(** [ara/per/file_storage.cpp:43-81] WriteFile: a temporary file is written and renamed;
    the same steps as key_value_storage.cpp, lines 87 to 119 *)
Definition replace_file (faults : Faults) (dest : string) (data : bytes) (fs : Fs) : Write :=
  let tmp := tmp_of dest in
  if open_fails faults then ([], Some kPhysicalStorageFailure)
  else
    match write_fails faults with
    | Some n => (writing tmp data n fs ++ [delete tmp fs], Some kOutOfStorageSpace)
    | None =>
        let written := writing tmp data (length data) fs in
        if rename_fails faults then (written ++ [delete tmp fs], Some kPhysicalStorageFailure)
        else (written ++ [<[dest := data]> (delete tmp fs)], None)
    end.

Module FileStorage.

(** [ara/per/file_storage.h:28-84] FileStorage *)
Record t := mk { mStorageRoot : string }.

(** [ara/per/file_storage.cpp:21-24] filePath *)
Definition filePath (s : t) (name : string) : string := (mStorageRoot s +:+ "/" +:+ name)%string.

(** [ara/per/file_storage.cpp:28-39] Open: whether the directory exists afterwards *)
Definition Open (directory : bool) (storageRoot : string) : PerErrc + t :=
  if directory then inr (mk storageRoot) else inl kPhysicalStorageFailure.

(** [ara/per/file_storage.cpp:43-81] WriteFile *)
Definition WriteFile (faults : Faults) (s : t) (name : string) (data : bytes) (fs : Fs) : Write :=
  replace_file faults (filePath s name) data fs.

(** [ara/per/file_storage.cpp:85-109] ReadFile *)
Definition ReadFile (read_fails : bool) (s : t) (name : string) (fs : Fs) : PerErrc + bytes :=
  match fs !! filePath s name with
  | None => inl kFileNotFound
  | Some data => if read_fails then inl kPhysicalStorageFailure else inr data
  end.

(** [ara/per/file_storage.cpp:113-125] DeleteFile *)
Definition DeleteFile (s : t) (name : string) (fs : Fs) : option PerErrc * Fs :=
  match fs !! filePath s name with
  | None => (Some kFileNotFound, fs)
  | Some _ => (None, delete (filePath s name) fs)
  end.

(** [ara/per/file_storage.cpp:129-133] FileExists *)
Definition FileExists (s : t) (name : string) (fs : Fs) : bool := bool_decide (is_Some (fs !! filePath s name)).

(** [ara/per/file_storage.cpp:155-158] the temporary files of interrupted writes *)
Definition is_tmp (name : string) : bool :=
  let n := String.length name in
  ((4 <? n)%nat && (String.substring (n - 4) 4 name =? ".tmp")%string).

(** [ara/per/file_storage.cpp:137-166] GetAllFileNames: [entries] is what reading the
    directory gives, [None] when it cannot be opened *)
Definition GetAllFileNames (entries : option (list string)) : PerErrc + list string :=
  match entries with
  | None => inl kPhysicalStorageFailure
  | Some names =>
      inr (List.filter (fun n => negb ((n =? ".")%string || (n =? "..")%string || is_tmp n)) names)
  end.

End FileStorage.

(** What a JSON member can be, as far as the storage looks: an integer is what
    [isIntegral] accepts. *)
Inductive JsonValue := JString (s : string) | JInt (n : Z) | JBool (b : bool) | JOther (text : string).

#[export] Instance JsonValue_eq_dec : EqDecision JsonValue.
Proof. solve_decision. Defined.

(** A JSON text: an object with its members, or something else. *)
Inductive Json := JObject (members : gmap string JsonValue) | JNoObject.

(** jsoncpp's reader, its writer and its reading of a member as a string (which throws
    for some values, [None]), and what is documented of them: an object it can write
    (its strings are UTF-8, its numbers are in range) is read back. *)
Class JsonText := {
  parse : bytes → option Json;
  get_as_string : Json → string → option string;
  print : gmap string JsonValue → bytes;
  writable : gmap string JsonValue → Prop;
  parse_print m : writable m → parse (print m) = Some (JObject m)
}.

Module KeyValueStorage.
Section KeyValueStorage.
Context `{!JsonText}.

(** [ara/per/key_value_storage.h:77-84] KeyValueStorage *)
Record t := mk { mStoragePath : string; mRoot : gmap string JsonValue }.

(** [ara/per/key_value_storage.cpp:22-51] Open: a file that cannot be opened, for
    whatever reason, is taken for an absent one *)
Definition Open (opens : bool) (storagePath : string) (fs : Fs) : PerErrc + t :=
  match (if opens then fs !! storagePath else None) with
  | None => inr (mk storagePath ∅)
  | Some text =>
      match parse text with
      | None => inl kIntegrityCorrupted
      | Some JNoObject => inl kIntegrityCorrupted
      | Some (JObject root) => inr (mk storagePath root)
      end
  end.

(** [ara/per/key_value_storage.cpp:55-58] HasKey *)
Definition HasKey (key : string) (k : t) : bool := bool_decide (is_Some (mRoot k !! key)).

(** [ara/per/key_value_storage.cpp:62-68] GetAllKeys: the members' names, in the order
    of the map inside the JSON value *)
Definition GetAllKeys (k : t) : list string :=
  merge_sort (fun a b => Is_true (String.leb a b)) (map fst (map_to_list (mRoot k))).

(** [ara/per/key_value_storage.cpp:72-83] RemoveKey *)
Definition RemoveKey (key : string) (k : t) : option PerErrc * t :=
  match mRoot k !! key with
  | None => (Some kKeyNotFound, k)
  | Some _ => (None, mk (mStoragePath k) (delete key (mRoot k)))
  end.

(** [ara/per/key_value_storage.cpp:87-119] SyncToStorage *)
Definition SyncToStorage (faults : Faults) (k : t) (fs : Fs) : Write :=
  replace_file faults (mStoragePath k) (print (mRoot k)) fs.

(** [ara/per/key_value_storage.cpp:123-141] GetValue of a string *)
Definition GetString (key : string) (k : t) : PerErrc + string :=
  match mRoot k !! key with
  | None => inl kKeyNotFound
  | Some (JString s) => inr s
  | Some _ => inl kIntegrityCorrupted
  end.

(** [ara/per/key_value_storage.cpp:143-161] GetValue of an integer: [asInt] throws out of
    a function that must not when the integer does not fit *)
Definition GetInt (key : string) (k : t) : outcome (PerErrc + Z) :=
  match mRoot k !! key with
  | None => Ok (inl kKeyNotFound)
  | Some (JInt n) => if (-2147483648 <=? n) && (n <=? 2147483647) then Ok (inr n) else Throw std_terminate
  | Some _ => Ok (inl kIntegrityCorrupted)
  end.

(** [ara/per/key_value_storage.cpp:163-181] GetValue of a boolean *)
Definition GetBool (key : string) (k : t) : PerErrc + bool :=
  match mRoot k !! key with
  | None => inl kKeyNotFound
  | Some (JBool b) => inr b
  | Some _ => inl kIntegrityCorrupted
  end.

(** [ara/per/key_value_storage.cpp:185-207] SetValue of a string, an integer or a boolean *)
Definition SetValue (key : string) (value : JsonValue) (k : t) : t :=
  mk (mStoragePath k) (<[key := value]> (mRoot k)).

End KeyValueStorage.
End KeyValueStorage.

(** ** Lemmas *)

Lemma length_append (a b : string) : String.length (a +:+ b)%string = (String.length a + String.length b)%nat.
Proof. induction a as [|c a IH]; [done|]. change (S (String.length (a +:+ b)%string) = S (String.length a + String.length b)). by rewrite IH. Qed.

Lemma tmp_ne (s : string) : tmp_of s ≠ s.
Proof. intros H. apply (f_equal String.length) in H. unfold tmp_of in H. rewrite length_append in H. cbn in H. lia. Qed.

Lemma writing_elem tmp data n fs fs' :
  fs' ∈ writing tmp data n fs → ∃ x, fs' = <[tmp := x]> fs.
Proof. unfold writing. intros H. apply list_elem_of_fmap in H as (k & -> & _). eauto. Qed.

(** Every state of a replacement is the old one, the old one with a temporary file more
    or less, or the new one. *)
Lemma replace_file_states faults dest data fs fs' :
  fs' ∈ fs :: fst (replace_file faults dest data fs) →
  fs' = fs ∨ (∃ x, fs' = <[tmp_of dest := x]> fs) ∨ fs' = delete (tmp_of dest) fs ∨
  fs' = <[dest := data]> (delete (tmp_of dest) fs).
Proof.
  unfold replace_file. rewrite elem_of_cons.
  destruct (open_fails faults), (write_fails faults), (rename_fails faults); cbn [fst];
    rewrite ?elem_of_app, ?list_elem_of_singleton; intros [->|Hin]; auto.
  all: try (by apply elem_of_nil in Hin).
  all: destruct Hin as [Hin| ->]; [apply writing_elem in Hin|]; auto.
Qed.

(** A replacement is all or nothing, in every state it passes through. *)
Lemma replace_file_atomic faults dest data fs fs' :
  fs' ∈ fs :: fst (replace_file faults dest data fs) →
  (fs' !! dest = fs !! dest ∨ fs' !! dest = Some data) ∧
  ∀ p, p ≠ dest → p ≠ tmp_of dest → fs' !! p = fs !! p.
Proof.
  pose proof (tmp_ne dest) as Hne. intros Hin.
  apply replace_file_states in Hin as [->|[(x & ->)|[-> | ->]]]; split; try (intros p Hp1 Hp2).
  all: by rewrite ?lookup_insert_eq, ?lookup_insert_ne, ?lookup_delete_ne by done; auto.
Qed.

Lemma replace_file_final faults dest data fs :
  final (replace_file faults dest data fs) fs !! dest =
    match snd (replace_file faults dest data fs) with None => Some data | Some _ => fs !! dest end.
Proof.
  pose proof (tmp_ne dest) as Hne. unfold replace_file, final.
  destruct (open_fails faults), (write_fails faults), (rename_fails faults); cbn [fst snd]; try done;
    rewrite last_snoc; cbn [default from_option id]; by rewrite ?lookup_insert_eq, ?lookup_delete_ne by done.
Qed.

Lemma final_elem w fs : final w fs ∈ fs :: fst w.
Proof.
  unfold final. destruct (last (fst w)) as [x|] eqn:E; cbn; [|constructor].
  apply elem_of_cons. right. by apply last_Some_elem_of.
Qed.

Lemma filePath_inj s a b : FileStorage.filePath s a = FileStorage.filePath s b → a = b.
Proof.
  unfold FileStorage.filePath. intros H. by apply (inj (String.append _)), (inj (String.append _)) in H.
Qed.

Lemma tmp_filePath s name : tmp_of (FileStorage.filePath s name) = FileStorage.filePath s (tmp_of name).
Proof.
  unfold FileStorage.filePath, tmp_of. by rewrite !sapp_assoc.
Qed.

(** ** Properties *)

(** C29: the key/value storage survives the end of the process at any moment of its
    synchronisation: in every state the file system passes through, opening the storage
    gives the members of the last successful synchronisation or the new ones, complete;
    a synchronisation that reports success leaves the new ones, and one that reports an
    error the old ones. *)
Theorem sync_is_atomic `{Text : !JsonText} (faults : Faults) (old k : KeyValueStorage.t) (fs : Fs) :
  writable (KeyValueStorage.mRoot k) →
  KeyValueStorage.Open true (KeyValueStorage.mStoragePath k) fs = inr old →
  let w := KeyValueStorage.SyncToStorage faults k fs in
  (∀ fs', fs' ∈ fs :: fst w →
     KeyValueStorage.Open true (KeyValueStorage.mStoragePath k) fs' = inr old ∨
     KeyValueStorage.Open true (KeyValueStorage.mStoragePath k) fs' = inr k) ∧
  KeyValueStorage.Open true (KeyValueStorage.mStoragePath k) (final w fs) =
    inr (match snd w with None => k | Some _ => old end).
Proof.
  intros Hw Hold. cbv zeta. unfold KeyValueStorage.SyncToStorage.
  assert (Hopen : ∀ fs' : Fs, fs' !! KeyValueStorage.mStoragePath k = Some (print (KeyValueStorage.mRoot k)) →
    KeyValueStorage.Open true (KeyValueStorage.mStoragePath k) fs' = inr k).
  { intros fs' H. unfold KeyValueStorage.Open. rewrite H, parse_print by done. by destruct k. }
  assert (Hsame : ∀ fs' : Fs, fs' !! KeyValueStorage.mStoragePath k = fs !! KeyValueStorage.mStoragePath k →
    KeyValueStorage.Open true (KeyValueStorage.mStoragePath k) fs' = inr old).
  { intros fs' H. unfold KeyValueStorage.Open in *. by rewrite H. }
  split.
  - intros fs' Hin. destruct (replace_file_atomic _ _ _ _ _ Hin) as [[H|H] _]; [left; by apply Hsame|right; by apply Hopen].
  - pose proof (replace_file_final faults (KeyValueStorage.mStoragePath k) (print (KeyValueStorage.mRoot k)) fs) as Hf.
    destruct (snd _); [by apply Hsame|by apply Hopen].
Qed.

(** A file storage keeps its files apart and whole: after a write, reading the file
    gives the data when the write succeeded and what it gave before when it failed,
    and every other file is as it was, except one whose name is the written name with
    ".tmp" behind it; such files are not listed. *)
Theorem file_write_is_isolated (faults : Faults) (s : FileStorage.t) (name : string) (data : bytes) (fs : Fs) :
  let w := FileStorage.WriteFile faults s name data fs in
  FileStorage.ReadFile false s name (final w fs) =
    (match snd w with None => inr data | Some _ => FileStorage.ReadFile false s name fs end) ∧
  ∀ other, other ≠ name → other ≠ tmp_of name →
    FileStorage.ReadFile false s other (final w fs) = FileStorage.ReadFile false s other fs ∧
    FileStorage.FileExists s other (final w fs) = FileStorage.FileExists s other fs.
Proof.
  cbv zeta. unfold FileStorage.WriteFile, FileStorage.ReadFile, FileStorage.FileExists. split.
  - rewrite replace_file_final. by destruct (snd _).
  - intros other H1 H2.
    destruct (replace_file_atomic _ _ _ _ _ (final_elem (replace_file faults (FileStorage.filePath s name) data fs) fs))
      as [_ Hother].
    rewrite Hother; [done| |]; [by intros H%filePath_inj|].
    rewrite tmp_filePath. by intros H%filePath_inj.
Qed.

(** A file named like another one's temporary file is destroyed by a write of that one. *)
Lemma tmp_file_lost s name data x fs :
  fs !! FileStorage.filePath s (tmp_of name) = Some x →
  FileStorage.ReadFile false s (tmp_of name) (final (FileStorage.WriteFile no_faults s name data fs) fs)
    = inl kFileNotFound.
Proof.
  intros _. unfold FileStorage.ReadFile, FileStorage.WriteFile, replace_file, final. cbn [fst open_fails write_fails rename_fails no_faults].
  rewrite last_snoc. cbn [default from_option id]. rewrite <- tmp_filePath.
  rewrite lookup_insert_ne by (intros H; by apply (tmp_ne (FileStorage.filePath s name))). by rewrite lookup_delete_eq.
Qed.

(** ** Witnesses *)

(** A text of one character, and what a writer may make of it. *)
Definition demo_text : JsonText.
Proof.
  refine {| parse b := match b with [] => None | [n] => Some (JObject {["n" := JInt n]}) | _ => Some JNoObject end;
            get_as_string _ _ := Some "app"%string;
            print m := match m !! "n" with Some (JInt n) => [n] | _ => [] end;
            writable m := ∃ n, m = {["n" := JInt n]} |}.
  intros m (n & ->). by rewrite lookup_singleton_eq.
Defined.

Lemma sync_is_atomic_witness :
  let k := @KeyValueStorage.mk "app.json" {["n" := JInt 2]} in
  let w := @KeyValueStorage.SyncToStorage demo_text (mkFaults false None true) k {["app.json" := [1]]} in
  @KeyValueStorage.Open demo_text true "app.json" (final w {["app.json" := [1]]})
    = inr (KeyValueStorage.mk "app.json" {["n" := JInt 1]}).
Proof.
  cbv zeta.
  pose proof (@sync_is_atomic demo_text (mkFaults false None true)
    (KeyValueStorage.mk "app.json" {["n" := JInt 1]}) (KeyValueStorage.mk "app.json" {["n" := JInt 2]})
    {["app.json" := [1]]}) as H.
  apply H; [by exists 2|reflexivity].
Defined.
