(* ===== verification/Ucm.v ===== *)
(** * Update and configuration management: ara/ucm/package_manager.cpp

    The package manager: transfers of software packages, their extraction and their
    activation, over the file storage and the key/value registry of Storage.v.  The
    shell, jsoncpp's reader and pugixml are parameters.  Theorems: blocks are reassembled
    and checked against the declared size only; activation installs the staged binary and
    the process entry; a package that failed to unpack is recorded as installed when a
    later one is activated. *)

From S2P Require Import Prelude Storage.
#[local] Open Scope Z_scope.

(** [ara/ucm/ucm_error_domain.h:13-22] UcmErrc *)
Inductive UcmErrc :=
  | kInvalidTransferId
  | kTransferNotComplete
  | kPackageMalformed
  | kActivationFailed
  | kRollbackFailed
  | kInsufficientSpace
  | kOperationInProgress.

#[export] Instance UcmErrc_eq_dec : EqDecision UcmErrc.
Proof. solve_decision. Defined.

(** [ara/ucm/package_manager_state.h:15-24] UpdateStateType *)
Inductive UpdateStateType :=
  | kIdle
  | kTransferring
  | kProcessing
  | kActivating
  | kActivated
  | kRollingBack
  | kRolledBack.

#[export] Instance UpdateStateType_eq_dec : EqDecision UpdateStateType.
Proof. solve_decision. Defined.

(** [ara/ucm/package_manager_state.h:27-32] PackageInfoType *)
Record PackageInfoType := mkInfo { name : string; version : string; info_size : Z }.

#[export] Instance PackageInfoType_eq_dec : EqDecision PackageInfoType.
Proof. solve_decision. Defined.

(** pugixml: a document read from bytes, the PROCESS children of its first PROCESSES
    element if it has one, its document element, an element's short name, appending an
    element to the PROCESSES element and writing the document; what is documented: an
    appended PROCESS element is the last child, and what was written is read back. *)
Class Xml := {
  document : Type;
  element : Type;
  load : bytes → option document;
  processes : document → option (list element);
  document_element : document → element;
  is_process : element → bool;
  short_name : element → string;
  append_copy : document → element → document;
  save : document → bytes;
  processes_append_copy d e ps :
    processes d = Some ps → is_process e = true →
    ∃ e', short_name e' = short_name e ∧ processes (append_copy d e) = Some (ps ++ [e']);
  load_save d : ∃ d', load (save d) = Some d' ∧
    map short_name <$> processes d' = map short_name <$> processes d
}.

(** The calls of an activation that fail: opening the source or reading it, writing and
    renaming the copy, reading the process entry and the manifest, opening or writing the
    manifest, synchronising the registry. *)
Record ActivationFaults := mkActivationFaults {
  src_opens : bool;
  src_reads : bool;
  copy_faults : Faults;
  entry_reads : bool;
  manifest_reads : bool;
  manifest_opens : bool;
  manifest_writes : option nat;
  registry_faults : Faults
}.

Definition no_activation_faults : ActivationFaults :=
  mkActivationFaults true true no_faults true true true None no_faults.

Module PackageManager.
Section PackageManager.
Context `{Text : !JsonText} `{Pugi : !Xml}.

(** What the shell makes of a command: its exit code and the files. *)
Variable system : string → Fs → Z * Fs.

(** Whether a path that is no regular file exists all the same (a directory). *)
Variable is_directory : string → bool.

Definition Result (A : Type) : Type := UcmErrc + A.

(** [ara/ucm/package_manager.h:108-131] PackageManager *)
Record t := mk {
  mStorageRoot : string;
  mStorage : option FileStorage.t;
  mRegistry : option KeyValueStorage.t;
  mState : UpdateStateType;
  mNextId : Z;
  mPendingTransfers : gmap Z PackageInfoType;
  mAccumulatedData : gmap Z bytes;
  mStagedPackagePath : string;
  mStagedBinaryName : string
}.

Definition set_registry (r : option KeyValueStorage.t) (p : t) : t :=
  mk (mStorageRoot p) (mStorage p) r (mState p) (mNextId p) (mPendingTransfers p)
     (mAccumulatedData p) (mStagedPackagePath p) (mStagedBinaryName p).
Definition set_state (u : UpdateStateType) (p : t) : t :=
  mk (mStorageRoot p) (mStorage p) (mRegistry p) u (mNextId p) (mPendingTransfers p)
     (mAccumulatedData p) (mStagedPackagePath p) (mStagedBinaryName p).
Definition set_accumulated (a : gmap Z bytes) (p : t) : t :=
  mk (mStorageRoot p) (mStorage p) (mRegistry p) (mState p) (mNextId p) (mPendingTransfers p)
     a (mStagedPackagePath p) (mStagedBinaryName p).
Definition set_package (path : string) (p : t) : t :=
  mk (mStorageRoot p) (mStorage p) (mRegistry p) (mState p) (mNextId p) (mPendingTransfers p)
     (mAccumulatedData p) path (mStagedBinaryName p).
Definition set_binary (binary : string) (p : t) : t :=
  mk (mStorageRoot p) (mStorage p) (mRegistry p) (mState p) (mNextId p) (mPendingTransfers p)
     (mAccumulatedData p) (mStagedPackagePath p) binary.

(** [ara/ucm/package_manager.cpp:22-41] PackageManager: [directory] is whether the
    storage directory could be made, [opens] whether the registry's file opens *)
Definition construct (directory opens : bool) (storageRoot : string) (fs : Fs) : t :=
  let storage := match FileStorage.Open directory storageRoot with inr s => Some s | inl _ => None end in
  let registry :=
    match KeyValueStorage.Open opens (storageRoot +:+ "/ucm_registry.json")%string fs with
    | inr k => Some k
    | inl _ => None
    end in
  mk storageRoot storage registry kIdle 1 ∅ ∅ EmptyString EmptyString.

(** [ara/ucm/package_manager.cpp:45-52] Reset *)
Definition Reset (p : t) : t :=
  mk (mStorageRoot p) (mStorage p) (mRegistry p) kIdle (mNextId p) ∅ ∅ EmptyString EmptyString.

(** [ara/ucm/package_manager.cpp:56-71] TransferStart *)
Definition TransferStart (info : PackageInfoType) (p : t) : Result Z * t :=
  if negb (bool_decide (mState p = kIdle)) then (inl kOperationInProgress, p)
  else
    let id := mNextId p in
    (inr id,
     mk (mStorageRoot p) (mStorage p) (mRegistry p) kTransferring (u32 (mNextId p + 1))
        (<[id := info]> (mPendingTransfers p)) (<[id := []]> (mAccumulatedData p))
        (mStagedPackagePath p) (mStagedBinaryName p)).

(** The bytes a transfer has so far; [operator[]] gives none when there is no entry. *)
Definition accumulated (id : Z) (p : t) : bytes := default [] (mAccumulatedData p !! id).

(** [ara/ucm/package_manager.cpp:75-92] TransferData *)
Definition TransferData (id : Z) (block : bytes) (blockCounter : Z) (p : t) : Result () * t :=
  match mPendingTransfers p !! id with
  | None => (inl kInvalidTransferId, p)
  | Some _ => (inr (), set_accumulated (<[id := accumulated id p ++ block]> (mAccumulatedData p)) p)
  end.

(** [ara/ucm/package_manager.cpp:133-133] the name of a package's file *)
Definition pkgFileName (info : PackageInfoType) : string := (name info +:+ ".swpkg.tar.gz")%string.

(** [ara/ucm/package_manager.cpp:96-147] TransferExit *)
Definition TransferExit (faults : Faults) (id : Z) (p : t) (fs : Fs) : Result () * (t * Fs) :=
  match mPendingTransfers p !! id with
  | None => (inl kInvalidTransferId, (p, fs))
  | Some info =>
      if info_size info =? 0 then
        if negb (bool_decide (is_Some (fs !! name info)) || is_directory (name info))
        then (inl kTransferNotComplete, (p, fs))
        else (inr (), (set_package (name info) p, fs))
      else
        let acc := accumulated id p in
        let p := set_accumulated (<[id := acc]> (mAccumulatedData p)) p in
        if negb (Z.of_nat (length acc) =? info_size info) then (inl kTransferNotComplete, (p, fs))
        else
          let path := (mStorageRoot p +:+ "/" +:+ pkgFileName info)%string in
          match mStorage p with
          | None => (inr (), (set_package path p, fs))
          | Some s =>
              let w := FileStorage.WriteFile faults s (pkgFileName info) acc fs in
              match snd w with
              | Some _ => (inl kInsufficientSpace, (p, final w fs))
              | None => (inr (), (set_package path p, final w fs))
              end
          end
  end.

Definition extractDir (p : t) : string := (mStorageRoot p +:+ "/staging")%string.

(** A text between double quotes; quotes inside it are not escaped. *)
Definition quoted (text : string) : string :=
  let q := String (Ascii.ascii_of_nat 34) EmptyString in (q +:+ text +:+ q)%string.

(** [ara/ucm/package_manager.cpp:172-176] the shell command *)
Definition tar_command (p : t) : string :=
  ("tar xzf " +:+ quoted (mStagedPackagePath p) +:+ " -C " +:+ quoted (extractDir p))%string.

(** [ara/ucm/package_manager.cpp:151-216] ProcessSwPackage: reading the binary's name may
    throw, out of a function that must not *)
Definition ProcessSwPackage (opens : bool) (id : Z) (p : t) (fs : Fs) : outcome (Result ()) * (t * Fs) :=
  match mPendingTransfers p !! id with
  | None => (Ok (inl kInvalidTransferId), (p, fs))
  | Some _ =>
      if bool_decide (mStagedPackagePath p = EmptyString) then (Ok (inl kPackageMalformed), (p, fs))
      else
        let p := set_state kProcessing p in
        let '(ret, fs) := system (tar_command p) fs in
        let malformed := (Ok (inl kPackageMalformed), (set_state kIdle p, fs)) in
        if negb (ret =? 0) then malformed
        else
          match (if opens then fs !! (extractDir p +:+ "/metadata.json")%string else None) with
          | None => malformed
          | Some text =>
              match parse text with
              | None => malformed
              | Some meta =>
                  match get_as_string meta "binary_name" with
                  | None => (Throw std_terminate, (p, fs))
                  | Some binary =>
                      let p := set_binary binary p in
                      if bool_decide (binary = EmptyString) then (Ok (inl kPackageMalformed), (set_state kIdle p, fs))
                      else (Ok (inr ()), (p, fs))
                  end
              end
          end
  end.

(** [ara/ucm/package_manager.cpp:241-284] the copy of a binary by way of a temporary file *)
Definition install (f : ActivationFaults) (src dst : string) (fs : Fs) : bool * Fs :=
  let tmp := (dst +:+ ".ucm_tmp")%string in
  match (if src_opens f then fs !! src else None) with
  | None => (false, fs)
  | Some _ =>
      if open_fails (copy_faults f) then (false, fs)
      else
        let opened := <[tmp := []]> fs in
        let data := default [] (opened !! src) in
        if negb (src_reads f) || bool_decide (is_Some (write_fails (copy_faults f))) || rename_fails (copy_faults f)
        then (false, delete tmp opened)
        else (true, <[dst := data]> (delete tmp opened))
  end.

(** [ara/ucm/package_manager.cpp:320-339] whether the manifest has a process of this name *)
Definition inject (manifest proc : document) (ps : list element) : document :=
  let newProcess := document_element proc in
  let newName := short_name newProcess in
  if existsb (fun child => (short_name child =? newName)%string) ps then manifest
  else append_copy manifest newProcess.

(** [pugi::xml_document::save_file]: the file is opened, emptied and written. *)
Definition save_file (f : ActivationFaults) (path : string) (d : document) (fs : Fs) : bool * Fs :=
  if manifest_opens f then
    match manifest_writes f with
    | Some n => (false, <[path := take n (save d)]> fs)
    | None => (true, <[path := save d]> fs)
    end
  else (false, fs).

(** [ara/ucm/package_manager.cpp:356-358] mPendingTransfers.begin(): the transfer with the
    smallest identifier *)
Definition first_transfer (m : gmap Z PackageInfoType) : option (Z * PackageInfoType) :=
  map_fold (fun id info acc =>
    match acc with
    | Some (j, info') => if id <? j then Some (id, info) else Some (j, info')
    | None => Some (id, info)
    end) None m.

(** [ara/ucm/package_manager.cpp:355-361] the registry's update; its error is dropped *)
Definition register (f : ActivationFaults) (p : t) (fs : Fs) : t * Fs :=
  match mRegistry p, first_transfer (mPendingTransfers p) with
  | Some k, Some (_, info) =>
      let k := KeyValueStorage.SetValue (name info) (JString (version info)) k in
      (set_registry (Some k) p, final (KeyValueStorage.SyncToStorage (registry_faults f) k fs) fs)
  | _, _ => (p, fs)
  end.

(** [ara/ucm/package_manager.cpp:220-365] Activate *)
Definition Activate (f : ActivationFaults) (installRoot executionManifestPath : string) (p : t) (fs : Fs)
    : Result () * (t * Fs) :=
  if bool_decide (mStagedBinaryName p = EmptyString) then (inl kActivationFailed, (p, fs))
  else
    let p := set_state kActivating p in
    let failed fs := (inl kActivationFailed, (set_state kIdle p, fs)) in
    let srcBin := (extractDir p +:+ "/bin/" +:+ mStagedBinaryName p)%string in
    let dstBin := (installRoot +:+ "/" +:+ mStagedBinaryName p)%string in
    let '(installed, fs) := install f srcBin dstBin fs in
    if negb installed then failed fs
    else
      match (if entry_reads f then fs !! (extractDir p +:+ "/manifest/process_entry.xml")%string else None) ≫= load with
      | None => failed fs
      | Some procDoc =>
          match (if manifest_reads f then fs !! executionManifestPath else None) ≫= load with
          | None => failed fs
          | Some manifestDoc =>
              match processes manifestDoc with
              | None => failed fs
              | Some ps =>
                  let '(saved, fs) := save_file f executionManifestPath (inject manifestDoc procDoc ps) fs in
                  if negb saved then failed fs
                  else
                    let '(p, fs) := register f p fs in
                    (inr (), (set_state kActivated p, fs))
              end
          end
      end.

(** [ara/ucm/package_manager.cpp:369-372] GetCurrentState *)
Definition GetCurrentState (p : t) : UpdateStateType := mState p.

(** [ara/ucm/package_manager.cpp:376-408] GetSwClusterInfo *)
Definition GetSwClusterInfo (p : t) : Result (list PackageInfoType) :=
  match mRegistry p with
  | None => inr []
  | Some k =>
      inr (map (fun key => mkInfo key (match KeyValueStorage.GetString key k with inr v => v | inl _ => EmptyString end) 0)
               (KeyValueStorage.GetAllKeys k))
  end.

(** [application/platform/vehicle_update_config_manager.cpp:102-140] the client's loop over
    the chunks: it stops at the first one that is refused *)
Fixpoint send_blocks (id : Z) (blocks : list (bytes * Z)) (p : t) : bool * t :=
  match blocks with
  | [] => (true, p)
  | (block, blockCounter) :: rest =>
      match TransferData id block blockCounter p with
      | (inl _, p) => (false, p)
      | (inr _, p) => send_blocks id rest p
      end
  end.

(** The calls a manager receives, with what fails in each. *)
Inductive call :=
  | CReset
  | CStart (info : PackageInfoType)
  | CData (id : Z) (block : bytes) (blockCounter : Z)
  | CExit (faults : Faults) (id : Z)
  | CProcess (opens : bool) (id : Z)
  | CActivate (f : ActivationFaults) (installRoot executionManifestPath : string).

Definition perform (c : call) (p : t) (fs : Fs) : outcome (t * Fs) :=
  match c with
  | CReset => Ok (Reset p, fs)
  | CStart info => Ok (snd (TransferStart info p), fs)
  | CData id block n => Ok (snd (TransferData id block n p), fs)
  | CExit faults id => Ok (snd (TransferExit faults id p fs))
  | CProcess opens id =>
      match ProcessSwPackage opens id p fs with
      | (Ok _, w) => Ok w
      | (Throw e, _) => Throw e
      | (Undefined, _) => Undefined
      | (OutOfFuel, _) => OutOfFuel
      end
  | CActivate f installRoot path => Ok (snd (Activate f installRoot path p fs))
  end.

(** A sequence of calls; an exception that leaves one ends the process. *)
Fixpoint perform_all (cs : list call) (p : t) (fs : Fs) : outcome (t * Fs) :=
  match cs with
  | [] => Ok (p, fs)
  | c :: cs => w ← perform c p fs; perform_all cs (fst w) (snd w)
  end.

End PackageManager.
End PackageManager.

(** ** Lemmas *)


Section Lemmas.
Context `{Text : !JsonText} `{Pugi : !Xml}.
Import PackageManager.

Lemma first_transfer_spec (m : gmap Z PackageInfoType) :
  match first_transfer m with
  | None => m = ∅
  | Some (j, info) => m !! j = Some info ∧ ∀ id, is_Some (m !! id) → j ≤ id
  end.
Proof.
  unfold first_transfer.
  apply (map_fold_weak_ind (fun r (m : gmap Z PackageInfoType) => match r with
    | None => m = ∅
    | Some (j, info) => m !! j = Some info ∧ ∀ id, is_Some (m !! id) → j ≤ id
    end)); [done|].
  intros i x m' [[j y]|] Hi Hr.
  - destruct Hr as [Hj Hmin]. destruct (Z.ltb_spec i j) as [Hlt|Hge]; split.
    + by rewrite lookup_insert_eq.
    + intros id [z Hz]. apply lookup_insert_Some in Hz as [[<- _]|[_ Hz]]; [lia|].
      specialize (Hmin id (ex_intro _ z Hz)). lia.
    + rewrite lookup_insert_ne; [done|congruence].
    + intros id [z Hz]. apply lookup_insert_Some in Hz as [[<- _]|[_ Hz]]; [lia|eauto].
  - subst m'. split; [by rewrite lookup_insert_eq|].
    intros id [z Hz]. apply lookup_insert_Some in Hz as [[<- _]|[_ Hz]]; [lia|done].
Qed.

Lemma first_transfer_min m n info :
  m !! n = Some info → (∀ id, is_Some (m !! id) → n ≤ id) → first_transfer m = Some (n, info).
Proof.
  intros Hn Hmin. pose proof (first_transfer_spec m) as H.
  destruct (first_transfer m) as [[j x]|]; [|by subst m].
  destruct H as [Hj Hj']. assert (j = n) as ->; [|by simplify_eq].
  apply Z.le_antisymm; [apply Hj'; eauto|apply Hmin; eauto].
Qed.

(** What every call but Reset and TransferStart leaves alone, and the states it ends in. *)
Record same_transfers (p p' : t) : Prop := {
  same_pending : mPendingTransfers p' = mPendingTransfers p;
  same_next : mNextId p' = mNextId p
}.

Lemma TransferData_same id block n p : same_transfers p (snd (TransferData id block n p)).
Proof. unfold TransferData. by destruct (_ !! id). Qed.

Lemma TransferExit_same (is_directory : string → bool) faults id p fs :
  same_transfers p (fst (snd (TransferExit is_directory faults id p fs))).
Proof. unfold TransferExit. by repeat case_match. Qed.

Lemma ProcessSwPackage_same (system : string → Fs → Z * Fs) opens id p fs :
  same_transfers p (fst (snd (ProcessSwPackage system opens id p fs))).
Proof. unfold ProcessSwPackage. by repeat case_match; simplify_eq. Qed.

Lemma register_same f p fs : same_transfers p (fst (register f p fs)).
Proof. unfold register. by repeat case_match. Qed.

Lemma Activate_same f root path p fs : same_transfers p (fst (snd (Activate f root path p fs))).
Proof.
  unfold Activate. repeat (case_match; simplify_eq/=; try done).
  all: match goal with H : register ?f ?p ?fs = _ |- _ => pose proof (register_same f p fs) as Hs; rewrite H in Hs end.
  all: by destruct Hs.
Qed.

(** The transfer [n] is the oldest one, and [k] more can be started before the
    identifiers wrap. *)
Record oldest (n : Z) (info : PackageInfoType) (k : nat) (p : t) : Prop := {
  oldest_there : mPendingTransfers p !! n = Some info;
  oldest_between id : is_Some (mPendingTransfers p !! id) → n ≤ id < mNextId p;
  oldest_no_wrap : 0 ≤ mNextId p ∧ mNextId p + Z.of_nat k < 4294967296
}.

Lemma oldest_same n info k p p' : same_transfers p p' → oldest n info k p → oldest n info k p'.
Proof. intros [Hp Hn] [H1 H2 H3]. split; rewrite ?Hp, ?Hn; auto. Qed.

Lemma oldest_start n info k info' p :
  oldest n info (S k) p → oldest n info k (snd (TransferStart info' p)).
Proof.
  intros [H1 H2 H3]. unfold TransferStart. destruct (negb _); cbn [snd].
  - split; [done|done|lia].
  - assert (n < mNextId p) by (apply H2; eauto).
    assert (Hn : u32 (mNextId p + 1) = mNextId p + 1) by (apply u32_id; ulia).
    split; cbn [mPendingTransfers mNextId]; rewrite ?Hn; [|intros id [x Hx]|lia].
    + by rewrite lookup_insert_ne by lia.
    + apply lookup_insert_Some in Hx as [[<- _]|[_ Hx]]; [lia|].
      assert (n ≤ id < mNextId p) by (apply H2; eauto). lia.
Qed.

Definition is_start (c : call) : bool := match c with CStart _ => true | _ => false end.
Definition is_reset (c : call) : bool := match c with CReset => true | _ => false end.

Lemma perform_oldest (system : string → Fs → Z * Fs) (is_directory : string → bool) n info k c p fs p' fs' :
  is_reset c = false → oldest n info (Nat.b2n (is_start c) + k) p →
  perform system is_directory c p fs = Ok (p', fs') → oldest n info k p'.
Proof.
  destruct c as [|info'|id block ctr|faults id|opens id|f root path]; cbn; intros Hr Ho Hp; try done.
  - simplify_eq. by apply oldest_start.
  - simplify_eq. eapply oldest_same; [apply TransferData_same|done].
  - pose proof (TransferExit_same is_directory faults id p fs) as Hs.
    injection Hp as Hp. rewrite Hp in Hs. by eapply oldest_same.
  - pose proof (ProcessSwPackage_same system opens id p fs) as Hs.
    destruct (ProcessSwPackage _ _ _ _ _) as [[] w]; simplify_eq/=. by eapply oldest_same.
  - pose proof (Activate_same f root path p fs) as Hs.
    injection Hp as Hp. rewrite Hp in Hs. by eapply oldest_same.
Qed.

Lemma perform_all_oldest (system : string → Fs → Z * Fs) (is_directory : string → bool) n info cs p fs p' fs' :
  forallb (negb ∘ is_reset) cs = true → oldest n info (length (List.filter is_start cs)) p →
  perform_all system is_directory cs p fs = Ok (p', fs') → oldest n info 0 p'.
Proof.
  revert p fs. induction cs as [|c cs IH]; intros p fs Hr Ho Hp; [by simplify_eq/=|].
  cbn [forallb perform_all] in *. apply andb_true_iff in Hr as [Hc Hr].
  apply bind_Ok in Hp as ([p1 fs1] & H1 & H2). apply negb_true_iff in Hc.
  apply (IH p1 fs1 Hr); [|done].
  eapply (perform_oldest system is_directory _ _ _ c p fs); [done| |done].
  cbn in Ho. by destruct (is_start c).
Qed.

Lemma oldest_first n info k p : oldest n info k p → first_transfer (mPendingTransfers p) = Some (n, info).
Proof. intros [H1 H2 _]. apply first_transfer_min; [done|]. intros id Hid. by apply H2. Qed.

(** A successful activation has updated the registry. *)
Lemma Activate_registers f root path p fs x w :
  Activate f root path p fs = (inr x, w) →
  mRegistry (fst w) = mRegistry (fst (register f p fs)).
Proof.
  unfold Activate. repeat (case_match; simplify_eq/=; try done).
  all: intros; simplify_eq/=; match goal with H : register _ _ _ = _ |- _ => revert H end.
  all: unfold register; cbn; repeat case_match; intros; by simplify_eq/=.
Qed.

(** Blocks are appended, whatever their counters. *)
Lemma send_blocks_spec id blocks p :
  is_Some (mPendingTransfers p !! id) → is_Some (mAccumulatedData p !! id) →
  send_blocks id blocks p =
    (true, set_accumulated (<[id := accumulated id p ++ concat (map fst blocks)]> (mAccumulatedData p)) p).
Proof.
  revert p. induction blocks as [|[block n] rest IH]; intros p Hp [x Hx].
  - cbn. rewrite app_nil_r. unfold accumulated. rewrite Hx. cbn.
    rewrite insert_id by done. by destruct p.
  - cbn [send_blocks]. unfold TransferData. destruct Hp as [info Hi]. rewrite Hi.
    rewrite IH; cbn; [|by eauto|by rewrite lookup_insert_eq; eauto].
    unfold accumulated at 1. cbn. rewrite lookup_insert_eq. cbn.
    by rewrite insert_insert_eq, <- app_assoc.
Qed.

Lemma install_spec f src dst fs ok fs' :
  let tmp := (dst +:+ ".ucm_tmp")%string in
  src ≠ tmp → dst ≠ tmp → install f src dst fs = (ok, fs') →
  (∀ q, q ≠ dst → q ≠ tmp → fs' !! q = fs !! q) ∧
  (if ok then ∃ x, fs !! src = Some x ∧ fs' !! dst = Some x else fs' !! dst = fs !! dst).
Proof.
  cbv zeta. intros Hsrc Hdst. unfold install. set (tmp := (dst +:+ ".ucm_tmp")%string) in *.
  destruct (if src_opens f then fs !! src else None) as [x|] eqn:Hopen; [|intros; by simplify_eq].
  assert (Hx : fs !! src = Some x) by by destruct (src_opens f).
  destruct (open_fails _); [intros; by simplify_eq|].
  rewrite lookup_insert_ne, Hx by done. cbn [default from_option id].
  destruct (_ || _); intros [= <- <-]; split; try (intros q Hq1 Hq2);
    rewrite ?delete_insert_eq; rewrite ?lookup_insert_ne, ?lookup_delete_ne, ?lookup_insert_ne by done; eauto.
  exists x. by rewrite lookup_insert_eq.
Qed.

Lemma save_file_spec f path d fs ok fs' :
  save_file f path d fs = (ok, fs') →
  (∀ q, q ≠ path → fs' !! q = fs !! q) ∧ (ok = true → fs' !! path = Some (save d)).
Proof.
  unfold save_file. repeat case_match; intros [= <- <-]; split; intros; try done;
    by rewrite ?lookup_insert_eq, ?lookup_insert_ne by done.
Qed.

Lemma register_files f p fs q :
  (∀ k, mRegistry p = Some k → q ≠ KeyValueStorage.mStoragePath k ∧ q ≠ tmp_of (KeyValueStorage.mStoragePath k)) →
  snd (register f p fs) !! q = fs !! q.
Proof.
  intros Hq. unfold register. destruct (mRegistry p) as [k|]; [|done].
  destruct (first_transfer _) as [[j info]|]; [|done]. destruct (Hq k eq_refl) as [H1 H2]. cbn [snd].
  unfold KeyValueStorage.SyncToStorage.
  set (w := replace_file _ _ _ _). destruct (replace_file_atomic _ _ _ _ _ (final_elem w fs)) as [_ H].
  by apply H.
Qed.

(** The names of the processes of a manifest. *)
Definition process_names (path : string) (fs : Fs) : option (list string) :=
  d ← (fs !! path ≫= load); ps ← processes d; Some (map short_name ps).

Definition add_name (n : string) (names : list string) : list string :=
  if bool_decide (n ∈ names) then names else names ++ [n].

Lemma if_loaded (b : bool) (o : option bytes) d : (if b then o else None) ≫= load = Some d → o ≫= load = Some d.
Proof. by destruct b. Qed.

Lemma existsb_name (ps : list element) n :
  existsb (fun child => (short_name child =? n)%string) ps = bool_decide (n ∈ map short_name ps).
Proof.
  induction ps as [|e ps IH]; [done|]. cbn [existsb map]. rewrite IH.
  destruct (String.eqb_spec (short_name e) n) as [->|Hne]; cbn.
  - symmetry. apply bool_decide_eq_true. constructor.
  - apply bool_decide_ext. rewrite elem_of_cons. naive_solver.
Qed.

Lemma inject_saved d proc ps :
  processes d = Some ps → is_process (document_element proc) = true →
  ∃ d' ps', load (save (inject d proc ps)) = Some d' ∧ processes d' = Some ps' ∧
    map short_name ps' = add_name (short_name (document_element proc)) (map short_name ps).
Proof.
  intros Hps Hproc. destruct (load_save (inject d proc ps)) as (d' & Hload & Hnames).
  assert (Hin : map short_name <$> processes (inject d proc ps) =
    Some (add_name (short_name (document_element proc)) (map short_name ps))).
  { unfold inject, add_name. rewrite existsb_name. destruct (bool_decide _); [by rewrite Hps|].
    destruct (processes_append_copy _ _ _ Hps Hproc) as (e' & He & ->). cbn. by rewrite map_app, <- He. }
  rewrite Hin in Hnames. apply fmap_Some in Hnames as (ps' & Hps' & Heq). eauto 6.
Qed.

(** The files an activation works with. *)
Definition bin_src (p : t) : string := (extractDir p +:+ "/bin/" +:+ mStagedBinaryName p)%string.
Definition bin_dst (installRoot : string) (p : t) : string := (installRoot +:+ "/" +:+ mStagedBinaryName p)%string.
Definition entry_path (p : t) : string := (extractDir p +:+ "/manifest/process_entry.xml")%string.
Definition registry_files (p : t) : list string :=
  match mRegistry p with
  | Some k => [KeyValueStorage.mStoragePath k; tmp_of (KeyValueStorage.mStoragePath k)]
  | None => []
  end.

Definition involved (installRoot manifest : string) (p : t) : list string :=
  [bin_src p; entry_path p; bin_dst installRoot p; (bin_dst installRoot p +:+ ".ucm_tmp")%string; manifest] ++
  registry_files p.

Lemma involved_apart installRoot manifest p :
  NoDup (involved installRoot manifest p) →
  let dst := bin_dst installRoot p in
  let tmp := (dst +:+ ".ucm_tmp")%string in
  (bin_src p ≠ tmp ∧ dst ≠ tmp ∧ entry_path p ≠ dst ∧ entry_path p ≠ tmp) ∧
  (manifest ≠ dst ∧ manifest ≠ tmp) ∧ ((dst ∉ registry_files p) ∧ (manifest ∉ registry_files p)).
Proof.
  cbv zeta. unfold involved. cbn [app].
  rewrite !NoDup_cons, !not_elem_of_cons. intros H. destruct_and! H. repeat split; congruence.
Qed.

Lemma registry_files_kept f p fs q :
  q ∉ registry_files p → snd (register f p fs) !! q = fs !! q.
Proof.
  intros Hq. apply register_files. intros k Hk. unfold registry_files in Hq. rewrite Hk in Hq.
  rewrite !not_elem_of_cons in Hq. naive_solver.
Qed.

End Lemmas.

(** ** Properties *)

(** C30: a transfer is reassembled: from an idle manager, every block of a started
    transfer is accepted, their counters do not matter, and the end of the transfer
    succeeds only when the blocks together have the declared size; then the storage
    holds their concatenation under the package's name, or the write's failure is
    reported and the storage holds what it held. *)
Theorem transfer_reassembles `{Text : !JsonText} (is_directory : string → bool) (faults : Faults)
    (info : PackageInfoType) (blocks : list (bytes * Z)) (p : PackageManager.t) (fs : Fs) :
  PackageManager.mState p = kIdle → info_size info ≠ 0 →
  let id := PackageManager.mNextId p in
  let p1 := snd (PackageManager.TransferStart info p) in
  let sent := PackageManager.send_blocks id blocks p1 in
  let data := concat (map fst blocks) in
  let res := PackageManager.TransferExit is_directory faults id (snd sent) fs in
  let fs' := snd (snd res) in
  fst (PackageManager.TransferStart info p) = inr id ∧ fst sent = true ∧
  (∀ blocks', map fst blocks' = map fst blocks → PackageManager.send_blocks id blocks' p1 = sent) ∧
  (Z.of_nat (length data) ≠ info_size info →
     fst res = inl kTransferNotComplete ∧ fs' = fs ∧
     PackageManager.mStagedPackagePath (fst (snd res)) = PackageManager.mStagedPackagePath p) ∧
  (Z.of_nat (length data) = info_size info → ∀ s, PackageManager.mStorage p = Some s →
     let file := PackageManager.pkgFileName info in
     (fst res = inr () ∧ FileStorage.ReadFile false s file fs' = inr data ∧
      PackageManager.mStagedPackagePath (fst (snd res)) =
        (PackageManager.mStorageRoot p +:+ "/" +:+ file)%string) ∨
     (fst res = inl kInsufficientSpace ∧
      FileStorage.ReadFile false s file fs' = FileStorage.ReadFile false s file fs ∧
      PackageManager.mStagedPackagePath (fst (snd res)) = PackageManager.mStagedPackagePath p)).
Proof.
  intros Hidle Hsize. cbv zeta.
  unfold PackageManager.TransferStart. rewrite Hidle. cbn [negb bool_decide fst snd].
  rewrite bool_decide_eq_true_2 by done. cbn [negb fst snd].
  set (id := PackageManager.mNextId p). set (p1 := PackageManager.mk _ _ _ _ _ _ _ _ _).
  assert (Hsend : ∀ bs, PackageManager.send_blocks id bs p1 =
    (true, PackageManager.set_accumulated (<[id := concat (map fst bs)]> (PackageManager.mAccumulatedData p1)) p1)).
  { intros bs. rewrite send_blocks_spec; [|by eexists; apply lookup_insert_eq|by eexists; apply lookup_insert_eq].
    unfold PackageManager.accumulated. unfold p1 at 1. cbn [PackageManager.mAccumulatedData].
    by rewrite lookup_insert_eq. }
  rewrite Hsend. cbn [fst snd]. split; [done|]. split; [done|].
  split; [intros bs Hbs; by rewrite Hsend, Hbs|].
  set (data := concat (map fst blocks)).
  unfold PackageManager.TransferExit, PackageManager.accumulated. cbn. rewrite !lookup_insert_eq. cbn.
  rewrite (proj2 (Z.eqb_neq _ _)) by done. split; intros Hlen.
  - by rewrite (proj2 (Z.eqb_neq _ _)).
  - rewrite (proj2 (Z.eqb_eq _ _)) by done. cbn. intros s Hs. rewrite Hs.
    unfold FileStorage.WriteFile, FileStorage.ReadFile.
    pose proof (replace_file_final faults (FileStorage.filePath s (PackageManager.pkgFileName info)) data fs) as Hf.
    destruct (snd (replace_file _ _ _ _)) as [e|]; cbn; rewrite Hf; [by right|by left].
Qed.

(** The registry records the oldest transfer: after any calls without a reset that
    follow the first transfer, a successful activation records the name and version of
    that first transfer, whatever package was staged and installed - also when the first
    one could not be unpacked. *)
Theorem first_transfer_is_registered `{Text : !JsonText} `{Pugi : !Xml}
    (system : string → Fs → Z * Fs) (is_directory : string → bool) (info : PackageInfoType)
    (calls : list PackageManager.call) (p p' : PackageManager.t) (fs fs' : Fs) (k : KeyValueStorage.t)
    (f : ActivationFaults) (installRoot executionManifestPath : string) (w : PackageManager.t * Fs) :
  PackageManager.mState p = kIdle → PackageManager.mPendingTransfers p = ∅ →
  0 ≤ PackageManager.mNextId p →
  PackageManager.mNextId p + 1 + Z.of_nat (length (List.filter is_start calls)) < 4294967296 →
  forallb (negb ∘ is_reset) calls = true →
  PackageManager.perform_all system is_directory (PackageManager.CStart info :: calls) p fs = Ok (p', fs') →
  PackageManager.mRegistry p' = Some k →
  PackageManager.Activate f installRoot executionManifestPath p' fs' = (inr (), w) →
  PackageManager.mRegistry (fst w) = Some (KeyValueStorage.SetValue (name info) (JString (version info)) k).
Proof.
  intros Hidle Hnone Hid Hwrap Hreset Hrun Hk Hact.
  cbn [PackageManager.perform_all PackageManager.perform] in Hrun. rewrite Ok_bind in Hrun. cbn [fst snd] in Hrun.
  apply (perform_all_oldest system is_directory (PackageManager.mNextId p) info) in Hrun; [| done |].
  - rewrite (Activate_registers _ _ _ _ _ _ _ Hact). unfold PackageManager.register.
    by rewrite Hk, (oldest_first _ _ _ _ Hrun).
  - unfold PackageManager.TransferStart. rewrite Hidle, Hnone, bool_decide_eq_true_2 by done. cbn.
    assert (Hn : u32 (PackageManager.mNextId p + 1) = PackageManager.mNextId p + 1) by (apply u32_id; ulia).
    split; cbn [PackageManager.mPendingTransfers PackageManager.mNextId]; rewrite ?Hn; [|intros i [x Hx]|lia].
    + apply lookup_insert_eq.
    + apply lookup_insert_Some in Hx as [[<- _]|[_ Hx]]; [lia|by rewrite lookup_empty in Hx].
Qed.

(** C31: an activation installs what was staged: when it succeeds the installed binary is
    the staged one and the manifest's processes are those it had with the staged process
    entry, added only when its name is new; when it fails it says so, the manager is idle
    or untouched, the registry's contents are the same and the installed binary is the old
    one or the new one, whole.  Files that are not involved are never changed, nor are the
    staged ones. *)
Theorem activation_installs `{Text : !JsonText} `{Pugi : !Xml} (f : ActivationFaults)
    (installRoot manifest : string) (p : PackageManager.t) (fs : Fs) :
  NoDup (involved installRoot manifest p) →
  (∀ d, fs !! entry_path p ≫= load = Some d → is_process (document_element d) = true) →
  let r := PackageManager.Activate f installRoot manifest p fs in
  let p' := fst (snd r) in
  let fs' := snd (snd r) in
  match fst r with
  | inr _ => ∃ binary d names,
      fs !! bin_src p = Some binary ∧ fs' !! bin_dst installRoot p = Some binary ∧
      fs !! entry_path p ≫= load = Some d ∧ process_names manifest fs = Some names ∧
      process_names manifest fs' = Some (add_name (short_name (document_element d)) names) ∧
      PackageManager.mState p' = kActivated
  | inl e =>
      e = kActivationFailed ∧ (PackageManager.mState p' = kIdle ∨ p' = p ∧ fs' = fs) ∧
      PackageManager.mRegistry p' = PackageManager.mRegistry p ∧
      (fs' !! bin_dst installRoot p = fs !! bin_dst installRoot p ∨
       fs' !! bin_dst installRoot p = fs !! bin_src p)
  end ∧
  (∀ q, q ∉ drop 2 (involved installRoot manifest p) → fs' !! q = fs !! q).
Proof.
  intros Hdup Hproc. cbv zeta. unfold PackageManager.Activate.
  destruct (bool_decide (PackageManager.mStagedBinaryName p = EmptyString)); [cbn; auto 10|].
  change (PackageManager.extractDir (PackageManager.set_state kActivating p) +:+ "/bin/" +:+
    PackageManager.mStagedBinaryName (PackageManager.set_state kActivating p))%string with (bin_src p).
  change (installRoot +:+ "/" +:+ PackageManager.mStagedBinaryName (PackageManager.set_state kActivating p))%string
    with (bin_dst installRoot p).
  change (PackageManager.extractDir (PackageManager.set_state kActivating p) +:+ "/manifest/process_entry.xml")%string
    with (entry_path p).
  apply involved_apart in Hdup as ((Hst & Hdt & Hed & Het) & (Hmd & Hmt) & (Hdr & Hmr)).
  unfold involved. cbn [drop app].
  set (src := bin_src p) in *. set (entry := entry_path p) in *. set (dst := bin_dst installRoot p) in *.
  destruct (PackageManager.install f src dst fs) as [ok fs1] eqn:Hinst.
  apply install_spec in Hinst as [Hother Hbin]; [|done..].
  assert (Hbin' : fs1 !! dst = fs !! dst ∨ fs1 !! dst = fs !! src).
  { destruct ok; [destruct Hbin as (x & -> & ->)|]; auto. }
  assert (Hrest : ∀ q, q ∉ dst :: (dst +:+ ".ucm_tmp")%string :: manifest :: registry_files p → fs1 !! q = fs !! q).
  { intros q Hq. rewrite !not_elem_of_cons in Hq. apply Hother; naive_solver. }
  destruct ok; cbn [negb fst snd]; [|auto 10].
  rewrite (Hother entry), (Hother manifest) by done.
  destruct ((if entry_reads f then _ else _) ≫= load) as [proc|] eqn:Hentry; [|cbn; auto 10].
  destruct ((if manifest_reads f then _ else _) ≫= load) as [d|] eqn:Hman; [|cbn; auto 10].
  destruct (processes d) as [ps|] eqn:Hps; [|cbn; auto 10].
  apply if_loaded in Hentry, Hman.
  destruct (PackageManager.save_file f manifest _ fs1) as [saved fs2] eqn:Hsave.
  apply save_file_spec in Hsave as [Hsame Hsaved].
  assert (Hbin2 : fs2 !! dst = fs1 !! dst) by by apply Hsame.
  assert (Hrest2 : ∀ q, q ∉ dst :: (dst +:+ ".ucm_tmp")%string :: manifest :: registry_files p → fs2 !! q = fs !! q).
  { intros q Hq. rewrite Hsame; [by apply Hrest|]. rewrite !not_elem_of_cons in Hq. naive_solver. }
  destruct saved; cbn [negb]; [|cbn; rewrite Hbin2; auto 10].
  pose proof (registry_files_kept f (PackageManager.set_state kActivating p) fs2) as Hreg.
  destruct (PackageManager.register f _ fs2) as [p3 fs3]. cbn [fst snd] in *.
  destruct Hbin as (x & Hx & Hx1).
  destruct (inject_saved d proc ps) as (d' & ps' & Hload & Hps' & Hnames); [done|by apply Hproc|].
  split.
  - exists x, proc, (map short_name ps). split; [done|]. split; [by rewrite Hreg, Hbin2|].
    split; [done|]. unfold process_names. rewrite Hman. cbn. rewrite Hps. split; [done|].
    rewrite Hreg by done. rewrite Hsaved by done. cbn. rewrite Hload. cbn. rewrite Hps'. cbn. by rewrite Hnames.
  - intros q Hq. rewrite Hreg; [by apply Hrest2|]. rewrite !not_elem_of_cons in Hq. naive_solver.
Qed.

(** ** Witnesses *)

(** Documents that are their processes, named by a number. *)
Definition demo_xml : Xml.
Proof.
  refine {| document := bytes; element := Z; load := Some; processes := Some; document_element := hd 0;
            is_process _ := true; short_name z := String (Ascii.ascii_of_N (Z.to_N z)) EmptyString; append_copy d e := d ++ [e]; save d := d |}.
  - intros d e ps [= <-] _. by exists e.
  - intros d. by exists d.
Defined.

Definition demo_files : Fs :=
  {["u/staging/metadata.json" := [1]; "u/staging/bin/app" := [42]; "u/staging/manifest/process_entry.xml" := [7];
    "manifest.arxml" := [1; 2]]}.

(** Only the package b can be unpacked. *)
Definition demo_system (command : string) (fs : Fs) : Z * Fs :=
  if bool_decide (command = PackageManager.tar_command (PackageManager.mk "u" None None kIdle 1 ∅ ∅
       "u/b.swpkg.tar.gz" EmptyString)) then (0, fs) else (2, fs).

Definition demo_manager : PackageManager.t :=
  @PackageManager.construct demo_text true true "u" demo_files.

Lemma transfer_reassembles_witness :
  fst (PackageManager.TransferExit (fun _ => false) no_faults 1
    (snd (PackageManager.send_blocks 1 [([1; 2], 5); ([3], 5)]
      (snd (PackageManager.TransferStart (mkInfo "a" "1.0.0" 4) demo_manager)))) demo_files) = inl kTransferNotComplete.
Proof.
  pose proof (@transfer_reassembles demo_text (fun _ => false) no_faults (mkInfo "a" "1.0.0" 4)
    [([1; 2], 5); ([3], 5)] demo_manager demo_files eq_refl) as H.
  apply H; done.
Defined.

Definition demo_calls : list PackageManager.call :=
  [PackageManager.CData 1 [8; 8] 1; PackageManager.CExit no_faults 1; PackageManager.CProcess true 1;
   PackageManager.CStart (mkInfo "b" "2.0.0" 1); PackageManager.CData 2 [9] 1; PackageManager.CExit no_faults 2;
   PackageManager.CProcess true 2].

(** Where these calls lead. *)
Definition demo_after : PackageManager.t * Fs :=
  Eval vm_compute in
  match @PackageManager.perform_all demo_text demo_xml demo_system (fun _ => false)
          (PackageManager.CStart (mkInfo "a" "1.0.0" 2) :: demo_calls) demo_manager demo_files with
  | Ok w => w
  | _ => (demo_manager, ∅)
  end.

Lemma first_transfer_is_registered_witness :
  PackageManager.mStagedPackagePath (fst demo_after) = "u/b.swpkg.tar.gz"%string ∧
  PackageManager.mRegistry (fst (snd (@PackageManager.Activate demo_text demo_xml no_activation_faults
    "bin" "manifest.arxml" (fst demo_after) (snd demo_after))))
    = Some (KeyValueStorage.mk "u/ucm_registry.json" {["a" := JString "1.0.0"]}).
Proof.
  split; [reflexivity|].
  apply (@first_transfer_is_registered demo_text demo_xml demo_system (fun _ => false) (mkInfo "a" "1.0.0" 2)
    demo_calls demo_manager (fst demo_after) demo_files (snd demo_after) (KeyValueStorage.mk "u/ucm_registry.json" ∅)
    no_activation_faults "bin" "manifest.arxml").
  - reflexivity.
  - reflexivity.
  - by vm_compute.
  - by vm_compute.
  - reflexivity.
  - vm_cast_no_check (eq_refl (Ok demo_after)).
  - reflexivity.
  - vm_cast_no_check (eq_refl (@inr UcmErrc () (), snd (@PackageManager.Activate demo_text demo_xml no_activation_faults
      "bin" "manifest.arxml" (fst demo_after) (snd demo_after)))).
Defined.

Lemma activation_installs_witness :
  let p := PackageManager.set_binary "app" demo_manager in
  snd (snd (@PackageManager.Activate demo_text demo_xml no_activation_faults "bin" "manifest.arxml" p demo_files))
    !! "u/staging/bin/app" = Some [42].
Proof.
  cbv zeta.
  destruct (@activation_installs demo_text demo_xml no_activation_faults "bin" "manifest.arxml"
    (PackageManager.set_binary "app" demo_manager) demo_files) as [_ H].
  - refine (bool_decide_unpack _ _). vm_compute. exact I.
  - intros d _. reflexivity.
  - rewrite H; [reflexivity|]. refine (bool_decide_unpack _ _). vm_compute. exact I.
Defined.
