(* ===== verification/PackageService.v ===== *)
(** * The package management service: src-gen/package_management

    The skeleton that offers the package manager over RPC and the proxy that calls it:
    their payloads, the handlers, the polling for an answer.  The theorems: a remote call
    is the call itself, through both payloads and the RPC layer; a request whose length
    fields exceed it is read out of bounds; an answer that comes too late is taken for the
    answer of the next call, whatever its method. *)

From S2P Require Import Prelude Texts Payload SomeIp Rpc Storage Ucm.
#[local] Open Scope Z_scope.

(** ** Serialisation helpers, the same in skeleton and proxy *)

(** [src-gen/package_management/package_management_skeleton.cpp:283-287] appendU8 *)
Definition appendU8 (v : bytes) (val : Z) : bytes := push_back v val.

(** [src-gen/package_management/package_management_skeleton.cpp:289-294] appendU16 *)
Definition appendU16 (v : bytes) (val : Z) : bytes :=
  push_back (push_back v (u8 (val ≫ 8))) (u8 (Z.land val 255)).

(** [src-gen/package_management/package_management_skeleton.cpp:296-303] appendU32 *)
Definition appendU32 (v : bytes) (val : Z) : bytes :=
  let v := push_back v (u8 (val ≫ 24)) in
  let v := push_back v (u8 (Z.land (val ≫ 16) 255)) in
  let v := push_back v (u8 (Z.land (val ≫ 8) 255)) in
  push_back v (u8 (Z.land val 255)).

(** [src-gen/package_management/package_management_skeleton.cpp:305-312] appendU64: the loop
    from [i = 7] down to [0] *)
Definition appendU64 (v : bytes) (val : Z) : bytes :=
  foldl (fun v i => push_back v (u8 (Z.land (val ≫ (i * 8)) 255))) v [7; 6; 5; 4; 3; 2; 1; 0].

(** [src-gen/package_management/package_management_skeleton.cpp:314-319] appendString *)
Definition appendString (v : bytes) (s : string) : bytes :=
  appendU16 v (u16 (size (bytes_of_string s))) ++ bytes_of_string s.

(** [src-gen/package_management/package_management_proxy.cpp:304-309] appendBytes *)
Definition appendBytes (v block : bytes) : bytes := appendU32 v (u32 (size block)) ++ block.

(** One round of the extraction loops: a byte is shifted into its place. *)
Definition extract_byte (v : bytes) (width : Z) (acc : outcome (Z * Z)) (i : Z) : outcome (Z * Z) :=
  '(val, offset) ← acc; b ← at_ v offset; mret (Z.lor val ((b ≪ (i * 8)) mod 2 ^ width), offset + 1).

(** [src-gen/package_management/package_management_skeleton.cpp:327-336] extractU32 *)
Definition extractU32 (v : bytes) (offset : Z) : outcome (Z * Z) :=
  foldl (extract_byte v 32) (Ok (0, offset)) [3; 2; 1; 0].

(** [src-gen/package_management/package_management_skeleton.cpp:338-347] extractU64 *)
Definition extractU64 (v : bytes) (offset : Z) : outcome (Z * Z) :=
  foldl (extract_byte v 64) (Ok (0, offset)) [7; 6; 5; 4; 3; 2; 1; 0].

(** [src-gen/package_management/package_management_skeleton.cpp:349-360] extractString: the
    bytes behind the length are read unchecked *)
Definition extractString (v : bytes) (offset : Z) : outcome (string * Z) :=
  b0 ← at_ v offset;
  let len := u16 (b0 ≪ 8) in
  b1 ← at_ v (offset + 1);
  let len := Z.lor len b1 in
  let offset := offset + 2 in
  s ← range_ v offset (offset + len);
  mret (string_of_bytes s, offset + len).

(** [src-gen/package_management/package_management_skeleton.cpp:362-371] extractBytes *)
Definition extractBytes (v : bytes) (offset : Z) : outcome (bytes * Z) :=
  '(len, offset) ← extractU32 v offset;
  block ← range_ v offset (offset + len);
  mret (block, offset + len).

(** ** package_management_types.h *)

(** [src-gen/package_management/package_management_types.h:17-17] cServiceId *)
Definition cServiceId : Z := 192.
(** [src-gen/package_management/package_management_types.h:18-18] cMethodTransferStart *)
Definition cMethodTransferStart : Z := 1.
(** [src-gen/package_management/package_management_types.h:19-19] cMethodTransferData *)
Definition cMethodTransferData : Z := 2.
(** [src-gen/package_management/package_management_types.h:20-20] cMethodTransferExit *)
Definition cMethodTransferExit : Z := 3.
(** [src-gen/package_management/package_management_types.h:21-21] cMethodProcessSwPackage *)
Definition cMethodProcessSwPackage : Z := 4.
(** [src-gen/package_management/package_management_types.h:22-22] cMethodActivate *)
Definition cMethodActivate : Z := 5.
(** [src-gen/package_management/package_management_types.h:23-23] cMethodGetSwClusterInfo *)
Definition cMethodGetSwClusterInfo : Z := 6.
(** [src-gen/package_management/package_management_types.h:24-24] cMethodGetCurrentStatus *)
Definition cMethodGetCurrentStatus : Z := 7.
(** [src-gen/package_management/package_management_types.h:28-28] cClientId *)
Definition cClientId : Z := 16.
(** [src-gen/package_management/package_management_types.h:34-34] cWireOk *)
Definition cWireOk : Z := 0.

(** [ara/ucm/ucm_error_domain.h:13-22] UcmErrc's values *)
Definition UcmErrc_code (e : UcmErrc) : Z :=
  match e with
  | kInvalidTransferId => 1
  | kTransferNotComplete => 2
  | kPackageMalformed => 3
  | kActivationFailed => 4
  | kRollbackFailed => 5
  | kInsufficientSpace => 6
  | kOperationInProgress => 7
  end.

(** [ara/ucm/package_manager_state.h:15-24] UpdateStateType's values *)
Definition UpdateStateType_code (u : UpdateStateType) : Z :=
  match u with
  | kIdle => 0
  | kTransferring => 1
  | kProcessing => 2
  | kActivating => 3
  | kActivated => 4
  | kRollingBack => 5
  | kRolledBack => 6
  end.

(** ** The skeleton *)
Module PackageManagementSkeleton.
Section PackageManagementSkeleton.
Context `{Text : !JsonText} `{Pugi : !Xml}.
Variable system : string → Fs → Z * Fs.
Variable is_directory : string → bool.

(** What fails in the calls of the file system that a request leads to. *)
Variable exit_faults : Faults.
Variable metadata_opens : bool.
Variable activation_faults : ActivationFaults.

(** The package manager it dispatches to, and the files. *)
Definition World : Type := PackageManager.t * Fs.

(** [catch (...)]: every exception becomes an error answer; [std::terminate] is none. *)
Definition catch_all (m : M World bytes) (code : UcmErrc) : M World (bool * bytes) := fun w =>
  match m w with
  | (Ok response, w) => (Ok (true, response), w)
  | (Throw std_terminate, w) => (Throw std_terminate, w)
  | (Throw _, w) => (Ok (true, [UcmErrc_code code]), w)
  | (Undefined, w) => (Undefined, w)
  | (OutOfFuel, w) => (OutOfFuel, w)
  end.

(** The status byte of a result. *)
Definition status {A} (r : PackageManager.Result A) : Z :=
  match r with inl e => UcmErrc_code e | inr _ => cWireOk end.

(** [src-gen/package_management/package_management_skeleton.cpp:117-148] handleTransferStart *)
Definition handleTransferStart (request : bytes) : M World (bool * bytes) :=
  catch_all
    ('(name, off) ← lift (extractString request 0);
     '(version, off) ← lift (extractString request off);
     '(size, off) ← lift (extractU64 request off);
     '(p, fs) ← get;
     let '(r, p) := PackageManager.TransferStart (mkInfo name version size) p in
     modify (fun _ => (p, fs));;
     mret (match r with
           | inr id => appendU32 (appendU8 [] cWireOk) id
           | inl e => appendU8 [] (UcmErrc_code e)
           end))
    kPackageMalformed.

(** [src-gen/package_management/package_management_skeleton.cpp:150-174] handleTransferData *)
Definition handleTransferData (request : bytes) : M World (bool * bytes) :=
  catch_all
    ('(id, off) ← lift (extractU32 request 0);
     '(block, off) ← lift (extractBytes request off);
     '(blockCounter, off) ← lift (extractU32 request off);
     '(p, fs) ← get;
     let '(r, p) := PackageManager.TransferData id block blockCounter p in
     modify (fun _ => (p, fs));;
     mret (appendU8 [] (status r)))
    kPackageMalformed.

(** [src-gen/package_management/package_management_skeleton.cpp:176-197] handleTransferExit *)
Definition handleTransferExit (request : bytes) : M World (bool * bytes) :=
  catch_all
    ('(id, off) ← lift (extractU32 request 0);
     '(p, fs) ← get;
     let '(r, w) := PackageManager.TransferExit is_directory exit_faults id p fs in
     modify (fun _ => w);;
     mret (appendU8 [] (status r)))
    kPackageMalformed.

Definition process (id : Z) : M World (PackageManager.Result ()) := fun '(p, fs) =>
  PackageManager.ProcessSwPackage system metadata_opens id p fs.

(** [src-gen/package_management/package_management_skeleton.cpp:199-220] handleProcessSwPackage *)
Definition handleProcessSwPackage (request : bytes) : M World (bool * bytes) :=
  catch_all
    ('(id, off) ← lift (extractU32 request 0);
     r ← process id;
     mret (appendU8 [] (status r)))
    kPackageMalformed.

(** [src-gen/package_management/package_management_skeleton.cpp:222-246] handleActivate *)
Definition handleActivate (request : bytes) : M World (bool * bytes) :=
  catch_all
    ('(installRoot, off) ← lift (extractString request 0);
     '(manifestPath, off) ← lift (extractString request off);
     '(p, fs) ← get;
     let '(r, w) := PackageManager.Activate activation_faults installRoot manifestPath p fs in
     modify (fun _ => w);;
     mret (appendU8 [] (status r)))
    kActivationFailed.

(** [src-gen/package_management/package_management_skeleton.cpp:262-267] the entry of one
    cluster in the answer *)
Definition appendCluster (v : bytes) (c : PackageInfoType) : bytes :=
  appendU64 (appendString (appendString v (name c)) (version c)) (info_size c).

(** [src-gen/package_management/package_management_skeleton.cpp:248-269] handleGetSwClusterInfo *)
Definition handleGetSwClusterInfo (request : bytes) : M World (bool * bytes) :=
  '(p, _) ← get;
  match PackageManager.GetSwClusterInfo p with
  | inl _ => mret (true, [cWireOk])
  | inr clusters =>
      mret (true, foldl appendCluster (appendU32 (appendU8 [] cWireOk) (u32 (Z.of_nat (length clusters)))) clusters)
  end.

(** [src-gen/package_management/package_management_skeleton.cpp:271-279] handleGetCurrentStatus *)
Definition handleGetCurrentStatus (request : bytes) : M World (bool * bytes) :=
  '(p, _) ← get;
  mret (true, appendU8 (appendU8 [] cWireOk) (UpdateStateType_code (PackageManager.GetCurrentState p))).

(** [src-gen/package_management/package_management_skeleton.cpp:75-113] registerHandlers *)
Definition registerHandlers (mServer : RpcServer.t World) : RpcServer.t World :=
  foldl (fun srv '(methodId, h) => RpcServer.SetHandler srv cServiceId methodId h) mServer
    [(cMethodTransferStart, handleTransferStart);
     (cMethodTransferData, handleTransferData);
     (cMethodTransferExit, handleTransferExit);
     (cMethodProcessSwPackage, handleProcessSwPackage);
     (cMethodActivate, handleActivate);
     (cMethodGetSwClusterInfo, handleGetSwClusterInfo);
     (cMethodGetCurrentStatus, handleGetCurrentStatus)].

(** [src-gen/package_management/package_management_skeleton.cpp:52-63] the disconnect handler *)
Definition disconnected : M World () := fun '(p, fs) =>
  let state := PackageManager.GetCurrentState p in
  if negb (bool_decide (state = kIdle)) && negb (bool_decide (state = kActivated))
  then (Ok (), (PackageManager.Reset p, fs))
  else (Ok (), (p, fs)).

End PackageManagementSkeleton.
End PackageManagementSkeleton.

(** ** The proxy *)
Module PackageManagementProxy.

(** [src-gen/package_management/package_management_proxy.h:80-81] PackageManagementProxy: the
    last answer and whether there is one *)
Record State := mk { mLastResponse : bytes; mResponseReady : bool }.

(** [src-gen/package_management/package_management_proxy.cpp:50-55] the handler of every method *)
Definition handler (msg : SomeIpRpcMessage.t) : M State () :=
  modify (fun _ => mk (SomeIpRpcMessage.mRpcPayload msg) true).

(** [src-gen/package_management/package_management_proxy.cpp:42-72] registerHandlers *)
Definition registerHandlers (mClient : RpcClient.t State) : RpcClient.t State :=
  foldl (fun cl methodId => RpcClient.SetHandler cl cServiceId methodId handler) mClient
    [cMethodTransferStart; cMethodTransferData; cMethodTransferExit; cMethodProcessSwPackage; cMethodActivate;
     cMethodGetSwClusterInfo; cMethodGetCurrentStatus].

(** What one round of the waiting loop brings: the messages that [TryPoll] delivers, and
    whether the deadline has passed after it. *)
Definition poll : Type := list bytes * bool.

Definition deliver (cl : RpcClient.t State) (messages : list bytes) : M State () :=
  foldl (fun m message => m;; RpcClient.InvokeHandler cl message) (mret ()) messages.

(** [src-gen/package_management/package_management_proxy.cpp:89-100] sendAndWait, from the
    loop on: the answer, [None] when the time is up, and no result while it goes on *)
Fixpoint wait (cl : RpcClient.t State) (polls : list poll) : M State (option bytes) :=
  s ← get;
  if mResponseReady s then modify (fun _ => mk [] true);; mret (Some (mLastResponse s))
  else
    match polls with
    | [] => lift OutOfFuel
    | (messages, late) :: polls =>
        deliver cl messages;;
        if (late : bool) then mret None else wait cl polls
    end.

(** [src-gen/package_management/package_management_proxy.cpp:76-101] sendAndWait: the request
    that goes out, and the answer *)
Definition sendAndWait (methodId : Z) (requestPayload : bytes) (polls : list poll) :
    M (RpcClient.t State * State) (bytes * option bytes) := fun '(cl, _) =>
  match RpcClient.Send cServiceId methodId cClientId requestPayload cl with
  | (Ok request, cl) =>
      let '(r, s) := wait cl polls (mk [] false) in
      (answer ← r; Ok (request, answer), (cl, s))
  | (Throw e, cl) => (Throw e, (cl, mk [] false))
  | (Undefined, cl) => (Undefined, (cl, mk [] false))
  | (OutOfFuel, cl) => (OutOfFuel, (cl, mk [] false))
  end.

(** What a method of the proxy returns: an error code, or a value. *)
Definition Result (A : Type) : Type := Z + A.

Definition Call (A : Type) : Type := M (RpcClient.t State * State) (bytes * Result A).

Definition failed {A} : outcome (Result A) := Ok (inl (UcmErrc_code kActivationFailed)).

(** A call: the request that goes out, and what is made of the answer. *)
Definition call {A} (methodId : Z) (request : bytes) (decode : option bytes → outcome (Result A)) (polls : list poll) :
    Call A :=
  '(sent, resp) ← sendAndWait methodId request polls;
  r ← lift (decode resp);
  mret (sent, r).

(** [src-gen/package_management/package_management_proxy.cpp:105-124] voidResult: what it
    makes of the answer *)
Definition voidResult (resp : option bytes) : outcome (Result ()) :=
  match resp with
  | None | Some [] => failed
  | Some resp => status ← at_ resp 0; if negb (status =? cWireOk) then Ok (inl status) else Ok (inr ())
  end.

(** [src-gen/package_management/package_management_proxy.cpp:138-155] TransferStart: the
    result *)
Definition TransferStart_result (resp : option bytes) : outcome (Result Z) :=
  match resp with
  | None | Some [] => failed
  | Some resp =>
      status ← at_ resp 0;
      if negb (status =? cWireOk) then Ok (inl status)
      else '(id, _) ← extractU32 resp 1; Ok (inr id)
  end.

(** [src-gen/package_management/package_management_proxy.cpp:128-156] TransferStart *)
Definition TransferStart (info : PackageInfoType) : list poll → Call Z :=
  call cMethodTransferStart
    (appendU64 (appendString (appendString [] (name info)) (version info)) (info_size info)) TransferStart_result.

(** [src-gen/package_management/package_management_proxy.cpp:158-169] TransferData *)
Definition TransferData (id : Z) (block : bytes) (blockCounter : Z) : list poll → Call () :=
  call cMethodTransferData (appendU32 (appendBytes (appendU32 [] id) block) blockCounter) voidResult.

(** [src-gen/package_management/package_management_proxy.cpp:171-178] TransferExit *)
Definition TransferExit (id : Z) : list poll → Call () :=
  call cMethodTransferExit (appendU32 [] id) voidResult.

(** [src-gen/package_management/package_management_proxy.cpp:180-187] ProcessSwPackage *)
Definition ProcessSwPackage (id : Z) : list poll → Call () :=
  call cMethodProcessSwPackage (appendU32 [] id) voidResult.

(** [src-gen/package_management/package_management_proxy.cpp:189-198] Activate *)
Definition Activate (installRoot manifestPath : string) : list poll → Call () :=
  call cMethodActivate (appendString (appendString [] installRoot) manifestPath) voidResult.

(** [src-gen/package_management/package_management_proxy.cpp:223-232] GetSwClusterInfo: the
    loop over the clusters *)
Fixpoint extractClusters (resp : bytes) (off : Z) (count : nat) : outcome (list PackageInfoType) :=
  match count with
  | O => Ok []
  | S count =>
      '(name, off) ← extractString resp off;
      '(version, off) ← extractString resp off;
      '(size, off) ← extractU64 resp off;
      rest ← extractClusters resp off count;
      Ok (mkInfo name version size :: rest)
  end.

(** [src-gen/package_management/package_management_proxy.cpp:206-235] GetSwClusterInfo: the
    result; [reserve] is taken to succeed *)
Definition GetSwClusterInfo_result (resp : option bytes) : outcome (Result (list PackageInfoType)) :=
  match resp with
  | None | Some [] => failed
  | Some resp =>
      status ← at_ resp 0;
      if negb (status =? cWireOk) then Ok (inl status)
      else
        '(count, off) ← extractU32 resp 1;
        clusters ← extractClusters resp off (Z.to_nat count);
        Ok (inr clusters)
  end.

(** [src-gen/package_management/package_management_proxy.cpp:200-236] GetSwClusterInfo *)
Definition GetSwClusterInfo : list poll → Call (list PackageInfoType) :=
  call cMethodGetSwClusterInfo [] GetSwClusterInfo_result.

(** [src-gen/package_management/package_management_proxy.cpp:244-260] GetCurrentStatus: the
    result, any byte cast to the state *)
Definition GetCurrentStatus_result (resp : option bytes) : outcome (Result Z) :=
  match resp with
  | None => failed
  | Some resp =>
      if size resp <? 2 then failed
      else
        status ← at_ resp 0;
        if negb (status =? cWireOk) then Ok (inl status)
        else state ← at_ resp 1; Ok (inr state)
  end.

(** [src-gen/package_management/package_management_proxy.cpp:238-261] GetCurrentStatus *)
Definition GetCurrentStatus : list poll → Call Z :=
  call cMethodGetCurrentStatus [] GetCurrentStatus_result.

End PackageManagementProxy.

(** ** Lemmas: payloads *)

(** The bytes of a number, most significant first, and back. *)
Fixpoint be_split (n : nat) (z : Z) : bytes :=
  match n with O => [] | S n => u8 (z ≫ (8 * Z.of_nat n)) :: be_split n z end.
Definition be_combine (bs : bytes) : Z := foldl (fun a b => a * 256 + b) 0 bs.
Fixpoint downto (n : nat) : list Z :=
  match n with O => [] | S n => Z.of_nat n :: downto n end.

Lemma combine_split_acc n z a :
  0 <= z → foldl (fun a b => a * 256 + b) a (be_split n z) = a * 2 ^ (8 * Z.of_nat n) + z mod 2 ^ (8 * Z.of_nat n).
Proof.
  intros Hz. revert a. induction n as [|n IH]; intros a; [cbn; rewrite Z.mod_1_r; lia|].
  cbn [be_split foldl]. rewrite IH. unfold u8. rewrite Z.shiftr_div_pow2 by lia.
  replace (8 * Z.of_nat (S n)) with (8 * Z.of_nat n + 8) by lia.
  rewrite Z.pow_add_r by lia. change (2 ^ 8) with 256.
  rewrite (Z.rem_mul_r z (2 ^ (8 * Z.of_nat n)) 256) by lia. lia.
Qed.

Lemma be_combine_split n z : 0 <= z < 2 ^ (8 * Z.of_nat n) → be_combine (be_split n z) = z.
Proof. intros Hz. unfold be_combine. rewrite combine_split_acc by lia. rewrite Z.mod_small; lia. Qed.

Lemma length_be_split n z : length (be_split n z) = n.
Proof. induction n; cbn; congruence. Qed.

Lemma is_bytes_be_split n z : is_bytes (be_split n z).
Proof. induction n; [apply is_bytes_nil|apply is_bytes_cons; [apply u8_is|done]]. Qed.

Lemma combine_bound bs a n :
  is_bytes bs → 0 <= a → foldl (fun a b => a * 256 + b) a bs < 2 ^ n → 0 <= a * 256 ^ size bs < 2 ^ n.
Proof.
  revert a. induction bs as [|b bs IH]; intros a Hb Ha H; cbn [foldl] in H.
  - rewrite size_nil. change (256 ^ 0) with 1. lia.
  - apply Forall_cons in Hb as [[] Hb]. specialize (IH (a * 256 + b) Hb ltac:(lia) H).
    rewrite size_cons, Z.pow_add_r by (pose proof (size_nonneg bs); lia). change (256 ^ 1) with 256.
    assert (0 <= 256 ^ size bs) by (apply Z.pow_nonneg; lia). nia.
Qed.

(** One byte more: the accumulated number moves up and the byte fills the gap. *)
Lemma lor_byte a b k : 0 <= k → is_u8 b → Z.lor (a * 2 ^ (k + 8)) (b ≪ k) = (a * 256 + b) * 2 ^ k.
Proof.
  intros Hk Hb. rewrite <- Z.shiftl_mul_pow2 by lia. rewrite <- (Z.shiftl_mul_pow2 _ k) by lia.
  rewrite (Z.add_comm k), <- Z.shiftl_shiftl, <- Z.shiftl_lor by lia.
  by rewrite lor_shiftl_add.
Qed.

Lemma extract_loop v w bs a off :
  0 <= w → holds v off bs → is_bytes bs → 0 <= a → foldl (fun a b => a * 256 + b) a bs < 2 ^ w →
  foldl (extract_byte v w) (Ok (a * 2 ^ (8 * size bs), off)) (downto (length bs)) =
    Ok (foldl (fun a b => a * 256 + b) a bs, off + size bs).
Proof.
  intros Hw. revert a off. induction bs as [|b bs IH]; intros a off H Hb Ha Hlt.
  { cbn. rewrite size_nil. ok_eq. }
  apply holds_cons in H as [Hat H]. apply Forall_cons in Hb as [Hb0 Hb]. cbn [length downto foldl] in *.
  pose proof (combine_bound bs (a * 256 + b) w Hb ltac:(destruct Hb0; lia) Hlt) as [_ Hbound].
  unfold extract_byte at 2. rewrite (Ok_bind (_, off)), (at_holds _ _ _ Hat), Ok_bind.
  change (Z.of_nat (length bs)) with (size bs). pose proof (size_nonneg bs).
  rewrite size_cons. replace (8 * (1 + size bs)) with (size bs * 8 + 8) by lia.
  rewrite Z.mod_small, lor_byte by (try lia; try done;
    rewrite Z.shiftl_mul_pow2 by lia; replace (2 ^ (size bs * 8)) with (256 ^ size bs)
      by (rewrite (Z.mul_comm (size bs)), (Z.pow_mul_r 2) by lia; done); destruct Hb0; nia).
  replace (size bs * 8) with (8 * size bs) by lia.
  change (mret ?x) with (Ok x).
  rewrite IH; [ok_eq|done|done|destruct Hb0; lia|done].
Qed.

Definition long_bytes (val : Z) : bytes := be_split 8 val.

Lemma appendU16_app v val : is_u16 val → appendU16 v val = v ++ short_bytes val.
Proof.
  intros H. unfold appendU16, push_back. rewrite <- app_assoc. unfold short_bytes.
  change 255 with (Z.ones 8). rewrite Z.land_ones by lia. change (2 ^ 8) with 256. unfold u8. rewrite Zmod_mod. done.
Qed.

Lemma u8_land z : u8 (Z.land z 255) = u8 z.
Proof. change 255 with (Z.ones 8). rewrite Z.land_ones by lia. unfold u8. apply Zmod_mod. Qed.

Lemma appendU32_app v val : appendU32 v val = v ++ integer_bytes val.
Proof. unfold appendU32, push_back. rewrite !u8_land. by rewrite <- !app_assoc. Qed.

Lemma appendU64_app v val : appendU64 v val = v ++ long_bytes val.
Proof. unfold appendU64, push_back. cbn [foldl]. rewrite !u8_land. by rewrite <- !app_assoc. Qed.

Lemma extractU32_holds v off z :
  is_u32 z → holds v off (integer_bytes z) → extractU32 v off = Ok (z, off + 4).
Proof.
  intros Hz H. assert (Hb : be_combine (be_split 4 z) = z) by by apply be_combine_split.
  pose proof (extract_loop v 32 (be_split 4 z) 0 off ltac:(done)) as HL. fold (be_combine (be_split 4 z)) in HL.
  rewrite Hb in HL. apply HL; [|apply is_bytes_be_split|done|apply Hz].
  replace (be_split 4 z) with (integer_bytes z); [done|]. unfold integer_bytes. cbn. by rewrite Z.shiftr_0_r.
Qed.

Lemma extractU64_holds v off z :
  0 <= z < 18446744073709551616 → holds v off (long_bytes z) → extractU64 v off = Ok (z, off + 8).
Proof.
  intros Hz H. assert (Hb : be_combine (be_split 8 z) = z) by by apply be_combine_split.
  pose proof (extract_loop v 64 (be_split 8 z) 0 off ltac:(done)) as HL. fold (be_combine (be_split 8 z)) in HL.
  rewrite Hb in HL. apply HL; [done|apply is_bytes_be_split|done|apply Hz].
Qed.

(** A text whose length fits the two bytes in front of it. *)
Definition fits (s : string) : Prop := size (bytes_of_string s) < 65536.
Definition string_bytes (s : string) : bytes := short_bytes (size (bytes_of_string s)) ++ bytes_of_string s.

Lemma appendString_app v s : fits s → appendString v s = v ++ string_bytes s.
Proof.
  intros H. assert (is_u16 (size (bytes_of_string s))) by (split; [apply size_nonneg|done]).
  unfold appendString. rewrite u16_id, appendU16_app by done. by rewrite <- app_assoc.
Qed.

Lemma size_string_bytes s : size (string_bytes s) = 2 + size (bytes_of_string s).
Proof. apply size_app. Qed.

Lemma is_bytes_string_bytes s : is_bytes (string_bytes s).
Proof. apply is_bytes_app; [apply is_bytes_short|apply is_bytes_of_string]. Qed.

Lemma extractString_holds v off s :
  fits s → holds v off (string_bytes s) → extractString v off = Ok (s, off + size (string_bytes s)).
Proof.
  intros Hs H. assert (Hn : is_u16 (size (bytes_of_string s))) by (split; [apply size_nonneg|done]).
  apply holds_app in H as [Hl Hb]. rewrite size_short_bytes in Hb.
  apply holds_cons in Hl as [H0 H1]. unfold extractString.
  rewrite (at_holds _ _ _ H0), Ok_bind, (at_holds _ _ _ H1), Ok_bind.
  rewrite short_assembly by apply u8_is. rewrite short_bytes_value by done.
  rewrite (range_holds _ _ _ _ Hb eq_refl), Ok_bind, string_of_bytes_of_string, size_string_bytes. ok_eq.
Qed.

Lemma appendBytes_app v block :
  size block < 4294967296 → appendBytes v block = v ++ integer_bytes (size block) ++ block.
Proof.
  intros H. unfold appendBytes. rewrite u32_id by (split; [apply size_nonneg|done]).
  rewrite appendU32_app. by rewrite <- app_assoc.
Qed.

Lemma extractBytes_holds v off block :
  size block < 4294967296 → holds v off (integer_bytes (size block) ++ block) →
  extractBytes v off = Ok (block, off + 4 + size block).
Proof.
  intros Hs H. apply holds_app in H as [Hl Hb]. rewrite size_integer_bytes in Hb. unfold extractBytes.
  rewrite (extractU32_holds v off (size block)) by (done || (split; [apply size_nonneg|done])).
  rewrite (Ok_bind (_, _)), (range_holds _ _ _ _ Hb eq_refl), Ok_bind. ok_eq.
Qed.

Lemma extractBytes_over v off len :
  is_u32 len → holds v off (integer_bytes len) → size v < off + 4 + len → extractBytes v off = Undefined.
Proof.
  intros Hl H Hsz. unfold extractBytes. rewrite (extractU32_holds _ _ _ Hl H), (Ok_bind (_, _)). unfold range_.
  replace (off + 4 + len <=? size v) with false by lia. by rewrite andb_false_r.
Qed.

(** The length field of a text at [off], when it is there. *)
Definition length_field (v : bytes) (off : Z) : Z :=
  match v !! Z.to_nat off, v !! Z.to_nat (off + 1) with Some b0, Some b1 => b0 * 256 + b1 | _, _ => 0 end.

(** What the extraction of a text makes of any bytes: an exception when the length is
    not there, undefined behaviour when it exceeds what is left. *)
Lemma extractString_cases v off :
  is_bytes v → 0 <= off →
  (size v < off + 2 → extractString v off = Throw std_out_of_range) ∧
  (off + 2 <= size v → off + 2 + length_field v off <= size v → is_ok (extractString v off)) ∧
  (off + 2 <= size v → size v < off + 2 + length_field v off → extractString v off = Undefined).
Proof.
  intros Hb Hoff. unfold extractString. split; [|apply and_comm; split]; intros H.
  { destruct (decide (off < size v)).
    - destruct (at_total v off) as (b0 & -> & _); [done|]. by rewrite Ok_bind, at_out by lia.
    - by rewrite (at_out v off) by lia. }
  all: destruct (at_total v off) as (b0 & E0 & H0); [lia|]; destruct (at_total v (off + 1)) as (b1 & E1 & H1); [lia|].
  all: rewrite E0, Ok_bind, E1, Ok_bind, short_assembly by (by eapply at_is_u8).
  all: unfold length_field; rewrite (lookup_holds _ _ _ H0), (lookup_holds _ _ _ H1).
  all: pose proof (at_is_u8 _ _ _ Hb E0) as []; pose proof (at_is_u8 _ _ _ Hb E1) as [].
  all: intros Hl; unfold range_.
  - by replace (off + 2 + (b0 * 256 + b1) <=? size v) with false by lia; rewrite andb_false_r.
  - rewrite !(proj2 (Z.leb_le _ _)) by lia. done.
Qed.

(** ** Lemmas: a call, its request and its answer *)

(** The polls of a call that is answered: nothing for some rounds, then the answer before
    the deadline; what happens later does not matter. *)
Definition answered_polls (n : nat) (response : bytes) (later : list PackageManagementProxy.poll) :
    list PackageManagementProxy.poll :=
  replicate n ([], false) ++ ([response], false) :: later.

Lemma wait_answered cl n response later m s :
  SomeIpRpcMessage.wf m → response = SomeIpRpcMessage.Payload m →
  RpcClient.mHandlers cl !! SomeIpMessage.mMessageId (SomeIpRpcMessage.header m) = Some PackageManagementProxy.handler →
  PackageManagementProxy.mResponseReady s = false →
  PackageManagementProxy.wait cl (answered_polls n response later) s =
    (Ok (Some (SomeIpRpcMessage.mRpcPayload m)), PackageManagementProxy.mk [] true).
Proof.
  intros Hwf -> Hh. revert s. induction n as [|n IH]; intros s Hs.
  - cbn [answered_polls replicate app PackageManagementProxy.wait]. run. rewrite Hs.
    cbn [PackageManagementProxy.deliver foldl]. run.
    rewrite (InvokeHandler_registered _ m _ _ Hwf Hh). cbn. by destruct later.
  - cbn [answered_polls replicate app PackageManagementProxy.wait]. run. rewrite Hs.
    cbn [PackageManagementProxy.deliver foldl]. run. by apply IH.
Qed.

(** Both ends of the connection speak the same versions and know the method. *)
Record connected {W} (srv : RpcServer.t W) (cl : RpcClient.t PackageManagementProxy.State) : Prop := {
  client_ok : rpc_client_ok cl;
  same_protocol : RpcServer.mProtocolVersion srv = RpcClient.mProtocolVersion cl;
  same_interface : RpcServer.mInterfaceVersion srv = RpcClient.mInterfaceVersion cl;
  service_known : cServiceId ∈ RpcServer.mServices srv;
  client_handlers : ∀ mid, 1 <= mid <= 7 →
    RpcClient.mHandlers cl !! message_id cServiceId mid = Some PackageManagementProxy.handler
}.

Lemma message_id_service mid :
  1 <= mid <= 7 → is_u32 (message_id cServiceId mid) ∧ u16 (message_id cServiceId mid ≫ 16) = cServiceId.
Proof.
  intros H. assert (Hm : mid = 1 ∨ mid = 2 ∨ mid = 3 ∨ mid = 4 ∨ mid = 5 ∨ mid = 6 ∨ mid = 7) by lia.
  clear H. repeat destruct Hm as [->|Hm]; [by_eval..|subst; by_eval].
Qed.

(** A call that is answered, with the messages that travel. *)
Lemma call_answered_message {W A} (srv : RpcServer.t W) cl s mid p (h : RpcServer.HandlerType W) w pdu w'
    (decode : option bytes → outcome (PackageManagementProxy.Result A)) r :
  connected srv cl → 1 <= mid <= 7 →
  RpcServer.mHandlers srv !! message_id cServiceId mid = Some h →
  is_bytes p → 8 + size p < 4294967296 → is_bytes pdu → 8 + size pdu < 4294967296 →
  h p w = (Ok (true, pdu), w') → decode (Some pdu) = Ok r →
  let request := SomeIpRpcMessage.Payload (sent_request cl cServiceId mid cClientId p) in
  SomeIpRpcMessage.wf (sent_request cl cServiceId mid cClientId p) ∧
  ∃ m cl',
    let response := SomeIpRpcMessage.Payload m in
    SomeIpRpcMessage.wf m ∧
    RpcServer.TryInvokeHandler srv request w = (Ok (Some response), w') ∧
    connected srv cl' ∧
    ∀ n later, PackageManagementProxy.call mid p decode (answered_polls n response later) (cl, s) =
      (Ok (request, r), (cl', PackageManagementProxy.mk [] true)).
Proof.
  intros [Hcl Hpv Hiv Hin Hch] Hmid Hh Hp Hsz Hpdu Hsz' Hrun Hdec.
  destruct (message_id_service mid Hmid) as [Hid Hsid].
  pose proof (request_answered srv cl cServiceId mid cClientId p h w true pdu w' Hcl Hid ltac:(done) Hp Hsz Hsid
    Hpv Hiv Hin Hh Hrun) as Hans.
  set (m := reply _ _ _ _) in Hans.
  assert (Hwf : SomeIpRpcMessage.wf m).
  { destruct Hcl as (Hc1 & Hc2 & Hc3). apply reply_ok; try done; by rewrite ?Hpv, ?Hiv. }
  destruct (Send_sent cServiceId mid cClientId p cl) as (cl' & HS & Hhs & Hpv' & Hiv').
  cbv zeta. split; [by apply sent_request_wf|]. exists m, cl'. split; [exact Hwf|]. split; [exact Hans|]. split.
  { split; try done; try congruence; [|by rewrite Hhs].
    pose proof (Send_ok cServiceId mid cClientId p cl Hcl) as Hok. by rewrite HS in Hok. }
  intros n later. unfold PackageManagementProxy.call, PackageManagementProxy.sendAndWait. run. rewrite HS.
  rewrite (wait_answered cl' n _ later m _ Hwf eq_refl) by (try done; rewrite Hhs; by apply Hch).
  run. change (SomeIpRpcMessage.mRpcPayload m) with pdu. cbn. by rewrite Hdec.
Qed.

Lemma call_answered {W A} (srv : RpcServer.t W) cl s mid p (h : RpcServer.HandlerType W) w pdu w'
    (decode : option bytes → outcome (PackageManagementProxy.Result A)) r :
  connected srv cl → 1 <= mid <= 7 →
  RpcServer.mHandlers srv !! message_id cServiceId mid = Some h →
  is_bytes p → 8 + size p < 4294967296 → is_bytes pdu → 8 + size pdu < 4294967296 →
  h p w = (Ok (true, pdu), w') → decode (Some pdu) = Ok r →
  let request := SomeIpRpcMessage.Payload (sent_request cl cServiceId mid cClientId p) in
  ∃ response cl',
    RpcServer.TryInvokeHandler srv request w = (Ok (Some response), w') ∧
    connected srv cl' ∧
    ∀ n later, PackageManagementProxy.call mid p decode (answered_polls n response later) (cl, s) =
      (Ok (request, r), (cl', PackageManagementProxy.mk [] true)).
Proof.
  intros. destruct (call_answered_message srv cl s mid p h w pdu w' decode r) as (_ & m & cl' & _ & H'); try done. eauto.
Qed.

(** ** Lemmas: the list of clusters *)

Definition cluster_bytes (c : PackageInfoType) : bytes :=
  string_bytes (name c) ++ string_bytes (version c) ++ long_bytes (info_size c).
Definition cluster_fits (c : PackageInfoType) : Prop :=
  fits (name c) ∧ fits (version c) ∧ 0 <= info_size c < 18446744073709551616.

Lemma size_long_bytes z : size (long_bytes z) = 8.
Proof. done. Qed.

Lemma is_bytes_long z : is_bytes (long_bytes z).
Proof. apply is_bytes_be_split. Qed.

#[export] Hint Resolve is_bytes_of_string is_bytes_string_bytes is_bytes_long : word.
#[export] Hint Rewrite size_string_bytes size_long_bytes : size.

Lemma appendCluster_app v c : cluster_fits c → PackageManagementSkeleton.appendCluster v c = v ++ cluster_bytes c.
Proof.
  intros (Hn & Hv & Hs). unfold PackageManagementSkeleton.appendCluster.
  rewrite appendU64_app, !appendString_app by done. by rewrite <- !app_assoc.
Qed.

Lemma is_bytes_cluster c : is_bytes (cluster_bytes c).
Proof. apply is_bytes_app; [|apply is_bytes_app]; eauto with word. Qed.

Lemma appendClusters_app cs v :
  Forall cluster_fits cs → foldl PackageManagementSkeleton.appendCluster v cs = v ++ concat (map cluster_bytes cs).
Proof.
  intros H. revert v. induction H as [|c cs Hc _ IH]; intros v; [by rewrite app_nil_r|].
  cbn [foldl map concat]. rewrite IH, appendCluster_app by done. by rewrite <- app_assoc.
Qed.

Lemma is_bytes_clusters cs : is_bytes (concat (map cluster_bytes cs)).
Proof. induction cs; cbn [map concat]; [apply is_bytes_nil|apply is_bytes_app; [apply is_bytes_cluster|done]]. Qed.

Lemma length_clusters cs : Z.of_nat (length cs) <= size (concat (map cluster_bytes cs)).
Proof.
  induction cs as [|c cs IH]; [done|]. cbn [map concat length]. unfold cluster_bytes at 1.
  autorewrite with size. pose proof (size_nonneg (bytes_of_string (name c))).
  pose proof (size_nonneg (bytes_of_string (version c))). lia.
Qed.

Lemma extractClusters_holds v off cs :
  Forall cluster_fits cs → holds v off (concat (map cluster_bytes cs)) →
  PackageManagementProxy.extractClusters v off (length cs) = Ok cs.
Proof.
  intros H. revert off. induction H as [|c cs (Hn & Hv & Hs) _ IH]; intros off Hh; [done|].
  cbn [map concat length PackageManagementProxy.extractClusters] in *.
  apply holds_app in Hh as [Hc Hh]. unfold cluster_bytes at 1 in Hc.
  apply holds_app in Hc as [Hc1 Hc]. apply holds_app in Hc as [Hc2 Hc3].
  rewrite (extractString_holds _ _ _ Hn Hc1), (Ok_bind (_, _)).
  rewrite (extractString_holds _ _ _ Hv Hc2), (Ok_bind (_, _)).
  rewrite (extractU64_holds _ _ _ Hs Hc3), (Ok_bind (_, _)).
  rewrite IH, Ok_bind; [by destruct c|]. unfold cluster_bytes in Hh. rewrite !size_app, size_long_bytes in Hh.
  by rewrite <- !Z.add_assoc.
Qed.

(** ** A remote call is the call itself *)

(** The calls of the proxy and what they give. *)
Inductive remote :=
  | RStart (info : PackageInfoType)
  | RData (id : Z) (block : bytes) (blockCounter : Z)
  | RExit (id : Z)
  | RProcess (id : Z)
  | RActivate (installRoot manifestPath : string)
  | RInfo
  | RStatus.

Inductive value := VVoid | VId (id : Z) | VClusters (clusters : list PackageInfoType) | VState (state : Z).

Definition with_value {E A} (f : A → value) (r : E + A) : E + value :=
  match r with inl e => inl e | inr a => inr (f a) end.

Definition tagged {A} (f : A → value) (c : PackageManagementProxy.Call A) : PackageManagementProxy.Call value :=
  '(sent, r) ← c; mret (sent, with_value f r).

(** The call through the proxy. *)
Definition invoke (c : remote) (polls : list PackageManagementProxy.poll) : PackageManagementProxy.Call value :=
  match c with
  | RStart info => tagged VId (PackageManagementProxy.TransferStart info polls)
  | RData id block n => tagged (fun _ => VVoid) (PackageManagementProxy.TransferData id block n polls)
  | RExit id => tagged (fun _ => VVoid) (PackageManagementProxy.TransferExit id polls)
  | RProcess id => tagged (fun _ => VVoid) (PackageManagementProxy.ProcessSwPackage id polls)
  | RActivate root path => tagged (fun _ => VVoid) (PackageManagementProxy.Activate root path polls)
  | RInfo => tagged VClusters (PackageManagementProxy.GetSwClusterInfo polls)
  | RStatus => tagged VState (PackageManagementProxy.GetCurrentStatus polls)
  end.

Section Direct.
Context `{Text : !JsonText} `{Pugi : !Xml}.
Variable system : string → Fs → Z * Fs.
Variable is_directory : string → bool.
Variable exit_faults : Faults.
Variable metadata_opens : bool.
Variable activation_faults : ActivationFaults.

(** The error's number, as a caller in another process sees it. *)
Definition coded {A} (f : A → value) (r : PackageManager.Result A) : Z + value :=
  match r with inl e => inl (UcmErrc_code e) | inr a => inr (f a) end.

(** The same call on the package manager itself. *)
Definition direct (c : remote) (p : PackageManager.t) (fs : Fs) : outcome (Z + value) * (PackageManager.t * Fs) :=
  match c with
  | RStart info => let '(r, p) := PackageManager.TransferStart info p in (Ok (coded VId r), (p, fs))
  | RData id block n => let '(r, p) := PackageManager.TransferData id block n p in (Ok (coded (fun _ => VVoid) r), (p, fs))
  | RExit id =>
      let '(r, w) := PackageManager.TransferExit is_directory exit_faults id p fs in (Ok (coded (fun _ => VVoid) r), w)
  | RProcess id =>
      let '(r, w) := PackageManager.ProcessSwPackage system metadata_opens id p fs in
      (r ← r; Ok (coded (fun _ => VVoid) r), w)
  | RActivate root path =>
      let '(r, w) := PackageManager.Activate activation_faults root path p fs in (Ok (coded (fun _ => VVoid) r), w)
  | RInfo => (Ok (coded VClusters (PackageManager.GetSwClusterInfo p)), (p, fs))
  | RStatus => (Ok (inr (VState (UpdateStateType_code (PackageManager.GetCurrentState p)))), (p, fs))
  end.

(** The arguments and results are in the range of their types and of the length fields. *)
Definition remote_fits (c : remote) (p : PackageManager.t) : Prop :=
  match c with
  | RStart info => cluster_fits info ∧ is_u32 (PackageManager.mNextId p)
  | RData id block n => is_u32 id ∧ is_u32 n ∧ is_bytes block ∧ 20 + size block < 4294967296
  | RExit id | RProcess id => is_u32 id
  | RActivate root path => fits root ∧ fits path
  | RInfo => ∀ cs, PackageManager.GetSwClusterInfo p = inr cs →
      Forall cluster_fits cs ∧ 13 + size (concat (map cluster_bytes cs)) < 4294967296
  | RStatus => True
  end.

End Direct.

Lemma tagged_answered {W A} (f : A → value) (srv : RpcServer.t W) cl s mid p (h : RpcServer.HandlerType W) w pdu w'
    (decode : option bytes → outcome (PackageManagementProxy.Result A)) r :
  connected srv cl → 1 <= mid <= 7 →
  RpcServer.mHandlers srv !! message_id cServiceId mid = Some h →
  is_bytes p → 8 + size p < 4294967296 → is_bytes pdu → 8 + size pdu < 4294967296 →
  h p w = (Ok (true, pdu), w') → decode (Some pdu) = Ok r →
  ∃ request response cl',
    RpcServer.TryInvokeHandler srv request w = (Ok (Some response), w') ∧
    connected srv cl' ∧
    ∀ n later, tagged f (PackageManagementProxy.call mid p decode (answered_polls n response later)) (cl, s) =
      (Ok (request, with_value f r), (cl', PackageManagementProxy.mk [] true)).
Proof.
  intros. destruct (call_answered srv cl s mid p h w pdu w' decode r) as (resp & cl' & Ht & Hc & Ha); try done.
  eexists _, resp, cl'. split; [done|]. split; [done|]. intros n later. unfold tagged. run. by rewrite Ha.
Qed.

Lemma UcmErrc_code_is e : is_u8 (UcmErrc_code e) ∧ UcmErrc_code e ≠ cWireOk.
Proof. destruct e; split; by_eval. Qed.

Lemma status_pdu {A} (r : PackageManager.Result A) :
  is_bytes [PackageManagementSkeleton.status r].
Proof. apply is_bytes_cons; [|apply is_bytes_nil]. destruct r; [apply UcmErrc_code_is|by split]. Qed.

Lemma voidResult_status (r : PackageManager.Result ()) :
  ∃ d, PackageManagementProxy.voidResult (Some [PackageManagementSkeleton.status r]) = Ok d ∧
    with_value (fun _ => VVoid) d = coded (fun _ => VVoid) r.
Proof. by destruct r as [[]|]; eexists. Qed.

(** A method without a value, answered with the status alone. *)
Lemma void_answered {W} (srv : RpcServer.t W) cl s mid p (h : RpcServer.HandlerType W) w (res : PackageManager.Result ()) w' :
  connected srv cl → 1 <= mid <= 7 →
  RpcServer.mHandlers srv !! message_id cServiceId mid = Some h →
  is_bytes p ∧ 8 + size p < 4294967296 →
  h p w = (Ok (true, [PackageManagementSkeleton.status res]), w') →
  ∃ request response cl',
    RpcServer.TryInvokeHandler srv request w = (Ok (Some response), w') ∧
    connected srv cl' ∧
    ∀ n later, tagged (fun _ => VVoid)
        (PackageManagementProxy.call mid p PackageManagementProxy.voidResult (answered_polls n response later)) (cl, s) =
      (Ok (request, coded (fun _ => VVoid) res), (cl', PackageManagementProxy.mk [] true)).
Proof.
  intros Hcon Hmid Hh [Hb Hs] Hrun. destruct (voidResult_status res) as (d & Hdec & <-).
  exact (tagged_answered _ srv cl s mid p h w _ w' _ d Hcon Hmid Hh Hb Hs (status_pdu res) eq_refl Hrun Hdec).
Qed.

Section Remote.
Context `{Text : !JsonText} `{Pugi : !Xml}.
Variable system : string → Fs → Z * Fs.
Variable is_directory : string → bool.
Variable exit_faults : Faults.
Variable metadata_opens : bool.
Variable activation_faults : ActivationFaults.

(** What each handler makes of the request that the proxy sends. *)
Lemma handleTransferStart_sent info p fs :
  cluster_fits info →
  PackageManagementSkeleton.handleTransferStart
      (appendU64 (appendString (appendString [] (name info)) (version info)) (info_size info)) (p, fs) =
    (Ok (true, match fst (PackageManager.TransferStart info p) with
               | inr id => cWireOk :: integer_bytes id
               | inl e => [UcmErrc_code e]
               end), (snd (PackageManager.TransferStart info p), fs)).
Proof.
  intros (Hn & Hv & Hs). rewrite appendU64_app, !appendString_app by done.
  set (v := (([] ++ _) ++ _) ++ _).
  assert (H : holds v 0 (string_bytes (name info) ++ string_bytes (version info) ++ long_bytes (info_size info))).
  { subst v. rewrite <- !app_assoc. apply holds_self. }
  apply holds_app in H as [H1 H]. apply holds_app in H as [H2 H3].
  unfold PackageManagementSkeleton.handleTransferStart, PackageManagementSkeleton.catch_all. run.
  rewrite (extractString_holds _ _ _ Hn H1). cbn beta iota. rewrite (extractString_holds _ _ _ Hv H2). cbn beta iota.
  rewrite (extractU64_holds _ _ _ Hs H3). cbn beta iota.
  replace (mkInfo (name info) (version info) (info_size info)) with info by by destruct info.
  destruct (PackageManager.TransferStart info p) as [[e|id] p']; cbn beta iota; [done|]. by rewrite appendU32_app.
Qed.

Lemma handleTransferData_sent id block n p fs :
  is_u32 id → is_u32 n → size block < 4294967296 →
  PackageManagementSkeleton.handleTransferData (appendU32 (appendBytes (appendU32 [] id) block) n) (p, fs) =
    (Ok (true, [PackageManagementSkeleton.status (fst (PackageManager.TransferData id block n p))]),
     (snd (PackageManager.TransferData id block n p), fs)).
Proof.
  intros Hid Hn Hb. rewrite appendU32_app, appendBytes_app, appendU32_app by done.
  set (v := (([] ++ _) ++ _) ++ _).
  assert (H : holds v 0 (integer_bytes id ++ (integer_bytes (size block) ++ block) ++ integer_bytes n)).
  { subst v. rewrite <- !app_assoc. apply holds_self. }
  apply holds_app in H as [H1 H]. apply holds_app in H as [H2 H3].
  rewrite !size_app, !size_integer_bytes in *.
  unfold PackageManagementSkeleton.handleTransferData, PackageManagementSkeleton.catch_all. run.
  rewrite (extractU32_holds _ _ _ Hid H1). cbn beta iota. rewrite (extractBytes_holds _ _ _ Hb H2). cbn beta iota.
  rewrite Z.add_assoc in H3. rewrite (extractU32_holds _ _ _ Hn H3). cbn beta iota.
  by destruct (PackageManager.TransferData id block n p).
Qed.

Lemma handleTransferExit_sent id p fs :
  is_u32 id →
  PackageManagementSkeleton.handleTransferExit is_directory exit_faults (appendU32 [] id) (p, fs) =
    (Ok (true, [PackageManagementSkeleton.status (fst (PackageManager.TransferExit is_directory exit_faults id p fs))]),
     snd (PackageManager.TransferExit is_directory exit_faults id p fs)).
Proof.
  intros Hid. rewrite appendU32_app. unfold PackageManagementSkeleton.handleTransferExit, PackageManagementSkeleton.catch_all. run.
  rewrite (extractU32_holds _ 0 id Hid) by apply holds_self. cbn beta iota.
  by destruct (PackageManager.TransferExit is_directory exit_faults id p fs).
Qed.

Lemma handleProcessSwPackage_sent id p fs r w :
  is_u32 id → PackageManager.ProcessSwPackage system metadata_opens id p fs = (Ok r, w) →
  PackageManagementSkeleton.handleProcessSwPackage system metadata_opens (appendU32 [] id) (p, fs) =
    (Ok (true, [PackageManagementSkeleton.status r]), w).
Proof.
  intros Hid Hr. rewrite appendU32_app.
  unfold PackageManagementSkeleton.handleProcessSwPackage, PackageManagementSkeleton.catch_all. run.
  rewrite (extractU32_holds _ 0 id Hid) by apply holds_self. cbn beta iota.
  unfold PackageManagementSkeleton.process. by rewrite Hr.
Qed.

Lemma handleActivate_sent root path p fs :
  fits root → fits path →
  PackageManagementSkeleton.handleActivate activation_faults (appendString (appendString [] root) path) (p, fs) =
    (Ok (true, [PackageManagementSkeleton.status (fst (PackageManager.Activate activation_faults root path p fs))]),
     snd (PackageManager.Activate activation_faults root path p fs)).
Proof.
  intros Hr Hp. rewrite !appendString_app by done.
  assert (H : holds (([] ++ string_bytes root) ++ string_bytes path) 0 (string_bytes root ++ string_bytes path))
    by apply holds_self.
  apply holds_app in H as [H1 H2].
  unfold PackageManagementSkeleton.handleActivate, PackageManagementSkeleton.catch_all. run.
  rewrite (extractString_holds _ _ _ Hr H1). cbn beta iota. rewrite (extractString_holds _ _ _ Hp H2). cbn beta iota.
  by destruct (PackageManager.Activate activation_faults root path p fs).
Qed.

Lemma GetSwClusterInfo_answer cs :
  Forall cluster_fits cs → 13 + size (concat (map cluster_bytes cs)) < 4294967296 →
  let pdu := foldl PackageManagementSkeleton.appendCluster
    (appendU32 (appendU8 [] cWireOk) (u32 (Z.of_nat (length cs)))) cs in
  PackageManagementProxy.GetSwClusterInfo_result (Some pdu) = Ok (inr cs) ∧ is_bytes pdu ∧ 8 + size pdu < 4294967296.
Proof.
  intros Hf Hsz pdu. pose proof (length_clusters cs) as Hlen.
  assert (Hpdu : pdu = cWireOk :: integer_bytes (Z.of_nat (length cs)) ++ concat (map cluster_bytes cs)).
  { unfold pdu. rewrite u32_id by (split; lia). by rewrite appendClusters_app, appendU32_app by done. }
  clearbody pdu. subst pdu. split; [|split; [|autorewrite with size; lia]].
  2: { apply is_bytes_cons; [by split|]. apply is_bytes_app; [apply is_bytes_integer|apply is_bytes_clusters]. }
  pose proof (holds_self (cWireOk :: integer_bytes (Z.of_nat (length cs)) ++ concat (map cluster_bytes cs))) as H.
  apply holds_cons in H as [_ H]. apply holds_app in H as [H1 H2]. rewrite size_integer_bytes in H2.
  change (0 + 1) with 1 in *. set (v := _ :: _ ++ _) in *.
  change (PackageManagementProxy.GetSwClusterInfo_result (Some v)) with
    ('(count, off) ← extractU32 v 1; clusters ← PackageManagementProxy.extractClusters v off (Z.to_nat count);
     Ok (inr clusters : PackageManagementProxy.Result (list PackageInfoType))).
  rewrite (extractU32_holds v 1 (Z.of_nat (length cs))) by (done || (split; lia)).
  rewrite (Ok_bind (_, _)), Nat2Z.id. by rewrite (extractClusters_holds v _ cs Hf H2).
Qed.

(** The server side, for any versions. *)
Definition server (pv iv : Z) : RpcServer.t PackageManagementSkeleton.World :=
  PackageManagementSkeleton.registerHandlers system is_directory exit_faults metadata_opens activation_faults
    (RpcServer.construct pv iv).

End Remote.

Lemma TransferStart_id info p id p' : is_u32 (PackageManager.mNextId p) → PackageManager.TransferStart info p = (inr id, p') → is_u32 id.
Proof. unfold PackageManager.TransferStart. case_match; intros; by simplify_eq. Qed.

Lemma TransferStart_answer id :
  is_u32 id → PackageManagementProxy.TransferStart_result (Some (cWireOk :: integer_bytes id)) = Ok (inr id).
Proof.
  intros Hid. assert (H : holds (cWireOk :: integer_bytes id) 1 (integer_bytes id)).
  { exists [cWireOk], []. by rewrite app_nil_r. }
  unfold PackageManagementProxy.TransferStart_result.
  change (at_ (cWireOk :: integer_bytes id) 0) with (Ok cWireOk). rewrite Ok_bind.
  by rewrite (extractU32_holds _ _ _ Hid H).
Qed.

Lemma error_result e :
  PackageManagementProxy.TransferStart_result (Some [UcmErrc_code e]) = Ok (inl (UcmErrc_code e)).
Proof. by destruct e. Qed.

(** The requests are vectors of bytes whose size fits the header's length field. *)
Lemma start_request_ok info :
  cluster_fits info →
  let req := appendU64 (appendString (appendString [] (name info)) (version info)) (info_size info) in
  is_bytes req ∧ 8 + size req < 4294967296.
Proof.
  intros (Hn & Hv & _). cbv zeta. rewrite appendU64_app, !appendString_app by done. unfold fits in *. split.
  - rewrite app_nil_l. repeat apply is_bytes_app; eauto with word.
  - autorewrite with size. lia.
Qed.

Lemma data_request_ok id block n :
  is_bytes block → 20 + size block < 4294967296 →
  let req := appendU32 (appendBytes (appendU32 [] id) block) n in is_bytes req ∧ 8 + size req < 4294967296.
Proof.
  intros Hb Hs. cbv zeta. rewrite appendU32_app, appendBytes_app, appendU32_app by lia. split.
  - rewrite app_nil_l. repeat apply is_bytes_app; eauto with word.
  - autorewrite with size. lia.
Qed.

Lemma id_request_ok id : let req := appendU32 [] id in is_bytes req ∧ 8 + size req < 4294967296.
Proof. cbv zeta. rewrite appendU32_app. split; [apply is_bytes_integer|done]. Qed.

Lemma activate_request_ok root path :
  fits root → fits path →
  let req := appendString (appendString [] root) path in is_bytes req ∧ 8 + size req < 4294967296.
Proof.
  intros Hr Hp. cbv zeta. rewrite !appendString_app by done. unfold fits in *. split.
  - rewrite app_nil_l. repeat apply is_bytes_app; eauto with word.
  - autorewrite with size. lia.
Qed.

(** C11: a remote call is the call itself: for every method of the package manager, when the
    texts fit their length fields, the request that the proxy sends makes the skeleton's
    server do exactly what the call does to the package manager and the files, and the
    answer, arriving in any round of the waiting loop, gives the proxy the call's own result,
    the error's number or the value; the connection is ready for the next call. *)
Theorem remote_call_is_call `{Text : !JsonText} `{Pugi : !Xml} (system : string → Fs → Z * Fs)
    (is_directory : string → bool) exit_faults metadata_opens activation_faults pv iv cl s c p fs r w' :
  let srv := server system is_directory exit_faults metadata_opens activation_faults pv iv in
  connected srv cl → remote_fits c p →
  direct system is_directory exit_faults metadata_opens activation_faults c p fs = (Ok r, w') →
  ∃ request response cl',
    RpcServer.TryInvokeHandler srv request (p, fs) = (Ok (Some response), w') ∧
    connected srv cl' ∧
    ∀ n later, invoke c (answered_polls n response later) (cl, s) =
      (Ok (request, r), (cl', PackageManagementProxy.mk [] true)).
Proof.
  intros srv Hcon Hfit Hd. destruct c as [info|id block n|id|id|root path| |]; cbn [remote_fits] in Hfit; cbn [direct] in Hd.
  - destruct Hfit as [Hinfo Hid], (start_request_ok info Hinfo) as [Hb Hs].
    pose proof (handleTransferStart_sent info p fs Hinfo) as Hrun. pose proof (TransferStart_id info p) as Hi.
    destruct (PackageManager.TransferStart info p) as [[e|id] p']; injection Hd as <- <-; cbn [fst snd] in Hrun.
    + exact (tagged_answered VId srv cl s 1 _ _ _ _ _ _ _ Hcon ltac:(done) eq_refl Hb Hs
        (status_pdu (A:=()) (inl e)) eq_refl Hrun (error_result e)).
    + assert (is_u32 id) by by eapply Hi.
      refine (tagged_answered VId srv cl s 1 _ _ _ _ _ _ _ Hcon ltac:(done) eq_refl Hb Hs
        _ _ Hrun (TransferStart_answer id _)); [|done..].
      apply is_bytes_cons; [by split|apply is_bytes_integer].
  - destruct Hfit as (Hid & Hn & Hblock & Hsz).
    pose proof (handleTransferData_sent id block n p fs Hid Hn ltac:(lia)) as Hrun.
    destruct (PackageManager.TransferData id block n p) as [res p']. injection Hd as <- <-.
    exact (void_answered srv cl s 2 _ _ _ _ _ Hcon ltac:(done) eq_refl (data_request_ok id block n Hblock Hsz) Hrun).
  - pose proof (handleTransferExit_sent is_directory exit_faults id p fs Hfit) as Hrun.
    destruct (PackageManager.TransferExit is_directory exit_faults id p fs) as [res w]. injection Hd as <- <-.
    exact (void_answered srv cl s 3 _ _ _ _ _ Hcon ltac:(done) eq_refl (id_request_ok id) Hrun).
  - destruct (PackageManager.ProcessSwPackage system metadata_opens id p fs) as [[res| | |] w] eqn:E; try done.
    injection Hd as <- <-.
    exact (void_answered srv cl s 4 _ _ _ _ _ Hcon ltac:(done) eq_refl (id_request_ok id)
      (handleProcessSwPackage_sent system metadata_opens id p fs _ _ Hfit E)).
  - destruct Hfit as [Hr Hp].
    pose proof (handleActivate_sent activation_faults root path p fs Hr Hp) as Hrun.
    destruct (PackageManager.Activate activation_faults root path p fs) as [res w]. injection Hd as <- <-.
    exact (void_answered srv cl s 5 _ _ _ _ _ Hcon ltac:(done) eq_refl (activate_request_ok root path Hr Hp) Hrun).
  - injection Hd as <- <-.
    assert (∃ cs, PackageManager.GetSwClusterInfo p = inr cs) as [cs Hcs]
      by (unfold PackageManager.GetSwClusterInfo; case_match; eauto).
    destruct (Hfit cs Hcs) as [Hf Hs], (GetSwClusterInfo_answer cs Hf Hs) as (Hdec & Hb & Hsz). rewrite Hcs.
    refine (tagged_answered VClusters srv cl s 6 [] PackageManagementSkeleton.handleGetSwClusterInfo _ _ _ _ _
      Hcon ltac:(done) eq_refl is_bytes_nil eq_refl Hb Hsz _ Hdec).
    unfold PackageManagementSkeleton.handleGetSwClusterInfo. run. by rewrite Hcs.
  - injection Hd as <- <-.
    apply (tagged_answered VState srv cl s 7 [] PackageManagementSkeleton.handleGetCurrentStatus (p, fs)
      [cWireOk; UpdateStateType_code (PackageManager.GetCurrentState p)] (p, fs) PackageManagementProxy.GetCurrentStatus_result
      (inr (UpdateStateType_code (PackageManager.GetCurrentState p))) Hcon); try done; [apply is_bytes_nil|].
    by destruct (PackageManager.GetCurrentState p); repeat constructor.
Qed.

(** A request whose length fields exceed it is read out of bounds: the first text of a
    transfer's start or of an activation, and the block of a transfer's data, are read behind
    the end of the request whenever the length in front of them is larger than what is left;
    only a request too short for the length field itself is answered with an error. *)
Theorem short_request_is_over_read `{Text : !JsonText} `{Pugi : !Xml} activation_faults request w :
  is_bytes request →
  (size request < 2 →
     PackageManagementSkeleton.handleTransferStart request w = (Ok (true, [UcmErrc_code kPackageMalformed]), w) ∧
     PackageManagementSkeleton.handleActivate activation_faults request w =
       (Ok (true, [UcmErrc_code kActivationFailed]), w)) ∧
  (2 <= size request < 2 + length_field request 0 →
     PackageManagementSkeleton.handleTransferStart request w = (Undefined, w) ∧
     PackageManagementSkeleton.handleActivate activation_faults request w = (Undefined, w)) ∧
  (∀ id len, is_u32 id → is_u32 len → holds request 0 (integer_bytes id ++ integer_bytes len) →
     size request < 8 + len → PackageManagementSkeleton.handleTransferData request w = (Undefined, w)).
Proof.
  intros Hb. destruct (extractString_cases request 0 Hb ltac:(lia)) as (Hshort & _ & Hover). split; [|split].
  - intros H. unfold PackageManagementSkeleton.handleTransferStart, PackageManagementSkeleton.handleActivate,
      PackageManagementSkeleton.catch_all. run. by rewrite Hshort by lia.
  - intros [H H']. unfold PackageManagementSkeleton.handleTransferStart, PackageManagementSkeleton.handleActivate,
      PackageManagementSkeleton.catch_all. run. by rewrite Hover by lia.
  - intros id len Hid Hlen H Hsz. apply holds_app in H as [H1 H2]. rewrite size_integer_bytes in H2.
    unfold PackageManagementSkeleton.handleTransferData, PackageManagementSkeleton.catch_all. run.
    rewrite (extractU32_holds _ _ _ Hid H1). cbn beta iota. by rewrite (extractBytes_over _ _ _ Hlen H2) by lia.
Qed.

(** The polls of a call that nobody answers in time. *)
Definition timed_out_polls (n : nat) : list PackageManagementProxy.poll := replicate n ([], false) ++ [([], true)].

Lemma wait_timed_out cl n s :
  PackageManagementProxy.mResponseReady s = false →
  PackageManagementProxy.wait cl (timed_out_polls n) s = (Ok None, s).
Proof.
  intros Hs. induction n as [|n IH]; cbn [timed_out_polls replicate app PackageManagementProxy.wait]; run; rewrite Hs;
    cbn [PackageManagementProxy.deliver foldl]; run; [done|exact IH].
Qed.

(** A late answer answers the next call: when the start of a transfer times out at the
    proxy although the package manager has started it, the proxy reports a failed activation,
    and if the answer arrives while the proxy waits for the current status, it gives the
    transfer's identifier's first byte, for the first sixteen million transfers kIdle, as the
    status of a package manager that is transferring. *)
Theorem late_answer_answers_the_next_call `{Text : !JsonText} `{Pugi : !Xml} (system : string → Fs → Z * Fs)
    (is_directory : string → bool) exit_faults metadata_opens activation_faults pv iv cl s info p fs :
  let srv := server system is_directory exit_faults metadata_opens activation_faults pv iv in
  connected srv cl → cluster_fits info → PackageManager.mState p = kIdle →
  PackageManager.mNextId p < 16777216 → 0 <= PackageManager.mNextId p →
  ∃ request response p' cl1 s1,
    RpcServer.TryInvokeHandler srv request (p, fs) = (Ok (Some response), (p', fs)) ∧
    PackageManager.mState p' = kTransferring ∧
    (∀ n, invoke (RStart info) (timed_out_polls n) (cl, s) =
       (Ok (request, inl (UcmErrc_code kActivationFailed)), (cl1, s1))) ∧
    (∀ n later, ∃ request' cl2, invoke RStatus (answered_polls n response later) (cl1, s1) =
       (Ok (request', inr (VState (UpdateStateType_code kIdle))), cl2)).
Proof.
  intros srv Hcon Hinfo Hidle Hlt H0. destruct (start_request_ok info Hinfo) as [Hb Hs].
  assert (Hid : is_u32 (PackageManager.mNextId p)) by (split; lia).
  pose proof (handleTransferStart_sent info p fs Hinfo) as Hrun.
  assert (Hstart : fst (PackageManager.TransferStart info p) = inr (PackageManager.mNextId p) ∧
    PackageManager.mState (snd (PackageManager.TransferStart info p)) = kTransferring).
  { unfold PackageManager.TransferStart. by rewrite Hidle. }
  destruct Hstart as [Hfst Hst]. rewrite Hfst in Hrun. set (p' := snd (PackageManager.TransferStart info p)) in *.
  set (req := appendU64 _ _) in *. destruct Hcon as [Hcl Hpv Hiv Hin Hch].
  pose proof (request_answered srv cl cServiceId 1 cClientId req _ _ true _ _ Hcl ltac:(done) ltac:(done) Hb Hs eq_refl
    Hpv Hiv Hin eq_refl Hrun) as Hans. set (m := reply _ _ _ _) in Hans.
  assert (Hwf : SomeIpRpcMessage.wf m).
  { destruct Hcl as (Hc1 & Hc2 & Hc3). apply reply_ok; try done; [by rewrite Hpv|by rewrite Hiv|].
    apply is_bytes_cons; [by split|apply is_bytes_integer]. }
  destruct (Send_sent cServiceId cMethodTransferStart cClientId req cl) as (cl1 & HS & Hhs & _).
  eexists _, _, p', cl1, (PackageManagementProxy.mk [] false). split; [exact Hans|]. split; [exact Hst|]. split.
  - intros n. unfold invoke, tagged, PackageManagementProxy.TransferStart, PackageManagementProxy.call,
      PackageManagementProxy.sendAndWait. run. fold req. rewrite HS. by rewrite wait_timed_out.
  - intros n later. destruct (Send_sent cServiceId cMethodGetCurrentStatus cClientId [] cl1) as (cl2 & HS2 & Hhs2 & _).
    eexists _, _. unfold invoke, tagged, PackageManagementProxy.GetCurrentStatus, PackageManagementProxy.call,
      PackageManagementProxy.sendAndWait. run. rewrite HS2.
    rewrite (wait_answered cl2 n _ later m _ Hwf eq_refl) by (try done; rewrite Hhs2, Hhs; by apply Hch). run.
    change (SomeIpRpcMessage.mRpcPayload m) with (cWireOk :: integer_bytes (PackageManager.mNextId p)).
    unfold integer_bytes. rewrite Z.shiftr_div_pow2 by lia. rewrite (Z.div_small _ (2 ^ 24)) by (split; [done|exact Hlt]).
    reflexivity.
Qed.

(** A lost client leaves a package manager that the next one can use, unless it has
    activated: the empty read that ends a connection keeps the bytes received so far; unless
    a package has just been activated, the next client's transfer starts with a fresh
    identifier, beside the transfers that a failed processing left pending, and beside none
    when the connection broke in the middle; after an activation its start is refused. *)
Theorem next_client_starts (srv : RpcServer.t PackageManagementSkeleton.World) (buffer : bytes) queue p fs info :
  ∃ p1,
    SocketRpcServer.onReceive srv (Some PackageManagementSkeleton.disconnected) []
        (buffer, SocketRpcServer.mkState queue (p, fs)) = (Ok (), (buffer, SocketRpcServer.mkState queue (p1, fs))) ∧
    (PackageManager.mState p = kActivated → p1 = p ∧ PackageManager.TransferStart info p1 = (inl kOperationInProgress, p)) ∧
    (PackageManager.mState p ≠ kActivated →
       fst (PackageManager.TransferStart info p1) = inr (PackageManager.mNextId p) ∧
       PackageManager.mPendingTransfers (snd (PackageManager.TransferStart info p1)) =
         <[PackageManager.mNextId p := info]>
           (if bool_decide (PackageManager.mState p = kIdle) then PackageManager.mPendingTransfers p else ∅)).
Proof.
  unfold SocketRpcServer.onReceive, PackageManagementSkeleton.disconnected, PackageManager.GetCurrentState.
  cbn [SocketRpcServer.world SocketRpcServer.mSendingQueue]. rewrite (proj2 (Z.leb_le (size []) 0)) by done.
  destruct (PackageManager.mState p) eqn:E; eexists; cbn; (split; [reflexivity|]); (split; intros; try done);
    unfold PackageManager.TransferStart; cbn; rewrite ?E; done.
Qed.

(** ** Witnesses *)

Definition demo_client : RpcClient.t PackageManagementProxy.State :=
  PackageManagementProxy.registerHandlers (RpcClient.construct 1 1).

Definition demo_server : RpcServer.t PackageManagementSkeleton.World :=
  @server demo_text demo_xml demo_system (fun _ => false) no_faults true no_activation_faults 1 1.

Lemma demo_connected : connected demo_server demo_client.
Proof.
  split; try done.
  intros mid H. assert (Hm : mid = 1 ∨ mid = 2 ∨ mid = 3 ∨ mid = 4 ∨ mid = 5 ∨ mid = 6 ∨ mid = 7) by lia.
  clear H. repeat destruct Hm as [->|Hm]; [done..|by subst].
Qed.

Definition demo_info : PackageInfoType := mkInfo "maps" "2.0" 4.

Lemma demo_info_fits : cluster_fits demo_info.
Proof. by split_and!. Qed.

Lemma remote_call_is_call_witness :
  ∃ request response cl', RpcServer.TryInvokeHandler demo_server request (demo_manager, demo_files) =
      (Ok (Some response), (snd (PackageManager.TransferStart demo_info demo_manager), demo_files)) ∧
    ∀ n later, invoke (RStart demo_info) (answered_polls n response later) (demo_client, PackageManagementProxy.mk [] false) =
      (Ok (request, inr (VId 1)), (cl', PackageManagementProxy.mk [] true)).
Proof.
  destruct (@remote_call_is_call demo_text demo_xml demo_system (fun _ => false) no_faults true no_activation_faults 1 1
    demo_client (PackageManagementProxy.mk [] false) (RStart demo_info) demo_manager demo_files
    (inr (VId 1)) (snd (PackageManager.TransferStart demo_info demo_manager), demo_files) demo_connected)
    as (req & resp & cl' & H1 & _ & H2).
  - split; [exact demo_info_fits|by split].
  - reflexivity.
  - exists req, resp, cl'. split; [exact H1|exact H2].
Defined.

Lemma short_request_is_over_read_witness :
  PackageManagementSkeleton.handleTransferStart [0; 9; 97] (demo_manager, demo_files) = (Undefined, (demo_manager, demo_files)).
Proof.
  assert (Hb : is_bytes [0; 9; 97]) by by_eval.
  destruct (@short_request_is_over_read demo_text demo_xml no_activation_faults [0; 9; 97] (demo_manager, demo_files) Hb)
    as (_ & H & _).
  apply H. by split.
Defined.

Lemma late_answer_answers_the_next_call_witness :
  ∃ request response p' cl1 s1,
    RpcServer.TryInvokeHandler demo_server request (demo_manager, demo_files) = (Ok (Some response), (p', demo_files)) ∧
    PackageManager.mState p' = kTransferring ∧
    invoke (RStart demo_info) (timed_out_polls 2) (demo_client, PackageManagementProxy.mk [] false) =
       (Ok (request, inl (UcmErrc_code kActivationFailed)), (cl1, s1)).
Proof.
  destruct (@late_answer_answers_the_next_call demo_text demo_xml demo_system (fun _ => false) no_faults true
    no_activation_faults 1 1 demo_client (PackageManagementProxy.mk [] false) demo_info demo_manager demo_files
    demo_connected demo_info_fits eq_refl eq_refl ltac:(done)) as (req & resp & p' & cl1 & s1 & H1 & H2 & H3 & _).
  exists req, resp, p', cl1, s1. split; [exact H1|]. split; [exact H2|apply H3].
Defined.
