(* ===== verification/Errors.v ===== *)
(** * Error domains, error codes and instance specifiers: ara/core, and the domains of ara

    An error code is a number with a reference to its domain, which knows its messages and the
    exception for it.  The platform's four domains (ara/exec, ara/per, ara/ucm, ara/diag) live as
    long as the program: two constants, and singletons that are created on demand.  The theorem:
    codes are told apart by domain and number, messages within a domain too, and a code is back
    from the exception that was thrown for it. *)

From stdpp Require Import list strings.
From S2P Require Import Prelude Storage Ucm PackageService.
#[local] Open Scope Z_scope.

(** An enumeration of errors: its members, their numbers and messages. *)
Class Errc (E : Type) := {
  members : list E;
  code : E → Z;
  text : E → string
}.

(** The message of a number, where [none] is that of all others. *)
Definition message_of {E} `{Errc E} (none : string) (errorCode : Z) : string :=
  match find (fun e => code e =? errorCode) members with Some e => text e | None => none end.

Module ExecErrors.

(** [ara/exec/exec_error_domain.h:12-27] ExecErrc *)
Inductive ExecErrc :=
  | kGeneralError | kInvalidArguments | kCommunicationError | kMetaModelError | kCancelled | kFailed
  | kFailedUnexpectedTerminationOnExit | kFailedUnexpectedTerminationOnEnter | kInvalidTransition
  | kAlreadyInState | kInTransitionToSameState | kNoTimeStamp | kCycleOverrun.

(** [ara/exec/exec_error_domain.cpp:18-55] Message *)
#[global] Instance ExecErrc_errc : Errc ExecErrc := {|
  members := [kGeneralError; kInvalidArguments; kCommunicationError; kMetaModelError; kCancelled; kFailed;
    kFailedUnexpectedTerminationOnExit; kFailedUnexpectedTerminationOnEnter; kInvalidTransition; kAlreadyInState;
    kInTransitionToSameState; kNoTimeStamp; kCycleOverrun];
  code e :=
    match e with
    | kGeneralError => 1 | kInvalidArguments => 2 | kCommunicationError => 3 | kMetaModelError => 4
    | kCancelled => 5 | kFailed => 6 | kFailedUnexpectedTerminationOnExit => 7
    | kFailedUnexpectedTerminationOnEnter => 8 | kInvalidTransition => 9 | kAlreadyInState => 10
    | kInTransitionToSameState => 11 | kNoTimeStamp => 12 | kCycleOverrun => 13
    end;
  text e :=
    match e with
    | kGeneralError => "Unspecified error occurrence"
    | kInvalidArguments => "Invalid argument while setting the state"
    | kCommunicationError => "SOME/IP or FIFO communication error occurrence"
    | kMetaModelError => "Invalid ARXML meta-model"
    | kCancelled => "Cancelling of the on-going state transition due to a new state trainsition request"
    | kFailed => "Impossible operation to be performed"
    | kFailedUnexpectedTerminationOnExit => "Previous function group termination while state transition"
    | kFailedUnexpectedTerminationOnEnter => "Target function group termination while state transition"
    | kInvalidTransition => "Invalid state transition request"
    | kAlreadyInState => "Invalid state transition due to request the current state"
    | kInTransitionToSameState => "Transition failing due to equality to the on-going state transition"
    | kNoTimeStamp => "Unavailable deterministic timestamp information"
    | kCycleOverrun => "Exceeding theoritical cycle time"
    end%string
|}.

End ExecErrors.

Module DiagErrors.

(** [ara/diag/diag_error_domain.h:13-30] DiagErrc *)
Inductive DiagErrc :=
  | kAlreadyOffered | kConfigurationMismatch | kDebouncingConfigurationInconsistent | kReportIgnored
  | kInvalidArgument | kNotOffered | kGenericError | kNoSuchDTC | kBusy | kFailed | kMemoryError | kWrongDtc
  | kRejected | kResetTypeNotSupported | kRequestFailed.

(** [ara/diag/diag_error_domain.cpp:16-55] Message *)
#[global] Instance DiagErrc_errc : Errc DiagErrc := {|
  members := [kAlreadyOffered; kConfigurationMismatch; kDebouncingConfigurationInconsistent; kReportIgnored;
    kInvalidArgument; kNotOffered; kGenericError; kNoSuchDTC; kBusy; kFailed; kMemoryError; kWrongDtc; kRejected;
    kResetTypeNotSupported; kRequestFailed];
  code e :=
    match e with
    | kAlreadyOffered => 101 | kConfigurationMismatch => 102 | kDebouncingConfigurationInconsistent => 103
    | kReportIgnored => 104 | kInvalidArgument => 105 | kNotOffered => 106 | kGenericError => 107
    | kNoSuchDTC => 108 | kBusy => 109 | kFailed => 110 | kMemoryError => 111 | kWrongDtc => 112
    | kRejected => 113 | kResetTypeNotSupported => 114 | kRequestFailed => 115
    end;
  text e :=
    match e with
    | kAlreadyOffered => "Already offered service"
    | kConfigurationMismatch => "Configuration misalignment with DEXT"
    | kDebouncingConfigurationInconsistent => "Invalid monitor debouncing configuration"
    | kReportIgnored => "Disabled control DTC setting"
    | kInvalidArgument => "Invalid passed argument from caller"
    | kNotOffered => "Request from a not offered service"
    | kGenericError => "General error occurrance"
    | kNoSuchDTC => "Invalid DTC number"
    | kBusy => "Busy interface call"
    | kFailed => "Failed process"
    | kMemoryError => "Memory error occurrance"
    | kWrongDtc => "Incorrect passed DTC number"
    | kRejected => "Request rejection"
    | kResetTypeNotSupported => "Unsupported reset type by the Diagnostic Address instance"
    | kRequestFailed => "Failed diagnostic request process"
    end%string
|}.

End DiagErrors.

(** [ara/per/per_error_domain.cpp:16-44] Message *)
#[export] Instance PerErrc_errc : Errc PerErrc := {|
  members := [kStorageNotFound; kKeyNotFound; kIllegalWriteAccess; kPhysicalStorageFailure; kIntegrityCorrupted;
    kOutOfStorageSpace; kInitValueNotAvailable; kResourceBusy; kFileNotFound];
  code e :=
    match e with
    | kStorageNotFound => 1 | kKeyNotFound => 2 | kIllegalWriteAccess => 3 | kPhysicalStorageFailure => 4
    | kIntegrityCorrupted => 5 | kOutOfStorageSpace => 6 | kInitValueNotAvailable => 7 | kResourceBusy => 8
    | kFileNotFound => 9
    end;
  text e :=
    match e with
    | kStorageNotFound => "Storage database not found"
    | kKeyNotFound => "Key does not exist in storage"
    | kIllegalWriteAccess => "Write access not permitted"
    | kPhysicalStorageFailure => "I/O error on backing file"
    | kIntegrityCorrupted => "Storage file is corrupt or unparseable"
    | kOutOfStorageSpace => "No space left on device"
    | kInitValueNotAvailable => "No default/init value configured"
    | kResourceBusy => "Resource is locked or in use"
    | kFileNotFound => "Named file does not exist in storage"
    end%string
|}.

(** [ara/ucm/ucm_error_domain.cpp:16-40] Message *)
#[export] Instance UcmErrc_errc : Errc UcmErrc := {|
  members := [kInvalidTransferId; kTransferNotComplete; kPackageMalformed; kActivationFailed; kRollbackFailed;
    kInsufficientSpace; kOperationInProgress];
  code := UcmErrc_code;
  text e :=
    match e with
    | kInvalidTransferId => "Transfer ID is unknown or already finalised"
    | kTransferNotComplete => "TransferExit called before all data received"
    | kPackageMalformed => "SW Package cannot be parsed or extracted"
    | kActivationFailed => "Activation step failed (binary copy or manifest)"
    | kRollbackFailed => "Rollback could not restore previous state"
    | kInsufficientSpace => "Not enough disk space for the SW Package"
    | kOperationInProgress => "UCM is already processing another transfer"
    end%string
|}.

(** ** Domains and codes *)

(** The domains; each class has one object, but for the two constants of ExecErrorDomain
    (ara/exec/state_client.h and execution_client.h), which are equal. *)
Inductive ErrorDomain := Exec | Per | Ucm | Diag.

#[export] Instance ErrorDomain_eq_dec : EqDecision ErrorDomain.
Proof. solve_decision. Defined.

(** [ara/core/error_domain.h:48-51] Id, a number of 64 bits, of ara/exec, ara/per, ara/ucm, ara/diag *)
Definition Id (d : ErrorDomain) : Z :=
  match d with
  | Exec => 0x8000000000000202
  | Per => 0x8000000000000601
  | Ucm => 0x8000000000000701
  | Diag => 0x8000000000000401
  end.

(** [ara/exec/exec_error_domain.cpp:13-16] Name, and that of the other domains *)
Definition Name (d : ErrorDomain) : string :=
  match d with Exec => "Execution Management error domain" | Per => "Per" | Ucm => "Ucm" | Diag => "Diag" end.

(** The virtual Message. *)
Definition none_of (d : ErrorDomain) : string :=
  match d with Exec => "Unsupported error code" | _ => "Not supported" end.
Definition Message (d : ErrorDomain) (errorCode : Z) : string :=
  match d with
  | Exec => message_of (E := ExecErrors.ExecErrc) (none_of d) errorCode
  | Per => message_of (E := PerErrc) (none_of d) errorCode
  | Ucm => message_of (E := UcmErrc) (none_of d) errorCode
  | Diag => message_of (E := DiagErrors.DiagErrc) (none_of d) errorCode
  end.

(** [ara/core/error_domain.h:36-44] operator==, operator!= *)
Definition domain_equal (d d' : ErrorDomain) : bool := Id d =? Id d'.

(** [ara/core/error_code.h:12-43] ErrorCode *)
Record ErrorCode := mkErrorCode { Value : Z; Domain : ErrorDomain }.

(** [ara/core/error_code.h:52-55] operator== *)
Definition equal (a b : ErrorCode) : bool := domain_equal (Domain a) (Domain b) && (Value a =? Value b).

(** [ara/core/error_code.h:57-60] operator!= *)
Definition not_equal (a b : ErrorCode) : bool := negb (domain_equal (Domain a) (Domain b)) || negb (Value a =? Value b).

(** [ara/core/error_code.cpp:7-11] ErrorCode::Message *)
Definition ErrorCode_Message (a : ErrorCode) : string := Message (Domain a) (Value a).

(** What is thrown: a runtime_error with its text, or an ExecException with its code. *)
Inductive thrown := runtime_error (what : string) | ExecException (mErrorCode : ErrorCode).

(** [ara/per/per_error_domain.cpp:56-60] ThrowAsException, and that of the other domains *)
Definition ThrowAsException (d : ErrorDomain) (errorCode : ErrorCode) : thrown :=
  match d with
  | Exec => ExecException errorCode
  | d => runtime_error (Message d (Value errorCode))
  end.

(** [ara/core/error_code.cpp:13-16] ErrorCode::ThrowAsException *)
Definition ErrorCode_ThrowAsException (a : ErrorCode) : thrown := ThrowAsException (Domain a) a.

(** [ara/exec/exec_exception.cpp:17-23] ExecException::MakeErrorCode *)
Definition ExecException_MakeErrorCode (mErrorCode : ErrorCode) (e : ExecErrors.ExecErrc) : ErrorCode :=
  mkErrorCode (code e) (Domain mErrorCode).

(** [ara/exec/exec_exception.cpp:25-28] ExecException::GetErrorCode *)
Definition GetErrorCode (t : thrown) : option ErrorCode :=
  match t with ExecException c => Some c | runtime_error _ => None end.

(** ** Singletons *)

(** Which of the pointers [mInstance] are set. *)
Definition Instances : Type := ErrorDomain → bool.

(** [ara/per/per_error_domain.cpp:46-54] GetPerDomain, GetUcmDomain, GetDiagDomain *)
Definition GetDomain (d : ErrorDomain) : M Instances ErrorDomain :=
  fun i => (Ok d, if i d then i else fun d' => bool_decide (d' = d) || i d').

(** [ara/per/per_error_domain.cpp:62-68] MakeErrorCode, and that of the other domains: a reference
    to where [mInstance] points *)
Definition MakeErrorCode {E} `{Errc E} (d : ErrorDomain) (e : E) : M Instances ErrorCode :=
  fun i => (if i d then Ok (mkErrorCode (code e) d) else Undefined, i).

(** [ara/per/per_error_domain.cpp:70-75] the free function, and ara/ucm's *)
Definition make_error_code {E} `{Errc E} (d : ErrorDomain) (e : E) : M Instances ErrorCode :=
  domain ← GetDomain d; MakeErrorCode domain e.

(** ** Instance specifiers *)
Module InstanceSpecifier.

(** [ara/core/instance_specifier.h:14-17] InstanceSpecifier; its copies are copies of the text *)
Record t := mk { mMetaModelIdentifier : string }.

(** [ara/core/instance_specifier.cpp:72-79] Create: a result that always holds a value *)
Definition Create (metaModelIdentifier : string) : () + t := inr (mk metaModelIdentifier).

(** [ara/core/instance_specifier.cpp:35-38] ToString *)
Definition ToString (s : t) : string := mMetaModelIdentifier s.

(** [ara/core/instance_specifier.h:38-56] operator==, operator!= *)
Definition equal (a b : t) : bool := bool_decide (mMetaModelIdentifier a = mMetaModelIdentifier b).

(** [ara/core/instance_specifier.h:58-66] operator<, operator> (the arguments swapped) *)
Definition less (a b : t) : bool := String.ltb (mMetaModelIdentifier a) (mMetaModelIdentifier b).

End InstanceSpecifier.

(** ** Lemmas *)

(** What the enumerations promise: every error is listed, with a number and a message of its own. *)
Class LawfulErrc (E : Type) `{Errc E} (none : string) := {
  members_all e : e ∈ members (E := E);
  codes_distinct : NoDup (map code (members (E := E)));
  texts_distinct : NoDup (none :: map text (members (E := E)))
}.

Ltac lawful := split; [intros []; repeat constructor|by apply (bool_decide_unpack _); vm_compute|by apply (bool_decide_unpack _); vm_compute].

#[export] Instance ExecErrc_lawful : LawfulErrc ExecErrors.ExecErrc "Unsupported error code".
Proof. lawful. Qed.
#[export] Instance PerErrc_lawful : LawfulErrc PerErrc "Not supported".
Proof. lawful. Qed.
#[export] Instance UcmErrc_lawful : LawfulErrc UcmErrc "Not supported".
Proof. lawful. Qed.
#[export] Instance DiagErrc_lawful : LawfulErrc DiagErrors.DiagErrc "Not supported".
Proof. lawful. Qed.

Section Messages.
Context {E : Type} `{Errc E} (none : string) `{!LawfulErrc E none}.

Lemma message_of_code e : message_of none (code e) = text e.
Proof.
  unfold message_of. pose proof codes_distinct as Hn. pose proof (members_all e) as He. revert Hn He.
  induction members as [|e' es IH]; [by intros _ ?%elem_of_nil|]. cbn [map find].
  intros [Hx Hn]%NoDup_cons [->|He]%elem_of_cons; [by rewrite Z.eqb_refl|].
  destruct (code e' =? code e) eqn:Eq; [|by apply IH]. apply Z.eqb_eq in Eq. destruct Hx. rewrite Eq. by apply list_elem_of_fmap_2.
Qed.

Lemma message_of_other v : (∀ e, code e ≠ v) → message_of none v = none.
Proof.
  intros Hv. unfold message_of. destruct (find _ members) as [e|] eqn:Ef; [|done].
  apply find_some in Ef as [_ Ef%Z.eqb_eq]. by destruct (Hv e).
Qed.

Lemma number_cases v : (∃ e, v = code e) ∨ v ∉ map code (members (E := E)).
Proof.
  destruct (decide (v ∈ map code (members (E := E)))) as [Hv|Hv]; [left|by right].
  apply list_elem_of_fmap in Hv as (e & -> & _). by exists e.
Qed.

Lemma text_inj e e' : text e = text e' → e = e'.
Proof.
  pose proof (members_all e) as He. pose proof (members_all e') as He'. revert He He'.
  pose proof (NoDup_cons_1_2 _ _ texts_distinct) as Hn. revert Hn.
  induction members as [|x es IH]; [by intros _ ?%elem_of_nil|]. cbn [map].
  intros [Hx Hn]%NoDup_cons [->|He]%elem_of_cons [->|He']%elem_of_cons Ht; try done.
  - destruct Hx. rewrite Ht. by apply list_elem_of_fmap_2.
  - destruct Hx. rewrite <- Ht. by apply list_elem_of_fmap_2.
  - by apply IH.
Qed.

Lemma text_none e : text e ≠ none.
Proof.
  intros He. apply (NoDup_cons_1_1 _ _ texts_distinct). rewrite <- He. apply list_elem_of_fmap_2, members_all.
Qed.

(** A message says which error it is, unless the number is none of the enumeration. *)
Lemma message_of_inj v w :
  message_of none v = message_of none w ↔
  v = w ∨ ((v ∉ map code (members (E := E))) ∧ (w ∉ map code (members (E := E)))).
Proof.
  assert (Hother : ∀ v, v ∉ map code (members (E := E)) → message_of none v = none).
  { intros u Hu. apply message_of_other. intros e <-. apply Hu, list_elem_of_fmap_2, members_all. }
  destruct (number_cases v) as [[e ->]|Hv], (number_cases w) as [[e' ->]|Hw];
    rewrite ?message_of_code, ?Hother by done.
  - split; [intros ->%text_inj; by left|]. intros [He|[He _]]; [|by destruct He; apply list_elem_of_fmap_2, members_all].
    by rewrite <- !message_of_code, He.
  - split; [by intros ?%text_none|]. intros [He|[He _]]; [rewrite <- He in Hw; destruct Hw|destruct He]; apply list_elem_of_fmap_2, members_all.
  - split; [by intros ?%eq_sym%text_none|]. intros [->|[_ He]]; [destruct Hv|destruct He]; apply list_elem_of_fmap_2, members_all.
  - split; [by right|done].
Qed.
End Messages.

(** The numbers of a domain. *)
Definition numbers (d : ErrorDomain) : list Z :=
  match d with
  | Exec => map code (members (E := ExecErrors.ExecErrc))
  | Per => map code (members (E := PerErrc))
  | Ucm => map code (members (E := UcmErrc))
  | Diag => map code (members (E := DiagErrors.DiagErrc))
  end.

(** ** Properties *)

(** Error codes are told apart by their domain and their number, and messages within a domain, of
    which all numbers that it does not know have the same.  What is thrown for a code carries the
    code, for execution management, or its message.  Codes can be made whatever singletons
    exist, except by a member of a singleton that does not. *)
Theorem errors_are_told_apart :
  (∀ a b, equal a b = true ↔ a = b) ∧
  (∀ a b, not_equal a b = negb (equal a b)) ∧
  (∀ d v w, Message d v = Message d w ↔ v = w ∨ ((v ∉ numbers d) ∧ (w ∉ numbers d))) ∧
  (∀ a, match ErrorCode_ThrowAsException a with
        | ExecException c => c = a ∧ Domain a = Exec
        | runtime_error what => what = ErrorCode_Message a ∧ Domain a ≠ Exec
        end) ∧
  (∀ E (errc : Errc E) d (e e' : E) i,
    let '(r, i') := make_error_code d e i in
    r = Ok (mkErrorCode (code e) d) ∧ fst (MakeErrorCode d e' i') = Ok (mkErrorCode (code e') d)) ∧
  (∀ E (errc : Errc E) d (e : E) (i : Instances), i d = false → fst (MakeErrorCode d e i) = Undefined).
Proof.
  assert (Hid : ∀ d d', domain_equal d d' = bool_decide (d = d')) by (intros [] []; done).
  split_and!.
  - intros [v d] [v' d']. unfold equal. cbn. rewrite Hid, andb_true_iff, bool_decide_eq_true, Z.eqb_eq. split; [by intros [-> ->]|by intros [= -> ->]].
  - intros [v d] [v' d']. unfold equal, not_equal. cbn. by rewrite negb_andb.
  - intros [] v w.
    + exact (message_of_inj (E := ExecErrors.ExecErrc) "Unsupported error code" v w).
    + exact (message_of_inj (E := PerErrc) "Not supported" v w).
    + exact (message_of_inj (E := UcmErrc) "Not supported" v w).
    + exact (message_of_inj (E := DiagErrors.DiagErrc) "Not supported" v w).
  - by intros [v []].
  - intros E errc d e e' i. unfold make_error_code, GetDomain, MakeErrorCode. run.
    destruct (i d) eqn:Hi; [by rewrite Hi|]. by rewrite bool_decide_true.
  - intros E errc d e i Hi. unfold MakeErrorCode. by rewrite Hi.
Qed.
