(* ===== verification/VehicleUpdate.v ===== *)
(** * The vehicle's update client: application/platform

    The application that streams a package to the update manager of another machine, chunk
    by chunk, and has it processed and activated.  It is written against an interface, the
    five operations of a package manager, which has two implementations here: the package
    manager itself, and the proxy, the connection and the skeleton in front of it.  The
    theorems: over the connection the application does what it does on the package manager
    itself; what its exit code says about the machine that was updated. *)

From S2P Require Import Prelude Texts Payload SomeIp Rpc Storage Ucm PackageService.
#[local] Open Scope Z_scope.

(** ** The interface that the application uses *)
Class PackageOperations (W : Type) := {
  op_TransferStart : PackageInfoType → M W (Z + Z);
  op_TransferData : Z → bytes → Z → M W (Z + ());
  op_TransferExit : Z → M W (Z + ());
  op_ProcessSwPackage : Z → M W (Z + ());
  op_Activate : string → string → M W (Z + ())
}.

(** ** The application *)
Module VehicleUpdateConfigManager.

(** [std::string::rfind] of a character. *)
Fixpoint rfind (c : Ascii.ascii) (s : string) : option nat :=
  match s with
  | EmptyString => None
  | String a s =>
      match rfind c s with
      | Some i => Some (S i)
      | None => if Ascii.eqb a c then Some 0%nat else None
      end
  end.

Definition ends_with (suffix s : string) : bool :=
  String.eqb (String.substring (String.length s - String.length suffix) (String.length suffix) s) suffix.

(** [application/platform/vehicle_update_config_manager.cpp:46-56] the loop that strips the
    first suffix of the list that fits *)
Fixpoint strip (suffixes : list string) (basename : string) : string :=
  match suffixes with
  | [] => basename
  | suffix :: suffixes =>
      if (String.length suffix <? String.length basename)%nat && ends_with suffix basename
      then String.substring 0 (String.length basename - String.length suffix) basename
      else strip suffixes basename
  end.

(** [application/platform/vehicle_update_config_manager.cpp:39-56] the package's name *)
Definition package_name (packagePath : string) : string :=
  let basename :=
    match rfind (Ascii.ascii_of_nat 47) packagePath with
    | Some slash => String.substring (S slash) (String.length packagePath - S slash) packagePath
    | None => packagePath
    end in
  strip [".swpkg.tar.gz"; ".tar.gz"; ".gz"]%string basename.

(** [application/platform/vehicle_update_config_manager.cpp:88-88] cChunkSize *)
Definition cChunkSize : Z := 65536.

Section Run.
Context {W : Type} `{Ops : !PackageOperations W}.

(** [application/platform/vehicle_update_config_manager.cpp:102-141] the loop over the file:
    what the calls of [read] give, [None] for an error; whether it ended well *)
Fixpoint stream (id : Z) (reads : list (option bytes)) (blockCounter : Z) : M W bool :=
  match reads with
  | [] => lift OutOfFuel
  | None :: _ => mret false
  | Some [] :: _ => mret true
  | Some chunk :: reads =>
      r ← op_TransferData id chunk blockCounter;
      match r with
      | inl _ => mret false
      | inr _ => stream id reads (u32 (blockCounter + 1))
      end
  end.

(** [application/platform/vehicle_update_config_manager.cpp:30-180] Run: [size] is what [stat]
    says of the file, [opens] whether it can be opened; the exit code *)
Definition Run (packagePath installRoot manifestPath : string) (size : option Z) (opens : bool)
    (reads : list (option bytes)) : M W Z :=
  match size with
  | None => mret 1
  | Some fileSize =>
      start ← op_TransferStart (mkInfo (package_name packagePath) "1.0.0" fileSize);
      match start with
      | inl _ => mret 1
      | inr id =>
          if negb opens then mret 1
          else
            ok ← stream id reads 1;
            if negb (ok : bool) then mret 1
            else
              exit ← op_TransferExit id;
              match exit with
              | inl _ => mret 1
              | inr _ =>
                  process ← op_ProcessSwPackage id;
                  match process with
                  | inl _ => mret 1
                  | inr _ =>
                      activate ← op_Activate installRoot manifestPath;
                      match activate with inl _ => mret 1 | inr _ => mret 0 end
                  end
              end
      end
  end.

End Run.
End VehicleUpdateConfigManager.

Example package_name_1 : VehicleUpdateConfigManager.package_name "/var/maps.swpkg.tar.gz" = "maps"%string.
Proof. reflexivity. Qed.

Example package_name_2 : VehicleUpdateConfigManager.package_name "a/b/.gz" = ".gz"%string.
Proof. reflexivity. Qed.

(** ** The implementations *)
Section Implementations.
Context `{Text : !JsonText} `{Pugi : !Xml}.
Variable system : string → Fs → Z * Fs.
Variable is_directory : string → bool.
Variable exit_faults : Faults.
Variable metadata_opens : bool.
Variable activation_faults : ActivationFaults.

Definition numbered {A} (r : PackageManager.Result A) : Z + A :=
  match r with inl e => inl (UcmErrc_code e) | inr a => inr a end.

(** The package manager itself. *)
#[local] Instance on_the_manager : PackageOperations PackageManagementSkeleton.World := {
  op_TransferStart info := fun '(p, fs) =>
    let '(r, p) := PackageManager.TransferStart info p in (Ok (numbered r), (p, fs));
  op_TransferData id block blockCounter := fun '(p, fs) =>
    let '(r, p) := PackageManager.TransferData id block blockCounter p in (Ok (numbered r), (p, fs));
  op_TransferExit id := fun '(p, fs) =>
    let '(r, w) := PackageManager.TransferExit is_directory exit_faults id p fs in (Ok (numbered r), w);
  op_ProcessSwPackage id := fun '(p, fs) =>
    let '(r, w) := PackageManager.ProcessSwPackage system metadata_opens id p fs in (r ← r; Ok (numbered r), w);
  op_Activate installRoot manifestPath := fun '(p, fs) =>
    let '(r, w) := PackageManager.Activate activation_faults installRoot manifestPath p fs in (Ok (numbered r), w)
}.

End Implementations.

(** What carries a call of the proxy to a server, and the answer back: the state [W] holds
    both ends. *)
Class Transport (W : Type) :=
  carry : ∀ {A}, (list PackageManagementProxy.poll → PackageManagementProxy.Call A) → M W (Z + A).

(** The proxy over a transport. *)
Definition over_the_proxy {W} (T : Transport W) : PackageOperations W := {|
  op_TransferStart info := carry (PackageManagementProxy.TransferStart info);
  op_TransferData id block blockCounter := carry (PackageManagementProxy.TransferData id block blockCounter);
  op_TransferExit id := carry (PackageManagementProxy.TransferExit id);
  op_ProcessSwPackage id := carry (PackageManagementProxy.ProcessSwPackage id);
  op_Activate installRoot manifestPath := carry (PackageManagementProxy.Activate installRoot manifestPath)
|}.

(** Both ends of the connection. *)
Definition Wire : Type := (RpcClient.t PackageManagementProxy.State * PackageManagementProxy.State) * PackageManagementSkeleton.World.

(** A call whose request reaches the server and whose answer comes back in the first round;
    a server that fails gives none. *)
Definition exchange (srv : RpcServer.t PackageManagementSkeleton.World) {A}
    (m : list PackageManagementProxy.poll → PackageManagementProxy.Call A) : M Wire (Z + A) :=
  fun '(c, w) =>
    match fst (m [([], true)] c) with
    | Ok (request, _) =>
        match RpcServer.TryInvokeHandler srv request w with
        | (Undefined, w) => (Undefined, (c, w))
        | (answer, w) =>
            let polls := match answer with Ok (Some response) => [([response], false)] | _ => [([], true)] end in
            let '(r, c) := m polls c in ('(_, r) ← r; Ok r, (c, w))
        end
    | Throw e => (Throw e, (c, w))
    | Undefined => (Undefined, (c, w))
    | OutOfFuel => (OutOfFuel, (c, w))
    end.

(** The proxy, the connection and the skeleton. *)
Definition over_the_wire (srv : RpcServer.t PackageManagementSkeleton.World) : PackageOperations Wire :=
  over_the_proxy (@exchange srv).

(** ** Lemmas: refinement of the interface *)

(** [R] relates the states of two implementations so that what the second does in range the
    first does too. *)
Class Refines {W1 W2} (Ops1 : PackageOperations W1) (Ops2 : PackageOperations W2) (R : W1 → W2 → Prop) := {
  ref_start info x y r y' : cluster_fits info → R x y → op_TransferStart info y = (Ok r, y') →
    (∀ id, r = inr id → is_u32 id) ∧ ∃ x', op_TransferStart info x = (Ok r, x') ∧ R x' y';
  ref_data id block n x y r y' : is_u32 id → is_u32 n → is_bytes block → size block <= 65536 → R x y →
    op_TransferData id block n y = (Ok r, y') → ∃ x', op_TransferData id block n x = (Ok r, x') ∧ R x' y';
  ref_exit id x y r y' : is_u32 id → R x y → op_TransferExit id y = (Ok r, y') →
    ∃ x', op_TransferExit id x = (Ok r, x') ∧ R x' y';
  ref_process id x y r y' : is_u32 id → R x y → op_ProcessSwPackage id y = (Ok r, y') →
    ∃ x', op_ProcessSwPackage id x = (Ok r, x') ∧ R x' y';
  ref_activate root path x y r y' : fits root → fits path → R x y → op_Activate root path y = (Ok r, y') →
    ∃ x', op_Activate root path x = (Ok r, x') ∧ R x' y'
}.

Section Run_refines.
Context {W1 W2} {Ops1 : PackageOperations W1} {Ops2 : PackageOperations W2} {R : W1 → W2 → Prop}.
Context {Ref : Refines Ops1 Ops2 R}.

(** What [read] can give: bytes, at most a chunk. *)
Definition read_ok (r : option bytes) : Prop :=
  match r with Some chunk => is_bytes chunk ∧ size chunk <= VehicleUpdateConfigManager.cChunkSize | None => True end.

Lemma stream_refines id reads n x y ok y' :
  is_u32 id → is_u32 n → Forall read_ok reads → R x y →
  VehicleUpdateConfigManager.stream id reads n y = (Ok ok, y') →
  ∃ x', VehicleUpdateConfigManager.stream id reads n x = (Ok ok, x') ∧ R x' y'.
Proof.
  intros Hid Hn Hreads. revert n x y Hn. induction Hreads as [|[[|b chunk]|] reads Hr _ IH]; intros n x y Hn HR Hrun.
  - discriminate.
  - injection Hrun as <- <-. by exists x.
  - destruct Hr as [Hb Hs]. cbn [VehicleUpdateConfigManager.stream] in *. revert Hrun. run.
    destruct (op_TransferData id (b :: chunk) n y) as [[r| | |] y1] eqn:E; try done.
    destruct (ref_data id _ n x y r y1 Hid Hn Hb Hs HR E) as (x1 & -> & HR1).
    destruct r; intros Hrun; [injection Hrun as <- <-; by exists x1|].
    by apply (IH _ x1 y1 (u32_is _)).
  - injection Hrun as <- <-. by exists x.
Qed.

Lemma Run_refines packagePath installRoot manifestPath size opens reads x y code y' :
  R x y → fits (VehicleUpdateConfigManager.package_name packagePath) → fits installRoot → fits manifestPath →
  (∀ n, size = Some n → 0 <= n < 18446744073709551616) → Forall read_ok reads →
  VehicleUpdateConfigManager.Run packagePath installRoot manifestPath size opens reads y = (Ok code, y') →
  ∃ x', VehicleUpdateConfigManager.Run packagePath installRoot manifestPath size opens reads x = (Ok code, x') ∧ R x' y'.
Proof.
  intros HR Hname Hroot Hpath Hsize Hreads Hrun. unfold VehicleUpdateConfigManager.Run in *.
  destruct size as [n|]; [|injection Hrun as <- <-; by exists x]. specialize (Hsize n eq_refl). revert Hrun. run.
  destruct (op_TransferStart _ y) as [[r| | |] y1] eqn:E1; try done.
  edestruct (ref_start (mkInfo (VehicleUpdateConfigManager.package_name packagePath) "1.0.0" n)) as (Hid & x1 & -> & HR1);
    [|exact HR|exact E1|]; [exact (conj Hname (conj eq_refl Hsize))|]. cbn beta iota.
  destruct r as [e|id]; [intros Hrun; injection Hrun as <- <-; by exists x1|]. specialize (Hid id eq_refl).
  destruct opens; cbn [negb]; [|intros Hrun; injection Hrun as <- <-; by exists x1].
  destruct (VehicleUpdateConfigManager.stream id reads 1 y1) as [[ok| | |] y2] eqn:E2; try done.
  destruct (stream_refines id reads 1 x1 y1 ok y2 Hid ltac:(done) Hreads HR1 E2) as (x2 & -> & HR2). cbn beta iota.
  destruct ok; cbn [negb]; [|intros Hrun; injection Hrun as <- <-; by exists x2].
  destruct (op_TransferExit id y2) as [[r| | |] y3] eqn:E3; try done.
  destruct (ref_exit id x2 y2 r y3 Hid HR2 E3) as (x3 & -> & HR3). cbn beta iota.
  destruct r; [intros Hrun; injection Hrun as <- <-; by exists x3|].
  destruct (op_ProcessSwPackage id y3) as [[r| | |] y4] eqn:E4; try done.
  destruct (ref_process id x3 y3 r y4 Hid HR3 E4) as (x4 & -> & HR4). cbn beta iota.
  destruct r; [intros Hrun; injection Hrun as <- <-; by exists x4|].
  destruct (op_Activate _ _ y4) as [[r| | |] y5] eqn:E5; try done.
  destruct (ref_activate _ _ x4 y4 r y5 Hroot Hpath HR4 E5) as (x5 & -> & HR5). cbn beta iota.
  destruct r; intros Hrun; injection Hrun as <- <-; by exists x5.
Qed.

End Run_refines.

(** ** Lemmas: the connection refines the manager *)

Lemma call_timed_out {A} mid p (decode : option bytes → outcome (PackageManagementProxy.Result A)) r0 cl s :
  decode None = Ok r0 →
  ∃ cl', PackageManagementProxy.call mid p decode [([], true)] (cl, s) =
    (Ok (SomeIpRpcMessage.Payload (sent_request cl cServiceId mid cClientId p), r0), (cl', PackageManagementProxy.mk [] false)).
Proof.
  intros Hd. destruct (Send_sent cServiceId mid cClientId p cl) as (cl' & HS & _). exists cl'.
  unfold PackageManagementProxy.call, PackageManagementProxy.sendAndWait. run. rewrite HS.
  change [([], true)] with (timed_out_polls 0). rewrite wait_timed_out by done. rewrite Ok_bind. cbn beta iota. by rewrite Hd.
Qed.

Lemma exchange_answered {A} (srv : RpcServer.t PackageManagementSkeleton.World) cl s mid p
    (h : RpcServer.HandlerType PackageManagementSkeleton.World) w pdu w'
    (decode : option bytes → outcome (PackageManagementProxy.Result A)) r0 r :
  connected srv cl → 1 <= mid <= 7 →
  RpcServer.mHandlers srv !! message_id cServiceId mid = Some h →
  is_bytes p ∧ 8 + size p < 4294967296 → is_bytes pdu → 8 + size pdu < 4294967296 →
  h p w = (Ok (true, pdu), w') → decode None = Ok r0 → decode (Some pdu) = Ok r →
  ∃ c', exchange srv (PackageManagementProxy.call mid p decode) ((cl, s), w) = (Ok r, (c', w')) ∧ connected srv (fst c').
Proof.
  intros Hcon Hmid Hh [Hb Hs] Hpdu Hs' Hrun Hd0 Hd.
  destruct (call_answered srv cl s mid p h w pdu w' decode r Hcon Hmid Hh Hb Hs Hpdu Hs' Hrun Hd)
    as (response & cl' & Ht & Hcon' & Ha).
  destruct (call_timed_out mid p decode r0 cl s Hd0) as (cl2 & Hto).
  exists (cl', PackageManagementProxy.mk [] true). split; [|done]. unfold exchange. rewrite Hto. cbn [fst].
  rewrite Ht. change [([response], false)] with (answered_polls 0 response []). by rewrite Ha.
Qed.

(** What a transport promises: a call that a handler of the server answers gives its answer,
    and the transport stays [up] with the server in the state that the handler left. *)
Class Carries {W} (T : Transport W) (srv : RpcServer.t PackageManagementSkeleton.World)
    (up : W → PackageManagementSkeleton.World → Prop) :=
  carries_answered : ∀ {A} mid p (h : RpcServer.HandlerType PackageManagementSkeleton.World) pdu x w w'
      (decode : option bytes → outcome (PackageManagementProxy.Result A)) r0 r,
    up x w → 1 <= mid <= 7 →
    RpcServer.mHandlers srv !! message_id cServiceId mid = Some h →
    is_bytes p ∧ 8 + size p < 4294967296 → is_bytes pdu → 8 + size pdu < 4294967296 →
    h p w = (Ok (true, pdu), w') → decode None = Ok r0 → decode (Some pdu) = Ok r →
    ∃ x', carry (PackageManagementProxy.call mid p decode) x = (Ok r, x') ∧ up x' w'.

#[export] Instance wire_carries srv : Carries (@exchange srv) srv (fun x w => connected srv (fst (fst x)) ∧ snd x = w).
Proof.
  intros A mid p h pdu [[cl s] w0] w w' decode r0 r [Hcon [= ->]] Hmid Hh Hp Hpdu Hs' Hrun Hd0 Hd.
  destruct (exchange_answered srv cl s mid p h w pdu w' decode r0 r Hcon Hmid Hh Hp Hpdu Hs' Hrun Hd0 Hd) as (c' & Hx & Hc').
  eexists. split; [exact Hx|]. by split.
Qed.

Lemma failed_void r : ∃ r0, PackageManagementProxy.voidResult None = Ok r0 ∧
  ∃ d, PackageManagementProxy.voidResult (Some [PackageManagementSkeleton.status r]) = Ok d ∧ d = numbered r.
Proof. by destruct r as [[]|[]]; eexists; (split; [reflexivity|]); eexists. Qed.

Lemma carried_void {W} (T : Transport W) srv up `{!Carries T srv up} x mid p
    (h : RpcServer.HandlerType PackageManagementSkeleton.World) w (res : PackageManager.Result ()) w' :
  up x w → 1 <= mid <= 7 →
  RpcServer.mHandlers srv !! message_id cServiceId mid = Some h →
  is_bytes p ∧ 8 + size p < 4294967296 → h p w = (Ok (true, [PackageManagementSkeleton.status res]), w') →
  ∃ x', carry (PackageManagementProxy.call mid p PackageManagementProxy.voidResult) x = (Ok (numbered res), x') ∧ up x' w'.
Proof.
  intros Hup Hmid Hh Hp Hrun. destruct (failed_void res) as (r0 & H0 & d & H1 & <-).
  exact (carries_answered mid p h _ x w w' _ r0 d Hup Hmid Hh Hp (status_pdu res) eq_refl Hrun H0 H1).
Qed.

Section Transported.
Context `{Text : !JsonText} `{Pugi : !Xml}.
Variable system : string → Fs → Z * Fs.
Variable is_directory : string → bool.
Variable exit_faults : Faults.
Variable metadata_opens : bool.
Variable activation_faults : ActivationFaults.
Variable pv iv : Z.

Let srv := server system is_directory exit_faults metadata_opens activation_faults pv iv.

Context {W : Type} (T : Transport W) (up : W → PackageManagementSkeleton.World → Prop).
Context {HT : Carries T srv up}.

(** The transport is up, the other machine is in the state itself. *)
Definition same_machine (x : W) (y : PackageManagementSkeleton.World) : Prop :=
  up x y ∧ is_u32 (PackageManager.mNextId (fst y)).

Lemma TransferStart_next info p : is_u32 (PackageManager.mNextId (snd (PackageManager.TransferStart info p))) ∨
  snd (PackageManager.TransferStart info p) = p.
Proof. unfold PackageManager.TransferStart. case_match; [by right|left; apply u32_is]. Qed.

Lemma carried_start info x y r y' :
  cluster_fits info → same_machine x y →
  op_TransferStart (PackageOperations := on_the_manager system is_directory exit_faults metadata_opens activation_faults)
    info y = (Ok r, y') →
  (∀ id, r = inr id → is_u32 id) ∧
  ∃ x', op_TransferStart (PackageOperations := over_the_proxy T) info x = (Ok r, x') ∧ same_machine x' y'.
Proof.
  destruct y as [p fs]. intros Hinfo (Hup & Hid) Hrun. cbn [op_TransferStart on_the_manager over_the_proxy fst] in *.
  pose proof (handleTransferStart_sent info p fs Hinfo) as Hh. pose proof (TransferStart_id info p) as Hi.
  pose proof (TransferStart_next info p) as Hn.
  assert (one_is_mid : 1 <= 1 <= 7) by done.
  assert (∀ pdu r, is_bytes pdu → 8 + size pdu < 4294967296 →
    PackageManagementSkeleton.handleTransferStart
      (appendU64 (appendString (appendString [] (name info)) (version info)) (info_size info)) (p, fs) =
      (Ok (true, pdu), (snd (PackageManager.TransferStart info p), fs)) →
    PackageManagementProxy.TransferStart_result (Some pdu) = Ok r →
    ∃ x', carry (PackageManagementProxy.TransferStart info) x = (Ok r, x') ∧
      same_machine x' (snd (PackageManager.TransferStart info p), fs)) as Hcarry.
  { intros pdu r1 Hpb Hps Hh1 Hd. destruct (carries_answered (T := T) (srv := srv) (up := up) cMethodTransferStart _
      PackageManagementSkeleton.handleTransferStart pdu x (p, fs) _ PackageManagementProxy.TransferStart_result
      (inl (UcmErrc_code kActivationFailed)) r1 Hup one_is_mid eq_refl (start_request_ok info Hinfo) Hpb Hps Hh1 eq_refl Hd) as (x' & Hx & Hup').
    exists x'. split; [exact Hx|split; [done|]]. by destruct Hn as [?| ->]. }
  destruct (PackageManager.TransferStart info p) as [[e|id] p']; injection Hrun as <- <-; cbn [fst snd numbered] in *.
  - split; [done|]. exact (Hcarry _ _ (status_pdu (A:=()) (inl e)) eq_refl Hh (error_result e)).
  - specialize (Hi id p' Hid eq_refl). split; [by intros ? [= <-]|].
    exact (Hcarry _ _ (is_bytes_cons cWireOk _ ltac:(done) (is_bytes_integer id)) eq_refl Hh (TransferStart_answer id Hi)).
Qed.

(** A call without a value that keeps the next transfer's number. *)
Lemma carried_same mid request h x p fs (res : PackageManager.Result ()) w' :
  same_machine x (p, fs) → 1 <= mid <= 7 → RpcServer.mHandlers srv !! message_id cServiceId mid = Some h →
  is_bytes request ∧ 8 + size request < 4294967296 →
  h request (p, fs) = (Ok (true, [PackageManagementSkeleton.status res]), w') →
  PackageManager.mNextId (fst w') = PackageManager.mNextId p →
  ∃ x', carry (PackageManagementProxy.call mid request PackageManagementProxy.voidResult) x = (Ok (numbered res), x') ∧
    same_machine x' w'.
Proof.
  intros [Hup Hnext] Hmid Hh Hreq Hrun Hsame.
  destruct (carried_void T srv up x mid request h (p, fs) res w' Hup Hmid Hh Hreq Hrun) as (x' & Hx & Hup').
  exists x'. split; [exact Hx|split; [done|]]. by rewrite Hsame.
Qed.

#[export] Instance proxy_refines :
  Refines (over_the_proxy T) (on_the_manager system is_directory exit_faults metadata_opens activation_faults) same_machine.
Proof.
  split.
  - intros info x y r y'. apply carried_start.
  - intros id block n x [p fs] r y' Hid Hn Hblock Hsz HR Hrun. cbn [op_TransferData on_the_manager over_the_proxy] in *.
    pose proof (handleTransferData_sent id block n p fs Hid Hn ltac:(lia)) as Hh.
    pose proof (TransferData_same id block n p) as [_ Hsame].
    destruct (PackageManager.TransferData id block n p) as [res p']. injection Hrun as <- <-.
    exact (carried_same 2 _ _ x p fs res _ HR ltac:(done) eq_refl (data_request_ok id block n Hblock ltac:(lia)) Hh Hsame).
  - intros id x [p fs] r y' Hid HR Hrun. cbn [op_TransferExit on_the_manager over_the_proxy] in *.
    pose proof (handleTransferExit_sent is_directory exit_faults id p fs Hid) as Hh.
    pose proof (TransferExit_same is_directory exit_faults id p fs) as [_ Hsame].
    destruct (PackageManager.TransferExit is_directory exit_faults id p fs) as [res w]. injection Hrun as <- <-.
    exact (carried_same 3 _ _ x p fs res _ HR ltac:(done) eq_refl (id_request_ok id) Hh Hsame).
  - intros id x [p fs] r y' Hid HR Hrun. cbn [op_ProcessSwPackage on_the_manager over_the_proxy] in *.
    pose proof (ProcessSwPackage_same system metadata_opens id p fs) as [_ Hsame].
    destruct (PackageManager.ProcessSwPackage system metadata_opens id p fs) as [[res| | |] w] eqn:E; try done.
    injection Hrun as <- <-.
    exact (carried_same 4 _ _ x p fs res _ HR ltac:(done) eq_refl (id_request_ok id)
      (handleProcessSwPackage_sent system metadata_opens id p fs _ _ Hid E) Hsame).
  - intros root path x [p fs] r y' Hr Hp HR Hrun. cbn [op_Activate on_the_manager over_the_proxy] in *.
    pose proof (handleActivate_sent activation_faults root path p fs Hr Hp) as Hh.
    pose proof (Activate_same activation_faults root path p fs) as [_ Hsame].
    destruct (PackageManager.Activate activation_faults root path p fs) as [res w]. injection Hrun as <- <-.
    exact (carried_same 5 _ _ x p fs res _ HR ltac:(done) eq_refl (activate_request_ok root path Hr Hp) Hh Hsame).
Qed.

End Transported.

(** ** Lemmas: the application on the manager itself *)
Section OnTheManager.
Context `{Text : !JsonText} `{Pugi : !Xml}.
Variable system : string → Fs → Z * Fs.
Variable is_directory : string → bool.
Variable exit_faults : Faults.
Variable metadata_opens : bool.
Variable activation_faults : ActivationFaults.

#[local] Existing Instance on_the_manager.
Let Direct := on_the_manager system is_directory exit_faults metadata_opens activation_faults.

(** A stream that ends well has appended every chunk up to the end of the file. *)
Lemma stream_appends id reads n p fs w :
  is_Some (PackageManager.mPendingTransfers p !! id) → is_Some (PackageManager.mAccumulatedData p !! id) →
  VehicleUpdateConfigManager.stream (Ops := Direct) id reads n (p, fs) = (Ok true, w) →
  ∃ chunks rest, reads = map Some chunks ++ Some [] :: rest ∧ Forall (λ c, c ≠ []) chunks ∧
    w = (PackageManager.set_accumulated
           (<[id := PackageManager.accumulated id p ++ concat chunks]> (PackageManager.mAccumulatedData p)) p, fs).
Proof.
  revert n p. induction reads as [|[[|b chunk]|] reads IH]; intros n p Hp [x Hx] Hrun; try discriminate.
  - injection Hrun as <-. exists [], reads. split_and!; [done|by constructor|]. cbn. rewrite app_nil_r.
    unfold PackageManager.accumulated. rewrite Hx. cbn. rewrite insert_id by done. by destruct p.
  - revert Hrun. cbn [VehicleUpdateConfigManager.stream]. run. unfold Direct. cbn [op_TransferData on_the_manager].
    unfold PackageManager.TransferData. destruct Hp as [info Hi]. rewrite Hi. cbn [numbered].
    intros Hrun. apply IH in Hrun as (chunks & rest & -> & Hne & ->); cbn; [|by eauto|by rewrite lookup_insert_eq; eauto].
    exists ((b :: chunk) :: chunks), rest. split_and!; [done|by constructor|].
    unfold PackageManager.accumulated at 1. cbn. rewrite lookup_insert_eq. cbn. by rewrite insert_insert_eq, <- app_assoc.
Qed.

End OnTheManager.

(** What an update that succeeded has done: the chunks up to the end of the file, together
    as long as the file was said to be, are in the storage under the package's name when the
    package is processed, and the processed package is activated. *)
Definition updated `{Text : !JsonText} `{Pugi : !Xml} (system : string → Fs → Z * Fs) metadata_opens activation_faults
    (name installRoot manifestPath : string) (n : Z) (reads : list (option bytes)) (st : FileStorage.t)
    (id : Z) (w' : PackageManagementSkeleton.World) : Prop :=
  ∃ chunks rest p1 fs1 p2 fs2,
    reads = map Some chunks ++ Some [] :: rest ∧ size (concat chunks) = n ∧
    FileStorage.ReadFile false st (name +:+ ".swpkg.tar.gz")%string fs1 = inr (concat chunks) ∧
    PackageManager.mStagedPackagePath p1 = (PackageManager.mStorageRoot p1 +:+ "/" +:+ (name +:+ ".swpkg.tar.gz"))%string ∧
    PackageManager.ProcessSwPackage system metadata_opens id p1 fs1 = (Ok (inr ()), (p2, fs2)) ∧
    PackageManager.Activate activation_faults installRoot manifestPath p2 fs2 = (inr (), w').

Section Success.
Context `{Text : !JsonText} `{Pugi : !Xml}.
Variable system : string → Fs → Z * Fs.
Variable is_directory : string → bool.
Variable exit_faults : Faults.
Variable metadata_opens : bool.
Variable activation_faults : ActivationFaults.
Let Direct := on_the_manager system is_directory exit_faults metadata_opens activation_faults.

(** The end of a transfer whose blocks have the declared size. *)
Lemma TransferExit_succeeded info id data p fs st w :
  PackageManager.mPendingTransfers p !! id = Some info → info_size info ≠ 0 →
  PackageManager.mAccumulatedData p !! id = Some data → PackageManager.mStorage p = Some st →
  PackageManager.TransferExit is_directory exit_faults id p fs = (inr (), w) →
  size data = info_size info ∧
  FileStorage.ReadFile false st (PackageManager.pkgFileName info) (snd w) = inr data ∧
  PackageManager.mStagedPackagePath (fst w) =
    (PackageManager.mStorageRoot (fst w) +:+ "/" +:+ PackageManager.pkgFileName info)%string.
Proof.
  intros Hp Hn Ha Hst. unfold PackageManager.TransferExit, PackageManager.accumulated. rewrite Hp, Ha. cbn.
  rewrite (proj2 (Z.eqb_neq _ _)) by done. destruct (Z.eqb_spec (Z.of_nat (length data)) (info_size info)) as [Hlen|]; [|done].
  cbn. rewrite Hst. unfold FileStorage.WriteFile, FileStorage.ReadFile.
  pose proof (replace_file_final exit_faults (FileStorage.filePath st (PackageManager.pkgFileName info)) data fs) as Hf.
  destruct (snd (replace_file _ _ _ _)) as [e|]; [done|]. intros Hw. injection Hw as <-. cbn. rewrite Hf. by split_and!.
Qed.

Lemma Run_succeeded packagePath installRoot manifestPath n opens reads p fs st w' :
  n ≠ 0 → PackageManager.mStorage p = Some st →
  VehicleUpdateConfigManager.Run (Ops := Direct) packagePath installRoot manifestPath (Some n) opens reads (p, fs) =
    (Ok 0, w') →
  updated system metadata_opens activation_faults (VehicleUpdateConfigManager.package_name packagePath)
    installRoot manifestPath n reads st (PackageManager.mNextId p) w'.
Proof.
  intros Hn Hst. unfold VehicleUpdateConfigManager.Run. run. unfold Direct at 1. cbn [op_TransferStart on_the_manager].
  unfold PackageManager.TransferStart. destruct (negb _); [done|]. cbn [numbered]. destruct opens; [cbn [negb]|done].
  set (info := mkInfo _ _ _). set (id := PackageManager.mNextId p). set (p1 := PackageManager.mk _ _ _ _ _ _ _ _ _).
  destruct (VehicleUpdateConfigManager.stream (Ops := Direct) id reads 1 (p1, fs)) as [[[|]| | |] w2] eqn:E; try done. cbn [negb].
  apply stream_appends in E as (chunks & rest & Hreads & _ & ->); [|by eexists; apply lookup_insert_eq..].
  unfold PackageManager.accumulated. unfold p1 at 1 2. cbn [PackageManager.mAccumulatedData]. rewrite lookup_insert_eq, insert_insert_eq.
  set (p2 := PackageManager.set_accumulated _ _). unfold Direct at 1. cbn [op_TransferExit on_the_manager].
  destruct (PackageManager.TransferExit is_directory exit_faults id p2 fs) as [[e|[]] [p3 fs3]] eqn:E3; [done|]. cbn [numbered].
  apply (TransferExit_succeeded info id (concat chunks) p2 fs st) in E3 as (Hsz & Hfile & Hpath);
    [|apply lookup_insert_eq|done|apply lookup_insert_eq|done].
  unfold Direct at 1. cbn [op_ProcessSwPackage on_the_manager].
  destruct (PackageManager.ProcessSwPackage system metadata_opens id p3 fs3) as [[[e|[]]| | |] [p4 fs4]] eqn:E4; try done.
  cbn. destruct (PackageManager.Activate activation_faults installRoot manifestPath p4 fs4) as [[e|[]] w5] eqn:E5; [done|].
  cbn. intros [= <-]. exists chunks, rest, p3, fs3, p4, fs4. by split_and!.
Qed.

Lemma Run_code packagePath installRoot manifestPath size opens reads p fs code w' :
  VehicleUpdateConfigManager.Run (Ops := Direct) packagePath installRoot manifestPath size opens reads (p, fs) =
    (Ok code, w') → code = 0 ∨ code = 1.
Proof.
  unfold VehicleUpdateConfigManager.Run. run. intros Hrun.
  repeat (case_match; simplify_eq; try done; auto).
Qed.
End Success.

(** ** Properties *)

(** An update over the connection is an update of the machine itself: what the vehicle's
    application does with the package manager of another machine through proxy, connection
    and skeleton is what it does with the package manager itself, exit code and machine
    included; and when it exits with 0, the whole file, chunk by chunk up to its end and as
    long as it was said to be, was in the storage under the package's name when the package
    was processed, and the processed package has been activated. *)
Theorem update_over_the_wire `{Text : !JsonText} `{Pugi : !Xml} (system : string → Fs → Z * Fs)
    (is_directory : string → bool) exit_faults metadata_opens activation_faults pv iv cl s p fs
    packagePath installRoot manifestPath size opens reads code w' :
  let srv := server system is_directory exit_faults metadata_opens activation_faults pv iv in
  let direct := on_the_manager system is_directory exit_faults metadata_opens activation_faults in
  let name := VehicleUpdateConfigManager.package_name packagePath in
  connected srv cl → is_u32 (PackageManager.mNextId p) →
  fits name → fits installRoot → fits manifestPath →
  (∀ n, size = Some n → 0 <= n < 18446744073709551616) → Forall read_ok reads →
  VehicleUpdateConfigManager.Run (Ops := direct) packagePath installRoot manifestPath size opens reads (p, fs) = (Ok code, w') →
  (∃ c', VehicleUpdateConfigManager.Run (Ops := over_the_wire srv) packagePath installRoot manifestPath size opens reads
       ((cl, s), (p, fs)) = (Ok code, (c', w')) ∧ connected srv (fst c')) ∧
  (code = 0 ∨ code = 1) ∧
  (code = 0 → ∀ n st, size = Some n → n ≠ 0 → PackageManager.mStorage p = Some st →
     updated system metadata_opens activation_faults name installRoot manifestPath n reads st (PackageManager.mNextId p) w').
Proof.
  intros srv direct name Hcon Hid Hname Hroot Hpath Hsize Hreads Hrun. split; [|split].
  - destruct (Run_refines (Ref := proxy_refines system is_directory exit_faults metadata_opens activation_faults pv iv
        (@exchange srv) _) packagePath installRoot manifestPath size opens reads ((cl, s), (p, fs)) (p, fs) code w')
      as ([c' w''] & Hx & (Hc & <-) & _); try done. by exists c'.
  - by eapply Run_code.
  - intros -> n st -> Hn Hst. by eapply Run_succeeded.
Qed.

(** ** Witness *)

Definition demo_direct : PackageOperations PackageManagementSkeleton.World :=
  @on_the_manager demo_text demo_xml demo_system (fun _ => false) no_faults true no_activation_faults.

Definition demo_reads : list (option bytes) := [Some [9]; Some [8; 7]; Some []].

(** Where the update leads. *)
Definition demo_updated : PackageManagementSkeleton.World :=
  Eval vm_compute in
  snd (VehicleUpdateConfigManager.Run (Ops := demo_direct) "in/b.swpkg.tar.gz" "bin" "manifest.arxml" (Some 3) true demo_reads
    (demo_manager, demo_files)).

Lemma update_over_the_wire_witness :
  (∃ c', VehicleUpdateConfigManager.Run (Ops := over_the_wire demo_server) "in/b.swpkg.tar.gz" "bin" "manifest.arxml"
       (Some 3) true demo_reads ((demo_client, PackageManagementProxy.mk [] false), (demo_manager, demo_files)) =
     (Ok 0, (c', demo_updated))) ∧
  PackageManager.mState (fst demo_updated) = kActivated.
Proof.
  split; [|reflexivity].
  destruct (@update_over_the_wire demo_text demo_xml demo_system (fun _ => false) no_faults true no_activation_faults 1 1
    demo_client (PackageManagementProxy.mk [] false) demo_manager demo_files "in/b.swpkg.tar.gz" "bin" "manifest.arxml"
    (Some 3) true demo_reads 0 demo_updated demo_connected) as ((c' & Hrun & _) & _).
  - by split.
  - reflexivity.
  - reflexivity.
  - reflexivity.
  - intros n [= <-]. by split.
  - repeat (apply Forall_cons; split; [split; [by_eval|by vm_compute]|]). apply Forall_nil_2.
  - vm_cast_no_check (eq_refl (Ok 0, demo_updated)).
  - exists c'. exact Hrun.
Defined.
