(* ===== verification/UpdateService.v ===== *)
(** * The update service from its manifest to its clients

    The update configuration manager of a machine (application/platform/update_config_manager.cpp)
    sets up the skeleton of src-gen/package_management with what it reads in the manifest; vehicle
    update clients come one after the other, each with a proxy of its own.  Requests and answers
    travel through the socket classes of Connections.v, in pieces of any size; the transport
    [through_the_sockets] carries the calls of the proxy as the class [Carries] of VehicleUpdate.v asks,
    so that an update through the sockets is an update of the package manager itself.  The theorem:
    what any number of clients get and leave behind, from the manifest on. *)

From S2P Require Import Prelude Texts Payload SomeIp Rpc Connections Arxml Storage Ucm PackageService VehicleUpdate.
#[local] Open Scope Z_scope.

(** [src-gen/package_management/package_management_types.h:25-25] cProtocolVersion *)
Definition cProtocolVersion : Z := 1.
(** [src-gen/package_management/package_management_types.h:26-26] cInterfaceVersion *)
Definition cInterfaceVersion : Z := 1.

(** ** Setting up *)
Module UpdateConfigManager.
Section UpdateConfigManager.
Context `{Parser : !XmlText} `{Text : !JsonText} `{Pugi : !Xml}.
Variable system : string → Fs → Z * Fs.
Variable is_directory : string → bool.
Variable exit_faults : Faults.
Variable metadata_opens : bool.
Variable activation_faults : ActivationFaults.

(** The skeleton: the address that its server listens on, the server with its handlers, and
    the socket with the package manager and the files behind it. *)
Record t := mk {
  address : NetworkConfiguration.t;
  mServer : RpcServer.t PackageManagementSkeleton.World;
  socket : ServerSocket.State PackageManagementSkeleton.World
}.

(** [src-gen/package_management/package_management_skeleton.cpp:34-40] the path of the version *)
Definition protocolVersionPath : list string :=
  ["AUTOSAR"; "AR-PACKAGES"; "AR-PACKAGE"; "ELEMENTS"; "COMMUNICATION-CLUSTER"; "PROTOCOL-VERSION"]%string.

(** [src-gen/package_management/package_management_skeleton.cpp:13-66] PackageManagementSkeleton:
    [setup] is whether a socket can listen on an address, [addListener] what the poller says *)
Definition skeleton (setup : NetworkConfiguration.t → bool) (addListener : bool) (manifest : option string)
    (w : PackageManagementSkeleton.World) : outcome t :=
  '(ok, cfg) ← NetworkConfiguration.TryGetNetworkConfigurationOfFile manifest "UcmServerEP" "PackageManagementTcp"
                 NetworkConfiguration.Tcp (NetworkConfiguration.mk EmptyString 0);
  if negb (ok : bool) then Throw std_runtime_error
  else
    reader ← ArxmlReader.construct_file manifest;
    let protocolVersion := ArxmlNode.GetValue u8 (ArxmlReader.GetRootNode protocolVersionPath reader) in
    s ← ServerSocket.construct (setup cfg) addListener w;
    let s := snd (ServerSocket.SetDisconnectHandler PackageManagementSkeleton.disconnected s) in
    Ok (mk cfg
          (PackageManagementSkeleton.registerHandlers system is_directory exit_faults metadata_opens activation_faults
             (RpcServer.construct protocolVersion cInterfaceVersion)) s).

(** [application/platform/update_config_manager.cpp:11-22] UpdateConfigManager: the package
    manager on its storage root, and the skeleton in front of it *)
Definition construct (setup : NetworkConfiguration.t → bool) (addListener : bool) (directory registry_opens : bool)
    (manifest : option string) (storageRoot : string) (fs : Fs) : outcome t :=
  skeleton setup addListener manifest (PackageManager.construct directory registry_opens storageRoot fs, fs).

(** [src-gen/package_management/package_management_skeleton.cpp:68-71] ~PackageManagementSkeleton:
    the server goes, the package manager stays *)
Definition destroy (s : t) : t := mk (address s) (mServer s) (snd (ServerSocket.destroy (socket s))).

End UpdateConfigManager.
End UpdateConfigManager.

(** ** A client's proxy *)

(** [src-gen/package_management/package_management_proxy.cpp:13-35] PackageManagementProxy, with what
    the socket's set-up, its connection and the poller say *)
Definition proxy (setup connect addSender addReceiver : bool) (protocolVersion : Z) :
    outcome (RpcClient.t PackageManagementProxy.State * ClientSocket.State (W := PackageManagementProxy.State)) :=
  s ← ClientSocket.construct setup connect addSender addReceiver (PackageManagementProxy.mk [] false);
  Ok (PackageManagementProxy.registerHandlers (RpcClient.construct protocolVersion cInterfaceVersion), s).

(** ** The connection *)
Section Sockets.
Variable srv : RpcServer.t PackageManagementSkeleton.World.

(** How a stream of bytes is cut into what single reads give. *)
Variable cut : bytes → list bytes.

(** The proxy's client and socket, and the server's socket. *)
Definition Ends : Type :=
  (RpcClient.t PackageManagementProxy.State * ClientSocket.State (W := PackageManagementProxy.State)) *
  ServerSocket.State PackageManagementSkeleton.World.

(** What the rounds of the proxy's loop get from reads: the messages that each completes, and
    the rest of the buffer. *)
Fixpoint polls_of (buffer : bytes) (reads : list bytes) : list PackageManagementProxy.poll * bytes :=
  match reads with
  | [] => ([], buffer)
  | c :: reads =>
      let '(messages, buffer) := frames (buffer ++ c) in
      let '(polls, buffer) := polls_of buffer reads in
      ((messages, false) :: polls, buffer)
  end.

(** A call: the request leaves the client's queue, arrives at the server in pieces, and what
    the server then has in its queue comes back in pieces; the deadline passes behind them. *)
Definition converse {A} (m : list PackageManagementProxy.poll → PackageManagementProxy.Call A) : M Ends (Z + A) :=
  fun '((cl, cs), s) =>
    match fst (m [([], true)] (cl, ClientSocket.world cs)) with
    | Ok (request, _) =>
        let cs := snd (ClientSocket.Send request cs) in
        match ClientSocket.onSend cs with
        | (Ok sent, cs) =>
            match (ServerSocket.receive_all srv (cut (concat sent));; ServerSocket.onSend) s with
            | (Undefined, s) => (Undefined, ((cl, cs), s))
            | (answers, s) =>
                let reads := match answers with Ok answers => cut (concat answers) | _ => [] end in
                let '(polls, rest) := polls_of (ClientSocket.mReceiveBuffer cs) reads in
                let '(r, (cl, world)) := m (polls ++ [([], true)]) (cl, ClientSocket.world cs) in
                ('(_, r) ← r; Ok r,
                 ((cl, ClientSocket.mk (ClientSocket.mPoller cs) rest (ClientSocket.mSendingQueue cs) world), s))
            end
        | (r, cs) => ('_ ← r; OutOfFuel, ((cl, cs), s))
        end
    | Throw e => (Throw e, ((cl, cs), s))
    | Undefined => (Undefined, ((cl, cs), s))
    | OutOfFuel => (OutOfFuel, ((cl, cs), s))
    end.

Definition through_the_sockets : Transport Ends := @converse.

End Sockets.

(** ** Clients, one after the other *)

(** What a client is started with, what it finds out about the file, and what it reads. *)
Record Client := mkClient {
  mPackagePath : string;
  mInstallRoot : string;
  mManifestPath : string;
  file_size : option Z;
  file_opens : bool;
  file_reads : list (option bytes)
}.

Definition Run {W} (Ops : PackageOperations W) (c : Client) : M W Z :=
  VehicleUpdateConfigManager.Run (mPackagePath c) (mInstallRoot c) (mManifestPath c) (file_size c) (file_opens c) (file_reads c).

(** [application/platform/vehicle_update_config_manager.cpp:12-26] VehicleUpdateConfigManager, connected;
    its [Run]; and its end, which the server reads as the end of the connection *)
Definition visit (srv : RpcServer.t PackageManagementSkeleton.World) (cut : bytes → list bytes) (c : Client) :
    M (ServerSocket.State PackageManagementSkeleton.World) Z :=
  ServerSocket.onAccept true true true true;;
  code ← (fun s =>
    match proxy true true true true cProtocolVersion with
    | Ok ends => let '(r, (_, s)) := Run (over_the_proxy (through_the_sockets srv cut)) c (ends, s) in (r, s)
    | Throw e => (Throw e, s)
    | Undefined => (Undefined, s)
    | OutOfFuel => (OutOfFuel, s)
    end);
  ServerSocket.onReceive srv [];;
  mret code.

Fixpoint visits (srv : RpcServer.t PackageManagementSkeleton.World) (cut : bytes → list bytes) (cs : list Client) :
    M (ServerSocket.State PackageManagementSkeleton.World) (list Z) :=
  match cs with
  | [] => mret []
  | c :: cs => code ← visit srv cut c; codes ← visits srv cut cs; mret (code :: codes)
  end.

(** The specification: each client works on the package manager itself, which is reset when it
    leaves in the middle of something. *)
Section Direct.
Context {Direct : PackageOperations PackageManagementSkeleton.World}.

Definition visit_itself (c : Client) : M PackageManagementSkeleton.World Z :=
  code ← Run Direct c; PackageManagementSkeleton.disconnected;; mret code.

Fixpoint visits_itself (cs : list Client) : M PackageManagementSkeleton.World (list Z) :=
  match cs with
  | [] => mret []
  | c :: cs => code ← visit_itself c; codes ← visits_itself cs; mret (code :: codes)
  end.

End Direct.

(** ** Lemmas: the sockets carry the calls *)

Lemma frames_one m : SomeIpRpcMessage.wf m →
  frames (SomeIpRpcMessage.Payload m) = ([SomeIpRpcMessage.Payload m], []) ∧ is_bytes (SomeIpRpcMessage.Payload m) ∧
  8 <= size (SomeIpRpcMessage.Payload m).
Proof.
  intros Hm. destruct (frames_stream [m] (Forall_cons_2 _ _ _ Hm (Forall_nil_2 _))) as [Hf Hb].
  cbn [map concat] in Hf, Hb. rewrite app_nil_r in Hf, Hb. split_and!; [done|done|].
  pose proof (RpcMessage_facts.size_Payload m Hm) as Hs. rewrite RpcMessage_facts.Length_wf in Hs by done.
  pose proof (size_nonneg (SomeIpRpcMessage.mRpcPayload m)). lia.
Qed.

(** The beginning of a message is no message. *)
Lemma frames_prefix m b rest :
  SomeIpRpcMessage.wf m → rest ≠ [] → b ++ rest = SomeIpRpcMessage.Payload m → frames b = ([], b).
Proof.
  intros Hm Hr E. destruct (frames_one m Hm) as (Hf & Hb & _). rewrite <- E in Hb.
  assert (Hbb : is_bytes b) by by apply Forall_app in Hb as [? _].
  apply frames_incomplete; [done|]. destruct (size b <? 8) eqn:H8; [lia|].
  destruct (Z.lt_ge_cases (size b) (8 + RpcMessage_facts.length_field b)) as [|Hge]; [done|exfalso].
  assert (Hfb : fst (frames b) ≠ []) by (rewrite frames_complete by (done || lia); done).
  rewrite <- E, frames_app in Hf by done. rewrite E in Hf.
  destruct (frames_sound b Hbb) as [Hsplit _].
  destruct (frames b) as [[|m1 ms] r1] eqn:Eb; [done|]. cbn [fst snd app concat] in *.
  injection Hf as -> Hms Hrest. apply app_eq_nil in Hms as [-> _]. cbn [concat] in Hsplit. rewrite app_nil_r in Hsplit.
  rewrite Hsplit in E. rewrite <- app_assoc in E. rewrite <- (app_nil_r (SomeIpRpcMessage.Payload m)) in E at 2.
  apply app_inv_head in E. by apply app_eq_nil in E as [_ ->].
Qed.

Lemma polls_of_message m b reads :
  SomeIpRpcMessage.wf m → Forall (fun c => c ≠ []) reads → reads ≠ [] →
  b ++ concat reads = SomeIpRpcMessage.Payload m →
  ∃ n, polls_of b reads = (answered_polls n (SomeIpRpcMessage.Payload m) [], []).
Proof.
  intros Hm Hr. revert b. induction Hr as [|c reads Hc Hr IH]; intros b Hne E; [done|]. cbn [polls_of concat] in *.
  rewrite app_assoc in E. destruct reads as [|c' reads].
  - cbn [concat] in E. rewrite app_nil_r in E. rewrite E. destruct (frames_one m Hm) as (-> & _). by exists 0%nat.
  - rewrite (frames_prefix m (b ++ c) (concat (c' :: reads))) by first [done | cbn; by destruct c'; inversion Hr].
    destruct (IH (b ++ c) ltac:(done) E) as [n ->]. by exists (S n).
Qed.

(** The rounds of the loop and the callback of the client's socket: what [polls_of] says that
    a read completes is what [onReceive] gives to the handlers. *)
Lemma deliver_all cl messages s :
  PackageManagementProxy.deliver cl messages s = run_all (RpcClient.InvokeHandler cl) messages s.
Proof.
  assert (H : ∀ (m : M PackageManagementProxy.State ()) s,
    foldl (fun m message => m;; RpcClient.InvokeHandler cl message) m messages s =
    (m;; run_all (RpcClient.InvokeHandler cl) messages) s).
  { induction messages as [|a messages IH]; intros m s0; cbn [foldl run_all].
    - run. by destruct (m s0) as [[[]| | |] ?].
    - rewrite IH. run. by destruct (m s0) as [[[]| | |] ?]. }
  exact (H (mret ()) s).
Qed.

Lemma onReceive_delivers cl c (s : ClientSocket.State (W := PackageManagementProxy.State)) w :
  let '(messages, rest) := frames (ClientSocket.mReceiveBuffer s ++ c) in
  is_bytes (ClientSocket.mReceiveBuffer s ++ c) → frames (ClientSocket.mReceiveBuffer s) = ([], ClientSocket.mReceiveBuffer s) →
  PackageManagementProxy.deliver cl messages (ClientSocket.world s) = (Ok (), w) →
  ClientSocket.onReceive cl c s = (Ok (), ClientSocket.mk (ClientSocket.mPoller s) rest (ClientSocket.mSendingQueue s) w).
Proof.
  destruct (frames _) as [messages rest] eqn:E. intros Hb Hn Hd. rewrite deliver_all in Hd.
  pose proof (feed_frames (RpcClient.InvokeHandler cl) [c] (ClientSocket.mReceiveBuffer s) (ClientSocket.world s) w) as Hf.
  cbn [concat feed] in Hf. rewrite app_nil_r, E in Hf. specialize (Hf Hb Hn Hd).
  unfold ClientSocket.onReceive. revert Hf. unfold mbind, M_bind.
  destruct (receive_chunk _ c _) as [[[]| | |] [b w1]]; run; intros Hf; simplify_eq; done.
Qed.

(** A way to cut streams: nothing is lost, and no read is empty, which would be an end. *)
Class Cuts (cut : bytes → list bytes) := {
  cut_whole b : concat (cut b) = b;
  cut_pieces b : Forall (fun c => c ≠ []) (cut b)
}.

(** A client's connection to a server that is in state [w] and has nothing left to do. *)
Definition at_rest (s : ServerSocket.State PackageManagementSkeleton.World) (w : PackageManagementSkeleton.World) : Prop :=
  ServerSocket.mReceiveBuffer s = [] ∧ ServerSocket.inner s = SocketRpcServer.mkState [] w ∧
  ServerSocket.mDisconnectHandler s = Some PackageManagementSkeleton.disconnected ∧
  listener (ServerSocket.mPoller s) = true.

Definition sockets_up (srv : RpcServer.t PackageManagementSkeleton.World) (x : Ends) (w : PackageManagementSkeleton.World) : Prop :=
  let '((cl, cs), s) := x in
  connected srv cl ∧ ClientSocket.mReceiveBuffer cs = [] ∧ ClientSocket.mSendingQueue cs = [] ∧ at_rest s w.

(** A request of one message, cut, and its answer. *)
Lemma request_served srv cut `{!Cuts cut} s w w' q m :
  SomeIpRpcMessage.wf q → SomeIpRpcMessage.wf m → at_rest s w →
  RpcServer.TryInvokeHandler srv (SomeIpRpcMessage.Payload q) w = (Ok (Some (SomeIpRpcMessage.Payload m)), w') →
  ∃ s', (ServerSocket.receive_all srv (cut (SomeIpRpcMessage.Payload q));; ServerSocket.onSend) s =
      (Ok [SomeIpRpcMessage.Payload m], s') ∧ at_rest s' w'.
Proof.
  destruct s as [p c buffer i d]. intros Hq Hm (Hb & Hi & Hd & Hl) Hrun. cbn in Hb, Hi, Hd, Hl. subst buffer i d.
  destruct (frames_one q Hq) as (Hf & Hqb & _).
  assert (Hfeed : feed (SocketRpcServer.handle srv) (cut (SomeIpRpcMessage.Payload q)) ([], SocketRpcServer.mkState [] w) =
    (Ok (), ([], SocketRpcServer.mkState [SomeIpRpcMessage.Payload m] w'))).
  { pose proof (feed_frames (SocketRpcServer.handle srv) (cut (SomeIpRpcMessage.Payload q)) [] (SocketRpcServer.mkState [] w)
      (SocketRpcServer.mkState [SomeIpRpcMessage.Payload m] w')) as Hff.
    rewrite app_nil_l, cut_whole, Hf in Hff. apply Hff; [done|done|]. cbn [fst run_all]. run.
    unfold SocketRpcServer.handle. cbn [SocketRpcServer.world SocketRpcServer.mSendingQueue]. by rewrite Hrun. }
  unfold mbind, M_bind. rewrite (receive_all_feed srv _ p c [] _ _ _ _ _ (cut_pieces _) Hfeed). eexists. split.
  - pose proof (payloads_sent [m] (Forall_cons_2 _ _ _ Hm (Forall_nil_2 _))) as Hsent. cbn [map] in Hsent.
    unfold ServerSocket.onSend, SocketRpcServer.onSend. cbn [ServerSocket.inner SocketRpcServer.mSendingQueue].
    rewrite Hsent. reflexivity.
  - by split_and!.
Qed.

#[export] Instance sockets_carry srv cut `{!Cuts cut} : Carries (through_the_sockets srv cut) srv (sockets_up srv).
Proof.
  intros A mid p h pdu [[cl [cp cb cq cw]] s] w w' decode r0 r (Hcon & Hcb & Hcq & Hs) Hmid Hh [Hp Hps] Hpdu Hpdus Hrun Hd0 Hd.
  cbn in Hcb, Hcq. subst cb cq.
  destruct (call_answered_message srv cl cw mid p h w pdu w' decode r Hcon Hmid Hh Hp Hps Hpdu Hpdus Hrun Hd)
    as (Hq & m & cl' & Hm & Ht & Hcon' & Ha).
  destruct (call_timed_out mid p decode r0 cl cw Hd0) as (cl2 & Hto).
  set (q := sent_request cl cServiceId mid cClientId p) in *.
  destruct (request_served srv cut s w w' q m Hq Hm Hs Ht) as (s' & Hserve & Hs').
  destruct (polls_of_message m [] (cut (SomeIpRpcMessage.Payload m)) Hm (cut_pieces _)) as [n Hpolls].
  { intros E. pose proof (cut_whole (SomeIpRpcMessage.Payload m)) as Hw. rewrite E in Hw.
    destruct (frames_one m Hm) as (_ & _ & H8). by rewrite <- Hw in H8. }
  { apply cut_whole. }
  pose proof (payloads_sent [q] (Forall_cons_2 _ _ _ Hq (Forall_nil_2 _))) as Hsent. cbn [map] in Hsent.
  unfold carry, through_the_sockets, converse. cbn [ClientSocket.world]. rewrite Hto. cbn [fst]. fold q.
  unfold ClientSocket.Send, ClientSocket.onSend, modify.
  cbn [snd ClientSocket.mSendingQueue ClientSocket.mReceiveBuffer ClientSocket.mPoller ClientSocket.world app].
  rewrite Hsent. cbn [concat]. rewrite app_nil_r. rewrite Hserve. cbn [concat]. rewrite app_nil_r, Hpolls.
  replace (answered_polls n (SomeIpRpcMessage.Payload m) [] ++ [([], true)])
    with (answered_polls n (SomeIpRpcMessage.Payload m) [([], true)]) by (unfold answered_polls; by rewrite <- app_assoc).
  rewrite Ha. eexists. split; [reflexivity|]. by split_and!.
Qed.

(** ** Lemmas: setting up *)
Section Set_up.
Context `{Parser : !XmlText} `{Text : !JsonText} `{Pugi : !Xml}.
Variable system : string → Fs → Z * Fs.
Variable is_directory : string → bool.
Variable exit_faults : Faults.
Variable metadata_opens : bool.
Variable activation_faults : ActivationFaults.

Lemma skeleton_set_up setup content endpoints applications version others e a w :
  Arxml.load content = (true, true, Arxml_facts.manifest endpoints applications (Some version) others) →
  Arxml_facts.printable_manifest endpoints applications →
  List.find (Arxml_facts.named_endpoint "UcmServerEP") endpoints = Some e →
  List.find (Arxml_facts.named_application "PackageManagementTcp") applications = Some a →
  let cfg := NetworkConfiguration.mk e.2 (Arxml_facts.port_for NetworkConfiguration.Tcp a) in
  setup cfg = true →
  ∃ s, UpdateConfigManager.skeleton system is_directory exit_faults metadata_opens activation_faults setup true (Some content) w =
    Ok (UpdateConfigManager.mk cfg
          (server system is_directory exit_faults metadata_opens activation_faults (u8 (pugi.get_value_uint version)) cInterfaceVersion) s) ∧
    at_rest s w.
Proof.
  intros Hload Hprint He Ha cfg Hsetup. unfold UpdateConfigManager.skeleton, NetworkConfiguration.TryGetNetworkConfigurationOfFile,
    ArxmlReader.construct_file, ArxmlReader.construct.
  rewrite Hload. change (ArxmlReader.validate true true _) with true. cbv iota.
  rewrite Ok_bind, Arxml_facts.find_configuration, He, Ha, Ok_bind by done. cbv zeta. cbn [negb]. rewrite Ok_bind.
  fold cfg. rewrite Hsetup. cbn [ServerSocket.construct negb]. rewrite Ok_bind. eexists. split; [reflexivity|by split_and!].
Qed.

Lemma proxy_connected :
  ∃ cl cs, proxy true true true true cProtocolVersion = Ok (cl, cs) ∧
    connected (server system is_directory exit_faults metadata_opens activation_faults cProtocolVersion cInterfaceVersion) cl ∧
    ClientSocket.mReceiveBuffer cs = [] ∧ ClientSocket.mSendingQueue cs = [].
Proof.
  eexists _, _. split; [reflexivity|]. split; [|done]. split; try done.
  intros mid H. assert (Hm : mid = 1 ∨ mid = 2 ∨ mid = 3 ∨ mid = 4 ∨ mid = 5 ∨ mid = 6 ∨ mid = 7) by lia.
  clear H. repeat destruct Hm as [->|Hm]; [done..|by subst].
Qed.

(** ** Lemmas: one client *)

(** The texts fit the length fields, the file its size, what is read a chunk. *)
Definition client_ok (c : Client) : Prop :=
  fits (VehicleUpdateConfigManager.package_name (mPackagePath c)) ∧ fits (mInstallRoot c) ∧ fits (mManifestPath c) ∧
  (∀ n, file_size c = Some n → 0 <= n < 18446744073709551616) ∧ Forall read_ok (file_reads c).

Let Direct := on_the_manager system is_directory exit_faults metadata_opens activation_faults.
Let srv := server system is_directory exit_faults metadata_opens activation_faults cProtocolVersion cInterfaceVersion.

Lemma disconnected_spec w :
  ∃ w', PackageManagementSkeleton.disconnected w = (Ok (), w') ∧
    PackageManager.mNextId (fst w') = PackageManager.mNextId (fst w) ∧
    PackageManager.mStorage (fst w') = PackageManager.mStorage (fst w) ∧
    (PackageManager.mState (fst w) = kActivated → w' = w).
Proof.
  destruct w as [p fs]. unfold PackageManagementSkeleton.disconnected, PackageManager.GetCurrentState.
  destruct (_ && _) eqn:E; eexists; (split; [reflexivity|]); split_and!; try done.
  intros H. cbn in H. rewrite H in E. done.
Qed.

Lemma visit_refines cut `{!Cuts cut} c s w code w' :
  client_ok c → at_rest s w → is_u32 (PackageManager.mNextId (fst w)) →
  visit_itself (Direct := Direct) c w = (Ok code, w') →
  ∃ s', visit srv cut c s = (Ok code, s') ∧ at_rest s' w' ∧ is_u32 (PackageManager.mNextId (fst w')).
Proof.
  intros (Hname & Hroot & Hpath & Hsize & Hreads) Hs Hid. unfold visit_itself. run.
  destruct (Run Direct c w) as [[r| | |] w1] eqn:Hrun; try done.
  destruct (disconnected_spec w1) as (w2 & Hd & Hnext & _). rewrite Hd. intros [= <- <-].
  destruct proxy_connected as (cl & cs & Hp & Hcon & Hb & Hq).
  destruct s as [po co buffer i d]. destruct Hs as (Hs1 & Hs2 & Hs3 & Hs4). cbn in Hs1, Hs2, Hs3, Hs4. subst buffer i d.
  unfold visit, mbind, M_bind. rewrite accept_spec, Hp.
  set (s0 := ServerSocket.mk _ true [] _ _).
  destruct (Run_refines (Ref := proxy_refines system is_directory exit_faults metadata_opens activation_faults
      cProtocolVersion cInterfaceVersion (through_the_sockets srv cut) (sockets_up srv))
    (mPackagePath c) (mInstallRoot c) (mManifestPath c) (file_size c) (file_opens c) (file_reads c) ((cl, cs), s0) w r w1)
    as ([[cl' cs'] s1] & Hx & (Hup & Hid1)); try done.
  unfold Run. rewrite Hx. destruct Hup as (_ & _ & _ & Hr1 & Hr2 & Hr3 & Hr4).
  unfold ServerSocket.onReceive, SocketRpcServer.onReceive. rewrite Hr1, Hr2, Hr3.
  cbn [size length SocketRpcServer.world SocketRpcServer.mSendingQueue]. change (size [] <=? 0) with true. cbv iota.
  rewrite Hd. eexists. split; [reflexivity|]. split; [by split_and!|]. by rewrite Hnext.
Qed.

Lemma visits_refine cut `{!Cuts cut} clients s w codes w' :
  Forall client_ok clients → at_rest s w → is_u32 (PackageManager.mNextId (fst w)) →
  visits_itself (Direct := Direct) clients w = (Ok codes, w') →
  ∃ s', visits srv cut clients s = (Ok codes, s') ∧ at_rest s' w'.
Proof.
  intros Hc. revert s w codes. induction Hc as [|c clients Hc _ IH]; intros s w codes Hs Hid; cbn [visits_itself visits]; run.
  { intros [= <- <-]. by exists s. }
  destruct (visit_itself c w) as [[code| | |] w1] eqn:E1; try done.
  destruct (visit_refines cut c s w code w1 Hc Hs Hid E1) as (s1 & -> & Hs1 & Hid1).
  destruct (visits_itself clients w1) as [[codes1| | |] w2] eqn:E2; try done. intros [= <- <-].
  destruct (IH s1 w1 codes1 Hs1 Hid1 E2) as (s2 & -> & Hs2). by exists s2.
Qed.

(** ** Lemmas: what the clients find *)

(** A property of the state that every operation keeps is kept by a client. *)
Lemma Run_keeps {W} (Ops : PackageOperations W) (P : W → Prop) c w r w' :
  (∀ info w, P w → P (snd (op_TransferStart info w))) → (∀ id b n w, P w → P (snd (op_TransferData id b n w))) →
  (∀ id w, P w → P (snd (op_TransferExit id w))) → (∀ id w, P w → P (snd (op_ProcessSwPackage id w))) →
  (∀ root path w, P w → P (snd (op_Activate root path w))) →
  Run Ops c w = (r, w') → P w → P w'.
Proof.
  intros H1 H2 H3 H4 H5 Hrun HP.
  assert (Hstream : ∀ id reads n w, P w → P (snd (VehicleUpdateConfigManager.stream id reads n w))).
  { intros id reads. induction reads as [|[[|b chunk]|] reads IH]; intros n w0 H0; try done.
    cbn [VehicleUpdateConfigManager.stream]. run. pose proof (H2 id (b :: chunk) n w0 H0) as H.
    destruct (op_TransferData id (b :: chunk) n w0) as [[[]| | |] w1]; try done. by apply IH. }
  apply (f_equal snd) in Hrun. cbn in Hrun. subst w'. unfold Run, VehicleUpdateConfigManager.Run.
  destruct (file_size c) as [n|]; [|done]. run.
  match goal with |- context [op_TransferStart ?i w] => pose proof (H1 i w HP) as Ha; destruct (op_TransferStart i w) as [[[|id]| | |] w1] end; try done.
  destruct (file_opens c); [|done]. cbn [negb].
  match goal with |- context [VehicleUpdateConfigManager.stream ?i ?l 1 w1] => pose proof (Hstream i l 1 w1 Ha) as Hb;
    destruct (VehicleUpdateConfigManager.stream i l 1 w1) as [[[]| | |] w2] end; try done. cbn [negb].
  pose proof (H3 id w2 Hb) as Hc. destruct (op_TransferExit id w2) as [[[]| | |] w3]; try done.
  pose proof (H4 id w3 Hc) as Hd. destruct (op_ProcessSwPackage id w3) as [[[]| | |] w4]; try done.
  pose proof (H5 (mInstallRoot c) (mManifestPath c) w4 Hd) as He. by destruct (op_Activate _ _ w4) as [[[]| | |] w5].
Qed.

Lemma register_storage f p fs : PackageManager.mStorage (fst (PackageManager.register f p fs)) = PackageManager.mStorage p.
Proof. unfold PackageManager.register. by repeat case_match. Qed.

Lemma visit_keeps_storage c w code w' :
  visit_itself (Direct := Direct) c w = (Ok code, w') → PackageManager.mStorage (fst w') = PackageManager.mStorage (fst w).
Proof.
  unfold visit_itself. run. destruct (Run Direct c w) as [[r| | |] w1] eqn:E; try done.
  destruct (disconnected_spec w1) as (w2 & -> & _ & Hs & _). intros [= <- <-]. rewrite Hs.
  refine (Run_keeps Direct (fun x => PackageManager.mStorage (fst x) = PackageManager.mStorage (fst w)) c w _ w1 _ _ _ _ _ E eq_refl).
  all: unfold Direct; cbn [op_TransferStart op_TransferData op_TransferExit op_ProcessSwPackage op_Activate on_the_manager].
  - intros info [p fs] <-. unfold PackageManager.TransferStart. by repeat (case_match; simplify_eq/=).
  - intros id b n [p fs] <-. unfold PackageManager.TransferData. by repeat (case_match; simplify_eq/=).
  - intros id [p fs] <-. unfold PackageManager.TransferExit. by repeat (case_match; simplify_eq/=).
  - intros id [p fs] <-. unfold PackageManager.ProcessSwPackage. by repeat (case_match; simplify_eq/=).
  - intros root path [p fs] <-. unfold PackageManager.Activate. repeat (case_match; simplify_eq/=; try done).
    all: match goal with H : PackageManager.register ?f ?p ?fs = _ |- _ => pose proof (register_storage f p fs) as Hr; rewrite H in Hr end.
    all: done.
Qed.

(** Once a package is activated every later client is refused, and changes nothing. *)
Lemma visit_refused c w : PackageManager.mState (fst w) = kActivated → visit_itself (Direct := Direct) c w = (Ok 1, w).
Proof.
  destruct w as [p fs]. intros Hst. cbn in Hst.
  assert (H : Run Direct c (p, fs) = (Ok 1, (p, fs))).
  { unfold Run, VehicleUpdateConfigManager.Run. destruct (file_size c); [|done]. run. unfold Direct.
    cbn [op_TransferStart on_the_manager]. unfold PackageManager.TransferStart. by rewrite Hst. }
  unfold visit_itself. run. rewrite H. destruct (disconnected_spec (p, fs)) as (w2 & -> & _ & _ & Hk). by rewrite Hk.
Qed.

Lemma visits_refused clients w :
  PackageManager.mState (fst w) = kActivated → visits_itself (Direct := Direct) clients w = (Ok (replicate (length clients) 1), w).
Proof.
  intros Hst. induction clients as [|c clients IH]; [done|]. cbn [visits_itself length replicate]. run.
  by rewrite visit_refused, IH.
Qed.

Lemma Activate_activated f root path p fs w :
  PackageManager.Activate f root path p fs = (inr (), w) → PackageManager.mState (fst w) = kActivated.
Proof. unfold PackageManager.Activate. intros H. by repeat (case_match; simplify_eq/=). Qed.

(** What a client leaves that exits with 0: an activated machine, with what it sent. *)
Definition installed (c : Client) (storage : option FileStorage.t) (w : PackageManagementSkeleton.World) : Prop :=
  PackageManager.mState (fst w) = kActivated ∧
  ∀ n st, file_size c = Some n → n ≠ 0 → storage = Some st →
    ∃ id, updated system metadata_opens activation_faults (VehicleUpdateConfigManager.package_name (mPackagePath c))
      (mInstallRoot c) (mManifestPath c) n (file_reads c) st id w.

Lemma Run_activated c w w' : Run Direct c w = (Ok 0, w') → PackageManager.mState (fst w') = kActivated.
Proof.
  unfold Run, VehicleUpdateConfigManager.Run. destruct (file_size c); [|done]. run.
  destruct (op_TransferStart _ w) as [[[|id]| | |] w1]; try done. destruct (file_opens c); [|done]. cbn [negb].
  destruct (VehicleUpdateConfigManager.stream _ _ _ _) as [[[]| | |] w2]; try done. cbn [negb].
  destruct (op_TransferExit id w2) as [[[]| | |] w3]; try done.
  destruct (op_ProcessSwPackage id w3) as [[[]| | |] [p4 fs4]]; try done.
  unfold Direct. cbn [op_Activate on_the_manager].
  destruct (PackageManager.Activate _ _ _ p4 fs4) as [[e|[]] w5] eqn:E; cbn; [done|]. intros [= <-].
  by eapply Activate_activated.
Qed.

Lemma visit_code c w code w' :
  visit_itself (Direct := Direct) c w = (Ok code, w') → code = 1 ∨ code = 0 ∧ installed c (PackageManager.mStorage (fst w)) w'.
Proof.
  unfold visit_itself. run. destruct (Run Direct c w) as [[r| | |] w1] eqn:E; try done.
  destruct (disconnected_spec w1) as (w2 & -> & _ & _ & Hk). intros [= <- <-]. destruct w as [p fs].
  destruct (Run_code system is_directory exit_faults metadata_opens activation_faults _ _ _ _ _ _ _ _ _ _ E) as [->| ->]; [|by left].
  right. split; [done|]. pose proof (Run_activated c _ _ E) as Ha. rewrite (Hk Ha). split; [done|].
  intros n st Hn H0 Hst. exists (PackageManager.mNextId p). unfold Run in E. rewrite Hn in E.
  exact (Run_succeeded system is_directory exit_faults metadata_opens activation_faults _ _ _ n _ _ p fs st w1 H0 Hst E).
Qed.

Lemma visits_codes clients w codes w' :
  visits_itself (Direct := Direct) clients w = (Ok codes, w') →
  codes = replicate (length clients) 1 ∨
  ∃ before c behind, clients = before ++ c :: behind ∧
    codes = replicate (length before) 1 ++ 0 :: replicate (length behind) 1 ∧ installed c (PackageManager.mStorage (fst w)) w'.
Proof.
  revert w codes. induction clients as [|c clients IH]; intros w codes; cbn [visits_itself]; run.
  { intros [= <- <-]. by left. }
  destruct (visit_itself c w) as [[code| | |] w1] eqn:E1; try done.
  destruct (visits_itself clients w1) as [[codes1| | |] w2] eqn:E2; try done. intros [= <- <-].
  destruct (visit_code c w code w1 E1) as [->|[-> Hi]].
  - destruct (IH w1 codes1 E2) as [->|(before & c' & behind & -> & -> & Hi)]; [by left|]. right.
    exists (c :: before), c', behind. rewrite (visit_keeps_storage c w _ w1 E1) in Hi. by split_and!.
  - right. rewrite visits_refused in E2 by apply Hi. injection E2 as <- <-. by exists [], c, clients.
Qed.

End Set_up.

(** ** Property *)

(** C18: the update service, from its manifest on: a manifest that declares the service's endpoint, its
    TCP port and the protocol's version 1 sets up a server on that address, and any number of
    clients that come one after the other, their requests and answers cut into pieces of any
    size, exit with the codes and leave the machine in the state that they would on the
    package manager itself, reset when one leaves in the middle of something; the server is
    at rest after each.  At most one of the clients exits with 0: then its whole file was
    stored when the package was processed, the package has been activated, and that is how the
    machine is in the end, since every client before it failed and every one behind it is
    refused. *)
Theorem clients_are_served `{Parser : !XmlText} `{Text : !JsonText} `{Pugi : !Xml} (system : string → Fs → Z * Fs)
    (is_directory : string → bool) exit_faults metadata_opens activation_faults
    setup content endpoints applications version others e a cut `{!Cuts cut} clients p fs codes w' :
  Arxml.load content = (true, true, Arxml_facts.manifest endpoints applications (Some version) others) →
  Arxml_facts.printable_manifest endpoints applications →
  List.find (Arxml_facts.named_endpoint "UcmServerEP") endpoints = Some e →
  List.find (Arxml_facts.named_application "PackageManagementTcp") applications = Some a →
  let cfg := NetworkConfiguration.mk e.2 (Arxml_facts.port_for NetworkConfiguration.Tcp a) in
  setup cfg = true → u8 (pugi.get_value_uint version) = cProtocolVersion →
  is_u32 (PackageManager.mNextId p) → Forall client_ok clients →
  visits_itself (Direct := on_the_manager system is_directory exit_faults metadata_opens activation_faults) clients (p, fs) =
    (Ok codes, w') →
  (∃ service s',
    UpdateConfigManager.skeleton system is_directory exit_faults metadata_opens activation_faults setup true (Some content)
      (p, fs) = Ok service ∧
    UpdateConfigManager.address service = cfg ∧
    visits (UpdateConfigManager.mServer service) cut clients (UpdateConfigManager.socket service) = (Ok codes, s') ∧
    at_rest s' w') ∧
  (codes = replicate (length clients) 1 ∨
   ∃ before c behind, clients = before ++ c :: behind ∧
     codes = replicate (length before) 1 ++ 0 :: replicate (length behind) 1 ∧
     installed system metadata_opens activation_faults c (PackageManager.mStorage p) w').
Proof.
  intros Hload Hprint He Ha cfg Hsetup Hversion Hid Hclients Hdirect. split.
  - destruct (skeleton_set_up system is_directory exit_faults metadata_opens activation_faults setup content endpoints
      applications version others e a (p, fs) Hload Hprint He Ha Hsetup) as (s & Hs & Hrest).
    rewrite Hversion in Hs.
    destruct (visits_refine system is_directory exit_faults metadata_opens activation_faults cut clients s (p, fs) codes w')
      as (s' & Hv & Hrest'); try done.
    eexists _, s'. split; [exact Hs|]. by split_and!.
  - exact (visits_codes system is_directory exit_faults metadata_opens activation_faults clients (p, fs) codes w' Hdirect).
Qed.

(** ** Witness *)

Definition demo_endpoint : node := Arxml_facts.network_endpoint ("UcmServerEP", "127.0.0.1")%string.
Definition demo_application : Arxml_facts.Application :=
  Arxml_facts.mkApplication "PackageManagementTcp" NetworkConfiguration.Tcp "18090".

(** A parser of a manifest, its endpoint and its application endpoint. *)
Definition demo_parser : XmlText.
Proof.
  refine {| Arxml.load := fun s => if (s =? "1")%string then (true, true, [demo_endpoint])
                             else if (s =? "2")%string then (true, true, [Arxml_facts.application_endpoint demo_application])
                             else (true, true, Arxml_facts.manifest [("UcmServerEP", "127.0.0.1")%string] [demo_application] (Some "1"%string) []);
            Arxml.print := fun n => match pugi.name_of n with
                              | Some name => if (name =? "NETWORK-ENDPOINT")%string then "1" else "2"
                              | None => EmptyString end%string;
            Arxml.version_is_one := fun s => (s =? "1.0")%string;
            Arxml.printable := fun n => n = demo_endpoint ∨ n = Arxml_facts.application_endpoint demo_application |}.
  intros name attributes children [-> | ->]; reflexivity.
Defined.

(** Byte by byte. *)
Definition single_bytes (b : bytes) : list bytes := map (fun x => [x]) b.

#[export] Instance single_bytes_cuts : Cuts single_bytes.
Proof.
  split; intros b; unfold single_bytes; induction b as [|x b IH]; cbn [map concat app]; [done|by f_equal|by constructor|].
  by constructor.
Qed.

(** The first client's file is shorter than it was said to be; the third one comes too late. *)
Definition demo_clients : list Client :=
  [mkClient "in/a.swpkg.tar.gz" "bin" "manifest.arxml" (Some 2) true [Some [9]; Some []];
   mkClient "in/b.swpkg.tar.gz" "bin" "manifest.arxml" (Some 3) true demo_reads;
   mkClient "in/b.swpkg.tar.gz" "bin" "manifest.arxml" (Some 3) true demo_reads].

Definition demo_visited : PackageManagementSkeleton.World :=
  Eval vm_compute in snd (visits_itself (Direct := demo_direct) demo_clients (demo_manager, demo_files)).

Lemma demo_clients_ok : Forall client_ok demo_clients.
Proof.
  repeat (apply Forall_cons; split; [|]); [..|apply Forall_nil_2]; split_and!; try done;
    try (intros n [= <-]; by split); cbn;
    repeat (apply Forall_cons; split; [split; [by_eval|by vm_compute]|]); apply Forall_nil_2.
Qed.

Lemma clients_are_served_witness :
  ∃ service s',
    @UpdateConfigManager.skeleton demo_parser demo_text demo_xml demo_system (fun _ => false) no_faults true no_activation_faults
      (fun _ => true) true (Some "3"%string) (demo_manager, demo_files) = Ok service ∧
    UpdateConfigManager.address service = NetworkConfiguration.mk "127.0.0.1" 18090 ∧
    visits (UpdateConfigManager.mServer service) single_bytes demo_clients (UpdateConfigManager.socket service) =
      (Ok [1; 0; 1], s') ∧ at_rest s' demo_visited.
Proof.
  destruct (@clients_are_served demo_parser demo_text demo_xml demo_system (fun _ => false) no_faults true no_activation_faults
    (fun _ => true) "3" [("UcmServerEP", "127.0.0.1")%string] [demo_application] "1" [] ("UcmServerEP", "127.0.0.1")%string
    demo_application single_bytes _ demo_clients demo_manager demo_files [1; 0; 1] demo_visited) as [H _].
  - reflexivity.
  - split; (apply Forall_cons; split; [|apply Forall_nil_2]); [by left|by right].
  - reflexivity.
  - reflexivity.
  - reflexivity.
  - vm_compute. reflexivity.
  - by split.
  - exact demo_clients_ok.
  - vm_cast_no_check (eq_refl (Ok [1; 0; 1], demo_visited)).
  - exact H.
Defined.
