(* ===== verification/Logging.v ===== *)
(** * Logging: ara/log

    Streams that collect text, loggers with their level and context, sinks that write to the
    console or append to a file, and the framework that puts them together.  The calendar
    text of a moment is a parameter. *)

From stdpp Require Import pretty.
From S2P Require Import Prelude Texts Doubles Errors.
From Stdlib Require Import SpecFloat Ascii.
#[local] Open Scope Z_scope.

(** [ara/log/common.h:13-22] LogLevel *)
Inductive LogLevel := kOff | kFatal | kError | kWarn | kInfo | kDebug | kVerbose.

#[export] Instance LogLevel_eq_dec : EqDecision LogLevel.
Proof. solve_decision. Defined.

(** The number of a level. *)
Definition level_code (l : LogLevel) : Z :=
  match l with kOff => 0 | kFatal => 1 | kError => 2 | kWarn => 3 | kInfo => 4 | kDebug => 5 | kVerbose => 6 end.

(** [ara/log/common.h:25-30] LogMode *)
Inductive LogMode := kRemote | kFile | kConsole.

(** [ara/log/common.h:33-38] ClientState *)
Inductive ClientState := kUnknown | kNotConnected | kConnected.

(** ** Numbers as texts *)

Definition newline : string := String (Ascii.ascii_of_nat 10) EmptyString.

(** [std::to_string] of a [float]: the exact value rounded to six decimals, ties to even. *)
Definition six_decimals (negative : bool) (m e : Z) : string :=
  let scaled := m * 10 ^ 6 in
  let n :=
    if 0 <=? e then scaled * 2 ^ e
    else
      let d := 2 ^ (- e) in
      let q := scaled / d in
      let r := 2 * (scaled mod d) in
      if (r <? d) || ((r =? d) && Z.even q) then q else q + 1 in
  let fraction := pretty (n mod 10 ^ 6) in
  ((if negative then "-" else "") +:+ pretty (n / 10 ^ 6) +:+ "." +:+
   String.concat "" (repeat "0"%string (6 - String.length fraction)) +:+ fraction)%string.

Definition to_string_float (x : double) : string :=
  match x with
  | S754_zero negative => six_decimals negative 0 0
  | S754_infinity negative => if negative then "-inf" else "inf"
  | S754_nan => "nan"
  | S754_finite negative m e => six_decimals negative (Z.pos m) e
  end.

(** Two hexadecimal digits. *)
Definition hex_char (n : Z) : ascii :=
  Ascii.ascii_of_N (Z.to_N (if n <? 10 then 48 + n else 87 + n)).
Definition hex_byte (b : Z) : string := String (hex_char (b / 16)) (String (hex_char (b mod 16)) EmptyString).

(** [ara/log/argument.h:13-35] Argument of a payload that prints as [payload] *)
Record Argument := mkArgument { mPayload : string; mIdentifier : string; mUnit : string }.

Module LogStream.

(** [ara/log/log_stream.h:17-21] LogStream *)
Record t := mk { mLogs : string }.

Definition empty : t := mk EmptyString.

(** [ara/log/log_stream.cpp:10-13] concat *)
Definition concat (s : t) (log : string) : t := mk (mLogs s +:+ log)%string.

(** [ara/log/log_stream.cpp:15-18] Flush *)
Definition Flush (s : t) : t := empty.

(** [ara/log/log_stream.cpp:20-25] operator<< of a stream *)
Definition put_stream (s value : t) : t := concat s (mLogs value).

(** [ara/log/log_stream.cpp:27-44] operator<< of a boolean *)
Definition put_bool (s : t) (value : bool) : t := concat s (if value then "true" else "false").

(** [ara/log/log_stream.cpp:46-52] operator<< of a byte *)
Definition put_u8 (s : t) (value : Z) : t := concat s (pretty value).

(** [ara/log/log_stream.cpp:54-60] operator<< of an unsigned integer *)
Definition put_u32 (s : t) (value : Z) : t := concat s (pretty value).

(** [ara/log/log_stream.cpp:62-68] operator<< of a float *)
Definition put_float (s : t) (value : double) : t := concat s (to_string_float value).

(** [ara/log/log_stream.cpp:70-75] operator<< of a string *)
Definition put_string (s : t) (value : string) : t := concat s value.

(** [ara/log/log_stream.cpp:77-83] operator<< of a C string: what is before its zero; a null
    pointer makes the string's constructor throw *)
Definition put_c_string (s : t) (value : option string) : outcome t :=
  match value with Some value => mret (concat s value) | None => Throw std_logic_error end.

(** [ara/log/log_stream.cpp:115-121] operator<< of an error code *)
Definition put_error (s : t) (value : ErrorCode) : t := concat s (ErrorCode_Message value).

(** [ara/log/log_stream.cpp:123-129] operator<< of an instance specifier *)
Definition put_instance (s : t) (value : InstanceSpecifier.t) : t := concat s (InstanceSpecifier.ToString value).

(** [ara/log/log_stream.cpp:85-113] operator<< of a level *)
Definition put_level (s : t) (value : LogLevel) : t :=
  concat s
    match value with
    | kOff => "Off" | kFatal => "Fatal" | kError => "Error" | kWarn => "Warning"
    | kInfo => "Info" | kDebug => "Debug" | kVerbose => "Verbose"
    end.

(** [ara/log/log_stream.cpp:131-148] operator<< of bytes *)
Definition put_bytes (s : t) (value : bytes) : t := concat s (String.concat "" (map hex_byte value)).

(** [ara/log/argument.h:41-48] Argument::ToString, and its insertion *)
Definition argument_text (a : Argument) : string := (mIdentifier a +:+ ": " +:+ mPayload a +:+ " " +:+ mUnit a)%string.
Definition put_argument (s : t) (a : Argument) : t := concat s (argument_text a).

(** [ara/log/log_stream.cpp:150-158] WithLocation *)
Definition WithLocation (file : string) (line : Z) (s : t) : t := concat s (file +:+ ":" +:+ pretty line)%string.

(** [ara/log/log_stream.cpp:160-163] ToString *)
Definition ToString (s : t) : string := mLogs s.

End LogStream.

Module Logger.

(** [ara/log/logger.h:11-19] Logger *)
Record t := mk { mContextId : string; mContextDescription : string; mContextDefaultLogLevel : LogLevel }.

(** [ara/log/logger.cpp:15-19] RemoteClientState *)
Definition RemoteClientState (l : t) : ClientState := kNotConnected.

(** [ara/log/logger.cpp:57-62] IsEnabled *)
Definition IsEnabled (logLevel : LogLevel) (l : t) : bool :=
  level_code logLevel <=? level_code (mContextDefaultLogLevel l).

(** [ara/log/logger.cpp:64-77] WithLevel *)
Definition WithLevel (logLevel : LogLevel) (l : t) : LogStream.t :=
  let result := LogStream.empty in
  let put := LogStream.put_string in
  let result := put (put (put result "Context ID:") (mContextId l)) ";" in
  let result := put (put (put result "Context Description:") (mContextDescription l)) ";" in
  put (LogStream.put_level (put result "Log Level:") logLevel) ";".

(** [ara/log/logger.cpp:21-25] LogFatal *)
Definition LogFatal : t → LogStream.t := WithLevel kFatal.
(** [ara/log/logger.cpp:27-31] LogError *)
Definition LogError : t → LogStream.t := WithLevel kError.
(** [ara/log/logger.cpp:33-37] LogWarn *)
Definition LogWarn : t → LogStream.t := WithLevel kWarn.
(** [ara/log/logger.cpp:39-43] LogInfo *)
Definition LogInfo : t → LogStream.t := WithLevel kInfo.
(** [ara/log/logger.cpp:45-49] LogDebug *)
Definition LogDebug : t → LogStream.t := WithLevel kDebug.
(** [ara/log/logger.cpp:51-55] LogVerbose *)
Definition LogVerbose : t → LogStream.t := WithLevel kVerbose.

(** [ara/log/logger.cpp:79-86] CreateLogger *)
Definition CreateLogger (ctxId ctxDescription : string) (ctxDefLogLevel : LogLevel) : t :=
  mk ctxId ctxDescription ctxDefLogLevel.

End Logger.

(** What is written: on the console, and in files. *)
Record World := mkWorld { console : list string; files : gmap string string }.

Module LogSink.

(** [ara/log/sink/log_sink.h:14-17] LogSink *)
Record t := mk { mApplicationId : string; mApplicationDescription : string }.

(** [ara/log/sink/log_sink.cpp:14-25] GetAppstamp *)
Definition GetAppstamp (s : t) : LogStream.t :=
  let result := LogStream.put_string LogStream.empty (mApplicationId s) in
  if (mApplicationDescription s =? "")%string then result
  else LogStream.put_string (LogStream.put_string result " ") (mApplicationDescription s).

(** [ara/log/sink/log_sink.cpp:27-36] GetTimestamp: the text [asctime] makes of the moment *)
Definition GetTimestamp (timestamp : string) : LogStream.t := LogStream.put_string LogStream.empty timestamp.

(** The line both sinks make of a stream. *)
Definition line (timestamp : string) (s : t) (logStream : LogStream.t) : string :=
  let put := LogStream.put_string in
  LogStream.ToString (LogStream.put_stream (put (LogStream.put_stream (put (GetTimestamp timestamp) " ") (GetAppstamp s)) " ")
                        logStream).

End LogSink.

(** A sink of one of the two kinds. *)
Inductive Sink := ConsoleLogSink (s : LogSink.t) | FileLogSink (s : LogSink.t) (mLogFilePath : string).

(** [ara/log/sink/console_log_sink.cpp:9-13] ConsoleLogSink *)
Definition make_console_sink (appId appDescription : string) : Sink := ConsoleLogSink (LogSink.mk appId appDescription).

(** [ara/log/sink/file_log_sink.cpp:9-15] FileLogSink *)
Definition make_file_sink (appId appDescription logFilePath : string) : Sink :=
  FileLogSink (LogSink.mk appId appDescription) logFilePath.

Section Sinks.
(** Which paths can be opened for appending: the empty one cannot. *)
Variable openable : string → bool.

(** [ara/log/sink/file_log_sink.cpp:17-30] FileLogSink::Log: a stream that was not opened
    writes nothing *)
Definition file_Log (timestamp : string) (s : LogSink.t) (mLogFilePath : string) (logStream : LogStream.t) (w : World) : World :=
  if openable mLogFilePath then
    mkWorld (console w)
      (<[mLogFilePath := (default "" (files w !! mLogFilePath) +:+ LogSink.line timestamp s logStream +:+ newline)%string]> (files w))
  else w.

(** [ara/log/sink/console_log_sink.cpp:15-23] ConsoleLogSink::Log, and the choice between
    the two sinks *)
Definition Log_ (timestamp : string) (sink : Sink) (logStream : LogStream.t) (w : World) : World :=
  match sink with
  | ConsoleLogSink s => mkWorld (console w ++ [LogSink.line timestamp s logStream]) (files w)
  | FileLogSink s path => file_Log timestamp s path logStream w
  end.

End Sinks.

Module LoggingFramework.

(** [ara/log/logging_framework.h:16-21] LoggingFramework; [block] changes when the vector
    moves *)
Record t := mk { mLogSink : Sink; mDefaultLogLevel : LogLevel; mLoggers : list Logger.t; block : nat; capacity : nat }.

(** A reference into the vector of loggers. *)
Definition reference : Type := nat * nat.
Definition target (r : reference) (f : t) : option Logger.t := if (r.1 =? block f)%nat then mLoggers f !! r.2 else None.

(** [ara/log/logging_framework.cpp:27-40] CreateLogger with a level; [grow] is the capacity
    the vector takes when it is full *)
Definition CreateLogger (grow : nat → nat) (ctxId ctxDescription : string) (ctxDefLogLevel : LogLevel) (f : t) : reference * t :=
  let logger := Logger.CreateLogger ctxId ctxDescription ctxDefLogLevel in
  let n := length (mLoggers f) in
  let f :=
    if (n <? capacity f)%nat then mk (mLogSink f) (mDefaultLogLevel f) (mLoggers f ++ [logger]) (block f) (capacity f)
    else mk (mLogSink f) (mDefaultLogLevel f) (mLoggers f ++ [logger]) (S (block f)) (grow (capacity f)) in
  ((block f, n), f).

(** [ara/log/logging_framework.cpp:15-25] CreateLogger with the default level *)
Definition CreateDefaultLogger (grow : nat → nat) (ctxId ctxDescription : string) (f : t) : reference * t :=
  CreateLogger grow ctxId ctxDescription (mDefaultLogLevel f) f.

(** [ara/log/logging_framework.cpp:42-55] Log *)
Definition Log (openable : string → bool) (timestamp : string) (logger : Logger.t) (logLevel : LogLevel)
    (logStream : LogStream.t) (f : t) (w : World) : World :=
  if Logger.IsEnabled logLevel logger
  then Log_ openable timestamp (mLogSink f) (LogStream.put_stream (Logger.WithLevel logLevel logger) logStream) w
  else w.

(** [ara/log/logging_framework.cpp:8-13] LoggingFramework *)
Definition construct (logSink : Sink) (logLevel : LogLevel) : t := mk logSink logLevel [] 0 0.

(** [ara/log/logging_framework.cpp:57-83] Create with a mode *)
Definition Create (appId : string) (logMode : LogMode) (logLevel : LogLevel) (appDescription : string) : outcome t :=
  match logMode with
  | kFile => Throw std_invalid_argument
  | kConsole => Ok (construct (make_console_sink appId appDescription) logLevel)
  | kRemote => Throw std_invalid_argument
  end.

(** [ara/log/logging_framework.cpp:85-97] Create with a file *)
Definition CreateFile (appId filePath : string) (logLevel : LogLevel) (appDescription : string) : t :=
  construct (make_file_sink filePath appId appDescription) logLevel.

End LoggingFramework.

Example float_1 : to_string_float (double_of_decimal false 125 (-2)) = "1.250000"%string.
Proof. vm_compute. reflexivity. Qed.
Example float_2 : to_string_float (double_of_binary true 1 (-21)) = "-0.000000"%string.
Proof. vm_compute. reflexivity. Qed.
Example hex_1 : LogStream.put_bytes LogStream.empty [0; 171; 16] = LogStream.mk "00ab10".
Proof. vm_compute. reflexivity. Qed.

(** ** Lemmas *)

(** The bytes a text of pairs of hexadecimal digits stands for. *)
Fixpoint read_hex (s : string) : option bytes :=
  match s with
  | EmptyString => Some []
  | String a (String b s) =>
      match hex_digit a, hex_digit b, read_hex s with
      | Some x, Some y, Some v => Some (16 * x + y :: v)
      | _, _, _ => None
      end
  | String _ EmptyString => None
  end.

Lemma hex_digit_char n : 0 <= n < 16 → hex_digit (hex_char n) = Some n.
Proof.
  intros Hn. assert (Hall : forallb (fun n => bool_decide (hex_digit (hex_char n) = Some n)) (seqZ 0 16) = true)
    by (by vm_compute).
  rewrite forallb_forall in Hall. specialize (Hall n). rewrite bool_decide_eq_true in Hall. apply Hall.
  apply list_elem_of_In, elem_of_seqZ. lia.
Qed.

Lemma read_hex_put_bytes v : is_bytes v → read_hex (LogStream.mLogs (LogStream.put_bytes LogStream.empty v)) = Some v.
Proof.
  unfold LogStream.put_bytes, LogStream.concat, LogStream.empty. cbn [LogStream.mLogs]. change ("" +:+ ?x)%string with x.
  intros Hv. induction Hv as [|b v Hb Hv IH]; [done|]. unfold is_u8 in Hb.
  assert (Hc : String.concat "" (map hex_byte (b :: v)) = (hex_byte b +:+ String.concat "" (map hex_byte v))%string)
    by (by destruct v).
  rewrite Hc. change (hex_byte b +:+ ?x)%string with (String (hex_char (b / 16)) (String (hex_char (b mod 16)) x)).
  cbn [read_hex].
  rewrite !hex_digit_char, IH by (Z.div_mod_to_equations; lia). do 2 f_equal. Z.div_mod_to_equations. lia.
Qed.

(** The context a logger puts in front of a message. *)
Definition context (level : string) (l : Logger.t) : string :=
  ("Context ID:" +:+ Logger.mContextId l +:+ ";Context Description:" +:+ Logger.mContextDescription l +:+
   ";Log Level:" +:+ level +:+ ";")%string.

Definition level_name (l : LogLevel) : string :=
  match l with
  | kOff => "Off" | kFatal => "Fatal" | kError => "Error" | kWarn => "Warning"
  | kInfo => "Info" | kDebug => "Debug" | kVerbose => "Verbose"
  end.

(** What a line says: when, which application, which context, and the message. *)
Definition entry (timestamp app description : string) (l : Logger.t) (level : LogLevel) (message : string) : string :=
  (timestamp +:+ " " +:+ app +:+ (if (description =? "")%string then "" else " " +:+ description) +:+ " " +:+
   context (level_name level) l +:+ message)%string.

Lemma line_entry timestamp app description l level m :
  LogSink.line timestamp (LogSink.mk app description)
    (LogStream.put_stream (Logger.WithLevel level l) (LogStream.mk m)) =
  entry timestamp app description l level m.
Proof.
  unfold LogSink.line, LogSink.GetTimestamp, LogSink.GetAppstamp, Logger.WithLevel, entry, context,
    LogStream.put_stream, LogStream.put_level, LogStream.put_string, LogStream.concat, LogStream.empty, LogStream.ToString.
  cbn [LogStream.mLogs LogSink.mApplicationId LogSink.mApplicationDescription].
  destruct (description =? "")%string; cbn [LogStream.mLogs]; change ("" +:+ ?x)%string with x;
    rewrite !sapp_assoc; by destruct level.
Qed.

(** ** Properties *)

Section Frameworks.
Import LoggingFramework.

(** Several messages, each with its moment, its logger and its level. *)
Definition log_all (openable : string → bool) (f : t) (ms : list (string * Logger.t * LogLevel * string)) (w : World) : World :=
  foldl (fun w '(timestamp, l, level, m) => Log openable timestamp l level (LogStream.mk m) f w) w ms.

(** The messages that are severe enough for their loggers, as lines. *)
Definition enabled_entries (app description : string) (ms : list (string * Logger.t * LogLevel * string)) : list string :=
  omap (fun '(timestamp, l, level, m) =>
    if level_code level <=? level_code (Logger.mContextDefaultLogLevel l)
    then Some (entry timestamp app description l level m) else None) ms.

Fixpoint lines (es : list string) : string :=
  match es with [] => "" | e :: es => (e +:+ newline +:+ lines es)%string end.

Lemma log_all_console openable app description level ms w :
  log_all openable (construct (make_console_sink app description) level) ms w =
    mkWorld (console w ++ enabled_entries app description ms) (files w).
Proof.
  revert w. induction ms as [|[[[ts l] lv] m] ms IH]; intros w; cbn [enabled_entries omap list_omap log_all foldl].
  { rewrite app_nil_r. by destruct w. }
  unfold log_all in IH. rewrite IH. unfold Log, Logger.IsEnabled. fold (enabled_entries app description ms).
  destruct (_ <=? _); [|done]. cbn [Log_ mLogSink construct make_console_sink console files].
  by rewrite line_entry, <- app_assoc.
Qed.

Lemma log_all_file openable app description path level ms w :
  openable path = true →
  files (log_all openable (construct (make_file_sink app description path) level) ms w) =
    match enabled_entries app description ms with
    | [] => files w
    | es => <[path := (default "" (files w !! path) +:+ lines es)%string]> (files w)
    end.
Proof.
  intros Ho. revert w. induction ms as [|[[[ts l] lv] m] ms IH]; intros w; [done|].
  cbn [enabled_entries omap list_omap log_all foldl]. fold (enabled_entries app description ms).
  unfold log_all in IH. rewrite IH. unfold Log, Logger.IsEnabled.
  destruct (_ <=? _); [|done]. cbn [Log_ mLogSink construct make_file_sink]. unfold file_Log. rewrite Ho, line_entry. cbn [files].
  destruct (enabled_entries app description ms) as [|e es]; cbn [lines].
  - by rewrite <- !sapp_assoc, sapp_nil_r.
  - rewrite lookup_insert_eq, insert_insert_eq. cbn [default from_option id]. by rewrite <- !sapp_assoc.
Qed.

End Frameworks.

Lemma log_all_silent openable app description path level ms w :
  openable path = false →
  log_all openable (LoggingFramework.construct (make_file_sink app description path) level) ms w = w.
Proof.
  intros Ho. induction ms as [|[[[ts l] lv] m] ms IH]; [done|]. cbn [log_all foldl]. unfold log_all in IH.
  unfold LoggingFramework.Log at 2. cbn [Log_ LoggingFramework.mLogSink LoggingFramework.construct make_file_sink].
  unfold file_Log. rewrite Ho. by destruct (Logger.IsEnabled lv l).
Qed.

Lemma log_all_file_console openable app description path level ms w :
  console (log_all openable (LoggingFramework.construct (make_file_sink app description path) level) ms w) = console w.
Proof.
  revert w. induction ms as [|[[[ts l] lv] m] ms IH]; intros w; [done|]. cbn [log_all foldl]. unfold log_all in IH. rewrite IH.
  unfold LoggingFramework.Log. cbn [Log_ LoggingFramework.mLogSink LoggingFramework.construct make_file_sink].
  unfold file_Log. destruct (Logger.IsEnabled lv l); [|done]. by destruct (openable path).
Qed.

(** Where messages go.  A framework for the console writes one line for each message
    that is at least as severe as its logger asks for, and no others: the moment, the
    application with its description, the context, the level, the message.  A framework for
    a file writes its lines to the file named by the application's description, with the
    file's path in place of the application and the application in place of its description:
    the file that was asked for is not touched, and with the default description, which
    names no file, all messages are lost. *)
Theorem log_destinations openable app path description level ms w :
  (∃ f, LoggingFramework.Create app kConsole level description = Ok f ∧
     log_all openable f ms w = mkWorld (console w ++ enabled_entries app description ms) (files w)) ∧
  (let w' := log_all openable (LoggingFramework.CreateFile app path level description) ms w in
   console w' = console w ∧
   files w' =
     if openable description then
       match enabled_entries path app ms with
       | [] => files w
       | es => <[description := (default "" (files w !! description) +:+ lines es)%string]> (files w)
       end
     else files w).
Proof.
  split.
  - eexists. split; [done|]. apply log_all_console.
  - cbv zeta. split; [apply log_all_file_console|]. unfold LoggingFramework.CreateFile.
    destruct (openable description) eqn:Ho; [by apply log_all_file|]. by rewrite log_all_silent.
Qed.

(** Bytes that are logged can be read back from the text. *)
Theorem logged_bytes_are_readable v :
  is_bytes v → read_hex (LogStream.mLogs (LogStream.put_bytes LogStream.empty v)) = Some v.
Proof. apply read_hex_put_bytes. Qed.
