(* ===== verification/Deterministic.v ===== *)
(** * Deterministic client: ara/exec/deterministic_client.cpp, helper/atomic_optional.h,
    worker_thread.cpp

    The clients of a process share a counter, a thread that activates the cycles and a
    generator of random numbers.  Constructors, destructors and the cycle thread are
    program counters whose atomic steps interleave.  The engine and the distributions of
    <random> are parameters: the standard leaves both to the implementation. *)

From S2P Require Import Prelude.
#[local] Open Scope Z_scope.

(** ** A value that may be there *)
Module AtomicOptional.

(** [ara/exec/helper/atomic_optional.h:19-28] AtomicOptional *)
Record t := mk { mValue : option Z; mHasValue : bool }.

Definition construct : t := mk None false.

(** [ara/exec/helper/atomic_optional.h:40-46] operator=: the value is stored first *)
Definition store_value (value : Z) (o : t) : t := mk (Some value) (mHasValue o).
Definition store_flag (o : t) : t := mk (mValue o) true.
Definition assign (value : Z) (o : t) : t := store_flag (store_value value o).

(** [ara/exec/helper/atomic_optional.h:49-52] Reset *)
Definition Reset (o : t) : t := mk (mValue o) false.

(** [ara/exec/helper/atomic_optional.h:56-59] HasValue *)
Definition HasValue (o : t) : bool := mHasValue o.

(** [ara/exec/helper/atomic_optional.h:64-74] Value *)
Definition Value (o : t) : outcome Z :=
  if mHasValue o then match mValue o with Some v => Ok v | None => Undefined end else Throw std_runtime_error.

End AtomicOptional.

(** What the code uses of <random>: an engine with its seeding, and a uniform distribution
    over all 64-bit numbers drawing from it. *)
Class Random := {
  engine : Type;
  default_engine : engine;
  seeded : Z → engine;
  draw_u64 : engine → Z * engine;
  draw_step : engine → Z * engine
}.

(** ** The clients and their cycle thread *)
Module DeterministicClient.

(** Where the cycle thread is. *)
Inductive cycle_pc := AtWhile | AtSeed | AtReset | AtDraw | Sleeping | Finished.

#[global] Instance cycle_pc_eq_dec : EqDecision cycle_pc.
Proof. solve_decision. Defined.

(** Where a client's owner is: there is no client, in its constructor after the increment,
    in the assignment of the future that waits for an older cycle thread, the client is
    alive, in its destructor waiting for the cycle thread, or before the decrement. *)
Inductive client_pc := Absent | Incremented | Assigning (old : nat) | Alive | Joining | Leaving.

#[global] Instance client_pc_eq_dec : EqDecision client_pc.
Proof. solve_decision. Defined.

Section DeterministicClient.
Context `{Random}.

(** [ara/exec/deterministic_client.h:36-36] cCycleDelayMs, in nanoseconds *)
Definition cCycleDelay : Z := 10 * 1000000.

(** [ara/exec/deterministic_client.h:38-49] DeterministicClient: the static members, all cycle
    threads that were started, and the clients *)
Record t := mk {
  mCounter : Z;
  mFuture : option nat;
  mRunning : bool;
  mGenerator : engine;
  mSeed : AtomicOptional.t;
  mRandomNumber : Z;
  mActivationTime : Z;
  cycles : list cycle_pc;
  clients : list client_pc;
  notified : nat
}.

(** The static members before the first client. *)
Definition initial (n : nat) : t :=
  mk 0 None false default_engine AtomicOptional.construct 0 0 [] (replicate n Absent) 0.

Definition set_client (i : nat) (p : client_pc) (s : t) : t :=
  mk (mCounter s) (mFuture s) (mRunning s) (mGenerator s) (mSeed s) (mRandomNumber s) (mActivationTime s)
     (cycles s) (<[i := p]> (clients s)) (notified s).
Definition set_counter (c : Z) (s : t) : t :=
  mk c (mFuture s) (mRunning s) (mGenerator s) (mSeed s) (mRandomNumber s) (mActivationTime s)
     (cycles s) (clients s) (notified s).
Definition set_running (b : bool) (s : t) : t :=
  mk (mCounter s) (mFuture s) b (mGenerator s) (mSeed s) (mRandomNumber s) (mActivationTime s)
     (cycles s) (clients s) (notified s).
Definition set_future (f : option nat) (s : t) : t :=
  mk (mCounter s) f (mRunning s) (mGenerator s) (mSeed s) (mRandomNumber s) (mActivationTime s)
     (cycles s) (clients s) (notified s).
Definition set_cycle (j : nat) (p : cycle_pc) (s : t) : t :=
  mk (mCounter s) (mFuture s) (mRunning s) (mGenerator s) (mSeed s) (mRandomNumber s) (mActivationTime s)
     (<[j := p]> (cycles s)) (clients s) (notified s).
Definition set_seed (o : AtomicOptional.t) (s : t) : t :=
  mk (mCounter s) (mFuture s) (mRunning s) (mGenerator s) o (mRandomNumber s) (mActivationTime s)
     (cycles s) (clients s) (notified s).
Definition set_generator (g : engine) (s : t) : t :=
  mk (mCounter s) (mFuture s) (mRunning s) g (mSeed s) (mRandomNumber s) (mActivationTime s)
     (cycles s) (clients s) (notified s).

Definition is_finished (s : t) (j : nat) : bool :=
  match cycles s !! j with Some Finished => true | _ => false end.

(** [ara/exec/deterministic_client.cpp:21-34] DeterministicClient: its two halves, the increment
    and the test; assigning the new future waits for the thread of the old one *)
Definition increment (i : nat) (s : t) : t := set_client i Incremented (set_counter (u8 (mCounter s + 1)) s).
Definition test_first (i : nat) (s : t) : t :=
  if mCounter s =? 1 then
    let j := length (cycles s) in
    let started := mk (mCounter s) (Some j) true (mGenerator s) (mSeed s) (mRandomNumber s) (mActivationTime s)
                      (cycles s ++ [AtWhile]) (clients s) (notified s) in
    match mFuture s with
    | Some old => set_client i (if is_finished s old then Alive else Assigning old) started
    | None => set_client i Alive started
    end
  else set_client i Alive s.

(** [ara/exec/deterministic_client.cpp:92-104] ~DeterministicClient: the test, the wait for the
    cycle thread, the decrement *)
Definition test_last (i : nat) (s : t) : t :=
  if mCounter s =? 1 then set_client i Joining (set_running false s) else set_client i Leaving s.
Definition decrement (i : nat) (s : t) : t := set_client i Absent (set_counter (u8 (mCounter s - 1)) s).

(** [ara/exec/deterministic_client.cpp:36-55] activateCycle: one step of cycle thread [j] at time
    [now]; [None] is a thread that has ended *)
Definition activateCycle (j : nat) (now : Z) (s : t) : option (outcome t) :=
  match cycles s !! j with
  | None | Some Finished => None
  | Some AtWhile => Some (Ok (set_cycle j (if mRunning s then (if AtomicOptional.HasValue (mSeed s) then AtSeed else AtDraw) else Finished) s))
  | Some AtSeed =>
      Some (match AtomicOptional.Value (mSeed s) with
            | Ok seed => Ok (set_cycle j AtReset (set_generator (seeded seed) s))
            | Throw _ => Ok (set_cycle j Finished s)
            | Undefined => Undefined
            | OutOfFuel => OutOfFuel
            end)
  | Some AtReset => Some (Ok (set_cycle j AtDraw (set_seed (AtomicOptional.Reset (mSeed s)) s)))
  | Some AtDraw =>
      let '(number, generator) := draw_u64 (mGenerator s) in
      Some (Ok (set_cycle j Sleeping
        (mk (mCounter s) (mFuture s) (mRunning s) generator (mSeed s) number now (cycles s) (clients s) (S (notified s)))))
  | Some Sleeping => Some (Ok (set_cycle j AtWhile s))
  end.

(** [ara/exec/deterministic_client.cpp:66-69] GetRandom *)
Definition GetRandom (s : t) : Z := mRandomNumber s.

(** [ara/exec/deterministic_client.cpp:71-74] SetRandomSeed *)
Definition SetRandomSeed (seed : Z) (s : t) : t := set_seed (AtomicOptional.assign seed (mSeed s)) s.

(** [ara/exec/deterministic_client.cpp:76-80] GetActivationTime *)
Definition GetActivationTime (s : t) : Z := mActivationTime s.

(** [ara/exec/deterministic_client.cpp:82-90] GetNextActivationTime *)
Definition GetNextActivationTime (s : t) : Z := mActivationTime s + cCycleDelay.

(** [ara/exec/deterministic_client.h:19-26] ActivationReturnType *)
Inductive ActivationReturnType := kRegisterService | kServiceDiscovery | kInit | kRun | kTerminate.

(** [ara/exec/deterministic_client.cpp:57-64] WaitForActivation: it returns when a cycle was
    activated since it began (spurious wake-ups are left out), and always says the same *)
Definition WaitForActivation (before s : t) : option ActivationReturnType :=
  if (notified before <? notified s)%nat then Some kRun else None.

(** ** Runs: steps of owners of clients and of cycle threads *)
Inductive step :=
  | New (i : nat)
  | Go (i : nat)
  | Delete (i : nat)
  | Cycle (j : nat) (now : Z)
  | Seed (seed : Z).

(** A step that is possible: [New] starts a constructor, [Delete] a destructor, [Go] goes on
    with either; waiting threads go on when the cycle thread they wait for has ended. *)
Definition run_step (x : step) (s : t) : option (outcome t) :=
  match x with
  | New i => match clients s !! i with Some Absent => Some (Ok (increment i s)) | _ => None end
  | Delete i => match clients s !! i with Some Alive => Some (Ok (test_last i s)) | _ => None end
  | Go i =>
      match clients s !! i with
      | Some Incremented => Some (Ok (test_first i s))
      | Some (Assigning old) => if is_finished s old then Some (Ok (set_client i Alive s)) else None
      | Some Joining =>
          match mFuture s with
          | Some j => if is_finished s j then Some (Ok (set_client i Leaving (set_future None s))) else None
          | None => Some Undefined
          end
      | Some Leaving => Some (Ok (decrement i s))
      | _ => None
      end
  | Cycle j now => activateCycle j now s
  | Seed seed => Some (Ok (SetRandomSeed seed s))
  end.

(** A run: steps that are not possible do not happen. *)
Fixpoint run (xs : list step) (s : t) : outcome t :=
  match xs with
  | [] => Ok s
  | x :: xs => match run_step x s with Some o => s ← o; run xs s | None => run xs s end
  end.

End DeterministicClient.
End DeterministicClient.

(** ** Random numbers for the elements of a container *)
Module WorkerThread.
Section WorkerThread.
Context `{Random}.

(** [ara/exec/worker_thread.h:22-22] cOffsetStep *)
Definition cOffsetStep : Z := 6.

(** The offset, shared by all threads, and the engine of this thread. *)
Record t := mk { mOffset : Z; mGenerator : engine }.

(** [ara/exec/worker_thread.cpp:12-20] GetRandom *)
Definition GetRandom (s : t) : Z * t :=
  let '(randomNumber, generator) := draw_step (mGenerator s) in
  let result := u64 (mOffset s + randomNumber) in
  (result, mk (u64 (mOffset s + cOffsetStep)) generator).

(** The two accesses to the offset, when other threads run in between. *)
Definition read_offset (offset randomNumber : Z) : Z := u64 (offset + randomNumber).
Definition add_offset (offset : Z) : Z := u64 (offset + cOffsetStep).

Fixpoint numbers (n : nat) (s : t) : list Z :=
  match n with O => [] | S n => let '(r, s) := GetRandom s in r :: numbers n s end.

(** [ara/exec/deterministic_client.h:68-84] RunWorkerPool: each element is copied before it is
    processed *)
Fixpoint RunWorkerPool {V} (Run : V → t → V * t) (container : list V) (s : t) : list V * t :=
  match container with
  | [] => ([], s)
  | element :: container =>
      let '(_, s) := Run element s in
      let '(container, s) := RunWorkerPool Run container s in
      (element :: container, s)
  end.

End WorkerThread.
End WorkerThread.

(** ** Lemmas *)
Module DeterministicFacts.
Import DeterministicClient.
Section Facts.
Context `{Random}.

(** What one thread of control does with clients one after the other. *)
Inductive op := Construct (i : nat) | Destroy (i : nat) (now : Z) | Activate (now : Z) | Reseed (seed : Z).

(** The steps of an operation: a destructor that waits lets the cycle thread finish. *)
Definition steps (s : t) (o : op) : list step :=
  let cycle now := match mFuture s with Some j => [Cycle j now] | None => [] end in
  match o with
  | Construct i => [New i; Go i]
  | Destroy i now => [Delete i] ++ concat (repeat (cycle now) 5) ++ [Go i; Go i]
  | Activate now => cycle now
  | Reseed seed => [Seed seed]
  end.

Fixpoint run_ops (os : list op) (s : t) : outcome t :=
  match os with
  | [] => Ok s
  | o :: os => s ← run (steps s o) s; run_ops os s
  end.

Definition is_alive (p : client_pc) : bool := match p with Alive => true | _ => false end.
Definition alive (s : t) : nat := length (List.filter is_alive (clients s)).
Definition unfinished (s : t) : nat :=
  length (List.filter (fun p => match p with Finished => false | _ => true end) (cycles s)).

(** A flag that is set has a value with it. *)
Definition seed_ok (s : t) : Prop :=
  AtomicOptional.mHasValue (mSeed s) = true → is_Some (AtomicOptional.mValue (mSeed s)).

(** Between operations: no client is half made, the counter counts them, and while there
    are any the last cycle thread runs; all others have ended. *)
Record inv (s : t) : Prop := {
  settled : Forall (fun p => p = Absent ∨ p = Alive) (clients s);
  counted : mCounter s = Z.of_nat (alive s);
  in_range : (alive s <= 255)%nat;
  has_seed : seed_ok s;
  cycle_thread :
    if (alive s =? 0)%nat then mFuture s = None ∧ Forall (eq Finished) (cycles s)
    else mRunning s = true ∧
      ∃ old p, cycles s = old ++ [p] ∧ mFuture s = Some (length old) ∧ Forall (eq Finished) old ∧ p ≠ Finished ∧
        (p = AtSeed → AtomicOptional.mHasValue (mSeed s) = true)
}.

Lemma alive_set i p q (l : list client_pc) :
  l !! i = Some p →
  (length (List.filter is_alive (<[i := q]> l)) + (if is_alive p then 1 else 0) =
   length (List.filter is_alive l) + (if is_alive q then 1 else 0))%nat.
Proof.
  revert i. induction l as [|x l IH]; intros [|i] Hi; simplify_eq/=.
  - destruct (is_alive p) eqn:Ep, (is_alive q) eqn:Eq; cbn; lia.
  - specialize (IH i Hi). destruct (is_alive x); cbn; lia.
Qed.

Lemma Forall_set i q (l : list client_pc) :
  Forall (fun p => p = Absent ∨ p = Alive) l → q = Absent ∨ q = Alive →
  Forall (fun p => p = Absent ∨ p = Alive) (<[i := q]> l).
Proof. intros Hl Hq. by apply Forall_insert. Qed.

(** The cycle threads: only the last one may still run. *)
Record cyc (s : t) (old : list cycle_pc) (p : cycle_pc) : Prop := {
  threads : cycles s = old ++ [p];
  future : mFuture s = Some (length old);
  ended : Forall (eq Finished) old;
  seed_there : p = AtSeed → AtomicOptional.mHasValue (mSeed s) = true;
  seed_value : seed_ok s
}.

(** What a step of the cycle thread leaves alone. *)
Definition same_clients (s s' : t) : Prop :=
  clients s' = clients s ∧ mCounter s' = mCounter s ∧ mRunning s' = mRunning s.

(** How many steps a cycle thread takes to its end, once it is told to stop. *)
Definition to_end (p : cycle_pc) : nat :=
  match p with Finished => 0 | AtWhile => 1 | Sleeping => 2 | AtDraw => 3 | AtReset => 4 | AtSeed => 5 end.

(** How many steps it takes at most to the next activation. *)
Definition to_draw (p : cycle_pc) : nat :=
  match p with AtDraw => 0 | AtReset => 1 | AtSeed => 2 | AtWhile => 3 | Sleeping => 4 | Finished => 0 end.

Lemma set_cycle_cyc s old p q :
  cyc s old p → (q = AtSeed → AtomicOptional.mHasValue (mSeed s) = true) → cyc (set_cycle (length old) q s) old q.
Proof.
  intros [H1 H2 H3 H4 H5] Hq. split; try done. cbn. rewrite H1.
  rewrite insert_app_r_alt by lia. by rewrite Nat.sub_diag.
Qed.

Lemma cycle_step s old p now :
  cyc s old p → p ≠ Finished →
  ∃ s' q, activateCycle (length old) now s = Some (Ok s') ∧ cyc s' old q ∧ same_clients s s' ∧
    (if mRunning s then q ≠ Finished ∧ (p ≠ AtDraw → notified s' = notified s ∧ (to_draw q < to_draw p)%nat)
     else to_end q = pred (to_end p)) ∧
    (p = AtDraw → notified s' = S (notified s)).
Proof.
  intros Hc Hp. pose proof Hc as [H1 H2 H3 H4 H5]. unfold activateCycle.
  assert (Hl : cycles s !! length old = Some p) by (rewrite H1; by apply list_lookup_middle).
  rewrite Hl. destruct p; try done.
  - unfold AtomicOptional.HasValue. destruct (mRunning s) eqn:Hr.
    + destruct (AtomicOptional.mHasValue (mSeed s)) eqn:Hs; eexists _, _; (split; [done|]); (split; [by eapply set_cycle_cyc|]);
        (split; [done|]); (split; [|done]); (split; [done|]); intros _; (split; [done|cbn; lia]).
    + eexists _, _. split; [done|]. split; [by eapply set_cycle_cyc|]. done.
  - unfold AtomicOptional.Value. rewrite H4 by done. destruct (H5 (H4 eq_refl)) as [v Hv]. rewrite Hv.
    eexists _, AtReset. split; [done|]. split; [|split; [done|]].
    { assert (cyc (set_generator (seeded v) s) old AtSeed) as Hg by (by split). by apply (set_cycle_cyc _ _ _ _ Hg). }
    cbn. split; [|done]. destruct (mRunning s); [|done]. split; [done|]. intros _. split; [done|lia].
  - eexists _, AtDraw. split; [done|]. split; [|split; [done|]].
    { assert (cyc (set_seed (AtomicOptional.Reset (mSeed s)) s) old AtReset) as Hg by (by split). by apply (set_cycle_cyc _ _ _ _ Hg). }
    cbn. split; [|done]. destruct (mRunning s); [|done]. split; [done|]. intros _. split; [done|lia].
  - destruct (draw_u64 (mGenerator s)) as [number generator]. eexists _, Sleeping. split; [done|]. split; [|split; [done|]].
    { eapply (set_cycle_cyc _ _ AtDraw); [|done]. by split. }
    cbn. split; [|done]. by destruct (mRunning s).
  - eexists _, AtWhile. split; [done|]. split; [by eapply set_cycle_cyc|]. split; [done|].
    cbn. split; [|done]. destruct (mRunning s); [|done]. split; [done|]. intros _. split; [done|lia].
Qed.

Lemma run_app xs ys s : run (xs ++ ys) s = (s' ← run xs s; run ys s').
Proof.
  revert s. induction xs as [|x xs IH]; intros s; [done|]. cbn [run app]. destruct (run_step x s) as [[s1| | |]|]; try done.
  all: cbn [mbind outcome_bind]; apply IH.
Qed.

Lemma concat_singletons {A} (x : A) n : concat (repeat [x] n) = repeat x n.
Proof. induction n as [|n IH]; [done|]. cbn. by rewrite IH. Qed.

(** A cycle thread that was told to stop ends. *)
Lemma cycles_stop n s old p now :
  cyc s old p → mRunning s = false → (to_end p <= n)%nat →
  ∃ s', run (repeat (Cycle (length old) now) n) s = Ok s' ∧ cyc s' old Finished ∧ same_clients s s'.
Proof.
  revert s p. induction n as [|n IH]; intros s p Hc Hr Hn; cbn [repeat run].
  { destruct p; cbn in Hn; try lia. exists s. split; [done|]. by split. }
  cbn [run_step]. destruct (decide (p = Finished)) as [->|Hp].
  { unfold activateCycle. rewrite (threads _ _ _ Hc), list_lookup_middle by done. apply (IH s Finished Hc Hr). cbn. lia. }
  destruct (cycle_step s old p now Hc Hp) as (s1 & q & Hs1 & Hc1 & (Hsc1 & Hsc2 & Hsc3) & Hq & _). rewrite Hr in Hq.
  rewrite Hs1, Ok_bind. destruct (IH s1 q Hc1) as (s' & Hs' & Hc' & (H1 & H2 & H3)); [congruence|lia|].
  exists s'. split; [done|]. split; [done|]. split; [congruence|]. split; congruence.
Qed.

(** A cycle thread that runs goes on. *)
Lemma cycles_go n s old p now :
  cyc s old p → mRunning s = true → p ≠ Finished →
  ∃ s' q, run (repeat (Cycle (length old) now) n) s = Ok s' ∧ cyc s' old q ∧ q ≠ Finished ∧ same_clients s s' ∧
    (notified s <= notified s')%nat ∧ ((to_draw p < n)%nat → (notified s < notified s')%nat).
Proof.
  revert s p. induction n as [|n IH]; intros s p Hc Hr Hp; cbn [repeat run].
  { exists s, p. split; [done|]. split; [done|]. split; [done|]. split; [done|]. split; [done|lia]. }
  cbn [run_step]. destruct (cycle_step s old p now Hc Hp) as (s1 & q & Hs1 & Hc1 & (Hsc1 & Hsc2 & Hsc3) & Hq & Hd).
  rewrite Hr in Hq. destruct Hq as [Hq Hn]. rewrite Hs1, Ok_bind.
  destruct (IH s1 q Hc1) as (s' & q' & Hs' & Hc' & Hq' & (H1 & H2 & H3) & Hle & Hlt); [congruence|done|].
  exists s', q'. split; [done|]. split; [done|]. split; [done|]. split; [split; [congruence|]; split; congruence|].
  destruct (decide (p = AtDraw)) as [->|Hne].
  - specialize (Hd eq_refl). split; [lia|]. intros _. lia.
  - destruct (Hn Hne) as [He Hl]. split; [lia|]. intros Hlt'. specialize (Hlt ltac:(lia)). lia.
Qed.

Lemma inv_cyc s :
  inv s → alive s ≠ 0%nat → ∃ old p, cyc s old p ∧ p ≠ Finished ∧ mRunning s = true.
Proof.
  intros [_ _ _ Hseed Hc] Ha. rewrite (proj2 (Nat.eqb_neq _ _)) in Hc by done.
  destruct Hc as (Hr & old & p & H1 & H2 & H3 & H4 & H5). by exists old, p.
Qed.

(** The invariant from the pieces an operation gives. *)
Lemma inv_running s old p :
  Forall (fun p => p = Absent ∨ p = Alive) (clients s) → mCounter s = Z.of_nat (alive s) → (0 < alive s <= 255)%nat →
  cyc s old p → p ≠ Finished → mRunning s = true → inv s.
Proof.
  intros H1 H2 [H3 H4] [C1 C2 C3 C4 C5] Hp Hr. split; try done.
  rewrite (proj2 (Nat.eqb_neq _ _)) by lia. split; [done|]. by exists old, p.
Qed.

Lemma construct_keeps i s :
  inv s → (alive s < 255)%nat → ∃ s', run [New i; Go i] s = Ok s' ∧ inv s'.
Proof.
  intros Hinv Ha. pose proof Hinv as [Hs Hc Hr Hseed Hcyc]. cbn [run run_step].
  destruct (clients s !! i) as [p|] eqn:Hi; [|by exists s].
  destruct (proj1 (Forall_lookup _ _) Hs i p Hi) as [-> | ->]; [|by exists s].
  rewrite Ok_bind. pose proof (lookup_lt_Some _ _ _ Hi) as Hlt.
  assert (Hi1 : clients (increment i s) !! i = Some Incremented) by (cbn; by apply list_lookup_insert_eq).
  rewrite Hi1, Ok_bind. eexists. split; [done|]. pose proof (alive_set i Absent Alive (clients s) Hi) as Hal. cbn in Hal.
  assert (Hclients : Forall (λ p, p = Absent ∨ p = Alive) (<[i:=Alive]> (<[i:=Incremented]> (clients s)))).
  { rewrite list_insert_insert_eq. by apply Forall_set; [|right]. }
  unfold test_first. cbn [increment mCounter set_client set_counter mFuture cycles]. rewrite Hc.
  destruct (Nat.eq_dec (alive s) 0) as [E|E].
  - rewrite E in *. change (u8 (Z.of_nat 0 + 1) =? 1) with true. cbv iota. cbn in Hcyc. destruct Hcyc as [Hf Hcs]. rewrite Hf.
    eapply (inv_running _ (cycles s) AtWhile); unfold alive in *; cbn; rewrite ?list_insert_insert_eq in *; try done; try ulia.
  - destruct (inv_cyc s Hinv E) as (old & p & Hcy & Hp & Hrun).
    replace (u8 (Z.of_nat (alive s) + 1) =? 1) with false by (symmetry; apply Z.eqb_neq; ulia).
    eapply (inv_running _ old p); unfold alive in *; cbn; rewrite ?list_insert_insert_eq in *; try done; try ulia.
    destruct Hcy. by split.
Qed.

Lemma cycles_keep s now n :
  inv s → alive s ≠ 0%nat →
  ∃ s', run (concat (repeat (match mFuture s with Some j => [Cycle j now] | None => [] end) n)) s = Ok s' ∧ inv s' ∧
    clients s' = clients s ∧ (notified s <= notified s')%nat ∧ ((4 < n)%nat → (notified s < notified s')%nat).
Proof.
  intros Hinv Ha. destruct (inv_cyc s Hinv Ha) as (old & p & Hcy & Hp & Hrun). rewrite (future _ _ _ Hcy), concat_singletons.
  destruct (cycles_go n s old p now Hcy Hrun Hp) as (s' & q & Hs' & Hc' & Hq & (H1 & H2 & H3) & Hle & Hlt).
  exists s'. split; [done|]. destruct Hinv as [I1 I2 I3 _ _]. split; [|split; [done|]; split; [done|]].
  - apply (inv_running s' old q); unfold alive in *; rewrite ?H1, ?H2, ?H3; try done. lia.
  - intros Hn. apply Hlt. destruct p; cbn; lia.
Qed.

(** A destructor whose client is not there, or is not alive. *)
Lemma destroy_nothing i s :
  Forall (fun p => p = Absent ∨ p = Alive) (clients s) → clients s !! i ≠ Some Alive →
  run [Delete i] s = Ok s ∧ run [Go i; Go i] s = Ok s.
Proof.
  intros Hs Hi. cbn [run run_step]. destruct (clients s !! i) as [p|] eqn:E; [|done].
  by destruct (proj1 (Forall_lookup _ _) Hs i p E) as [-> | ->].
Qed.

Lemma destroy_last i s now :
  inv s → clients s !! i = Some Alive → alive s = 1%nat →
  ∃ s', run (steps s (Destroy i now)) s = Ok s' ∧ inv s'.
Proof.
  intros Hinv Hi Ha. destruct (inv_cyc s Hinv ltac:(lia)) as (old & p & Hcy & Hp & Hrun). pose proof Hinv as [I1 I2 I3 I4 _].
  pose proof (lookup_lt_Some _ _ _ Hi) as Hlt. pose proof (alive_set i Alive Absent (clients s) Hi) as Hal.
  unfold steps. rewrite (future _ _ _ Hcy), concat_singletons, run_app.
  cbn [run run_step]. rewrite Hi, !Ok_bind, run_app.
  unfold test_last. rewrite I2, Ha. change (Z.of_nat 1 =? 1) with true. cbv iota.
  set (s1 := set_client i Joining (set_running false s)).
  assert (Hc1 : cyc s1 old p) by (destruct Hcy; by split).
  destruct (cycles_stop 5 s1 old p now Hc1 eq_refl) as (s2 & Hs2 & Hc2 & H1 & H2 & H3); [destruct p; cbn; lia|].
  rewrite Hs2, Ok_bind.
  assert (Hi2 : clients s2 !! i = Some Joining) by (rewrite H1; by apply list_lookup_insert_eq).
  cbn [run run_step]. rewrite Hi2, (future _ _ _ Hc2).
  assert (Hfin : is_finished s2 (length old) = true).
  { unfold is_finished. by rewrite (threads _ _ _ Hc2), list_lookup_middle. }
  rewrite Hfin, Ok_bind.
  assert (Hi3 : clients (set_client i Leaving (set_future None s2)) !! i = Some Leaving).
  { apply list_lookup_insert_eq. change (clients (set_future None s2)) with (clients s2). rewrite H1. cbn. by rewrite length_insert. }
  rewrite Hi3, Ok_bind. eexists. split; [done|].
  assert (Hcl : clients (decrement i (set_client i Leaving (set_future None s2))) = <[i := Absent]> (clients s)).
  { cbn. rewrite H1. cbn. by rewrite !list_insert_insert_eq. }
  assert (Hal0 : alive (decrement i (set_client i Leaving (set_future None s2))) = 0%nat).
  { unfold alive in *. rewrite Hcl. cbn in Hal. lia. }
  split; rewrite ?Hal0, ?Hcl; [by apply Forall_set; [|left]|cbn; rewrite H2; cbn; rewrite I2, Ha; done|lia|apply Hc2|].
  cbn. split; [done|]. rewrite (threads _ _ _ Hc2). apply Forall_app. split; [apply Hc2|by apply Forall_singleton].
Qed.

Lemma destroy_other i s now :
  inv s → clients s !! i = Some Alive → (2 <= alive s)%nat →
  ∃ s', run (steps s (Destroy i now)) s = Ok s' ∧ inv s'.
Proof.
  intros Hinv Hi Ha. destruct (inv_cyc s Hinv ltac:(lia)) as (old & p & Hcy & Hp & Hrun). pose proof Hinv as [I1 I2 I3 I4 _].
  pose proof (lookup_lt_Some _ _ _ Hi) as Hlt. pose proof (alive_set i Alive Absent (clients s) Hi) as Hal. cbn in Hal.
  unfold steps. rewrite (future _ _ _ Hcy), concat_singletons, run_app.
  cbn [run run_step]. rewrite Hi, !Ok_bind, run_app.
  unfold test_last. replace (mCounter s =? 1) with false by (symmetry; apply Z.eqb_neq; lia).
  set (s1 := set_client i Leaving s).
  assert (Hc1 : cyc s1 old p) by (destruct Hcy; by split).
  destruct (cycles_go 5 s1 old p now Hc1 Hrun Hp) as (s2 & q & Hs2 & Hc2 & Hq & (H1 & H2 & H3) & _).
  rewrite Hs2, Ok_bind.
  assert (Hi2 : clients s2 !! i = Some Leaving) by (rewrite H1; by apply list_lookup_insert_eq).
  cbn [run run_step]. rewrite Hi2, Ok_bind.
  assert (Hcl : clients (decrement i s2) = <[i := Absent]> (clients s)).
  { cbn. rewrite H1. cbn. by rewrite list_insert_insert_eq. }
  rewrite Hcl, list_lookup_insert_eq by done. eexists. split; [done|].
  apply (inv_running _ old q); unfold alive in *; rewrite ?Hcl.
  - by apply Forall_set; [|left].
  - cbn. rewrite H2. cbn. rewrite I2. ulia.
  - lia.
  - destruct Hc2. by split.
  - done.
  - cbn. rewrite H3. done.
Qed.

Lemma op_keeps o s :
  inv s → (∀ i, o = Construct i → (alive s < 255)%nat) → ∃ s', run (steps s o) s = Ok s' ∧ inv s'.
Proof.
  intros Hinv Ho. destruct o as [i|i now|now|seed].
  - apply construct_keeps; [done|by eapply Ho].
  - destruct (decide (clients s !! i = Some Alive)) as [Hi|Hi].
    + pose proof (alive_set i Alive Absent (clients s) Hi) as Hal. cbn in Hal. unfold alive in *.
      destruct (Nat.eq_dec (length (List.filter is_alive (clients s))) 1) as [E|E];
        [by apply destroy_last|apply destroy_other; [done..|unfold alive; lia]].
    + destruct (destroy_nothing i s (settled _ Hinv) Hi) as [H1 _]. unfold steps. rewrite run_app, H1, Ok_bind, run_app.
      destruct (Nat.eq_dec (alive s) 0) as [E|E].
      * pose proof (cycle_thread _ Hinv) as Hc. rewrite E in Hc. cbn in Hc. destruct Hc as [-> _]. cbn [repeat concat].
        exists s. split; [|done]. cbn [concat app repeat run mbind outcome_bind]. by apply destroy_nothing; [apply Hinv|].
      * destruct (cycles_keep s now 5 Hinv E) as (s1 & Hs1 & Hinv1 & Hcl & _). rewrite Hs1, Ok_bind.
        exists s1. split; [|done]. apply destroy_nothing; [apply Hinv1|by rewrite Hcl].
  - destruct (Nat.eq_dec (alive s) 0) as [E|E].
    + pose proof (cycle_thread _ Hinv) as Hc. rewrite E in Hc. cbn in Hc. destruct Hc as [Hf _]. cbn [steps]. rewrite Hf. by exists s.
    + destruct (cycles_keep s now 1 Hinv E) as (s1 & Hs1 & Hinv1 & _). cbn [repeat concat] in Hs1. rewrite app_nil_r in Hs1. by exists s1.
  - eexists. split; [done|]. destruct Hinv as [I1 I2 I3 I4 I5]. split; try done; [by eexists|].
    change (alive (SetRandomSeed seed s)) with (alive s). destruct (alive s =? 0)%nat; [done|].
    destruct I5 as (Hr & old & p & H1 & H2 & H3 & H4 & H5). split; [done|]. exists old, p. by repeat split.
Qed.

(** Operations that keep the number of clients small enough for its counter. *)
Fixpoint few (os : list op) (s : t) : bool :=
  match os with
  | [] => true
  | o :: os => match o with Construct _ => (alive s <? 255)%nat | _ => true end &&
               match run (steps s o) s with Ok s' => few os s' | _ => true end
  end.

Lemma run_ops_inv os s : inv s → few os s = true → ∃ s', run_ops os s = Ok s' ∧ inv s'.
Proof.
  revert s. induction os as [|o os IH]; intros s Hinv Hf; [by exists s|].
  cbn [few] in Hf. apply andb_prop in Hf as [Ho Hf].
  destruct (op_keeps o s Hinv) as (s1 & Hs1 & Hinv1); [intros i ->; by apply Nat.ltb_lt|].
  rewrite Hs1 in Hf. cbn [run_ops]. rewrite Hs1, Ok_bind. by apply IH.
Qed.

Lemma initial_inv n : inv (initial n).
Proof.
  assert (Hl : alive (initial n) = 0%nat).
  { unfold alive. cbn [initial clients]. by induction n as [|n IH]. }
  split; rewrite ?Hl; [|done|lia|done|done].
  apply Forall_replicate. by left.
Qed.

Lemma inv_unfinished s : inv s → unfinished s = if (alive s =? 0)%nat then 0%nat else 1%nat.
Proof.
  intros [_ _ _ _ Hc]. unfold unfinished.
  assert (Hfin : ∀ l, Forall (eq Finished) l →
    List.filter (fun p => match p with Finished => false | _ => true end) l = []).
  { intros l Hl. induction Hl as [|p l <- _ IH]; [done|exact IH]. }
  destruct (alive s =? 0)%nat; [destruct Hc as [_ Hc]; by rewrite (Hfin _ Hc)|].
  destruct Hc as (_ & old & p & -> & _ & Hold & Hp & _). rewrite List.filter_app, (Hfin old) by done. by destruct p.
Qed.

End Facts.
End DeterministicFacts.

(** ** Properties *)

Section Properties.
Context `{Random}.
Import DeterministicClient DeterministicFacts.

(** C21: the clients of a process share one cycle thread.  Whatever clients are made and
    destroyed one after the other (never more than 255 at a time), whatever seeds are set
    and however often cycles are activated in between, nothing blocks for ever or is
    undefined; one cycle thread runs while there are clients, and none when there are none;
    and any client that waits for its activation gets it within five steps of that thread. *)
Theorem clients_share_one_cycle_thread n os :
  few os (initial n) = true →
  ∃ s, run_ops os (initial n) = Ok s ∧
    mCounter s = Z.of_nat (alive s) ∧ unfinished s = (if (alive s =? 0)%nat then 0%nat else 1%nat) ∧
    ∀ now, alive s ≠ 0%nat →
      ∃ s', run (concat (repeat (steps s (Activate now)) 5)) s = Ok s' ∧ WaitForActivation s s' = Some kRun.
Proof.
  intros Hf. destruct (run_ops_inv os _ (initial_inv n) Hf) as (s & Hs & Hinv). exists s. split; [done|].
  split; [apply Hinv|]. split; [by apply inv_unfinished|]. intros now Ha.
  destruct (cycles_keep s now 5 Hinv Ha) as (s' & Hs' & _ & _ & _ & Hn). exists s'. split; [exact Hs'|].
  unfold WaitForActivation. by rewrite (proj2 (Nat.ltb_lt _ _)) by (apply Hn; lia).
Qed.

(** Two constructors at the same time: when both have incremented the counter before either
    tests it, neither starts the cycle thread, and no client is ever activated. *)
Theorem concurrent_constructors_start_nothing xs :
  Forall (fun x => match x with Cycle _ _ | Seed _ => True | _ => False end) xs →
  ∃ s, run ([New 0; New 1; Go 0; Go 1] ++ xs) (initial 2) = Ok s ∧
    clients s = [Alive; Alive] ∧ cycles s = [] ∧ WaitForActivation (initial 2) s = None.
Proof.
  intros Hxs. rewrite run_app. cbn [run run_step initial clients lookup list_lookup replicate].
  set (s0 := initial 2).
  assert (Hgo : ∀ s, clients s = [Alive; Alive] → cycles s = [] → notified s = 0%nat →
    ∃ s', run xs s = Ok s' ∧ clients s' = [Alive; Alive] ∧ cycles s' = [] ∧ notified s' = 0%nat).
  { induction Hxs as [|x xs Hx Hxs IH]; intros s H1 H2 H3; [by exists s|].
    destruct x as [| | |j now|seed]; try done; cbn [run run_step].
    - unfold activateCycle. rewrite H2. by apply IH.
    - by apply IH. }
  destruct (Hgo (test_first 1 (test_first 0 (increment 1 (increment 0 s0))))) as (s' & Hs' & H1 & H2 & H3); [reflexivity..|].
  exists s'. split; [exact Hs'|]. split; [done|]. split; [done|]. unfold WaitForActivation. by rewrite H3.
Qed.

End Properties.

(** A concrete generator, for the witness. *)
Definition counting_random : Random := {|
  engine := Z; default_engine := 5489; seeded := fun s => s;
  draw_u64 := fun g => (g, u64 (g + 1)); draw_step := fun g => (g mod 6, u64 (g + 1)) |}.

Definition two_clients : list DeterministicFacts.op :=
  [DeterministicFacts.Construct 0; DeterministicFacts.Reseed 7; DeterministicFacts.Construct 1; DeterministicFacts.Activate 3;
   DeterministicFacts.Destroy 0 10; DeterministicFacts.Destroy 1 20; DeterministicFacts.Construct 0].

Lemma clients_share_one_cycle_thread_witness :
  @DeterministicFacts.few counting_random two_clients (@DeterministicClient.initial counting_random 2) = true ∧
  ∃ s, DeterministicFacts.run_ops two_clients (@DeterministicClient.initial counting_random 2) = Ok s ∧
    DeterministicClient.mCounter s = Z.of_nat (DeterministicFacts.alive s) ∧
    DeterministicFacts.unfinished s = (if (DeterministicFacts.alive s =? 0)%nat then 0%nat else 1%nat) ∧
    ∀ now, DeterministicFacts.alive s ≠ 0%nat →
      ∃ s', DeterministicClient.run (concat (repeat (DeterministicFacts.steps s (DeterministicFacts.Activate now)) 5)) s = Ok s' ∧
        DeterministicClient.WaitForActivation s s' = Some DeterministicClient.kRun.
Proof.
  assert (Hf : @DeterministicFacts.few counting_random two_clients (@DeterministicClient.initial counting_random 2) = true)
    by (vm_compute; reflexivity).
  split; [exact Hf|]. exact (clients_share_one_cycle_thread 2 two_clients Hf).
Defined.
