(* ===== verification/Manifests.v ===== *)
(** * Manifests and arguments: src-gen/vehicle_status, application/helper/argument_configuration.cpp

    What the skeleton and the proxy of the vehicle status service read in their manifests,
    on the trees of Arxml.v, and the arguments of the applications. *)

From stdpp Require Import strings gmap.
From S2P Require Import Prelude Texts Arxml Addresses VehicleStatus.
From Stdlib Require Import Ascii.
#[local] Open Scope Z_scope.

(** ** The manifests of the vehicle status service *)
Module VehicleStatusManifest.

(** A node below the elements of the first package. *)
Definition element (path : list string) (cReader : list node) : handle :=
  ArxmlReader.GetRootNode (["AUTOSAR"; "AR-PACKAGES"; "AR-PACKAGE"; "ELEMENTS"]%string ++ path) cReader.

Definition service_path : string := "PROVIDED-SOMEIP-SERVICE-INSTANCE".
Definition required_path : string := "REQUIRED-SOMEIP-SERVICE-INSTANCE".

(** [src-gen/vehicle_status/vehicle_status_skeleton.cpp:66-78] the address of the first endpoint *)
Definition nic_address (cReader : list node) : string :=
  ArxmlNode.GetText (element
    ["COMMUNICATION-CLUSTER"; "ETHERNET-PHYSICAL-CHANNEL"; "NETWORK-ENDPOINTS"; "NETWORK-ENDPOINT";
     "NETWORK-ENDPOINT-ADDRESSES"; "IPV-4-CONFIGURATION"; "IPV-4-ADDRESS"]%string cReader).

(** [src-gen/vehicle_status/vehicle_status_skeleton.cpp:84-99] the nodes of the unicast peers,
    as texts *)
Definition peer_texts (instance config : string) (cReader : list node) : list string :=
  map (fun n => ArxmlNode.GetText (Some n))
    (ArxmlReader.GetNodes (["AUTOSAR"; "AR-PACKAGES"; "AR-PACKAGE"; "ELEMENTS"]%string ++
                           [instance; config; "UNICAST-PEERS"; "UNICAST-PEER"]%string) cReader).

(** [src-gen/vehicle_status/vehicle_status_skeleton.cpp:35-204] configureFromManifest: what the
    skeleton reads (with the event group of lines 219 to 230) *)
Definition provided (cReader : list node) : VehicleStatusSkeleton.Manifest :=
  let number cast path := ArxmlNode.GetValue cast (element (service_path :: path) cReader) in
  let group := ["PROVIDED-EVENT-GROUPS"; "SOMEIP-PROVIDED-EVENT-GROUP"]%string in
  let deployment := "SERVICE-INTERFACE-DEPLOYMENT"%string in
  let behavior := ["SD-SERVER-CONFIG"; "INITIAL-OFFER-BEHAVIOR"]%string in
  VehicleStatusSkeleton.mkManifest
    (number u16 (group ++ ["EVENT-MULTICAST-UDP-PORT"]%string))
    (ArxmlNode.GetText (element (service_path :: group ++ ["IPV-4-MULTICAST-IP-ADDRESS"]%string) cReader))
    (peer_texts service_path "SD-SERVER-CONFIG" cReader)
    (number u16 [deployment; "SERVICE-INTERFACE-ID"]%string)
    (number u16 ["SERVICE-INSTANCE-ID"]%string)
    (number u8 [deployment; "SERVICE-INTERFACE-VERSION"; "MAJOR-VERSION"]%string)
    (number u32 [deployment; "SERVICE-INTERFACE-VERSION"; "MINOR-VERSION"]%string)
    (nic_address cReader)
    (ArxmlNode.GetValue u16 (element
       ["ETHERNET-COMMUNICATION-CONNECTOR"; "AP-APPLICATION-ENDPOINTS"; "AP-APPLICATION-ENDPOINT"; "TP-CONFIGURATION";
        "TCP-TP"; "TCP-TP-PORT"; "PORT-NUMBER"]%string cReader))
    (number u16 (group ++ ["EVENT-GROUP-ID"]%string))
    (number i32 (behavior ++ ["INITIAL-DELAY-MIN-VALUE"]%string))
    (number i32 (behavior ++ ["INITIAL-DELAY-MAX-VALUE"]%string)).

(** [src-gen/vehicle_status/vehicle_status_proxy.cpp:29-143] configureFromManifest: what the proxy
    reads *)
Definition required (cReader : list node) : VehicleStatusProxy.Manifest :=
  let number cast path := ArxmlNode.GetValue cast (element (required_path :: path) cReader) in
  let group := ["REQUIRED-EVENT-GROUPS"; "SOMEIP-REQUIRED-EVENT-GROUP"]%string in
  let deployment := "SERVICE-INTERFACE-DEPLOYMENT"%string in
  VehicleStatusProxy.mkManifest
    (number u16 [deployment; "SERVICE-INTERFACE-ID"]%string)
    (number u16 ["SERVICE-INSTANCE-ID"]%string)
    (number u8 [deployment; "SERVICE-INTERFACE-VERSION"; "MAJOR-VERSION"]%string)
    (number u16 (group ++ ["EVENT-GROUP-ID"]%string))
    (ArxmlNode.GetText (element (required_path :: group ++ ["IPV-4-MULTICAST-IP-ADDRESS"]%string) cReader))
    (number u16 (group ++ ["EVENT-MULTICAST-UDP-PORT"]%string))
    (peer_texts required_path "SD-CLIENT-CONFIG" cReader)
    (number u16 ["WATCHDOG-INSTANCE-ID"]%string).

Section Files.
Context `{XmlText}.

(** [src-gen/vehicle_status/vehicle_status_skeleton.cpp:22-33] VehicleStatusSkeleton *)
Definition skeleton (up : VehicleStatusSkeleton.Sockets) (file : option string) : outcome VehicleStatusSkeleton.t :=
  cReader ← ArxmlReader.construct_file file;
  VehicleStatusSkeleton.configureFromManifest up (provided cReader).

(** [src-gen/vehicle_status/vehicle_status_proxy.cpp:16-27] VehicleStatusProxy *)
Definition proxy (sd_set_up sd_receiver sd_sender event_set_up event_receiver : bool) (file : option string) :
    outcome (VehicleStatusProxy.t * SdNetwork.SdNetworkLayer.t) :=
  cReader ← ArxmlReader.construct_file file;
  VehicleStatusProxy.configureFromManifest sd_set_up sd_receiver sd_sender event_set_up event_receiver (required cReader).

End Files.
End VehicleStatusManifest.

(** ** The arguments *)
Module ArgumentConfiguration.

(** [application/helper/argument_configuration.cpp:10-16] the keys *)
Definition cConfigArgument : string := "config".
Definition cEvConfigArgument : string := "evconfig".
Definition cDmConfigArgument : string := "dmconfig".
Definition cPhmConfigArgument : string := "phmconfig".
Definition cWatchdogConfigArgument : string := "watchdogconfig".
Definition cApiKeyArgument : string := "vccapikey".
Definition cBearerTokenArgument : string := "bearertoken".

(** The part of a path up to its last separator, the separator included. *)
Definition is_separator (c : ascii) : bool := bool_decide (c = "/"%char ∨ c = "\"%char).
Fixpoint directory (path : string) : string :=
  match path with
  | EmptyString => EmptyString
  | String c path =>
      match directory path with
      | EmptyString => if is_separator c then String c EmptyString else EmptyString
      | d => String c d
      end
  end.

(** [application/helper/argument_configuration.cpp:18-73] ArgumentConfiguration: the program's
    arguments after its name, and the defaults *)
Definition construct (argv : list string) (defaultConfigFile extendedVehicleConfigFile diagnosticManagerConfigFile
    healthMonitoringConfigFile watchdogConfigFile : string) : gmap string string :=
  match argv with
  | config :: ev :: dm :: phm :: more =>
      <[cWatchdogConfigArgument := match more with
                                   | watchdog :: _ => watchdog
                                   | [] => (directory config +:+ "watchdog_manifest.arxml")%string
                                   end]>
      (<[cPhmConfigArgument := phm]> (<[cDmConfigArgument := dm]> (<[cEvConfigArgument := ev]> (<[cConfigArgument := config]> ∅))))
  | _ =>
      <[cWatchdogConfigArgument := watchdogConfigFile]>
      (<[cPhmConfigArgument := healthMonitoringConfigFile]> (<[cDmConfigArgument := diagnosticManagerConfigFile]>
      (<[cEvConfigArgument := extendedVehicleConfigFile]> (<[cConfigArgument := defaultConfigFile]> ∅))))
  end.

(** The arguments and whether the terminal echoes. *)
Record t := mk { mArguments : gmap string string; echo : bool }.

(** Which of the terminal's attributes can be read, and written. *)
Record Tty := mkTty { gets : bool; sets : bool }.

(** [application/helper/argument_configuration.cpp:75-102] trySetEchoMode *)
Definition trySetEchoMode (tty : Tty) (enabled : bool) : M t bool := fun s =>
  if gets tty && sets tty then (Ok true, mk (mArguments s) enabled) else (Ok false, s).

(** [application/helper/argument_configuration.cpp:104-125] tryAskSafely: the terminal's state
    at both times, and what the user types *)
Definition tryAskSafely (before after : Tty) (userInput argumentKey : string) : M t bool :=
  result ← trySetEchoMode before false;
  if (result : bool) then
    modify (fun s => mk (<[argumentKey := userInput]> (mArguments s)) (echo s));;
    result ← trySetEchoMode after true;
    if (result : bool) then mret true
    else (modify (fun s => mk (delete argumentKey (mArguments s)) (echo s));; mret false)
  else mret false.

(** [application/helper/argument_configuration.cpp:132-140] TryAskingVccApiKey, and
    TryAskingBearToken *)
Definition TryAskingVccApiKey (before after : Tty) (userInput : string) : M t bool :=
  tryAskSafely before after userInput cApiKeyArgument.
Definition TryAskingBearToken (before after : Tty) (userInput : string) : M t bool :=
  tryAskSafely before after userInput cBearerTokenArgument.

(** [application/helper/argument_configuration.cpp:142-146] SetDemoMode *)
Definition SetDemoMode (s : t) : t :=
  mk (<[cBearerTokenArgument := EmptyString]> (<[cApiKeyArgument := EmptyString]> (mArguments s))) (echo s).

End ArgumentConfiguration.

(** ** Lemmas *)
Module Manifests_facts.
Import Arxml_facts VehicleStatusManifest.

(** A service as a manifest declares it: the numbers are decimal digits. *)
Record Declared := mkDeclared {
  d_service : list Z; d_instance : list Z; d_major : list Z; d_minor : list Z; d_group : list Z; d_port : list Z;
  d_multicast : string; d_peers : list string; d_watchdog : list Z; d_delay_min : list Z; d_delay_max : list Z
}.

Definition all_digits_ok (d : Declared) : Prop :=
  Forall (Forall is_digit) [d_service d; d_instance d; d_major d; d_minor d; d_group d; d_port d; d_watchdog d; d_delay_min d; d_delay_max d].

Definition leaf (name : string) (text : string) : node := Element name [] [CharacterData text].

(** The element of a service instance, provided or required. *)
Definition service_instance (is_provided : bool) (d : Declared) : node :=
  let side (p r : string) := if is_provided then p else r in
  Element (side service_path required_path) []
    [ Element "SERVICE-INTERFACE-DEPLOYMENT" []
        [ leaf "SERVICE-INTERFACE-ID" (decimal (d_service d));
          Element "SERVICE-INTERFACE-VERSION" []
            [leaf "MAJOR-VERSION" (decimal (d_major d)); leaf "MINOR-VERSION" (decimal (d_minor d))] ];
      Element (side "PROVIDED-EVENT-GROUPS" "REQUIRED-EVENT-GROUPS")%string []
        [ Element (side "SOMEIP-PROVIDED-EVENT-GROUP" "SOMEIP-REQUIRED-EVENT-GROUP")%string []
            [ leaf "EVENT-GROUP-ID" (decimal (d_group d)); leaf "EVENT-MULTICAST-UDP-PORT" (decimal (d_port d));
              leaf "IPV-4-MULTICAST-IP-ADDRESS" (d_multicast d) ] ];
      Element (side "SD-SERVER-CONFIG" "SD-CLIENT-CONFIG")%string []
        [ Element "UNICAST-PEERS" [] (map (leaf "UNICAST-PEER") (d_peers d));
          Element (side "INITIAL-OFFER-BEHAVIOR" "INITIAL-FIND-BEHAVIOR")%string []
            [leaf "INITIAL-DELAY-MIN-VALUE" (decimal (d_delay_min d)); leaf "INITIAL-DELAY-MAX-VALUE" (decimal (d_delay_max d))] ];
      leaf "SERVICE-INSTANCE-ID" (decimal (d_instance d));
      leaf "WATCHDOG-INSTANCE-ID" (decimal (d_watchdog d)) ].

Definition number (ds : list Z) : Z := Z.min (value_of ds) 4294967295.

Lemma peers_read instance_element peers :
  map (fun n => ArxmlNode.GetText (Some n))
    (match pugi.child "UNICAST-PEER" (Some (Element instance_element [] (map (leaf "UNICAST-PEER") peers))) with
     | Some n => pugi.children n | None => [] end) = take 1 peers.
Proof. by destruct peers. Qed.

End Manifests_facts.

(** ** Properties *)

Section Properties.
Import Arxml_facts Manifests_facts VehicleStatusManifest ArgumentConfiguration.

(** A declared service is what both sides are configured with.  Skeleton and proxy read
    in their manifests the numbers that are declared there, each cut to its width, the
    skeleton its initial delays, signed, the multicast group, the address of the first endpoint and the port of the first application
    endpoint; but of the unicast peers only the first one, however many are declared. *)
Theorem declared_service_is_read endpoint application version d :
  all_digits_ok d → app_protocol application = NetworkConfiguration.Tcp →
  provided (manifest [endpoint] [application] version [service_instance true d]) =
    VehicleStatusSkeleton.mkManifest (u16 (number (d_port d))) (d_multicast d) (take 1 (d_peers d))
      (u16 (number (d_service d))) (u16 (number (d_instance d))) (u8 (number (d_major d))) (u32 (number (d_minor d)))
      endpoint.2 (u16 (pugi.get_value_uint (app_port application))) (u16 (number (d_group d)))
      (i32 (number (d_delay_min d))) (i32 (number (d_delay_max d))) ∧
  required (manifest [endpoint] [application] version [service_instance false d]) =
    VehicleStatusProxy.mkManifest (u16 (number (d_service d))) (u16 (number (d_instance d))) (u8 (number (d_major d)))
      (u16 (number (d_group d))) (d_multicast d) (u16 (number (d_port d))) (take 1 (d_peers d)) (u16 (number (d_watchdog d))).
Proof.
  intros Hd Ht. destruct application as [name p port]. cbn in Ht. subst p.
  unfold all_digits_ok in Hd. repeat (apply Forall_cons in Hd as [? Hd]).
  unfold number. rewrite <- !get_value_decimal by done.
  split.
  - unfold provided, peer_texts. rewrite <- (peers_read "UNICAST-PEERS" (d_peers d)). by destruct version.
  - unfold required, peer_texts. rewrite <- (peers_read "UNICAST-PEERS" (d_peers d)). by destruct version.
Qed.

(** The configuration files are always among the arguments; without a fifth one, the
    watchdog's is the one beside the execution manifest. *)
Lemma arguments_complete argv a b c d e :
  let m := construct argv a b c d e in
  is_Some (m !! cConfigArgument) ∧ is_Some (m !! cEvConfigArgument) ∧ is_Some (m !! cDmConfigArgument) ∧
  is_Some (m !! cPhmConfigArgument) ∧ is_Some (m !! cWatchdogConfigArgument) ∧
  m !! cApiKeyArgument = None ∧ m !! cBearerTokenArgument = None.
Proof.
  cbv zeta. destruct argv as [|? [|? [|? [|? ?]]]]; cbn [construct];
    refine (conj _ (conj _ (conj _ (conj _ (conj _ (conj _ _))))));
    repeat (rewrite lookup_insert_ne by done); rewrite ?lookup_insert_eq, ?lookup_empty; by eauto.
Qed.

(** Asking for an argument: it fails when the echo cannot be switched off (then nothing
    has changed) or not on again; in the second case the terminal stays silent, and the
    argument is gone even when there was one before. *)
Lemma tryAskSafely_result before after userInput key s :
  let off := gets before && sets before in
  let on := gets after && sets after in
  tryAskSafely before after userInput key s =
    if off then (if on then (Ok true, mk (<[key := userInput]> (mArguments s)) true)
                 else (Ok false, mk (delete key (mArguments s)) false))
    else (Ok false, s).
Proof.
  cbv zeta. unfold tryAskSafely, trySetEchoMode. run. destruct (gets before && sets before); [|done].
  destruct (gets after && sets after); cbn; [done|]. by rewrite delete_insert_eq.
Qed.

End Properties.

(** ** Witnesses *)

Definition example_declared : Manifests_facts.Declared :=
  Manifests_facts.mkDeclared [5] [2; 5; 7] [1] [0] [1] [5; 5; 5; 5] "239.0.0.1" ["10.0.0.2"; "10.0.0.3"]%string [2] [1; 0] [1; 0; 0].

Lemma declared_service_is_read_witness :
  VehicleStatusManifest.provided
    (Arxml_facts.manifest [("EP", "10.0.0.1")%string] [Arxml_facts.mkApplication "TCP" NetworkConfiguration.Tcp "8080"] None
       [Manifests_facts.service_instance true example_declared]) =
  VehicleStatusSkeleton.mkManifest 5555 "239.0.0.1" ["10.0.0.2"]%string 5 257 1 0 "10.0.0.1" 8080 1 10 100.
Proof.
  apply (declared_service_is_read ("EP", "10.0.0.1")%string (Arxml_facts.mkApplication "TCP" NetworkConfiguration.Tcp "8080") None
           example_declared); [|reflexivity].
  repeat (apply Forall_cons; split; [repeat (apply Forall_cons; split; [unfold Arxml_facts.is_digit; lia|]); apply Forall_nil_2|]).
  apply Forall_nil_2.
Defined.
