(* ===== verification/Vehicle.v ===== *)
(** * The vehicle and its watchdog: application/extended_vehicle.cpp,
    application/watchdog_application.cpp

    The two applications at the ends of the vehicle status service.  Both log their
    messages and keep them in a key/value storage; the vehicle reports checkpoints in each
    cycle and a heartbeat in each hundredth, the watchdog notices that the vehicle's events
    stay away.  A run is the list of what a main loop meets: its activations, and what the
    poller's thread does while the loop waits for them. *)

From stdpp Require Import pretty.
From S2P Require Import Prelude Texts Arxml Payload Addresses E2E SomeIp SdMessage SdNetwork PubSub SdServer VehicleStatus.
From S2P Require Import Conversations Doip Health Logging Storage Deterministic Manifests.
#[local] Open Scope Z_scope.

Import DeterministicClient(ActivationReturnType, kRegisterService, kServiceDiscovery, kInit, kRun, kTerminate).

(** [ara/exec/helper/modelled_process.cpp:29-37] WaitForActivation: what it makes of the
    deterministic client's result *)
Definition goes_on (r : ActivationReturnType) : bool := match r with kTerminate => false | _ => true end.

(** ** What is logged and kept *)
Module Journal.
Section Journal.
Context `{!JsonText}.

(** The members of both applications that messages go to, and the file system. *)
(** [application/extended_vehicle.h:39-41] ExtendedVehicle *)
Record t := mk {
  logged : list (LogLevel * string);
  mStorage : option KeyValueStorage.t;
  mStoragePath : string;
  mLogCounter : Z;
  fs : Fs
}.

(** Nothing logged, no storage yet. *)
Definition construct (f : Fs) : t := mk [] None EmptyString 0 f.

(** [ara/exec/helper/modelled_process.cpp:23-27] Log *)
Definition Log (level : LogLevel) (message : string) (j : t) : t :=
  mk (logged j ++ [(level, message)]) (mStorage j) (mStoragePath j) (mLogCounter j) (fs j).

(** [application/extended_vehicle.cpp:182-208] Main: the path of the storage, by whether the
    preferred directory is there, and its opening *)
Definition Open (preferred opens : bool) (file : string) (j : t) : t :=
  let path := ((if preferred then "/var/per" else "/tmp/per") +:+ file)%string in
  match KeyValueStorage.Open opens path (fs j) with
  | inr kvs => Log kInfo ("[Per] Storage opened at " +:+ path) (mk (logged j) (Some kvs) path (mLogCounter j) (fs j))
  | inl _ => Log kInfo ("[Per] Storage unavailable at " +:+ path) (mk (logged j) (mStorage j) path (mLogCounter j) (fs j))
  end%string.

(** [application/extended_vehicle.cpp:211-218] persistLog *)
Definition persistLog (message : string) (j : t) : t :=
  match mStorage j with
  | Some kvs => mk (logged j) (Some (KeyValueStorage.SetValue (pretty (mLogCounter j)) (JString message) kvs)) (mStoragePath j)
                   (u32 (mLogCounter j + 1)) (fs j)
  | None => j
  end.

(** The content of a storage is written to its file; whether that worked is not looked at. *)
Definition sync (faults : Faults) (kvs : KeyValueStorage.t) (j : t) : t :=
  mk (logged j) (mStorage j) (mStoragePath j) (mLogCounter j) (final (KeyValueStorage.SyncToStorage faults kvs (fs j)) (fs j)).

(** [application/extended_vehicle.cpp:303-310] Main: the storage is written at the end *)
Definition Sync (faults : Faults) (j : t) : t :=
  match mStorage j with
  | Some kvs =>
      let j := sync faults kvs j in
      Log kInfo ("[Per] Synced " +:+ pretty (mLogCounter j) +:+ " entries to " +:+ mStoragePath j)%string j
  | None => j
  end.

End Journal.
End Journal.

(** ** The watchdog *)
Module WatchdogApplication.
Section WatchdogApplication.
Context `{!JsonText}.

(** [application/watchdog_application.cpp:13-13] cEventTimeout, in milliseconds *)
Definition cEventTimeout : Z := 2000.

(** [application/watchdog_application.h:28-35] WatchdogApplication; times are in nanoseconds,
    the token is the process's *)
Record t := mk {
  mSelfInstanceId : Z;
  mLastEventTime : Z;
  mExpiredLogged : bool;
  mFirstEventReceived : bool;
  mCancellationToken : bool;
  journal : Journal.t
}.

Definition construct (fs : Fs) : t := mk 0 0 false false false (Journal.construct fs).

Definition on_journal (f : Journal.t → Journal.t) (w : t) : t :=
  mk (mSelfInstanceId w) (mLastEventTime w) (mExpiredLogged w) (mFirstEventReceived w) (mCancellationToken w) (f (journal w)).

Definition restarted_text (self sender : Z) : string :=
  ("[Watchdog] " +:+ pretty self +:+ " restarted by ExtendedVehicle " +:+ pretty sender)%string.
Definition started_text : string := ("[Watchdog] Started - timeout " +:+ pretty cEventTimeout +:+ " ms")%string.
Definition expired_text : string :=
  ("[Watchdog] Event expired: no VehicleStatus" +:+ " received for >" +:+ pretty cEventTimeout +:+ " ms")%string.

Definition written_text (entry : Z) (path : string) : string := ("[Per] Entry " +:+ pretty entry +:+ " written to " +:+ path)%string.

(** [application/watchdog_application.cpp:21-49] onEventReceived, at time [now] *)
Definition onEventReceived (now : Z) (data : VehicleStatusData.t) (w : t) : t :=
  let msg := restarted_text (mSelfInstanceId w) (VehicleStatusData.SenderInstanceId data) in
  let j := Journal.Log kInfo msg (journal w) in
  let j := match Journal.mStorage j with
           | Some _ => let j := Journal.persistLog msg j in
                       Journal.Log kInfo (written_text (u32 (Journal.mLogCounter j - 1)) (Journal.mStoragePath j)) j
           | None => j
           end in
  mk (mSelfInstanceId w) now false true (mCancellationToken w) j.

(** [application/watchdog_application.cpp:59-94] Main: the proxy's instance and the storage *)
Definition open_storage (instance : Z) (preferred opens : bool) (w : t) : t :=
  on_journal (Journal.Open preferred opens ("/watchdog_" +:+ pretty instance +:+ ".json"))
    (mk instance (mLastEventTime w) (mExpiredLogged w) (mFirstEventReceived w) (mCancellationToken w) (journal w)).

(** [application/watchdog_application.cpp:100-118] Main: the start is logged *)
Definition log_start (now : Z) (w : t) : t :=
  let j := Journal.Log kInfo started_text (journal w) in
  let j := match Journal.mStorage j with
           | Some _ => let j := Journal.persistLog started_text j in Journal.Log kInfo (written_text 0 (Journal.mStoragePath j)) j
           | None => j
           end in
  mk (mSelfInstanceId w) now (mExpiredLogged w) (mFirstEventReceived w) (mCancellationToken w) j.

(** [application/watchdog_application.cpp:125-153] Main: what follows an activation *)
Definition poll (now : Z) (faults : Faults) (w : t) : t :=
  let elapsed := Z.quot (now - mLastEventTime w) 1000000 in
  if (cEventTimeout <? elapsed) && negb (mExpiredLogged w) && mFirstEventReceived w then
    let j := Journal.Log kInfo expired_text (journal w) in
    let j := match Journal.mStorage j with Some _ => Journal.Sync faults (Journal.persistLog expired_text j) | None => j end in
    mk (mSelfInstanceId w) (mLastEventTime w) true (mFirstEventReceived w) (mCancellationToken w) j
  else w.

(** [application/watchdog_application.cpp:156-168] Main: its end *)
Definition finish (faults : Faults) (w : t) : Z * t := (0, on_journal (Journal.Sync faults) w).

(** What the main loop meets: an event on the poller's thread, an activation with its
    result, and a call of [Terminate]. *)
Inductive input :=
  | Event (now : Z) (data : VehicleStatusData.t)
  | Activated (now : Z) (r : ActivationReturnType) (faults : Faults)
  | Terminate.

(** [application/watchdog_application.cpp:120-154] Main: the loop, with the exit code once it
    has ended *)
Fixpoint loop (xs : list input) (w : t) : option Z * t :=
  match xs with
  | [] => (None, w)
  | Event now data :: xs => loop xs (onEventReceived now data w)
  | Terminate :: xs =>
      loop xs (mk (mSelfInstanceId w) (mLastEventTime w) (mExpiredLogged w) (mFirstEventReceived w) true (journal w))
  | Activated now r faults :: xs =>
      let w := poll now faults w in
      if goes_on r then loop xs w else let '(code, w) := finish faults w in (Some code, w)
  end.

(** [application/watchdog_application.cpp:51-57] Main *)
Definition Main (instance : Z) (preferred opens : bool) (start : Z) (xs : list input) (w : t) : option Z * t :=
  loop xs (log_start start (open_storage instance preferred opens w)).

End WatchdogApplication.
End WatchdogApplication.

(** ** Lemmas: numbered messages *)

(** Messages under their numbers, over what was there before. *)
Fixpoint number_from (i : nat) (ms : list string) (root : gmap string JsonValue) : gmap string JsonValue :=
  match ms with [] => root | m :: ms => number_from (S i) ms (<[pretty (Z.of_nat i) := JString m]> root) end.

Lemma number_from_snoc i ms m root :
  number_from i (ms ++ [m]) root = <[pretty (Z.of_nat (i + length ms)) := JString m]> (number_from i ms root).
Proof.
  revert i root. induction ms as [|x ms IH]; intros i root; cbn [number_from app length]; [by rewrite Nat.add_0_r|].
  rewrite IH. do 3 f_equal. lia.
Qed.

(** Each message is under its number; every other member is an old one. *)
Lemma number_from_at ms root i m :
  ms !! i = Some m → number_from 0 ms root !! pretty (Z.of_nat i) = Some (JString m).
Proof.
  induction ms as [|x ms IH] using rev_ind; [done|]. rewrite number_from_snoc. intros Hi.
  destruct (decide (i = length ms)) as [->|Hne].
  - rewrite list_lookup_middle in Hi by done. rewrite lookup_insert_eq. congruence.
  - rewrite lookup_insert_ne by (intros H%(inj _); lia). apply IH.
    pose proof (lookup_lt_Some _ _ _ Hi) as Hl. rewrite length_app in Hl. cbn in Hl. by rewrite lookup_app_l in Hi by lia.
Qed.

Lemma number_from_other ms root key :
  (∀ i, (i < length ms)%nat → key ≠ pretty (Z.of_nat i)) → number_from 0 ms root !! key = root !! key.
Proof.
  induction ms as [|x ms IH] using rev_ind; intros Hk; [done|]. rewrite length_app in Hk. cbn in Hk.
  rewrite number_from_snoc, lookup_insert_ne by (symmetry; apply Hk; cbn; lia). apply IH. intros i Hi. apply Hk. lia.
Qed.

Definition succeeds (f : Faults) : bool :=
  negb (open_fails f) && match write_fails f with None => true | Some _ => false end && negb (rename_fails f).

Lemma sync_file `{!JsonText} faults kvs fs :
  final (KeyValueStorage.SyncToStorage faults kvs fs) fs !! KeyValueStorage.mStoragePath kvs =
    if succeeds faults then Some (print (KeyValueStorage.mRoot kvs)) else fs !! KeyValueStorage.mStoragePath kvs.
Proof.
  unfold KeyValueStorage.SyncToStorage. rewrite replace_file_final. unfold replace_file, succeeds.
  by destruct (open_fails faults), (write_fails faults), (rename_fails faults).
Qed.

(** ** Lemmas: the watchdog's journal *)
Module Watchdog_facts.
Import WatchdogApplication.
Section Facts.
Context `{!JsonText}.

(** What the watchdog has to say. *)
Inductive message := Started | Restarted (sender : Z) | Expired (faults : Faults).

Definition text (self : Z) (m : message) : string :=
  match m with Started => started_text | Restarted sender => restarted_text self sender | Expired _ => expired_text end.

(** Does the message bring the storage to its file? *)
Definition saves (m : message) : bool := match m with Expired f => succeeds f | _ => false end.

(** The messages up to the last one that did. *)
Fixpoint saved (ms : list message) : list message :=
  match ms with [] => [] | m :: ms' => if existsb saves ms then m :: saved ms' else [] end.

(** The lines that are logged for messages, the first of them being number [i]. *)
Fixpoint lines (self : Z) (path : string) (i : nat) (ms : list message) : list (LogLevel * string) :=
  match ms with
  | [] => []
  | m :: ms =>
      (kInfo, text self m) ::
      (kInfo, match m with
              | Expired _ => "[Per] Synced " +:+ pretty (Z.of_nat (S i)) +:+ " entries to " +:+ path
              | _ => written_text (Z.of_nat i) path
              end)%string :: lines self path (S i) ms
  end.

Lemma lines_snoc self path i ms m :
  lines self path i (ms ++ [m]) = lines self path i ms ++ lines self path (i + length ms) [m].
Proof.
  revert i. induction ms as [|x ms IH]; intros i; cbn [app lines length]; [by rewrite Nat.add_0_r|].
  rewrite IH. do 3 f_equal. cbn [lines]. by rewrite Nat.add_succ_r.
Qed.

Lemma saved_snoc ms m : saved (ms ++ [m]) = if saves m then ms ++ [m] else saved ms.
Proof.
  induction ms as [|x ms IH]; [cbn; by destruct (saves m)|].
  cbn [saved app]. change (existsb saves (x :: ms ++ [m])) with (existsb saves ((x :: ms) ++ [m])).
  rewrite existsb_app, IH. cbn [existsb]. rewrite orb_false_r.
  destruct (saves m); [by rewrite !orb_true_r|by rewrite orb_false_r].
Qed.

Lemma texts_snoc self ms m : text self <$> (ms ++ [m]) = (text self <$> ms) ++ [text self m].
Proof. by rewrite fmap_app. Qed.

(** What is in the file when these messages were saved. *)
Definition on_file (self : Z) (root0 : gmap string JsonValue) (file0 : option bytes) (ms : list message) : option bytes :=
  match ms with [] => file0 | _ => Some (print (number_from 0 (text self <$> ms) root0)) end.

Lemma on_file_snoc self root0 file0 ms m :
  on_file self root0 file0 (ms ++ [m]) =
    Some (print (<[pretty (Z.of_nat (length ms)) := JString (text self m)]> (number_from 0 (text self <$> ms) root0))).
Proof.
  replace (length ms) with (0 + length (text self <$> ms))%nat by (by rewrite length_fmap).
  rewrite <- number_from_snoc, <- texts_snoc. by destruct ms.
Qed.

(** The journal after messages: the lines, the numbered messages in the storage, and in the
    file those up to the last successful write. *)
Record kept (self : Z) (path : string) (log0 : list (LogLevel * string)) (root0 : gmap string JsonValue) (file0 : option bytes)
    (ms : list message) (j : Journal.t) : Prop := {
  kept_log : Journal.logged j = log0 ++ lines self path 0 ms;
  kept_storage : Journal.mStorage j = Some (KeyValueStorage.mk path (number_from 0 (text self <$> ms) root0));
  kept_path : Journal.mStoragePath j = path;
  kept_counter : Journal.mLogCounter j = Z.of_nat (length ms);
  kept_file : Journal.fs j !! path = on_file self root0 file0 (saved ms)
}.

Section Kept.
Context (self : Z) (path : string) (log0 : list (LogLevel * string)) (root0 : gmap string JsonValue) (file0 : option bytes).
Abbreviation kept := (kept self path log0 root0 file0).

(** A message is logged, kept under the next number and confirmed. *)
Lemma kept_write ms m j :
  kept ms j → Z.of_nat (length ms) < 4294967295 → (∀ f, m ≠ Expired f) →
  let j1 := Journal.persistLog (text self m) (Journal.Log kInfo (text self m) j) in
  u32 (Journal.mLogCounter j1 - 1) = Z.of_nat (length ms) ∧
  kept (ms ++ [m]) (Journal.Log kInfo (written_text (Z.of_nat (length ms)) (Journal.mStoragePath j1)) j1).
Proof.
  intros [H1 H2 H3 H4 H5] Hn Hm. destruct j as [log st p c fs]. cbn in *. subst. cbn. split; [ulia|].
  assert (Hs : saves m = false) by (destruct m; try done; by destruct (Hm faults)). split; cbn.
  - rewrite lines_snoc, !app_assoc. cbn. rewrite <- app_assoc. cbn. destruct m; try done. by destruct (Hm faults).
  - unfold KeyValueStorage.SetValue. cbn. by rewrite texts_snoc, number_from_snoc, length_fmap.
  - done.
  - rewrite length_app. cbn. ulia.
  - by rewrite saved_snoc, Hs.
Qed.

(** The expiry is logged and kept, and the storage written. *)
Lemma kept_sync ms f j :
  kept ms j → Z.of_nat (length ms) < 4294967295 →
  kept (ms ++ [Expired f]) (Journal.Sync f (Journal.persistLog expired_text (Journal.Log kInfo expired_text j))).
Proof.
  intros [H1 H2 H3 H4 H5] Hn. destruct j as [log st p c fs]. cbn in *. subst.
  unfold Journal.Sync, Journal.persistLog, Journal.sync, Journal.Log. cbn. rewrite (u32_id _) by ulia.
  replace (Z.of_nat (length ms) + 1) with (Z.of_nat (S (length ms))) by lia. split; cbn [Journal.logged Journal.mStorage
    Journal.mStoragePath Journal.mLogCounter Journal.fs].
  - rewrite lines_snoc, !app_assoc. cbn. by rewrite <- app_assoc.
  - unfold KeyValueStorage.SetValue. cbn. by rewrite texts_snoc, number_from_snoc, length_fmap.
  - done.
  - rewrite length_app. cbn. lia.
  - refine (eq_trans (sync_file f _ fs) _). rewrite saved_snoc. cbn [saves]. destruct (succeeds f); [|done].
    by rewrite on_file_snoc.
Qed.

(** The steps of the loop. *)
Lemma event_kept now data ms w :
  kept ms (journal w) → mSelfInstanceId w = self → Z.of_nat (length ms) < 4294967295 →
  kept (ms ++ [Restarted (VehicleStatusData.SenderInstanceId data)]) (journal (onEventReceived now data w)).
Proof.
  intros Hk Hs Hn. destruct (kept_write ms (Restarted (VehicleStatusData.SenderInstanceId data)) (journal w) Hk Hn ltac:(done))
    as [Hc Hk']. revert Hc Hk'. cbv zeta. cbn [text]. unfold onEventReceived. cbn [journal]. rewrite Hs.
  cbn [Journal.mStorage Journal.Log]. rewrite (kept_storage _ _ _ _ _ _ _ Hk). intros -> Hk'. exact Hk'.
Qed.

(** Was the event at time [t] out of date at this point? *)
Definition late (t : Z) (x : input) : option Faults :=
  match x with
  | Activated now _ faults => if cEventTimeout <? Z.quot (now - t) 1000000 then Some faults else None
  | _ => None
  end.

(** Nothing but activations that let the loop go on, and calls of [Terminate]. *)
Definition quiet (x : input) : bool :=
  match x with Event _ _ => false | Activated _ r _ => goes_on r | Terminate => true end.

(** Before the first event, and after an expiry, the loop has nothing to say. *)
Lemma silent_loop rest ys w :
  forallb quiet rest = true → mExpiredLogged w || negb (mFirstEventReceived w) = true →
  ∃ token, loop (rest ++ ys) w =
    loop ys (mk (mSelfInstanceId w) (mLastEventTime w) (mExpiredLogged w) (mFirstEventReceived w) token (journal w)).
Proof.
  revert w. induction rest as [|x rest IH]; intros w Hq He; [exists (mCancellationToken w); by destruct w|].
  cbn [forallb] in Hq. apply andb_prop in Hq as [Hx Hq]. destruct x as [|now r f|]; [done| |].
  - cbn [quiet] in Hx. cbn [loop app]. assert (Hp : poll now f w = w).
    { unfold poll. destruct (mExpiredLogged w), (mFirstEventReceived w); try done; by rewrite andb_false_r. }
    rewrite Hp, Hx. by apply IH.
  - cbn [loop app]. destruct (IH (mk (mSelfInstanceId w) (mLastEventTime w) (mExpiredLogged w) (mFirstEventReceived w) true (journal w)) Hq He)
      as [token Ht]. by exists token.
Qed.

(** What the watchdog says after an event: at the first activation that finds it out of
    date, that it is. *)
Definition expiry (t : Z) (rest : list input) : list message :=
  match omap (late t) rest with f :: _ => [Expired f] | [] => [] end.

Lemma waiting_loop rest ys ms w :
  forallb quiet rest = true → mExpiredLogged w = false → mFirstEventReceived w = true →
  kept ms (journal w) → mSelfInstanceId w = self → Z.of_nat (length ms) < 4294967295 →
  ∃ w', loop (rest ++ ys) w = loop ys w' ∧ mFirstEventReceived w' = true ∧ mSelfInstanceId w' = self ∧
    kept (ms ++ expiry (mLastEventTime w) rest) (journal w').
Proof.
  revert w. induction rest as [|x rest IH]; intros w Hq He Hf Hk Hs Hn.
  { exists w. cbn. by rewrite app_nil_r. }
  cbn [forallb] in Hq. apply andb_prop in Hq as [Hx Hq]. destruct x as [|now r f|]; [done| |].
  - cbn [quiet] in Hx. unfold expiry. cbn [omap list_omap late loop app]. rewrite Hx. unfold poll. rewrite He, Hf.
    destruct (cEventTimeout <? Z.quot (now - mLastEventTime w) 1000000) eqn:Hlate; cbn [andb negb]; [|by apply IH].
    cbn [Journal.mStorage Journal.Log]. rewrite (kept_storage _ _ _ _ _ _ _ Hk).
    match goal with |- context [loop (rest ++ ys) ?w1] => destruct (silent_loop rest ys w1 Hq eq_refl) as [token ->] end.
    eexists. split; [reflexivity|]. split; [done|]. split; [done|]. by apply kept_sync.
  - cbn [loop app]. destruct (IH (mk (mSelfInstanceId w) (mLastEventTime w) (mExpiredLogged w) (mFirstEventReceived w) true (journal w)))
      as (w' & H1 & H2 & H3 & H4); try done. by exists w'.
Qed.

(** An event, and what the loop meets until the next one. *)
Record Segment := mkSegment { at_time : Z; status : VehicleStatusData.t; rest : list input }.
Definition inputs (s : Segment) : list input := Event (at_time s) (status s) :: rest s.
Definition says (s : Segment) : list message :=
  Restarted (VehicleStatusData.SenderInstanceId (status s)) :: expiry (at_time s) (rest s).

Lemma length_says s : (length (says s) <= 2)%nat.
Proof. unfold says, expiry. by destruct (omap _ _); cbn; lia. Qed.

Lemma segments_loop segs ms w :
  forallb (fun s => forallb quiet (rest s)) segs = true → kept ms (journal w) → mSelfInstanceId w = self →
  Z.of_nat (length ms + 2 * length segs) < 4294967296 →
  ∃ w', loop (concat (inputs <$> segs)) w = (None, w') ∧ kept (ms ++ concat (says <$> segs)) (journal w').
Proof.
  revert ms w. induction segs as [|[t d rs] segs IH]; intros ms w Hq Hk Hs Hn.
  { exists w. cbn. by rewrite app_nil_r. }
  cbn [forallb rest] in Hq. apply andb_prop in Hq as [Hr Hq]. cbn [length] in Hn.
  cbn [fmap list_fmap concat inputs status at_time rest app loop].
  pose proof (event_kept t d ms w Hk Hs ltac:(lia)) as Hk1.
  destruct (waiting_loop rs (concat (inputs <$> segs)) _ (onEventReceived t d w) Hr eq_refl eq_refl Hk1 Hs) as (w1 & H1 & Hf1 & Hs1 & Hk2).
  { rewrite length_app. cbn. lia. }
  cbn [onEventReceived mLastEventTime] in Hk2.
  pose proof (length_says (mkSegment t d rs)) as Hl. unfold says in Hl. cbn [at_time status rest] in Hl.
  destruct (IH _ w1 Hq Hk2 Hs1) as (w' & H' & Hk').
  { rewrite <- app_assoc, length_app. cbn [app]. lia. }
  exists w'. rewrite H1, H'. split; [done|]. rewrite <- !app_assoc in Hk'. by rewrite <- ?app_assoc.
Qed.

End Kept.
End Facts.
End Watchdog_facts.

(** ** Properties of the watchdog *)

Section Watchdog.
Context `{!JsonText}.
Import WatchdogApplication Watchdog_facts.

Definition watchdog_path (preferred : bool) (instance : Z) : string :=
  ((if preferred then "/var/per" else "/tmp/per") +:+ "/watchdog_" +:+ pretty instance +:+ ".json")%string.

(** C7: what the watchdog says.  Whatever events arrive, at whatever times its main loop is
    activated and whichever writes of files fail: it logs its start, then for each event
    which vehicle sent it and, once, at the first activation more than two seconds (counted
    in whole milliseconds) after an event without another, that the events have expired; it
    says nothing of the kind before the first event.  All of it is in the storage under
    consecutive numbers from zero, over the members that were there; the file has what was
    said up to the last expiry whose write succeeded. *)
Theorem watchdog_messages instance preferred opens start idle segs fs root :
  let path := watchdog_path preferred instance in
  KeyValueStorage.Open opens path fs = inr (KeyValueStorage.mk path root) →
  forallb quiet idle = true → forallb (fun s => forallb quiet (rest s)) segs = true →
  2 * Z.of_nat (length segs) + 1 < 4294967296 →
  ∃ w, Main instance preferred opens start (idle ++ concat (inputs <$> segs)) (construct fs) = (None, w) ∧
    kept instance path [(kInfo, "[Per] Storage opened at " +:+ path)%string] root (fs !! path)
      (Started :: concat (says <$> segs)) (journal w).
Proof.
  intros path Ho Hi Hq Hn. unfold Main.
  set (w0 := open_storage instance preferred opens (construct fs)).
  assert (Hk0 : kept instance path [(kInfo, "[Per] Storage opened at " +:+ path)%string] root (fs !! path) [] (journal w0)).
  { unfold w0, open_storage, construct, Journal.construct, Journal.Open, on_journal. cbn [journal Journal.fs].
    change (if preferred then _ else _) with (if preferred then "/var/per" else "/tmp/per")%string.
    fold (watchdog_path preferred instance). fold path. rewrite Ho. by split. }
  destruct (kept_write instance path _ root (fs !! path) [] Started (journal w0) Hk0 eq_refl ltac:(done)) as [_ Hk1].
  assert (Hs : mSelfInstanceId (log_start start w0) = instance) by done.
  assert (Hk : kept instance path [(kInfo, "[Per] Storage opened at " +:+ path)%string] root (fs !! path) [Started]
                 (journal (log_start start w0))).
  { unfold log_start. cbn [journal Journal.mStorage Journal.Log]. rewrite (kept_storage _ _ _ _ _ _ _ Hk0). exact Hk1. }
  assert (Hf : mFirstEventReceived (log_start start w0) = false).
  { unfold log_start, w0, open_storage. done. }
  destruct (silent_loop idle (concat (inputs <$> segs)) (log_start start w0) Hi) as [token Ht].
  { rewrite Hf. by rewrite orb_true_r. }
  rewrite Ht. apply (segments_loop instance path _ root (fs !! path) segs [Started]); try done. cbn. lia.
Qed.

(** The watchdog does not stop.  Whatever happens, if every activation has a result that
    the deterministic client gives, the main loop goes on: after a call of [Terminate] too,
    which waits for its end. *)
Theorem watchdog_never_ends instance preferred opens start xs fs :
  Forall (fun x => match x with
                   | Activated _ r _ => ∃ (R : Random) before s, DeterministicClient.WaitForActivation before s = Some r
                   | _ => True
                   end) xs →
  fst (Main instance preferred opens start xs (construct fs)) = None.
Proof.
  unfold Main. generalize (log_start start (open_storage instance preferred opens (construct fs))).
  induction xs as [|x xs IH]; intros w Hx; [done|]. apply Forall_cons in Hx as [Hx Hxs].
  destruct x as [now data|now r f|]; cbn [loop]; try by apply IH.
  destruct Hx as (R & before & s & Hr). unfold DeterministicClient.WaitForActivation in Hr.
  destruct (_ <? _)%nat; [|done]. injection Hr as <-. by apply IH.
Qed.

End Watchdog.

(** A day of a watchdog: two events, the second one's successor missing. *)
Definition example_day : list Watchdog_facts.Segment :=
  [ Watchdog_facts.mkSegment 5000000000 (VehicleStatusData.mk EmptyString true 1)
      [WatchdogApplication.Activated 5010000000 kRun no_faults];
    Watchdog_facts.mkSegment 6000000000 (VehicleStatusData.mk EmptyString true 1)
      [WatchdogApplication.Activated 8000999999 kRun no_faults; WatchdogApplication.Activated 8001000000 kRun no_faults;
       WatchdogApplication.Terminate; WatchdogApplication.Activated 9000000000 kRun no_faults] ].

Lemma watchdog_messages_witness :
  let path := watchdog_path true 2 in
  ∃ w, @WatchdogApplication.Main demo_text 2 true true 0 ([WatchdogApplication.Activated 4000000000 kRun no_faults] ++ concat (Watchdog_facts.inputs <$> example_day))
         (WatchdogApplication.construct ∅) = (None, w) ∧
    @Watchdog_facts.kept demo_text 2 path [(kInfo, "[Per] Storage opened at " +:+ path)%string] ∅ None
      [Watchdog_facts.Started; Watchdog_facts.Restarted 1; Watchdog_facts.Restarted 1; Watchdog_facts.Expired no_faults]
      (WatchdogApplication.journal w).
Proof.
  exact (@watchdog_messages demo_text 2 true true 0 [WatchdogApplication.Activated 4000000000 kRun no_faults] example_day ∅ ∅
           eq_refl eq_refl eq_refl eq_refl).
Defined.

Lemma watchdog_never_ends_witness :
  fst (@WatchdogApplication.Main demo_text 2 true true 0 [WatchdogApplication.Terminate; WatchdogApplication.Activated 4000000000 kRun no_faults]
         (WatchdogApplication.construct ∅)) = None.
Proof.
  apply watchdog_never_ends. apply Forall_cons. split; [exact I|]. apply Forall_cons. split; [|by apply Forall_nil_2].
  exists counting_random.
  exists (@DeterministicClient.initial counting_random 1).
  exists (@DeterministicClient.mk counting_random 1 (Some 0%nat) true 0 AtomicOptional.construct 0 0
            [DeterministicClient.Sleeping] [DeterministicClient.Alive] 1).
  reflexivity.
Defined.

(** ** The extended vehicle *)
Module ExtendedVehicle.
Section ExtendedVehicle.
Context `{!JsonText} `{!XmlText}.

(** [application/extended_vehicle.h:18-23] PhmCheckpointType *)
Definition AliveCheckpoint : Z := 0.
Definition DeadlineSourceCheckpoint : Z := 1.
Definition DeadlineTargetCheckpoint : Z := 2.

(** [application/extended_vehicle.h:32-41] ExtendedVehicle: its journal, skeleton and DoIP
    server, the communicator of its supervised entity, and what that wrote to the pipe *)
Record t := mk {
  journal : Journal.t;
  mSkeleton : option VehicleStatusSkeleton.t;
  mDoipServer : option DoipServer.t;
  communicator : FifoCheckpointCommunicator.t;
  pipe : list bytes
}.

(** [application/extended_vehicle.cpp:15-26] ExtendedVehicle *)
Definition construct (fs : Fs) (checkpointCommunicator : FifoCheckpointCommunicator.t) : t :=
  mk (Journal.construct fs) None None checkpointCommunicator [].

Definition on_journal (f : Journal.t → Journal.t) : M t () :=
  modify (fun v => mk (f (journal v)) (mSkeleton v) (mDoipServer v) (communicator v) (pipe v)).
Definition set_skeleton (k : option VehicleStatusSkeleton.t) (v : t) : t :=
  mk (journal v) k (mDoipServer v) (communicator v) (pipe v).
Definition set_doip (d : option DoipServer.t) (v : t) : t := mk (journal v) (mSkeleton v) d (communicator v) (pipe v).

Definition on_skeleton (f : M VehicleStatusSkeleton.t ()) : M t () := fun v =>
  match mSkeleton v with
  | Some k => let '(r, k) := f k in (r, set_skeleton (Some k) v)
  | None => (Undefined, v)
  end.
Definition on_communicator (f : M FifoCheckpointCommunicator.t ()) : M t () := fun v =>
  let '(r, c) := f (communicator v) in (r, mk (journal v) (mSkeleton v) (mDoipServer v) c (pipe v)).

(** A message that is logged and kept. *)
Definition say (message : string) : M t () := on_journal (fun j => Journal.persistLog message (Journal.Log kInfo message j)).

(** [application/extended_vehicle.cpp:28-50] getNetworkConfiguration *)
Definition getNetworkConfiguration (reader : list node) : outcome NetworkConfiguration.t :=
  '(successful, result) ← NetworkConfiguration.TryGetNetworkConfiguration reader "ExtendedVehicleEP" "ServerUnicastTcp"
                            NetworkConfiguration.Tcp (NetworkConfiguration.mk EmptyString 0);
  if (successful : bool) then Ok result else Throw std_runtime_error.

(** The VIN and the resources it sets. *)
Definition demo_vin : string := "DEMO0000000000001".
Definition mResourcesUrl : string := "demo://localhost/resources".
(** [application/extended_vehicle.cpp:52-64] tryConfigureRestCommunication *)
Definition tryConfigureRestCommunication : M t (bool * string) :=
  on_journal (Journal.Log kInfo ("Demo mode: VIN set to " +:+ demo_vin)%string);; mret (true, demo_vin).

(** What is configured of the DoIP controller; times are in seconds. *)
Record ControllerConfig := mkControllerConfig {
  doIPInitialVehicleAnnouncementTime : Z; doIPVehicleAnnouncementCount : Z; doIPVehicleAnnouncementInterval : Z;
  protocolVersion : Z; doipMaxRequestBytes : Z
}.
Definition doip_number (cast : Z → Z) (path : list string) (reader : list node) : Z :=
  ArxmlNode.GetValue cast (VehicleStatusManifest.element ("DO-IP-INSTANTIATION" :: path)%string reader).
(** [application/extended_vehicle.cpp:66-118] getDoipConfiguration *)
Definition getDoipConfiguration (reader : list node) : ControllerConfig :=
  let number cast name := doip_number cast ["NETWORK-INTERFACES"; "DO-IP-NETWORK-CONFIGURATION"; name]%string reader in
  mkControllerConfig (number i32 "MAX-INITIAL-VEHICLE-ANNOUNCEMENT-TIME") (number u8 "VEHICLE-ANNOUNCEMENT-COUNT")
    (number i32 "VEHICLE-ANNOUNCEMENT-INTERVAL") 2 cDoipPacketSize.

(** [application/extended_vehicle.cpp:120-168] configureDoipServer: whether its listener is set
    up and added to the poller, and the conversations there are *)
Definition configureDoipServer (set_up added : bool) (cs : Conversation.Statics) (reader : list node) (vin : string) : M t () :=
  let cLogicalAddress := doip_number u16 ["LOGICAL-ADDRESS"]%string reader in
  let cEid := doip_number u64 ["EID"]%string reader in
  let cGid := doip_number u64 ["GID"]%string reader in
  _ ← lift (getNetworkConfiguration reader);
  let config := getDoipConfiguration reader in
  server ← lift (DoipServer.construct set_up added
                   (VehicleIdRequestHandler.mk (protocolVersion config) vin cLogicalAddress cEid cGid) mResourcesUrl cs);
  modify (set_doip (Some server)).

(** What the poller's thread does while the main loop waits: it hands a datagram to the
    service's discovery, and writes the checkpoints. *)
Inductive other := Datagram (received buffer : bytes) (port : Z) | SendCheckpoints (uninit : bytes).

Definition run_other (o : other) : M t () :=
  match o with
  | Datagram received buffer port => on_skeleton (VehicleStatusSkeleton.receive received buffer port)
  | SendCheckpoints uninit =>
      modify (fun v => let '(writes, c) := FifoCheckpointCommunicator.onCheckpointSend uninit (communicator v) in
                       mk (journal v) (mSkeleton v) (mDoipServer v) c (pipe v ++ writes))
  end.
Fixpoint run_others (os : list other) : M t () :=
  match os with [] => mret () | o :: os => run_other o;; run_others os end.

(** One round of the main loop: whether the token was set before it, which of its three
    reports find the queue locked, what happens while it waits, and how it is activated. *)
Record Cycle := mkCycle {
  cancelled : bool;
  alive_locked : bool; source_locked : bool; target_locked : bool;
  others : list other;
  activation : ActivationReturnType
}.

Definition heartbeat_text (vin : string) (configured : bool) : string :=
  ("[Heartbeat] ExtendedVehicle alive" +:+ " | VIN=" +:+
   (if bool_decide (vin = EmptyString) then "DEMO" else vin) +:+ " | SD server " +:+
   (if configured then "active" else "inactive"))%string.

(** [application/extended_vehicle.cpp:257-276] Main: what every hundredth round does *)
Definition heartbeat (vin : string) (configured : bool) : M t () :=
  say (heartbeat_text vin configured);;
  on_skeleton (VehicleStatusSkeleton.events_VehicleStatus_Send (VehicleStatusData.mk vin configured 0)).

(** [application/extended_vehicle.cpp:245-277] Main: the loop; [false] while it still runs *)
Fixpoint loop (vin : string) (configured : bool) (cycles : list Cycle) (heartbeatCounter : Z) : M t bool :=
  match cycles with
  | [] => mret false
  | c :: cycles =>
      if cancelled c then mret true
      else
        on_communicator (ReportCheckpoint (alive_locked c) AliveCheckpoint);;
        on_communicator (ReportCheckpoint (source_locked c) DeadlineSourceCheckpoint);;
        run_others (others c);;
        on_communicator (ReportCheckpoint (target_locked c) DeadlineTargetCheckpoint);;
        let heartbeatCounter := u32 (heartbeatCounter + 1) in
        (if heartbeatCounter mod 100 =? 0 then heartbeat vin configured else mret ());;
        if goes_on (activation c) then loop vin configured cycles heartbeatCounter else mret true
  end.

Definition conversations_text (active : bool) : string :=
  if active then "There were still some active diagnostic conversations at the termination."
  else "There was no active diagnostic conversation at the termination.".

(** [application/extended_vehicle.cpp:279-312] Main: what follows the loop, with the
    conversations at that time *)
Definition finish (faults : Faults) (cs : Conversation.Statics) : M t Z :=
  let active := match fst (Conversation.GetCurrentActiveConversations cs) with Ok [] => false | _ => true end in
  say (conversations_text active);;
  on_skeleton VehicleStatusSkeleton.StopOfferService;;
  say "Extended Vehicle AA has been terminated.";;
  on_journal (Journal.Sync faults);;
  mret 0.

(** The surroundings of a run: the files, the storage's directory, which calls on sockets
    succeed, the conversations at the start and at the end, the faults of the last write,
    what the DoIP library leaves of a string that is moved into it, and the text of a
    runtime error. *)
Record World := mkWorld {
  file : string → option string;
  preferred : bool;
  opens : bool;
  sockets : VehicleStatusSkeleton.Sockets;
  doip_set_up : bool;
  doip_added : bool;
  conversations : Conversation.Statics;
  last_conversations : Conversation.Statics;
  last_faults : Faults;
  left_behind : string;
  what : string
}.

Definition at_key (arguments : gmap string string) (key : string) : outcome string :=
  match arguments !! key with Some v => Ok v | None => Throw std_out_of_range end.

(** [application/extended_vehicle.cpp:222-312] Main: the block that is tried; [None] while the
    loop still runs *)
Definition body (w : World) (arguments : gmap string string) (cEvConfigFilepath : string) (cReader : list node) (cycles : list Cycle) :
    M t (option Z) :=
  skeleton ← lift (VehicleStatusManifest.skeleton (sockets w) (file w cEvConfigFilepath));
  modify (set_skeleton (Some skeleton));;
  say "Extended Vehicle AA has been initialized.";;
  _ ← lift (at_key arguments ArgumentConfiguration.cApiKeyArgument);
  _ ← lift (at_key arguments ArgumentConfiguration.cBearerTokenArgument);
  '(configured, vin) ← tryConfigureRestCommunication;
  vin ← (if (configured : bool) then
           (configureDoipServer (doip_set_up w) (doip_added w) (conversations w) cReader vin;;
            on_skeleton VehicleStatusSkeleton.OfferService;; mret (left_behind w))
         else mret vin);
  ended ← loop vin configured cycles 0;
  if (ended : bool) then (code ← finish (last_faults w) (last_conversations w); mret (Some code)) else mret None.

(** [application/extended_vehicle.cpp:314-321] Main: what is caught *)
Definition catch_runtime_error (message : string) (m : M t (option Z)) : M t (option Z) := fun v =>
  match m v with
  | (Throw std_runtime_error, v) => (on_journal (Journal.Log kError message);; mret (Some 1)) v
  | r => r
  end.

(** [application/extended_vehicle.cpp:170-322] Main: [None] while its loop runs *)
Definition Main (w : World) (arguments : gmap string string) (cycles : list Cycle) : M t (option Z) :=
  cEvConfigFilepath ← lift (at_key arguments ArgumentConfiguration.cEvConfigArgument);
  cReader ← lift (ArxmlReader.construct_file (file w cEvConfigFilepath));
  on_journal (Journal.Open (preferred w) (opens w) "/extended_vehicle.json");;
  catch_runtime_error (what w) (body w arguments cEvConfigFilepath cReader cycles).

End ExtendedVehicle.
End ExtendedVehicle.

(** ** Lemmas: a run of the vehicle *)
Module Vehicle_facts.
Import ExtendedVehicle VehicleStatus_facts.

Section Facts.
Context `{!JsonText} `{!XmlText}.

(** The vehicle's journal: what was logged, and the messages that are kept. *)
Record noted (path : string) (root : gmap string JsonValue) (fs : Fs) (log : list (LogLevel * string)) (ms : list string)
    (j : Journal.t) : Prop := {
  noted_log : Journal.logged j = log;
  noted_storage : Journal.mStorage j = Some (KeyValueStorage.mk path (number_from 0 ms root));
  noted_path : Journal.mStoragePath j = path;
  noted_counter : Journal.mLogCounter j = Z.of_nat (length ms);
  noted_fs : Journal.fs j = fs
}.

Lemma persist_noted path root fs log ms m j :
  noted path root fs log ms j → Z.of_nat (length ms) < 4294967295 →
  noted path root fs (log ++ [(kInfo, m)]) (ms ++ [m]) (Journal.persistLog m (Journal.Log kInfo m j)).
Proof.
  intros [H1 H2 H3 H4 H5] Hn. destruct j as [l st p c f]. cbn in *. subst. split; cbn; try done.
  - unfold KeyValueStorage.SetValue. cbn. by rewrite number_from_snoc.
  - rewrite length_app. cbn. ulia.
Qed.

Context (m : VehicleStatusSkeleton.Manifest) (unicast multicast : Ipv4.Ipv4Address) (Hm : manifest_ok m unicast multicast).
Context (path : string) (root : gmap string JsonValue) (fs : Fs) (c0 : Z).

(** The vehicle while it runs: its journal, the checkpoints reported so far, the number of
    subscribers and the published events. *)
Record running (log : list (LogLevel * string)) (ms : list string) (sends : list (Z * bool)) (n : nat) (es : list bytes) (v : t) :
    Prop := {
  running_noted : noted path root fs log ms (journal v);
  running_sent : pipe v ++ FifoCheckpointCommunicator.mSendQueue (communicator v) = messages_from c0 sends;
  running_queue : Forall (fun x => length x = FifoCheckpointCommunicator.cBufferSize)
                    (FifoCheckpointCommunicator.mSendQueue (communicator v));
  running_valid : Profile11.valid (FifoCheckpointCommunicator.mProfile11 (communicator v));
  running_counter : Profile11.mProtectingCounter (FifoCheckpointCommunicator.mProfile11 (communicator v)) = counter_after c0 sends;
  running_skeleton : ∃ k d, mSkeleton v = Some k ∧ set_up m multicast k ∧
    PubSub.abs (VehicleStatusSkeleton.mPubSubServer k) = Spec.Up n ∧ VehicleStatusSkeleton.mSdServer k = Some d ∧
    SomeIpPubSubServer.mPublished (VehicleStatusSkeleton.mPubSubServer k) = es
}.

Lemma say_running msg log ms sends n es v :
  running log ms sends n es v → Z.of_nat (length ms) < 4294967295 →
  ∃ v', say msg v = (Ok (), v') ∧ running (log ++ [(kInfo, msg)]) (ms ++ [msg]) sends n es v'.
Proof. intros [H1 H2 H3 H4 H5 H6] Hn. eexists. split; [done|]. split; try done. by apply persist_noted. Qed.

Lemma report_running locked id log ms sends n es v :
  running log ms sends n es v →
  ∃ v', on_communicator (ReportCheckpoint locked id) v = (Ok (), v') ∧ running log ms (sends ++ [(id, locked)]) n es v'.
Proof.
  intros [H1 H2 H3 H4 H5 H6].
  destruct (send_all_messages [(id, locked)] (communicator v) H4) as [Hs Hv]. cbn [send_all] in Hs.
  unfold on_communicator. unfold mbind, M_bind in Hs.
  destruct (ReportCheckpoint locked id (communicator v)) as [[[]| | |] c]; try done. injection Hs as Hs.
  eexists. split; [done|]. subst c. split; cbn [journal pipe communicator FifoCheckpointCommunicator.mSendQueue
    FifoCheckpointCommunicator.mProfile11 Profile11.mProtectingCounter]; try done.
  - by rewrite app_assoc, H2, messages_app, H5.
  - apply Forall_app. split; [done|]. cbn. destruct locked; cbn; [done|]. by apply Forall_singleton.
  - rewrite H5, counter_after_app. done.
Qed.

(** What the poller's thread does in such a run: it writes checkpoints, and hands
    subscriptions to the service, with whatever the datagram has behind them. *)
Definition expected (o : other) : Prop :=
  match o with
  | Datagram received _ port =>
      port = VehicleStatusSkeleton.multicastPort m ∧
      ∃ pad, received = SomeIpSdMessage.Payload (subscription (VehicleStatusSkeleton.serviceId m)
        (VehicleStatusSkeleton.instanceId m) (VehicleStatusSkeleton.majorVersion m) (VehicleStatusSkeleton.eventGroupId m)) ++ pad
  | SendCheckpoints _ => True
  end.
Definition subscriptions (os : list other) : nat :=
  length (List.filter (fun o => match o with Datagram _ _ _ => true | _ => false end) os).

Lemma whole_messages uninit q :
  Forall (fun x => length x = FifoCheckpointCommunicator.cBufferSize) q →
  omap (FifoCheckpointCommunicator.buffer_of uninit) q = q.
Proof.
  intros Hq. induction Hq as [|x q Hx _ IH]; [done|]. cbn [omap list_omap]. unfold FifoCheckpointCommunicator.buffer_of at 1.
  rewrite Hx. cbn [Nat.leb]. rewrite (proj2 (Nat.leb_le _ _)) by done. rewrite take_app_le, take_ge by lia. f_equal. exact IH.
Qed.

Lemma others_running os log ms sends n es v :
  running log ms sends n es v → Forall expected os → Z.of_nat (n + subscriptions os) < 2147483648 →
  ∃ v', run_others os v = (Ok (), v') ∧ running log ms sends (n + subscriptions os) es v'.
Proof.
  intros Hr Hos. revert n v Hr. induction Hos as [|o os Ho _ IH]; intros n v Hr Hn.
  { exists v. unfold subscriptions. cbn. by rewrite Nat.add_0_r. }
  cbn [run_others]. pose proof Hr as [H1 H2 H3 H4 H5 (k & d & Hk & Hup & Ha & Hd & He)].
  destruct o as [received buffer port|uninit].
  - destruct Ho as [-> [pad ->]]. unfold subscriptions in *. cbn [List.filter length] in *.
    destruct (receive_subscription m unicast multicast Hm pad buffer n k d Hup Ha ltac:(lia) Hd) as (k' & Hr' & Hup' & Ha' & Hp' & Hd').
    destruct (IH (S n) (set_skeleton (Some k') v)) as (v' & Hv' & Hrun').
    { split; try done. exists k', d. split; [done|]. split; [done|]. split; [done|]. split; congruence. }
    { lia. }
    exists v'. rewrite Nat.add_succ_r. split; [|exact Hrun']. unfold mbind, M_bind, run_other, on_skeleton. by rewrite Hk, Hr'.
  - unfold subscriptions in *. cbn [List.filter] in *.
    destruct (IH n (mk (journal v) (mSkeleton v) (mDoipServer v)
      (FifoCheckpointCommunicator.mk (FifoCheckpointCommunicator.mProfile11 (communicator v)) [] (FifoCheckpointCommunicator.Callback (communicator v)))
      (pipe v ++ FifoCheckpointCommunicator.mSendQueue (communicator v)))) as (v' & Hv' & Hrun').
    { split; cbn; try done; [by rewrite app_nil_r|by exists k, d]. }
    { lia. }
    exists v'. split; [|exact Hrun']. unfold mbind, M_bind, run_other, modify, FifoCheckpointCommunicator.onCheckpointSend.
    by rewrite whole_messages.
Qed.

(** An event that every receiver reads as this status. *)
Definition delivered (data : VehicleStatusData.t) (e : bytes) : Prop :=
  PubSub.deliver e = Ok (Some (VehicleStatusData.Serialize (sent_as m data) ++ replicate 221 0)).

Definition status_of (vin : string) : VehicleStatusData.t := VehicleStatusData.mk vin true 0.

Lemma heartbeat_running vin log ms sends n es v :
  running log ms sends n es v → Z.of_nat (length ms) < 4294967295 →
  let hb := heartbeat_text vin true in
  ∃ v' es', heartbeat vin true v = (Ok (), v') ∧ running (log ++ [(kInfo, hb)]) (ms ++ [hb]) sends n (es ++ es') v' ∧
    Forall (delivered (status_of vin)) es' ∧ length es' = if (n =? 0)%nat then 0%nat else 1%nat.
Proof.
  intros Hr Hn hb. destruct (say_running hb _ _ _ _ _ _ Hr Hn) as (v1 & Hv1 & Hr1).
  pose proof Hr1 as [H1 H2 H3 H4 H5 (k & d & Hk & Hup & Ha & Hd & He)].
  unfold heartbeat. unfold mbind, M_bind. fold hb. rewrite Hv1. unfold on_skeleton. rewrite Hk.
  destruct n as [|n].
  - rewrite (Send_nobody m unicast multicast Hm) by done. exists v1, []. rewrite app_nil_r. split; [|split; [done|split; [by constructor|done]]].
    f_equal. destruct v1; cbn in *. by subst.
  - destruct (Send_event m unicast multicast Hm (status_of vin) k n Hup Ha) as (k' & e & Hs & Hup' & Ha' & Hd' & Hp' & Hdel).
    unfold status_of in Hs. rewrite Hs. exists (set_skeleton (Some k') v1), [e]. split; [done|].
    split; [|split; [by apply Forall_singleton|done]]. split; try done.
    exists k', d. split; [done|]. split; [done|]. split; [done|]. split; [congruence|]. by rewrite Hp', He.
Qed.

(** How many heartbeats rounds give, and how many of them are published, from a count of
    rounds and a number of subscribers on. *)
Fixpoint beats (h : Z) (cs : list Cycle) : nat :=
  match cs with [] => 0 | _ :: cs => (if (h + 1) mod 100 =? 0 then 1 else 0) + beats (h + 1) cs end.
Fixpoint published (h : Z) (n : nat) (cs : list Cycle) : nat :=
  match cs with
  | [] => 0
  | c :: cs =>
      let n := (n + subscriptions (others c))%nat in
      (if ((h + 1) mod 100 =? 0) && negb (n =? 0)%nat then 1 else 0) + published (h + 1) n cs
  end.

(** The reports of rounds. *)
Definition reports (cs : list Cycle) : list (Z * bool) :=
  concat (map (fun c => [(AliveCheckpoint, alive_locked c); (DeadlineSourceCheckpoint, source_locked c);
                         (DeadlineTargetCheckpoint, target_locked c)]) cs).

Definition all_others (cs : list Cycle) : list other := concat (map others cs).

Definition plain (c : Cycle) : Prop := cancelled c = false ∧ goes_on (activation c) = true ∧ Forall expected (others c).

Lemma subscriptions_app a b : subscriptions (a ++ b) = (subscriptions a + subscriptions b)%nat.
Proof. unfold subscriptions. by rewrite List.filter_app, length_app. Qed.

Lemma loop_running vin cs stop h log ms sends n es v :
  running log ms sends n es v → Forall plain cs → cancelled stop = true →
  Z.of_nat (n + subscriptions (all_others cs)) < 2147483648 →
  0 <= h → h + Z.of_nat (length cs) < 4294967296 → Z.of_nat (length ms + length cs) < 4294967295 →
  let hbs := replicate (beats h cs) (heartbeat_text vin true) in
  ∃ v' es', loop vin true (cs ++ [stop]) h v = (Ok true, v') ∧
    running (log ++ map (pair kInfo) hbs) (ms ++ hbs) (sends ++ reports cs) (n + subscriptions (all_others cs)) (es ++ es') v' ∧
    Forall (delivered (status_of vin)) es' ∧ length es' = published h n cs.
Proof.
  intros Hr Hcs Hstop. revert h log ms sends n es v Hr.
  induction Hcs as [|c cs (Hc1 & Hc2 & Hc3) _ IH]; intros h log ms sends n es v Hr Hn Hh Hlen Hms.
  { exists v, []. cbn [app loop]. rewrite Hstop. cbn. rewrite !app_nil_r. change (subscriptions []) with 0%nat. rewrite Nat.add_0_r. auto. }
  cbn [app loop length] in *. rewrite Hc1.
  change (all_others (c :: cs)) with (others c ++ all_others cs) in *. rewrite subscriptions_app in *.
  destruct (report_running (alive_locked c) AliveCheckpoint _ _ _ _ _ _ Hr) as (v1 & E1 & R1).
  destruct (report_running (source_locked c) DeadlineSourceCheckpoint _ _ _ _ _ _ R1) as (v2 & E2 & R2).
  destruct (others_running (others c) _ _ _ _ _ _ R2 Hc3 ltac:(lia)) as (v3 & E3 & R3).
  destruct (report_running (target_locked c) DeadlineTargetCheckpoint _ _ _ _ _ _ R3) as (v4 & E4 & R4).
  assert (Hu : u32 (h + 1) = h + 1) by (apply u32_id; ulia). rewrite Hu.
  rewrite <- !app_assoc in R4. cbn [app] in R4. cbn [beats published]. rewrite Hc2.
  unfold mbind, M_bind. rewrite E1, E2, E3, E4.
  change (reports (c :: cs)) with ([(AliveCheckpoint, alive_locked c); (DeadlineSourceCheckpoint, source_locked c);
                         (DeadlineTargetCheckpoint, target_locked c)] ++ reports cs).
  destruct ((h + 1) mod 100 =? 0).
  - destruct (heartbeat_running vin _ _ _ _ _ _ R4 ltac:(lia)) as (v5 & es1 & E5 & R5 & D5 & L5). rewrite E5.
    destruct (IH (h + 1) _ _ _ _ _ v5 R5) as (v' & es2 & E' & R' & D' & L'); [lia..|rewrite length_app; cbn; lia|].
    exists v', (es1 ++ es2). split; [exact E'|]. split; [|split].
    + rewrite <- !app_assoc in R'. cbn [app] in R'. by rewrite Nat.add_assoc.
    + by apply Forall_app.
    + rewrite length_app, L5, L'. cbn [andb]. by destruct (n + subscriptions (others c) =? 0)%nat.
  - unfold mret, M_ret.
    destruct (IH (h + 1) _ _ _ _ _ v4 R4) as (v' & es2 & E' & R' & D' & L'); [lia..|].
    exists v', es2. split; [exact E'|]. split; [|split; [done|by cbn [andb]]].
    rewrite <- !app_assoc in R'. cbn [app] in R'. by rewrite Nat.add_assoc.
Qed.

(** *** The numbers of heartbeats, counted *)

Lemma hundreds a : 0 <= a → (a + 1) / 100 = a / 100 + (if (a + 1) mod 100 =? 0 then 1 else 0).
Proof. intros Ha. destruct (Z.eqb_spec ((a + 1) mod 100) 0); Z.div_mod_to_equations; lia. Qed.

Lemma beats_closed h cs : 0 <= h → Z.of_nat (beats h cs) = (h + Z.of_nat (length cs)) / 100 - h / 100.
Proof.
  revert h. induction cs as [|c cs IH]; intros h Hh; cbn [beats length]; [rewrite Z.add_0_r; lia|].
  rewrite Nat2Z.inj_add, IH, Nat2Z.inj_succ by lia. pose proof (hundreds h Hh).
  replace (h + 1 + Z.of_nat (length cs)) with (h + Z.succ (Z.of_nat (length cs))) by lia.
  destruct ((h + 1) mod 100 =? 0); lia.
Qed.

(** The heartbeats that have a subscriber: the [k]th one is after [100 k] rounds. *)
Definition heard (cs : list Cycle) (k : nat) : bool := negb (subscriptions (all_others (take (100 * k) cs)) =? 0)%nat.
Definition heartbeats_heard (cs : list Cycle) : nat := length (List.filter (heard cs) (seq 1 (length cs / 100))).

Lemma published_snoc h n cs c :
  published h n (cs ++ [c]) =
    (published h n cs + (if ((h + Z.of_nat (length cs) + 1) mod 100 =? 0)%Z &&
                            negb (n + subscriptions (all_others (cs ++ [c])) =? 0) then 1 else 0))%nat.
Proof.
  revert h n. induction cs as [|x cs IH]; intros h n; cbn [app published length].
  - rewrite Z.add_0_r. unfold all_others. cbn [map concat app]. rewrite app_nil_r. lia.
  - rewrite IH. change (all_others (x :: cs ++ [c])) with (others x ++ all_others (cs ++ [c])).
    rewrite subscriptions_app. replace (h + 1 + Z.of_nat (length cs)) with (h + Z.of_nat (S (length cs))) by lia.
    by rewrite !Nat.add_assoc.
Qed.

Lemma published_closed cs : published 0 0 cs = heartbeats_heard cs.
Proof.
  induction cs as [|c cs IH] using rev_ind; [done|]. rewrite published_snoc, IH, Z.add_0_l. cbn [Nat.add].
  unfold heartbeats_heard. rewrite length_app. cbn [length].
  assert (Hk : ∀ k, k ∈ seq 1 (length cs / 100) → heard (cs ++ [c]) k = heard cs k).
  { intros k Hk. apply elem_of_seq in Hk. unfold heard. rewrite take_app_le; [done|].
    pose proof (Nat.Div0.mul_div_le (length cs) 100). nia. }
  assert (Hf : List.filter (heard (cs ++ [c])) (seq 1 (length cs / 100)) = List.filter (heard cs) (seq 1 (length cs / 100))).
  { apply List.filter_ext_in. intros k Hin. apply Hk. by apply list_elem_of_In. }
  assert (Hd : ((length cs + 1) / 100 = length cs / 100 + (if ((Z.of_nat (length cs) + 1) mod 100 =? 0)%Z then 1 else 0))%nat).
  { apply Nat2Z.inj. rewrite Nat2Z.inj_add, !Nat2Z.inj_div, Nat2Z.inj_add. change (Z.of_nat 1) with 1. change (Z.of_nat 100) with 100.
    rewrite hundreds by lia. by destruct (_ =? 0). }
  rewrite Hd. destruct (Z.eqb_spec ((Z.of_nat (length cs) + 1) mod 100) 0) as [E|E]; cbn [andb]; [|by rewrite !Nat.add_0_r, Hf].
  rewrite seq_app, List.filter_app, length_app, Hf. cbn [seq List.filter]. f_equal.
  unfold heard at 1. rewrite take_ge.
  - by destruct (_ =? 0)%nat.
  - rewrite length_app. cbn [length]. cbn [andb] in Hd. pose proof (Nat.div_mod_eq (length cs + 1) 100).
    assert (((length cs + 1) mod 100 = 0)%nat) by (apply Nat2Z.inj; rewrite Nat2Z.inj_mod, Nat2Z.inj_add; exact E). lia.
Qed.

(** *** The end *)

Lemma stop_offer k n :
  PubSub.abs (VehicleStatusSkeleton.mPubSubServer k) = Spec.Up n →
  ∃ k', VehicleStatusSkeleton.StopOfferService k = (Ok (), k') ∧ VehicleStatusSkeleton.mSdServer k' = None ∧
    SomeIpPubSubServer.mPublished (VehicleStatusSkeleton.mPubSubServer k') =
    SomeIpPubSubServer.mPublished (VehicleStatusSkeleton.mPubSubServer k).
Proof. destruct k as [a b l sd [[] ctr sess ev sent pub] i del]; intros Ha; eexists; (split; [reflexivity|done]). Qed.

Definition terminated_text : string := "Extended Vehicle AA has been terminated.".
Definition initialized_text : string := "Extended Vehicle AA has been initialized.".
Definition active_at_end (cs : Conversation.Statics) : bool :=
  existsb (fun c => match Conversation.mActivityStatus c with Conversation.kActive => true | Conversation.kInactive => false end)
    (Conversation.mConversations cs).

Lemma active_conversations cs :
  match fst (Conversation.GetCurrentActiveConversations cs) with Ok [] => false | _ => true end = active_at_end cs.
Proof.
  unfold active_at_end, Conversation.GetCurrentActiveConversations. run. cbn [fst].
  induction (Conversation.mConversations cs) as [|c l IH]; [done|].
  cbn [omap list_omap existsb]. by destruct (Conversation.mActivityStatus c).
Qed.

Definition synced_text (n : nat) : string := ("[Per] Synced " +:+ pretty (Z.of_nat n) +:+ " entries to " +:+ path)%string.

Lemma sync_noted faults log ms j :
  noted path root fs log ms j →
  Journal.logged (Journal.Sync faults j) = log ++ [(kInfo, synced_text (length ms))] ∧
  Journal.mStorage (Journal.Sync faults j) = Some (KeyValueStorage.mk path (number_from 0 ms root)) ∧
  Journal.fs (Journal.Sync faults j) !! path =
    (if succeeds faults then Some (Storage.print (number_from 0 ms root)) else fs !! path).
Proof.
  intros [H1 H2 H3 H4 H5]. destruct j as [l st p c f]. cbn in H1, H2, H3, H4, H5. subst.
  split; [done|]. split; [done|]. exact (sync_file faults (KeyValueStorage.mk path (number_from 0 ms root)) fs).
Qed.

Lemma finish_running faults cs log ms sends n es v :
  running log ms sends n es v → Z.of_nat (length ms) < 4294967294 →
  let last := [conversations_text (active_at_end cs); terminated_text] in
  ∃ v' k, finish faults cs v = (Ok 0, v') ∧
    Journal.logged (journal v') = log ++ map (pair kInfo) (last ++ [synced_text (length ms + 2)]) ∧
    Journal.mStorage (journal v') = Some (KeyValueStorage.mk path (number_from 0 (ms ++ last) root)) ∧
    Journal.fs (journal v') !! path =
      (if succeeds faults then Some (Storage.print (number_from 0 (ms ++ last) root)) else fs !! path) ∧
    pipe v' ++ FifoCheckpointCommunicator.mSendQueue (communicator v') = messages_from c0 sends ∧
    mSkeleton v' = Some k ∧ VehicleStatusSkeleton.mSdServer k = None ∧
    SomeIpPubSubServer.mPublished (VehicleStatusSkeleton.mPubSubServer k) = es.
Proof.
  intros Hr Hn last. unfold finish. rewrite active_conversations.
  destruct (say_running (conversations_text (active_at_end cs)) _ _ _ _ _ _ Hr ltac:(lia)) as (v1 & E1 & R1).
  pose proof R1 as [H1 H2 H3 H4 H5 (k & d & Hk & Hup & Ha & Hd & He)].
  destruct (stop_offer k n Ha) as (k' & Ek & Hsd & Hp).
  unfold mbind, M_bind. rewrite E1. unfold on_skeleton. rewrite Hk, Ek. unfold on_journal, modify, say, mret, M_ret.
  pose proof (persist_noted path root fs _ _ terminated_text _ H1 ltac:(rewrite length_app; cbn; lia)) as N.
  rewrite <- !app_assoc in N. cbn [app] in N. destruct (sync_noted faults _ _ _ N) as (S1 & S2 & S3).
  exists (mk (Journal.Sync faults (Journal.persistLog terminated_text (Journal.Log kInfo terminated_text (journal v1)))) (Some k')
            (mDoipServer v1) (communicator v1) (pipe v1)), k'.
  split; [reflexivity|]. cbn [journal mSkeleton pipe communicator].
  split; [|split; [exact S2|split; [exact S3|split; [exact H2|split; [done|split; [exact Hsd|congruence]]]]]].
  rewrite S1, <- !app_assoc. unfold last. rewrite length_app. done.
Qed.

End Facts.
End Vehicle_facts.

(** ** Properties of the vehicle *)

Section Vehicle.
Context `{!JsonText} `{!XmlText}.
Import ExtendedVehicle Vehicle_facts VehicleStatus_facts.

Definition vehicle_path (w : World) : string := ((if preferred w then "/var/per" else "/tmp/per") +:+ "/extended_vehicle.json")%string.

(** Surroundings in which everything the start needs is there. *)
Record ready (w : World) (arguments : gmap string string) (doc : list node) (unicast multicast : Ipv4.Ipv4Address)
    (fs : Fs) (root : gmap string JsonValue) : Prop := {
  ready_arguments : ∃ config key token, arguments !! ArgumentConfiguration.cEvConfigArgument = Some config ∧
    arguments !! ArgumentConfiguration.cApiKeyArgument = Some key ∧
    arguments !! ArgumentConfiguration.cBearerTokenArgument = Some token ∧
    ArxmlReader.construct_file (file w config) = Ok doc;
  ready_manifest : manifest_ok (VehicleStatusManifest.provided doc) unicast multicast;
  ready_sockets : sockets w = all_up;
  ready_network : is_ok (getNetworkConfiguration doc) = true;
  ready_doip : doip_set_up w = true ∧ doip_added w = true;
  ready_storage : KeyValueStorage.Open (opens w) (vehicle_path w) fs = inr (KeyValueStorage.mk (vehicle_path w) root)
}.

(** The journal after the storage was opened. *)
Definition opened (w : World) (fs : Fs) (root : gmap string JsonValue) : Journal.t :=
  Journal.Log kInfo ("[Per] Storage opened at " +:+ vehicle_path w)%string
    (Journal.mk [] (Some (KeyValueStorage.mk (vehicle_path w) root)) (vehicle_path w) 0 fs).

Lemma opens_storage w fs root comm :
  KeyValueStorage.Open (opens w) (vehicle_path w) fs = inr (KeyValueStorage.mk (vehicle_path w) root) →
  Journal.Open (preferred w) (opens w) "/extended_vehicle.json" (journal (construct fs comm)) = opened w fs root.
Proof.
  intros Hst. unfold Journal.Open, construct, Journal.construct. cbn [journal Journal.fs].
  fold (vehicle_path w). by rewrite Hst.
Qed.

(** A skeleton that refuses its delays ends the start. *)
Lemma start_refused w arguments doc unicast multicast fs root comm cycles :
  ready w arguments doc unicast multicast fs root →
  let m := VehicleStatusManifest.provided doc in
  ¬ (0 <= VehicleStatusSkeleton.initialDelayMin m <= VehicleStatusSkeleton.initialDelayMax m) →
  ∃ v, Main w arguments cycles (construct fs comm) = (Throw std_invalid_argument, v) ∧
    mSkeleton v = None ∧ communicator v = comm ∧ pipe v = [] ∧
    Journal.logged (journal v) = [(kInfo, "[Per] Storage opened at " +:+ vehicle_path w)%string].
Proof.
  intros [(config & key & token & A1 & A2 & A3 & Hdoc) Hm Hso Hnet Hdoip Hst] m Hno.
  rewrite <- delays_in_order in Hno. apply not_true_is_false in Hno.
  unfold Main, mbind, M_bind, lift, at_key. rewrite A1, Hdoc. unfold on_journal, modify. rewrite (opens_storage _ _ _ _ Hst).
  unfold catch_runtime_error, body, mbind, M_bind, lift, VehicleStatusManifest.skeleton. rewrite Hdoc, Ok_bind.
  fold m in Hm |- *. rewrite Hso, (configure_throws m unicast multicast Hm Hno). by eexists.
Qed.

(** C6: a run of the extended vehicle from its start to its end.  When everything it needs
    is there and it is cancelled after any number of rounds, it returns zero, having said
    that it is initialised, which VIN it was given, a heartbeat for every hundredth round,
    whether there were active conversations, and that it is terminated; all but the second
    are in the storage under consecutive numbers, and in its file when the last write
    succeeds.  Three checkpoints were reported for each round, and have been written to the
    pipe or wait in the queue in this order, those that found the queue locked left out; and one event was published for each
    heartbeat that had a subscriber, with the VIN that was left behind when the VIN was
    moved to the DoIP server.  That is so when the initial delays of the offer are not
    negative and in order; with any others the skeleton refuses them at the start, and the
    exception, which is not one that is caught, leaves the main function with nothing but
    the opening of the storage logged. *)
Theorem vehicle_runs w arguments doc unicast multicast fs root comm cs stop :
  ready w arguments doc unicast multicast fs root →
  Profile11.valid (FifoCheckpointCommunicator.mProfile11 comm) → FifoCheckpointCommunicator.mSendQueue comm = [] →
  Forall (plain (VehicleStatusManifest.provided doc)) cs → cancelled stop = true →
  Z.of_nat (subscriptions (all_others cs)) < 2147483648 → Z.of_nat (length cs) < 4294967290 →
  let path := vehicle_path w in
  let heartbeats := replicate (length cs / 100) (heartbeat_text (left_behind w) true) in
  let last := [conversations_text (active_at_end (last_conversations w)); terminated_text] in
  let kept := initialized_text :: heartbeats ++ last in
  let m := VehicleStatusManifest.provided doc in
  let in_order := 0 <= VehicleStatusSkeleton.initialDelayMin m <= VehicleStatusSkeleton.initialDelayMax m in
  (¬ in_order →
   ∃ v, Main w arguments (cs ++ [stop]) (construct fs comm) = (Throw std_invalid_argument, v) ∧
     mSkeleton v = None ∧ communicator v = comm ∧ pipe v = [] ∧
     Journal.logged (journal v) = [(kInfo, "[Per] Storage opened at " +:+ path)%string]) ∧
  (in_order →
   ∃ v k, Main w arguments (cs ++ [stop]) (construct fs comm) = (Ok (Some 0), v) ∧
    Journal.logged (journal v) =
      map (pair kInfo) (["[Per] Storage opened at " +:+ path; initialized_text; "Demo mode: VIN set to " +:+ demo_vin]%string ++
                        heartbeats ++ last ++ [synced_text path (length kept)]) ∧
    Journal.mStorage (journal v) = Some (KeyValueStorage.mk path (number_from 0 kept root)) ∧
    Journal.fs (journal v) !! path =
      (if succeeds (last_faults w) then Some (Storage.print (number_from 0 kept root)) else fs !! path) ∧
    pipe v ++ FifoCheckpointCommunicator.mSendQueue (communicator v) =
      messages_from (Profile11.mProtectingCounter (FifoCheckpointCommunicator.mProfile11 comm)) (reports cs) ∧
    mSkeleton v = Some k ∧ VehicleStatusSkeleton.mSdServer k = None ∧
    Forall (delivered (VehicleStatusManifest.provided doc) (status_of (left_behind w)))
      (SomeIpPubSubServer.mPublished (VehicleStatusSkeleton.mPubSubServer k)) ∧
    length (SomeIpPubSubServer.mPublished (VehicleStatusSkeleton.mPubSubServer k)) = heartbeats_heard cs).
Proof.
  intros Hready Hval Hq Hcs Hstop Hsub Hlen path heartbeats last kept m in_order.
  split; [intros Hno; by apply (start_refused w arguments doc unicast multicast fs root)|].
  intros Hdelays. apply delays_in_order in Hdelays.
  destruct Hready as [(config & key & token & A1 & A2 & A3 & Hdoc) Hm Hso Hnet [Hd1 Hd2] Hst]. fold m in Hm. set (c0 := Profile11.mProtectingCounter (FifoCheckpointCommunicator.mProfile11 comm)).
  destruct (configure_ok m unicast multicast Hm Hdelays) as (k0 & Hk0 & Hup0 & Hdown0 & Hpub0 & d0 & Hd0 & Hf0 & Hc0).
  destruct (OfferService_ok m multicast k0 d0 Hup0 Hdown0 Hd0 Hf0 Hc0) as (k1 & Ho & Hup1 & Ha1 & Hpub1 & d1 & Hd1' & _).
  destruct (getNetworkConfiguration doc) as [net| | |] eqn:Enet; try done.
  set (server := DoipServer.mk (VehicleIdRequestHandler.mk 2 demo_vin (doip_number u16 ["LOGICAL-ADDRESS"]%string doc)
    (doip_number u64 ["EID"]%string doc) (doip_number u64 ["GID"]%string doc))
    (DiagMessageHandler.construct mResourcesUrl (conversations w)) []).
  set (j0 := opened w fs root).
  assert (N0 : noted path root fs [(kInfo, "[Per] Storage opened at " +:+ path)%string] [] j0) by (by split).
  pose proof (persist_noted path root fs _ _ initialized_text _ N0 eq_refl) as N1. cbn [app] in N1.
  set (j1 := Journal.persistLog initialized_text (Journal.Log kInfo initialized_text j0)) in *.
  set (j2 := Journal.Log kInfo ("Demo mode: VIN set to " +:+ demo_vin)%string j1).
  set (v1 := mk j2 (Some k1) (Some server) comm []).
  set (log0 := [(kInfo, "[Per] Storage opened at " +:+ path); (kInfo, initialized_text); (kInfo, "Demo mode: VIN set to " +:+ demo_vin)]%string).
  assert (R1 : running m multicast path root fs c0 log0 [initialized_text] [] 0 [] v1).
  { split; try done; [by unfold v1; cbn [communicator]; rewrite Hq; constructor|].
    exists k1, d1. split; [done|]. split; [done|]. split; [done|]. split; [done|]. congruence. }
  destruct (loop_running m unicast multicast Hm path root fs c0 (left_behind w) cs stop 0 log0 [initialized_text] [] 0 [] v1 R1 Hcs Hstop)
    as (v2 & es & E2 & R2 & D2 & L2); [cbn; lia..|].
  assert (Hbeats : beats 0 cs = (length cs / 100)%nat).
  { apply Nat2Z.inj. rewrite beats_closed, Nat2Z.inj_div by lia. change (0 / 100) with 0. rewrite Z.add_0_l. lia. }
  rewrite Hbeats in R2. fold heartbeats in R2. cbn [app] in R2.
  assert (Hn : Z.of_nat (length (initialized_text :: heartbeats)) < 4294967294).
  { cbn [length]. unfold heartbeats. rewrite length_replicate. pose proof (Nat.Div0.div_le_upper_bound (length cs) 100 (length cs)). lia. }
  destruct (finish_running m multicast path root fs c0 (last_faults w) (last_conversations w) _ _ _ _ _ _ R2 Hn)
    as (v & k & E3 & F1 & F2 & F3 & F4 & F5 & F6 & F7).
  exists v, k. split; [|split; [|split; [|split; [|split; [exact F4|split; [done|split; [done|]]]]]]].
  - unfold Main, mbind, M_bind, lift, at_key. rewrite A1, Hdoc. unfold on_journal, modify.
    rewrite (opens_storage _ _ _ _ Hst). fold j0. unfold catch_runtime_error, body, mbind, M_bind, lift, VehicleStatusManifest.skeleton. rewrite Hdoc, Ok_bind. fold m.
    rewrite Hso, Hk0. unfold modify, say, on_journal, at_key. rewrite A2, A3. unfold tryConfigureRestCommunication, on_journal, modify, mret, M_ret, mbind, M_bind.
    unfold configureDoipServer, lift, mbind, M_bind. rewrite Enet, Hd1, Hd2. cbn [DoipServer.construct].
    unfold modify, on_skeleton. cbn [mSkeleton set_doip set_skeleton]. rewrite Ho. cbn [set_skeleton set_doip journal mSkeleton mDoipServer communicator pipe construct].
    change (loop (left_behind w) true (cs ++ [stop]) 0 _) with (loop (left_behind w) true (cs ++ [stop]) 0 v1).
    rewrite E2, E3. done.
  - rewrite F1. replace (length (initialized_text :: heartbeats) + 2)%nat with (length kept)
      by (unfold kept; cbn [length]; rewrite length_app; cbn; lia).
    by rewrite !map_app, <- !app_assoc.
  - rewrite F2. done.
  - rewrite F3. done.
  - rewrite F7. cbn [app] in *. split; [done|]. rewrite L2. apply published_closed.
Qed.

End Vehicle.

(** A manifest of the vehicle, and a parser of nothing but it and its endpoints. *)
Definition vehicle_endpoint : string * string := ("ExtendedVehicleEP", "127.0.0.1")%string.
Definition vehicle_application : Arxml_facts.Application :=
  Arxml_facts.mkApplication "ServerUnicastTcp" NetworkConfiguration.Tcp "8081".
Definition vehicle_manifest : list node :=
  Arxml_facts.manifest [vehicle_endpoint] [vehicle_application] None
    [Manifests_facts.service_instance true
       (Manifests_facts.mkDeclared [5] [1] [1] [0] [1] [5; 5; 5; 5] "239.0.0.1" [] [] [1; 0] [1; 0; 0])].

Definition vehicle_text : XmlText.
Proof.
  refine {| load := fun s => if (s =? "1")%string then (true, true, [Arxml_facts.network_endpoint vehicle_endpoint])
                             else if (s =? "2")%string then (true, true, [Arxml_facts.application_endpoint vehicle_application])
                             else if (s =? "3")%string then (true, true, vehicle_manifest) else (false, true, []);
            Arxml.print := fun n => match pugi.name_of n with
                              | Some name => if (name =? "NETWORK-ENDPOINT")%string then "1" else "2"
                              | None => EmptyString end%string;
            version_is_one := fun s => (s =? "1.0")%string;
            printable := fun n => n = Arxml_facts.network_endpoint vehicle_endpoint ∨
                                  n = Arxml_facts.application_endpoint vehicle_application |}.
  intros name attributes children [-> | ->]; reflexivity.
Defined.

Definition vehicle_world : ExtendedVehicle.World :=
  ExtendedVehicle.mkWorld (fun path => if (path =? "ev.arxml")%string then Some "3"%string else None) true true
    VehicleStatus_facts.all_up true true Conversation.initial Conversation.initial no_faults EmptyString EmptyString.

Definition vehicle_arguments : gmap string string :=
  <[ArgumentConfiguration.cEvConfigArgument := "ev.arxml"%string]>
  (<[ArgumentConfiguration.cApiKeyArgument := EmptyString]> (<[ArgumentConfiguration.cBearerTokenArgument := EmptyString]> ∅)).

(** A hundred rounds, a subscription arriving in the third. *)
Definition quiet_round (os : list ExtendedVehicle.other) : ExtendedVehicle.Cycle :=
  ExtendedVehicle.mkCycle false false false false os kRun.
Definition vehicle_rounds : list ExtendedVehicle.Cycle :=
  replicate 2 (quiet_round [ExtendedVehicle.SendCheckpoints []]) ++
  quiet_round [ExtendedVehicle.Datagram (SomeIpSdMessage.Payload (VehicleStatus_facts.subscription 5 1 1 1)) [] 5555] ::
  replicate 97 (quiet_round []).

Lemma vehicle_ready :
  @ready demo_text vehicle_text vehicle_world vehicle_arguments vehicle_manifest
    (Ipv4.mk 127 0 0 1) (Ipv4.mk 239 0 0 1) ∅ ∅.
Proof.
  split; try reflexivity.
  - exists "ev.arxml"%string, EmptyString, EmptyString. repeat (split; [reflexivity|]). reflexivity.
  - split; by_eval.
  - split; reflexivity.
Qed.

Lemma vehicle_runs_witness :
  ∃ v k, @ExtendedVehicle.Main demo_text vehicle_text vehicle_world vehicle_arguments
           (vehicle_rounds ++ [ExtendedVehicle.mkCycle true false false false [] kRun])
           (ExtendedVehicle.construct ∅ FifoCheckpointCommunicator.construct) = (Ok (Some 0), v) ∧
    ExtendedVehicle.mSkeleton v = Some k ∧
    length (SomeIpPubSubServer.mPublished (VehicleStatusSkeleton.mPubSubServer k)) = 1%nat.
Proof.
  destruct (@vehicle_runs demo_text vehicle_text vehicle_world vehicle_arguments vehicle_manifest (Ipv4.mk 127 0 0 1)
    (Ipv4.mk 239 0 0 1) ∅ ∅ FifoCheckpointCommunicator.construct vehicle_rounds
    (ExtendedVehicle.mkCycle true false false false [] kRun)) as [_ H].
  - exact vehicle_ready.
  - split; by_eval.
  - reflexivity.
  - assert (Hq : ∀ os, Forall (Vehicle_facts.expected (VehicleStatusManifest.provided vehicle_manifest)) os →
      Vehicle_facts.plain (VehicleStatusManifest.provided vehicle_manifest) (quiet_round os)) by (intros os Hos; by split).
    apply Forall_app. split; [apply Forall_replicate, Hq; by repeat constructor|].
    apply Forall_cons. split; [|apply Forall_replicate, Hq; constructor].
    apply Hq, Forall_singleton. split; [reflexivity|]. exists []. symmetry. apply app_nil_r.
  - reflexivity.
  - vm_compute. reflexivity.
  - vm_compute. reflexivity.
  - destruct (H ltac:(by_eval)) as (v & k & H1 & H2 & H3 & H4 & H5 & H6 & H7 & H8 & H9).
    exists v, k. split; [exact H1|]. split; [exact H6|]. rewrite H9. vm_compute. reflexivity.
Defined.
