(* ===== verification/Programs.v ===== *)
(** * The programs: src/main.cpp, application/*_main.cpp, application/time_synchronization.cpp

    What each process does around the objects of the other files: its arguments with their
    defaults, the objects that it sets up and which failure ends it before they exist, the
    loop that polls until a signal comes, and the exit code.  Four of the processes report to
    execution management that they run.  The theorems: these reports end as execution
    management's table says, from the manifest on; how a process ends; which addresses the
    update client connects to. *)

From stdpp Require Import gmap strings.
From S2P Require Import Prelude Texts Arxml Payload SomeIp Rpc Connections Exec Platform Manifests Storage Ucm PackageService.
From S2P Require Import VehicleUpdate UpdateService.
#[local] Open Scope Z_scope.
Import ArgumentConfiguration.

#[export] Instance address_eq_dec : EqDecision NetworkConfiguration.t.
Proof. solve_decision. Defined.

(** ** Arguments *)

(** [argc > i ? argv[i] : byDefault]. *)
Definition argument (argv : list string) (i : nat) (byDefault : string) : string := default byDefault (argv !! i).

(** [application/extended_vehicle_main.cpp:29-30] cDefaultExecManifest, of four programs *)
Definition cDefaultExecManifest : string := "../../configuration/execution_manifest.arxml".

(** [application/extended_vehicle_main.cpp:31-45] the arguments of the extended vehicle: the keys of the cloud stay empty *)
Definition extended_vehicle_arguments (argv : list string) : gmap string string :=
  <[cBearerTokenArgument := EmptyString]> (<[cApiKeyArgument := EmptyString]>
  (<[cEvConfigArgument := argument argv 2 "../../configuration/extended_vehicle_manifest.arxml"]>
   {[ cConfigArgument := argument argv 1 cDefaultExecManifest ]})).

(** [application/watchdog_application_main.cpp:30-40] the arguments of the watchdog *)
Definition watchdog_arguments (argv : list string) : gmap string string :=
  <[cWatchdogConfigArgument := argument argv 2 "../../configuration/machine_a/watchdog_manifest.arxml"]>
   {[ cConfigArgument := argument argv 1 cDefaultExecManifest ]}.

(** [application/platform/diagnostic_manager_main.cpp:30-40] the arguments of the diagnostic manager *)
Definition diagnostic_manager_arguments (argv : list string) : gmap string string :=
  <[cDmConfigArgument := argument argv 2 "../../configuration/diagnostic_manager_manifest.arxml"]>
   {[ cConfigArgument := argument argv 1 cDefaultExecManifest ]}.

(** [application/platform/platform_health_management_main.cpp:31-43] the arguments of health management *)
Definition health_arguments (argv : list string) : gmap string string :=
  <[cPhmConfigArgument := argument argv 2 "../../configuration/health_monitoring_manifest.arxml"]>
   {[ cConfigArgument := argument argv 1 cDefaultExecManifest ]}.

(** [application/platform/state_management_main.cpp:23-28] the arguments of state management *)
Definition state_management_arguments (argv : list string) : gmap string string :=
  {[ cConfigArgument := argument argv 1 cDefaultExecManifest ]}.

(** [main.cpp:39-43] the arguments of execution management *)
Definition execution_management_arguments (argv : list string) : gmap string string :=
  {[ cConfigArgument := argument argv 1 "./configuration/execution_manifest.arxml" ]}.

(** ** The loop *)

(** [application/extended_vehicle_main.cpp:79-83] polling until gRunning is false: what each look at it
    gives, and how often was polled *)
Fixpoint main_loop {S} (poll : M S ()) (looks : list bool) (polls : nat) : M S nat :=
  match looks with
  | [] => lift OutOfFuel
  | true :: looks => poll;; main_loop poll looks (Datatypes.S polls)
  | false :: _ => mret polls
  end.

(** ** Processes that report to execution management *)
Inductive Reporter := ExtendedVehicle | WatchdogApplication | DiagnosticManager | PlatformHealthManagement.

#[export] Instance Reporter_eq_dec : EqDecision Reporter.
Proof. solve_decision. Defined.

(** [application/extended_vehicle_main.cpp:61-61] the texts of the instance specifiers *)
Definition instance_specifier (r : Reporter) : string :=
  match r with
  | ExtendedVehicle => "ExtendedVehicle"
  | WatchdogApplication => "WatchdogApplication"
  | DiagnosticManager => "DiagnosticManager"
  | PlatformHealthManagement => "PlatformHealthManagement"
  end.

Section Reporting.
Context `{Parser : !XmlText}.

(** [ara/exec/execution_client.h:47-52] the default timeout *)
Definition cTimeout : Z := 30.

(** [application/extended_vehicle_main.cpp:47-62] the RPC configuration, whose result nobody looks at, the
    checkpoint communicator of the two processes that have one, the RPC client and the
    execution client.  [old] is what the configuration holds before, [pipe] whether the
    communicator is set up, [up] what the RPC client's socket and the poller say. *)
Definition connect (file : option string) (old : NetworkConfiguration.t * Z) (pipe : bool) (up : NetworkConfiguration.t → bool)
    (r : Reporter) : outcome (NetworkConfiguration.t * RpcClient.t ExecutionClient.State * ExecutionClient.State) :=
  '(_, cfg, version) ← NetworkConfiguration.TryGetRpcConfiguration file "RpcServerEP" "ServerUnicastTcp" old.1 old.2;
  if negb pipe && bool_decide (r = ExtendedVehicle ∨ r = PlatformHealthManagement) then Throw std_runtime_error
  else
    _ ← ClientSocket.construct true (up cfg) true true ();
    c ← ExecutionClient.construct (bytes_of_string (instance_specifier r)) cTimeout;
    Ok (cfg, ExecutionClient.register (RpcClient.construct version 1), c).

Section Run.
Context {S : Type}.
(** What the poller's callbacks do in a round, the looks at gRunning, and what [Main] returns
    for its arguments once it is cancelled. *)
Variables (poll : M S ()) (looks : list bool) (Main : gmap string string → Z).

(** A process from its objects on: its thread is started, the loop runs until the signal, and the
    exit code is asked for. *)
Definition run_process (arguments : gmap string string) : M S Z :=
  let p := ModelledProcess.Initialize ModelledProcess.construct in
  _ ← main_loop poll looks 0;
  mret (fst (ModelledProcess.Terminate (Main arguments) p)).

Variables (files : string → option string) (old : NetworkConfiguration.t * Z) (pipe : bool) (up : NetworkConfiguration.t → bool).

Definition reporting_process (r : Reporter) (argv : list string) (arguments : list string → gmap string string) : M S Z :=
  _ ← lift (connect (files (argument argv 1 cDefaultExecManifest)) old pipe up r);
  run_process (arguments argv).

(** [application/extended_vehicle_main.cpp:24-87] main *)
Definition extended_vehicle_main (argv : list string) : M S Z :=
  reporting_process ExtendedVehicle argv extended_vehicle_arguments.

(** [application/watchdog_application_main.cpp:23-80] main *)
Definition watchdog_main (argv : list string) : M S Z :=
  reporting_process WatchdogApplication argv watchdog_arguments.

(** [application/platform/diagnostic_manager_main.cpp:23-80] main *)
Definition diagnostic_manager_main (argv : list string) : M S Z :=
  reporting_process DiagnosticManager argv diagnostic_manager_arguments.

(** [application/platform/platform_health_management_main.cpp:24-88] main *)
Definition health_main (argv : list string) : M S Z :=
  reporting_process PlatformHealthManagement argv health_arguments.

(** [application/platform/state_management_main.cpp:18-45] main *)
Definition state_management_main (argv : list string) : M S Z := run_process (state_management_arguments argv).

(** [main.cpp:34-63] main: a thread of its own polls, until [running] is false, which is after
    Terminate has returned: the looks are the ones at [running] *)
Definition execution_management_main (argv : list string) : M S Z := run_process (execution_management_arguments argv).

End Run.

(** A report over the connection, served by execution management: what ReportExecutionState
    returns, [None] for success. *)
Definition report (srv : RpcServer.t ExecutionServer.State) (cl : RpcClient.t ExecutionClient.State) (c : ExecutionClient.State) :
    M ExecutionServer.State (option Z) := fun s =>
  match ExecutionClient.report ExecutionServer.kRunning (cl, c) with
  | (Ok (inl e), _) => (Ok (Some e), s)
  | (Ok (inr request), (cl, c)) =>
      match RpcServer.TryInvokeHandler srv request s with
      | (Ok (Some response), s) =>
          let '(r, c) := RpcClient.InvokeHandler cl response c in
          (_ ← r; Ok (fst (ExecutionClient.awake c)), s)
      | (Ok None, s) => (Ok (fst (ExecutionClient.awake c)), s)
      | (Throw e, s) => (Throw e, s)
      | (Undefined, s) => (Undefined, s)
      | (OutOfFuel, s) => (OutOfFuel, s)
      end
  | (Throw e, _) => (Throw e, s)
  | (Undefined, _) => (Undefined, s)
  | (OutOfFuel, _) => (OutOfFuel, s)
  end.

(** Processes that are started one after the other, each with a client of its own. *)
Fixpoint report_all (file : option string) (old : NetworkConfiguration.t * Z) (up : NetworkConfiguration.t → bool)
    (srv : RpcServer.t ExecutionServer.State) (rs : list Reporter) : M ExecutionServer.State (list (option Z)) :=
  match rs with
  | [] => mret []
  | r :: rs =>
      '(_, cl, c) ← lift (connect file old true up r);
      result ← report srv cl c;
      results ← report_all file old up srv rs;
      mret (result :: results)
  end.

End Reporting.

(** ** The other programs *)

(** [application/time_synchronization.cpp:29-36] TimeSynchronizationMain: the loop, given what each look
    at gRunning gives, two in each round; the lines printed so far *)
Fixpoint heartbeats (looks : list bool) (lines : nat) : outcome (Z * nat) :=
  match looks with
  | false :: _ => Ok (0, lines)
  | true :: after :: looks => heartbeats looks (if (after : bool) then S lines else lines)
  | _ => OutOfFuel
  end.

(** [application/time_synchronization.cpp:20-45] TimeSynchronizationMain, main: the exit code and how many
    lines were printed *)
Definition TimeSynchronizationMain (looks : list bool) : outcome (Z * nat) := heartbeats looks 1.

Section Update.
Context `{Parser : !XmlText} `{Text : !JsonText} `{Pugi : !Xml}.
Variable system : string → Fs → Z * Fs.
Variable is_directory : string → bool.
Variable exit_faults : Faults.
Variable metadata_opens : bool.
Variable activation_faults : ActivationFaults.

(** [application/platform/update_config_manager_main.cpp:17-48] main, up to its loop: the service on its
    manifest and its storage root *)
Definition update_config_manager_main (files : string → option string) (setup : NetworkConfiguration.t → bool)
    (directory registry_opens : bool) (argv : list string) (fs : Fs) : outcome UpdateConfigManager.t :=
  UpdateConfigManager.construct system is_directory exit_faults metadata_opens activation_faults setup true
    directory registry_opens (files (argument argv 1 "../../configuration/machine_a/ucm_manifest.arxml"))
    (argument argv 2 "/tmp/per/ucm") fs.

(** [application/platform/vehicle_update_config_manager_main.cpp:21-62] main, given the address that the service
    listens on, and what the program finds out about the file *)
Definition vehicle_update_main (srv : RpcServer.t PackageManagementSkeleton.World) (listening : NetworkConfiguration.t)
    (cut : bytes → list bytes) (file_size : option Z) (file_opens : bool) (file_reads : list (option bytes)) (argv : list string) :
    M (ServerSocket.State PackageManagementSkeleton.World) Z :=
  match argv with
  | _ :: targetIp :: targetPort :: packagePath :: installRoot :: manifestPath :: _ =>
      port ← lift (stoi targetPort);
      if bool_decide (listening = NetworkConfiguration.mk targetIp (u16 port))
      then visit srv cut (mkClient packagePath installRoot manifestPath file_size file_opens file_reads)
      else raise std_runtime_error
  | _ => mret 1
  end.

End Update.

(** ** Lemmas *)
Section Facts.
Context `{Parser : !XmlText}.

(** The loop has polled once for each look before the signal. *)
Lemma main_loop_polls {S} (poll : M S ()) n looks k s :
  (∀ s, fst (poll s) = Ok ()) →
  main_loop poll (repeat true n ++ false :: looks) k s = (Ok (n + k)%nat, Nat.iter n (fun s => snd (poll s)) s).
Proof.
  intros Hp. revert k s. induction n as [|n IH]; intros k s; [done|]. cbn [repeat app main_loop]. run.
  specialize (Hp s). destruct (poll s) as [r s1] eqn:E. cbn in Hp. subst r. rewrite IH.
  f_equal; [f_equal; lia|]. rewrite Nat.iter_succ_r. by rewrite E.
Qed.

Lemma connect_ok content endpoints applications version others e a old pipe up r :
  Arxml.load content = (true, true, Arxml_facts.manifest endpoints applications (Some version) others) →
  Arxml_facts.printable_manifest endpoints applications →
  List.find (Arxml_facts.named_endpoint "RpcServerEP") endpoints = Some e →
  List.find (Arxml_facts.named_application "ServerUnicastTcp") applications = Some a →
  let cfg := NetworkConfiguration.mk e.2 (Arxml_facts.port_for NetworkConfiguration.Tcp a) in
  up cfg = true → pipe = true →
  ∃ c, connect (Some content) old pipe up r =
    Ok (cfg, ExecutionClient.register (RpcClient.construct (u8 (pugi.get_value_uint version)) 1), c) ∧
    ExecutionClient.mInstanceSpecifier c = bytes_of_string (instance_specifier r) ∧ ExecutionClient.mFuture c = false.
Proof.
  intros Hload Hprint He Ha cfg Hup ->. unfold connect, NetworkConfiguration.TryGetRpcConfiguration,
    ArxmlReader.construct_file, ArxmlReader.construct.
  rewrite Hload. change (ArxmlReader.validate true true _) with true. cbv iota.
  rewrite Ok_bind, Arxml_facts.find_configuration, He, Ha, Ok_bind by done. cbn [negb andb].
  change (NetworkConfiguration.TryExtractDeepValue _ _ _ _ _) with (Ok (Some (u8 (pugi.get_value_uint version)))).
  rewrite Ok_bind. fold cfg. rewrite (Ok_bind (true, cfg, u8 (pugi.get_value_uint version))), Hup.
  eexists. split; [reflexivity|by split].
Qed.

(** Execution management's RPC server with the execution server's handler. *)
Definition execution_service (protocolVersion : Z) : RpcServer.t ExecutionServer.State :=
  ExecutionServer.register (RpcServer.construct protocolVersion 1).

Definition reported_name (r : Reporter) : Exec.name := bytes_of_string (instance_specifier r).

Lemma reported_name_inj r1 r2 : reported_name r1 = reported_name r2 → r1 = r2.
Proof. by destruct r1, r2. Qed.

Lemma report_taken_down version c r s :
  is_u8 version → ExecutionClient.mInstanceSpecifier c = reported_name r → ExecutionClient.mFuture c = false →
  report (execution_service version) (ExecutionClient.register (RpcClient.construct version 1)) c s =
    (Ok (error_of (fst (report_spec s (reported_name r)))), snd (report_spec s (reported_name r))).
Proof.
  intros Hv Hid Hf.
  destruct (report_end_to_end (execution_service version) (ExecutionClient.register (RpcClient.construct version 1)) s c)
    as (request & response & cl' & c1 & c2 & c3 & H1 & H2 & H3 & H4 & _); try done.
  - rewrite Hid. apply is_bytes_of_string.
  - rewrite Hid. by destruct r.
  - rewrite Hid in *. unfold report. rewrite H1, H2, H3, Ok_bind, H4. done.
Qed.

(** What the reports find and leave in the table. *)
Fixpoint reports_spec (rs : list Reporter) (s : ExecutionServer.State) : list (option Z) * ExecutionServer.State :=
  match rs with
  | [] => ([], s)
  | r :: rs =>
      let '(results, s') := reports_spec rs (snd (report_spec s (reported_name r))) in
      (error_of (fst (report_spec s (reported_name r))) :: results, s')
  end.

Lemma reports_spec_table rs s id :
  ExecutionServer.TryGetExecutionState id (snd (reports_spec rs s)) =
    if bool_decide (id ∈ map reported_name rs) then Some ExecutionServer.kRunning else ExecutionServer.TryGetExecutionState id s.
Proof.
  revert s. induction rs as [|r rs IH]; intros s; [done|]. cbn [reports_spec map].
  specialize (IH (snd (report_spec s (reported_name r)))). destruct (reports_spec rs _) as [results s'] eqn:E.
  cbn [snd] in *. rewrite IH. unfold ExecutionServer.TryGetExecutionState, report_spec.
  destruct (decide (id ∈ map reported_name rs)) as [Hin|Hout].
  - rewrite !bool_decide_eq_true_2 by (done || by right). done.
  - rewrite (bool_decide_eq_false_2 (id ∈ map reported_name rs)) by done. destruct (decide (id = reported_name r)) as [->|Hne].
    + rewrite (bool_decide_eq_true_2 (reported_name r ∈ _)) by left. destruct (bool_decide (ExecutionServer.mExecutionStates s !! _ = _)) eqn:H;
        cbn [snd ExecutionServer.mExecutionStates]; [by apply bool_decide_eq_true_1 in H|].
      by rewrite lookup_insert_eq.
    + rewrite (bool_decide_eq_false_2 (id ∈ reported_name r :: _)) by (by intros [?|?]%elem_of_cons).
      destruct (bool_decide (ExecutionServer.mExecutionStates s !! _ = _)); cbn [snd ExecutionServer.mExecutionStates]; [done|].
      by rewrite lookup_insert_ne.
Qed.

Lemma reports_spec_new rs s :
  NoDup rs → (∀ r, r ∈ rs → ExecutionServer.TryGetExecutionState (reported_name r) s ≠ Some ExecutionServer.kRunning) →
  fst (reports_spec rs s) = replicate (length rs) None.
Proof.
  revert s. induction rs as [|r rs IH]; intros s Hd Hn; [done|]. apply NoDup_cons in Hd as [Hr Hd].
  cbn [reports_spec length replicate].
  assert (Hspec : report_spec s (reported_name r) =
    (Future.Value, ExecutionServer.mk (<[reported_name r := ExecutionServer.kRunning]> (ExecutionServer.mExecutionStates s)))).
  { unfold report_spec. rewrite bool_decide_eq_false_2; [done|]. apply (Hn r). left. }
  rewrite Hspec. cbn [fst snd error_of].
  specialize (IH (ExecutionServer.mk (<[reported_name r := ExecutionServer.kRunning]> (ExecutionServer.mExecutionStates s))) Hd).
  destruct (reports_spec rs _) as [results s']. cbn [fst] in *. rewrite IH; [done|].
  intros r' Hr'. unfold ExecutionServer.TryGetExecutionState in *. cbn [ExecutionServer.mExecutionStates].
  rewrite lookup_insert_ne; [apply Hn; by right|]. intros E. apply reported_name_inj in E. congruence.
Qed.

End Facts.

(** ** Theorems *)

(** The processes report that they run, from the manifest that execution management reads too:
    whichever of them are started, in any order and repeatedly, each connects to the address
    that is declared, and its report is taken down in execution management's table; it fails,
    with [kAlreadyInState], exactly when the process has reported before, which a process that
    is started again runs into, since nothing ever removes an entry. *)
Theorem programs_report_running `{Parser : !XmlText} content endpoints applications version others e a old up rs s :
  Arxml.load content = (true, true, Arxml_facts.manifest endpoints applications (Some version) others) →
  Arxml_facts.printable_manifest endpoints applications →
  List.find (Arxml_facts.named_endpoint "RpcServerEP") endpoints = Some e →
  List.find (Arxml_facts.named_application "ServerUnicastTcp") applications = Some a →
  up (NetworkConfiguration.mk e.2 (Arxml_facts.port_for NetworkConfiguration.Tcp a)) = true →
  let srv := execution_service (u8 (pugi.get_value_uint version)) in
  ∃ s',
    report_all (Some content) old up srv rs s = (Ok (fst (reports_spec rs s)), s') ∧
    (∀ id, ExecutionServer.TryGetExecutionState id s' =
       if bool_decide (id ∈ map reported_name rs) then Some ExecutionServer.kRunning
       else ExecutionServer.TryGetExecutionState id s) ∧
    (NoDup rs → (∀ r, r ∈ rs → ExecutionServer.TryGetExecutionState (reported_name r) s ≠ Some ExecutionServer.kRunning) →
       fst (reports_spec rs s) = replicate (length rs) None) ∧
    (∀ r, r ∈ rs → report_all (Some content) old up srv [r] s' = (Ok [Some kAlreadyInState], s')).
Proof.
  intros Hload Hprint He Ha Hup srv.
  assert (Hall : ∀ rs s, report_all (Some content) old up srv rs s = (Ok (fst (reports_spec rs s)), snd (reports_spec rs s))).
  { clear rs s. intros rs. induction rs as [|r rs IH]; intros s; [done|]. cbn [report_all reports_spec].
    destruct (connect_ok content endpoints applications version others e a old true up r Hload Hprint He Ha Hup eq_refl)
      as (c & Hc & Hid & Hf).
    run. rewrite Hc. cbn beta iota. unfold srv at 1. rewrite (report_taken_down _ c r s (u8_is _) Hid Hf), IH.
    by destruct (reports_spec rs _). }
  exists (snd (reports_spec rs s)). split; [apply Hall|]. split; [intros id; apply reports_spec_table|].
  split; [apply reports_spec_new|]. intros r Hr. rewrite Hall. cbn [reports_spec].
  pose proof (reports_spec_table rs s (reported_name r)) as Ht.
  rewrite bool_decide_eq_true_2 in Ht by (by apply list_elem_of_fmap_2).
  unfold report_spec, ExecutionServer.TryGetExecutionState in *. by rewrite bool_decide_eq_true_2.
Qed.

(** How a process ends: its poller is called once for each look before the signal, and its exit
    code is what its [Main] returns; a process whose manifest does not load, whose pipe cannot
    be set up or who cannot connect ends with an exception before its [Main] has started. *)
Theorem processes_end `{Parser : !XmlText} {S} (poll : M S ()) n looks Main files old pipe up r argv arguments s :
  (∀ s, fst (poll s) = Ok ()) →
  let file := files (argument argv 1 cDefaultExecManifest) in
  match connect file old pipe up r with
  | Ok _ => reporting_process poll (repeat true n ++ false :: looks) Main files old pipe up r argv arguments s =
      (Ok (Main (arguments argv)), Nat.iter n (fun s => snd (poll s)) s)
  | Throw e => reporting_process poll (repeat true n ++ false :: looks) Main files old pipe up r argv arguments s = (Throw e, s)
  | _ => True
  end.
Proof.
  intros Hp file. unfold reporting_process. run. fold file. destruct (connect file old pipe up r); try done.
  unfold run_process. run. by rewrite main_loop_polls.
Qed.

(** The address that the update client connects to: the text of the port may be any that
    std::stoi takes, modulo 65536, and anything else, or a service that listens elsewhere, ends
    the program with an exception; without five arguments it ends with 1. *)
Theorem update_client_connects (srv : RpcServer.t PackageManagementSkeleton.World) listening cut size opens reads
    program ip port package root manifest more s :
  (∀ argv, (length argv < 6)%nat → vehicle_update_main srv listening cut size opens reads argv s = (Ok 1, s)) ∧
  let argv := program :: ip :: port :: package :: root :: manifest :: more in
  match stoi port with
  | Ok n =>
      vehicle_update_main srv listening cut size opens reads argv s =
        if bool_decide (listening = NetworkConfiguration.mk ip (u16 n))
        then visit srv cut (mkClient package root manifest size opens reads) s
        else (Throw std_runtime_error, s)
  | Throw e => vehicle_update_main srv listening cut size opens reads argv s = (Throw e, s)
  | _ => True
  end.
Proof.
  split.
  - intros argv Hl. destruct argv as [|? [|? [|? [|? [|? [|? ?]]]]]]; cbn in Hl; (done || lia).
  - cbn [vehicle_update_main]. run. destruct (stoi port) as [n| | |]; try done. by case_bool_decide.
Qed.

(** Two processes, one of which is started twice. *)
Lemma programs_report_running_witness :
  ∃ s', @report_all example_text (Some "3"%string) (NetworkConfiguration.mk EmptyString 7, 9) (fun _ => true) (execution_service 1)
      [ExtendedVehicle; DiagnosticManager; ExtendedVehicle] (ExecutionServer.mk ∅) = (Ok [None; None; Some kAlreadyInState], s') ∧
    ExecutionServer.TryGetExecutionState (reported_name DiagnosticManager) s' = Some ExecutionServer.kRunning.
Proof.
  destruct (@programs_report_running example_text "3" [("RpcServerEP", "127.0.0.1")%string] [example_application] "1" []
    ("RpcServerEP", "127.0.0.1")%string example_application (NetworkConfiguration.mk EmptyString 7, 9) (fun _ => true)
    [ExtendedVehicle; DiagnosticManager; ExtendedVehicle] (ExecutionServer.mk ∅) eq_refl example_printable eq_refl eq_refl eq_refl)
    as (s' & H & Ht & _).
  exists s'. split; [exact H|]. rewrite Ht. vm_compute. reflexivity.
Defined.
